(* ===== verification/_CoqProject ===== *)
-Q . S2P
Prelude.v
Messages.v
Vka.v
Untypeds.v
Server.v
Sel4Buffer.v
Driver.v
Caps.v
Kernel.v
CSpace.v
CNode.v
Scheduler.v
Wakeup.v
Paging.v
VSpace.v
IOSpace.v
Ipc.v
Waiting.v
Signals.v
Cancel.v
Notification.v
Transfer.v
Endpoint.v
Reply.v
Retype.v
Reset.v
Creation.v
Deletion.v
Finalise.v
Revoke.v
Decode.v
Threads.v
Mmu.v
Devices.v
Interrupts.v
Syscall.v
Rejection.v
Fastpath.v
FastCall.v
FastReply.v
Entry.v
Authority.v
Privilege.v
Mapping.v
Ports.v
Regions.v
Boot.v
Provision.v
Startup.v
MemoryMap.v
Image.v
