(* ===== verification/Prelude.v ===== *)
(** * A verification development for the green-thread server and the seL4 kernel it runs on

    The program ([src/main.c]) is a root task for seL4 on 32-bit x86.  It boots,
    collects untyped memory, starts client processes and serves their requests:
    producers and consumers that share a bounded buffer, on green threads or on
    kernel threads.  The kernel of the build is in the repository as one C file
    ([src/build/kernel/kernel_all.c], preprocessed in [kernel_final.c]); the
    libraries are there as headers ([src/stage/x86/pc99/include]).  The
    development follows the program down: the server's code, the synchronisation
    it is built on, and the kernel operations these rest on.

    ** How code is modelled

    A function is a Rocq function of the same name.  Code with effects is a
    computation [M S A] of the state [S] ([Prelude]): it returns, or halts with a
    failed assertion, a bad pointer, a fatal report or an exit.  [wp m Q s] says
    that [m] returns from [s] and that [Q] holds then; a theorem with [wp]
    therefore includes that no assertion fails and that loops end; [wlp] asks it
    of a run that returns only, and [wpe] has a second postcondition for one that
    halts.  Machine words are integers with their wrap-around written out ([wrap32]).  Library code that
    is not in the repository (allocman, sel4utils, the green-thread library) is an
    argument of the definitions, with what the code relies on as hypotheses.  For
    the allocator these are [Vka.VkaLaws], as the comments of [vka/vka.h] state
    them: memory can be handed back once the capabilities to the object are deleted,
    a slot if it was allocated, and a kernel invocation can answer with an error.  The server's
    theorems hold for every environment ([Server.Env]), which also decides what a
    read from a stack frame that is gone gives.  Of the libraries of the driver
    ([Driver.Libs]) the theorems ask that copies go to the next free slot and that
    the architecture's code writes its own fields of the init data
    ([Driver.CSpaceLaws]).

    The kernel's state is one record ([Kernel.ks]): threads, endpoints,
    notifications and slots by address, the scheduler's globals, the error
    reports, and the words of memory that page tables, ASID pools, the tables of
    the IOMMU and the IPC buffers consist of.  A pointer to an address without an
    object of that kind halts with [BadPointer].

    ** Files

    - [Messages]: message tags, rights, priorities and capability data of libsel4,
      bit field by bit field ([shared_types_gen.h], [types_gen.h]).
    - [Vka]: the allocator interface and the object layer ([vka/*.h]).
    - [Untypeds], [Server], [Driver]: [main.c]: the stock of untyped memory, the
      four variants of request processing with both server loops, and boot, tests
      and clients.
    - [Sel4Buffer]: the producer/consumer server on kernel threads as a machine of
      interleaved steps, with the mutex down to its compare-and-exchange
      ([main.c], [sync/*.h]).
    - [Caps], [CSpace], [CNode]: capabilities, address resolution, slots and the
      derivation list ([object/objecttype.c], [kernel/cspace.c],
      [object/cnode.c]).
    - [Kernel], [Scheduler], [Wakeup]: kernel state and doubly linked queues; the
      ready queues and bitmaps ([object/tcb.c]); scheduling ([kernel/thread.c]) and
      the invariant [sched_inv] across blocking and waking.
    - [Ipc], [Waiting], [Signals], [Cancel], [Notification]: notifications, the
      queues of endpoints, cancellation and finalisation ([object/notification.c],
      [object/endpoint.c], [object/objecttype.c]), and the invariant [ipc_ok] of
      the waiting threads.
    - [Transfer], [Endpoint], [Reply]: messages, their capabilities, faults and
      replies ([kernel/thread.c], [object/tcb.c], [api/faults.c]); sending, calling
      and receiving; replying, and deleting a capability to an endpoint.
    - [Retype], [Reset], [Creation]: untyped memory and the creation of objects
      ([object/untyped.c], [object/objecttype.c], [model/preemption.c]).
    - [Deletion], [Finalise], [Revoke]: deleting and revoking capabilities with the
      zombies of tables ([object/cnode.c]): the code and its step relation on the
      capabilities; that finalisation keeps the invariant [del_inv]; that the
      recursion ends.
    - [Decode], [Threads], [Interrupts]: the invocations of CNodes, threads and
      interrupt lines, from the message to the operation ([object/cnode.c],
      [object/tcb.c], [object/interrupt.c] and its architecture part).
    - [Paging], [VSpace], [IOSpace]: the entries of page tables, ASID pools and VT-d
      tables as bits of words; address spaces and what is unmapped when a capability
      goes ([arch/x86/kernel/vspace.c], [arch/x86/32/kernel/vspace.c],
      [vspace_32paging.c]); the tables of the IOMMU ([arch/x86/object/iospace.c]).
    - [Mmu], [Devices]: the invocations of frames, page tables, directories, ASIDs,
      I/O ports and IO page tables, up to [Arch_decodeInvocation]; [Mapping] says
      what the hardware walk ([translate]) makes of them, [Ports] which ports are
      accessed.
    - [Syscall], [Fastpath], [Entry]: the system calls ([api/syscall.c]), the fast
      paths ([fastpath/fastpath.c]) and the C part of the entries
      ([arch/x86/c_traps.c]); [FastCall] and [FastReply] compare the fast
      paths with the slow ones.
    - [Regions], [Boot]: the boot code ([kernel/boot.c], [arch/x86/kernel/boot.c], the
      boot parts of [vspace.c]): free memory and physical memory, and everything
      [init_sys_state] makes of it; [Provision] says what untyped memory the first
      thread gets, [Startup] what the scheduler finds.  [MemoryMap] and [Image] are what
      comes before ([boot_sys.c], [elf.c]): the memory the boot loader reports, and the
      image of the first thread, loaded and moved to its place.
    - [Rejection]: every decoder only looks until nothing can be refused any more.
    - [Authority], [Privilege]: what no entry can do to the priorities and the
      registers of threads, along the call graph of the whole kernel.

    ** What the theorems show

    - Server: a request to the green server completes exactly along the documented
      steps, and sleeps as long as the buffer blocks it ([Server.served]); the buffer
      of the kernel-thread server stays within its bounds and its critical section exclusive under every interleaving; when nobody can
      move the threads sleep on a list, and a lost wake-up is reachable.  The
      notifications this machine uses are implemented by the kernel's
      ([notification_refines]), so the two layers fit together.
    - Driver: untyped objects taken from the allocator are exactly those handed
      on, within count and byte limits but for a 32-bit wrap; if the kernel refuses to
      delete a capability, its memory is not handed back; a test gets exactly the free
      slots of its CSpace, above every slot it was given; a finished test is cleaned
      up once.
    - Capabilities: address resolution is a walk along a string of bits; insert,
      move, swap and removal are the list operations on the derivation list and
      leave every other slot alone; masking never adds a right.
    - Scheduler: ready queues and bitmaps implement a list of threads per priority;
      [schedule] re-establishes the invariant and runs the thread the pending action
      names or, when it is to choose, one of the highest priority; no operation loses
      a runnable thread.
    - Waiting threads: a signal, a message or a cancellation reaches exactly the
      threads it is meant for, in the order of the queue, and both invariants are
      kept.  A message arrives word for word, and nothing outside the receiver's
      message registers and buffer is written; a call over a capability that grants
      leaves the caller waiting and gives the server the right to reply, over another
      one it leaves the caller inactive; the reply uses that right up.  Deleting
      the last capability to an endpoint restarts all who wait there.
    - Untyped memory: a retype is refused exactly when the objects do not fit,
      otherwise each new capability covers its own aligned part; resetting ends, and
      a preempted reset can be repeated.
    - Deletion: from every state that satisfies [del_inv], deleting and revoking end
      without a failed assertion, with the slot empty or without children, or
      preempted by a pending interrupt; the invariant is kept, and no capability is
      made but for zombies.
    - Invocations: one that is answered with an error has changed nothing but the
      error report.
    - Address spaces: mapping a frame makes the hardware find it at its address, with
      the rights the capability and the message allow, and nothing else differently;
      unmapping restores every translation; an ASID is given to one directory.  A port
      invocation accesses the hardware once, inside the range of the capability.
    - Boot: the usable regions of the memory map become the free memory, and the image
      is in its place byte for byte or refused; blocks come out of the free memory with
      the least waste and never twice; a region is cut into aligned pieces that fill it exactly, each with its slot and
      its entry in the boot information; the two threads are left such that the
      invariant of the scheduler, from which the theorems about scheduling start, holds.
    - Fast paths: when one is taken, the state is the one the slow path leaves, but for
      the scratch list of extra capabilities and for [blockingObject] of the threads
      that stop waiting on an object, which the fast path clears; when not, nothing has
      changed.
    - Entries: no system call gives a thread a priority above the caller's maximum;
      no entry gives a thread flags or segments a user must not have.  These hold
      for every entry, also one that halts in the middle ([wlp]).

    ** Bounds and fuel

    Address resolution takes one unit of fuel per bit of the address, 32 in all,
    because a level consumes at least one bit.  [reset_chunks] takes one more than
    the number of chunks below the free index.  Waiting queues are restarted along
    their list.  With [n] slots a deletion takes [delete_fuel], which is
    [2n(n+2) + 3n + 12]: every round of the loop in [finaliseSlot] removes a
    capability, turns one into a zombie, shrinks a zombie or brings a zombie nearer
    to its own table ([Deletion.measure]), and a round calls itself three deep.
    Revoking deletes at most [2n + 1] times.  The lookup of the fast path takes a
    round per level, at most 32, and the loops over a thread's registers
    ([for_while]) at most 13.  A region is cut into at most 67 untyped objects: 29
    while the alignment grows, eight of the largest size, the rest while sizes fall
    ([untypeds_fuel] is 70).  The theorems say that the fuel is enough.

    The theorems about messages are for messages without capabilities from a
    thread that is not at fault; capability transfer and fault messages are
    modelled, not yet verified.  [invokeUntyped_Retype_correct] is for memory that
    needs no reset first; the reset has its own theorem.

    ** Not modelled

    What the processor and the IOMMU keep of the page tables is outside: loads of
    the control register, invalidations and flushes are recorded ([arch_calls]), the
    test of [setVMRoot] that saves a reload is left out, and the switch to a thread
    does not switch the page directory.  The theorems about deletion are for states
    without I/O space capabilities: unmapping a device's context makes the running
    thread restart.  At boot the set-up of the IOMMU and the measurement of the time
    stamp counter are arguments of [init_sys_state]; the kernel window, the tables of
    the processor and what ACPI reports are left out.  The registers of the interrupt
    controllers, the FPU, and the platform code work on hardware state; where modelled
    code calls them, the call is recorded ([arch_calls]).  Printing, benchmark hooks and the assembly of
    entry and exit are left out; a time stamp is an argument.  The IPC buffers are mapped: an access does not fault. *)
From stdpp Require Export base list gmap strings.
From Stdlib Require Export ZArith Lia Bool.

(** * Shared vocabulary of the development *)

Declare Scope green_scope.
Delimit Scope green_scope with green.
Global Open Scope Z_scope.

(** ** Machine words

    The program is built for IA-32 ([CONFIG_WORD_SIZE] is 32): [seL4_Word],
    [size_t], [unsigned int] and [unsigned long] are 32 bits wide and wrap,
    and [int] is a 32-bit two's complement integer. *)

Definition word_mod : Z := 4294967296.
Definition wrap32 (x : Z) : Z := x mod word_mod.
Definition is_word (x : Z) : Prop := 0 ≤ x < word_mod.
Definition INT_MAX : Z := 2147483647.
Definition INT_MIN : Z := -2147483648.
Definition UINT_MAX : Z := 4294967295.

(** [(int) x]: the two's complement reading of a 32-bit pattern. *)
Definition sint32 (x : Z) : Z :=
  let y := wrap32 x in if y <=? INT_MAX then y else y - word_mod.

(** [BIT(n)] is [1ul << n] and [MASK(n)] is [BIT(n) - 1ul]. *)
Definition BIT (n : Z) : Z := wrap32 (Z.shiftl 1 n).
Definition MASK (n : Z) : Z := wrap32 (BIT n - 1).

Lemma wrap32_range x : is_word (wrap32 x).
Proof. unfold is_word, wrap32. apply Z.mod_pos_bound. reflexivity. Qed.

Lemma wrap32_small x : is_word x → wrap32 x = x.
Proof. apply Z.mod_small. Qed.

Lemma wrap32_idem x : wrap32 (wrap32 x) = wrap32 x.
Proof. apply wrap32_small, wrap32_range. Qed.

Lemma sint32_small x : 0 ≤ x ≤ INT_MAX → sint32 x = x.
Proof.
  intros H. unfold sint32. rewrite wrap32_small by (unfold is_word, word_mod, INT_MAX in *; lia).
  destruct (Z.leb_spec x INT_MAX); lia.
Qed.

Lemma BIT_pow2 n : 0 ≤ n < 32 → BIT n = 2 ^ n.
Proof.
  intros H. unfold BIT. rewrite Z.shiftl_1_l. apply wrap32_small.
  split; [apply Z.pow_nonneg; lia|]. change word_mod with (2 ^ 32).
  apply Z.pow_lt_mono_r; lia.
Qed.

Lemma BIT_pos n : 0 ≤ n < 32 → 0 < BIT n.
Proof. intros H. rewrite BIT_pow2 by done. apply Z.pow_pos_nonneg; lia. Qed.

Lemma BIT_testbit n i : 0 ≤ n < 32 → 0 ≤ i → Z.testbit (BIT n) i = (n =? i).
Proof. intros Hn Hi. rewrite BIT_pow2 by done. apply Z.pow2_bits_eqb. lia. Qed.

Lemma word_testbit_high w i : is_word w → 32 ≤ i → Z.testbit w i = false.
Proof.
  intros Hw Hi. destruct (Z.eq_dec w 0) as [->|Hne]; [apply Z.bits_0|].
  unfold is_word in Hw. apply Z.bits_above_log2; [lia|].
  assert (Z.log2 w < 32); [|lia].
  apply Z.log2_lt_pow2; [lia|]. exact (proj2 Hw).
Qed.

Lemma lor_word a b : is_word a → is_word b → is_word (Z.lor a b).
Proof.
  intros [Ha1 Ha2] [Hb1 Hb2]. split; [apply Z.lor_nonneg; lia|].
  destruct (Z.eq_dec (Z.lor a b) 0) as [->|Hne]; [reflexivity|].
  apply (Z.log2_lt_cancel _ word_mod).
  rewrite Z.log2_lor by lia. change (Z.log2 word_mod) with 32.
  assert (Hl : ∀ x, 0 ≤ x → x < word_mod → Z.log2 x < 32).
  { intros x Hx1 Hx2. destruct (Z.eq_dec x 0) as [->|]; [reflexivity|].
    apply Z.log2_lt_pow2; [lia|exact Hx2]. }
  apply Z.max_lub_lt; auto.
Qed.

Lemma land_word a m : is_word a → is_word (Z.land a m).
Proof.
  intros Ha. assert (Hn : 0 ≤ Z.land a m) by (apply Z.land_nonneg; unfold is_word in Ha; lia).
  split; [exact Hn|].
  assert (Hm : Z.land a m = wrap32 (Z.land a m)).
  { unfold wrap32. change word_mod with (2 ^ 32).
    rewrite <- Z.land_ones by lia. apply Z.bits_inj'. intros i Hi.
    rewrite !Z.land_spec. destruct (Z.testbit a i) eqn:E; [|done]. simpl.
    assert (i < 32).
    { destruct (Z.lt_ge_cases i 32); [done|].
      rewrite word_testbit_high in E by done. discriminate. }
    rewrite Z.ones_spec_low by lia. by rewrite andb_true_r. }
  rewrite Hm. apply wrap32_range.
Qed.

(** ** Bit fields, as the bitfield generator writes their accessors

    A field is given by its mask and its shift.  [bf_get] is
    [(w & mask) >> shift]; [bf_set] is [w &= ~mask; w |= (v << shift) & mask]. *)

Definition bf_get (mask shift w : Z) : Z := Z.shiftr (Z.land w mask) shift.
Definition bf_set (mask shift w v : Z) : Z :=
  Z.lor (Z.land w (Z.lnot mask)) (Z.land (wrap32 (Z.shiftl v shift)) mask).

(** [field off len] is the mask of the [len] bits from [off] up. *)
Definition field (off len : Z) : Z := Z.shiftl (Z.ones len) off.

Lemma field_testbit off len i :
  0 ≤ off → 0 ≤ len → 0 ≤ i →
  Z.testbit (field off len) i = (off <=? i) && (i <? off + len).
Proof.
  intros Ho Hl Hi. unfold field. rewrite Z.shiftl_spec by lia.
  destruct (Z.leb_spec off i); simpl.
  - destruct (Z.ltb_spec i (off + len)).
    + apply Z.ones_spec_low. lia.
    + apply Z.ones_spec_high. lia.
  - apply Z.testbit_neg_r. lia.
Qed.

Lemma wrap32_testbit w i : 0 ≤ i → Z.testbit (wrap32 w) i = (i <? 32) && Z.testbit w i.
Proof.
  intros Hi. unfold wrap32. change word_mod with (2 ^ 32).
  destruct (Z.ltb_spec i 32); simpl.
  - apply Z.mod_pow2_bits_low. lia.
  - apply Z.mod_pow2_bits_high. lia.
Qed.

Lemma small_testbit v len i : 0 ≤ v < 2 ^ len → 0 ≤ len ≤ i → Z.testbit v i = false.
Proof.
  intros Hv Hi. destruct (Z.eq_dec v 0) as [->|]; [apply Z.bits_0|].
  apply Z.bits_above_log2; [lia|].
  assert (Z.log2 v < len); [|lia]. apply Z.log2_lt_pow2; lia.
Qed.

(** Reduces an equation between words to one between their bits. *)
Ltac bitwise i Hi :=
  apply Z.bits_inj'; intros i Hi;
  repeat first
    [ rewrite Z.land_spec | rewrite Z.lor_spec | rewrite Z.lnot_spec by lia
    | rewrite wrap32_testbit by lia | rewrite Z.shiftr_spec by lia
    | rewrite Z.shiftl_spec by lia | rewrite field_testbit by lia
    | rewrite Z.bits_0 ].

(** Reading back a written field gives the value truncated to its width. *)
Lemma bf_get_set_trunc off len w v :
  0 ≤ off → 0 ≤ len → off + len ≤ 32 →
  bf_get (field off len) off (bf_set (field off len) off w v) = v mod 2 ^ len.
Proof.
  intros Ho Hl Hb. rewrite <- Z.land_ones by done. unfold bf_get, bf_set. bitwise i Hi.
  replace (i + off - off) with i by lia.
  destruct (Z.leb_spec off (i + off)); [|lia].
  destruct (Z.ltb_spec (i + off) (off + len)); simpl.
  - rewrite Z.ones_spec_low by lia. rewrite !andb_false_r, !andb_true_r. simpl.
    destruct (Z.ltb_spec (i + off) 32); [done|lia].
  - rewrite Z.ones_spec_high by lia. by rewrite !andb_false_r.
Qed.

Lemma bf_get_set_same off len w v :
  0 ≤ off → 0 ≤ len → off + len ≤ 32 → 0 ≤ v < 2 ^ len →
  bf_get (field off len) off (bf_set (field off len) off w v) = v.
Proof. intros. rewrite bf_get_set_trunc by done. by apply Z.mod_small. Qed.

Lemma bf_get_set_other off len off' len' w v :
  0 ≤ off → 0 ≤ len → 0 ≤ off' → 0 ≤ len' →
  off + len ≤ off' ∨ off' + len' ≤ off →
  bf_get (field off len) off (bf_set (field off' len') off' w v)
  = bf_get (field off len) off w.
Proof.
  intros Ho Hl Ho' Hl' Hd. unfold bf_get, bf_set. bitwise i Hi.
  destruct (Z.leb_spec off (i + off)); [|lia].
  destruct (Z.ltb_spec (i + off) (off + len)); simpl; [|by rewrite !andb_false_r].
  destruct (Z.leb_spec off' (i + off)); simpl.
  - destruct (Z.ltb_spec (i + off) (off' + len')); [lia|]. simpl.
    by rewrite !andb_false_r, !orb_false_r, !andb_true_r.
  - by rewrite !andb_false_r, !orb_false_r, !andb_true_r.
Qed.

Lemma bf_set_word off len w v : is_word w → is_word (bf_set (field off len) off w v).
Proof. intros Hw. apply lor_word; apply land_word; [done|apply wrap32_range]. Qed.

Lemma bf_get_range off len w :
  0 ≤ off → 0 ≤ len → 0 ≤ bf_get (field off len) off w < 2 ^ len.
Proof.
  intros Ho Hl. unfold bf_get.
  replace (Z.shiftr (Z.land w (field off len)) off) with (Z.land (Z.shiftr w off) (Z.ones len)).
  - rewrite Z.land_ones by done. apply Z.mod_pos_bound. apply Z.pow_pos_nonneg; lia.
  - bitwise i Hi. f_equal.
    destruct (Z.leb_spec off (i + off)); [|lia]. simpl.
    destruct (Z.ltb_spec (i + off) (off + len)).
    + apply Z.ones_spec_low. lia.
    + apply Z.ones_spec_high. lia.
Qed.

(** ** Effectful code

    A C function is a state transformer that either returns or halts: a failed
    [assert], a fatal log line ([ZF_LOGF] aborts after printing), a call that
    does not return ([thread_exit]), a dereference of a bad pointer, or, for
    the loops the model runs with fuel, running out of it. *)

Inductive halt := AssertFailed | Fatal | Exited | BadPointer | OutOfFuel.

Inductive outcome (A : Type) :=
| Done (a : A)
| Halted (h : halt).
Arguments Done {A} a.
Arguments Halted {A} h.

#[export] Instance halt_eq_dec : EqDecision halt.
Proof. solve_decision. Defined.

Definition M (S A : Type) : Type := S → outcome A * S.

#[export] Instance M_ret S : MRet (M S) := λ A a s, (Done a, s).
#[export] Instance M_bind S : MBind (M S) := λ A B k m s,
  match m s with
  | (Done a, s') => k a s'
  | (Halted h, s') => (Halted h, s')
  end.

Definition halt_with {S A} (h : halt) : M S A := λ s, (Halted h, s).
Definition get {S} : M S S := λ s, (Done s, s).
Definition gets {S A} (f : S → A) : M S A := λ s, (Done (f s), s).
Definition modify {S} (f : S → S) : M S unit := λ s, (Done tt, f s).
Definition assert {S} (b : bool) : M S unit :=
  if b then mret tt else halt_with AssertFailed.

(** [if (c) { ZF_LOGF(...); }] *)
Definition ZF_LOGF_IF {S} (c : bool) : M S unit :=
  if c then halt_with Fatal else mret tt.

Definition when {S} (b : bool) (m : M S unit) : M S unit := if b then m else mret tt.

(** [for (i = lo; i < lo + n; i++) body(i)] *)
Fixpoint for_range {S} (lo : Z) (n : nat) (body : Z → M S unit) : M S unit :=
  match n with
  | O => mret tt
  | Datatypes.S n' => body lo;; for_range (lo + 1) n' body
  end.

(** Runs a computation on one part of a larger state. *)
Definition zoom {S T A} (get_part : S → T) (put_part : T → S → S) (m : M T A) : M S A :=
  λ s, let '(r, t) := m (get_part s) in (r, put_part t s).

(** ** Weakest preconditions

    [wp m Q s] says that [m], run from [s], returns a value and a state that
    satisfy [Q]: it includes the absence of every halt. *)

Definition wp {S A} (m : M S A) (Q : A → S → Prop) (s : S) : Prop :=
  match m s with
  | (Done a, s') => Q a s'
  | (Halted _, _) => False
  end.

(** [wlp] leaves the halting outcomes aside. *)
Definition wlp {S A} (m : M S A) (Q : A → S → Prop) (s : S) : Prop :=
  match m s with
  | (Done a, s') => Q a s'
  | (Halted _, _) => True
  end.

(** [wpe] has a postcondition [E] for the halting outcomes as well. *)
Definition wpe {S A} (m : M S A) (Q : A → S → Prop) (E : halt → S → Prop) (s : S) : Prop :=
  match m s with
  | (Done a, s') => Q a s'
  | (Halted h, s') => E h s'
  end.

Section wp_rules.
Context {St : Type}.
Implicit Types s : St.

Lemma wp_ret {A} (a : A) (Q : A → St → Prop) s : Q a s → wp (mret a) Q s.
Proof. done. Qed.

Lemma wp_bind {A B} (m : M St A) (k : A → M St B) (Q : B → St → Prop) s :
  wp m (λ a s', wp (k a) Q s') s → wp (m ≫= k) Q s.
Proof. unfold wp, mbind, M_bind. by destruct (m s) as [[a|h] s']. Qed.

Lemma wp_mono {A} (m : M St A) (Q Q' : A → St → Prop) s :
  wp m Q s → (∀ a s', Q a s' → Q' a s') → wp m Q' s.
Proof. unfold wp. destruct (m s) as [[a|h] s']; auto. Qed.

Lemma wp_modify f (Q : unit → St → Prop) s : Q tt (f s) → wp (modify f) Q s.
Proof. done. Qed.

Lemma wp_gets {A} (f : St → A) (Q : A → St → Prop) s : Q (f s) s → wp (gets f) Q s.
Proof. done. Qed.

Lemma wp_assert b (Q : unit → St → Prop) s : b = true → Q tt s → wp (assert b) Q s.
Proof. intros ->. done. Qed.

Lemma wp_done {A} (m : M St A) (Q : A → St → Prop) s :
  wp m Q s → ∃ a s', m s = (Done a, s') ∧ Q a s'.
Proof. unfold wp. destruct (m s) as [[a|h] s']; [eauto|done]. Qed.

Lemma wp_zoom {T A} (g : St → T) (p : T → St → St) (m : M T A) (Q : A → St → Prop) s :
  wp m (λ a t, Q a (p t s)) (g s) → wp (zoom g p m) Q s.
Proof. unfold wp, zoom. by destruct (m (g s)) as [[a|h] t]. Qed.

Lemma wlp_ret {A} (a : A) (Q : A → St → Prop) s : Q a s → wlp (mret a) Q s.
Proof. done. Qed.

Lemma wlp_bind {A B} (m : M St A) (k : A → M St B) (Q : B → St → Prop) s :
  wlp m (λ a s', wlp (k a) Q s') s → wlp (m ≫= k) Q s.
Proof. unfold wlp, mbind, M_bind. by destruct (m s) as [[a|h] s']. Qed.

Lemma wlp_mono {A} (m : M St A) (Q Q' : A → St → Prop) s :
  wlp m Q s → (∀ a s', Q a s' → Q' a s') → wlp m Q' s.
Proof. unfold wlp. destruct (m s) as [[a|h] s']; auto. Qed.

Lemma wpe_ret {A} (a : A) (Q : A → St → Prop) E s : Q a s → wpe (mret a) Q E s.
Proof. done. Qed.

Lemma wpe_bind {A B} (m : M St A) (k : A → M St B) (Q : B → St → Prop) E s :
  wpe m (λ a s', wpe (k a) Q E s') E s → wpe (m ≫= k) Q E s.
Proof. unfold wpe, mbind, M_bind. by destruct (m s) as [[a|h] s']. Qed.

Lemma wpe_mono {A} (m : M St A) (Q Q' : A → St → Prop) (E E' : halt → St → Prop) s :
  wpe m Q E s → (∀ a s', Q a s' → Q' a s') → (∀ h s', E h s' → E' h s') → wpe m Q' E' s.
Proof. unfold wpe. destruct (m s) as [[a|h] s']; auto. Qed.

Lemma wpe_wp {A} (m : M St A) (Q : A → St → Prop) E s : wp m Q s → wpe m Q E s.
Proof. unfold wp, wpe. by destruct (m s) as [[a|h] s']. Qed.

Lemma wpe_zoom {T A} (g : St → T) (p : T → St → St) (m : M T A) (Q : A → St → Prop) E s :
  wpe m (λ a t, Q a (p t s)) (λ h t, E h (p t s)) (g s) → wpe (zoom g p m) Q E s.
Proof. unfold wpe, zoom. by destruct (m (g s)) as [[a|h] t]. Qed.

Lemma wpe_for_range (I : Z → St → Prop) E lo n body s :
  I lo s →
  (∀ i s', lo ≤ i < lo + Z.of_nat n → I i s' → wpe (body i) (λ _ s'', I (i + 1) s'') E s') →
  wpe (for_range lo n body) (λ _ s', I (lo + Z.of_nat n) s') E s.
Proof.
  revert lo s. induction n as [|n IH]; intros lo s HI Hbody; simpl.
  - apply wpe_ret. by rewrite Z.add_0_r.
  - apply wpe_bind. eapply wpe_mono; [apply Hbody; [lia|done]| |done].
    intros [] s' HI'. replace (lo + Z.of_nat (S n)) with (lo + 1 + Z.of_nat n) by lia.
    apply IH; [done|]. intros i s'' Hi. apply Hbody. lia.
Qed.

(** Invariant rule of [for_range]: [I i] holds before iteration [i]. *)
Lemma wp_for_range (I : Z → St → Prop) lo n body s :
  I lo s →
  (∀ i s', lo ≤ i < lo + Z.of_nat n → I i s' → wp (body i) (λ _ s'', I (i + 1) s'') s') →
  wp (for_range lo n body) (λ _ s', I (lo + Z.of_nat n) s') s.
Proof.
  revert lo s. induction n as [|n IH]; intros lo s HI Hbody; simpl.
  - apply wp_ret. by rewrite Z.add_0_r.
  - apply wp_bind. eapply wp_mono; [apply Hbody; [lia|done]|].
    intros [] s' HI'. replace (lo + Z.of_nat (S n)) with (lo + 1 + Z.of_nat n) by lia.
    apply IH; [done|]. intros i s'' Hi. apply Hbody. lia.
Qed.

End wp_rules.

Create HintDb words.
#[export] Hint Resolve wrap32_range lor_word land_word : words.

(** Embeds a pure computation that may fail into the effectful ones. *)
Definition lift {S A} (o : outcome A) : M S A := λ s, (o, s).

(** A generated constructor adds each field with [w |= (v & ones) << shift]. *)
Definition bf_put (ones shift w v : Z) : Z :=
  Z.lor w (wrap32 (Z.shiftl (Z.land v ones) shift)).

Lemma bf_get_put_same off len w v :
  0 ≤ off → 0 ≤ len → off + len ≤ 32 → 0 ≤ v < 2 ^ len →
  bf_get (field off len) off w = 0 →
  bf_get (field off len) off (bf_put (Z.ones len) off w v) = v.
Proof.
  intros Ho Hl Hb Hv Hz. apply Z.bits_inj'. intros i Hi.
  assert (Hw : Z.testbit (bf_get (field off len) off w) i = false) by (rewrite Hz; apply Z.bits_0).
  unfold bf_get, bf_put in *.
  rewrite Z.shiftr_spec, Z.land_spec, field_testbit in Hw by lia.
  rewrite Z.shiftr_spec, Z.land_spec, field_testbit, Z.lor_spec by lia.
  rewrite wrap32_testbit, Z.shiftl_spec, Z.land_spec by lia.
  replace (i + off - off) with i by lia.
  destruct (Z.leb_spec off (i + off)); [|lia].
  destruct (Z.ltb_spec (i + off) (off + len)); simpl in *.
  - rewrite !andb_true_r in *. rewrite Hw. rewrite Z.ones_spec_low by lia.
    destruct (Z.ltb_spec (i + off) 32); [|lia]. by rewrite andb_true_r.
  - rewrite andb_false_r. symmetry. apply (small_testbit v len); lia.
Qed.

Lemma bf_get_put_other off len off' len' w v :
  0 ≤ off → 0 ≤ len → 0 ≤ off' → 0 ≤ len' →
  off + len ≤ off' ∨ off' + len' ≤ off →
  bf_get (field off len) off (bf_put (Z.ones len') off' w v)
  = bf_get (field off len) off w.
Proof.
  intros Ho Hl Ho' Hl' Hd. unfold bf_get, bf_put. apply Z.bits_inj'. intros i Hi.
  rewrite !Z.shiftr_spec, !Z.land_spec, field_testbit, Z.lor_spec by lia.
  destruct (Z.leb_spec off (i + off)); [|lia].
  destruct (Z.ltb_spec (i + off) (off + len)); simpl; [|by rewrite !andb_false_r].
  rewrite wrap32_testbit, Z.shiftl_spec, Z.land_spec by lia.
  destruct (Z.lt_ge_cases (i + off) off') as [Hlt|Hge].
  - rewrite (Z.testbit_neg_r v) by lia. by rewrite andb_false_r, orb_false_r.
  - rewrite (Z.ones_spec_high len') by lia. by rewrite !andb_false_r, orb_false_r.
Qed.

Lemma bf_put_word ones shift w v : is_word w → is_word (bf_put ones shift w v).
Proof. intros. apply lor_word; auto with words. Qed.

#[export] Hint Resolve bf_put_word bf_set_word : words.

(** The check a generated accessor makes before it writes a value:
    no bit of [v] outside the given mask of forbidden bits. *)
Definition bf_fits (forbidden v : Z) : bool := Z.land forbidden v =? 0.

Lemma bf_fits_ones len v :
  0 ≤ len → 0 ≤ v < 2 ^ len → bf_fits (wrap32 (Z.lnot (Z.ones len))) v = true.
Proof.
  intros Hl Hv. unfold bf_fits. apply Z.eqb_eq. apply Z.bits_inj'. intros i Hi.
  rewrite Z.land_spec, wrap32_testbit, Z.lnot_spec, Z.bits_0 by lia.
  destruct (Z.lt_ge_cases i len).
  - rewrite Z.ones_spec_low by lia. by rewrite andb_false_r.
  - rewrite (small_testbit v len) by lia. apply andb_false_r.
Qed.

(** Conversely, a value that passes the check of a constructor fits the field. *)
Lemma bf_fits_range len v :
  0 ≤ len ≤ 32 → is_word v → bf_fits (wrap32 (Z.lnot (Z.ones len))) v = true → 0 ≤ v < 2 ^ len.
Proof.
  intros Hl Hv Hf. unfold bf_fits in Hf. apply Z.eqb_eq in Hf.
  assert (Hlow : Z.land v (Z.ones len) = v).
  { apply Z.bits_inj'. intros i Hi. rewrite Z.land_spec.
    destruct (Z.lt_ge_cases i len).
    - rewrite Z.ones_spec_low by lia. apply andb_true_r.
    - rewrite Z.ones_spec_high by lia. rewrite andb_false_r. symmetry.
      destruct (Z.lt_ge_cases i 32); [|by apply word_testbit_high].
      assert (Hb : Z.testbit (Z.land (wrap32 (Z.lnot (Z.ones len))) v) i = false)
        by (rewrite Hf; apply Z.bits_0).
      rewrite Z.land_spec, wrap32_testbit, Z.lnot_spec in Hb by lia.
      rewrite Z.ones_spec_high in Hb by lia.
      destruct (Z.ltb_spec i 32); [done|lia]. }
  rewrite Z.land_ones in Hlow by lia. rewrite <- Hlow.
  apply Z.mod_pos_bound. apply Z.pow_pos_nonneg; lia.
Qed.

(** Pure computations that may fail compose like the effectful ones. *)
#[export] Instance outcome_ret : MRet outcome := λ A a, Done a.
#[export] Instance outcome_bind : MBind outcome := λ A B k o,
  match o with Done a => k a | Halted h => Halted h end.

Definition check (b : bool) : outcome unit := if b then Done tt else Halted AssertFailed.

(** ** Record updates

    [s <| f := v |>] is [s] with field [f] set, [s <| f ::= g |>] with [g]
    applied to it.  A record gives its eta expansion as an instance of [Eta];
    the setters are found from it. *)

Class Eta (R : Type) := eta_record : R → R.
Class Setter {R E : Type} (proj : R → E) := update : (E → E) → R → R.
Arguments update {R E} proj {_} f r.

Ltac find_setter R proj :=
  let inst := constr:(_ : Eta R) in
  let e := eval hnf in inst in
  lazymatch eval pattern proj in e with
  | ?g _ => exact (λ f, ltac:(let u := eval cbv beta in (g (λ r, f (proj r))) in exact u))
  end.
#[export] Hint Extern 1 (@Setter ?R ?E ?proj) => find_setter R proj : typeclass_instances.

Notation "s <| proj := v |>" := (update proj (λ _, v) s)
  (at level 12, left associativity, proj constr at level 1, format "s  <| proj  :=  v |>") : green_scope.
Notation "s <| proj ::= f |>" := (update proj f s)
  (at level 12, left associativity, proj constr at level 1, format "s  <| proj  ::=  f |>") : green_scope.
Global Open Scope green_scope.

(** ** Removing an element from a list *)

Lemma filter_ne_id (l : list Z) t : t ∉ l → filter (.≠ t) l = l.
Proof.
  induction l as [|u l IH]; intros Ht; [done|].
  rewrite filter_cons_True by (intros ->; set_solver). f_equal. apply IH. set_solver.
Qed.

Lemma filter_ne_app (l1 l2 : list Z) t :
  NoDup (l1 ++ t :: l2) → filter (.≠ t) (l1 ++ t :: l2) = l1 ++ l2.
Proof.
  intros (_ & Hd & [Ht _]%NoDup_cons)%NoDup_app. rewrite filter_app, filter_cons_False by naive_solver.
  rewrite !filter_ne_id; [done|done|]. intros Hu. apply (Hd t Hu). set_solver.
Qed.
