(* ===== verification/Messages.v ===== *)
(** libsel4's generated bit-field types: the message tag every IPC of the
    server carries, capability rights, priority pairs and capability data.

    Each struct is one 32-bit word; each accessor of
    [stage/.../include/sel4/shared_types_gen.h] and [types_gen.h] is one
    definition.  [seL4_DebugAssert] is live (the build has no [NDEBUG]), so a
    constructor or setter whose check fails halts.  The [_ptr_] accessors work
    on the word their pointer names: they are computations over that word. *)

From S2P Require Import Prelude.

Definition seL4_DebugAssert : bool → outcome unit := check.

Module PrioProps.

Definition seL4_PrioProps_new (mcp prio : Z) : outcome Z :=
  let w := 0 in
  seL4_DebugAssert (bf_fits (wrap32 (Z.lnot 0xff)) mcp);;
  let w := bf_put 0xff 8 w mcp in
  seL4_DebugAssert (bf_fits (wrap32 (Z.lnot 0xff)) prio);;
  mret (bf_put 0xff 0 w prio).

Definition seL4_PrioProps_ptr_new (mcp prio : Z) : M Z unit :=
  modify (λ _, 0);;
  lift (seL4_DebugAssert (bf_fits (wrap32 (Z.lnot 0xff)) mcp));;
  modify (λ w, bf_put 0xff 8 w mcp);;
  lift (seL4_DebugAssert (bf_fits (wrap32 (Z.lnot 0xff)) prio));;
  modify (λ w, bf_put 0xff 0 w prio).

Definition seL4_PrioProps_get_mcp (w : Z) : Z := bf_get 0xff00 8 w.
Definition seL4_PrioProps_get_prio (w : Z) : Z := bf_get 0xff 0 w.

(** [~0xff00 >> 8] is arithmetic: [0xff00] is an [int]. *)
Definition seL4_PrioProps_set_mcp (w v : Z) : outcome Z :=
  seL4_DebugAssert (bf_fits (wrap32 (Z.shiftr (Z.lnot 0xff00) 8)) v);;
  mret (bf_set 0xff00 8 w v).

Definition seL4_PrioProps_set_prio (w v : Z) : outcome Z :=
  seL4_DebugAssert (bf_fits (wrap32 (Z.shiftr (Z.lnot 0xff) 0)) v);;
  mret (bf_set 0xff 0 w v).

Definition seL4_PrioProps_ptr_get_mcp : M Z Z := gets (bf_get 0xff00 8).
Definition seL4_PrioProps_ptr_get_prio : M Z Z := gets (bf_get 0xff 0).

Definition seL4_PrioProps_ptr_set_mcp (v : Z) : M Z unit :=
  lift (seL4_DebugAssert (bf_fits (wrap32 (Z.shiftr (Z.lnot 0xff00) 8)) v));;
  modify (λ w, bf_set 0xff00 8 w v).

Definition seL4_PrioProps_ptr_set_prio (v : Z) : M Z unit :=
  lift (seL4_DebugAssert (bf_fits (wrap32 (Z.shiftr (Z.lnot 0xff) 0)) v));;
  modify (λ w, bf_set 0xff 0 w v).

End PrioProps.

Module MessageInfo.

Definition seL4_MessageInfo_new (label capsUnwrapped extraCaps length : Z) : outcome Z :=
  let w := 0 in
  seL4_DebugAssert (bf_fits (wrap32 (Z.lnot 0xfffff)) label);;
  let w := bf_put 0xfffff 12 w label in
  seL4_DebugAssert (bf_fits (wrap32 (Z.lnot 0x7)) capsUnwrapped);;
  let w := bf_put 0x7 9 w capsUnwrapped in
  seL4_DebugAssert (bf_fits (wrap32 (Z.lnot 0x3)) extraCaps);;
  let w := bf_put 0x3 7 w extraCaps in
  seL4_DebugAssert (bf_fits (wrap32 (Z.lnot 0x7f)) length);;
  mret (bf_put 0x7f 0 w length).

Definition seL4_MessageInfo_ptr_new (label capsUnwrapped extraCaps length : Z) : M Z unit :=
  modify (λ _, 0);;
  lift (seL4_DebugAssert (bf_fits (wrap32 (Z.lnot 0xfffff)) label));;
  modify (λ w, bf_put 0xfffff 12 w label);;
  lift (seL4_DebugAssert (bf_fits (wrap32 (Z.lnot 0x7)) capsUnwrapped));;
  modify (λ w, bf_put 0x7 9 w capsUnwrapped);;
  lift (seL4_DebugAssert (bf_fits (wrap32 (Z.lnot 0x3)) extraCaps));;
  modify (λ w, bf_put 0x3 7 w extraCaps);;
  lift (seL4_DebugAssert (bf_fits (wrap32 (Z.lnot 0x7f)) length));;
  modify (λ w, bf_put 0x7f 0 w length).

Definition seL4_MessageInfo_get_label (w : Z) : Z := bf_get 0xfffff000 12 w.
Definition seL4_MessageInfo_get_capsUnwrapped (w : Z) : Z := bf_get 0xe00 9 w.
Definition seL4_MessageInfo_get_extraCaps (w : Z) : Z := bf_get 0x180 7 w.
Definition seL4_MessageInfo_get_length (w : Z) : Z := bf_get 0x7f 0 w.

(** [0xfffff000] does not fit an [int], so it is an [unsigned int] and
    [~0xfffff000 >> 12] shifts zeroes in: the forbidden mask is zero. *)
Definition seL4_MessageInfo_set_label (w v : Z) : outcome Z :=
  seL4_DebugAssert (bf_fits (Z.shiftr (wrap32 (Z.lnot 0xfffff000)) 12) v);;
  mret (bf_set 0xfffff000 12 w v).

Definition seL4_MessageInfo_set_capsUnwrapped (w v : Z) : outcome Z :=
  seL4_DebugAssert (bf_fits (wrap32 (Z.shiftr (Z.lnot 0xe00) 9)) v);;
  mret (bf_set 0xe00 9 w v).

Definition seL4_MessageInfo_set_extraCaps (w v : Z) : outcome Z :=
  seL4_DebugAssert (bf_fits (wrap32 (Z.shiftr (Z.lnot 0x180) 7)) v);;
  mret (bf_set 0x180 7 w v).

Definition seL4_MessageInfo_set_length (w v : Z) : outcome Z :=
  seL4_DebugAssert (bf_fits (wrap32 (Z.shiftr (Z.lnot 0x7f) 0)) v);;
  mret (bf_set 0x7f 0 w v).

Definition seL4_MessageInfo_ptr_get_label : M Z Z := gets (bf_get 0xfffff000 12).
Definition seL4_MessageInfo_ptr_get_capsUnwrapped : M Z Z := gets (bf_get 0xe00 9).
Definition seL4_MessageInfo_ptr_get_extraCaps : M Z Z := gets (bf_get 0x180 7).
Definition seL4_MessageInfo_ptr_get_length : M Z Z := gets (bf_get 0x7f 0).

Definition seL4_MessageInfo_ptr_set_label (v : Z) : M Z unit :=
  lift (seL4_DebugAssert (bf_fits (Z.shiftr (wrap32 (Z.lnot 0xfffff000)) 12) v));;
  modify (λ w, bf_set 0xfffff000 12 w v).

Definition seL4_MessageInfo_ptr_set_capsUnwrapped (v : Z) : M Z unit :=
  lift (seL4_DebugAssert (bf_fits (wrap32 (Z.shiftr (Z.lnot 0xe00) 9)) v));;
  modify (λ w, bf_set 0xe00 9 w v).

Definition seL4_MessageInfo_ptr_set_extraCaps (v : Z) : M Z unit :=
  lift (seL4_DebugAssert (bf_fits (wrap32 (Z.shiftr (Z.lnot 0x180) 7)) v));;
  modify (λ w, bf_set 0x180 7 w v).

Definition seL4_MessageInfo_ptr_set_length (v : Z) : M Z unit :=
  lift (seL4_DebugAssert (bf_fits (wrap32 (Z.shiftr (Z.lnot 0x7f) 0)) v));;
  modify (λ w, bf_set 0x7f 0 w v).

End MessageInfo.

Module CapRights.

Definition seL4_CapRights_new (capAllowGrant capAllowRead capAllowWrite : Z) : outcome Z :=
  let w := 0 in
  seL4_DebugAssert (bf_fits (wrap32 (Z.lnot 0x1)) capAllowGrant);;
  let w := bf_put 0x1 2 w capAllowGrant in
  seL4_DebugAssert (bf_fits (wrap32 (Z.lnot 0x1)) capAllowRead);;
  let w := bf_put 0x1 1 w capAllowRead in
  seL4_DebugAssert (bf_fits (wrap32 (Z.lnot 0x1)) capAllowWrite);;
  mret (bf_put 0x1 0 w capAllowWrite).

Definition seL4_CapRights_ptr_new (capAllowGrant capAllowRead capAllowWrite : Z) : M Z unit :=
  modify (λ _, 0);;
  lift (seL4_DebugAssert (bf_fits (wrap32 (Z.lnot 0x1)) capAllowGrant));;
  modify (λ w, bf_put 0x1 2 w capAllowGrant);;
  lift (seL4_DebugAssert (bf_fits (wrap32 (Z.lnot 0x1)) capAllowRead));;
  modify (λ w, bf_put 0x1 1 w capAllowRead);;
  lift (seL4_DebugAssert (bf_fits (wrap32 (Z.lnot 0x1)) capAllowWrite));;
  modify (λ w, bf_put 0x1 0 w capAllowWrite).

Definition seL4_CapRights_get_capAllowGrant (w : Z) : Z := bf_get 0x4 2 w.
Definition seL4_CapRights_get_capAllowRead (w : Z) : Z := bf_get 0x2 1 w.
Definition seL4_CapRights_get_capAllowWrite (w : Z) : Z := bf_get 0x1 0 w.

Definition seL4_CapRights_set_capAllowGrant (w v : Z) : outcome Z :=
  seL4_DebugAssert (bf_fits (wrap32 (Z.shiftr (Z.lnot 0x4) 2)) v);;
  mret (bf_set 0x4 2 w v).

Definition seL4_CapRights_set_capAllowRead (w v : Z) : outcome Z :=
  seL4_DebugAssert (bf_fits (wrap32 (Z.shiftr (Z.lnot 0x2) 1)) v);;
  mret (bf_set 0x2 1 w v).

Definition seL4_CapRights_set_capAllowWrite (w v : Z) : outcome Z :=
  seL4_DebugAssert (bf_fits (wrap32 (Z.shiftr (Z.lnot 0x1) 0)) v);;
  mret (bf_set 0x1 0 w v).

Definition seL4_CapRights_ptr_get_capAllowGrant : M Z Z := gets (bf_get 0x4 2).
Definition seL4_CapRights_ptr_get_capAllowRead : M Z Z := gets (bf_get 0x2 1).
Definition seL4_CapRights_ptr_get_capAllowWrite : M Z Z := gets (bf_get 0x1 0).

Definition seL4_CapRights_ptr_set_capAllowGrant (v : Z) : M Z unit :=
  lift (seL4_DebugAssert (bf_fits (wrap32 (Z.shiftr (Z.lnot 0x4) 2)) v));;
  modify (λ w, bf_set 0x4 2 w v).

Definition seL4_CapRights_ptr_set_capAllowRead (v : Z) : M Z unit :=
  lift (seL4_DebugAssert (bf_fits (wrap32 (Z.shiftr (Z.lnot 0x2) 1)) v));;
  modify (λ w, bf_set 0x2 1 w v).

Definition seL4_CapRights_ptr_set_capAllowWrite (v : Z) : M Z unit :=
  lift (seL4_DebugAssert (bf_fits (wrap32 (Z.shiftr (Z.lnot 0x1) 0)) v));;
  modify (λ w, bf_set 0x1 0 w v).

(** [seL4_AllRights] of [sel4/shared_types.h]. *)
Definition seL4_AllRights : outcome Z := seL4_CapRights_new 1 1 1.

End CapRights.

Module CapData.

(** [enum seL4_CapData_tag]. *)
Definition seL4_CapData_Badge : Z := 0.
Definition seL4_CapData_Guard : Z := 1.

Definition seL4_CapData_get_CapDataType (w : Z) : Z := Z.land (Z.shiftr w 31) 0x1.
Definition seL4_CapData_CapDataType_equals (w tag : Z) : bool :=
  Z.land (Z.shiftr w 31) 0x1 =? tag.
Definition seL4_CapData_ptr_get_CapDataType : M Z Z :=
  gets (λ w, Z.land (Z.shiftr w 31) 0x1).

Definition seL4_CapData_Badge_new (Badge : Z) : outcome Z :=
  let w := 0 in
  seL4_DebugAssert (bf_fits (wrap32 (Z.lnot 0x1)) seL4_CapData_Badge);;
  let w := bf_put 0x1 31 w seL4_CapData_Badge in
  seL4_DebugAssert (bf_fits (wrap32 (Z.lnot 0xfffffff)) Badge);;
  mret (bf_put 0xfffffff 0 w Badge).

Definition seL4_CapData_Badge_ptr_new (Badge : Z) : M Z unit :=
  modify (λ _, 0);;
  lift (seL4_DebugAssert (bf_fits (wrap32 (Z.lnot 0x1)) seL4_CapData_Badge));;
  modify (λ w, bf_put 0x1 31 w seL4_CapData_Badge);;
  lift (seL4_DebugAssert (bf_fits (wrap32 (Z.lnot 0xfffffff)) Badge));;
  modify (λ w, bf_put 0xfffffff 0 w Badge).

Definition seL4_CapData_Badge_get_Badge (w : Z) : outcome Z :=
  seL4_DebugAssert (seL4_CapData_CapDataType_equals w seL4_CapData_Badge);;
  mret (bf_get 0xfffffff 0 w).

(** The constants of the tagged accessors carry [ul]: their guards shift an
    unsigned word. *)
Definition seL4_CapData_Badge_set_Badge (w v : Z) : outcome Z :=
  seL4_DebugAssert (seL4_CapData_CapDataType_equals w seL4_CapData_Badge);;
  seL4_DebugAssert (bf_fits (Z.shiftr (wrap32 (Z.lnot 0xfffffff)) 0) v);;
  mret (bf_set 0xfffffff 0 w v).

Definition seL4_CapData_Badge_ptr_get_Badge : M Z Z :=
  w ← get; lift (seL4_CapData_Badge_get_Badge w).

Definition seL4_CapData_Badge_ptr_set_Badge (v : Z) : M Z unit :=
  w ← get;
  lift (seL4_DebugAssert (seL4_CapData_CapDataType_equals w seL4_CapData_Badge));;
  lift (seL4_DebugAssert (bf_fits (Z.shiftr (wrap32 (Z.lnot 0xfffffff)) 0) v));;
  modify (λ w, bf_set 0xfffffff 0 w v).

Definition seL4_CapData_Guard_new (GuardBits GuardSize : Z) : outcome Z :=
  let w := 0 in
  seL4_DebugAssert (bf_fits (wrap32 (Z.lnot 0x1)) seL4_CapData_Guard);;
  let w := bf_put 0x1 31 w seL4_CapData_Guard in
  seL4_DebugAssert (bf_fits (wrap32 (Z.lnot 0x3ffff)) GuardBits);;
  let w := bf_put 0x3ffff 8 w GuardBits in
  seL4_DebugAssert (bf_fits (wrap32 (Z.lnot 0x1f)) GuardSize);;
  mret (bf_put 0x1f 3 w GuardSize).

Definition seL4_CapData_Guard_ptr_new (GuardBits GuardSize : Z) : M Z unit :=
  modify (λ _, 0);;
  lift (seL4_DebugAssert (bf_fits (wrap32 (Z.lnot 0x1)) seL4_CapData_Guard));;
  modify (λ w, bf_put 0x1 31 w seL4_CapData_Guard);;
  lift (seL4_DebugAssert (bf_fits (wrap32 (Z.lnot 0x3ffff)) GuardBits));;
  modify (λ w, bf_put 0x3ffff 8 w GuardBits);;
  lift (seL4_DebugAssert (bf_fits (wrap32 (Z.lnot 0x1f)) GuardSize));;
  modify (λ w, bf_put 0x1f 3 w GuardSize).

Definition seL4_CapData_Guard_get_GuardBits (w : Z) : outcome Z :=
  seL4_DebugAssert (seL4_CapData_CapDataType_equals w seL4_CapData_Guard);;
  mret (bf_get 0x3ffff00 8 w).

Definition seL4_CapData_Guard_set_GuardBits (w v : Z) : outcome Z :=
  seL4_DebugAssert (seL4_CapData_CapDataType_equals w seL4_CapData_Guard);;
  seL4_DebugAssert (bf_fits (Z.shiftr (wrap32 (Z.lnot 0x3ffff00)) 8) v);;
  mret (bf_set 0x3ffff00 8 w v).

Definition seL4_CapData_Guard_ptr_get_GuardBits : M Z Z :=
  w ← get; lift (seL4_CapData_Guard_get_GuardBits w).

Definition seL4_CapData_Guard_ptr_set_GuardBits (v : Z) : M Z unit :=
  w ← get;
  lift (seL4_DebugAssert (seL4_CapData_CapDataType_equals w seL4_CapData_Guard));;
  lift (seL4_DebugAssert (bf_fits (Z.shiftr (wrap32 (Z.lnot 0x3ffff00)) 8) v));;
  modify (λ w, bf_set 0x3ffff00 8 w v).

Definition seL4_CapData_Guard_get_GuardSize (w : Z) : outcome Z :=
  seL4_DebugAssert (seL4_CapData_CapDataType_equals w seL4_CapData_Guard);;
  mret (bf_get 0xf8 3 w).

Definition seL4_CapData_Guard_set_GuardSize (w v : Z) : outcome Z :=
  seL4_DebugAssert (seL4_CapData_CapDataType_equals w seL4_CapData_Guard);;
  seL4_DebugAssert (bf_fits (Z.shiftr (wrap32 (Z.lnot 0xf8)) 3) v);;
  mret (bf_set 0xf8 3 w v).

Definition seL4_CapData_Guard_ptr_get_GuardSize : M Z Z :=
  w ← get; lift (seL4_CapData_Guard_get_GuardSize w).

Definition seL4_CapData_Guard_ptr_set_GuardSize (v : Z) : M Z unit :=
  w ← get;
  lift (seL4_DebugAssert (seL4_CapData_CapDataType_equals w seL4_CapData_Guard));;
  lift (seL4_DebugAssert (bf_fits (Z.shiftr (wrap32 (Z.lnot 0xf8)) 3) v));;
  modify (λ w, bf_set 0xf8 3 w v).

End CapData.

Import PrioProps MessageInfo CapRights CapData.

(** ** The accessors, as fields of the word *)

(** Rewrites the literal masks of the accessors into the fields they name. *)
Ltac name_fields :=
  repeat first
    [ progress change (bf_get 0xfffff000 12) with (bf_get (field 12 20) 12)
    | progress change (bf_set 0xfffff000 12) with (bf_set (field 12 20) 12)
    | progress change (bf_get 0xe00 9) with (bf_get (field 9 3) 9)
    | progress change (bf_set 0xe00 9) with (bf_set (field 9 3) 9)
    | progress change (bf_get 0x180 7) with (bf_get (field 7 2) 7)
    | progress change (bf_set 0x180 7) with (bf_set (field 7 2) 7)
    | progress change (bf_get 0x7f 0) with (bf_get (field 0 7) 0)
    | progress change (bf_set 0x7f 0) with (bf_set (field 0 7) 0)
    | progress change (bf_get 0xfffffff 0) with (bf_get (field 0 28) 0)
    | progress change (bf_set 0xfffffff 0) with (bf_set (field 0 28) 0)
    | progress change (bf_get 0x3ffff00 8) with (bf_get (field 8 18) 8)
    | progress change (bf_set 0x3ffff00 8) with (bf_set (field 8 18) 8)
    | progress change (bf_get 0xf8 3) with (bf_get (field 3 5) 3)
    | progress change (bf_set 0xf8 3) with (bf_set (field 3 5) 3)
    | progress change (bf_get 0xff00 8) with (bf_get (field 8 8) 8)
    | progress change (bf_set 0xff00 8) with (bf_set (field 8 8) 8)
    | progress change (bf_get 0xff 0) with (bf_get (field 0 8) 0)
    | progress change (bf_set 0xff 0) with (bf_set (field 0 8) 0)
    | progress change (bf_get 0x4 2) with (bf_get (field 2 1) 2)
    | progress change (bf_set 0x4 2) with (bf_set (field 2 1) 2)
    | progress change (bf_get 0x2 1) with (bf_get (field 1 1) 1)
    | progress change (bf_set 0x2 1) with (bf_set (field 1 1) 1)
    | progress change (bf_get 0x1 0) with (bf_get (field 0 1) 0)
    | progress change (bf_set 0x1 0) with (bf_set (field 0 1) 0)
    | progress change (bf_put 0xfffff 12) with (bf_put (Z.ones 20) 12)
    | progress change (bf_put 0x7 9) with (bf_put (Z.ones 3) 9)
    | progress change (bf_put 0x3 7) with (bf_put (Z.ones 2) 7)
    | progress change (bf_put 0x7f 0) with (bf_put (Z.ones 7) 0)
    | progress change (bf_put 0xfffffff 0) with (bf_put (Z.ones 28) 0)
    | progress change (bf_put 0x3ffff 8) with (bf_put (Z.ones 18) 8)
    | progress change (bf_put 0x1f 3) with (bf_put (Z.ones 5) 3)
    | progress change (bf_put 0x1 31) with (bf_put (Z.ones 1) 31)
    | progress change (bf_put 0xff 8) with (bf_put (Z.ones 8) 8)
    | progress change (bf_put 0xff 0) with (bf_put (Z.ones 8) 0)
    | progress change (bf_put 0x1 2) with (bf_put (Z.ones 1) 2)
    | progress change (bf_put 0x1 1) with (bf_put (Z.ones 1) 1)
    | progress change (bf_put 0x1 0) with (bf_put (Z.ones 1) 0)
    | progress change (Z.lnot 0xfffff) with (Z.lnot (Z.ones 20))
    | progress change (Z.lnot 0x7) with (Z.lnot (Z.ones 3))
    | progress change (Z.lnot 0x3) with (Z.lnot (Z.ones 2))
    | progress change (Z.lnot 0x7f) with (Z.lnot (Z.ones 7))
    | progress change (Z.lnot 0xfffffff) with (Z.lnot (Z.ones 28))
    | progress change (Z.lnot 0x3ffff) with (Z.lnot (Z.ones 18))
    | progress change (Z.lnot 0x1f) with (Z.lnot (Z.ones 5))
    | progress change (Z.lnot 0xff) with (Z.lnot (Z.ones 8)) ].

(** Reads a field back through the writes around it. *)
Ltac read_fields :=
  repeat first
    [ rewrite bf_get_set_same by lia | rewrite bf_get_set_other by lia
    | rewrite bf_get_put_other by lia
    | rewrite bf_get_put_same; [|lia|lia|lia|lia|read_fields; reflexivity] ].

(** What a message tag says, apart from how it is packed. *)
Record tag := mk_tag { t_label : Z; t_capsUnwrapped : Z; t_extraCaps : Z; t_length : Z }.

Definition tag_of (w : Z) : tag :=
  mk_tag (seL4_MessageInfo_get_label w) (seL4_MessageInfo_get_capsUnwrapped w)
         (seL4_MessageInfo_get_extraCaps w) (seL4_MessageInfo_get_length w).

Definition tag_ok (t : tag) : Prop :=
  0 ≤ t_label t < 2 ^ 20 ∧ 0 ≤ t_capsUnwrapped t < 2 ^ 3 ∧
  0 ≤ t_extraCaps t < 2 ^ 2 ∧ 0 ≤ t_length t < 2 ^ 7.

Ltac open_tag :=
  unfold tag_of, seL4_MessageInfo_get_label, seL4_MessageInfo_get_capsUnwrapped,
    seL4_MessageInfo_get_extraCaps, seL4_MessageInfo_get_length.

Lemma tag_of_ok w : tag_ok (tag_of w).
Proof. open_tag. name_fields. split_and!; simpl; apply bf_get_range; lia. Qed.

Lemma MessageInfo_new_done label capsUnwrapped extraCaps length :
  tag_ok (mk_tag label capsUnwrapped extraCaps length) →
  seL4_MessageInfo_new label capsUnwrapped extraCaps length
  = Done (bf_put 0x7f 0 (bf_put 0x3 7 (bf_put 0x7 9 (bf_put 0xfffff 12 0 label)
            capsUnwrapped) extraCaps) length).
Proof.
  intros (Hl & Hc & He & Hn). simpl in *.
  unfold seL4_MessageInfo_new, seL4_DebugAssert, check. name_fields.
  rewrite !bf_fits_ones by lia. reflexivity.
Qed.

(** A tag built by [seL4_MessageInfo_new] from fields that fit is one word,
    and the four getters read back exactly the fields it was built from. *)
Theorem MessageInfo_new_get label capsUnwrapped extraCaps length :
  tag_ok (mk_tag label capsUnwrapped extraCaps length) →
  ∃ w, seL4_MessageInfo_new label capsUnwrapped extraCaps length = Done w ∧ is_word w ∧
    tag_of w = mk_tag label capsUnwrapped extraCaps length.
Proof.
  intros Hok. eexists. split_and!; [by apply MessageInfo_new_done| |].
  - repeat apply bf_put_word. split; reflexivity || lia.
  - destruct Hok as (Hl & Hc & He & Hn). simpl in *.
    open_tag. name_fields. f_equal; read_fields; reflexivity.
Qed.

Lemma MessageInfo_new_get_witness :
  ∃ w, seL4_MessageInfo_new 3 0 0 1 = Done w ∧ is_word w ∧ tag_of w = mk_tag 3 0 0 1.
Proof. apply (MessageInfo_new_get 3 0 0 1). unfold tag_ok; simpl; lia. Defined.

(** the constructor of a tag refuses, by its debug assertions, every
    combination of words that does not fit the fields. *)
Theorem MessageInfo_new_rejects label capsUnwrapped extraCaps length :
  is_word label → is_word capsUnwrapped → is_word extraCaps → is_word length →
  seL4_MessageInfo_new label capsUnwrapped extraCaps length = Halted AssertFailed
  ↔ ¬ tag_ok (mk_tag label capsUnwrapped extraCaps length).
Proof.
  intros Wl Wc We Wn. split.
  - intros Hh Hok. by rewrite MessageInfo_new_done in Hh.
  - intros Hno. unfold seL4_MessageInfo_new, seL4_DebugAssert, check. name_fields.
    destruct (bf_fits _ label) eqn:E1; [|done].
    destruct (bf_fits _ capsUnwrapped) eqn:E2; [|done].
    destruct (bf_fits _ extraCaps) eqn:E3; [|done].
    destruct (bf_fits _ length) eqn:E4; [|done].
    destruct Hno. split; [|split; [|split]]; simpl; apply bf_fits_range; done || lia.
Qed.

Lemma MessageInfo_new_rejects_witness :
  seL4_MessageInfo_new 3 0 4 1 = Halted AssertFailed ↔ ¬ tag_ok (mk_tag 3 0 4 1).
Proof. apply (MessageInfo_new_rejects 3 0 4 1); unfold is_word, word_mod; lia. Defined.

(** on a value that fits, each setter of a tag changes its own field to
    that value and no other. *)
Theorem MessageInfo_set_get w v :
  let t := tag_of w in
  (0 ≤ v < 2 ^ 20 → ∃ w', seL4_MessageInfo_set_label w v = Done w' ∧
    tag_of w' = mk_tag v (t_capsUnwrapped t) (t_extraCaps t) (t_length t)) ∧
  (0 ≤ v < 2 ^ 3 → ∃ w', seL4_MessageInfo_set_capsUnwrapped w v = Done w' ∧
    tag_of w' = mk_tag (t_label t) v (t_extraCaps t) (t_length t)) ∧
  (0 ≤ v < 2 ^ 2 → ∃ w', seL4_MessageInfo_set_extraCaps w v = Done w' ∧
    tag_of w' = mk_tag (t_label t) (t_capsUnwrapped t) v (t_length t)) ∧
  (0 ≤ v < 2 ^ 7 → ∃ w', seL4_MessageInfo_set_length w v = Done w' ∧
    tag_of w' = mk_tag (t_label t) (t_capsUnwrapped t) (t_extraCaps t) v).
Proof.
  intros t. subst t. split_and!; intros Hv.
  - exists (bf_set 0xfffff000 12 w v). split; [reflexivity|].
    open_tag. name_fields. simpl. f_equal; read_fields; reflexivity.
  - exists (bf_set 0xe00 9 w v). split.
    + unfold seL4_MessageInfo_set_capsUnwrapped, seL4_DebugAssert, check.
      change (wrap32 (Z.shiftr (Z.lnot 0xe00) 9)) with (wrap32 (Z.lnot (Z.ones 3))).
      by rewrite bf_fits_ones by lia.
    + open_tag. name_fields. simpl. f_equal; read_fields; reflexivity.
  - exists (bf_set 0x180 7 w v). split.
    + unfold seL4_MessageInfo_set_extraCaps, seL4_DebugAssert, check.
      change (wrap32 (Z.shiftr (Z.lnot 0x180) 7)) with (wrap32 (Z.lnot (Z.ones 2))).
      by rewrite bf_fits_ones by lia.
    + open_tag. name_fields. simpl. f_equal; read_fields; reflexivity.
  - exists (bf_set 0x7f 0 w v). split.
    + unfold seL4_MessageInfo_set_length, seL4_DebugAssert, check.
      change (wrap32 (Z.shiftr (Z.lnot 0x7f) 0)) with (wrap32 (Z.lnot (Z.ones 7))).
      by rewrite bf_fits_ones by lia.
    + open_tag. name_fields. simpl. f_equal; read_fields; reflexivity.
Qed.

Lemma MessageInfo_set_get_witness :
  ∃ w', seL4_MessageInfo_set_length 12288 9 = Done w' ∧ tag_of w' = mk_tag 3 0 0 9.
Proof. apply (MessageInfo_set_get 12288 9). lia. Defined.

(** the label setter's debug assertion never fires: any word is accepted
    and silently truncated to the low 20 bits, although the generated comment
    says the check fails if bits would be overridden. *)
Theorem MessageInfo_set_label_truncates w v :
  ∃ w', seL4_MessageInfo_set_label w v = Done w' ∧
    seL4_MessageInfo_get_label w' = v mod 2 ^ 20.
Proof.
  exists (bf_set 0xfffff000 12 w v). split; [reflexivity|].
  unfold seL4_MessageInfo_get_label. name_fields. apply bf_get_set_trunc; lia.
Qed.

(** Writes through a pointer, as a function of the word pointed to. *)
Definition write_through (o : outcome Z) (w : Z) : outcome unit * Z :=
  match o with Done w' => (Done tt, w') | Halted h => (Halted h, w) end.

(** the [_ptr_] accessors of a tag are the by-value ones applied to the word
    behind the pointer, failed assertions included. *)
Theorem MessageInfo_ptr_agrees label capsUnwrapped extraCaps length w v :
  (∀ w', seL4_MessageInfo_new label capsUnwrapped extraCaps length = Done w' →
    seL4_MessageInfo_ptr_new label capsUnwrapped extraCaps length w = (Done tt, w')) ∧
  (∀ h, seL4_MessageInfo_new label capsUnwrapped extraCaps length = Halted h →
    (seL4_MessageInfo_ptr_new label capsUnwrapped extraCaps length w).1 = Halted h) ∧
  seL4_MessageInfo_ptr_set_label v w = write_through (seL4_MessageInfo_set_label w v) w ∧
  seL4_MessageInfo_ptr_set_capsUnwrapped v w
    = write_through (seL4_MessageInfo_set_capsUnwrapped w v) w ∧
  seL4_MessageInfo_ptr_set_extraCaps v w
    = write_through (seL4_MessageInfo_set_extraCaps w v) w ∧
  seL4_MessageInfo_ptr_set_length v w = write_through (seL4_MessageInfo_set_length w v) w ∧
  seL4_MessageInfo_ptr_get_label w = (Done (t_label (tag_of w)), w) ∧
  seL4_MessageInfo_ptr_get_capsUnwrapped w = (Done (t_capsUnwrapped (tag_of w)), w) ∧
  seL4_MessageInfo_ptr_get_extraCaps w = (Done (t_extraCaps (tag_of w)), w) ∧
  seL4_MessageInfo_ptr_get_length w = (Done (t_length (tag_of w)), w).
Proof.
  unfold seL4_MessageInfo_new, seL4_MessageInfo_ptr_new, seL4_MessageInfo_set_label,
    seL4_MessageInfo_set_capsUnwrapped, seL4_MessageInfo_set_extraCaps,
    seL4_MessageInfo_set_length, seL4_MessageInfo_ptr_set_label,
    seL4_MessageInfo_ptr_set_capsUnwrapped, seL4_MessageInfo_ptr_set_extraCaps,
    seL4_MessageInfo_ptr_set_length, write_through, seL4_DebugAssert, check, lift, modify,
    mbind, M_bind, outcome_bind, mret, outcome_ret.
  split_and!; try reflexivity; repeat case_match; naive_solver.
Qed.

(** a badge that fits 28 bits survives [seL4_CapData_Badge_new] and
    [seL4_CapData_Badge_get_Badge]; reading the guard out of the result trips
    the tag assertion. *)
Theorem CapData_Badge_roundtrip b :
  0 ≤ b < 2 ^ 28 →
  ∃ w, seL4_CapData_Badge_new b = Done w ∧
    seL4_CapData_get_CapDataType w = seL4_CapData_Badge ∧
    seL4_CapData_Badge_get_Badge w = Done b ∧
    seL4_CapData_Guard_get_GuardBits w = Halted AssertFailed.
Proof.
  intros Hb. exists (bf_put 0xfffffff 0 0 b).
  assert (Htag : Z.land (Z.shiftr (bf_put 0xfffffff 0 0 b) 31) 1 = 0).
  { change (Z.land (Z.shiftr (bf_put 0xfffffff 0 0 b) 31) 1)
      with (Z.land (Z.shiftr (bf_put (Z.ones 28) 0 0 b) 31) (Z.ones 1)).
    apply Z.bits_inj'. intros i Hi. unfold bf_put.
    rewrite Z.land_spec, Z.shiftr_spec, Z.lor_spec, wrap32_testbit, Z.shiftl_spec,
      Z.land_spec by lia.
    rewrite !Z.bits_0, (Z.ones_spec_high 28) by lia. by rewrite !andb_false_r. }
  unfold seL4_CapData_Badge_new, seL4_CapData_Badge_get_Badge, seL4_CapData_get_CapDataType,
    seL4_CapData_Guard_get_GuardBits, seL4_CapData_CapDataType_equals, seL4_DebugAssert, check.
  rewrite Htag. name_fields. rewrite bf_fits_ones by lia.
  split_and!; try reflexivity. simpl. unfold mbind, outcome_bind, mret, outcome_ret.
  f_equal. read_fields. reflexivity.
Qed.

Lemma CapData_Badge_roundtrip_witness :
  ∃ w, seL4_CapData_Badge_new 0x61 = Done w ∧
    seL4_CapData_get_CapDataType w = seL4_CapData_Badge ∧
    seL4_CapData_Badge_get_Badge w = Done 0x61 ∧
    seL4_CapData_Guard_get_GuardBits w = Halted AssertFailed.
Proof. apply (CapData_Badge_roundtrip 0x61). lia. Defined.
