(* ===== verification/Vka.v ===== *)
(** The virtual kernel allocator interface, [vka/vka.h], [vka/object.h],
    [vka/capops.h] and [vka/object_capops.h] of the staged libraries.

    A [vka_t] is a table of function pointers over some allocator; the
    allocator itself (allocman) is outside the repository, so the table is a
    value over an arbitrary allocator state [W] and every entry is a
    computation over [W].  The kernel invocations the inline wrappers make are
    the class [Invocations].  What the documentation of [vka.h] promises of an
    allocator is the class [VkaLaws], against which the object layer is proved. *)

From S2P Require Import Prelude Messages.

(** [cspacepath_t]. *)
Record cspacepath_t := mk_path {
  capPtr : Z; capDepth : Z; root : Z; dest : Z; destDepth : Z; offset : Z; window : Z
}.

(** [vka_object_t]. *)
Record vka_object_t := mk_object { cptr : Z; ut : Z; type : Z; size_bits : Z }.

(** [memset(result, 0, sizeof( *result))] *)
Definition zero_object : vka_object_t := mk_object 0 0 0 0.
Definition zero_path : cspacepath_t := mk_path 0 0 0 0 0 0 0.

(** A NULL entry of the table is [None].  A function with a result pointer
    returns its error code and the value stored through the pointer. *)
Record vka_t (W : Type) := mk_vka {
  cspace_alloc : option (M W (Z * Z));
  cspace_make_path : option (Z → M W cspacepath_t);
  utspace_alloc : option (cspacepath_t → Z → Z → M W (Z * Z));
  utspace_alloc_maybe_device : option (cspacepath_t → Z → Z → bool → M W (Z * Z));
  utspace_alloc_at : option (cspacepath_t → Z → Z → Z → M W (Z * Z));
  cspace_free : option (Z → M W unit);
  utspace_free : option (Z → Z → Z → M W unit);
  utspace_paddr : option (Z → Z → Z → M W Z)
}.
Arguments cspace_alloc {W}.
Arguments cspace_make_path {W}.
Arguments utspace_alloc {W}.
Arguments utspace_alloc_maybe_device {W}.
Arguments utspace_alloc_at {W}.
Arguments cspace_free {W}.
Arguments utspace_free {W}.
Arguments utspace_paddr {W}.

(** The kernel invocations the wrappers make; each returns its error code. *)
Class Invocations (W : Type) := {
  seL4_DebugCapIdentify : Z → M W Z;
  seL4_CNode_SaveCaller : Z → Z → Z → M W Z;
  seL4_CNode_Copy : Z → Z → Z → Z → Z → Z → Z → M W Z;
  seL4_CNode_Delete : Z → Z → Z → M W Z;
  seL4_CNode_Mint : Z → Z → Z → Z → Z → Z → Z → Z → M W Z;
  seL4_CNode_Move : Z → Z → Z → Z → Z → Z → M W Z;
  seL4_CNode_Mutate : Z → Z → Z → Z → Z → Z → Z → M W Z;
  seL4_CNode_CancelBadgedSends : Z → Z → Z → M W Z;
  seL4_CNode_Revoke : Z → Z → Z → M W Z;
  seL4_CNode_Rotate : Z → Z → Z → Z → Z → Z → Z → Z → Z → Z → Z → M W Z;
  seL4_Untyped_Retype : Z → Z → Z → Z → Z → Z → Z → Z → M W Z
}.

Definition VKA_NO_PADDR : Z := 1.
Definition seL4_NoError : Z := 0.

(** [seL4_ObjectType] and the object sizes of [sel4_arch/constants.h]. *)
Definition seL4_UntypedObject : Z := 0.
Definition seL4_TCBObject : Z := 1.
Definition seL4_EndpointObject : Z := 2.
Definition seL4_NotificationObject : Z := 3.
Definition seL4_CapTableObject : Z := 4.
Definition seL4_SlotBits : Z := 4.
Definition seL4_TCBBits : Z := 10.
Definition seL4_EndpointBits : Z := 4.
Definition seL4_NotificationBits : Z := 4.

Section wrappers.
Context {W : Type} `{!Invocations W}.

(** The callers of these wrappers pass the addresses of their own variables as
    result pointers, so the wrappers' NULL checks on them never fire. *)

Definition vka_cspace_alloc (vka : option (vka_t W)) : M W (Z * Z) :=
  match vka with
  | None => mret (-1, 0)
  | Some v => match cspace_alloc v with
              | None => mret (-1, 0)
              | Some f => f
              end
  end.

Definition vka_cspace_make_path (vka : option (vka_t W)) (slot : Z) : M W cspacepath_t :=
  match vka with
  | None => halt_with Fatal
  | Some v => match cspace_make_path v with
              | None => halt_with Fatal
              | Some f => f slot
              end
  end.

Definition vka_cspace_alloc_path (vka : option (vka_t W)) : M W (Z * cspacepath_t) :=
  '(error, slot) ← vka_cspace_alloc vka;
  if error =? seL4_NoError
  then path ← vka_cspace_make_path vka slot; mret (error, path)
  else mret (error, zero_path).

(** [CONFIG_DEBUG_BUILD] is set, so the slot is checked to be empty first. *)
Definition vka_cspace_free (vka : option (vka_t W)) (slot : Z) : M W unit :=
  c ← seL4_DebugCapIdentify slot;
  ZF_LOGF_IF (negb (c =? 0));;
  match vka with
  | None => halt_with BadPointer
  | Some v => match cspace_free v with
              | None => mret tt
              | Some f => f slot
              end
  end.

Definition vka_cspace_free_path (vka : option (vka_t W)) (path : cspacepath_t) : M W unit :=
  vka_cspace_free vka (capPtr path).

Definition vka_utspace_alloc (vka : option (vka_t W)) (dst : cspacepath_t)
    (ty bits : Z) : M W (Z * Z) :=
  match vka with
  | None => mret (-1, 0)
  | Some v => match utspace_alloc v with
              | None => mret (-1, 0)
              | Some f => f dst ty bits
              end
  end.

Definition vka_utspace_alloc_maybe_device (vka : option (vka_t W)) (dst : cspacepath_t)
    (ty bits : Z) (can_use_dev : bool) : M W (Z * Z) :=
  match vka with
  | None => mret (-1, 0)
  | Some v => match utspace_alloc_maybe_device v with
              | None => mret (-1, 0)
              | Some f => f dst ty bits can_use_dev
              end
  end.

Definition vka_utspace_alloc_at (vka : option (vka_t W)) (dst : cspacepath_t)
    (ty bits paddr : Z) : M W (Z * Z) :=
  match vka with
  | None => mret (-1, 0)
  | Some v => match utspace_alloc_at v with
              | None => mret (-1, 0)
              | Some f => f dst ty bits paddr
              end
  end.

(** [CONFIG_LIB_VKA_ALLOW_MEMORY_LEAKS] is set: a missing entry is no error. *)
Definition vka_utspace_free (vka : option (vka_t W)) (ty bits target : Z) : M W unit :=
  match vka with
  | None => mret tt
  | Some v => match utspace_free v with
              | None => mret tt
              | Some f => f ty bits target
              end
  end.

Definition vka_utspace_paddr (vka : option (vka_t W)) (target ty bits : Z) : M W Z :=
  match vka with
  | None => mret VKA_NO_PADDR
  | Some v => match utspace_paddr v with
              | None => mret VKA_NO_PADDR
              | Some f => f target ty bits
              end
  end.

(** ** Capability operations, [vka/capops.h] *)

Definition vka_cnode_saveCaller (src : cspacepath_t) : M W Z :=
  seL4_CNode_SaveCaller (root src) (capPtr src) (capDepth src).

Definition vka_cnode_copy (dst src : cspacepath_t) (rights : Z) : M W Z :=
  seL4_CNode_Copy (root dst) (capPtr dst) (capDepth dst)
                  (root src) (capPtr src) (capDepth src) rights.

Definition vka_cnode_delete (src : cspacepath_t) : M W Z :=
  seL4_CNode_Delete (root src) (capPtr src) (capDepth src).

Definition vka_cnode_mint (dst src : cspacepath_t) (rights badge : Z) : M W Z :=
  seL4_CNode_Mint (root dst) (capPtr dst) (capDepth dst)
                  (root src) (capPtr src) (capDepth src) rights badge.

Definition vka_cnode_move (dst src : cspacepath_t) : M W Z :=
  seL4_CNode_Move (root dst) (capPtr dst) (capDepth dst)
                  (root src) (capPtr src) (capDepth src).

Definition vka_cnode_mutate (dst src : cspacepath_t) (badge : Z) : M W Z :=
  seL4_CNode_Mutate (root dst) (capPtr dst) (capDepth dst)
                    (root src) (capPtr src) (capDepth src) badge.

Definition vka_cnode_cancelBadgedSends (src : cspacepath_t) : M W Z :=
  seL4_CNode_CancelBadgedSends (root src) (capPtr src) (capDepth src).

Definition vka_cnode_revoke (src : cspacepath_t) : M W Z :=
  seL4_CNode_Revoke (root src) (capPtr src) (capDepth src).

Definition vka_cnode_rotate (dst : cspacepath_t) (dest_badge : Z) (pivot : cspacepath_t)
    (pivot_badge : Z) (src : cspacepath_t) : M W Z :=
  seL4_CNode_Rotate (root dst) (capPtr dst) (capDepth dst) dest_badge
                    (root pivot) (capPtr pivot) (capDepth pivot) pivot_badge
                    (root src) (capPtr src) (capDepth src).

(** ** Objects, [vka/object.h] *)

(** The exit path of a failed allocation: give the slot back if there is one. *)
Definition vka_alloc_error (vka : option (vka_t W)) (slot error : Z) : M W (Z * vka_object_t) :=
  when (negb (slot =? 0)) (vka_cspace_free vka slot);;
  mret (error, zero_object).

Definition vka_alloc_object_at_maybe_dev (vka : option (vka_t W)) (ty bits paddr : Z)
    (can_use_dev : bool) : M W (Z * vka_object_t) :=
  '(error, slot) ← vka_cspace_alloc vka;
  if negb (error =? 0) then vka_alloc_error vka 0 error
  else
    path ← vka_cspace_make_path vka slot;
    '(error, cookie) ←
      (if paddr =? VKA_NO_PADDR
       then vka_utspace_alloc_maybe_device vka path ty bits can_use_dev
       else vka_utspace_alloc_at vka path ty bits paddr);
    if negb (error =? 0) then vka_alloc_error vka slot error
    else mret (0, mk_object slot cookie ty bits).

Definition vka_alloc_object_at (vka : option (vka_t W)) (ty bits paddr : Z)
    : M W (Z * vka_object_t) :=
  vka_alloc_object_at_maybe_dev vka ty bits paddr false.

Definition vka_alloc_object (vka : option (vka_t W)) (ty bits : Z) : M W (Z * vka_object_t) :=
  vka_alloc_object_at vka ty bits VKA_NO_PADDR.

Definition vka_alloc_object_leaky (vka : option (vka_t W)) (ty bits : Z) : M W Z :=
  '(error, o) ← vka_alloc_object vka ty bits;
  mret (if error =? -1 then 0 else cptr o).

Definition vka_free_object (vka : option (vka_t W)) (object : vka_object_t) : M W unit :=
  path ← vka_cspace_make_path vka (cptr object);
  if capPtr path =? 0 then mret tt
  else
    seL4_CNode_Delete (root path) (capPtr path) (capDepth path);;
    vka_cspace_free vka (cptr object);;
    vka_utspace_free vka (type object) (size_bits object) (ut object).

Definition vka_object_paddr (vka : option (vka_t W)) (object : vka_object_t) : M W Z :=
  vka_utspace_paddr vka (ut object) (type object) (size_bits object).

Definition vka_alloc_untyped (vka : option (vka_t W)) (bits : Z) : M W (Z * vka_object_t) :=
  vka_alloc_object vka seL4_UntypedObject bits.
Definition vka_alloc_untyped_at (vka : option (vka_t W)) (bits paddr : Z)
    : M W (Z * vka_object_t) :=
  vka_alloc_object_at vka seL4_UntypedObject bits paddr.
Definition vka_alloc_tcb (vka : option (vka_t W)) : M W (Z * vka_object_t) :=
  vka_alloc_object vka seL4_TCBObject seL4_TCBBits.
Definition vka_alloc_endpoint (vka : option (vka_t W)) : M W (Z * vka_object_t) :=
  vka_alloc_object vka seL4_EndpointObject seL4_EndpointBits.
Definition vka_alloc_notification (vka : option (vka_t W)) : M W (Z * vka_object_t) :=
  vka_alloc_object vka seL4_NotificationObject seL4_NotificationBits.
Definition vka_alloc_cnode_object (vka : option (vka_t W)) (slot_bits : Z)
    : M W (Z * vka_object_t) :=
  vka_alloc_object vka seL4_CapTableObject slot_bits.

(** [LEAKY(notification)]. *)
Definition vka_alloc_notification_leaky (vka : option (vka_t W)) : M W Z :=
  '(error, o) ← vka_alloc_notification vka;
  mret (if negb (error =? 0) then 0 else cptr o).

(** [vka/object_capops.h]. *)
Definition vka_mint_object_inter_cspace (src_vka : option (vka_t W)) (object : vka_object_t)
    (dest_vka : option (vka_t W)) (rights badge : Z) : M W (Z * cspacepath_t) :=
  '(error, result) ← vka_cspace_alloc_path dest_vka;
  if negb (error =? seL4_NoError) then mret (error, result)
  else
    src ← vka_cspace_make_path src_vka (cptr object);
    e ← vka_cnode_mint result src rights badge;
    mret (e, result).

Definition vka_mint_object (vka : option (vka_t W)) (object : vka_object_t)
    (rights badge : Z) : M W (Z * cspacepath_t) :=
  vka_mint_object_inter_cspace vka object vka rights badge.

End wrappers.

(** ** What an allocator promises

    The account of an allocator and of the kernel below it: the slots handed out;
    the slots that hold a capability, each with the object it designates; and the
    live allocations of untyped memory, each with the type and the size it was made
    with.  The object of an allocation is named by the cookie of the allocation. *)
Record account := mk_account {
  slots : gset Z; full : gmap Z Z; mem : gmap Z (Z * Z)
}.

Definition take_slot (c : Z) (a : account) : account :=
  mk_account ({[c]} ∪ slots a) (full a) (mem a).
Definition drop_slot (c : Z) (a : account) : account :=
  mk_account (slots a ∖ {[c]}) (full a) (mem a).
Definition fill_slot (c cookie ty bits : Z) (a : account) : account :=
  mk_account (slots a) (<[c := cookie]> (full a)) (<[cookie := (ty, bits)]> (mem a)).
Definition clear_slot (c : Z) (a : account) : account :=
  mk_account (slots a) (delete c (full a)) (mem a).
Definition drop_mem (cookie : Z) (a : account) : account :=
  mk_account (slots a) (full a) (delete cookie (mem a)).

(** No slot holds a capability to the object. *)
Definition no_cap (cookie : Z) (a : account) : Prop := ∀ c, full a !! c ≠ Some cookie.

(** [acct] reads the account off the allocator and kernel state.  [resolves r i d c]
    says that the index [i], taken to the depth [d] from the CNode [r], leads to
    the slot [c].  The laws are what the comments of [vka.h] and of the stubs in
    [sel4_client.h] say: a function is used with what the comments require of its
    arguments, every call may report an error and has then done nothing, and untyped
    memory is given back only when all capabilities to the object have been
    deleted, with the type and the size of the allocation.  Nothing is said of a path
    that leads nowhere. *)
Class VkaLaws {W : Type} `{!Invocations W} (v : vka_t W) := {
  acct : W → account;
  resolves : Z → Z → Z → Z → Prop;
  law_cspace_alloc : ∃ f, cspace_alloc v = Some f ∧ ∀ w,
    wp f (λ r w', let '(e, c) := r in
      (e = 0 → c ≠ 0 ∧ c ∉ slots (acct w) ∧ full (acct w) !! c = None ∧ acct w' = take_slot c (acct w)) ∧
      (e ≠ 0 → acct w' = acct w)) w;
  law_make_path : ∃ f, cspace_make_path v = Some f ∧ ∀ c w, c ∈ slots (acct w) →
    wp (f c) (λ p w', capPtr p = c ∧ resolves (root p) (capPtr p) (capDepth p) c ∧ acct w' = acct w) w;
  law_utspace_alloc : ∃ f, utspace_alloc_maybe_device v = Some f ∧ ∀ p c ty bits dev w,
    resolves (root p) (capPtr p) (capDepth p) c → full (acct w) !! c = None →
    wp (f p ty bits dev) (λ r w', let '(e, cookie) := r in
      (e = 0 → mem (acct w) !! cookie = None ∧ no_cap cookie (acct w) ∧
               acct w' = fill_slot c cookie ty bits (acct w)) ∧
      (e ≠ 0 → acct w' = acct w)) w;
  law_cspace_free : ∃ f, cspace_free v = Some f ∧ ∀ c w, c ∈ slots (acct w) →
    wp (f c) (λ _ w', acct w' = drop_slot c (acct w)) w;
  law_utspace_free : ∃ f, utspace_free v = Some f ∧ ∀ ty bits cookie w,
    mem (acct w) !! cookie = Some (ty, bits) → no_cap cookie (acct w) →
    wp (f ty bits cookie) (λ _ w', acct w' = drop_mem cookie (acct w)) w;
  law_identify : ∀ c w, c ∈ slots (acct w) →
    wp (seL4_DebugCapIdentify c) (λ t w', acct w' = acct w ∧ (t = 0 ↔ full (acct w) !! c = None)) w;
  law_delete : ∀ r i d c w, resolves r i d c →
    wp (seL4_CNode_Delete r i d) (λ e w', acct w' = if decide (e = 0) then clear_slot c (acct w) else acct w) w
}.

(** ** Objects in the account *)

(** An object that is allocated, and the one capability to it. *)
Definition live (o : vka_object_t) (a : account) : Prop :=
  cptr o ∈ slots a ∧ full a !! cptr o = Some (ut o) ∧ mem a !! ut o = Some (type o, size_bits o) ∧
  ∀ c, full a !! c = Some (ut o) → c = cptr o.

(** An object that is not, and could be. *)
Definition fresh (o : vka_object_t) (a : account) : Prop :=
  cptr o ≠ 0 ∧ cptr o ∉ slots a ∧ full a !! cptr o = None ∧ mem a !! ut o = None ∧ no_cap (ut o) a.

Definition claim (o : vka_object_t) (a : account) : account :=
  fill_slot (cptr o) (ut o) (type o) (size_bits o) (take_slot (cptr o) a).
Definition release (o : vka_object_t) (a : account) : account :=
  drop_mem (ut o) (drop_slot (cptr o) (clear_slot (cptr o) a)).

Lemma drop_take_slot c a : c ∉ slots a → drop_slot c (take_slot c a) = a.
Proof.
  intros Hc. destruct a as [s f m]. unfold drop_slot, take_slot. simpl in *.
  f_equal. set_solver.
Qed.

Lemma release_claim o a : fresh o a → release o (claim o a) = a.
Proof.
  intros (_ & Hs & Hf & Hm & _). destruct a as [s f m].
  unfold release, claim, drop_mem, drop_slot, clear_slot, fill_slot, take_slot. simpl in *. f_equal.
  - set_solver.
  - by rewrite delete_insert_id.
  - by rewrite delete_insert_id.
Qed.

Lemma claim_live o a : fresh o a → live o (claim o a).
Proof.
  intros (_ & _ & _ & _ & Hn). unfold live, claim, fill_slot, take_slot. simpl.
  rewrite !lookup_insert_eq. split_and!; [set_solver|done|done|].
  intros c Hc. destruct (decide (cptr o = c)) as [<-|Hne]; [done|].
  rewrite lookup_insert_ne in Hc by done. by apply Hn in Hc.
Qed.

(** A live object differs from whatever is allocated later, and stays. *)
Lemma live_fresh o o' a : live o a → fresh o' a → cptr o ≠ cptr o' ∧ ut o ≠ ut o'.
Proof.
  intros (Hs & _ & Hm & _) (_ & Hs' & _ & Hm' & _). split; intros E; rewrite E in *; [done|congruence].
Qed.

Lemma live_claim o o' a : live o a → fresh o' a → live o (claim o' a).
Proof.
  intros L F. destruct (live_fresh o o' a L F) as [Hc Hu]. destruct L as (Hs & Hf & Hm & Hn).
  unfold live, claim, fill_slot, take_slot. simpl. rewrite !lookup_insert_ne by done. split_and!; [set_solver|done|done|].
  intros c Hc'. destruct (decide (cptr o' = c)) as [<-|Hne].
  - rewrite lookup_insert_eq in Hc'. congruence.
  - rewrite lookup_insert_ne in Hc' by done. by apply Hn.
Qed.

Section object_specs.
Context {W : Type} `{!Invocations W} (v : vka_t W) `{!VkaLaws v}.

Lemma vka_cspace_free_spec c w :
  c ∈ slots (acct w) → full (acct w) !! c = None →
  wp (vka_cspace_free (Some v) c) (λ _ w', acct w' = drop_slot c (acct w)) w.
Proof.
  intros Hs Hc. unfold vka_cspace_free. apply wp_bind.
  eapply wp_mono; [by apply law_identify|]. intros t w1 [Ha Ht]. simpl.
  assert (t = 0) as -> by (by apply Ht). simpl.
  destruct law_cspace_free as (f & -> & Hf).
  eapply wp_mono; [apply Hf; by rewrite Ha|]. intros [] w2 H2. by rewrite H2, Ha.
Qed.

(** What allocating an object does to the account, on success and on failure. *)
Definition alloc_post (ty bits : Z) (w : W) (r : Z * vka_object_t) (w' : W) : Prop :=
  let '(e, o) := r in
  (e = 0 → type o = ty ∧ size_bits o = bits ∧ fresh o (acct w) ∧ acct w' = claim o (acct w)) ∧
  (e ≠ 0 → o = zero_object ∧ acct w' = acct w).

Lemma vka_alloc_object_spec ty bits w :
  wp (vka_alloc_object (Some v) ty bits) (alloc_post ty bits w) w.
Proof.
  unfold vka_alloc_object, vka_alloc_object_at, vka_alloc_object_at_maybe_dev.
  apply wp_bind. unfold vka_cspace_alloc. destruct law_cspace_alloc as (f & -> & Hf).
  eapply wp_mono; [apply Hf|]. clear f Hf. intros [e c] w1 [Hok Herr].
  destruct (Z.eqb_spec e 0) as [->|He]; simpl; cycle 1.
  { apply wp_ret. split; [done|]. auto. }
  destruct Hok as (Hc0 & Hcs & Hcf & Ha1); [done|].
  assert (Hs1 : c ∈ slots (acct w1)) by (rewrite Ha1; simpl; set_solver).
  apply wp_bind. unfold vka_cspace_make_path. destruct law_make_path as (f & -> & Hf).
  eapply wp_mono; [by apply Hf|]. clear f Hf. intros p w2 (Hp & Hr & Ha2).
  apply wp_bind. unfold vka_utspace_alloc_maybe_device.
  destruct law_utspace_alloc as (f & -> & Hf).
  assert (Hfree : full (acct w2) !! c = None) by (rewrite Ha2, Ha1; done).
  eapply wp_mono; [by apply (Hf p c)|]. clear f Hf. intros [e cookie] w3 [Hok Herr'].
  destruct (Z.eqb_spec e 0) as [->|He]; simpl.
  - destruct Hok as (Hm & Hn & Ha3); [done|]. apply wp_ret. split; [|done]. intros _. simpl.
    rewrite Ha2, Ha1 in Hm, Hn, Ha3. unfold fresh, claim. simpl. by split_and!.
  - unfold vka_alloc_error. apply wp_bind. destruct (Z.eqb_spec c 0); [done|]. simpl.
    specialize (Herr' He). eapply wp_mono; [apply vka_cspace_free_spec; rewrite Herr', Ha2; [done|by rewrite Ha1]|].
    intros [] w4 H4. apply wp_ret. split; [done|]. intros _. split; [done|].
    rewrite H4, Herr', Ha2, Ha1. by apply drop_take_slot.
Qed.

(** The kernel has refused to delete a capability that was named properly. *)
Definition delete_refused : Prop :=
  ∃ r i d c w e w', resolves r i d c ∧ seL4_CNode_Delete r i d w = (Done e, w') ∧ e ≠ 0.

(** The error of the deletion is ignored, but the slot is found to be full
    afterwards: the program ends, and the memory has not been given back. *)
Lemma vka_free_object_spec o w :
  cptr o ≠ 0 → live o (acct w) →
  wpe (vka_free_object (Some v) o)
     (λ _ w', acct w' = release o (acct w))
     (λ h w', h = Fatal ∧ delete_refused ∧ acct w' = acct w) w.
Proof.
  intros Hc (Hs & Hf & Hm & Hn). unfold vka_free_object, vka_cspace_make_path, vka_utspace_free.
  apply wpe_bind, wpe_wp. destruct law_make_path as (f & -> & Hp).
  eapply wp_mono; [by apply Hp|]. clear f Hp. intros p w1 (Hp & Hr & Ha1).
  rewrite Hp in *. destruct (Z.eqb_spec (cptr o) 0); [done|].
  apply wpe_bind. pose proof (law_delete _ _ _ _ w1 Hr) as Hd. unfold wp in Hd. unfold wpe at 1.
  destruct (seL4_CNode_Delete (root p) (cptr o) (capDepth p) w1) as [[e|h] w2] eqn:Ed; [|done].
  rewrite Ha1 in Hd. destruct (decide (e = 0)) as [->|He].
  - apply wpe_bind, wpe_wp. eapply wp_mono.
    { apply vka_cspace_free_spec; rewrite Hd; [done|]. apply lookup_delete_eq. }
    intros [] w3 Ha3. rewrite Hd in Ha3. destruct law_utspace_free as (f & -> & Hu). apply wpe_wp.
    eapply wp_mono; [apply Hu; rewrite Ha3; [done|]|intros [] w4 Ha4; by rewrite Ha4, Ha3].
    intros c Hcc. simpl in Hcc. apply lookup_delete_Some in Hcc as [Hne Hcc]. by rewrite (Hn c Hcc) in Hne.
  - apply wpe_bind. unfold vka_cspace_free. apply wpe_bind, wpe_wp. eapply wp_mono.
    { apply law_identify. by rewrite Hd. }
    intros t w3 [Ha3 Ht]. rewrite Hd in *. apply wpe_bind. destruct (Z.eqb_spec t 0) as [->|Ht0].
    { rewrite (proj1 Ht eq_refl) in Hf. done. }
    split; [done|]. split; [|done]. by exists (root p), (cptr o), (capDepth p), (cptr o), w1, e, w2.
Qed.

(** C39: over any allocator that keeps its documented contract, allocating an
    object and, when that succeeds, freeing it leaves the slots, the capabilities
    and the untyped memory exactly as they were; when the allocation fails the
    caller gets a zeroed object and nothing has leaked.  The one other end is the
    fatal error after the kernel has refused to delete the capability: then the
    object is still allocated, its memory not handed back below a live capability. *)
Theorem vka_alloc_free_roundtrip ty bits w :
  wpe ('(e, o) ← vka_alloc_object (Some v) ty bits;
       when (e =? 0) (vka_free_object (Some v) o);; mret (e, o))
     (λ r w', acct w' = acct w ∧ (r.1 ≠ 0 → r.2 = zero_object))
     (λ h w', h = Fatal ∧ delete_refused ∧
        ∃ o, type o = ty ∧ size_bits o = bits ∧ fresh o (acct w) ∧ acct w' = claim o (acct w)) w.
Proof.
  apply wpe_bind, wpe_wp. eapply wp_mono; [apply vka_alloc_object_spec|]. intros [e o] w1 [Hok Herr].
  apply wpe_bind. destruct (Z.eqb_spec e 0) as [->|He]; simpl.
  - destruct Hok as (Hty & Hsz & Hfr & Ha); [done|]. pose proof Hfr as (H0 & _).
    eapply wpe_mono; [apply vka_free_object_spec; [done|rewrite Ha; by apply claim_live]|..].
    + intros [] w2 Ha2. apply wpe_ret. split; [|done]. rewrite Ha2, Ha. by apply release_claim.
    + intros h w2 (-> & Hrf & Ha2). split; [done|]. split; [done|]. exists o. by rewrite Ha2, Ha.
  - destruct (Herr He) as [-> Ha]. apply wpe_ret, wpe_ret. done.
Qed.

End object_specs.

(** ** An allocator inside a larger state

    The same table over a state of which the allocator is a part. *)
Section zoomed.
Context {S W : Type} (g : S → W) (p : W → S → S).

Definition zoom_vka (v : vka_t W) : vka_t S := {|
  cspace_alloc := zoom g p <$> cspace_alloc v;
  cspace_make_path := (λ f c, zoom g p (f c)) <$> cspace_make_path v;
  utspace_alloc := (λ f d ty bits, zoom g p (f d ty bits)) <$> utspace_alloc v;
  utspace_alloc_maybe_device :=
    (λ f d ty bits dev, zoom g p (f d ty bits dev)) <$> utspace_alloc_maybe_device v;
  utspace_alloc_at := (λ f d ty bits a, zoom g p (f d ty bits a)) <$> utspace_alloc_at v;
  cspace_free := (λ f c, zoom g p (f c)) <$> cspace_free v;
  utspace_free := (λ f ty bits t, zoom g p (f ty bits t)) <$> utspace_free v;
  utspace_paddr := (λ f t ty bits, zoom g p (f t ty bits)) <$> utspace_paddr v
|}.

Definition zoom_invocations (IW : Invocations W) : Invocations S := {|
  seL4_DebugCapIdentify := λ c, zoom g p (seL4_DebugCapIdentify c);
  seL4_CNode_SaveCaller := λ r c d, zoom g p (seL4_CNode_SaveCaller r c d);
  seL4_CNode_Copy := λ r c d r' c' d' x, zoom g p (seL4_CNode_Copy r c d r' c' d' x);
  seL4_CNode_Delete := λ r c d, zoom g p (seL4_CNode_Delete r c d);
  seL4_CNode_Mint := λ r c d r' c' d' x b, zoom g p (seL4_CNode_Mint r c d r' c' d' x b);
  seL4_CNode_Move := λ r c d r' c' d', zoom g p (seL4_CNode_Move r c d r' c' d');
  seL4_CNode_Mutate := λ r c d r' c' d' b, zoom g p (seL4_CNode_Mutate r c d r' c' d' b);
  seL4_CNode_CancelBadgedSends := λ r c d, zoom g p (seL4_CNode_CancelBadgedSends r c d);
  seL4_CNode_Revoke := λ r c d, zoom g p (seL4_CNode_Revoke r c d);
  seL4_CNode_Rotate := λ r c d b r' c' d' b' r'' c'' d'',
    zoom g p (seL4_CNode_Rotate r c d b r' c' d' b' r'' c'' d'');
  seL4_Untyped_Retype := λ u t b r i d o n, zoom g p (seL4_Untyped_Retype u t b r i d o n)
|}.

Lemma zoom_laws (IW : Invocations W) (v : vka_t W) :
  (∀ w s, g (p w s) = w) → VkaLaws v → @VkaLaws S (zoom_invocations IW) (zoom_vka v).
Proof.
  intros Hgp L.
  assert (Hz : ∀ A (m : M W A) (Q : A → W → Prop) s,
    wp m Q (g s) → wp (zoom g p m) (λ a s', Q a (g s')) s).
  { intros A m Q s H. apply wp_zoom. eapply wp_mono; [exact H|]. intros a w. by rewrite Hgp. }
  refine {| acct := λ s, acct (g s); resolves := resolves |}.
  - destruct law_cspace_alloc as (f & E & H). eexists. cbn. rewrite E. split; [done|].
    intros s. apply (Hz _ _ _ s (H (g s))).
  - destruct law_make_path as (f & E & H). eexists. cbn. rewrite E. split; [done|].
    intros c s Hc. apply (Hz _ _ _ s (H c (g s) Hc)).
  - destruct law_utspace_alloc as (f & E & H). eexists. cbn. rewrite E. split; [done|].
    intros d c ty bits dev s Hr Hd. apply (Hz _ _ _ s (H d c ty bits dev (g s) Hr Hd)).
  - destruct law_cspace_free as (f & E & H). eexists. cbn. rewrite E. split; [done|].
    intros c s Hc. apply (Hz _ _ _ s (H c (g s) Hc)).
  - destruct law_utspace_free as (f & E & H). eexists. cbn. rewrite E. split; [done|].
    intros ty bits c s Hm Hn. apply (Hz _ _ _ s (H ty bits c (g s) Hm Hn)).
  - intros c s Hc. apply (Hz _ _ _ s (law_identify c (g s) Hc)).
  - intros r i d c s Hr. apply (Hz _ _ _ s (law_delete r i d c (g s) Hr)).
Defined.

End zoomed.

(** ** An allocator that keeps the contract

    Slots are handed out in order, one per allocation; untyped memory comes
    from a budget of bytes, which giving memory back does not refill.  A capability
    is deleted only by its full path, and memory given back only when no capability
    to the object is left: anything else is refused.  It shows that the laws can
    hold. *)
Module Bump.

Record bump := mk_bump { next : Z; budget : Z; books : account }.

Definition upd (f : account → account) : M bump unit :=
  modify (λ b, mk_bump (next b) (budget b) (f (books b))).

Definition fresh_above (n : Z) (a : account) : bool :=
  (0 <? n) && bool_decide (n ∉ slots a) && bool_decide (full a !! n = None) &&
  bool_decide (mem a !! n = None).
Definition unused (n : Z) (a : account) : bool :=
  bool_decide (mem a !! n = None) && bool_decide (map_Forall (λ _ k, k ≠ n) (full a)).

Definition alloc_slot : M bump (Z * Z) := λ b,
  if fresh_above (next b) (books b)
  then (Done (0, next b), mk_bump (next b + 1) (budget b) (take_slot (next b) (books b)))
  else (Done (-1, 0), b).

Definition alloc_ut (p : cspacepath_t) (ty bits : Z) (dev : bool) : M bump (Z * Z) := λ b,
  if (2 ^ bits <=? budget b) && unused (capPtr p) (books b)
  then (Done (0, capPtr p),
        mk_bump (next b) (budget b - 2 ^ bits) (fill_slot (capPtr p) (capPtr p) ty bits (books b)))
  else (Done (-1, 0), b).

Definition free_ut (ty bits cookie : Z) : M bump unit := λ b,
  if bool_decide (mem (books b) !! cookie = Some (ty, bits)) && bool_decide (map_Forall (λ _ k, k ≠ cookie) (full (books b)))
  then upd (drop_mem cookie) b
  else (Halted BadPointer, b).

Definition own_path (r i d : Z) : bool := (r =? 2) && (d =? 32).
Definition delete_cap (r i d : Z) : M bump Z :=
  if own_path r i d then upd (clear_slot i);; mret 0 else mret 6.

Definition bump_vka : vka_t bump := {|
  cspace_alloc := Some alloc_slot;
  cspace_make_path := Some (λ c, mret (mk_path c 32 2 0 0 c 1));
  utspace_alloc := None;
  utspace_alloc_maybe_device := Some alloc_ut;
  utspace_alloc_at := None;
  cspace_free := Some (λ c, upd (drop_slot c));
  utspace_free := Some free_ut;
  utspace_paddr := None
|}.

#[export] Instance bump_invocations : Invocations bump := {|
  seL4_DebugCapIdentify := λ c, gets (λ b, match full (books b) !! c with Some _ => 1 | None => 0 end);
  seL4_CNode_SaveCaller := λ _ _ _, mret 0;
  seL4_CNode_Copy := λ _ _ _ _ _ _ _, mret 0;
  seL4_CNode_Delete := delete_cap;
  seL4_CNode_Mint := λ _ _ _ _ _ _ _ _, mret 0;
  seL4_CNode_Move := λ _ _ _ _ _ _, mret 0;
  seL4_CNode_Mutate := λ _ _ _ _ _ _ _, mret 0;
  seL4_CNode_CancelBadgedSends := λ _ _ _, mret 0;
  seL4_CNode_Revoke := λ _ _ _, mret 0;
  seL4_CNode_Rotate := λ _ _ _ _ _ _ _ _ _ _ _, mret 0;
  seL4_Untyped_Retype := λ _ _ _ _ _ _ _ _, mret 0
|}.

#[export] Instance bump_laws : VkaLaws bump_vka.
Proof.
  refine {| acct := books; resolves := λ r i d c, own_path r i d = true ∧ i = c |}.
  - eexists. split; [done|]. intros w. unfold wp, alloc_slot, fresh_above.
    destruct (_ && _) eqn:E; [|done]. split; [|done]. intros _.
    apply andb_true_iff in E as [E _]. apply andb_true_iff in E as [E Hf].
    apply andb_true_iff in E as [Hn Hs].
    apply bool_decide_eq_true in Hs, Hf. apply Z.ltb_lt in Hn. split_and!; [lia|done..].
  - eexists. split; [done|]. done.
  - eexists. split; [done|]. intros p c ty bits dev w [_ <-] Hp. unfold wp, alloc_ut, unused.
    destruct (_ && _) eqn:E; [|done]. split; [|done]. intros _.
    apply andb_true_iff in E as [_ E]. apply andb_true_iff in E as [Hm Hn].
    apply bool_decide_eq_true in Hm, Hn. split_and!; [done| |done]. intros c Hc. by apply Hn in Hc.
  - eexists. split; [done|]. done.
  - eexists. split; [done|]. intros ty bits cookie w Hm Hn. unfold wp, free_ut.
    rewrite !bool_decide_eq_true_2; [done| |done]. intros c k Hc ->. by apply Hn in Hc.
  - intros c w _. unfold wp. simpl. split; [done|]. destruct (full (books w) !! c); by split.
  - intros r i d c w [Hr <-]. simpl. unfold delete_cap. rewrite Hr. done.
Defined.

Definition bump0 : bump := mk_bump 100 1048576 (mk_account ∅ ∅ ∅).

End Bump.

Import Bump.

(** The allocation succeeds, and freeing it too. *)
Lemma vka_alloc_free_roundtrip_witness :
  let run := '(e, o) ← vka_alloc_object (Some bump_vka) seL4_TCBObject seL4_TCBBits;
             when (e =? 0) (vka_free_object (Some bump_vka) o);; mret (e, o) in
  fst (run bump0) = Done (0, mk_object 100 100 seL4_TCBObject seL4_TCBBits) ∧
  wpe run (λ r w', books w' = books bump0 ∧ (r.1 ≠ 0 → r.2 = zero_object))
    (λ h w', h = Fatal ∧ delete_refused bump_vka ∧ ∃ o, type o = seL4_TCBObject ∧ size_bits o = seL4_TCBBits ∧
       fresh o (books bump0) ∧ books w' = claim o (books bump0)) bump0.
Proof.
  split; [vm_compute; reflexivity|].
  exact (vka_alloc_free_roundtrip bump_vka seL4_TCBObject seL4_TCBBits bump0).
Defined.
