(* ===== verification/Untypeds.v ===== *)
(** The driver's stock of untyped memory: [free_objects], [allocate_untypeds],
    [populate_untypeds] and [copy_untypeds_to_process] of [main.c].

    The code runs over a pair of the allocator state and the array of objects
    its pointer argument names; an access outside the array halts with
    [BadPointer].  [env.vka] is the table [v]. *)

From S2P Require Import Prelude Messages Vka.

Definition DRIVER_UNTYPED_MEMORY : Z := BIT 25.
Definition DRIVER_NUM_UNTYPEDS : Z := 16.
Definition CONFIG_MAX_NUM_BOOTINFO_UNTYPED_CAPS : Z := 167.
Definition seL4_WordBits : Z := 32.
Definition PAGE_BITS_4K : Z := 12.

(** [seL4_SlotRegion]. *)
Record seL4_SlotRegion := mk_region { r_start : Z; r_end : Z }.

Section untypeds.
Context {W : Type} `{!Invocations W} (v : vka_t W).

(** [array[i]], read and written. *)
Definition arr_get {A} (i : Z) : M (W * list A) A := λ s,
  if i <? 0 then (Halted BadPointer, s) else
  match s.2 !! Z.to_nat i with
  | Some o => (Done o, s)
  | None => (Halted BadPointer, s)
  end.

Definition arr_set {A} (i : Z) (o : A) : M (W * list A) unit := λ s,
  if (0 <=? i) && (i <? Z.of_nat (length s.2))
  then (Done tt, (s.1, <[Z.to_nat i := o]> s.2))
  else (Halted BadPointer, s).

(** Runs allocator code beside the array. *)
Definition on_vka {A B} (m : M W B) : M (W * list A) B :=
  zoom fst (λ w s, (w, s.2)) m.

(** [for (unsigned i = 0; i < num; i++) vka_free_object(&env.vka, &objects[i]);] *)
Definition free_objects (num : Z) : M (W * list vka_object_t) unit :=
  for_range 0 (Z.to_nat num) (λ i,
    o ← arr_get i;
    on_vka (vka_free_object (Some v) o)).

(** [vka_alloc_untyped(&env.vka, size_bits, &untypeds[i])]: the object is
    written through the pointer whether or not the allocation succeeds. *)
Definition alloc_untyped_into (i bits : Z) : M (W * list vka_object_t) Z :=
  '(error, o) ← on_vka (vka_alloc_untyped (Some v) bits);
  arr_set i o;;
  mret error.

(** The inner loop: allocate one size until a limit is reached or the allocator
    refuses.  It returns [num_untypeds] and [allocated]. *)
Fixpoint allocate_size (fuel : nat) (bits bytes max num allocated : Z)
    : M (W * list vka_object_t) (Z * Z) :=
  match fuel with
  | O => halt_with OutOfFuel
  | S fuel' =>
    if (num <? max) && (wrap32 (allocated + BIT bits) <=? bytes) then
      error ← alloc_untyped_into num bits;
      if error =? 0
      then allocate_size fuel' bits bytes max (wrap32 (num + 1)) (wrap32 (allocated + BIT bits))
      else mret (num, allocated)
    else mret (num, allocated)
  end.

(** The outer loop, [for (uint8_t size_bits = ...; size_bits > PAGE_BITS_4K; size_bits--)]. *)
Fixpoint allocate_sizes (fuel : nat) (bits bytes max num allocated : Z)
    : M (W * list vka_object_t) Z :=
  match fuel with
  | O => halt_with OutOfFuel
  | S fuel' =>
    if PAGE_BITS_4K <? bits then
      '(num, allocated) ← allocate_size (S (Z.to_nat max)) bits bytes max num allocated;
      allocate_sizes fuel' (bits - 1) bytes max num allocated
    else mret num
  end.

Definition allocate_untypeds (bytes max_untypeds : Z) : M (W * list vka_object_t) Z :=
  allocate_sizes 32 (seL4_WordBits - 1) bytes max_untypeds 0 0.

(** The statics [populate_untypeds] works on, and its result. *)
Record stock := mk_stock {
  world : W;
  untypeds : list vka_object_t;
  untyped_size_bits_list : list Z
}.

Definition on_untypeds {A} (m : M (W * list vka_object_t) A) : M stock A :=
  zoom (λ s, (world s, untypeds s)) (λ p s, mk_stock p.1 p.2 (untyped_size_bits_list s)) m.

(** A local array of indeterminate contents beside the world. *)
Definition with_local {A} (arr : list vka_object_t) (m : M (W * list vka_object_t) A)
    : M stock (A * list vka_object_t) := λ s,
  let '(r, (w, arr')) := m (world s, arr) in
  let s' := mk_stock w (untypeds s) (untyped_size_bits_list s) in
  match r with
  | Done a => (Done (a, arr'), s')
  | Halted h => (Halted h, s')
  end.

(** [untyped_size_bits_list[i] = untypeds[i].size_bits], narrowed to [uint8_t]. *)
Definition record_size (i : Z) : M stock unit := λ s,
  match untypeds s !! Z.to_nat i with
  | Some o =>
    if (0 <=? i) && (i <? Z.of_nat (length (untyped_size_bits_list s)))
    then (Done tt, mk_stock (world s) (untypeds s)
                     (<[Z.to_nat i := size_bits o mod 256]> (untyped_size_bits_list s)))
    else (Halted BadPointer, s)
  | None => (Halted BadPointer, s)
  end.

Definition populate_untypeds (reserve : list vka_object_t) : M stock Z :=
  '(reserve_num, reserve) ←
     with_local reserve (allocate_untypeds DRIVER_UNTYPED_MEMORY DRIVER_NUM_UNTYPEDS);
  num_untypeds ← on_untypeds (allocate_untypeds UINT_MAX CONFIG_MAX_NUM_BOOTINFO_UNTYPED_CAPS);
  for_range 0 (Z.to_nat num_untypeds) record_size;;
  with_local reserve (free_objects reserve_num);;
  ZF_LOGF_IF (num_untypeds =? 0);;
  mret num_untypeds.

(** [sel4utils_copy_cap_to_process] lives in libsel4utils: a parameter, which
    returns the slot of the copy in the process's CSpace. *)
Context (sel4utils_copy_cap_to_process : Z → M W Z).

Fixpoint copy_caps (i : Z) (objs : list vka_object_t) (range : seL4_SlotRegion)
    : M W seL4_SlotRegion :=
  match objs with
  | [] => mret range
  | o :: objs' =>
    slot ← sel4utils_copy_cap_to_process (cptr o);
    let range := if i =? 0 then mk_region slot (r_end range) else range in
    copy_caps (i + 1) objs' (mk_region (r_start range) slot)
  end.

(** The comparison in the assertion is between a word and an [int]: unsigned. *)
Definition copy_untypeds_to_process (objs : list vka_object_t) (num_untypeds : Z)
    : M W seL4_SlotRegion :=
  range ← copy_caps 0 (take (Z.to_nat num_untypeds) objs) (mk_region 0 0);
  assert (wrap32 (wrap32 (r_end range - r_start range) + 1) =? wrap32 num_untypeds);;
  mret range.

End untypeds.
Arguments stock : clear implicits.
Arguments mk_stock {W}.
Arguments world {W}.
Arguments untypeds {W}.
Arguments untyped_size_bits_list {W}.

(** ** What a list of objects claims of the allocator *)

Fixpoint claim_all (l : list vka_object_t) (a : account) : account :=
  match l with [] => a | o :: l' => claim_all l' (claim o a) end.

(** Each object of the list was fresh when it was claimed. *)
Fixpoint claimable (l : list vka_object_t) (a : account) : Prop :=
  match l with [] => True | o :: l' => fresh o a ∧ claimable l' (claim o a) end.

Lemma claim_all_app l1 l2 a : claim_all (l1 ++ l2) a = claim_all l2 (claim_all l1 a).
Proof. revert a. induction l1; simpl; auto. Qed.

Lemma claimable_app l1 l2 a :
  claimable (l1 ++ l2) a ↔ claimable l1 a ∧ claimable l2 (claim_all l1 a).
Proof. revert a. induction l1 as [|o l1 IH]; simpl; intros a; [tauto|]. rewrite IH. tauto. Qed.

Lemma release_claim_comm o o' a :
  cptr o ≠ cptr o' → ut o ≠ ut o' → release o (claim o' a) = claim o' (release o a).
Proof.
  intros Hc Hu. destruct a as [s f m].
  unfold release, claim, drop_mem, drop_slot, clear_slot, fill_slot, take_slot. simpl. f_equal.
  - set_solver.
  - by rewrite delete_insert_ne.
  - by rewrite delete_insert_ne.
Qed.

(** Later claims leave a live object alone, and it can be released below them. *)
Lemma claim_all_live o l a : live o a → claimable l a → live o (claim_all l a).
Proof.
  revert a. induction l as [|o' l IH]; intros a L; simpl; [done|]. intros [F Hl].
  apply IH; [by apply live_claim|done].
Qed.

Lemma release_claim_all o l a :
  live o a → claimable l a → release o (claim_all l a) = claim_all l (release o a).
Proof.
  revert a. induction l as [|o' l IH]; intros a L; simpl; [done|]. intros [F Hl].
  destruct (live_fresh o o' a L F) as [Hc Hu].
  by rewrite IH, release_claim_comm by (done || by apply live_claim).
Qed.

(** Freshness survives making the account smaller. *)
Definition sub_account (a b : account) : Prop :=
  slots a ⊆ slots b ∧ full a ⊆ full b ∧ ∀ k, mem b !! k = None → mem a !! k = None.

Lemma sub_account_claim o a b : sub_account a b → sub_account (claim o a) (claim o b).
Proof.
  intros (Hs & Hf & Hm). unfold claim, fill_slot, take_slot. split_and!; simpl; [set_solver|by apply insert_mono|].
  intros k. rewrite !lookup_insert. case_decide; auto.
Qed.

Lemma fresh_sub o a b : sub_account a b → fresh o b → fresh o a.
Proof.
  intros (Hs & Hf & Hm) (H0 & H1 & H2 & H3 & H4). split_and!; auto.
  - by eapply lookup_weaken_None.
  - intros c Hc. apply (H4 c). by eapply lookup_weaken.
Qed.

Lemma claimable_sub l a b : sub_account a b → claimable l b → claimable l a.
Proof.
  revert a b. induction l as [|o l IH]; intros a b Hab; simpl; [done|].
  intros [Hf Hl]. split; [by eapply fresh_sub|]. eapply IH; [|done]. by apply sub_account_claim.
Qed.

Lemma sub_account_fresh o a : fresh o a → sub_account a (claim o a).
Proof.
  intros (_ & _ & Hf & Hm & _). unfold claim, fill_slot, take_slot. split_and!; simpl; [set_solver|by apply insert_subseteq|].
  intros k. rewrite lookup_insert. case_decide; [done|]. done.
Qed.

(** The first of the claimed objects is live, and gives way to the others. *)
Lemma claimable_first o l a : claimable (o :: l) a →
  cptr o ≠ 0 ∧ live o (claim_all (o :: l) a) ∧ release o (claim_all (o :: l) a) = claim_all l a ∧ claimable l a.
Proof.
  intros [F Hl]. pose proof (claim_live o a F) as L. simpl. split_and!.
  - apply F.
  - by apply claim_all_live.
  - by rewrite release_claim_all, release_claim.
  - eapply claimable_sub; [by apply sub_account_fresh|done].
Qed.

(** The bytes a list of untyped objects stands for. *)
Definition total (l : list vka_object_t) : Z := foldr (λ o n, 2 ^ size_bits o + n) 0 l.

Lemma total_app l1 l2 : total (l1 ++ l2) = total l1 + total l2.
Proof. induction l1 as [|o l1 IH]; simpl; [done|]. rewrite IH. lia. Qed.

Lemma take_insert_snoc {A} (l : list A) i x :
  (i < length l)%nat → take (S i) (<[i := x]> l) = take i l ++ [x].
Proof.
  intros Hi. rewrite (take_S_r _ _ x).
  - by rewrite take_insert_ge by lia.
  - by apply list_lookup_insert_eq.
Qed.

Section stock_specs.
Context {W : Type} `{!Invocations W} (v : vka_t W) `{!VkaLaws v}.

Implicit Types (w : W) (s : W * list vka_object_t).

(** An untyped object of a size the driver asks for. *)
Definition driver_untyped (o : vka_object_t) : Prop :=
  type o = seL4_UntypedObject ∧ PAGE_BITS_4K < size_bits o < seL4_WordBits.

(** The loop invariant of [allocate_untypeds] begun in [w0]: the first [num]
    entries of the array are what has been taken from the allocator. *)
Record taken (w0 : W) (bytes max num allocated : Z) (s : W * list vka_object_t) : Prop := {
  tk_num : 0 ≤ num ≤ max;
  tk_room : max ≤ Z.of_nat (length s.2);
  tk_acct : acct s.1 = claim_all (take (Z.to_nat num) s.2) (acct w0);
  tk_fresh : claimable (take (Z.to_nat num) s.2) (acct w0);
  tk_kind : Forall driver_untyped (take (Z.to_nat num) s.2);
  tk_alloc : allocated = wrap32 (total (take (Z.to_nat num) s.2));
  tk_bytes : bytes < 2 ^ 31 → total (take (Z.to_nat num) s.2) ≤ bytes
}.

Lemma total_nonneg l : 0 ≤ total l.
Proof. induction l as [|o l IH]; simpl; [done|]. assert (0 ≤ 2 ^ size_bits o); [|lia]. apply Z.pow_nonneg. lia. Qed.

Lemma wp_arr_set {A} i (o : A) (s : W * list A) (Q : unit → W * list A → Prop) :
  0 ≤ i < Z.of_nat (length s.2) → Q tt (s.1, <[Z.to_nat i := o]> s.2) → wp (arr_set i o) Q s.
Proof.
  intros Hi HQ. unfold wp, arr_set. destruct (Z.leb_spec 0 i); [|lia].
  destruct (Z.ltb_spec i (Z.of_nat (length s.2))); [done|lia].
Qed.

Lemma alloc_untyped_into_spec w0 bytes max num allocated bits s :
  taken w0 bytes max num allocated s → max < word_mod →
  PAGE_BITS_4K < bits < seL4_WordBits → num < max → wrap32 (allocated + BIT bits) ≤ bytes →
  wp (alloc_untyped_into v num bits)
     (λ e s', length s'.2 = length s.2 ∧
        (e = 0 → taken w0 bytes max (wrap32 (num + 1)) (wrap32 (allocated + BIT bits)) s') ∧
        (e ≠ 0 → taken w0 bytes max num allocated s')) s.
Proof.
  intros [Hnum Hroom Hacct Hfresh Hkind Halloc Hbytes] Hmax Hbits Hlt Hle.
  unfold alloc_untyped_into. apply wp_bind, wp_zoom.
  eapply wp_mono; [apply (vka_alloc_object_spec v seL4_UntypedObject bits)|].
  intros [e o] w' [Hok Herr]. apply wp_bind, wp_arr_set; [simpl; lia|].
  apply wp_ret. simpl. rewrite length_insert. split; [done|].
  destruct s as [w arr]. simpl in *. set (n := Z.to_nat num) in *.
  split; intros He.
  - destruct (Hok He) as (Hty & Hsz & Hf & Ha).
    rewrite (wrap32_small (num + 1)) by (unfold is_word, word_mod in *; lia).
    assert (Htk : take (Z.to_nat (num + 1)) (<[n := o]> arr) = take n arr ++ [o]).
    { replace (Z.to_nat (num + 1)) with (S n) by (unfold n; lia). apply take_insert_snoc. unfold n. lia. }
    assert (Htot : total (take n arr ++ [o]) = total (take n arr) + 2 ^ bits)
      by (rewrite total_app; simpl; rewrite Hsz; lia).
    unfold PAGE_BITS_4K, seL4_WordBits in Hbits.
    pose proof (total_nonneg (take n arr)).
    constructor; simpl; rewrite ?length_insert; try lia; rewrite ?Htk.
    + by rewrite claim_all_app, <- Hacct.
    + apply claimable_app. split; [done|]. rewrite <- Hacct. simpl. done.
    + apply Forall_app. split; [done|]. constructor; [|constructor].
      split; [done|]. unfold PAGE_BITS_4K, seL4_WordBits. lia.
    + rewrite Htot, BIT_pow2 by lia. rewrite Halloc. unfold wrap32. apply Z.add_mod_idemp_l. done.
    + intros Hb. specialize (Hbytes Hb). rewrite Htot. rewrite BIT_pow2 in Hle by lia.
      assert (2 ^ bits ≤ 2 ^ 31) by (apply Z.pow_le_mono_r; lia).
      rewrite Halloc, (wrap32_small (total _)), wrap32_small in Hle; unfold is_word, word_mod in *; lia.
  - destruct (Herr He) as [-> Ha].
    constructor; simpl; rewrite ?length_insert; try done; rewrite ?take_insert_ge by lia; try done.
    by rewrite Ha.
Qed.

Lemma allocate_size_spec fuel w0 bytes max num allocated bits s :
  taken w0 bytes max num allocated s → max < word_mod →
  PAGE_BITS_4K < bits < seL4_WordBits → max - num < Z.of_nat fuel →
  wp (allocate_size v fuel bits bytes max num allocated)
     (λ r s', length s'.2 = length s.2 ∧ taken w0 bytes max r.1 r.2 s') s.
Proof.
  revert num allocated s. induction fuel as [|fuel IH]; intros num allocated s Ht Hmax Hbits Hf.
  { destruct Ht as [Hnum]. lia. }
  simpl. destruct (Z.ltb_spec num max); [|by apply wp_ret].
  destruct (Z.leb_spec (wrap32 (allocated + BIT bits)) bytes); [|by apply wp_ret]. simpl.
  apply wp_bind. eapply wp_mono; [by apply (alloc_untyped_into_spec w0 bytes max)|].
  intros e s' (Hlen & Hok & Herr). destruct (Z.eqb_spec e 0) as [He|He].
  - eapply wp_mono.
    + apply IH; [by apply Hok|done|done|].
      pose proof (tk_num _ _ _ _ _ _ Ht). rewrite wrap32_small by (unfold is_word, word_mod in *; lia). lia.
    + intros r s2 [Hl2 Ht2]. by rewrite Hl2.
  - apply wp_ret. auto.
Qed.

Lemma allocate_sizes_spec fuel w0 bytes max num allocated bits s :
  taken w0 bytes max num allocated s → max < word_mod →
  bits < seL4_WordBits → bits - PAGE_BITS_4K < Z.of_nat fuel → (0 < fuel)%nat →
  wp (allocate_sizes v fuel bits bytes max num allocated)
     (λ n s', length s'.2 = length s.2 ∧ ∃ a, taken w0 bytes max n a s') s.
Proof.
  revert bits num allocated s. induction fuel as [|fuel IH]; intros bits num allocated s Ht Hmax Hbits Hf H0; [lia|].
  cbn [allocate_sizes]. destruct (Z.ltb_spec PAGE_BITS_4K bits); [|apply wp_ret; eauto].
  apply wp_bind. eapply wp_mono.
  { apply (allocate_size_spec _ w0 bytes max); [done..|].
    pose proof (tk_num _ _ _ _ _ _ Ht). lia. }
  intros [n a] s' [Hlen Ht']. simpl in *. eapply wp_mono.
  - apply (IH (bits - 1) n a); [done|done|lia|lia|]. destruct fuel; lia.
  - intros n' s2 [Hl2 Ht2]. by rewrite Hl2.
Qed.

Lemma allocate_untypeds_taken bytes max s :
  0 ≤ bytes → 0 ≤ max ≤ Z.of_nat (length s.2) → max < word_mod →
  wp (allocate_untypeds v bytes max)
     (λ n s', length s'.2 = length s.2 ∧ ∃ a, taken s.1 bytes max n a s') s.
Proof.
  intros Hb Hm Hw. apply (allocate_sizes_spec _ s.1 bytes max); [|done|done|done|lia].
  constructor; simpl; try done; lia.
Qed.

Lemma wp_arr_get {A} i (o : A) (s : W * list A) (Q : A → W * list A → Prop) :
  0 ≤ i → s.2 !! Z.to_nat i = Some o → Q o s → wp (arr_get i) Q s.
Proof. intros Hi Ho HQ. unfold wp, arr_get. destruct (Z.ltb_spec i 0); [lia|]. by rewrite Ho. Qed.

(** What is left when some object could not be freed: it and those behind it. *)
Definition free_stuck (objs others : list vka_object_t) (a a' : account) : Prop :=
  ∃ kept, kept ≠ [] ∧ kept `suffix_of` objs ∧ claimable (kept ++ others) a ∧ a' = claim_all (kept ++ others) a.

(** Freeing objects that were claimed below others leaves the others. *)
Lemma free_objects_spec n s others a :
  let objs := take (Z.to_nat n) s.2 in
  0 ≤ n ≤ Z.of_nat (length s.2) → claimable (objs ++ others) a → acct s.1 = claim_all (objs ++ others) a →
  wpe (free_objects v n)
     (λ _ s', s'.2 = s.2 ∧ acct s'.1 = claim_all others a ∧ claimable others a)
     (λ h s', h = Fatal ∧ delete_refused v ∧ free_stuck objs others a (acct s'.1)) s.
Proof.
  intros objs Hn Hcl Ha. assert (Hlen : length objs = Z.to_nat n) by (unfold objs; rewrite length_take; lia).
  unfold free_objects. eapply (wpe_mono _ _ _ (λ h s', h = Fatal ∧ delete_refused v ∧ free_stuck objs others a (acct s'.1))).
  - apply (wpe_for_range (λ i s', s'.2 = s.2 ∧ claimable (drop (Z.to_nat i) objs ++ others) a ∧
             acct s'.1 = claim_all (drop (Z.to_nat i) objs ++ others) a)); [by split_and!|].
    intros i s' Hi (Harr & Hc & Hacct). rewrite Z2Nat.id in Hi by lia.
    destruct (lookup_lt_is_Some_2 objs (Z.to_nat i)) as [o Ho]; [lia|].
    rewrite (drop_S _ _ _ Ho) in Hc, Hacct. cbn [app] in Hc, Hacct.
    replace (Z.to_nat (i + 1)) with (S (Z.to_nat i)) by lia.
    destruct (claimable_first _ _ _ Hc) as (H0 & L & Hrel & Hc').
    apply wpe_bind, wpe_wp, (wp_arr_get i o); [lia|rewrite Harr; by apply lookup_take_Some in Ho as [? _]|].
    apply wpe_zoom. eapply wpe_mono; [apply (vka_free_object_spec v); [done|rewrite Hacct; exact L]|..]; simpl.
    + intros [] w' Hw. by rewrite Hw, Hacct, Hrel.
    + intros h w' (-> & Hr & Hw). split; [done|]. split; [done|]. exists (o :: drop (S (Z.to_nat i)) objs).
      split_and!; [done| |done|by rewrite Hw, Hacct]. rewrite <- (drop_S _ _ _ Ho). apply suffix_drop.
  - intros [] s' (Harr & Hc & Hacct). rewrite Z.add_0_l, Nat2Z.id, drop_ge in Hc, Hacct by lia. done.
  - done.
Qed.

(** [allocate_untypeds] over any allocator that keeps its contract, into an
    array with room for [max] objects, terminates without touching memory
    outside the array and returns [n <= max] such that the first [n] entries
    are untyped objects of 2^13 to 2^31 bytes, all distinct and newly taken,
    the allocator having given out exactly these; and when the byte limit is
    below 2^31 their total size is within it. *)
Theorem allocate_untypeds_correct bytes max s :
  0 ≤ bytes → 0 ≤ max ≤ Z.of_nat (length s.2) → max < word_mod →
  wp (allocate_untypeds v bytes max)
     (λ n s', 0 ≤ n ≤ max ∧ length s'.2 = length s.2 ∧
        let objs := take (Z.to_nat n) s'.2 in
        Forall driver_untyped objs ∧ claimable objs (acct s.1) ∧
        acct s'.1 = claim_all objs (acct s.1) ∧
        (bytes < 2 ^ 31 → total objs ≤ bytes)) s.
Proof.
  intros Hb Hm Hw. eapply wp_mono; [by apply allocate_untypeds_taken|].
  intros n s' (Hlen & a & [Hn _ Ha Hf Hk _ Ht]). done.
Qed.

Lemma record_size_spec i o (st : stock W) (Q : unit → stock W → Prop) :
  0 ≤ i < Z.of_nat (length (untyped_size_bits_list st)) →
  untypeds st !! Z.to_nat i = Some o →
  Q tt (mk_stock (world st) (untypeds st)
          (<[Z.to_nat i := size_bits o mod 256]> (untyped_size_bits_list st))) →
  wp (record_size i) Q st.
Proof.
  intros Hi Ho HQ. unfold wp, record_size. rewrite Ho.
  destruct (Z.leb_spec 0 i); [|lia].
  destruct (Z.ltb_spec i (Z.of_nat (length (untyped_size_bits_list st)))); [done|lia].
Qed.

(** Recording the sizes of the first [n] objects. *)
Lemma record_sizes_spec n (st : stock W) :
  0 ≤ n ≤ Z.of_nat (length (untyped_size_bits_list st)) → n ≤ Z.of_nat (length (untypeds st)) →
  Forall driver_untyped (take (Z.to_nat n) (untypeds st)) →
  wp (for_range 0 (Z.to_nat n) record_size)
     (λ _ st', world st' = world st ∧ untypeds st' = untypeds st ∧
        length (untyped_size_bits_list st') = length (untyped_size_bits_list st) ∧
        take (Z.to_nat n) (untyped_size_bits_list st')
        = size_bits <$> take (Z.to_nat n) (untypeds st)) st.
Proof.
  intros Hn Hu Hk. eapply wp_mono.
  - apply (wp_for_range (λ i st', world st' = world st ∧ untypeds st' = untypeds st ∧
        length (untyped_size_bits_list st') = length (untyped_size_bits_list st) ∧
        take (Z.to_nat i) (untyped_size_bits_list st')
        = size_bits <$> take (Z.to_nat i) (untypeds st))); [done|].
    intros i st' Hi (Hw & Hun & Hl & Ht). rewrite Z2Nat.id in Hi by lia.
    destruct (lookup_lt_is_Some_2 (untypeds st) (Z.to_nat i)) as [o Ho]; [lia|].
    apply (record_size_spec i o); [lia|by rewrite Hun|]. simpl. rewrite length_insert.
    split_and!; try done.
    replace (Z.to_nat (i + 1)) with (S (Z.to_nat i)) by lia.
    rewrite take_insert_snoc by lia. rewrite (take_S_r _ _ o) by done.
    rewrite fmap_app, Ht. simpl. f_equal. f_equal. apply Z.mod_small.
    rewrite Forall_forall in Hk. destruct (Hk o) as [_ Hs].
    { rewrite list_elem_of_lookup. exists (Z.to_nat i). rewrite lookup_take_lt by lia. done. }
    unfold PAGE_BITS_4K, seL4_WordBits in Hs. lia.
  - intros [] st' H. rewrite Z.add_0_l, Z2Nat.id in H by lia. done.
Qed.

Lemma wp_with_local {A} arr (m : M (W * list vka_object_t) A) Q (st : stock W) :
  wp m (λ a s', Q (a, s'.2) (mk_stock s'.1 (untypeds st) (untyped_size_bits_list st))) (world st, arr) →
  wp (with_local arr m) Q st.
Proof. unfold wp, with_local. by destruct (m (world st, arr)) as [[a|h] [w' arr']]. Qed.

Lemma wpe_with_local {A} arr (m : M (W * list vka_object_t) A) Q E (st : stock W) :
  wpe m (λ a s', Q (a, s'.2) (mk_stock s'.1 (untypeds st) (untyped_size_bits_list st)))
    (λ h s', E h (mk_stock s'.1 (untypeds st) (untyped_size_bits_list st))) (world st, arr) →
  wpe (with_local arr m) Q E st.
Proof. unfold wpe, with_local. by destruct (m (world st, arr)) as [[a|h] [w' arr']]. Qed.

(** The arrays of the driver have the sizes [main.c] declares. *)
Definition arrays_ok (reserve : list vka_object_t) (st : stock W) : Prop :=
  Z.of_nat (length reserve) = DRIVER_NUM_UNTYPEDS ∧
  Z.of_nat (length (untypeds st)) = CONFIG_MAX_NUM_BOOTINFO_UNTYPED_CAPS ∧
  Z.of_nat (length (untyped_size_bits_list st)) = CONFIG_MAX_NUM_BOOTINFO_UNTYPED_CAPS.

(** What [populate_untypeds] has achieved when it comes to its last check. *)
Definition populated (st : stock W) (n : Z) (st' : stock W) : Prop :=
  0 ≤ n ≤ CONFIG_MAX_NUM_BOOTINFO_UNTYPED_CAPS ∧
  length (untypeds st') = length (untypeds st) ∧
  let objs := take (Z.to_nat n) (untypeds st') in
  Forall driver_untyped objs ∧ claimable objs (acct (world st)) ∧
  acct (world st') = claim_all objs (acct (world st)) ∧
  take (Z.to_nat n) (untyped_size_bits_list st') = size_bits <$> objs.

(** How it can end before: an object of the reserve could not be freed, and it,
    those behind it and the stock are still allocated. *)
Definition reserve_stuck (st st' : stock W) : Prop :=
  ∃ reserve objs, delete_refused v ∧ free_stuck reserve objs (acct (world st)) (acct (world st')).

Lemma populate_before_check reserve st :
  arrays_ok reserve st →
  wpe ('(reserve_num, reserve) ←
         with_local reserve (allocate_untypeds v DRIVER_UNTYPED_MEMORY DRIVER_NUM_UNTYPEDS);
       num_untypeds ← on_untypeds (allocate_untypeds v UINT_MAX CONFIG_MAX_NUM_BOOTINFO_UNTYPED_CAPS);
       for_range 0 (Z.to_nat num_untypeds) record_size;;
       with_local reserve (free_objects v reserve_num);; mret num_untypeds)
     (populated st) (λ h st', h = Fatal ∧ reserve_stuck st st') st.
Proof.
  intros (Hr & Hu & Hz). apply wpe_bind, wpe_wp, wp_with_local. eapply wp_mono.
  { apply allocate_untypeds_taken; simpl; [by vm_compute|rewrite Hr; by vm_compute|done]. }
  intros rn s1 (Hlen1 & a1 & [Hn1 Hroom1 Ha1 Hf1 Hk1 _ _]). simpl in *.
  apply wpe_bind, wpe_wp, wp_zoom. eapply wp_mono.
  { apply allocate_untypeds_taken; simpl; [by vm_compute|rewrite Hu; by vm_compute|done]. }
  intros n s2 (Hlen2 & a2 & [Hn2 Hroom2 Ha2 Hf2 Hk2 _ _]). simpl in *.
  apply wpe_bind, wpe_wp. eapply wp_mono.
  { apply record_sizes_spec; simpl; [lia|lia|done]. }
  intros [] st3 (Hw3 & Hu3 & Hl3 & Ht3). simpl in *. apply wpe_bind, wpe_with_local.
  set (objs := take (Z.to_nat n) s2.2) in *. set (a := acct (world st)) in *. eapply wpe_mono.
  { apply (free_objects_spec rn (world st3, s1.2) objs a); simpl; [lia| |].
    - apply claimable_app. split; [done|]. by rewrite <- Ha1.
    - by rewrite Hw3, claim_all_app, <- Ha1. }
  - intros [] s4 (_ & Ha4 & Hc4). apply wpe_ret. simpl in *. split; [done|]. simpl. rewrite Hu3. by split_and!.
  - intros h s4 (-> & Hrf & Hst). split; [done|]. by exists (take (Z.to_nat rn) s1.2), objs.
Qed.

Lemma populate_untypeds_run reserve st :
  arrays_ok reserve st →
  match populate_untypeds v reserve st with
  | (Done n, st') => populated st n st' ∧ 0 < n
  | (Halted h, st') => h = Fatal ∧ (acct (world st') = acct (world st) ∨ reserve_stuck st st')
  end.
Proof.
  intros Hok. pose proof (populate_before_check reserve st Hok) as H.
  set (m := '(reserve_num, reserve) ← _; _) in H.
  assert (E : populate_untypeds v reserve st = (m ≫= λ n, ZF_LOGF_IF (n =? 0);; mret n) st).
  { unfold m, populate_untypeds, mbind, M_bind, mret, M_ret. repeat case_match; by simplify_eq. }
  rewrite E. unfold wpe in H. unfold mbind at 1, M_bind at 1. destruct (m st) as [[n|h] st']; [|naive_solver].
  unfold ZF_LOGF_IF, mbind, M_bind. destruct (Z.eqb_spec n 0) as [->|Hn]; cbn.
  - destruct H as (_ & _ & _ & _ & Ha & _). auto.
  - split; [done|]. destruct H as [H0 _]. lia.
Qed.

(** C34: [populate_untypeds] first takes a reserve for the driver, then all it can
    for the tests, records the sizes and gives the reserve back: it returns the
    number of objects taken, which are new and distinct, the allocator is out
    exactly these objects (the reserve has left no trace), and the size list holds
    their sizes.  If there are none it ends in the fatal error, nothing being
    allocated.  If the kernel refuses to delete a capability of the reserve it ends
    in the fatal error too, with that object still allocated. *)
Theorem populate_untypeds_correct reserve st :
  arrays_ok reserve st →
  match populate_untypeds v reserve st with
  | (Done n, st') => populated st n st' ∧ 0 < n
  | (Halted h, st') => h = Fatal ∧ (acct (world st') = acct (world st) ∨ reserve_stuck st st')
  end.
Proof. apply populate_untypeds_run. Qed.

End stock_specs.

Import Bump.

Definition demo_array : bump * list vka_object_t := (bump0, replicate 4 zero_object).

Lemma allocate_untypeds_correct_witness :
  wp (allocate_untypeds bump_vka 65536 4)
     (λ n s', 0 ≤ n ≤ 4 ∧ length s'.2 = length demo_array.2 ∧
        let objs := take (Z.to_nat n) s'.2 in
        Forall driver_untyped objs ∧ claimable objs (acct demo_array.1) ∧
        acct s'.1 = claim_all objs (acct demo_array.1) ∧
        (65536 < 2 ^ 31 → total objs ≤ 65536)) demo_array.
Proof.
  apply (allocate_untypeds_correct bump_vka 65536 4 demo_array).
  - lia.
  - simpl. lia.
  - reflexivity.
Defined.

(** With 65 MiB, 32 MiB go to the reserve and come back; the tests get an object
    of 32 MiB and one of 1 MiB. *)
Definition demo_stock : stock bump :=
  mk_stock (mk_bump 100 (2 ^ 26 + 2 ^ 20) (mk_account ∅ ∅ ∅)) (replicate 167 zero_object) (replicate 167 0).

Lemma populate_untypeds_correct_witness :
  fst (populate_untypeds bump_vka (replicate 16 zero_object) demo_stock) = Done 2 ∧
  match populate_untypeds bump_vka (replicate 16 zero_object) demo_stock with
  | (Done n, st') => populated bump_vka demo_stock n st' ∧ 0 < n
  | (Halted h, st') => h = Fatal ∧
      (acct (world st') = acct (world demo_stock) ∨ reserve_stuck bump_vka demo_stock st')
  end.
Proof.
  split; [vm_compute; reflexivity|].
  apply (populate_untypeds_correct bump_vka (replicate 16 zero_object) demo_stock).
  split; [reflexivity|]. split; reflexivity.
Defined.

(** The byte limit of [allocate_untypeds] is computed in 32 bits: with a
    limit of 2^31 bytes and an allocator that has 16 GiB to give, the sum
    [allocated + BIT(size_bits)] wraps and the loop takes 8 GiB. *)
Theorem allocate_untypeds_limit_wraps :
  let s := (mk_bump 100 (2 ^ 34) (mk_account ∅ ∅ ∅), replicate 4 zero_object) in
  match allocate_untypeds bump_vka (2 ^ 31) 4 s with
  | (Done n, s') => n = 4 ∧ total (take 4 s'.2) = 2 ^ 33
  | _ => False
  end.
Proof. vm_compute. split; reflexivity. Qed.

Section copy_specs.
Context {W : Type} (copy_cap : Z → M W Z) (next_slot : W → Z).

(** [sel4utils_copy_cap_to_process] returns the next free slot of the process's
    CSpace, which it fills in order. *)
Definition copies_in_order : Prop := ∀ c w,
  wp (copy_cap c) (λ slot w', slot = next_slot w ∧ next_slot w' = next_slot w + 1) w.

Lemma copy_caps_spec i objs range w :
  copies_in_order → 0 ≤ i →
  wp (copy_caps copy_cap i objs range)
     (λ r w', next_slot w' = next_slot w + Z.of_nat (length objs) ∧
        r = match objs with
            | [] => range
            | _ => mk_region (if i =? 0 then next_slot w else r_start range)
                             (next_slot w + Z.of_nat (length objs) - 1)
            end) w.
Proof.
  intros Hlaw. revert i range w. induction objs as [|o objs IH]; intros i range w Hi; simpl.
  - apply wp_ret. split; [lia|done].
  - apply wp_bind. eapply wp_mono; [apply Hlaw|]. intros slot w1 [-> Hn1].
    eapply wp_mono; [apply IH; lia|]. intros r w2 [Hn2 ->]. rewrite Hn2, Hn1.
    split; [lia|]. destruct objs as [|o' objs].
    + destruct (i =? 0); simpl; f_equal; lia.
    + destruct (Z.eqb_spec (i + 1) 0); [lia|].
      destruct (Z.eqb_spec i 0); simpl; f_equal; lia.
Qed.

(** when the copies land in consecutive slots, the assertion of
    [copy_untypeds_to_process] holds for any positive number of objects, and
    the region returned is exactly the slots they occupy. *)
Theorem copy_untypeds_region objs n w :
  copies_in_order → 0 < n ≤ Z.of_nat (length objs) → 0 ≤ next_slot w →
  next_slot w + n ≤ INT_MAX →
  wp (copy_untypeds_to_process copy_cap objs n)
     (λ r w', r = mk_region (next_slot w) (next_slot w + n - 1) ∧
              next_slot w' = next_slot w + n) w.
Proof.
  intros Hlaw Hn H0 Hb. unfold copy_untypeds_to_process. apply wp_bind.
  eapply wp_mono; [apply copy_caps_spec; done|]. intros r w' [Hw' Hr].
  rewrite length_take, Nat.min_l, Z2Nat.id in Hw', Hr by lia.
  destruct (take (Z.to_nat n) objs) as [|o l] eqn:E.
  { apply (f_equal length) in E. rewrite length_take in E. simpl in E. lia. }
  simpl in Hr. subst r. unfold INT_MAX in Hb. apply wp_bind, wp_assert.
  - simpl. replace (next_slot w + n - 1 - next_slot w) with (n - 1) by lia.
    assert (Hw : ∀ x, 0 ≤ x ≤ INT_MAX → wrap32 x = x)
      by (intros x Hx; apply wrap32_small; unfold is_word, word_mod, INT_MAX in *; lia).
    unfold INT_MAX in Hw. rewrite (Hw (n - 1)), !Hw by lia. apply Z.eqb_eq. lia.
  - apply wp_ret. done.
Qed.

(** called with no untyped objects, [copy_untypeds_to_process] fails its own
    assertion: the empty region it computes counts as one slot. *)
Theorem copy_no_untypeds_asserts objs w :
  (copy_untypeds_to_process copy_cap objs 0 w).1 = Halted AssertFailed.
Proof. reflexivity. Qed.

End copy_specs.

Lemma copy_untypeds_region_witness :
  wp (copy_untypeds_to_process (λ c n, (Done n, n + 1)) [zero_object; zero_object] 2)
     (λ r w', r = mk_region 10 11 ∧ w' = 12) 10.
Proof.
  apply (copy_untypeds_region (λ c n, (Done n, n + 1)) id [zero_object; zero_object] 2 10).
  - intros c w. split; reflexivity.
  - simpl. lia.
  - unfold id. lia.
  - unfold id, INT_MAX. lia.
Defined.
