(* ===== verification/Server.v ===== *)
(** The server of the driver: [process_message_multicast], the four
    [process_message] variants the preprocessor selects, the two
    [server_loop]s and [thread_creation] of [main.c].

    The green-thread library ([lib_test.h]: clients, locks, sleep lists, the
    thread pool), libsel4sync's objects and the kernel are outside this file:
    each call to them is a constructor of [call], and [Env] gives it a meaning,
    a computation over the whole server state, because a call that blocks lets
    other threads run.  So is a read through a pointer to a local variable of a
    function that has returned, which C leaves undefined: [Dead_frame_read temp]
    gives any value at all, [temp] being what the variable held.  Every call made is recorded, in order, in a log; the
    theorems of this file are about the log and the state and hold for every
    environment.  [printf] has no effect on the state and timing reads
    ([rdtsc]) only feed it, so the [BENCHMARK_BREAKDOWN*] code is left out;
    [BENCHMARK_ENTIRE], which writes [started], is a flag. *)

From S2P Require Import Prelude Messages Vka.
Import MessageInfo.

(** ** Calls *)

Inductive call : Type → Type :=
| Initial_client : call Z
| Client_barrier : call bool
| Allocman_cspace_alloc : call (Z * cspacepath_t)
| SaveCaller (src : cspacepath_t) : call Z
| Send (dest info : Z) (msg : list Z) : call unit
| Recv (src : Z) : call Z
| ReplyRecv (src info : Z) : call Z
| Reply (info : Z) : call unit
| Thread_lock_acquire (lock : Z) : call unit
| Thread_lock_release (lock : Z) : call unit
| Thread_lock_release_acquire (lock : Z) : call unit
| Thread_sleep (queue : Z) : call unit
| Thread_wakeup (queue : Z) : call unit
| Thread_semaphore_P (sem : Z) : call unit
| Thread_semaphore_V (sem : Z) : call unit
| Thread_cv_wait (cv lock : Z) : call unit
| Thread_cv_signal (cv : Z) : call unit
| Thread_exit : call unit
| Thread_create (arg : Z) : call Z
| Sync_mutex_lock (m : Z) : call Z
| Sync_mutex_unlock (m : Z) : call Z
| Sync_sem_wait (s : Z) : call Z
| Sync_sem_post (s : Z) : call Z
| Sync_cv_wait (lock cv : Z) : call Z
| Sync_cv_signal (cv : Z) : call Z
| Wait (ntfn : Z) : call Z
| Signal (ntfn : Z) : call unit
| Rdtsc_start : call unit
| Rdtsc_end : call unit
| Dead_frame_read (temp : Z) : call Z.

(** An entry of the log. *)
Inductive event : Type :=
| Ev {A : Type} (c : call A).

(** The globals of the server: those [main.c] declares and those of [lib_test.h]
    it reads or writes directly.  [slot] is [pool->t_running->t->slot]. *)
Record srv (W : Type) := mk_srv {
  ext : W;
  client_num : Z;
  client_count : Z;
  buffer : Z;
  buffer_limit : Z;
  terminate_num : Z;
  wait_count : Z;
  started : bool;
  reply_eps : list Z;
  global_reply_ep : Z;
  slot : cspacepath_t;
  mrs : gmap Z Z
}.
Arguments mk_srv {W}.
Arguments ext {W}.
Arguments client_num {W}.
Arguments client_count {W}.
Arguments buffer {W}.
Arguments buffer_limit {W}.
Arguments terminate_num {W}.
Arguments wait_count {W}.
Arguments started {W}.
Arguments reply_eps {W}.
Arguments global_reply_ep {W}.
Arguments slot {W}.
Arguments mrs {W}.

Section setters.
Context {W : Type}.
Implicit Types s : srv W.

Definition set_buffer (f : Z → Z) s : srv W :=
  mk_srv (ext s) (client_num s) (client_count s) (f (buffer s)) (buffer_limit s)
    (terminate_num s) (wait_count s) (started s) (reply_eps s) (global_reply_ep s) (slot s) (mrs s).
Definition set_terminate_num (f : Z → Z) s : srv W :=
  mk_srv (ext s) (client_num s) (client_count s) (buffer s) (buffer_limit s)
    (f (terminate_num s)) (wait_count s) (started s) (reply_eps s) (global_reply_ep s) (slot s) (mrs s).
Definition set_wait_count (f : Z → Z) s : srv W :=
  mk_srv (ext s) (client_num s) (client_count s) (buffer s) (buffer_limit s)
    (terminate_num s) (f (wait_count s)) (started s) (reply_eps s) (global_reply_ep s) (slot s) (mrs s).
Definition set_started s : srv W :=
  mk_srv (ext s) (client_num s) (client_count s) (buffer s) (buffer_limit s)
    (terminate_num s) (wait_count s) true (reply_eps s) (global_reply_ep s) (slot s) (mrs s).
Definition set_reply_eps (f : list Z → list Z) s : srv W :=
  mk_srv (ext s) (client_num s) (client_count s) (buffer s) (buffer_limit s)
    (terminate_num s) (wait_count s) (started s) (f (reply_eps s)) (global_reply_ep s) (slot s) (mrs s).
Definition set_global_reply_ep (e : Z) s : srv W :=
  mk_srv (ext s) (client_num s) (client_count s) (buffer s) (buffer_limit s)
    (terminate_num s) (wait_count s) (started s) (reply_eps s) e (slot s) (mrs s).
Definition set_slot (p : cspacepath_t) s : srv W :=
  mk_srv (ext s) (client_num s) (client_count s) (buffer s) (buffer_limit s)
    (terminate_num s) (wait_count s) (started s) (reply_eps s) (global_reply_ep s) p (mrs s).
Definition set_mr (i v : Z) s : srv W :=
  mk_srv (ext s) (client_num s) (client_count s) (buffer s) (buffer_limit s)
    (terminate_num s) (wait_count s) (started s) (reply_eps s) (global_reply_ep s) (slot s)
    (<[i := v]> (mrs s)).
End setters.

(** What the calls mean. *)
Class Env (W : Type) := handle : ∀ A, call A → M (srv W) A.
Arguments handle {W _ A}.

(** The labels of [lib_test.h]'s requests, and the shared objects. *)
Class Protocol := {
  INIT : Z; WAIT : Z; SEND_WAIT : Z; TMNT : Z; IMMD : Z; PRODUCER : Z; CONSUMER : Z;
  lock_global : Z; lock_universe : Z; producer_list : Z; consumer_list : Z;
  endpoint_cptr : Z
}.

(** The labels are the cases of one [switch]: distinct; and they fit a tag. *)
Class ProtocolOk `{!Protocol} : Prop := {
  labels_distinct : NoDup [INIT; WAIT; SEND_WAIT; TMNT; IMMD; PRODUCER; CONSUMER];
  labels_fit : Forall (λ l, 0 ≤ l < 2 ^ 20) [INIT; WAIT; SEND_WAIT; TMNT; IMMD; PRODUCER; CONSUMER]
}.

(** The preprocessor symbols that select code. *)
Record config := mk_config {
  BENCHMARK_ENTIRE : bool;
  THREAD_LOCK : bool; THREAD_SEMAPHORE : bool; THREAD_CV : bool;
  SEL4_GREEN : bool; SEL4_SLOW : bool; SEL4_FAST : bool
}.

Section server.
Context {W : Type} `{!Env W} `{!Protocol} (cfg : config).

(** Server code runs over the globals and the log. *)
Definition P (A : Type) : Type := M (srv W * list event) A.

Definition do {A} (c : call A) : P A := λ s,
  let '(r, g) := handle c s.1 in (r, (g, s.2 ++ [Ev c])).
Definition rd {A} (f : srv W → A) : P A := gets (λ s, f s.1).
Definition wr (f : srv W → srv W) : P unit := modify (λ s, (f s.1, s.2)).

Definition seL4_SetMR (i v : Z) : P unit := wr (set_mr i v).
Definition seL4_GetMR (i : Z) : P Z := rd (λ s, default 0 (mrs s !! i)).

(** [seL4_Send] transfers as many message registers as the tag says. *)
Definition seL4_Send (dst info : Z) : P unit :=
  m ← rd mrs;
  do (Send dst info
        ((λ i, default 0 (m !! i)) <$> seqZ 0 (seL4_MessageInfo_get_length info))).

(** [thread_exit] does not return. *)
Definition thread_exit : P unit := do Thread_exit;; halt_with Exited.

(** [reply_eps[i]] *)
Definition reply_ep (i : Z) : P Z := λ s,
  if i <? 0 then (Halted BadPointer, s) else
  match reply_eps s.1 !! Z.to_nat i with
  | Some e => (Done e, s)
  | None => (Halted BadPointer, s)
  end.
Definition set_reply_ep (i e : Z) : P unit := λ s,
  if (0 <=? i) && (i <? Z.of_nat (length (reply_eps s.1)))
  then (Done tt, (set_reply_eps (<[Z.to_nat i := e]>) s.1, s.2))
  else (Halted BadPointer, s).

(** [for (i = 1; i < client_num; i++)]: [client_num] is read again on every
    round, and a round past the end of [reply_eps] halts, so a fuel of the
    length of that array is enough. *)
Fixpoint multicast_from (fuel : nat) (i : Z) : P unit :=
  match fuel with
  | O => halt_with OutOfFuel
  | S fuel' =>
    n ← rd client_num;
    if i <? n then
      seL4_SetMR 0 i;;
      seL4_SetMR 1 0;;
      reply ← lift (seL4_MessageInfo_new INIT 0 0 2);
      ep ← reply_ep i;
      seL4_Send ep reply;;
      multicast_from fuel' (i + 1)
    else mret tt
  end.

Definition process_message_multicast : P unit :=
  fuel ← rd (λ s, length (reply_eps s));
  multicast_from (S fuel) 1.

(** The message to client 0 once every client has arrived. *)
Definition send_first_client : P unit :=
  seL4_SetMR 0 0;;
  seL4_SetMR 1 1;;
  reply ← lift (seL4_MessageInfo_new INIT 0 0 2);
  ep ← reply_ep 0;
  seL4_Send ep reply.

Definition benchmark_begin : P unit :=
  b ← rd started;
  when (BENCHMARK_ENTIRE cfg && negb b) (do Rdtsc_start;; wr set_started).

(** [process_message] returns its result and, when it assigned [*reply], the
    value of the local variable [temp] whose address it stored there. *)
Definition result : Type := Z * option Z.

(** ** Green threads, producers and consumers *)
Definition green_cp_init_case : P result :=
  client_id ← do Initial_client;
  '(error, s) ← do Allocman_cspace_alloc;
  wr (set_slot s);;
  assert (error =? 0);;
  s ← rd slot;
  do (SaveCaller s);;
  s ← rd slot;
  set_reply_ep client_id (offset s);;
  b ← do Client_barrier;
  when b (send_first_client;; process_message_multicast);;
  mret (-1, None).

Fixpoint green_cp_producer_wait (fuel : nat) : P unit :=
  match fuel with
  | O => halt_with OutOfFuel
  | S fuel' =>
    b ← rd buffer; l ← rd buffer_limit;
    if b =? l then
      do (Thread_lock_release lock_global);;
      do (Thread_sleep producer_list);;
      wr (set_wait_count (Z.add 1));;
      do (Thread_lock_acquire lock_global);;
      green_cp_producer_wait fuel'
    else mret tt
  end.

Definition green_cp_producer_case (fuel : nat) : P result :=
  benchmark_begin;;
  s ← rd slot;
  do (SaveCaller s);;
  do (Thread_lock_acquire lock_global);;
  green_cp_producer_wait fuel;;
  b ← rd buffer; l ← rd buffer_limit;
  assert (b <? l);;
  wr (set_buffer (Z.add 1));;
  do (Thread_wakeup consumer_list);;
  do (Thread_lock_release lock_global);;
  temp ← lift (seL4_MessageInfo_new PRODUCER 0 0 1);
  mret (1, Some temp).

Fixpoint green_cp_consumer_wait (fuel : nat) : P unit :=
  match fuel with
  | O => halt_with OutOfFuel
  | S fuel' =>
    b ← rd buffer;
    if b =? 0 then
      do (Thread_lock_release lock_global);;
      do (Thread_sleep consumer_list);;
      wr (set_wait_count (Z.add 1));;
      do (Thread_lock_acquire lock_global);;
      green_cp_consumer_wait fuel'
    else mret tt
  end.

Definition green_cp_consumer_case (fuel : nat) : P result :=
  benchmark_begin;;
  s ← rd slot;
  do (SaveCaller s);;
  do (Thread_lock_acquire lock_global);;
  green_cp_consumer_wait fuel;;
  b ← rd buffer;
  assert (0 <? b);;
  wr (set_buffer (λ b, b - 1));;
  do (Thread_wakeup producer_list);;
  do (Thread_lock_release lock_global);;
  temp ← lift (seL4_MessageInfo_new CONSUMER 0 0 1);
  mret (1, Some temp).

Definition green_cp_terminate_case : P result :=
  client_id ← seL4_GetMR 0;
  wr (set_terminate_num (Z.add 1));;
  t ← rd terminate_num; n ← rd client_num;
  when (BENCHMARK_ENTIRE cfg && (t =? n)) (do Rdtsc_end;; thread_exit);;
  temp ← lift (seL4_MessageInfo_new TMNT 0 0 1);
  thread_exit;;
  mret (1, Some temp).

Definition green_cp_process_message (fuel : nat) (info : Z) : P result :=
  let label := sint32 (seL4_MessageInfo_get_label info) in
  if label =? INIT then green_cp_init_case
  else if label =? PRODUCER then green_cp_producer_case fuel
  else if label =? CONSUMER then green_cp_consumer_case fuel
  else if label =? TMNT then green_cp_terminate_case
  else if label =? IMMD then mret (-1, None)
  else mret (-1, None).

(** ** Green threads, token passing *)

Definition green_init_case : P result :=
  client_id ← do Initial_client;
  '(error, s) ← do Allocman_cspace_alloc;
  wr (set_slot s);;
  assert (error =? 0);;
  s ← rd slot;
  do (SaveCaller s);;
  s ← rd slot;
  set_reply_ep client_id (offset s);;
  b ← do Client_barrier;
  when b send_first_client;;
  mret (-1, None).

Definition green_wait_case (sync_prim : Z) : P result :=
  client_id ← seL4_GetMR 0;
  process_message_multicast;;
  s ← rd slot;
  do (SaveCaller s);;
  when (THREAD_LOCK cfg) (do (Thread_lock_acquire sync_prim));;
  when (THREAD_SEMAPHORE cfg) (do (Thread_semaphore_P sync_prim));;
  when (THREAD_CV cfg) (do (Thread_cv_wait sync_prim lock_universe));;
  temp ← lift (seL4_MessageInfo_new INIT 0 0 1);
  mret (1, Some temp).

Definition green_send_wait_case (sync_prim : Z) : P result :=
  client_id ← seL4_GetMR 0;
  s ← rd slot;
  do (SaveCaller s);;
  when (THREAD_LOCK cfg) (do (Thread_lock_release_acquire sync_prim));;
  when (THREAD_SEMAPHORE cfg)
    (do (Thread_semaphore_V sync_prim);; do (Thread_semaphore_P sync_prim));;
  when (THREAD_CV cfg)
    (do (Thread_cv_signal sync_prim);; do (Thread_cv_wait sync_prim lock_universe));;
  temp ← lift (seL4_MessageInfo_new INIT 0 0 1);
  mret (1, Some temp).

Definition green_terminate_case : P result :=
  client_id ← seL4_GetMR 0;
  wr (set_terminate_num (Z.add 1));;
  t ← rd terminate_num; n ← rd client_count;
  when (BENCHMARK_ENTIRE cfg && (t =? n)) (do Rdtsc_end);;
  thread_exit;;
  mret (-1, None).

Definition green_process_message (sync_prim info : Z) : P result :=
  let label := sint32 (seL4_MessageInfo_get_label info) in
  if label =? INIT then green_init_case
  else if label =? WAIT then green_wait_case sync_prim
  else if label =? SEND_WAIT then green_send_wait_case sync_prim
  else if label =? TMNT then green_terminate_case
  else if label =? IMMD then mret (-1, None)
  else mret (-1, None).

(** The loop of a green server thread, [process] being the variant in force.
    [reply] keeps the pointer between iterations, as what the variable it points
    to held; reading through it reads the frame of a [process_message] that has
    returned. *)
Definition read_reply (reply : option Z) : P Z :=
  match reply with
  | None => halt_with BadPointer
  | Some temp => do (Dead_frame_read temp)
  end.

Definition green_loop_body (process : Z → P result) (info : Z) (reply : option Z)
    : P (Z * option Z) :=
  '(res, r) ← process info;
  let reply := match r with Some t => Some t | None => reply end in
  info ←
    (if res =? 1 then
       s ← rd slot;
       t ← read_reply reply;
       seL4_Send (offset s) t;;
       do (Recv endpoint_cptr)
     else if res =? 0 then
       assert (bool_decide (reply ≠ None));;
       t ← read_reply reply;
       do (ReplyRecv endpoint_cptr t)
     else do (Recv endpoint_cptr));
  mret (info, reply).

(** [while (1)], for [n] iterations. *)
Fixpoint iterate {A} (n : nat) (body : A → P A) (a : A) : P A :=
  match n with
  | O => mret a
  | S n' => a ← body a; iterate n' body a
  end.

Definition green_server_loop (process : Z → P result) (n : nat) : P (Z * option Z) :=
  info ← do (Recv endpoint_cptr);
  iterate n (λ a, green_loop_body process a.1 a.2) (info, None).

(** [thread_creation]: [num] threads; the id of the last one is returned. *)
Definition thread_creation (sync_prim num : Z) : P Z :=
  assert (0 <? num);;
  (fix go (n : nat) (res : Z) : P Z :=
     match n with
     | O => mret res
     | S n' => res ← do (Thread_create sync_prim); go n' res
     end) (Z.to_nat num) 0.

(** ** Kernel threads, producers and consumers

    [slot] here is [server_loop]'s own variable, passed by pointer; the
    [SEL4_GREEN] code saves the caller into it. *)

Definition sel4_cp_init_case : P result :=
  client_id ← do Initial_client;
  '(error, slot_temp) ← do Allocman_cspace_alloc;
  assert (error =? 0);;
  do (SaveCaller slot_temp);;
  set_reply_ep client_id (offset slot_temp);;
  b ← do Client_barrier;
  when b (send_first_client;; process_message_multicast);;
  mret (0, None).

Fixpoint sel4_cp_producer_wait (fuel : nat) : P unit :=
  match fuel with
  | O => halt_with OutOfFuel
  | S fuel' =>
    b ← rd buffer; l ← rd buffer_limit;
    if b =? l then
      do (Sync_mutex_unlock lock_global);;
      do (Wait producer_list);;
      wr (set_wait_count (Z.add 1));;
      do (Sync_mutex_lock lock_global);;
      sel4_cp_producer_wait fuel'
    else mret tt
  end.

Definition sel4_cp_producer_case (fuel : nat) (my_slot : cspacepath_t) : P result :=
  benchmark_begin;;
  when (SEL4_GREEN cfg) (do (SaveCaller my_slot);; mret tt);;
  do (Sync_mutex_lock lock_global);;
  sel4_cp_producer_wait fuel;;
  b ← rd buffer; l ← rd buffer_limit;
  assert (b <? l);;
  wr (set_buffer (Z.add 1));;
  do (Signal consumer_list);;
  do (Sync_mutex_unlock lock_global);;
  temp ← lift (seL4_MessageInfo_new PRODUCER 0 0 1);
  mret (1, Some temp).

Fixpoint sel4_cp_consumer_wait (fuel : nat) : P unit :=
  match fuel with
  | O => halt_with OutOfFuel
  | S fuel' =>
    b ← rd buffer;
    if b =? 0 then
      do (Sync_mutex_unlock lock_global);;
      do (Wait consumer_list);;
      wr (set_wait_count (Z.add 1));;
      do (Sync_mutex_lock lock_global);;
      sel4_cp_consumer_wait fuel'
    else mret tt
  end.

Definition sel4_cp_consumer_case (fuel : nat) (my_slot : cspacepath_t) : P result :=
  benchmark_begin;;
  when (SEL4_GREEN cfg) (do (SaveCaller my_slot);; mret tt);;
  do (Sync_mutex_lock lock_global);;
  sel4_cp_consumer_wait fuel;;
  b ← rd buffer;
  assert (0 <? b);;
  wr (set_buffer (λ b, b - 1));;
  do (Signal producer_list);;
  do (Sync_mutex_unlock lock_global);;
  temp ← lift (seL4_MessageInfo_new CONSUMER 0 0 1);
  mret (1, Some temp).

Definition sel4_cp_terminate_case : P result :=
  client_id ← seL4_GetMR 0;
  wr (set_terminate_num (Z.add 1));;
  t ← rd terminate_num; n ← rd client_num;
  when ((t =? n) && BENCHMARK_ENTIRE cfg) (do Rdtsc_end);;
  mret (0, None).

Definition sel4_cp_process_message (fuel : nat) (my_slot : cspacepath_t) (info : Z) : P result :=
  let label := sint32 (seL4_MessageInfo_get_label info) in
  if label =? INIT then sel4_cp_init_case
  else if label =? PRODUCER then sel4_cp_producer_case fuel my_slot
  else if label =? CONSUMER then sel4_cp_consumer_case fuel my_slot
  else if label =? TMNT then sel4_cp_terminate_case
  else if label =? IMMD then mret (0, None)
  else mret (0, None).

(** ** Kernel threads, token passing *)

Definition sel4_init_case : P result :=
  client_id ← do Initial_client;
  '(error, my_slot) ← do Allocman_cspace_alloc;
  assert (error =? 0);;
  do (SaveCaller my_slot);;
  set_reply_ep client_id (offset my_slot);;
  b ← do Client_barrier;
  when b send_first_client;;
  mret (0, None).

(** [SEL4_GREEN]: a fresh slot for the caller of every request. *)
Definition sel4_save_caller : P cspacepath_t :=
  '(error, my_slot) ← do Allocman_cspace_alloc;
  assert (error =? 0);;
  do (SaveCaller my_slot);;
  mret my_slot.

Definition sel4_wait_case (sync_prim lock : Z) : P result :=
  client_id ← seL4_GetMR 0;
  my_slot ← (if SEL4_GREEN cfg
             then process_message_multicast;; sel4_save_caller
             else mret zero_path);
  when (THREAD_LOCK cfg) (do (Sync_mutex_lock sync_prim);; mret tt);;
  when (THREAD_SEMAPHORE cfg) (do (Sync_sem_wait sync_prim);; mret tt);;
  when (THREAD_CV cfg) (do (Sync_cv_wait lock sync_prim);; mret tt);;
  temp ← lift (seL4_MessageInfo_new INIT 0 0 1);
  mret (if SEL4_GREEN cfg then offset my_slot else 1, Some temp).

Definition sel4_send_wait_case (sync_prim lock : Z) : P result :=
  client_id ← seL4_GetMR 0;
  my_slot ← (if SEL4_GREEN cfg
             then s ← sel4_save_caller; wr (set_global_reply_ep (offset s));; mret s
             else mret zero_path);
  when (THREAD_LOCK cfg)
    (do (Sync_mutex_unlock sync_prim);; do (Sync_mutex_lock sync_prim);; mret tt);;
  when (THREAD_SEMAPHORE cfg)
    (do (Sync_sem_post sync_prim);; do (Sync_sem_wait sync_prim);; mret tt);;
  when (THREAD_CV cfg)
    (do (Sync_cv_signal sync_prim);; do (Sync_cv_wait lock sync_prim);; mret tt);;
  temp ← lift (seL4_MessageInfo_new INIT 0 0 1);
  mret (if SEL4_GREEN cfg then offset my_slot else 1, Some temp).

Definition sel4_terminate_case : P result :=
  client_id ← seL4_GetMR 0;
  wr (set_terminate_num (Z.add 1));;
  mret (0, None).

Definition sel4_process_message (sync_prim lock info : Z) : P result :=
  let label := sint32 (seL4_MessageInfo_get_label info) in
  if label =? INIT then sel4_init_case
  else if label =? WAIT then sel4_wait_case sync_prim lock
  else if label =? SEND_WAIT then sel4_send_wait_case sync_prim lock
  else if label =? TMNT then sel4_terminate_case
  else if label =? IMMD then mret (0, None)
  else mret (0, None).

(** The loop of a kernel server thread: it passes [&slot], so [process] is the
    producer/consumer variant. *)
Definition sel4_loop_body (process : cspacepath_t → Z → P result) (my_slot : cspacepath_t)
    (info : Z) (reply : option Z) : P (Z * option Z) :=
  '(res, r) ← process my_slot info;
  let reply := match r with Some t => Some t | None => reply end in
  if negb (res =? 0) then
    info ← (if SEL4_GREEN cfg
            then t ← read_reply reply; seL4_Send (offset my_slot) t;; do (Recv endpoint_cptr)
            else mret info);
    info ← (if SEL4_SLOW cfg
            then t ← read_reply reply; do (Reply t);; do (Recv endpoint_cptr)
            else mret info);
    info ← (if SEL4_FAST cfg
            then t ← read_reply reply; do (ReplyRecv endpoint_cptr t)
            else mret info);
    mret (info, reply)
  else
    info ← do (Recv endpoint_cptr);
    mret (info, reply).

Definition sel4_server_loop (process : cspacepath_t → Z → P result) (sync_prim : option Z)
    (n : nat) : P (Z * option Z) :=
  assert (bool_decide (sync_prim ≠ None));;
  info ← do (Recv endpoint_cptr);
  '(error, my_slot) ← do Allocman_cspace_alloc;
  assert (error =? 0);;
  iterate n (λ a, sel4_loop_body process my_slot a.1 a.2) (info, None).

End server.

(** ** What holds of the server in every environment *)

Section server_specs.
Context {W : Type} {EnvW : Env W} {Proto : Protocol} {ProtoOk : ProtocolOk} (cfg : config).
Implicit Types (s g : srv W) (log : list event).

Lemma wlp_do {A} (c : call A) (Q : A → srv W * list event → Prop) st :
  (∀ a g, handle c st.1 = (Done a, g) → Q a (g, st.2 ++ [Ev c])) → wlp (do c) Q st.
Proof. intros H. unfold wlp, do. destruct (handle c st.1) as [[a|h] g]; auto. Qed.

Lemma wlp_rd {A} (f : srv W → A) (Q : A → srv W * list event → Prop) st :
  Q (f st.1) st → wlp (rd f) Q st.
Proof. done. Qed.

Lemma wlp_wr f (Q : unit → srv W * list event → Prop) st :
  Q tt (f st.1, st.2) → wlp (wr f) Q st.
Proof. done. Qed.

Lemma wlp_assert b (Q : unit → srv W * list event → Prop) st :
  (b = true → Q tt st) → wlp (assert b) Q st.
Proof. destruct b; [intros H; by apply H|done]. Qed.

Lemma wlp_lift {A} (o : outcome A) (Q : A → srv W * list event → Prop) st :
  (∀ a, o = Done a → Q a st) → wlp (lift o) Q st.
Proof. intros H. unfold wlp, lift. destruct o; auto. Qed.

(** One step of symbolic execution. *)
Ltac srv_step :=
  lazymatch goal with
  | |- wlp (_ ≫= _) _ _ => apply wlp_bind
  | |- wlp (do _) _ _ => apply wlp_do; intros
  | |- wlp (rd _) _ _ => apply wlp_rd
  | |- wlp (wr _) _ _ => apply wlp_wr
  | |- wlp (assert _) _ _ => apply wlp_assert; intros
  | |- wlp (lift _) _ _ => apply wlp_lift; intros
  end; cbn [fst snd] in *.
Ltac srv_steps := repeat srv_step.

(** The tags the server builds. *)
Lemma server_tag label n w :
  seL4_MessageInfo_new label 0 0 n = Done w → 0 ≤ label < 2 ^ 20 → 0 ≤ n < 2 ^ 7 →
  tag_of w = mk_tag label 0 0 n.
Proof.
  intros Hw Hl Hn. rewrite MessageInfo_new_done in Hw by (unfold tag_ok; simpl; lia).
  simplify_eq. open_tag. name_fields. f_equal; read_fields; reflexivity.
Qed.

(** Membership in a literal list. *)
Ltac in_list := repeat first [apply list_elem_of_here | apply list_elem_of_further].

Lemma label_range l :
  l ∈ [INIT; WAIT; SEND_WAIT; TMNT; IMMD; PRODUCER; CONSUMER] → 0 ≤ l < 2 ^ 20.
Proof. intros Hl. pose proof labels_fit as H. rewrite Forall_forall in H. auto. Qed.

Lemma labels_ne :
  PRODUCER ≠ INIT ∧ CONSUMER ≠ INIT ∧ CONSUMER ≠ PRODUCER ∧ TMNT ≠ INIT ∧ TMNT ≠ PRODUCER ∧
  TMNT ≠ CONSUMER ∧ WAIT ≠ INIT ∧ SEND_WAIT ≠ INIT ∧ SEND_WAIT ≠ WAIT ∧ TMNT ≠ WAIT ∧
  TMNT ≠ SEND_WAIT.
Proof.
  pose proof labels_distinct as H. rewrite !NoDup_cons in H.
  repeat (rewrite not_elem_of_cons in H || rewrite elem_of_nil in H).
  destruct_and!. split_and!; congruence.
Qed.

Lemma sint32_label l :
  l ∈ [INIT; WAIT; SEND_WAIT; TMNT; IMMD; PRODUCER; CONSUMER] → sint32 l = l.
Proof. intros Hl%label_range. apply sint32_small. unfold INT_MAX. lia. Qed.

Ltac labels :=
  pose proof labels_ne; destruct_and!;
  repeat match goal with
         | |- context [Z.eqb ?a ?a] => rewrite Z.eqb_refl
         | |- context [Z.eqb ?a ?b] => destruct (Z.eqb_spec a b); [congruence|]
         end.

(** *** A request for the buffer, step by step

    [handle c g = (Done a, g')] is one step of the environment: the call [c]
    returns [a], and other threads have taken the globals from [g] to [g'].
    The two sides of the buffer differ in the data of [side]. *)
Record side := mk_side {
  side_label : Z; own_list : Z; other_list : Z;
  blocked : srv W → bool; ready : srv W → bool; moved : Z → Z
}.
Definition producer_side : side := {|
  side_label := PRODUCER; own_list := producer_list; other_list := consumer_list;
  blocked g := buffer g =? buffer_limit g; ready g := buffer g <? buffer_limit g;
  moved := Z.add 1
|}.
Definition consumer_side : side := {|
  side_label := CONSUMER; own_list := consumer_list; other_list := producer_list;
  blocked g := buffer g =? 0; ready g := 0 <? buffer g; moved b := b - 1
|}.

(** [rounds d k g g']: the lock is held and the buffer is looked at in [g]; it
    blocks the request [k] times, each time the lock is released, the thread
    sleeps, is counted as having waited and takes the lock again; in [g'] the
    buffer does not block it. *)
Inductive rounds (d : side) : nat → srv W → srv W → Prop :=
| rounds_go g : blocked d g = false → rounds d 0 g g
| rounds_wait k g g1 g2 g3 g' :
    blocked d g = true →
    handle (Thread_lock_release lock_global) g = (Done tt, g1) →
    handle (Thread_sleep (own_list d)) g1 = (Done tt, g2) →
    handle (Thread_lock_acquire lock_global) (set_wait_count (Z.add 1) g2) = (Done tt, g3) →
    rounds d k g3 g' → rounds d (S k) g g'.

(** The timer of the whole benchmark starts with the first request. *)
Definition begun s g0 (evs : list event) : Prop :=
  if BENCHMARK_ENTIRE cfg && negb (started s)
  then ∃ h, handle Rdtsc_start s = (Done tt, h) ∧ g0 = set_started h ∧ evs = [Ev Rdtsc_start]
  else g0 = s ∧ evs = [].

Definition waits_log (d : side) (k : nat) : list event :=
  concat (replicate k [Ev (Thread_lock_release lock_global); Ev (Thread_sleep (own_list d));
                       Ev (Thread_lock_acquire lock_global)]).

(** The first [n] message registers. *)
Definition message (g : srv W) (n : Z) : list Z := (λ i, default 0 (mrs g !! i)) <$> seqZ 0 n.

(** [served d k s g' info' tag log']: a request that waited [k] times takes the
    globals from [s] to [g'], builds the reply [tag] and makes the calls
    [log']; the last of them receives [info'].  What is sent is the tag [t]
    found in the dead frame, with the message registers it announces. *)
Inductive served (d : side) (k : nat) s : srv W → Z → Z → list event → Prop :=
| served_intro g0 evs e g1 g2 g3 g4 g5 g6 g7 g' tag t info' :
    begun s g0 evs →
    handle (SaveCaller (slot g0)) g0 = (Done e, g1) →
    handle (Thread_lock_acquire lock_global) g1 = (Done tt, g2) →
    rounds d k g2 g3 → ready d g3 = true →
    handle (Thread_wakeup (other_list d)) (set_buffer (moved d) g3) = (Done tt, g4) →
    handle (Thread_lock_release lock_global) g4 = (Done tt, g5) →
    seL4_MessageInfo_new (side_label d) 0 0 1 = Done tag →
    handle (Dead_frame_read tag) g5 = (Done t, g6) →
    let msg := message g6 (seL4_MessageInfo_get_length t) in
    handle (Send (offset (slot g5)) t msg) g6 = (Done tt, g7) →
    handle (Recv endpoint_cptr) g7 = (Done info', g') →
    served d k s g' info' tag
      (evs ++ [Ev (SaveCaller (slot g0)); Ev (Thread_lock_acquire lock_global)] ++
       waits_log d k ++
       [Ev (Thread_wakeup (other_list d)); Ev (Thread_lock_release lock_global);
        Ev (Dead_frame_read tag); Ev (Send (offset (slot g5)) t msg); Ev (Recv endpoint_cptr)]).

(** *** Runs of the server's code *)

Local Notation SP := (P (W := W)).

Lemma run_bind {A B} (m : SP A) (f : A → SP B) st b st' :
  (m ≫= f) st = (Done b, st') ↔ ∃ a st1, m st = (Done a, st1) ∧ f a st1 = (Done b, st').
Proof.
  unfold mbind, M_bind. destruct (m st) as [[a|h] st1]; split.
  - intros H. by exists a, st1.
  - by intros (? & ? & [= -> ->] & H).
  - done.
  - by intros (? & ? & ? & _).
Qed.

Lemma run_do {A} (c : call A) st a st' :
  do c st = (Done a, st') ↔ ∃ g, handle c st.1 = (Done a, g) ∧ st' = (g, st.2 ++ [Ev c]).
Proof.
  unfold do. destruct (handle c st.1) as [r g]. split.
  - intros [= -> <-]. by exists g.
  - by intros (? & [= -> ->] & ->).
Qed.

Lemma run_assert b (st : srv W * list event) u st' :
  assert b st = (Done u, st') ↔ b = true ∧ st' = st.
Proof. destruct u, b; cbn; split; [by intros [= <-]|by intros [_ ->]|done|by intros []]. Qed.

Lemma run_lift {A} (o : outcome A) (st : srv W * list event) a st' :
  lift o st = (Done a, st') ↔ o = Done a ∧ st' = st.
Proof. unfold lift. split; [by intros [= -> ->]|by intros [-> ->]]. Qed.

(** The two cases are one piece of code over [side]. *)
Fixpoint side_wait (d : side) (fuel : nat) : SP unit :=
  match fuel with
  | O => halt_with OutOfFuel
  | S fuel' =>
    b ← rd (blocked d);
    if b : bool then
      do (Thread_lock_release lock_global);;
      do (Thread_sleep (own_list d));;
      wr (set_wait_count (Z.add 1));;
      do (Thread_lock_acquire lock_global);;
      side_wait d fuel'
    else mret tt
  end.
Definition side_case (d : side) (fuel : nat) : SP result :=
  benchmark_begin cfg;;
  s ← rd slot;
  do (SaveCaller s);;
  do (Thread_lock_acquire lock_global);;
  side_wait d fuel;;
  b ← rd (ready d);
  assert b;;
  wr (set_buffer (moved d));;
  do (Thread_wakeup (other_list d));;
  do (Thread_lock_release lock_global);;
  temp ← lift (seL4_MessageInfo_new (side_label d) 0 0 1);
  mret (1, Some temp).

Lemma bind_ext {A B} (m : SP A) (f f' : A → SP B) st :
  (∀ a st1, f a st1 = f' a st1) → (m ≫= f) st = (m ≫= f') st.
Proof. intros H. unfold mbind, M_bind. by destruct (m st) as [[a|h] st1]. Qed.

Lemma bind_same {A B} (m m' : SP A) (f : A → SP B) st :
  m st = m' st → (m ≫= f) st = (m' ≫= f) st.
Proof. intros H. unfold mbind, M_bind. by rewrite H. Qed.

Lemma green_wait_side fuel st :
  green_cp_producer_wait fuel st = side_wait producer_side fuel st ∧
  green_cp_consumer_wait fuel st = side_wait consumer_side fuel st.
Proof.
  revert st. induction fuel as [|fuel IH]; intros st; [done|]. split;
    cbn -[lock_global producer_list consumer_list]; unfold mbind, M_bind at 1, rd, gets; cbn.
  - unfold M_bind at 1. destruct (_ =? _); [|done]. repeat (apply bind_ext; intros). apply IH.
  - destruct (_ =? _); [|done]. repeat (apply bind_ext; intros). apply IH.
Qed.

Lemma green_case_side fuel st :
  green_cp_producer_case cfg fuel st = side_case producer_side fuel st ∧
  green_cp_consumer_case cfg fuel st = side_case consumer_side fuel st.
Proof.
  unfold green_cp_producer_case, green_cp_consumer_case, side_case.
  split; do 4 (apply bind_ext; intros ?a ?st); apply (bind_same _ (side_wait _ fuel)).
  - apply (proj1 (green_wait_side _ _)).
  - apply (proj2 (green_wait_side _ _)).
Qed.

Lemma run_side_wait d fuel g l st :
  side_wait d fuel (g, l) = (Done tt, st) ↔
  ∃ k g', (k < fuel)%nat ∧ rounds d k g g' ∧ st = (g', l ++ waits_log d k).
Proof.
  revert g l. induction fuel as [|fuel IH]; intros g l; cbn [side_wait].
  { split; [done|]. intros (? & ? & ? & _). lia. }
  unfold mbind at 1, M_bind at 1, rd, gets. cbn [fst]. destruct (blocked d g) eqn:Hb.
  - split.
    + intros ([] & ? & (g1 & H1 & ->)%run_do & H)%run_bind. cbn [fst snd] in *.
      apply run_bind in H as ([] & ? & (g2 & H2 & ->)%run_do & H).
      apply run_bind in H as ([] & ? & [= <-] & H). cbn [fst snd] in *.
      apply run_bind in H as ([] & ? & (g3 & H3 & ->)%run_do & H).
      apply IH in H as (k & g' & Hk & Hr & ->). exists (S k), g'. split; [lia|].
      split; [by eapply rounds_wait|]. unfold waits_log. simpl. by rewrite <- !app_assoc.
    + intros (k & g' & Hk & Hr & ->). inversion Hr as [|? ? g1 g2 g3 ? _ H1 H2 H3 Hr']; subst; [congruence|].
      apply run_bind. eexists _, _. split; [apply run_do; by eexists|]. cbn [fst snd].
      apply run_bind. eexists _, _. split; [apply run_do; by eexists|].
      apply run_bind. eexists _, _. split; [reflexivity|]. cbn [fst snd].
      apply run_bind. eexists _, _. split; [apply run_do; by eexists|].
      apply IH. eexists _, _. split; [|split; [exact Hr'|]]; [lia|].
      unfold waits_log. simpl. by rewrite <- !app_assoc.
  - split.
    + intros [= <-]. exists 0%nat, g. split; [lia|]. split; [by constructor|]. by rewrite app_nil_r.
    + intros (k & g' & Hk & Hr & ->). inversion Hr; subst; [|congruence]. by rewrite app_nil_r.
Qed.

Lemma run_benchmark_begin g l st :
  benchmark_begin cfg (g, l) = (Done tt, st) ↔ ∃ g0 evs, begun g g0 evs ∧ st = (g0, l ++ evs).
Proof.
  unfold benchmark_begin, begun, when. unfold mbind at 1, M_bind at 1, rd, gets. cbn [fst].
  destruct (_ && _).
  - split.
    + intros ([] & ? & (h & H1 & ->)%run_do & [= <-])%run_bind. by eexists _, _; split; [eexists|].
    + intros (? & ? & (h & H1 & -> & ->) & ->). apply run_bind. eexists _, _.
      split; [apply run_do; by eexists|done].
  - split.
    + intros [= <-]. eexists _, []. by rewrite app_nil_r.
    + intros (? & ? & [-> ->] & ->). by rewrite app_nil_r.
Qed.

(** An iteration of the loop for a request of side [d]. *)
Definition side_body (d : side) (fuel : nat) (reply : option Z) : SP (Z * option Z) :=
  green_loop_body (λ _, side_case d fuel) 0 reply.

(** One step of a run that completes. *)
Ltac run_step H :=
  lazymatch type of H with
  | (do _ ≫= _) _ = _ =>
    let a := fresh "a" in let g := fresh "g" in let Hc := fresh "Hc" in
    apply run_bind in H as (a & ? & (g & Hc & ->)%run_do & H)
  | (rd _ ≫= _) _ = _ => apply run_bind in H as (? & ? & [= <- <-] & H)
  | (wr _ ≫= _) _ = _ => apply run_bind in H as (? & ? & [= <- <-] & H)
  | (assert _ ≫= _) _ = _ =>
    let Hb := fresh "Hb" in apply run_bind in H as (? & ? & [Hb ->]%run_assert & H)
  | (lift _ ≫= _) _ = _ =>
    let Ho := fresh "Ho" in apply run_bind in H as (? & ? & [Ho ->]%run_lift & H)
  end; cbn [fst snd] in *.

(** One step of the construction of such a run. *)
Ltac step_run :=
  lazymatch goal with
  | |- (do _ ≫= _) _ = _ =>
    apply run_bind; eexists _, _; split; [apply run_do; eexists; split; [eassumption|reflexivity]|]
  | |- (assert _ ≫= _) _ = _ =>
    apply run_bind; eexists tt, _; split; [apply run_assert; split; [eassumption|reflexivity]|]
  | |- (lift _ ≫= _) _ = _ =>
    apply run_bind; eexists _, _; split; [apply run_lift; split; [eassumption|reflexivity]|]
  | |- (_ ≫= _) _ = _ => apply run_bind; eexists _, _; split; [reflexivity|]
  end; cbn [fst snd].

Lemma side_body_served d fuel reply s log i r g log' :
  side_body d fuel reply (s, log) = (Done (i, r), (g, log')) →
  ∃ k tag evs, (k < fuel)%nat ∧ served d k s g i tag evs ∧ r = Some tag ∧ log' = log ++ evs.
Proof.
  unfold side_body, green_loop_body, side_case. intros H.
  apply run_bind in H as ([res r'] & [gp lp] & H & Hrest).
  apply run_bind in H as ([] & ? & (g0 & evs & Hbeg & ->)%run_benchmark_begin & H).
  do 3 run_step H. destruct a0.
  apply run_bind in H as ([] & ? & (k & g3 & Hk & Hr & ->)%run_side_wait & H).
  do 6 run_step H. injection H as <- <- <- <-.
  apply run_bind in Hrest as (i' & [g' l'] & H & [= <- <- <- <-]). change (1 =? 1) with true in H.
  cbn iota in H. run_step H. unfold read_reply in H. run_step H.
  apply run_bind in H as ([] & [g7 l7] & H & Hrecv). unfold seL4_Send in H. run_step H.
  apply run_do in H as (? & Hsend & [= <- ->]). apply run_do in Hrecv as (? & Hrecv & [= <- ->]).
  cbn [fst snd] in *. repeat match goal with u : unit |- _ => destruct u end.
  eexists k, _, _. split; [done|]. split; [|split; [reflexivity|]].
  - eapply served_intro; eassumption.
  - unfold message. by rewrite <- !app_assoc.
Qed.

Lemma served_side_body d fuel reply s log k g i tag evs :
  (k < fuel)%nat → served d k s g i tag evs →
  side_body d fuel reply (s, log) = (Done (i, Some tag), (g, log ++ evs)).
Proof.
  intros Hk HS. destruct HS. unfold side_body, green_loop_body, side_case.
  apply run_bind. eexists (1, Some tag), _. split.
  - apply run_bind. eexists tt, _. split; [apply run_benchmark_begin; eexists _, _; split; [eassumption|reflexivity]|].
    step_run. cbn [fst snd]. do 2 step_run.
    apply run_bind. eexists tt, _. split; [apply run_side_wait; eexists k, _; split; [exact Hk|split; [eassumption|reflexivity]]|].
    do 6 step_run. reflexivity.
  - change (1 =? 1) with true. cbn iota. apply run_bind. eexists _, _. split.
    + step_run. unfold read_reply. step_run. apply run_bind. eexists tt, _. split.
      * unfold seL4_Send. step_run. apply run_do. eexists. split; [eassumption|reflexivity].
      * apply run_do. eexists. split; [eassumption|reflexivity].
    + cbn [fst snd]. unfold mret, M_ret. rewrite <- !app_assoc. reflexivity.
Qed.

Lemma green_body_side d fuel info reply st :
  d = producer_side ∨ d = consumer_side → seL4_MessageInfo_get_label info = side_label d →
  green_loop_body (green_cp_process_message cfg fuel) info reply st = side_body d fuel reply st.
Proof.
  intros Hd Hl. unfold side_body, green_loop_body. apply bind_same.
  unfold green_cp_process_message.
  destruct Hd as [->| ->]; cbn [side_label producer_side consumer_side] in Hl;
    rewrite Hl, sint32_label by in_list; labels; [apply (proj1 (green_case_side _ _))|].
  apply (proj2 (green_case_side _ _)).
Qed.

(** C32: a request of a producer or consumer served by a green thread, in every
    environment: an iteration of the server's loop completes exactly when the
    request is served.  The caller is saved before the lock is taken; as long as
    the buffer is full (empty, for a consumer), and only then, the thread sleeps
    on its side's list, with the lock released while it does, and is counted;
    the buffer is moved by one when it is neither full nor empty for the
    request; then one sleeper of the other side is woken, the lock released, and
    one answer goes to the capability in the thread's slot before the next
    receive.  No other call is made.  The answer is whatever is found in the
    dead frame that held the reply tag, which is the request's label with one
    message word. *)
Theorem green_cp_request_discipline d fuel info reply0 s log i r g log' :
  d = producer_side ∨ d = consumer_side → seL4_MessageInfo_get_label info = side_label d →
  green_loop_body (green_cp_process_message cfg fuel) info reply0 (s, log) = (Done (i, r), (g, log'))
  ↔ ∃ k tag evs, (k < fuel)%nat ∧ served d k s g i tag evs ∧
      tag_of tag = mk_tag (side_label d) 0 0 1 ∧ r = Some tag ∧ log' = log ++ evs.
Proof.
  intros Hd Hl. rewrite (green_body_side d) by done.
  assert (Hr : 0 ≤ side_label d < 2 ^ 20) by (destruct Hd as [->| ->]; apply label_range; in_list).
  split.
  - intros (k & tag & evs & Hk & HS & Hres)%side_body_served. exists k, tag, evs.
    split; [done|]. split; [done|]. split; [|done]. destruct HS. eapply server_tag; [done|done|lia].
  - intros (k & tag & evs & Hk & HS & _ & -> & ->). by eapply served_side_body.
Qed.

(** *** Registration and the barrier *)

(** A send to a saved reply capability returns, and leaves the table of reply
    capabilities and the number of clients alone. *)
Class SendReturns : Prop :=
  handle_send : ∀ d i m s, ∃ g, handle (Send d i m) s = (Done tt, g) ∧
    client_num g = client_num s ∧ reply_eps g = reply_eps s.

Lemma wp_do {A} (c : call A) a g (Q : A → srv W * list event → Prop) st :
  handle c st.1 = (Done a, g) → Q a (g, st.2 ++ [Ev c]) → wp (do c) Q st.
Proof. intros H HQ. unfold wp, do. by rewrite H. Qed.

Lemma wp_rd {A} (f : srv W → A) (Q : A → srv W * list event → Prop) st :
  Q (f st.1) st → wp (rd f) Q st.
Proof. done. Qed.

Lemma wp_wr f (Q : unit → srv W * list event → Prop) st :
  Q tt (f st.1, st.2) → wp (wr f) Q st.
Proof. done. Qed.

Lemma wp_reply_ep i (Q : Z → srv W * list event → Prop) st :
  0 ≤ i < Z.of_nat (length (reply_eps st.1)) →
  Q (reply_eps st.1 !!! Z.to_nat i) st → wp (reply_ep i) Q st.
Proof.
  intros Hi HQ. unfold wp, reply_ep. destruct (Z.ltb_spec i 0); [lia|].
  destruct (lookup_lt_is_Some_2 (reply_eps st.1) (Z.to_nat i)) as [e He]; [lia|].
  rewrite He. by rewrite (list_lookup_total_correct _ _ e) in HQ.
Qed.

Lemma init_tag : ∃ tag, seL4_MessageInfo_new INIT 0 0 2 = Done tag ∧ tag_of tag = mk_tag INIT 0 0 2.
Proof.
  pose proof (label_range INIT ltac:(in_list)).
  eexists. split.
  - apply MessageInfo_new_done. unfold tag_ok. simpl. lia.
  - eapply server_tag; [|lia|lia]. apply MessageInfo_new_done. unfold tag_ok. simpl. lia.
Qed.

(** The [INIT] message to client [j]: its number, and whether it is the first. *)
Definition init_event (eps : list Z) (tag j : Z) : event :=
  Ev (Send (eps !!! Z.to_nat j) tag [j; if j =? 0 then 1 else 0]).

(** Filling the two message registers and sending a two-word message. *)
Lemma send_two_spec `{!SendReturns} i v tag log s :
  0 ≤ i < Z.of_nat (length (reply_eps s)) → seL4_MessageInfo_get_length tag = 2 →
  wp (seL4_SetMR 0 i;; seL4_SetMR 1 v;; reply ← lift (Done tag); ep ← reply_ep i; seL4_Send ep reply)
     (λ _ st, client_num st.1 = client_num s ∧ reply_eps st.1 = reply_eps s ∧
        st.2 = log ++ [Ev (Send (reply_eps s !!! Z.to_nat i) tag [i; v])]) (s, log).
Proof.
  intros Hi Hlen. apply wp_bind, wp_wr. cbn [fst snd]. apply wp_bind, wp_wr. cbn [fst snd].
  apply wp_bind. unfold lift at 1. unfold wp at 1. apply wp_bind, wp_reply_ep; [done|].
  unfold seL4_Send. apply wp_bind, wp_rd. rewrite Hlen.
  destruct (handle_send (reply_eps s !!! Z.to_nat i) tag
    ((λ j, default 0 (mrs (set_mr 1 v (set_mr 0 i s)) !! j)) <$> seqZ 0 2)
    (set_mr 1 v (set_mr 0 i s))) as (g & Hg & Hc & Hr).
  eapply wp_do; [exact Hg|]. cbn [fst snd]. split; [done|]. split; [done|].
  f_equal. unfold set_mr; cbn [mrs]. change (seqZ 0 2) with [0; 1]. cbn [fmap list_fmap].
  rewrite lookup_insert_ne, !lookup_insert_eq by done. reflexivity.
Qed.

Lemma multicast_from_spec `{!SendReturns} fuel i tag log s :
  1 ≤ i → client_num s ≤ Z.of_nat (length (reply_eps s)) → client_num s - i < Z.of_nat fuel →
  (0 < fuel)%nat → seL4_MessageInfo_new INIT 0 0 2 = Done tag → seL4_MessageInfo_get_length tag = 2 →
  wp (multicast_from fuel i)
     (λ _ st, st.2 = log ++ (init_event (reply_eps s) tag <$> seqZ i (client_num s - i))) (s, log).
Proof.
  intros Hi Hn Hf H0 Htag Hlen. revert i s log Hi Hn Hf H0.
  induction fuel as [|fuel IH]; intros i s log Hi Hn Hf H0; [lia|].
  cbn [multicast_from]. apply wp_bind, wp_rd. cbn [fst].
  destruct (Z.ltb_spec i (client_num s)).
  - rewrite Htag.
    assert (Hs : wp (seL4_SetMR 0 i;; seL4_SetMR 1 0;; reply ← lift (Done tag); ep ← reply_ep i;
                     seL4_Send ep reply)
      (λ _ st, client_num st.1 = client_num s ∧ reply_eps st.1 = reply_eps s ∧
        st.2 = log ++ [Ev (Send (reply_eps s !!! Z.to_nat i) tag [i; 0])]) (s, log))
      by (apply send_two_spec; [lia|done]).
    unfold wp in Hs |- *. unfold mbind, M_bind in *.
    destruct (seL4_SetMR 0 i (s, log)) as [[[]|?] s1]; [|done].
    destruct (seL4_SetMR 1 0 s1) as [[[]|?] s2]; [|done].
    destruct (lift (Done tag) s2) as [[r|?] s3]; [|done].
    destruct (reply_ep i s3) as [[ep|?] s4]; [|done].
    destruct (seL4_Send ep r s4) as [[[]|?] [g l]]; [|done].
    cbn [fst snd] in Hs. destruct Hs as (Hc & Hr & Hl).
    specialize (IH (i + 1) g l). rewrite Hc, Hr in IH.
    specialize (IH ltac:(lia) ltac:(lia) ltac:(lia)).
    destruct fuel; [lia|]. specialize (IH ltac:(lia)). unfold wp in IH.
    destruct (multicast_from (S fuel) (i + 1) (g, l)) as [[[]|?] st]; [|done].
    rewrite IH, Hl, <- app_assoc. f_equal.
    rewrite (seqZ_cons i) by lia. cbn [fmap list_fmap]. unfold init_event at 2.
    destruct (Z.eqb_spec i 0); [lia|]. simpl. f_equal. f_equal. f_equal; lia.
  - apply wp_ret. cbn [snd]. rewrite seqZ_nil by lia. by rewrite app_nil_r.
Qed.

Lemma wp_set_reply_ep i e (Q : unit → srv W * list event → Prop) st :
  0 ≤ i < Z.of_nat (length (reply_eps st.1)) →
  Q tt (set_reply_eps (<[Z.to_nat i := e]>) st.1, st.2) → wp (set_reply_ep i e) Q st.
Proof.
  intros Hi HQ. unfold wp, set_reply_ep. destruct (Z.leb_spec 0 i); [|lia].
  destruct (Z.ltb_spec i (Z.of_nat (length (reply_eps st.1)))); [done|lia].
Qed.

(** The announcement made when the barrier opens. *)
Lemma announce_spec `{!SendReturns} s log :
  1 ≤ client_num s ≤ Z.of_nat (length (reply_eps s)) →
  wp (send_first_client;; process_message_multicast)
     (λ _ st, ∃ tag, tag_of tag = mk_tag INIT 0 0 2 ∧
        st.2 = log ++ (init_event (reply_eps s) tag <$> seqZ 0 (client_num s))) (s, log).
Proof.
  intros Hn. destruct init_tag as (tag & Htag & Hof).
  assert (Hlen : seL4_MessageInfo_get_length tag = 2) by (unfold tag_of in Hof; by simplify_eq).
  apply wp_bind. unfold send_first_client. rewrite Htag.
  eapply wp_mono; [apply (send_two_spec 0 1 tag log s); [lia|done]|].
  intros [] [g l] (Hc & Hr & Hl). cbn [fst snd] in *. unfold process_message_multicast.
  apply wp_bind, wp_rd. cbn [fst]. eapply wp_mono.
  - apply (multicast_from_spec _ 1 tag l g); try done; rewrite ?Hc, ?Hr; lia.
  - intros [] [g' l'] Hl'. cbn [fst snd] in *. exists tag. split; [done|].
    rewrite Hl', Hl, Hc, Hr, <- app_assoc. f_equal.
    rewrite (seqZ_cons 0) by lia. replace (Z.pred (client_num s)) with (client_num s - 1) by lia.
    reflexivity.
Qed.

(** C40: a client that registers is given no answer until all have: its reply
    capability is saved in a fresh slot and recorded under its number, and
    nothing is sent; the registration that opens the barrier sends every client
    [0 .. client_num - 1], in order and once, the two-word [INIT] message with
    its number and, for client 0 only, the flag that it goes first. *)
Theorem green_cp_init_barrier `{!SendReturns} s log id p e b g1 g2 g3 g4 :
  handle Initial_client s = (Done id, g1) →
  handle Allocman_cspace_alloc g1 = (Done (0, p), g2) →
  handle (SaveCaller p) (set_slot p g2) = (Done e, g3) → slot g3 = p →
  0 ≤ id < Z.of_nat (length (reply_eps g3)) →
  handle Client_barrier (set_reply_eps (<[Z.to_nat id := offset p]>) g3) = (Done b, g4) →
  1 ≤ client_num g4 ≤ Z.of_nat (length (reply_eps g4)) →
  wp (green_cp_init_case)
     (λ r st, r = (-1, None) ∧ ∃ tag, tag_of tag = mk_tag INIT 0 0 2 ∧
        st.2 = log ++ [Ev Initial_client; Ev Allocman_cspace_alloc; Ev (SaveCaller p);
                       Ev Client_barrier] ++
               (if b then init_event (reply_eps g4) tag <$> seqZ 0 (client_num g4) else [])) (s, log).
Proof.
  intros H1 H2 H3 Hslot Hid H4 Hn. unfold green_cp_init_case.
  apply wp_bind. eapply wp_do; [exact H1|]. cbn [fst snd].
  apply wp_bind. eapply wp_do; [exact H2|]. cbn [fst snd].
  apply wp_bind, wp_wr. cbn [fst snd]. apply wp_bind, wp_assert; [done|].
  apply wp_bind, wp_rd. cbn [fst]. change (slot (set_slot p g2)) with p.
  apply wp_bind. eapply wp_do; [exact H3|]. cbn [fst snd].
  apply wp_bind, wp_rd. cbn [fst]. rewrite Hslot.
  apply wp_bind, wp_set_reply_ep; [done|]. cbn [fst snd].
  apply wp_bind. eapply wp_do; [exact H4|]. cbn [fst snd].
  apply wp_bind. destruct b; unfold when.
  - eapply wp_mono; [by apply announce_spec|]. intros [] [g l] (tag & Ht & Hl).
    apply wp_ret. split; [done|]. exists tag. split; [done|]. cbn [fst snd] in *.
    rewrite Hl, <- !app_assoc. done.
  - apply wp_ret, wp_ret. split; [done|]. destruct init_tag as (tag & _ & Hof). exists tag.
    split; [done|]. cbn [snd]. rewrite <- !app_assoc. done.
Qed.

(** a terminating client's thread exits: the request is counted once and no
    reply is sent, whatever the benchmark flag. *)
Theorem green_cp_terminate_exits s log (after : srv W → srv W) :
  (∀ s', handle Thread_exit s' = (Done tt, after s')) →
  (∀ s', handle Rdtsc_end s' = (Done tt, s')) →
  ∃ g' l', green_cp_terminate_case cfg (s, log) = (Halted Exited, (g', log ++ l')) ∧
    g' = after (set_terminate_num (Z.add 1) s) ∧
    l' = (if BENCHMARK_ENTIRE cfg && (1 + terminate_num s =? client_num s)
          then [Ev Rdtsc_end; Ev Thread_exit] else [Ev Thread_exit]).
Proof.
  intros Hexit Hend. destruct (BENCHMARK_ENTIRE cfg && (1 + terminate_num s =? client_num s)) eqn:E.
  - exists (after (set_terminate_num (Z.add 1) s)), [Ev Rdtsc_end; Ev Thread_exit]. split; [|done].
    unfold green_cp_terminate_case, seL4_GetMR, rd, wr, gets, modify, mbind, M_bind, when.
    cbn [fst snd]. cbn [terminate_num client_num set_terminate_num]. rewrite E.
    unfold thread_exit, do. unfold mbind, M_bind. cbn [fst snd]. rewrite Hend. cbn [fst snd].
    rewrite Hexit. cbn [fst snd]. by rewrite <- app_assoc.
  - exists (after (set_terminate_num (Z.add 1) s)), [Ev Thread_exit]. split; [|done].
    unfold green_cp_terminate_case, seL4_GetMR, rd, wr, gets, modify, mbind, M_bind, when.
    cbn [fst snd]. cbn [terminate_num client_num set_terminate_num]. rewrite E.
    pose proof (label_range TMNT ltac:(in_list)).
    rewrite MessageInfo_new_done by (unfold tag_ok; simpl; lia).
    unfold lift, thread_exit, do. unfold mbind, M_bind, mret, M_ret. cbn [fst snd].
    rewrite Hexit. done.
Qed.

(** a message whose label is none of the requests changes nothing and is
    not answered, in all four variants of [process_message]. *)
Theorem unknown_label_ignored fuel my_slot sync_prim lock info st :
  sint32 (seL4_MessageInfo_get_label info)
    ∉ [INIT; WAIT; SEND_WAIT; TMNT; IMMD; PRODUCER; CONSUMER] →
  green_cp_process_message cfg fuel info st = (Done (-1, None), st) ∧
  green_process_message cfg sync_prim info st = (Done (-1, None), st) ∧
  sel4_cp_process_message cfg fuel my_slot info st = (Done (0, None), st) ∧
  sel4_process_message cfg sync_prim lock info st = (Done (0, None), st).
Proof.
  intros Hl. repeat rewrite not_elem_of_cons in Hl. destruct Hl as (?&?&?&?&?&?&?&_).
  unfold green_cp_process_message, green_process_message, sel4_cp_process_message,
    sel4_process_message.
  repeat match goal with
         | |- context [Z.eqb ?a ?b] => destruct (Z.eqb_spec a b); [congruence|]
         end. done.
Qed.

(** How a kernel server thread answers, when one reply path is compiled in: it
    reads the dead frame that held [tag] and sends the tag [t] found there. *)
Definition sel4_reply_events (my_slot : cspacepath_t) (tag t : Z) (msg : list Z) : list event :=
  Ev (Dead_frame_read tag) ::
  (if SEL4_GREEN cfg then [Ev (Send (offset my_slot) t msg); Ev (Recv endpoint_cptr)]
   else if SEL4_SLOW cfg then [Ev (Reply t); Ev (Recv endpoint_cptr)]
   else [Ev (ReplyRecv endpoint_cptr t)]).

Definition one_reply_path : Prop :=
  (SEL4_GREEN cfg, SEL4_SLOW cfg, SEL4_FAST cfg) = (true, false, false) ∨
  (SEL4_GREEN cfg, SEL4_SLOW cfg, SEL4_FAST cfg) = (false, true, false) ∨
  (SEL4_GREEN cfg, SEL4_SLOW cfg, SEL4_FAST cfg) = (false, false, true).

(** In a build with exactly one reply path, an iteration of a kernel server
    thread whose request asks for a reply answers exactly once, by the path
    compiled in, with what is left of the tag the request built, and then
    receives again; otherwise it only receives. *)
Theorem sel4_loop_answers_once (process : cspacepath_t → Z → P result) my_slot info reply s log :
  one_reply_path →
  match process my_slot info (s, log) with
  | (Done (res, r), (s', log')) =>
    wlp (sel4_loop_body cfg process my_slot info reply)
      (λ a st, if res =? 0 then st.2 = log' ++ [Ev (Recv endpoint_cptr)] else
         ∃ tag t msg, (match r with Some t => Some t | None => reply end) = Some tag ∧
                      st.2 = log' ++ sel4_reply_events my_slot tag t msg) (s, log)
  | (Halted h, st') => sel4_loop_body cfg process my_slot info reply (s, log) = (Halted h, st')
  end.
Proof.
  intros Hone. destruct (process my_slot info (s, log)) as [[[res r]|h] [s' log']] eqn:E; cycle 1.
  { unfold sel4_loop_body, mbind, M_bind. by rewrite E. }
  unfold sel4_loop_body. apply wlp_bind. unfold wlp at 1. rewrite E.
  destruct (res =? 0); simpl negb; cbn iota.
  { srv_steps. apply wlp_ret. done. }
  unfold one_reply_path in Hone. unfold sel4_reply_events, seL4_Send, read_reply.
  set (rp := match r with Some t => Some t | None => reply end).
  destruct Hone as [Hf|[Hf|Hf]]; injection Hf as -> -> ->; destruct rp as [t|];
    repeat (srv_step || (apply wlp_ret; cbn [fst snd])); try done;
    rewrite <- ?app_assoc; exists t; eexists;
    first [exists []; split; reflexivity | eexists; split; reflexivity].
Qed.

End server_specs.

(** ** A concrete environment

    Clients register in order and are counted in [ext]; slots are fresh; the
    locks are free; while a thread sleeps, one request of the other side is
    served; a dead frame still holds what was left in it. *)
Module Demo.

#[export] Instance demo_protocol : Protocol := {|
  INIT := 1; WAIT := 2; SEND_WAIT := 3; TMNT := 4; IMMD := 5; PRODUCER := 6; CONSUMER := 7;
  lock_global := 50; lock_universe := 51; producer_list := 52; consumer_list := 53;
  endpoint_cptr := 60
|}.

#[export] Instance demo_protocol_ok : ProtocolOk.
Proof.
  split.
  - apply (bool_decide_unpack _). vm_compute. exact I.
  - repeat constructor; simpl; lia.
Qed.

Definition demo_slot (n : Z) : cspacepath_t := mk_path (100 + n) 32 2 0 0 (100 + n) 1.

Definition demo_count (s : srv Z) : srv Z :=
  mk_srv (ext s + 1) (client_num s) (client_count s) (buffer s) (buffer_limit s)
    (terminate_num s) (wait_count s) (started s) (reply_eps s) (global_reply_ep s) (slot s) (mrs s).

Definition demo_handle : ∀ A, call A → M (srv Z) A := λ A c s,
  match c in call A return outcome A * srv Z with
  | Initial_client => (Done (ext s), demo_count s)
  | Thread_sleep queue =>
    (Done tt, set_buffer (λ b, if queue =? producer_list then b - 1 else b + 1) s)
  | Client_barrier => (Done (ext s =? client_num s), s)
  | Allocman_cspace_alloc => (Done (0, demo_slot (ext s)), s)
  | SaveCaller _ | Recv _ | ReplyRecv _ _ | Thread_create _
  | Sync_mutex_lock _ | Sync_mutex_unlock _ | Sync_sem_wait _ | Sync_sem_post _
  | Sync_cv_wait _ _ | Sync_cv_signal _ | Wait _ => (Done 0, s)
  | Send _ _ _ | Reply _ | Thread_lock_acquire _ | Thread_lock_release _
  | Thread_lock_release_acquire _ | Thread_wakeup _ | Thread_semaphore_P _
  | Thread_semaphore_V _ | Thread_cv_wait _ _ | Thread_cv_signal _ | Thread_exit | Signal _
  | Rdtsc_start | Rdtsc_end => (Done tt, s)
  | Dead_frame_read temp => (Done temp, s)
  end.

#[export] Instance demo_env : Env Z := demo_handle.

#[export] Instance demo_send_returns : SendReturns.
Proof. intros d i m s. exists s. done. Qed.

Definition demo_cfg : config := mk_config false true false false true false false.

Definition demo_srv : srv Z :=
  mk_srv 1 2 2 0 2 0 0 false (replicate 4 0) 0 (demo_slot 0) ∅.

(** The tag of a [PRODUCER] request. *)
Definition demo_info : Z := 6 * 2 ^ 12 + 1.

End Demo.
Import Demo.

(** Both places of the buffer are taken. *)
Definition demo_full : srv Z := set_buffer (λ _, 2) demo_srv.

(** A producer finds the buffer full, sleeps once, and is served. *)
Lemma green_cp_request_discipline_witness :
  let run := green_loop_body (green_cp_process_message demo_cfg 2) demo_info None (demo_full, []) in
  (∃ g log', run = (Done (0, Some 24577), (g, log')) ∧ buffer g = 2 ∧ wait_count g = 1 ∧
     log' = [Ev (SaveCaller (demo_slot 0)); Ev (Thread_lock_acquire lock_global);
             Ev (Thread_lock_release lock_global); Ev (Thread_sleep producer_list);
             Ev (Thread_lock_acquire lock_global);
             Ev (Thread_wakeup consumer_list); Ev (Thread_lock_release lock_global);
             Ev (Dead_frame_read 24577); Ev (Send 100 24577 [0]); Ev (Recv endpoint_cptr)]) ∧
  (∀ i r g log', run = (Done (i, r), (g, log')) ↔
     ∃ k tag evs, (k < 2)%nat ∧ served demo_cfg producer_side k demo_full g i tag evs ∧
       tag_of tag = mk_tag PRODUCER 0 0 1 ∧ r = Some tag ∧ log' = [] ++ evs).
Proof.
  split; [vm_compute; eexists _, _; split; [reflexivity|by split]|].
  intros i r g log'. apply (green_cp_request_discipline demo_cfg producer_side);
    [by left|reflexivity].
Defined.

Definition demo_saved : srv Z := set_slot (demo_slot 2) (demo_count demo_srv).

Lemma green_cp_init_barrier_witness :
  wp (green_cp_init_case)
     (λ r st, r = (-1, None) ∧ ∃ tag, tag_of tag = mk_tag INIT 0 0 2 ∧
        st.2 = [] ++ [Ev Initial_client; Ev Allocman_cspace_alloc; Ev (SaveCaller (demo_slot 2));
                       Ev Client_barrier] ++
               (if true then init_event (reply_eps (set_reply_eps (<[1%nat := 102]>) demo_saved)) tag
                       <$> seqZ 0 (client_num (set_reply_eps (<[1%nat := 102]>) demo_saved))
                else [])) (demo_srv, []).
Proof.
  refine (green_cp_init_barrier demo_srv [] 1 (demo_slot 2) 0 true (demo_count demo_srv)
    (demo_count demo_srv) demo_saved
    (set_reply_eps (<[1%nat := 102]>) demo_saved) _ _ _ _ _ _ _); try reflexivity; simpl; lia.
Defined.

Lemma green_cp_terminate_exits_witness :
  ∃ g' l', green_cp_terminate_case demo_cfg (demo_srv, []) = (Halted Exited, (g', [] ++ l')) ∧
    g' = id (set_terminate_num (Z.add 1) demo_srv) ∧
    l' = (if BENCHMARK_ENTIRE demo_cfg && (1 + terminate_num demo_srv =? client_num demo_srv)
          then [Ev Rdtsc_end; Ev Thread_exit] else [Ev Thread_exit]).
Proof. apply (green_cp_terminate_exits demo_cfg demo_srv [] id); reflexivity. Defined.

Lemma unknown_label_ignored_witness :
  green_cp_process_message demo_cfg 1 0 (demo_srv, []) = (Done (-1, None), (demo_srv, [])) ∧
  green_process_message demo_cfg 9 0 (demo_srv, []) = (Done (-1, None), (demo_srv, [])) ∧
  sel4_cp_process_message demo_cfg 1 (demo_slot 0) 0 (demo_srv, []) = (Done (0, None), (demo_srv, [])) ∧
  sel4_process_message demo_cfg 9 8 0 (demo_srv, []) = (Done (0, None), (demo_srv, [])).
Proof.
  apply (unknown_label_ignored demo_cfg 1 (demo_slot 0) 9 8 0 (demo_srv, [])).
  apply (bool_decide_unpack _). vm_compute. exact I.
Defined.

Lemma sel4_loop_answers_once_witness :
  wlp (sel4_loop_body demo_cfg (sel4_cp_process_message demo_cfg 1) (demo_slot 0) demo_info None)
      (λ a st, if 1 =? 0 then st.2 = [] ++ [Ev (Recv endpoint_cptr)] else
         ∃ tag t msg, Some 24577 = Some tag ∧
           st.2 = [Ev (SaveCaller (demo_slot 0)); Ev (Sync_mutex_lock lock_global);
                   Ev (Signal consumer_list); Ev (Sync_mutex_unlock lock_global)] ++
                  sel4_reply_events demo_cfg (demo_slot 0) tag t msg) (demo_srv, []).
Proof.
  exact (sel4_loop_answers_once demo_cfg (sel4_cp_process_message demo_cfg 1) (demo_slot 0)
           demo_info None demo_srv [] (or_introl eq_refl)).
Defined.
