(* ===== verification/Sel4Buffer.v ===== *)
(** Producers and consumers on kernel threads, step by step: the [PRODUCER]
    and [CONSUMER] cases of the [SEL4_THREAD] variant of [process_message]
    ([main.c]), with [sync_mutex_lock] and [sync_mutex_unlock] expanded into
    the code of [sync/mutex.h], [sync/bin_sem.h], [sync/bin_sem_bare.h] and
    [sync/atomic.h], and [seL4_Wait]/[seL4_Signal] into what the kernel's
    notification objects do ([receiveSignal]/[sendSignal]).

    Any number of server threads run; every access to a shared variable and
    every system call is one atomic step, and any thread may take the next
    step: the kernel preempts.  The machine is executable, one thread at a
    time ([step_thread]); [step] lets any thread move and requests arrive. *)

From S2P Require Import Prelude.

(** ** Notification objects

    A notification no thread is bound to is idle, has a queue of waiting
    threads, or is active; badges do not matter here. *)
Inductive ntfn := NIdle | NWaiting (t : nat) (q : list nat) | NActive.

(** [seL4_Signal]: the new state and the thread it releases. *)
Definition ntfn_signal (n : ntfn) : ntfn * option nat :=
  match n with
  | NIdle => (NActive, None)
  | NWaiting t [] => (NIdle, Some t)
  | NWaiting t (t' :: q) => (NWaiting t' q, Some t)
  | NActive => (NActive, None)
  end.

(** [seL4_Wait] by thread [i]: the new state and whether it returns at once. *)
Definition ntfn_wait (i : nat) (n : ntfn) : ntfn * bool :=
  match n with
  | NIdle => (NWaiting i [], false)
  | NWaiting t q => (NWaiting t (q ++ [i]), false)
  | NActive => (NIdle, true)
  end.

Definition queue (n : ntfn) : list nat :=
  match n with NWaiting t q => t :: q | _ => [] end.

(** ** Threads *)

Inductive role := Producer | Consumer.

#[export] Instance role_eq_dec : EqDecision role.
Proof. solve_decision. Defined.

(** Inside [sync_bin_sem_bare_wait]: the read and the compare-and-exchange of
    [sync_atomic_decrement_safe], the test of the old value, [seL4_Wait]. *)
Inductive lock_pc := LkRead | LkCas (old : Z) | LkTest (old : Z) | LkWait | LkBlocked.

(** Inside [sync_bin_sem_bare_post]: the atomic increment, the assertion on the
    value, the signal. *)
Inductive unlock_pc := UnAdd | UnAssert (val : Z) | UnSignal (val : Z).

Inductive pc :=
| Locking (l : lock_pc)        (* sync_mutex_lock(&lock_global) *)
| Check                        (* while (buffer == ...) *)
| UnlockWait (u : unlock_pc)   (* sync_mutex_unlock inside the loop *)
| Sleep                        (* seL4_Wait(own list, NULL) *)
| Sleeping
| CountRead                    (* wait_count ++ *)
| CountWrite (v : Z)
| AssertRoom                   (* assert(buffer < buffer_limit) *)
| BufRead                      (* buffer ++, buffer -- *)
| BufWrite (v : Z)
| SignalOther                  (* seL4_Signal(other list) *)
| UnlockDone (u : unlock_pc)   (* the final sync_mutex_unlock *)
| Finished                     (* back in the server loop *)
| Failed.                      (* an assertion failed *)

Record thread := mk_thread { trole : role; tpc : pc }.

Record shared := mk_shared {
  value : Z;               (* lock_global.value *)
  mtx : ntfn;              (* lock_global.notification *)
  pq : ntfn;               (* producer_list *)
  cq : ntfn;               (* consumer_list *)
  buf : Z; limit : Z; waits : Z;
  thr : list thread
}.

Definition set_value v s := mk_shared v (mtx s) (pq s) (cq s) (buf s) (limit s) (waits s) (thr s).
Definition set_mtx n s := mk_shared (value s) n (pq s) (cq s) (buf s) (limit s) (waits s) (thr s).
Definition set_list r n s :=
  match r with
  | Producer => mk_shared (value s) (mtx s) n (cq s) (buf s) (limit s) (waits s) (thr s)
  | Consumer => mk_shared (value s) (mtx s) (pq s) n (buf s) (limit s) (waits s) (thr s)
  end.
Definition list_of r s := match r with Producer => pq s | Consumer => cq s end.
Definition set_buf b s := mk_shared (value s) (mtx s) (pq s) (cq s) b (limit s) (waits s) (thr s).
Definition set_waits w s := mk_shared (value s) (mtx s) (pq s) (cq s) (buf s) (limit s) w (thr s).
Definition set_thr t s := mk_shared (value s) (mtx s) (pq s) (cq s) (buf s) (limit s) (waits s) t.

Definition other (r : role) : role := match r with Producer => Consumer | Consumer => Producer end.

(** The loop condition and the assertion of each case. *)
Definition must_wait (r : role) (s : shared) : bool :=
  match r with Producer => buf s =? limit s | Consumer => buf s =? 0 end.
Definition room (r : role) (s : shared) : bool :=
  match r with Producer => buf s <? limit s | Consumer => 0 <? buf s end.
Definition delta (r : role) : Z := match r with Producer => 1 | Consumer => -1 end.

(** Thread [j], which was blocked, continues at [p]. *)
Definition wake (p : pc) (j : option nat) (s : shared) : shared :=
  match j with
  | None => s
  | Some j => set_thr (alter (λ t, mk_thread (trole t) p) j (thr s)) s
  end.

(** The atomic step inside [sync_mutex_lock]; [sync_mutex_lock] returns -1 when
    the counter is exhausted, and the caller ignores it. *)
Definition lock_step (spurious : bool) (i : nat) (l : lock_pc) (s : shared)
    : option (shared * pc) :=
  match l with
  | LkRead =>
    Some (s, if value s =? INT_MIN then Check else Locking (LkCas (value s)))
  | LkCas old =>
    if (value s =? old) && negb spurious
    then Some (set_value (old - 1) s, Locking (LkTest old))
    else Some (s, Locking LkRead)
  | LkTest old => Some (s, if old <=? 0 then Locking LkWait else Check)
  | LkWait =>
    let '(n, now) := ntfn_wait i (mtx s) in
    Some (set_mtx n s, if now then Check else Locking LkBlocked)
  | LkBlocked => None
  end.

(** The atomic step inside [sync_mutex_unlock], as part of [at_pc], before [next]. *)
Definition unlock_step (at_pc : unlock_pc → pc) (next : pc) (u : unlock_pc) (s : shared)
    : shared * pc :=
  match u with
  | UnAdd => (set_value (value s + 1) s, at_pc (UnAssert (value s + 1)))
  | UnAssert val => (s, if value s <=? 1 then at_pc (UnSignal val) else Failed)
  | UnSignal val =>
    if val <=? 0
    then let '(n, j) := ntfn_signal (mtx s) in (wake Check j (set_mtx n s), next)
    else (s, next)
  end.

(** The step of thread [i] at program point [p]. *)
Definition pc_step (spurious : bool) (i : nat) (r : role) (p : pc) (s : shared)
    : option (shared * pc) :=
  match p with
  | Locking l => lock_step spurious i l s
  | Check => Some (s, if must_wait r s then UnlockWait UnAdd else AssertRoom)
  | UnlockWait u => Some (unlock_step UnlockWait Sleep u s)
  | Sleep =>
    let '(n, now) := ntfn_wait i (list_of r s) in
    Some (set_list r n s, if now then CountRead else Sleeping)
  | Sleeping => None
  | CountRead => Some (s, CountWrite (waits s))
  | CountWrite v => Some (set_waits (v + 1) s, Locking LkRead)
  | AssertRoom => Some (s, if room r s then BufRead else Failed)
  | BufRead => Some (s, BufWrite (buf s))
  | BufWrite v => Some (set_buf (v + delta r) s, SignalOther)
  | SignalOther =>
    let '(n, j) := ntfn_signal (list_of (other r) s) in
    Some (wake CountRead j (set_list (other r) n s), UnlockDone UnAdd)
  | UnlockDone u => Some (unlock_step UnlockDone Finished u s)
  | Finished => None
  | Failed => None
  end.

Definition step_thread (spurious : bool) (i : nat) (s : shared) : option shared :=
  match thr s !! i with
  | None => None
  | Some t =>
    match pc_step spurious i (trole t) (tpc t) s with
    | None => None
    | Some (s', p) => Some (set_thr (<[i := mk_thread (trole t) p]> (thr s')) s')
    end
  end.

(** A thread back in the server loop receives the next request. *)
Definition request (i : nat) (r : role) (s : shared) : option shared :=
  match thr s !! i with
  | Some (mk_thread _ Finished) => Some (set_thr (<[i := mk_thread r (Locking LkRead)]> (thr s)) s)
  | _ => None
  end.

Inductive step : shared → shared → Prop :=
| step_run spurious i s s' : step_thread spurious i s = Some s' → step s s'
| step_request i r s s' : request i r s = Some s' → step s s'.

(** [sel4_threads_initial]: the mutex is free, the lists idle, [n] threads wait
    for requests and the buffer is empty. *)
Definition initial (n : nat) (lim : Z) : shared :=
  mk_shared 1 NIdle NIdle NIdle 0 lim 0 (replicate n (mk_thread Producer Finished)).

Inductive reachable (n : nat) (lim : Z) : shared → Prop :=
| reach_init : reachable n lim (initial n lim)
| reach_step s s' : reachable n lim s → step s s' → reachable n lim s'.

(** ** Schedules

    An action names the thread that moves; running a list of actions gives an
    executable account of one interleaving. *)

Inductive action := Run (i : nat) | Request (i : nat) (r : role).

Definition act (a : action) (s : shared) : option shared :=
  match a with Run i => step_thread false i s | Request i r => request i r s end.

Definition run (sched : list action) (s : shared) : option shared :=
  foldl (λ o a, o ≫= act a) (Some s) sched.

(** Thread [i] takes [k] steps. *)
Definition steps (i k : nat) : list action := replicate k (Run i).

Lemma run_cons a sched s s' :
  run (a :: sched) s = Some s' → ∃ s1, act a s = Some s1 ∧ run sched s1 = Some s'.
Proof.
  unfold run. simpl. destruct (act a s) as [s1|]; [eauto|].
  intros H. exfalso. induction sched as [|b sched IH]; [done|exact (IH H)].
Qed.

Lemma run_reachable n lim sched s s' :
  reachable n lim s → run sched s = Some s' → reachable n lim s'.
Proof.
  revert s. induction sched as [|a sched IH]; intros s Hr Hrun.
  - injection Hrun as <-. done.
  - apply run_cons in Hrun as (s1 & Ha & Hrun). eapply IH; [|done].
    eapply reach_step; [done|]. destruct a; eauto using step.
Qed.

(** ** Counting threads by what they do *)

Definition count (f : pc → bool) (l : list thread) : Z :=
  foldr (λ t z, Z.b2z (f (tpc t)) + z) 0 l.

Lemma count_nonneg f l : 0 ≤ count f l.
Proof. induction l as [|t l IH]; simpl; [lia|]. destruct (f (tpc t)); simpl; lia. Qed.

Lemma count_insert f l i t t' :
  l !! i = Some t →
  count f (<[i := t']> l) = count f l - Z.b2z (f (tpc t)) + Z.b2z (f (tpc t')).
Proof.
  revert i. induction l as [|u l IH]; intros [|i] Hi; simplify_eq/=; [lia|].
  rewrite (IH _ Hi). lia.
Qed.

Lemma count_lookup f l i t : l !! i = Some t → Z.b2z (f (tpc t)) ≤ count f l.
Proof.
  revert i. induction l as [|u l IH]; intros [|i] Hi; simplify_eq/=.
  - pose proof (count_nonneg f l). lia.
  - specialize (IH _ Hi). destruct (f (tpc u)); simpl; lia.
Qed.

Lemma count_lookup_two f l i j t u :
  l !! i = Some t → l !! j = Some u → i ≠ j →
  Z.b2z (f (tpc t)) + Z.b2z (f (tpc u)) ≤ count f l.
Proof.
  revert i j. induction l as [|v l IH]; intros [|i] [|j] Hi Hj Hn; simplify_eq/=.
  - pose proof (count_lookup f _ _ _ Hj). lia.
  - pose proof (count_lookup f _ _ _ Hi). lia.
  - pose proof (IH i j Hi Hj ltac:(congruence)). destruct (f (tpc v)); simpl; lia.
Qed.

Lemma count_pos f l : 0 < count f l → ∃ i t, l !! i = Some t ∧ f (tpc t) = true.
Proof.
  induction l as [|t l IH]; simpl; [lia|]. intros H.
  destruct (f (tpc t)) eqn:E; [by exists 0%nat, t|].
  destruct IH as (i & u & Hi & Hu); [simpl in H; lia|]. by exists (S i), u.
Qed.

Lemma count_length f g l :
  (∀ p, f p && g p = false) → count f l + count g l ≤ Z.of_nat (length l).
Proof.
  intros H. induction l as [|t l IH]; simpl; [lia|].
  specialize (H (tpc t)). destruct (f (tpc t)), (g (tpc t)); simpl in *; try done; lia.
Qed.

Lemma count_replicate f n t : f (tpc t) = false → count f (replicate n t) = 0.
Proof. intros H. induction n; simpl; [done|]. rewrite H, IHn. done. Qed.

(** ** Queues and the threads that sleep in them *)

(** [q] lists, once each, the threads of [l] that satisfy [P]. *)
Definition waiters (P : thread → Prop) (q : list nat) (l : list thread) : Prop :=
  NoDup q ∧ ∀ j, j ∈ q ↔ ∃ t, l !! j = Some t ∧ P t.

Lemma waiters_keep P q l i t t' :
  waiters P q l → l !! i = Some t → (P t ↔ P t') → waiters P q (<[i := t']> l).
Proof.
  intros [Hn Hq] Hi Ht. split; [done|]. intros j. rewrite Hq.
  destruct (decide (i = j)) as [->|Hne].
  - rewrite list_lookup_insert_eq by eauto using lookup_lt_Some.
    rewrite Hi. naive_solver.
  - by rewrite list_lookup_insert_ne.
Qed.

Lemma waiters_add P q l i t t' :
  waiters P q l → l !! i = Some t → ¬ P t → P t' → waiters P (q ++ [i]) (<[i := t']> l).
Proof.
  intros [Hn Hq] Hi Ht Ht'.
  assert (Hni : i ∉ q) by (rewrite Hq; naive_solver).
  split.
  - apply NoDup_app. split; [done|]. split; [set_solver|apply NoDup_singleton].
  - intros j. rewrite elem_of_app, list_elem_of_singleton.
    destruct (decide (i = j)) as [->|Hne].
    + rewrite list_lookup_insert_eq by eauto using lookup_lt_Some. naive_solver.
    + rewrite list_lookup_insert_ne by done. rewrite <- Hq. naive_solver.
Qed.

Lemma waiters_pop P q l j t' :
  waiters P (j :: q) l → ¬ P t' → waiters P q (<[j := t']> l).
Proof.
  intros [Hn Hq] Ht'. apply NoDup_cons in Hn as [Hj Hn]. split; [done|]. intros k.
  destruct (decide (j = k)) as [->|Hne].
  - assert (is_Some (l !! k)) as [u Hu].
    { destruct (proj1 (Hq k)) as (u & Hu & _); [set_solver|]. by rewrite Hu. }
    rewrite list_lookup_insert_eq by eauto using lookup_lt_Some. naive_solver.
  - rewrite list_lookup_insert_ne by done. rewrite <- Hq, elem_of_cons. naive_solver.
Qed.

Lemma waiters_head P j q l : waiters P (j :: q) l → ∃ t, l !! j = Some t ∧ P t.
Proof. intros [_ Hq]. apply Hq. set_solver. Qed.

Lemma waiters_none P l : (∀ i t, l !! i = Some t → ¬ P t) → waiters P [] l.
Proof. intros H. split; [constructor|]. intros j. split; [set_solver|]. naive_solver. Qed.

(** ** The invariant *)

(** A thread that owns the mutex, one that has asked for it and not got it
    yet, and one that has released it and still has to signal the next. *)
Definition holds (p : pc) : bool :=
  match p with
  | Locking (LkTest old) => 0 <? old
  | Check | AssertRoom | BufRead | BufWrite _ | SignalOther => true
  | UnlockWait UnAdd | UnlockDone UnAdd => true
  | _ => false
  end.

Definition wants (p : pc) : bool :=
  match p with
  | Locking (LkTest old) => old <=? 0
  | Locking LkWait | Locking LkBlocked => true
  | _ => false
  end.

Definition owes_signal (p : pc) : bool :=
  match p with
  | UnlockWait (UnAssert val) | UnlockDone (UnAssert val)
  | UnlockWait (UnSignal val) | UnlockDone (UnSignal val) => val <=? 0
  | _ => false
  end.

Definition active (n : ntfn) : Z := match n with NActive => 1 | _ => 0 end.

(** The hand-over tokens of the mutex: its owner, a pending signal, or a
    signal stored in the notification. *)
Definition tokens (s : shared) : Z :=
  count holds (thr s) + count owes_signal (thr s) + active (mtx s).

Definition blocked (t : thread) : Prop := tpc t = Locking LkBlocked.
Definition asleep (r : role) (t : thread) : Prop := t = mk_thread r Sleeping.

(** What a thread knows of the buffer while it owns the mutex. *)
Definition local_ok (s : shared) (t : thread) : Prop :=
  match tpc t with
  | AssertRoom | BufRead => room (trole t) s = true
  | BufWrite v => room (trole t) s = true ∧ v = buf s
  | Failed => False
  | _ => True
  end.

Record inv (n : nat) (lim : Z) (s : shared) : Prop := {
  inv_len : length (thr s) = n;
  inv_limit : limit s = lim;
  inv_value : value s = 1 - (count holds (thr s) + count wants (thr s));
  inv_one : tokens s ≤ 1;
  inv_wanted : 0 < count wants (thr s) → tokens s = 1;
  inv_spare : count owes_signal (thr s) + active (mtx s) ≤ count wants (thr s);
  inv_mtx : waiters blocked (queue (mtx s)) (thr s);
  inv_lists : ∀ r, waiters (asleep r) (queue (list_of r s)) (thr s);
  inv_buf : 0 ≤ buf s ≤ lim;
  inv_local : ∀ i t, thr s !! i = Some t → local_ok s t
}.

Lemma inv_initial n lim : 0 ≤ lim → inv n lim (initial n lim).
Proof.
  intros Hl.
  assert (Ht : ∀ i t, thr (initial n lim) !! i = Some t → t = mk_thread Producer Finished)
    by (intros i t; simpl; rewrite lookup_replicate; naive_solver).
  split; simpl; try done; try rewrite !count_replicate by done; try (unfold tokens; simpl);
    rewrite ?count_replicate by done; simpl; try lia.
  - apply length_replicate.
  - apply waiters_none. intros i t Hi. by rewrite (Ht i t Hi).
  - intros r. destruct r; apply waiters_none; intros i t Hi; by rewrite (Ht i t Hi).
  - intros i t Hi. by rewrite (Ht i t Hi).
Qed.

(** *** Every step preserves it *)

Lemma wake_insert p (j : nat) u (l : list thread) :
  l !! j = Some u →
  alter (λ t, mk_thread (trole t) p) j l = <[j := mk_thread (trole u) p]> l.
Proof.
  intros Hj. apply list_eq. intros k. destruct (decide (j = k)) as [->|Hne].
  - rewrite list_lookup_alter_eq, list_lookup_insert_eq by eauto using lookup_lt_Some.
    by rewrite Hj.
  - by rewrite list_lookup_alter_ne, list_lookup_insert_ne.
Qed.

Lemma local_ok_insert s s' (i : nat) t' (l : list thread) :
  (∀ k u, l !! k = Some u → k ≠ i → local_ok s u) →
  buf s' = buf s → limit s' = limit s → local_ok s' t' →
  ∀ k u, <[i := t']> l !! k = Some u → local_ok s' u.
Proof.
  intros Hl Hb Hlim Ht k u Hk. destruct (decide (i = k)) as [->|Hne].
  - pose proof (lookup_lt_Some _ _ _ Hk) as Hlt. rewrite length_insert in Hlt.
    rewrite list_lookup_insert_eq in Hk by done. by simplify_eq.
  - rewrite list_lookup_insert_ne in Hk by done. specialize (Hl _ _ Hk ltac:(congruence)).
    unfold local_ok, room in *. by rewrite Hb, Hlim.
Qed.

(** Two threads never own the mutex together. *)
Lemma inv_exclusive n lim s i j t u :
  inv n lim s → thr s !! i = Some t → thr s !! j = Some u →
  holds (tpc t) = true → holds (tpc u) = true → i = j.
Proof.
  intros I Hi Hj Ht Hu. destruct (decide (i = j)) as [|Hne]; [done|].
  pose proof (count_lookup_two holds _ _ _ _ _ Hi Hj Hne) as Hc.
  rewrite Ht, Hu in Hc. pose proof (inv_one _ _ _ I) as Ho. unfold tokens in Ho.
  pose proof (count_nonneg owes_signal (thr s)). simpl in Hc.
  destruct (mtx s); simpl in Ho; lia.
Qed.

(** The counter cannot run out while there are fewer than [2^31] threads. *)
Lemma inv_value_bounds n lim s :
  inv n lim s → Z.of_nat n < 2147483648 → INT_MIN < value s ≤ 1.
Proof.
  intros I Hn. rewrite (inv_value _ _ _ I).
  assert (Hd : ∀ p, holds p && wants p = false).
  { intros [[]| |[]| | | | | | | | |[]| |]; try done. simpl.
    destruct (Z.ltb_spec 0 old), (Z.leb_spec old 0); (done || lia). }
  pose proof (count_length holds wants (thr s) Hd) as Hc. rewrite (inv_len _ _ _ I) in Hc.
  pose proof (count_nonneg holds (thr s)). pose proof (count_nonneg wants (thr s)).
  unfold INT_MIN. lia.
Qed.

(** The step of one thread that wakes nobody: what remains to be checked. *)
Lemma inv_move n lim s s' i t t' :
  inv n lim s → thr s !! i = Some t →
  thr s' = <[i := t']> (thr s) →
  limit s' = limit s → buf s' = buf s →
  value s' + Z.b2z (holds (tpc t')) + Z.b2z (wants (tpc t'))
    = value s + Z.b2z (holds (tpc t)) + Z.b2z (wants (tpc t)) →
  tokens s' ≤ 1 →
  (0 < count wants (thr s') → tokens s' = 1) →
  count owes_signal (thr s') + active (mtx s') ≤ count wants (thr s') →
  waiters blocked (queue (mtx s')) (thr s') →
  (∀ r, waiters (asleep r) (queue (list_of r s')) (thr s')) →
  local_ok s' t' →
  inv n lim s'.
Proof.
  intros I Hi Hthr Hlim Hbuf Hval Hone Hwant Hspare Hm Hls Hloc. destruct I. split; try done.
  - rewrite Hthr, length_insert. done.
  - congruence.
  - rewrite Hthr, !(count_insert _ _ _ _ _ Hi). simpl. lia.
  - by rewrite Hbuf.
  - rewrite Hthr. apply (local_ok_insert s); eauto.
Qed.

Lemma queue_wait i n n' now :
  ntfn_wait i n = (n', now) →
  (now = true ∧ n = NActive ∧ n' = NIdle) ∨
  (now = false ∧ active n = 0 ∧ active n' = 0 ∧ queue n' = queue n ++ [i]).
Proof. destruct n; intros [= <- <-]; simpl; auto 10. Qed.

Lemma queue_signal n n' j :
  ntfn_signal n = (n', j) →
  (j = None ∧ queue n = [] ∧ n' = NActive) ∨
  (∃ k, j = Some k ∧ active n = 0 ∧ active n' = 0 ∧ queue n = k :: queue n').
Proof. destruct n as [|k [|k' q]|]; intros [= <- <-]; simpl; eauto 10. Qed.

Ltac count_step Hi :=
  unfold tokens in *; simpl; rewrite ?(count_insert _ _ _ _ _ Hi); simpl.

Ltac same_queues Hi I :=
  match goal with
  | |- waiters blocked _ _ => apply (waiters_keep _ _ _ _ _ _ (inv_mtx _ _ _ I) Hi)
  | |- ∀ r, waiters (asleep r) _ _ =>
    let r := fresh "r" in
    intros r; destruct r; simpl;
    [apply (waiters_keep _ _ _ _ _ _ (inv_lists _ _ _ I Producer) Hi)
    |apply (waiters_keep _ _ _ _ _ _ (inv_lists _ _ _ I Consumer) Hi)]
  end; unfold blocked, asleep; simpl; split; congruence.

Ltac facts I Hi :=
  pose proof (inv_value _ _ _ I); pose proof (inv_one _ _ _ I); pose proof (inv_wanted _ _ _ I);
  pose proof (inv_spare _ _ _ I);
  pose proof (count_lookup holds _ _ _ Hi); pose proof (count_lookup wants _ _ _ Hi);
  pose proof (count_lookup owes_signal _ _ _ Hi).

(** Steps inside [sync_mutex_lock]. *)
Lemma inv_lock_step n lim s spurious i t l s1 p :
  Z.of_nat n < 2147483648 → inv n lim s → thr s !! i = Some t → tpc t = Locking l →
  lock_step spurious i l s = Some (s1, p) →
  inv n lim (set_thr (<[i := mk_thread (trole t) p]> (thr s1)) s1).
Proof.
  intros Hn I Hi Hp Hs. pose proof (inv_value_bounds _ _ _ I Hn) as [Hv1 Hv2].
  facts I Hi. destruct t as [r q]; simpl in *; subst q.
  destruct l as [|old|old| |]; simpl in *.
  - destruct (Z.eqb_spec (value s) INT_MIN); [lia|]. injection Hs as <- <-.
    eapply (inv_move _ _ s); eauto; try same_queues Hi I; count_step Hi; try lia; done.
  - destruct ((value s =? old) && negb spurious) eqn:E; injection Hs as <- <-.
    + apply andb_prop in E as [E _]. apply Z.eqb_eq in E. subst old.
      eapply (inv_move _ _ s); eauto; try same_queues Hi I; try done; count_step Hi;
        destruct (Z.ltb_spec 0 (value s)), (Z.leb_spec (value s) 0); simpl; try lia.
      all: destruct (mtx s); simpl in *; lia.
    + eapply (inv_move _ _ s); eauto; try same_queues Hi I; count_step Hi; try lia; done.
  - injection Hs as <- <-.
    destruct (Z.ltb_spec 0 old), (Z.leb_spec old 0); simpl in *; try lia;
    (eapply (inv_move _ _ s); eauto; try same_queues Hi I; try done; count_step Hi;
      destruct (Z.ltb_spec 0 old), (Z.leb_spec old 0); simpl; lia).
  - destruct (ntfn_wait i (mtx s)) as [n' now] eqn:E.
    apply queue_wait in E as [(-> & Hm & ->)|(-> & Ha & Ha' & Hq)]; injection Hs as <- <-.
    + eapply (inv_move _ _ s); eauto; try done; try same_queues Hi I; count_step Hi;
        rewrite ?Hm in *; simpl in *; try lia.
      pose proof (inv_mtx _ _ _ I) as Hw. rewrite Hm in Hw. 
      apply (waiters_keep _ _ _ _ _ _ Hw Hi). unfold blocked; simpl; split; congruence.
    + eapply (inv_move _ _ s); eauto; try done; try same_queues Hi I; count_step Hi;
        rewrite ?Ha, ?Ha' in *; simpl in *; try lia.
      rewrite Hq. by apply (waiters_add _ _ _ _ _ _ (inv_mtx _ _ _ I) Hi).
  - done.
Qed.

(** The step of a thread that wakes thread [j], which continues at [pj]. *)
Lemma inv_move_wake n lim s s' i t p j u pj :
  inv n lim s → thr s !! i = Some t → thr s !! j = Some u → i ≠ j →
  thr s' = <[i := mk_thread (trole t) p]> (<[j := mk_thread (trole u) pj]> (thr s)) →
  limit s' = limit s → buf s' = buf s → value s' = value s →
  Z.b2z (holds p) + Z.b2z (wants p) + Z.b2z (holds pj) + Z.b2z (wants pj)
    = Z.b2z (holds (tpc t)) + Z.b2z (wants (tpc t))
      + Z.b2z (holds (tpc u)) + Z.b2z (wants (tpc u)) →
  tokens s' ≤ 1 →
  (0 < count wants (thr s') → tokens s' = 1) →
  count owes_signal (thr s') + active (mtx s') ≤ count wants (thr s') →
  waiters blocked (queue (mtx s')) (thr s') →
  (∀ r, waiters (asleep r) (queue (list_of r s')) (thr s')) →
  local_ok s' (mk_thread (trole t) p) → local_ok s' (mk_thread (trole u) pj) →
  inv n lim s'.
Proof.
  intros I Hi Hj Hij Hthr Hlim Hbuf Hval Hsum Hone Hwant Hspare Hm Hls Ht Hu.
  assert (Hi' : <[j := mk_thread (trole u) pj]> (thr s) !! i = Some t)
    by (by rewrite list_lookup_insert_ne).
  destruct I. split; try done.
  - rewrite Hthr, !length_insert. done.
  - congruence.
  - rewrite Hthr, !(count_insert _ _ _ _ _ Hi'), !(count_insert _ _ _ _ _ Hj). simpl. lia.
  - by rewrite Hbuf.
  - rewrite Hthr. intros k v Hk. destruct (decide (i = k)) as [->|Hne].
    + rewrite list_lookup_insert_eq in Hk by eauto using lookup_lt_Some. by simplify_eq.
    + rewrite list_lookup_insert_ne in Hk by done.
      eapply (local_ok_insert s); eauto.
Qed.

Lemma waiters_keep_two P q (l : list thread) (i j : nat) t u t' u' :
  waiters P q l → l !! i = Some t → l !! j = Some u → i ≠ j →
  (P t ↔ P t') → (P u ↔ P u') → waiters P q (<[i := t']> (<[j := u']> l)).
Proof.
  intros Hw Hi Hj Hij Ht Hu. eapply waiters_keep; [|by rewrite list_lookup_insert_ne|done].
  eapply waiters_keep; eauto.
Qed.

Lemma count_insert_two f (l : list thread) (i j : nat) t u t' u' :
  l !! i = Some t → l !! j = Some u → i ≠ j →
  count f (<[i := t']> (<[j := u']> l)) =
    count f l - Z.b2z (f (tpc u)) + Z.b2z (f (tpc u'))
    - Z.b2z (f (tpc t)) + Z.b2z (f (tpc t')).
Proof.
  intros Hi Hj Hij. rewrite (count_insert f _ i t), (count_insert f _ j u); [lia|done|].
  by rewrite list_lookup_insert_ne.
Qed.

Ltac wake_step Hi Hj Hij :=
  unfold tokens in *; simpl; rewrite ?(count_insert_two _ _ _ _ _ _ _ _ Hi Hj Hij); simpl.

(** Steps inside [sync_mutex_unlock], at either of its two places. *)
Lemma inv_unlock_step n lim s i t at_pc next u s1 p :
  (at_pc, next) ∈ [(UnlockWait, Sleep); (UnlockDone, Finished)] →
  Z.of_nat n < 2147483648 → inv n lim s → thr s !! i = Some t → tpc t = at_pc u →
  unlock_step at_pc next u s = (s1, p) →
  inv n lim (set_thr (<[i := mk_thread (trole t) p]> (thr s1)) s1).
Proof.
  intros Hpl Hn I Hi Hp Hs. pose proof (inv_value_bounds _ _ _ I Hn) as [Hv1 Hv2].
  facts I Hi. destruct t as [r q]; simpl in *; subst q.
  rewrite elem_of_cons, list_elem_of_singleton in Hpl.
  destruct u as [|val|val]; simpl in *.
  - injection Hs as <- <-.
    destruct Hpl as [[= -> ->]|[= -> ->]];
      (eapply (inv_move _ _ s); eauto; try same_queues Hi I; try done; count_step Hi;
       simpl in *; destruct (Z.leb_spec (value s + 1) 0); simpl in *; try lia;
       destruct (mtx s); simpl in *; lia).
  - injection Hs as <- <-. destruct (Z.leb_spec (value s) 1); [|lia].
    destruct Hpl as [[= -> ->]|[= -> ->]];
      (eapply (inv_move _ _ s); eauto; try same_queues Hi I; try done; count_step Hi;
       simpl in *; destruct (val <=? 0); simpl in *; lia).
  - destruct (Z.leb_spec val 0) as [Hval|Hval].
    2:{ injection Hs as <- <-. destruct Hpl as [[= -> ->]|[= -> ->]];
        (eapply (inv_move _ _ s); eauto; try same_queues Hi I; try done; count_step Hi;
         simpl in *; destruct (Z.leb_spec val 0); simpl in *; lia). }
    destruct (ntfn_signal (mtx s)) as [n' j] eqn:E.
    pose proof (inv_mtx _ _ _ I) as Hw.
    apply queue_signal in E as [(-> & Hq & ->)|(j' & -> & Ha & Ha' & Hq)]; injection Hs as <- <-;
      rewrite Hq in Hw.
    + destruct Hpl as [[= -> ->]|[= -> ->]];
      (eapply (inv_move _ _ s); eauto; try same_queues Hi I; try done;
       [count_step Hi..|];
       try (apply (waiters_keep _ _ _ _ _ _ Hw Hi); unfold blocked; simpl; split; congruence);
       simpl in *; destruct (Z.leb_spec val 0); simpl in *; try lia;
       destruct (mtx s); simpl in *; lia).
    + destruct (waiters_head _ _ _ _ Hw) as ([ru pu] & Hj & Hu). unfold blocked in Hu; simpl in Hu.
      subst pu.
      assert (Hij : i ≠ j') by (intros ->; rewrite Hi in Hj; destruct Hpl; simplify_eq).
      rewrite (wake_insert _ _ _ _ Hj). simpl.
      assert (Hi' : <[j' := mk_thread ru Check]> (thr s) !! i = Some (mk_thread r (at_pc (UnSignal val))))
        by (by rewrite list_lookup_insert_ne).
      pose proof (waiters_pop blocked _ _ j' (mk_thread ru Check) Hw ltac:(done)) as Hw'.
      destruct Hpl as [[= -> ->]|[= -> ->]];
      (eapply (inv_move_wake _ _ s _ i _ _ j' _ _ I Hi Hj Hij); [reflexivity|..]; try done; wake_step Hi Hj Hij;
       simpl in *; destruct (Z.leb_spec val 0); simpl in *; try lia;
       [by apply (waiters_keep _ _ _ _ _ _ Hw' Hi')|];
       intros rr; apply (waiters_keep_two _ _ _ _ _ _ _ _ _ (inv_lists _ _ _ I rr) Hi Hj Hij);
       unfold asleep; split; congruence).
Qed.


(** Waiting on one's own list, and signalling the other one. *)
Lemma inv_sleep n lim s i t n' now :
  inv n lim s → thr s !! i = Some t → tpc t = Sleep →
  ntfn_wait i (list_of (trole t) s) = (n', now) →
  inv n lim (set_thr (<[i := mk_thread (trole t) (if now then CountRead else Sleeping)]> (thr s))
               (set_list (trole t) n' s)).
Proof.
  intros I Hi Hp E. facts I Hi. destruct t as [r q]; simpl in *; subst q.
  pose proof (inv_lists _ _ _ I) as Hw.
  assert (Hlists : ∀ x, waiters (asleep x)
    (queue (list_of x (set_list r n' s)))
    (<[i := mk_thread r (if now then CountRead else Sleeping)]> (thr s))).
  { intros x. apply queue_wait in E as [(-> & Hn & ->)|(-> & _ & _ & Hq)].
    - assert (Hx : queue (list_of x (set_list r NIdle s)) = queue (list_of x s))
        by (destruct r, x; simpl in *; rewrite ?Hn; done).
      rewrite Hx. apply (waiters_keep _ _ _ _ _ _ (Hw x) Hi). unfold asleep. split; congruence.
    - destruct (decide (x = r)) as [->|Hne].
      + assert (Hx : queue (list_of r (set_list r n' s)) = queue (list_of r s) ++ [i])
          by (by destruct r).
        rewrite Hx. by apply (waiters_add _ _ _ _ _ _ (Hw r) Hi).
      + assert (Hx : queue (list_of x (set_list r n' s)) = queue (list_of x s))
          by (by destruct r, x).
        rewrite Hx. apply (waiters_keep _ _ _ _ _ _ (Hw x) Hi). unfold asleep. split; congruence. }
  eapply (inv_move _ _ s); eauto; destruct now, r; simpl; try done; try same_queues Hi I;
    count_step Hi; simpl in *; lia.
Qed.

Lemma inv_signal n lim s i t n' j :
  inv n lim s → thr s !! i = Some t → tpc t = SignalOther →
  ntfn_signal (list_of (other (trole t)) s) = (n', j) →
  let s1 := wake CountRead j (set_list (other (trole t)) n' s) in
  inv n lim (set_thr (<[i := mk_thread (trole t) (UnlockDone UnAdd)]> (thr s1)) s1).
Proof.
  intros I Hi Hp E. facts I Hi. destruct t as [r q]; simpl in *; subst q.
  assert (Hx : ∀ x, x ≠ other r → list_of x (set_list (other r) n' s) = list_of x s)
    by (by intros [] ?; destruct r).
  assert (Ho : list_of (other r) (set_list (other r) n' s) = n') by (by destruct r).
  pose proof (inv_lists _ _ _ I (other r)) as Hw.
  apply queue_signal in E as [(-> & Hq & ->)|(k & -> & _ & _ & Hq)]; rewrite Hq in Hw; simpl.
  - eapply (inv_move _ _ s); eauto; try (by destruct r);
      try (destruct r; same_queues Hi I); try (destruct r; count_step Hi; simpl in *; lia).
    intros x. change (waiters (asleep x) (queue (list_of x (set_list (other r) NActive s)))
      (<[i:=mk_thread r (UnlockDone UnAdd)]> (thr (set_list (other r) NActive s)))).
    replace (thr (set_list (other r) NActive s)) with (thr s) by (by destruct r).
    destruct (decide (x = other r)) as [->|Hne].
    + rewrite Ho. apply (waiters_keep _ _ _ _ _ _ Hw Hi). unfold asleep. split; congruence.
    + rewrite Hx by done. apply (waiters_keep _ _ _ _ _ _ (inv_lists _ _ _ I x) Hi).
      unfold asleep. split; congruence.
  - destruct (waiters_head _ _ _ _ Hw) as (u & Hk & Hu). unfold asleep in Hu. subst u.
    assert (Hik : i ≠ k) by congruence.
    replace (thr (set_list (other r) n' s)) with (thr s) by (by destruct r).
    rewrite (wake_insert _ _ _ _ Hk). simpl.
    pose proof (waiters_pop _ _ _ k (mk_thread (other r) CountRead) Hw ltac:(done)) as Hw'.
    eapply (inv_move_wake _ _ s _ i _ _ k _ _ I Hi Hk Hik); [reflexivity|..]; try (by destruct r);
      try (destruct r; wake_step Hi Hk Hik; simpl in *; lia).
    + replace (mtx _) with (mtx s) by (by destruct r).
      apply (waiters_keep_two _ _ _ _ _ _ _ _ _ (inv_mtx _ _ _ I) Hi Hk Hik);
        unfold blocked; simpl; split; congruence.
    + intros x. change (waiters (asleep x) (queue (list_of x (set_list (other r) n' s)))
        (<[i:=mk_thread r (UnlockDone UnAdd)]> (<[k:=mk_thread (other r) CountRead]> (thr s)))).
      destruct (decide (x = other r)) as [->|Hne].
      * rewrite Ho. eapply (waiters_keep _ _ _ _ _ _ Hw').
        -- by rewrite list_lookup_insert_ne.
        -- unfold asleep. split; congruence.
      * rewrite Hx by done.
        apply (waiters_keep_two _ _ _ _ _ _ _ _ _ (inv_lists _ _ _ I x) Hi Hk Hik);
          unfold asleep; split; congruence.
Qed.

(** Writing the buffer: the other threads know nothing of it. *)
Lemma inv_buf_write n lim s i t v :
  inv n lim s → thr s !! i = Some t → tpc t = BufWrite v →
  inv n lim (set_thr (<[i := mk_thread (trole t) SignalOther]> (thr s))
               (set_buf (v + delta (trole t)) s)).
Proof.
  intros I Hi Hp. facts I Hi. pose proof (inv_local _ _ _ I i t Hi) as Hl.
  pose proof (inv_buf _ _ _ I) as Hb. pose proof (inv_limit _ _ _ I) as Hlim.
  unfold local_ok in Hl. rewrite Hp in *. destruct Hl as [Hroom ->].
  split; try (count_step Hi; rewrite ?Hp; simpl in *; lia); try done.
  - simpl. rewrite length_insert. apply (inv_len _ _ _ I).
  - apply (waiters_keep _ _ _ _ _ _ (inv_mtx _ _ _ I) Hi). unfold blocked. simpl. split; congruence.
  - intros r. replace (list_of r _) with (list_of r s) by (by destruct r).
    apply (waiters_keep _ _ _ _ _ _ (inv_lists _ _ _ I r) Hi).
    destruct t; unfold asleep; simpl in *; split; congruence.
  - simpl. unfold room in Hroom. destruct (trole t); simpl in *; lia.
  - intros k u Hk. destruct (decide (i = k)) as [->|Hne]; simpl in Hk.
    + rewrite list_lookup_insert_eq in Hk by eauto using lookup_lt_Some. by simplify_eq.
    + rewrite list_lookup_insert_ne in Hk by done.
      pose proof (inv_local _ _ _ I k u Hk) as Hu. unfold local_ok in *.
      destruct (tpc u) eqn:Eu; try done; destruct Hne; 
        eapply (inv_exclusive n lim s); eauto; rewrite ?Hp, ?Eu; done.
Qed.

Lemma inv_step_thread n lim s spurious i s' :
  Z.of_nat n < 2147483648 → inv n lim s → step_thread spurious i s = Some s' → inv n lim s'.
Proof.
  intros Hn I Hs. unfold step_thread in Hs. destruct (thr s !! i) as [t|] eqn:Hi; [|done].
  destruct (pc_step spurious i (trole t) (tpc t) s) as [[s1 p]|] eqn:E; [|done].
  injection Hs as <-. pose proof (inv_local _ _ _ I i t Hi) as Hl. facts I Hi.
  pose proof (inv_buf _ _ _ I) as Hb. pose proof (inv_limit _ _ _ I) as Hlim.
  destruct (tpc t) as [l| |u| | | |v| | |v| |u| |] eqn:Hp; simpl in E; try done.
  - by eapply inv_lock_step.
  - injection E as <- <-. destruct t as [r q]; simpl in *; subst q.
    assert (Hr : must_wait r s = false → room r s = true) by (destruct r; simpl; lia).
    destruct (must_wait r s); 
      (eapply (inv_move _ _ s); eauto; try same_queues Hi I; count_step Hi; simpl in *; try lia; try done).
    by apply Hr.
  - injection E as E. eapply inv_unlock_step; eauto. set_solver.
  - destruct (ntfn_wait i (list_of (trole t) s)) as [n' now] eqn:Ew. injection E as <- <-.
    replace (thr (set_list (trole t) n' s)) with (thr s) by (by destruct (trole t)).
    by apply inv_sleep.
  - injection E as <- <-. destruct t as [r q]; simpl in *; subst q.
    eapply (inv_move _ _ s); eauto; try same_queues Hi I; count_step Hi; simpl in *; try lia; done.
  - injection E as <- <-. destruct t as [r q]; simpl in *; subst q.
    eapply (inv_move _ _ s); eauto; try same_queues Hi I; count_step Hi; simpl in *; try lia; done.
  - injection E as <- <-. destruct t as [r q]; simpl in *; subst q.
    unfold local_ok in Hl; simpl in Hl. rewrite Hl.
    eapply (inv_move _ _ s); eauto; try same_queues Hi I; count_step Hi; simpl in *; try lia; done.
  - injection E as <- <-. destruct t as [r q]; simpl in *; subst q.
    unfold local_ok in Hl; simpl in Hl.
    eapply (inv_move _ _ s); eauto; try same_queues Hi I; count_step Hi; simpl in *; try lia; done.
  - injection E as <- <-. exact (inv_buf_write n lim s i t v I Hi Hp).
  - destruct (ntfn_signal (list_of (other (trole t)) s)) as [n' j] eqn:Es. injection E as <- <-.
    exact (inv_signal n lim s i t n' j I Hi Hp Es).
  - injection E as E. eapply inv_unlock_step; eauto. set_solver.
Qed.

Lemma inv_request n lim s i r s' : inv n lim s → request i r s = Some s' → inv n lim s'.
Proof.
  intros I Hs. unfold request in Hs. destruct (thr s !! i) as [[r0 p0]|] eqn:Hi; [|done].
  destruct p0; try done. injection Hs as <-. facts I Hi.
  eapply (inv_move _ _ s); eauto; try same_queues Hi I; count_step Hi; simpl in *; try lia; done.
Qed.

Lemma inv_reachable n lim s :
  Z.of_nat n < 2147483648 → 0 ≤ lim → reachable n lim s → inv n lim s.
Proof.
  intros Hn Hl. induction 1 as [|s s' _ IH Hstep]; [by apply inv_initial|].
  destruct Hstep; eauto using inv_step_thread, inv_request.
Qed.

(** A thread that owns the mutex, or owes a signal, can always move. *)
Lemma owner_moves s i t :
  thr s !! i = Some t → holds (tpc t) = true ∨ owes_signal (tpc t) = true →
  is_Some (step_thread false i s).
Proof.
  intros Hi Ht. unfold step_thread. rewrite Hi.
  assert (is_Some (pc_step false i (trole t) (tpc t) s)) as [[s1 p] ->]; [|eauto].
  destruct (tpc t) as [l| |u| | | |v| | |v| |u| |]; simpl in *; try (by eauto); try naive_solver.
  - destruct l; simpl in *; eauto; naive_solver.
  - destruct (ntfn_signal _); eauto.
Qed.

Lemma blocked_has_owner n lim s j u :
  inv n lim s → thr s !! j = Some u → tpc u = Locking LkBlocked →
  ∃ i t, thr s !! i = Some t ∧ i ≠ j ∧
    (holds (tpc t) = true ∨ owes_signal (tpc t) = true) ∧ is_Some (step_thread false i s).
Proof.
  intros I Hj Hu.
  pose proof (count_lookup wants _ _ _ Hj) as Hc. rewrite Hu in Hc. simpl in Hc.
  pose proof (inv_wanted _ _ _ I ltac:(lia)) as Ht. unfold tokens in Ht.
  assert (Ha : active (mtx s) = 0).
  { assert (j ∈ queue (mtx s)) by (apply (inv_mtx _ _ _ I); eauto).
    destruct (mtx s); simpl in *; [done..|]. set_solver. }
  assert (∃ i t, thr s !! i = Some t ∧ (holds (tpc t) = true ∨ owes_signal (tpc t) = true))
    as (i & t & Hi & Hc').
  { destruct (Z.lt_ge_cases 0 (count holds (thr s))).
    - destruct (count_pos holds (thr s)) as (i & t & ? & ?); eauto 6.
    - destruct (count_pos owes_signal (thr s)) as (i & t & ? & ?); [lia|]. eauto 6. }
  exists i, t. split; [done|]. split; [|eauto using owner_moves].
  intros ->. rewrite Hj in Hi. simplify_eq. rewrite Hu in Hc'. naive_solver.
Qed.

Lemma pc_stuck i r p s :
  pc_step false i r p s = None →
  p = Locking LkBlocked ∨ p = Sleeping ∨ p = Finished ∨ p = Failed.
Proof.
  destruct p as [l| |u| | | |v| | |v| |u| |]; simpl; try (by intros); auto.
  - destruct l; simpl; try (by intros); auto.
    + by destruct (_ && _).
    + by destruct (ntfn_wait _ _).
  - by destruct (ntfn_wait _ _).
  - by destruct (ntfn_signal _).
Qed.

(** C1: with fewer than [2^31] server threads, under every interleaving of their
    atomic steps, spurious compare-and-exchange failures included: the buffer
    stays within its bounds, no assertion of [process_message] or of the
    semaphore fails, and two threads are never between [sync_mutex_lock] and
    [sync_mutex_unlock] together. *)
Theorem sel4_buffer_safe n lim s :
  Z.of_nat n < 2147483648 → 0 ≤ lim → reachable n lim s →
  0 ≤ buf s ≤ limit s ∧
  (∀ i t, thr s !! i = Some t → tpc t ≠ Failed) ∧
  (∀ i j t u, thr s !! i = Some t → thr s !! j = Some u →
     holds (tpc t) = true → holds (tpc u) = true → i = j).
Proof.
  intros Hn Hl Hr. pose proof (inv_reachable _ _ _ Hn Hl Hr) as I. split; [|split].
  - rewrite (inv_limit _ _ _ I). apply (inv_buf _ _ _ I).
  - intros i t Hi E. pose proof (inv_local _ _ _ I i t Hi) as H. unfold local_ok in H.
    by rewrite E in H.
  - intros i j t u. apply (inv_exclusive _ _ _ _ _ _ _ I).
Qed.

(** C35: the mutex never strands a thread: while a thread is blocked on its
    notification, some other thread owns the mutex or has just released it and
    is about to signal, and that thread can move. *)
Theorem sel4_mutex_progress n lim s j u :
  Z.of_nat n < 2147483648 → 0 ≤ lim → reachable n lim s →
  thr s !! j = Some u → tpc u = Locking LkBlocked →
  ∃ i t, thr s !! i = Some t ∧ i ≠ j ∧
    (holds (tpc t) = true ∨ owes_signal (tpc t) = true) ∧ is_Some (step_thread false i s).
Proof. intros Hn Hl Hr. by apply (blocked_has_owner n lim), inv_reachable. Qed.

(** When no thread can move, every thread is back in the server loop or
    asleep on its list, and the mutex is free: a deadlock can only come from
    the two lists. *)
Theorem sel4_stuck_shape n lim s :
  Z.of_nat n < 2147483648 → 0 ≤ lim → reachable n lim s →
  (∀ i, step_thread false i s = None) →
  value s = 1 ∧ ∀ i t, thr s !! i = Some t → tpc t = Finished ∨ tpc t = Sleeping.
Proof.
  intros Hn Hl Hr Hstuck. pose proof (inv_reachable _ _ _ Hn Hl Hr) as I.
  assert (Hall : ∀ i t, thr s !! i = Some t → tpc t = Finished ∨ tpc t = Sleeping).
  { intros i t Hi. pose proof (Hstuck i) as Hs. unfold step_thread in Hs. rewrite Hi in Hs.
    destruct (pc_step false i (trole t) (tpc t) s) as [[]|] eqn:E; [done|].
    pose proof (inv_local _ _ _ I i t Hi) as Hloc. unfold local_ok in Hloc.
    apply pc_stuck in E as [E|[E|[E|E]]]; auto; [|by rewrite E in Hloc].
    destruct (blocked_has_owner _ _ _ _ _ I Hi E) as (k & _ & _ & _ & _ & [s' Hk]).
    by rewrite Hstuck in Hk. }
  split; [|done].
  assert (Hz : ∀ f, f Finished = false → f Sleeping = false → count f (thr s) = 0).
  { intros f Hf1 Hf2. pose proof (count_nonneg f (thr s)).
    destruct (Z.eq_dec (count f (thr s)) 0) as [|Hne]; [done|].
    destruct (count_pos f (thr s)) as (i & t & Hi & Ht); [lia|].
    destruct (Hall i t Hi) as [E|E]; rewrite E in Ht; congruence. }
  rewrite (inv_value _ _ _ I), !Hz by done. done.
Qed.

(** ** The lists can lose a wake-up

    Between [sync_mutex_unlock] and [seL4_Wait] a thread is on no list, and a
    notification remembers one signal only. *)

(** Threads 0 and 1 consume, 2 and 3 produce: both consumers find the buffer
    empty and release the mutex; both producers then run to the end; the
    consumers go to wait last. *)
Definition lost_wakeup_schedule : list action :=
  [Request 0 Consumer; Request 1 Consumer; Request 2 Producer; Request 3 Producer]
  ++ steps 0 7 ++ steps 1 7 ++ steps 2 11 ++ steps 3 11
  ++ steps 0 1 ++ steps 1 1 ++ steps 0 13.

Definition lost_wakeup_state : shared :=
  default (initial 4 2) (run lost_wakeup_schedule (initial 4 2)).

(** C36: a reachable state in which the buffer holds an item, a consumer sleeps
    on its list, every other thread is back in the server loop, and no thread
    can move: the second producer's signal was lost. *)
Theorem sel4_lost_wakeup :
  reachable 4 2 lost_wakeup_state ∧ buf lost_wakeup_state = 1 ∧
  thr lost_wakeup_state !! 1%nat = Some (mk_thread Consumer Sleeping) ∧
  (∀ spurious i, step_thread spurious i lost_wakeup_state = None).
Proof.
  split; [|split; [|split]].
  - eapply (run_reachable 4 2 lost_wakeup_schedule); [apply reach_init|]. vm_compute. reflexivity.
  - vm_compute. reflexivity.
  - vm_compute. reflexivity.
  - intros sp i. do 4 (destruct i as [|i]; [by destruct sp|]). done.
Qed.

(** The waiting counter is updated outside the mutex: two threads that leave
    their lists together can count one wait. *)
Lemma waits_update_lost :
  ∃ s, run ([Request 0 Consumer; Request 1 Consumer; Request 2 Producer; Request 3 Producer]
      ++ steps 0 8 ++ steps 1 8 ++ steps 2 11 ++ steps 3 11
      ++ steps 0 1 ++ steps 1 1 ++ steps 0 1 ++ steps 1 1) (initial 4 2) = Some s ∧ waits s = 1.
Proof. eexists. split; [vm_compute; reflexivity|reflexivity]. Qed.

(** ** Witnesses *)

(** Thread 0 is inside the critical section and thread 1 blocked on the mutex. *)
Definition contended_schedule : list action :=
  [Request 0 Producer; Request 1 Consumer] ++ steps 0 3 ++ steps 1 4.
Definition contended : shared := default (initial 2 1) (run contended_schedule (initial 2 1)).

Lemma contended_reachable : reachable 2 1 contended.
Proof.
  eapply (run_reachable 2 1 contended_schedule); [apply reach_init|]. vm_compute. reflexivity.
Qed.

Lemma lost_wakeup_state_reachable : reachable 4 2 lost_wakeup_state.
Proof.
  eapply (run_reachable 4 2 lost_wakeup_schedule); [apply reach_init|]. vm_compute. reflexivity.
Qed.

Lemma lost_wakeup_state_stuck : ∀ i, step_thread false i lost_wakeup_state = None.
Proof. intros i. do 4 (destruct i as [|i]; [done|]). done. Qed.

Lemma sel4_buffer_safe_witness : 0 ≤ buf contended ≤ limit contended.
Proof.
  exact (proj1 (sel4_buffer_safe 2 1 contended ltac:(lia) ltac:(lia) contended_reachable)).
Defined.

Lemma sel4_mutex_progress_witness :
  ∃ i t, thr contended !! i = Some t ∧ i ≠ 1%nat ∧
    (holds (tpc t) = true ∨ owes_signal (tpc t) = true) ∧ is_Some (step_thread false i contended).
Proof.
  exact (sel4_mutex_progress 2 1 contended 1 (mk_thread Consumer (Locking LkBlocked))
    ltac:(lia) ltac:(lia) contended_reachable ltac:(vm_compute; reflexivity) eq_refl).
Defined.

Lemma sel4_stuck_shape_witness : value lost_wakeup_state = 1.
Proof.
  exact (proj1 (sel4_stuck_shape 4 2 lost_wakeup_state ltac:(lia) ltac:(lia)
    lost_wakeup_state_reachable lost_wakeup_state_stuck)).
Defined.
