(* ===== verification/Driver.v ===== *)
(** The driver of [main.c]: [init_env], [send_init_data], [copy_timer_caps],
    [copy_serial_caps], [run_test], [run_test_new], [sel4_threads_initial],
    [main_continued] and [main].

    The libraries the driver links (allocman, sel4utils, vspace, simple,
    sel4platsupport, the green-thread pool) are outside the repository: each
    call to them is a constructor of [lib] and [Libs] gives it a meaning over
    the world.  Allocator and capability calls go through the tables of
    [Vka.v], and [populate_untypeds] and the thread creation of the server are
    those of [Untypeds.v] and [Server.v].  Every library call and every
    revocation is recorded in a log.  [printf] is left out. *)

From S2P Require Import Prelude Messages Vka Untypeds Server.
Import MessageInfo CapRights CapData.

(** ** Strings

    A C string is the list of its characters, without the terminating NUL. *)

(** [strncpy(dst, src, n)] into an array [dst] of at least [n] characters. *)
Definition strncpy (dst src : list Z) (n : nat) : list Z :=
  take n (src ++ replicate n 0) ++ drop n dst.

(** The decimal digits of a word, most significant first. *)
Fixpoint decimal (fuel : nat) (x : Z) : list Z :=
  match fuel with
  | O => []
  | S fuel' => if x <? 10 then [48 + x] else decimal fuel' (x / 10) ++ [48 + x mod 10]
  end.

(** [snprintf(buf, size, fmt, x)] with the format of an unsigned long: at most
    [size - 1] characters and a NUL; what a reader of the string sees. *)
Definition snprintf_lu (size : nat) (x : Z) : list Z := take (size - 1) (decimal 32 x).

Definition CONFIG_WORD_SIZE : Z := 32.
Definition WORD_STRING_SIZE : nat := Z.to_nat (CONFIG_WORD_SIZE / 3 + 1).
Definition TEST_NAME_MAX : nat := 40.
Definition MAX_REGIONS : Z := 4.
Definition PAGE_SIZE_4K : Z := 4096.
Definition CONFIG_SEL4UTILS_STACK_SIZE : Z := 65536.
Definition CONFIG_SEL4UTILS_CSPACE_SIZE_BITS : Z := 17.
Definition SEL4UTILS_CNODE_SLOT : Z := 1.
Definition seL4_CapInitThreadTCB : Z := 1.
Definition seL4_CapASIDControl : Z := 5.
Definition seL4_CapInitThreadASIDPool : Z := 6.
Definition seL4_CapDomain : Z := 11.
Definition seL4_Fault_NullFault : Z := 0.
Definition seL4_MaxPrio : Z := 255.
Definition seL4_PageBits : Z := 12.
Definition ALLOCATOR_VIRTUAL_POOL_SIZE : Z := BIT seL4_PageBits * 100.
Definition ALLOCATOR_STATIC_POOL_SIZE : Z := BIT seL4_PageBits * 20.
Definition SUCCESS : Z := 1.
Definition FAILURE : Z := 0.

(** ["sel4test-tests"], ["TEST_"] *)
Definition TESTS_APP : list Z := [115; 101; 108; 52; 116; 101; 115; 116; 45; 116; 101; 115; 116; 115].
Definition TEST_PREFIX : list Z := [84; 69; 83; 84; 95].

(** ** Data *)

(** [test_init_data_t] of the configuration without IOMMU; [untypeds] and
    [untyped_size_bits_list] carry the prefix [init_]. *)
Record test_init_data_t := mk_init {
  page_directory : Z;
  root_cnode : Z;
  tcb : Z;
  domain : Z;
  asid_pool : Z;
  asid_ctrl : Z;
  timer_irq_cap : Z;
  timer_dev_ut_cap : Z;
  timer_paddr : Z;
  clock_timer_irq_cap : Z;
  clock_timer_dev_ut_cap : Z;
  clock_timer_paddr : Z;
  extra_timer_irq_cap : Z;
  extra_timer_dev_ut_cap : Z;
  extra_timer_paddr : Z;
  timer_io_port_cap : Z;
  serial_paddr : Z;
  serial_irq_cap : Z;
  serial_frame_cap : Z;
  serial_io_port_cap : Z;
  cspace_size_bits : Z;
  free_slots : seL4_SlotRegion;
  init_untypeds : seL4_SlotRegion;
  init_size_bits_list : list Z;
  name : list Z;
  priority : Z;
  elf_regions : list (Z * Z);
  num_elf_regions : Z;
  stack_pages : Z;
  stack : Z;
  tsc_freq : Z;
  cores : Z
}.
#[export] Instance eta_init : Eta test_init_data_t := λ i,
  mk_init (page_directory i) (root_cnode i) (tcb i) (domain i) (asid_pool i) (asid_ctrl i)
    (timer_irq_cap i) (timer_dev_ut_cap i) (timer_paddr i) (clock_timer_irq_cap i)
    (clock_timer_dev_ut_cap i) (clock_timer_paddr i) (extra_timer_irq_cap i)
    (extra_timer_dev_ut_cap i) (extra_timer_paddr i) (timer_io_port_cap i)
    (serial_paddr i) (serial_irq_cap i) (serial_frame_cap i) (serial_io_port_cap i)
    (cspace_size_bits i) (free_slots i) (init_untypeds i) (init_size_bits_list i)
    (name i) (priority i) (elf_regions i) (num_elf_regions i) (stack_pages i) (stack i)
    (tsc_freq i) (cores i).

(** What the driver uses of a [sel4utils_process_t], and of the platform objects. *)
Record process := mk_process { pd_cptr : Z; tcb_cptr : Z; fault_cptr : Z; stack_top : Z }.
Record timer_objects_t := mk_timer { timer_irq_path : cspacepath_t; t_paddr : Z; timer_dev_ut_obj : vka_object_t }.

(** ** Library calls *)

Inductive lib : Type → Type :=
| Platsupport_get_bootinfo : lib Z
| Simple_default_init_bootinfo (info : Z) : lib unit
| Bootstrap_use_current_simple (size : Z) : lib Z
| Allocman_make_vka (allocman : Z) : lib unit
| Simple_get_pd : lib Z
| Simple_get_cnode : lib Z
| Simple_get_init_cap (cap : Z) : lib Z
| Simple_get_core_count : lib Z
| Simple_print : lib unit
| Bootstrap_vspace_with_bootinfo_leaky (pd bootinfo : Z) : lib Z
| Vspace_reserve_range (size rights cacheable : Z) : lib (Z * Z)
| Bootstrap_configure_virtual_pool (allocman vaddr size pd : Z) : lib unit
| Init_default_serial_caps : lib (Z * cspacepath_t)
| Arch_get_serial_utspace_alloc_at : lib Z
| Platsupport_serial_setup_simple (utspace_alloc_at : Z) : lib unit
| Init_default_timer_caps : lib (Z * timer_objects_t)
| Debug_name_thread (tcb : Z) (name : list Z) : lib unit
| Run_on_stack : lib Z
| Configure_process (prio : Z) (app : list Z) : lib (Z * process)
| Copy_cap_to_process (p : process) (cap : Z) : lib Z
| Mint_cap_to_process (p : process) (src : cspacepath_t) (rights data : Z) : lib Z
| Spawn_process_v (p : process) (argv : list (list Z)) (resume : Z) : lib Z
| Vspace_map_page (p : process) (cap rights : Z) : lib Z
| Vspace_unmap_page (p : process) (vaddr : Z) : lib unit
| Vspace_new_page (rights : Z) : lib Z
| Vspace_get_cap (vaddr : Z) : lib Z
| Arch_copy_timer_caps (i : test_init_data_t) (p : process) : lib test_init_data_t
| Arch_copy_serial_caps (i : test_init_data_t) (p : process) : lib test_init_data_t
| Recv_message (ep : Z) : lib (Z * Z)
| Print_fault_message (info : Z) (name : list Z) : lib unit
| Dump_registers (tcb : Z) : lib unit
| Destroy_process (p : process) : lib unit
| Sel4test_failure : lib unit
| Elf_num_regions (app : list Z) : lib Z
| Elf_reserve (app : list Z) : lib (list (Z * Z))
| Plat_init (i : test_init_data_t) : lib test_init_data_t
| Thread_initial : lib unit
| Initial_client_pool (n : Z) : lib unit
| Thread_lock_create : lib Z
| Lock_set_held (lock : Z) : lib unit
| Thread_semaphore_create : lib Z
| Thread_resume (t_id : Z) : lib unit
| Sel4_thread_initial : lib unit
| Mutex_init (mutex notification : Z) : lib Z
| Mutex_lock (mutex : Z) : lib Z
| Sem_new (sem value : Z) : lib Z
| Bin_sem_new (sem value : Z) : lib Z
| Cv_new (cv : Z) : lib Z
| Set_lists (producer consumer : Z) : lib unit
| Malloc_thread : lib Z
| Configure_thread (fault_ep prio cspace data tcb : Z) : lib Z
| Start_thread (tcb arg0 arg1 resume : Z) : lib Z
| Sel4_thread_new (i tcb : Z) : lib unit.

Class Libs (W : Type) := lib_handle : ∀ A, lib A → M W A.
Arguments lib_handle {W _ A}.

Inductive devent :=
| Call {A : Type} (c : lib A)
| Revoke (p : cspacepath_t).

(** The statics of the driver: [env], the stock of untypeds, the allocator. *)
Record drv (W : Type) := mk_drv {
  d_world : W;
  d_log : list devent;
  d_untypeds : list vka_object_t;
  d_sizes : list Z;
  num_untypeds : Z;
  env_init : test_init_data_t;
  env_endpoint : vka_object_t;
  env_client_num : Z;
  init_frame_cap_copy : Z;
  timer_objects : timer_objects_t;
  serial_irq_path : cspacepath_t;
  allocman : Z
}.
Arguments mk_drv {W}.
Arguments d_world {W}.
Arguments d_log {W}.
Arguments d_untypeds {W}.
Arguments d_sizes {W}.
Arguments num_untypeds {W}.
Arguments env_init {W}.
Arguments env_endpoint {W}.
Arguments env_client_num {W}.
Arguments init_frame_cap_copy {W}.
Arguments timer_objects {W}.
Arguments serial_irq_path {W}.
Arguments allocman {W}.
#[export] Instance eta_drv W : Eta (drv W) := λ s,
  mk_drv (d_world s) (d_log s) (d_untypeds s) (d_sizes s) (num_untypeds s) (env_init s)
    (env_endpoint s) (env_client_num s) (init_frame_cap_copy s) (timer_objects s)
    (serial_irq_path s) (allocman s).

Section driver.
Context {X : Type} {EnvX : Env X} {Proto : Protocol} (cfg : config).
Notation W := (srv X * list event)%type.
Context {InvW : Invocations W} {LibsW : Libs W} (v : vka_t W).

Definition D (A : Type) : Type := M (drv W) A.

Definition on_world {A} (m : M W A) : D A := zoom d_world (λ w s, s <| d_world := w |>) m.
Definition emit (e : devent) : D unit := modify (λ s, s <| d_log ::= λ l, l ++ [e] |>).
Definition lib_call {A} (c : lib A) : D A := emit (Call c);; on_world (lib_handle c).
Definition set_init (f : test_init_data_t → test_init_data_t) : D unit :=
  modify (λ s, s <| env_init ::= f |>).

(** [init_env]; the vka table and the vspace the libraries fill in are part of
    the world and of [v]. *)
Definition init_env : D unit :=
  a ← lib_call (Bootstrap_use_current_simple ALLOCATOR_STATIC_POOL_SIZE);
  modify (λ s, s <| allocman := a |>);;
  ZF_LOGF_IF (a =? 0);;
  lib_call (Allocman_make_vka a);;
  pd ← lib_call Simple_get_pd;
  bootinfo ← lib_call Platsupport_get_bootinfo;
  error ← lib_call (Bootstrap_vspace_with_bootinfo_leaky pd bootinfo);
  ZF_LOGF_IF (negb (error =? 0));;
  rights ← lift seL4_AllRights;
  '(res, vaddr) ← lib_call (Vspace_reserve_range ALLOCATOR_VIRTUAL_POOL_SIZE rights 1);
  ZF_LOGF_IF (res =? 0);;
  pd ← lib_call Simple_get_pd;
  lib_call (Bootstrap_configure_virtual_pool a vaddr ALLOCATOR_VIRTUAL_POOL_SIZE pd);;
  '(error, ep) ← on_world (vka_alloc_endpoint (Some v));
  modify (λ s, s <| env_endpoint := ep |>);;
  ZF_LOGF_IF (negb (error =? 0));;
  modify (λ s, s <| env_client_num ::= Z.add 1 |>).

(** [sel4utils_copy_cap_to_process(process, &env.vka, cap)]. *)
Definition copy_cap (p : process) (cap : Z) : D Z := lib_call (Copy_cap_to_process p cap).

(** [copy_untypeds_to_process], run over the whole state of the driver. *)
Definition copy_untypeds (p : process) : D seL4_SlotRegion :=
  objs ← gets d_untypeds; n ← gets num_untypeds;
  copy_untypeds_to_process (copy_cap p) objs n.

Definition send_init_data (p : process) : D Z :=
  cap ← gets init_frame_cap_copy;
  rights ← lift seL4_AllRights;
  remote_vaddr ← lib_call (Vspace_map_page p cap rights);
  assert (negb (remote_vaddr =? 0));;
  mret remote_vaddr.

Definition copy_timer_caps (p : process) : D unit :=
  t ← gets timer_objects;
  c ← copy_cap p (capPtr (timer_irq_path t));
  set_init (λ i, i <| timer_irq_cap := c |>);;
  ZF_LOGF_IF (c =? 0);;
  set_init (λ i, i <| timer_paddr := t_paddr t |>);;
  c ← copy_cap p (cptr (timer_dev_ut_obj t));
  set_init (λ i, i <| timer_dev_ut_cap := c |>);;
  ZF_LOGF_IF (c =? 0);;
  i ← gets env_init;
  i ← lib_call (Arch_copy_timer_caps i p);
  set_init (λ _, i).

Definition copy_serial_caps (p : process) : D unit :=
  irq ← gets serial_irq_path;
  c ← copy_cap p (capPtr irq);
  set_init (λ i, i <| serial_irq_cap := c |>);;
  ZF_LOGF_IF (c =? 0);;
  i ← gets env_init;
  i ← lib_call (Arch_copy_serial_caps i p);
  set_init (λ _, i).

(** [run_test] up to the fault endpoint: the capabilities a test starts with. *)
Definition run_test_caps (p : process) : D unit :=
  set_init (λ i, i <| stack_pages := CONFIG_SEL4UTILS_STACK_SIZE / PAGE_SIZE_4K |>);;
  set_init (λ i, i <| stack := wrap32 (stack_top p - CONFIG_SEL4UTILS_STACK_SIZE) |>);;
  c ← copy_cap p (pd_cptr p);
  set_init (λ i, i <| page_directory := c |>);;
  set_init (λ i, i <| root_cnode := SEL4UTILS_CNODE_SLOT |>);;
  c ← copy_cap p (tcb_cptr p);
  set_init (λ i, i <| tcb := c |>);;
  c ← lib_call (Simple_get_init_cap seL4_CapDomain);
  c ← copy_cap p c;
  set_init (λ i, i <| domain := c |>);;
  c ← lib_call (Simple_get_init_cap seL4_CapInitThreadASIDPool);
  c ← copy_cap p c;
  set_init (λ i, i <| asid_pool := c |>);;
  c ← lib_call (Simple_get_init_cap seL4_CapASIDControl);
  c ← copy_cap p c;
  set_init (λ i, i <| asid_ctrl := c |>);;
  n ← lib_call Simple_get_core_count;
  set_init (λ i, i <| cores := n |>);;
  r ← copy_untypeds p;
  set_init (λ i, i <| init_untypeds := r |>);;
  copy_timer_caps p;;
  copy_serial_caps p.

(** The free slots, and the name of the test without its prefix. *)
Definition run_test_slots (endpoint : Z) (test_name : list Z) : D unit :=
  set_init (λ i, i <| cspace_size_bits := CONFIG_SEL4UTILS_CSPACE_SIZE_BITS |>);;
  set_init (λ i, i <| free_slots :=
    mk_region (wrap32 (endpoint + 1)) (BIT CONFIG_SEL4UTILS_CSPACE_SIZE_BITS) |>);;
  i ← gets env_init;
  assert (r_start (free_slots i) <? r_end (free_slots i));;
  set_init (λ i, i <| name := strncpy (name i) (drop (length TEST_PREFIX) test_name) TEST_NAME_MAX |>);;
  set_init (λ i, i <| name := <[(TEST_NAME_MAX - 1)%nat := 0]> (name i) |>).

(** [for (int i = 0; i < num_untypeds; i++)]: make the path and revoke it. *)
Definition revoke_untypeds : D unit :=
  n ← gets num_untypeds;
  for_range 0 (Z.to_nat n) (λ i,
    objs ← gets d_untypeds;
    match objs !! Z.to_nat i with
    | None => halt_with BadPointer
    | Some o =>
      path ← on_world (vka_cspace_make_path (Some v) (cptr o));
      emit (Revoke path);;
      on_world (vka_cnode_revoke path);;
      mret tt
    end).

(** The result a test reports: its message register, unless it faulted. *)
Definition run_test_result (p : process) (test_name : list Z) (info mr0 : Z) : D Z :=
  let result := sint32 mr0 in
  if negb (seL4_MessageInfo_get_label info =? seL4_Fault_NullFault) then
    lib_call (Print_fault_message info test_name);;
    lib_call (Dump_registers (tcb_cptr p));;
    mret FAILURE
  else mret result.

(** The end of [run_test], once the test has sent a message or faulted. *)
Definition run_test_finish (p : process) (test_name : list Z) (remote_vaddr info mr0 : Z) : D Z :=
  result ← run_test_result p test_name info mr0;
  lib_call (Vspace_unmap_page p remote_vaddr);;
  revoke_untypeds;;
  lib_call (Destroy_process p);;
  if negb (result =? SUCCESS) then lib_call Sel4test_failure;; mret FAILURE
  else mret result.

Definition run_test (test_name : list Z) : D Z :=
  i ← gets env_init;
  '(error, p) ← lib_call (Configure_process (priority i) TESTS_APP);
  assert (error =? 0);;
  run_test_caps p;;
  endpoint ← copy_cap p (fault_cptr p);
  run_test_slots endpoint test_name;;
  i ← gets env_init;
  lib_call (Debug_name_thread (tcb_cptr p) (name i));;
  error ← lib_call (Spawn_process_v p [TESTS_APP; snprintf_lu WORD_STRING_SIZE endpoint] 1);
  assert (error =? 0);;
  remote_vaddr ← send_init_data p;
  '(info, mr0) ← lib_call (Recv_message (fault_cptr p));
  run_test_finish p test_name remote_vaddr info mr0.

Definition run_test_new (client_name : list Z) : D Z :=
  i ← gets env_init;
  '(error, p) ← lib_call (Configure_process (priority i) TESTS_APP);
  assert (error =? 0);;
  ep ← gets env_endpoint;
  path ← on_world (vka_cspace_make_path (Some v) (cptr ep));
  rights ← lift seL4_AllRights;
  badge ← lift (seL4_CapData_Badge_new 97);
  endpoint ← lib_call (Mint_cap_to_process p path rights badge);
  error ← lib_call (Spawn_process_v p [TESTS_APP; snprintf_lu WORD_STRING_SIZE endpoint] 1);
  assert (error =? 0);;
  remote_vaddr ← send_init_data p;
  lib_call (Vspace_unmap_page p remote_vaddr);;
  revoke_untypeds;;
  mret SUCCESS.

(** [populate_untypeds(untypeds)] on the driver's statics; [reserve] is the
    uninitialised local array of the reserve. *)
Definition populate (reserve : list vka_object_t) : D Z :=
  zoom (λ s, mk_stock (d_world s) (d_untypeds s) (d_sizes s))
       (λ st s, s <| d_world := world st |> <| d_untypeds := untypeds st |>
                  <| d_sizes := untyped_size_bits_list st |>)
       (populate_untypeds v reserve).

(** [memcpy] of the first [n] elements. *)
Definition memcpy {A} (dst src : list A) (n : nat) : list A := take n src ++ drop n dst.

(** Copies the capability of the init frame, to map it into processes. *)
Definition copy_init_frame (init_vaddr : Z) : D unit :=
  cap ← lib_call (Vspace_get_cap init_vaddr);
  src ← on_world (vka_cspace_make_path (Some v) cap);
  '(error, c) ← on_world (vka_cspace_alloc (Some v));
  modify (λ s, s <| init_frame_cap_copy := c |>);;
  assert (error =? 0);;
  dst ← on_world (vka_cspace_make_path (Some v) c);
  rights ← lift seL4_AllRights;
  error ← on_world (vka_cnode_copy dst src rights);
  assert (error =? 0).

(** The part of [main_continued] that prepares the init data. *)
Definition prepare_init_data (reserve : list vka_object_t) : D unit :=
  n ← populate reserve;
  modify (λ s, s <| num_untypeds := n |>);;
  rights ← lift seL4_AllRights;
  init_vaddr ← lib_call (Vspace_new_page rights);
  assert (negb (init_vaddr =? 0));;
  copy_init_frame init_vaddr;;
  sizes ← gets d_sizes;
  set_init (λ i, i <| init_size_bits_list ::= λ l, memcpy l sizes (Z.to_nat n) |>);;
  r ← lib_call (Elf_num_regions TESTS_APP);
  assert (r <? MAX_REGIONS);;
  regions ← lib_call (Elf_reserve TESTS_APP);
  set_init (λ i, i <| elf_regions ::= λ l, memcpy l regions (Z.to_nat r) |>);;
  set_init (λ i, i <| num_elf_regions := r |>);;
  set_init (λ i, i <| priority := seL4_MaxPrio |>);;
  i ← gets env_init;
  i ← lib_call (Plat_init i);
  set_init (λ _, i).

Definition set_client_count (n : Z) (w : W) : W :=
  let s := w.1 in
  (mk_srv (ext s) (client_num s) n (buffer s) (buffer_limit s) (terminate_num s) (wait_count s)
     (started s) (reply_eps s) (global_reply_ep s) (slot s) (mrs s), w.2).

(** The addresses of the local synchronisation objects. *)
Context (token_addr sync_prim_addr bin_sem_addr lock_global_addr : Z).
Context (CONSUMER_PRODUCER : bool).

(** The loop of [sel4_threads_initial] over [num] threads, from thread [i];
    it stops with 0 when [malloc] fails. *)
Fixpoint start_threads (num : nat) (i cspace_cap lock : Z) : D Z :=
  match num with
  | O => mret 1
  | S num' =>
    t ← lib_call Malloc_thread;
    if t =? 0 then mret 0
    else
      error ← lib_call (Configure_thread 0 seL4_MaxPrio cspace_cap 0 t);
      assert (error =? 0);;
      error ← lib_call (Start_thread t sync_prim_addr lock 1);
      assert (error =? 0);;
      lib_call (Sel4_thread_new i t);;
      start_threads num' (i + 1) cspace_cap lock
  end.

Definition sel4_threads_initial (num : Z) : D Z :=
  lib_call Sel4_thread_initial;;
  when (THREAD_LOCK cfg)
    (notification ← on_world (vka_alloc_notification_leaky (Some v));
     lib_call (Mutex_init sync_prim_addr notification);;
     lib_call (Mutex_lock sync_prim_addr);; mret tt);;
  when (THREAD_SEMAPHORE cfg) (lib_call (Sem_new sync_prim_addr 0);; mret tt);;
  when (THREAD_CV cfg)
    (lib_call (Bin_sem_new bin_sem_addr 1);; lib_call (Cv_new sync_prim_addr);; mret tt);;
  let lock := if THREAD_CV cfg then bin_sem_addr else 0 in
  when CONSUMER_PRODUCER
    (notification ← on_world (vka_alloc_notification_leaky (Some v));
     producer ← on_world (vka_alloc_notification_leaky (Some v));
     consumer ← on_world (vka_alloc_notification_leaky (Some v));
     lib_call (Set_lists producer consumer);;
     lib_call (Mutex_init lock_global_addr notification);; mret tt);;
  cspace_cap ← lib_call Simple_get_cnode;
  start_threads (Z.to_nat num) 0 cspace_cap lock.

(** The server of the [GREEN_THREAD] build. *)
Definition start_green_server (count : Z) : D unit :=
  lib_call Thread_initial;;
  lib_call (Initial_client_pool count);;
  sync_prim ←
    (if THREAD_LOCK cfg then
       l ← lib_call Thread_lock_create;
       assert (negb (l =? 0));; lib_call (Lock_set_held l);; mret l
     else if THREAD_SEMAPHORE cfg then
       l ← lib_call Thread_semaphore_create;
       assert (negb (l =? 0));; mret l
     else mret token_addr);
  t_id ← on_world (thread_creation sync_prim count);
  lib_call (Thread_resume t_id).

(** The server of the [SEL4_THREAD] build; the result is ignored. *)
Definition start_sel4_server (count : Z) : D unit :=
  lib_call (Initial_client_pool count);;
  sel4_threads_initial count;;
  mret tt.

(** [sel4test_run_tests_new] calls its argument once per client it knows. *)
Context (sel4test_run_tests_new : (list Z → D Z) → D unit).
Context (GREEN_THREAD : bool).

(** [main_continued]; exactly one of [GREEN_THREAD] and [SEL4_THREAD] is set. *)
Definition main_continued (reserve : list vka_object_t) : D Z :=
  prepare_init_data reserve;;
  sel4test_run_tests_new run_test_new;;
  let client_count := 6 in
  modify (λ s, s <| d_world ::= set_client_count client_count |>);;
  (if GREEN_THREAD then start_green_server client_count else start_sel4_server client_count);;
  mret 0.

(** [main]; [sel4utils_run_on_stack] runs [main_continued] and hands its result on. *)
Definition main (reserve : list vka_object_t) : D Z :=
  info ← lib_call Platsupport_get_bootinfo;
  lib_call (Debug_name_thread seL4_CapInitThreadTCB
    [115; 101; 108; 52; 116; 101; 115; 116; 45; 100; 114; 105; 118; 101; 114]);;
  lib_call (Simple_default_init_bootinfo info);;
  init_env;;
  '(_, irq) ← lib_call Init_default_serial_caps;
  modify (λ s, s <| serial_irq_path := irq |>);;
  alloc_at ← lib_call Arch_get_serial_utspace_alloc_at;
  lib_call (Platsupport_serial_setup_simple alloc_at);;
  '(error, t) ← lib_call Init_default_timer_caps;
  modify (λ s, s <| timer_objects := t |>);;
  ZF_LOGF_IF (negb (error =? 0));;
  lib_call Simple_print;;
  error ← lib_call Run_on_stack;
  res ← (if error =? 0 then main_continued reserve else mret 0);
  ZF_LOGF_IF (negb (error =? 0));;
  ZF_LOGF_IF (negb (res =? 0));;
  mret 0.

End driver.

(** ** Strings the driver builds *)

(** What [atoi] makes of a list of digits. *)
Definition read_decimal (l : list Z) : Z := foldl (λ x d, 10 * x + (d - 48)) 0 l.

Lemma read_decimal_snoc l d : read_decimal (l ++ [d]) = 10 * read_decimal l + (d - 48).
Proof. unfold read_decimal. by rewrite foldl_app. Qed.

Lemma decimal_read fuel x : 0 ≤ x < 10 ^ Z.of_nat fuel → read_decimal (decimal fuel x) = x.
Proof.
  revert x. induction fuel as [|fuel IH]; intros x Hx; [simpl in *; cbn in *; lia|].
  cbn [decimal]. destruct (Z.ltb_spec x 10) as [Hlt|Hge]; [cbn; lia|].
  rewrite read_decimal_snoc, IH.
  - pose proof (Z.div_mod x 10 ltac:(lia)). lia.
  - rewrite Nat2Z.inj_succ, Z.pow_succ_r in Hx by lia. split; [apply Z.div_pos; lia|].
    apply Z.div_lt_upper_bound; lia.
Qed.

Lemma decimal_length fuel k x :
  0 ≤ x < 10 ^ Z.of_nat (S k) → (length (decimal fuel x) ≤ S k)%nat.
Proof.
  revert k x. induction fuel as [|fuel IH]; intros k x Hx; [simpl; lia|].
  cbn [decimal]. destruct (Z.ltb_spec x 10) as [Hlt|Hge]; [simpl; lia|].
  destruct k as [|k]; [cbn in Hx; lia|].
  rewrite length_app. simpl. assert (length (decimal fuel (x / 10)) ≤ S k)%nat; [|lia].
  apply IH. rewrite (Nat2Z.inj_succ (S k)), Z.pow_succ_r in Hx by lia.
  split; [apply Z.div_pos; lia|]. apply Z.div_lt_upper_bound; lia.
Qed.

(** the endpoint the driver passes to a process on its command line is the
    one the process reads back: the buffer of [WORD_STRING_SIZE] characters
    holds every word with its terminator. *)
Theorem endpoint_string_roundtrip endpoint :
  is_word endpoint → read_decimal (snprintf_lu WORD_STRING_SIZE endpoint) = endpoint.
Proof.
  intros Hw. assert (Hb : 0 ≤ endpoint < 10 ^ 10) by (unfold is_word, word_mod in Hw; lia).
  unfold snprintf_lu. rewrite take_ge.
  - apply decimal_read. split; [lia|]. apply (Z.lt_le_trans _ (10 ^ 10)); [lia|].
    apply Z.pow_le_mono_r; lia.
  - change (WORD_STRING_SIZE - 1)%nat with 10%nat. by apply (decimal_length 32 9).
Qed.

Lemma endpoint_string_roundtrip_witness :
  read_decimal (snprintf_lu WORD_STRING_SIZE 4294967295) = 4294967295.
Proof. apply (endpoint_string_roundtrip 4294967295). split; [lia|reflexivity]. Defined.

Lemma take_pad (l : list Z) n k k' :
  (n ≤ k)%nat → (n ≤ k')%nat → take n (l ++ replicate k 0) = take n (l ++ replicate k' 0).
Proof.
  intros Hk Hk'. rewrite !take_app, !take_replicate. f_equal. f_equal. lia.
Qed.

Section driver_specs.
Context {X : Type} {EnvX : Env X} {Proto : Protocol} (cfg : config).
Notation W := (srv X * list event)%type.
Context {InvW : Invocations W} {LibsW : Libs W} (v : vka_t W).
Implicit Types s : drv W.

(** [run_test] gives the test the slots behind the endpoint's up to the end
    of its CSpace, and halts in its assertion exactly when there are none; the
    name it stores is the test's name without the prefix, cut to the array and
    always NUL-terminated. *)
Theorem run_test_slots_correct endpoint test_name s :
  length (name (env_init s)) = TEST_NAME_MAX →
  match run_test_slots (X := X) endpoint test_name s with
  | (Done _, s') =>
    wrap32 (endpoint + 1) < 2 ^ 17 ∧
    free_slots (env_init s') = mk_region (wrap32 (endpoint + 1)) (2 ^ 17) ∧
    length (name (env_init s')) = TEST_NAME_MAX ∧
    name (env_init s') !! 39%nat = Some 0 ∧
    take 39 (name (env_init s')) = take 39 (drop 5 test_name ++ replicate 39 0)
  | (Halted h, _) => h = AssertFailed ∧ 2 ^ 17 ≤ wrap32 (endpoint + 1)
  end.
Proof.
  intros Hlen. unfold run_test_slots, mbind, M_bind, set_init, modify, gets, assert. cbn -[strncpy].
  destruct (Z.ltb_spec (wrap32 (endpoint + 1)) (BIT CONFIG_SEL4UTILS_CSPACE_SIZE_BITS)) as [H|H];
    cbn -[strncpy]; change (BIT CONFIG_SEL4UTILS_CSPACE_SIZE_BITS) with (2 ^ 17) in *; [|done].
  split; [done|]. split; [done|].
  assert (Hs : length (strncpy (name (env_init s)) (drop 5 test_name) TEST_NAME_MAX) = TEST_NAME_MAX).
  { unfold strncpy. rewrite length_app, length_take, length_app, length_replicate, !length_drop, Hlen. lia. }
  rewrite length_insert. split; [exact Hs|]. split.
  - apply list_lookup_insert_eq. rewrite Hs. unfold TEST_NAME_MAX. lia.
  - rewrite take_insert_ge by lia. unfold strncpy.
    rewrite take_app_le.
    + rewrite take_take. change (Nat.min 39 TEST_NAME_MAX) with 39%nat.
      apply (take_pad (drop 5 test_name) 39 TEST_NAME_MAX 39); unfold TEST_NAME_MAX; lia.
    + rewrite length_take, length_app, length_replicate. unfold TEST_NAME_MAX. lia.
Qed.

(** *** The capabilities of a test and its free slots *)

(** A capability field the architecture's code may fill in: it keeps its value
    or names one of the slots [lo .. hi - 1]. *)
Definition kept_or_new (lo hi old new : Z) : Prop := new = old ∨ lo ≤ new < hi.

(** What [arch_copy_timer_caps] and [arch_copy_serial_caps] may write: the
    fields [test_init_data.h] has for them beside those of [copy_timer_caps]
    and [copy_serial_caps]. *)
Definition timer_written (lo hi : Z) (i i' : test_init_data_t) : Prop :=
  ∃ io ci cu cp ei eu ep,
    i' = i <| timer_io_port_cap := io |>
           <| clock_timer_irq_cap := ci |> <| clock_timer_dev_ut_cap := cu |>
           <| clock_timer_paddr := cp |>
           <| extra_timer_irq_cap := ei |> <| extra_timer_dev_ut_cap := eu |>
           <| extra_timer_paddr := ep |> ∧
    kept_or_new lo hi (timer_io_port_cap i) io ∧
    kept_or_new lo hi (clock_timer_irq_cap i) ci ∧ kept_or_new lo hi (clock_timer_dev_ut_cap i) cu ∧
    kept_or_new lo hi (extra_timer_irq_cap i) ei ∧ kept_or_new lo hi (extra_timer_dev_ut_cap i) eu.
Definition serial_written (lo hi : Z) (i i' : test_init_data_t) : Prop :=
  ∃ a f io,
    i' = i <| serial_paddr := a |> <| serial_frame_cap := f |> <| serial_io_port_cap := io |> ∧
    kept_or_new lo hi (serial_frame_cap i) f ∧ kept_or_new lo hi (serial_io_port_cap i) io.

(** [next_slot] is the next free slot of the process being set up; a copy into
    it takes that slot, or fails and returns 0, and the architecture's copies
    are recorded in the fields that exist for them. *)
Class CSpaceLaws (next_slot : W → Z) : Prop := {
  slot_copy : ∀ p c w, wlp (lib_handle (Copy_cap_to_process p c))
    (λ slot w', (slot = 0 ∧ next_slot w' = next_slot w) ∨
                (slot = next_slot w ∧ next_slot w' = next_slot w + 1)) w;
  slot_init_cap : ∀ c w, wlp (lib_handle (Simple_get_init_cap c))
    (λ _ w', next_slot w' = next_slot w) w;
  slot_core_count : ∀ w, wlp (lib_handle Simple_get_core_count)
    (λ _ w', next_slot w' = next_slot w) w;
  slot_timer : ∀ i p w, wlp (lib_handle (Arch_copy_timer_caps i p))
    (λ i' w', next_slot w ≤ next_slot w' ∧ timer_written (next_slot w) (next_slot w') i i') w;
  slot_serial : ∀ i p w, wlp (lib_handle (Arch_copy_serial_caps i p))
    (λ i' w', next_slot w ≤ next_slot w' ∧ serial_written (next_slot w) (next_slot w') i i') w
}.

Context (next_slot : W → Z) {Laws : CSpaceLaws next_slot}.

(** The slots of these fields, and the slots of untypeds, lie below the next free one. *)
Definition below (fields : list (test_init_data_t → Z)) s : Prop :=
  SEL4UTILS_CNODE_SLOT < next_slot (d_world s) ∧
  Forall (λ f, f (env_init s) < next_slot (d_world s)) fields.

Lemma wlp_lib_call {A} (c : lib A) (Q : A → drv W → Prop) s :
  wlp (lib_handle c) (λ a w', Q a (s <| d_log ::= λ l, l ++ [Call c] |> <| d_world := w' |>))
    (d_world s) →
  wlp (lib_call c) Q s.
Proof.
  unfold wlp, lib_call, emit, on_world, zoom, modify, mbind, M_bind. cbn.
  by destruct (lib_handle c (d_world s)) as [[a|h] w'].
Qed.

Lemma wlp_set_init f (Q : unit → drv W → Prop) s :
  Q tt (s <| env_init ::= f |>) → wlp (set_init f) Q s.
Proof. done. Qed.

Lemma copy_cap_below L p c s :
  below L s →
  wlp (copy_cap p c) (λ slot s', slot < next_slot (d_world s') ∧ below L s' ∧
    env_init s' = env_init s ∧ d_untypeds s' = d_untypeds s ∧ num_untypeds s' = num_untypeds s) s.
Proof.
  intros [H0 HL]. unfold SEL4UTILS_CNODE_SLOT in *.
  apply wlp_lib_call. eapply wlp_mono; [apply slot_copy|].
  intros slot w' [[-> Hw]|[-> Hw]]; cbn; (split; [lia|]); (split; [|done]);
    (split; [unfold SEL4UTILS_CNODE_SLOT; cbn; lia|]); cbn; rewrite Hw; [done|].
  eapply Forall_impl; [exact HL|]. intros f. cbn. lia.
Qed.

(** Storing a fresh slot in a field adds the field to those known to be low. *)
Lemma set_field_below (f : test_init_data_t → Z) g L s :
  below L s → f (g (env_init s)) < next_slot (d_world s) →
  Forall (λ h : test_init_data_t → Z, h (g (env_init s)) = h (env_init s)) L →
  below (f :: L) (s <| env_init ::= g |>).
Proof.
  intros [H0 HL] Hf HG. split; [done|]. constructor; [done|]. cbn.
  apply Forall_forall. intros h Hh. rewrite Forall_forall in HL, HG.
  rewrite (HG h Hh). by apply HL.
Qed.

Lemma set_other_below g L s :
  below L s → Forall (λ h : test_init_data_t → Z, h (g (env_init s)) = h (env_init s)) L →
  below L (s <| env_init ::= g |>).
Proof.
  intros [H0 HL] HG. split; [done|]. cbn. apply Forall_forall. intros h Hh.
  rewrite Forall_forall in HL, HG. rewrite (HG h Hh). by apply HL.
Qed.

Lemma copy_caps_below L p objs i r s :
  below L s → r_start r < next_slot (d_world s) → r_end r < next_slot (d_world s) →
  wlp (copy_caps (copy_cap p) i objs r) (λ r' s',
    r_start r' < next_slot (d_world s') ∧ r_end r' < next_slot (d_world s') ∧
    below L s' ∧ env_init s' = env_init s) s.
Proof.
  revert i r s. induction objs as [|o objs IH]; intros i r s HB H1 H2; cbn [copy_caps].
  - by apply wlp_ret.
  - apply wlp_bind. eapply wlp_mono.
    { apply (copy_cap_below ((λ _, r_start r) :: L)). destruct HB. by split; [|constructor]. }
    intros slot s' (Hs & [H0 HB'] & Hi & _ & _). apply Forall_cons in HB' as [Hr HB'].
    eapply wlp_mono.
    + apply IH; [by split| |exact Hs]. by destruct (i =? 0).
    + intros r' s'' (? & ? & ? & Hi'). by rewrite Hi', Hi.
Qed.

Ltac copied HB :=
  lazymatch type of HB with
  | below ?L ?s =>
    let c := fresh "c" in let s' := fresh "s" in let Hc := fresh "Hc" in
    let HB' := fresh "HB" in let Hi := fresh "Hi" in
    apply wlp_bind; eapply wlp_mono; [apply (copy_cap_below L); exact HB|];
    intros c s' (Hc & HB' & Hi & _ & _); clear HB; rename HB' into HB
  end.
Ltac stored HB f :=
  lazymatch goal with
  | |- wlp (set_init ?g ≫= _) _ ?s =>
    apply wlp_bind, wlp_set_init;
    lazymatch type of HB with
    | below ?L ?s =>
      apply (set_field_below f g L s) in HB; [|assumption|repeat constructor]
    end
  end.
Ltac stored_other HB :=
  lazymatch goal with
  | |- wlp (set_init ?g ≫= _) _ ?s =>
    apply wlp_bind, wlp_set_init;
    lazymatch type of HB with
    | below ?L ?s => apply (set_other_below g L s) in HB; [|repeat constructor]
    end
  end.

Lemma lib_call_below {A} (c : lib A) L s :
  below L s →
  wlp (lib_handle c) (λ _ w', next_slot w' = next_slot (d_world s)) (d_world s) →
  wlp (lib_call c) (λ _ s', below L s' ∧ env_init s' = env_init s) s.
Proof.
  intros [H0 HL] Hc. apply wlp_lib_call. eapply wlp_mono; [exact Hc|]. intros a w' Hw.
  split; [|done]. unfold below. cbn. by rewrite Hw.
Qed.

Definition timer_fields : list (test_init_data_t → Z) := [timer_dev_ut_cap; timer_irq_cap].

(** The value of a field if it is not the one it had in [i0], else the null slot. *)
Definition changed (i0 : test_init_data_t) (f : test_init_data_t → Z) (i : test_init_data_t) : Z :=
  if f i =? f i0 then 0 else f i.
Definition arch_timer_fields : list (test_init_data_t → Z) :=
  [timer_io_port_cap; clock_timer_irq_cap; clock_timer_dev_ut_cap; extra_timer_irq_cap;
   extra_timer_dev_ut_cap].
Definition arch_serial_fields : list (test_init_data_t → Z) := [serial_frame_cap; serial_io_port_cap].
Definition arch_fields (i0 : test_init_data_t) : list (test_init_data_t → Z) :=
  changed i0 <$> arch_timer_fields ++ arch_serial_fields.

Lemma changed_below i0 f g i lo hi :
  0 < lo ≤ hi → changed i0 f i < lo → kept_or_new lo hi (f i) (f (g i)) → changed i0 f (g i) < hi.
Proof.
  unfold changed, kept_or_new. intros Hl Hc Hk.
  destruct (Z.eqb_spec (f i) (f i0)), (Z.eqb_spec (f (g i)) (f i0)); lia.
Qed.

Lemma wlp_logf b (Q : unit → drv W → Prop) s : (b = false → Q tt s) → wlp (ZF_LOGF_IF b) Q s.
Proof. intros H. destruct b; [done|]. by apply H. Qed.

(** A call that fills in fields of the init data with [R] between the data
    before and after it. *)
Lemma arch_below L (c : test_init_data_t → lib test_init_data_t)
    (R : Z → Z → test_init_data_t → test_init_data_t → Prop) s :
  below L s →
  (∀ f, f ∈ L → ∀ lo hi i i', 0 < lo ≤ hi → R lo hi i i' → f i < lo → f i' < hi) →
  (∀ i w, wlp (lib_handle (c i))
     (λ i' w', next_slot w ≤ next_slot w' ∧ R (next_slot w) (next_slot w') i i') w) →
  wlp (i ← gets env_init; i ← lib_call (c i); set_init (λ _, i)) (λ _ s', below L s') s.
Proof.
  intros [H0 HL] HF Hc. unfold SEL4UTILS_CNODE_SLOT in H0. apply wlp_bind.
  change (wlp (gets env_init) ?Q s) with (Q (env_init s) s).
  cbv beta. apply wlp_bind, wlp_lib_call. eapply wlp_mono; [apply Hc|].
  intros i' w' [Hw HR]. apply wlp_set_init.
  split; cbn; [unfold SEL4UTILS_CNODE_SLOT; cbn in *; lia|].
  apply Forall_forall. intros f Hf. rewrite Forall_forall in HL.
  eapply (HF f Hf); [|exact HR|by apply HL]. cbn in *. lia.
Qed.

Ltac looked_up :=
  apply wlp_bind;
  lazymatch goal with |- wlp (gets ?f) ?Q ?s => change (Q (f s) s) end; cbv beta.
Ltac checked := apply wlp_bind, wlp_logf; intros _.
(** Every listed field stays low: it is not written, or by a kept or new slot. *)
Ltac each_field :=
  let f := fresh "f" in let Hf := fresh "Hf" in
  intros f Hf;
  repeat (apply elem_of_cons in Hf as [->|Hf];
    [let HR := fresh "HR" in intros ? ? ? ? ? HR ?;
     first [destruct HR as (? & ? & ? & ? & ? & ? & ? & -> & ? & ? & ? & ? & ?)
           |destruct HR as (? & ? & ? & -> & ? & ?)];
     unfold changed, kept_or_new in *; cbn in *; repeat case_match; lia|]);
  by apply elem_of_nil in Hf.

(** The fields [run_test] fills with slots of the test's CSpace, latest first. *)
Definition cap_fields : list (test_init_data_t → Z) :=
  [asid_ctrl; asid_pool; domain; tcb; root_cnode; page_directory].
Definition untyped_fields : list (test_init_data_t → Z) :=
  [(λ i, r_end (init_untypeds i)); (λ i, r_start (init_untypeds i))].

Lemma copy_timer_caps_below i0 p s :
  below (untyped_fields ++ cap_fields ++ arch_fields i0) s →
  wlp (copy_timer_caps p)
    (λ _ s', below (timer_fields ++ untyped_fields ++ cap_fields ++ arch_fields i0) s') s.
Proof.
  intros HB. unfold copy_timer_caps. looked_up. copied HB. stored HB timer_irq_cap. checked.
  stored_other HB. copied HB. stored HB timer_dev_ut_cap. checked.
  apply (arch_below _ (λ i, Arch_copy_timer_caps i p) timer_written); [exact HB|each_field|].
  intros i w. apply slot_timer.
Qed.

(** The fields filled in for a test, latest first. *)
Definition recorded_fields (i0 : test_init_data_t) : list (test_init_data_t → Z) :=
  serial_irq_cap :: timer_fields ++ untyped_fields ++ cap_fields ++ arch_fields i0.

Lemma copy_serial_caps_below i0 p s :
  below (timer_fields ++ untyped_fields ++ cap_fields ++ arch_fields i0) s →
  wlp (copy_serial_caps p) (λ _ s', below (recorded_fields i0) s') s.
Proof.
  intros HB. unfold copy_serial_caps. looked_up. copied HB. stored HB serial_irq_cap. checked.
  apply (arch_below _ (λ i, Arch_copy_serial_caps i p) serial_written); [exact HB|each_field|].
  intros i w. apply slot_serial.
Qed.

Ltac asked HB lem :=
  lazymatch type of HB with
  | below ?L ?s =>
    let a := fresh "a" in let s' := fresh "s" in let HB' := fresh "HB" in
    apply wlp_bind; eapply wlp_mono; [apply (lib_call_below _ L); [exact HB|apply lem]|];
    intros a s' [HB' _]; clear HB; rename HB' into HB
  end.

Lemma run_test_caps_below p s :
  SEL4UTILS_CNODE_SLOT < next_slot (d_world s) →
  wlp (run_test_caps p) (λ _ s', below (recorded_fields (env_init s)) s') s.
Proof.
  intros H0. set (i0 := env_init s). assert (HB : below (arch_fields i0) s).
  { split; [done|]. unfold SEL4UTILS_CNODE_SLOT in H0. repeat constructor; unfold changed;
      rewrite Z.eqb_refl; lia. }
  clearbody i0. unfold run_test_caps.
  stored_other HB. stored_other HB. copied HB. stored HB page_directory.
  pose proof (proj1 HB). stored HB root_cnode.
  copied HB. stored HB tcb.
  asked HB slot_init_cap. copied HB. stored HB domain.
  asked HB slot_init_cap. copied HB. stored HB asid_pool.
  asked HB slot_init_cap. copied HB. stored HB asid_ctrl.
  asked HB slot_core_count. stored_other HB.
  unfold copy_untypeds. apply wlp_bind. looked_up. looked_up.
  unfold copy_untypeds_to_process. apply wlp_bind. eapply wlp_mono.
  { apply (copy_caps_below (cap_fields ++ arch_fields i0)); [exact HB| |];
      destruct HB; unfold SEL4UTILS_CNODE_SLOT in *; cbn in *; lia. }
  intros r s' (Hr1 & Hr2 & HB' & _). apply wlp_bind.
  destruct (_ =? _); [|done]. apply wlp_ret. apply wlp_ret. apply wlp_bind, wlp_set_init.
  apply wlp_bind. eapply wlp_mono.
  { apply (copy_timer_caps_below i0).
    apply (set_field_below (λ i, r_start (init_untypeds i)) (λ i, i <| init_untypeds := r |>)) in HB';
      [|done|repeat constructor].
    destruct HB' as [Hz HB']. split; [done|]. by constructor. }
  intros [] s'' HB''. by apply copy_serial_caps_below.
Qed.

(** C37: the free slots [run_test] hands to a test are exactly the free slots of
    its CSpace: they start one behind the slot of the fault endpoint, at the
    first slot nothing has been copied to, and run to the end of the CSpace.
    Every slot recorded in the init data lies before them: page directory, root
    CNode, TCB, domain, ASID pool and control, untypeds, timer and serial
    interrupts and device memory, and whatever the architecture's code has
    written to the I/O-port, frame, clock and extra-timer fields.  This is
    provided the copy of the endpoint succeeded and the slot number does not wrap. *)
Theorem run_test_slots_free p ep_cap test_name s :
  SEL4UTILS_CNODE_SLOT < next_slot (d_world s) →
  wlp (run_test_caps p;; endpoint ← copy_cap p ep_cap; run_test_slots endpoint test_name;; mret endpoint)
    (λ endpoint s', endpoint ≠ 0 → endpoint + 1 < word_mod →
       let i := env_init s' in
       let start := r_start (free_slots i) in
       start = endpoint + 1 ∧ free_slots i = mk_region (next_slot (d_world s')) (2 ^ 17) ∧
       Forall (λ f : test_init_data_t → Z, f i < start)
         ([serial_irq_cap] ++ timer_fields ++ untyped_fields ++ cap_fields) ∧
       Forall (λ f : test_init_data_t → Z, f i = f (env_init s) ∨ f i < start)
         (arch_timer_fields ++ arch_serial_fields)) s.
Proof.
  intros H0. apply wlp_bind. eapply wlp_mono; [by apply run_test_caps_below|].
  set (i0 := env_init s). intros [] s1 [H1 HB]. apply wlp_bind, wlp_lib_call.
  eapply wlp_mono; [apply slot_copy|].
  intros ep w' Hep. apply wlp_bind.
  unfold run_test_slots. repeat apply wlp_bind, wlp_set_init. looked_up. apply wlp_bind.
  destruct (_ <? _); [|done]. apply wlp_ret. apply wlp_bind, wlp_set_init. apply wlp_set_init.
  apply wlp_ret. intros Hne Hb. destruct Hep as [[-> _]|[-> Hnext]]; [done|].
  unfold SEL4UTILS_CNODE_SLOT in *.
  assert (Hfree : wrap32 (next_slot (d_world s1) + 1) = next_slot (d_world s1) + 1)
    by (apply wrap32_small; unfold is_word; cbn in *; lia).
  cbn in *. rewrite Hfree, Hnext. split; [done|]. split; [done|].
  rewrite Forall_forall in HB. split; apply Forall_forall; intros f Hf.
  - assert (Hl : f (env_init s1) < next_slot (d_world s1)).
    { apply HB. unfold recorded_fields. set_solver. }
    repeat (apply elem_of_cons in Hf as [->|Hf]; [cbn in *; lia|]). by apply elem_of_nil in Hf.
  - assert (Hl : changed i0 f (env_init s1) < next_slot (d_world s1)).
    { apply HB. unfold recorded_fields, arch_fields. set_solver. }
    unfold changed in Hl. destruct (Z.eqb_spec (f (env_init s1)) (f i0)) as [He|_];
    repeat (apply elem_of_cons in Hf as [->|Hf]; [cbn in *; solve [left; exact He|right; lia]|]);
    by apply elem_of_nil in Hf.
Qed.

(** *** What a test leaves behind *)

(** The libraries' calls return, and the allocator's paths lead to their slot. *)
Class Returning : Prop := {
  ret_lib : ∀ A (c : lib A) w, wp (lib_handle c) (λ _ _, True) w;
  ret_path : ∀ c w, wp (vka_cspace_make_path (Some v) c) (λ p _, capPtr p = c) w;
  ret_revoke : ∀ p w, wp (vka_cnode_revoke p) (λ _ _, True) w
}.

(** The driver's own statics apart from the world and the log. *)
Definition same_statics s s' : Prop :=
  d_untypeds s' = d_untypeds s ∧ num_untypeds s' = num_untypeds s ∧ env_init s' = env_init s.

Lemma wp_lib_call {Ret : Returning} {A} (c : lib A) (Q : A → drv W → Prop) s :
  (∀ a s', same_statics s s' → d_log s' = d_log s ++ [Call c] → Q a s') → wp (lib_call c) Q s.
Proof.
  intros HQ. pose proof (ret_lib A c (d_world s)) as Hr.
  unfold wp, lib_call, emit, on_world, zoom, modify, mbind, M_bind in *. cbn in *.
  destruct (lib_handle c (d_world s)) as [[a|h] w']; [|done]. by apply HQ.
Qed.

Lemma wp_on_world {A} (m : M W A) (R : A → Prop) (Q : A → drv W → Prop) s :
  wp m (λ a _, R a) (d_world s) →
  (∀ a w', R a → Q a (s <| d_world := w' |>)) → wp (on_world m) Q s.
Proof.
  intros Hm HQ. unfold on_world. apply wp_zoom. eapply wp_mono; [exact Hm|]. intros a w'. apply HQ.
Qed.

(** [done k paths]: the first [k] untypeds have been revoked, in order. *)
Definition revoked s0 (k : Z) s : Prop :=
  same_statics s0 s ∧ ∃ paths,
    capPtr <$> paths = cptr <$> take (Z.to_nat k) (d_untypeds s0) ∧
    d_log s = d_log s0 ++ (Revoke <$> paths).

Lemma revoke_untypeds_log {Ret : Returning} s :
  0 ≤ num_untypeds s ≤ Z.of_nat (length (d_untypeds s)) →
  wp (revoke_untypeds v) (λ _ s', revoked s (num_untypeds s) s') s.
Proof.
  intros Hn. unfold revoke_untypeds. apply wp_bind, wp_gets.
  eapply wp_mono; [apply (wp_for_range (revoked s))|].
  - split; [done|]. exists []. split; [done|]. by rewrite app_nil_r.
  - intros i s1 Hi ((Hu & Hnu & Hin) & paths & Hp & Hlog). apply wp_bind, wp_gets. rewrite Hu.
    destruct (lookup_lt_is_Some_2 (d_untypeds s) (Z.to_nat i)) as [o Ho]; [lia|]. rewrite Ho.
    apply wp_bind. eapply wp_on_world; [apply ret_path|]. intros p w1 Hpath.
    apply wp_bind, wp_modify. apply wp_bind. eapply wp_on_world; [apply ret_revoke|].
    intros e w2 _. apply wp_ret. split; [done|]. exists (paths ++ [p]). split.
    + rewrite fmap_app, Hp. cbn. rewrite Hpath, Z2Nat.inj_add by lia.
      replace (Z.to_nat i + Z.to_nat 1)%nat with (S (Z.to_nat i)) by lia.
      rewrite (take_S_r _ _ _ Ho), fmap_app. done.
    + cbn. rewrite Hlog, fmap_app. by rewrite <- app_assoc.
  - intros [] s' H. by rewrite Z.add_0_l, Z2Nat.id in H by lia.
Qed.

Definition fault_events (p : process) (test_name : list Z) (info : Z) : list devent :=
  if seL4_MessageInfo_get_label info =? seL4_Fault_NullFault then []
  else [Call (Print_fault_message info test_name); Call (Dump_registers (tcb_cptr p))].

Lemma run_test_result_log {Ret : Returning} p test_name info mr0 s :
  wp (run_test_result p test_name info mr0) (λ r s',
    r = (if seL4_MessageInfo_get_label info =? seL4_Fault_NullFault then sint32 mr0 else FAILURE) ∧
    same_statics s s' ∧ d_log s' = d_log s ++ fault_events p test_name info) s.
Proof.
  unfold run_test_result, fault_events. destruct (_ =? seL4_Fault_NullFault); cbn [negb].
  - apply wp_ret. by rewrite app_nil_r.
  - apply wp_bind, wp_lib_call. intros _ s1 S1 L1. apply wp_bind, wp_lib_call. intros _ s2 S2 L2.
    apply wp_ret. split; [done|]. split; [unfold same_statics in *; intuition congruence|].
    by rewrite L2, L1, <- app_assoc.
Qed.

(** Once a test has answered or faulted, [run_test] reports success exactly
    when it did not fault and its first message register is [SUCCESS]; in every
    case it unmaps the init data, revokes every untyped of the stock, once and
    in order, and destroys the process, in this order. *)
Theorem run_test_finish_correct {Ret : Returning} p test_name remote_vaddr info mr0 s :
  0 ≤ num_untypeds s ≤ Z.of_nat (length (d_untypeds s)) →
  wp (run_test_finish v p test_name remote_vaddr info mr0) (λ r s',
    let ok := (seL4_MessageInfo_get_label info =? seL4_Fault_NullFault) && (sint32 mr0 =? SUCCESS) in
    r = (if ok then SUCCESS else FAILURE) ∧
    ∃ paths, capPtr <$> paths = cptr <$> take (Z.to_nat (num_untypeds s)) (d_untypeds s) ∧
      d_log s' = d_log s ++ fault_events p test_name info ++ [Call (Vspace_unmap_page p remote_vaddr)]
        ++ (Revoke <$> paths) ++ [Call (Destroy_process p)]
        ++ (if ok then [] else [Call Sel4test_failure])) s.
Proof.
  intros Hn. unfold run_test_finish. apply wp_bind. eapply wp_mono; [apply run_test_result_log|].
  intros r s1 (Hr & S1 & L1). apply wp_bind, wp_lib_call. intros _ s2 S2 L2.
  destruct S1 as (U1 & N1 & _). destruct S2 as (U2 & N2 & _).
  assert (Hn2 : 0 ≤ num_untypeds s2 ≤ Z.of_nat (length (d_untypeds s2))) by congruence.
  apply wp_bind. eapply wp_mono; [by apply revoke_untypeds_log|].
  intros [] s3 (_ & paths & Hp & L3). apply wp_bind, wp_lib_call. intros _ s4 _ L4.
  assert (Hok : (r =? SUCCESS) = (seL4_MessageInfo_get_label info =? seL4_Fault_NullFault)
                                 && (sint32 mr0 =? SUCCESS)) by (rewrite Hr; by destruct (_ =? _)).
  rewrite N2, N1, U2, U1 in Hp. rewrite Hok. destruct (_ && _) eqn:E; cbn [negb].
  - apply wp_ret. split; [by apply Z.eqb_eq in Hok|]. exists paths. split; [done|].
    rewrite L4, L3, L2, L1, app_nil_r. by rewrite <- !app_assoc.
  - apply wp_bind, wp_lib_call. intros _ s5 _ L5. apply wp_ret. split; [done|].
    exists paths. split; [done|]. rewrite L5, L4, L3, L2, L1. by rewrite <- !app_assoc.
Qed.

(** The calls a client's start depends on succeed. *)
Class Succeeding : Prop := {
  ok_configure : ∀ prio app w, wp (lib_handle (Configure_process prio app)) (λ r _, r.1 = 0) w;
  ok_spawn : ∀ p argv r w, wp (lib_handle (Spawn_process_v p argv r)) (λ e _, e = 0) w;
  ok_map : ∀ p c r w, wp (lib_handle (Vspace_map_page p c r)) (λ a _, a ≠ 0) w
}.

Lemma wp_lib_call_ok {A} (c : lib A) (R : A → Prop) (Q : A → drv W → Prop) s :
  (∀ w, wp (lib_handle c) (λ a _, R a) w) →
  (∀ a s', R a → same_statics s s' → env_endpoint s' = env_endpoint s →
     init_frame_cap_copy s' = init_frame_cap_copy s → d_log s' = d_log s ++ [Call c] → Q a s') →
  wp (lib_call c) Q s.
Proof.
  intros Hr HQ. specialize (Hr (d_world s)).
  unfold wp, lib_call, emit, on_world, zoom, modify, mbind, M_bind in *. cbn in *.
  destruct (lib_handle c (d_world s)) as [[a|h] w']; [|done]. by apply HQ.
Qed.

Lemma all_rights : ∃ r, seL4_AllRights = Done r.
Proof. eexists. reflexivity. Qed.
Lemma client_badge : ∃ b, seL4_CapData_Badge_new 97 = Done b.
Proof. eexists. reflexivity. Qed.

Lemma wp_lift {A} (o : outcome A) a (Q : A → drv W → Prop) s : o = Done a → Q a s → wp (lift o) Q s.
Proof. intros ->. done. Qed.

(** [run_test_new] starts a client with a badged capability to the server's
    endpoint and the endpoint's slot as its argument, and returns [SUCCESS] at
    once: between the spawn and the unmapping of the init data and the
    revocation of the stock there is no receive. *)
Theorem run_test_new_does_not_wait {Ret : Returning} {Succ : Succeeding} client s :
  0 ≤ num_untypeds s ≤ Z.of_nat (length (d_untypeds s)) →
  wp (run_test_new v client) (λ r s', r = SUCCESS ∧
    ∃ p src rights badge ep vaddr paths,
      capPtr src = cptr (env_endpoint s) ∧ seL4_CapData_Badge_get_Badge badge = Done 97 ∧
      capPtr <$> paths = cptr <$> take (Z.to_nat (num_untypeds s)) (d_untypeds s) ∧
      d_log s' = d_log s ++
        [Call (Configure_process (priority (env_init s)) TESTS_APP);
         Call (Mint_cap_to_process p src rights badge);
         Call (Spawn_process_v p [TESTS_APP; snprintf_lu WORD_STRING_SIZE ep] 1);
         Call (Vspace_map_page p (init_frame_cap_copy s) rights);
         Call (Vspace_unmap_page p vaddr)] ++ (Revoke <$> paths)) s.
Proof.
  intros Hn. destruct all_rights as [rights Hrights]. destruct client_badge as [badge Hbadge].
  unfold run_test_new. apply wp_bind, wp_gets. apply wp_bind.
  apply (wp_lib_call_ok _ _ _ _ (ok_configure _ _)). intros [e p] s1 He (U1&N1&_) E1 F1 L1.
  simpl in He. subst e. apply wp_bind, wp_assert; [done|]. apply wp_bind, wp_gets.
  apply wp_bind. eapply wp_on_world; [apply ret_path|]. intros src w1 Hsrc.
  apply wp_bind, (wp_lift _ rights); [done|]. apply wp_bind, (wp_lift _ badge); [done|].
  apply wp_bind. eapply wp_lib_call_ok; [intros; apply ret_lib|]. intros ep s2 _ (U2&N2&_) E2 F2 L2.
  apply wp_bind. apply (wp_lib_call_ok _ _ _ _ (ok_spawn _ _ _)). intros e s3 -> (U3&N3&_) E3 F3 L3.
  apply wp_bind, wp_assert; [done|]. apply wp_bind. unfold send_init_data. apply wp_bind, wp_gets.
  apply wp_bind, (wp_lift _ rights); [done|]. apply wp_bind.
  apply (wp_lib_call_ok _ _ _ _ (ok_map _ _ _)). intros vaddr s4 Hv (U4&N4&_) E4 F4 L4.
  apply wp_bind, wp_assert; [by apply negb_true_iff, Z.eqb_neq|]. apply wp_ret.
  apply wp_bind, wp_lib_call. intros _ s5 (U5&N5&_) L5.
  cbn in U2, N2, E2, F2, L2.
  assert (HU : d_untypeds s5 = d_untypeds s) by congruence.
  assert (HN : num_untypeds s5 = num_untypeds s) by congruence.
  apply wp_bind. eapply wp_mono; [apply revoke_untypeds_log; by rewrite HU, HN|].
  intros [] s6 (_ & paths & Hp & L6). apply wp_ret. split; [done|].
  exists p, src, rights, badge, ep, vaddr, paths. split; [by rewrite <- E1|].
  split; [by injection Hbadge as <-|]. split; [by rewrite <- HU, <- HN|].
  rewrite L6, L5, L4, L3, L2, L1. rewrite F3, F2, F1. by rewrite <- !app_assoc.
Qed.

(** The events of [n] threads started from number [i] on. *)
Fixpoint thread_events (tcbs : list Z) (i cspace_cap prim lock : Z) : list devent :=
  match tcbs with
  | [] => []
  | t :: tcbs' =>
    [Call Malloc_thread; Call (Configure_thread 0 seL4_MaxPrio cspace_cap 0 t);
     Call (Start_thread t prim lock 1); Call (Sel4_thread_new i t)]
    ++ thread_events tcbs' (i + 1) cspace_cap prim lock
  end.

(** [sel4_threads_initial] starts its threads in order, every one with the
    same synchronisation object and highest priority, and registers each under
    its number: it returns 1 when all have been started, and 0, after the
    threads before it, when [malloc] fails for one. *)
Theorem start_threads_correct prim num i cspace_cap lock s :
  wlp (start_threads prim num i cspace_cap lock) (λ r s',
    ∃ tcbs, Forall (λ t, t ≠ 0) tcbs ∧
      ((r = 1 ∧ length tcbs = num ∧
        d_log s' = d_log s ++ thread_events tcbs i cspace_cap prim lock) ∨
       (r = 0 ∧ (length tcbs < num)%nat ∧
        d_log s' = d_log s ++ thread_events tcbs i cspace_cap prim lock ++ [Call Malloc_thread]))) s.
Proof.
  revert i s. induction num as [|num IH]; intros i s; cbn [start_threads].
  - apply wlp_ret. exists []. split; [constructor|]. left. by rewrite app_nil_r.
  - apply wlp_bind, wlp_lib_call. eapply (wlp_mono _ (λ _ _, True)).
    { unfold wlp. by destruct (lib_handle _ _) as [[]]. }
    intros t w1 _. destruct (Z.eqb_spec t 0) as [->|Ht].
    { apply wlp_ret. exists []. split; [constructor|]. right. split; [done|]. split; [simpl; lia|done]. }
    do 2 (apply wlp_bind, wlp_lib_call; eapply (wlp_mono _ (λ _ _, True));
      [unfold wlp; by destruct (lib_handle _ _) as [[]]|];
      intros e ? _; apply wlp_bind; destruct (e =? 0); [|done]; apply wlp_ret; clear e).
    apply wlp_bind, wlp_lib_call. eapply (wlp_mono _ (λ _ _, True)).
    { unfold wlp. by destruct (lib_handle _ _) as [[]]. }
    intros [] w4 _. eapply wlp_mono; [apply IH|]. cbn.
    intros r sf (tcbs & Hne & H). exists (t :: tcbs). split; [by constructor|].
    destruct H as [(-> & Hlen & ->)|(-> & Hlen & ->)]; [left|right]; (split; [done|]);
      (split; [simpl; lia|]); cbn; by rewrite <- !app_assoc.
Qed.


(** *** The init data of [main_continued] *)

(** [plat_init] fills in the field that only the platform's code knows. *)
Class PlatLaws : Prop :=
  plat_arch : ∀ i w, wlp (lib_handle (Plat_init i)) (λ i' _, ∃ freq, i' = i <| tsc_freq := freq |>) w.

Lemma wlp_lib_call_any {A} (c : lib A) (Q : A → drv W → Prop) s :
  (∀ a w', Q a (s <| d_log ::= λ l, l ++ [Call c] |> <| d_world := w' |>)) → wlp (lib_call c) Q s.
Proof.
  intros HQ. apply wlp_lib_call. unfold wlp. by destruct (lib_handle c (d_world s)) as [[a|h] w'].
Qed.

Lemma wlp_on_world_any {A} (m : M W A) (Q : A → drv W → Prop) s :
  (∀ a w', Q a (s <| d_world := w' |>)) → wlp (on_world m) Q s.
Proof.
  intros HQ. unfold wlp, on_world, zoom. by destruct (m (d_world s)) as [[a|h] w'].
Qed.

Lemma wlp_assert_any b (Q : unit → drv W → Prop) s : (b = true → Q tt s) → wlp (assert b) Q s.
Proof. intros HQ. destruct b; [by apply HQ|done]. Qed.

Lemma wlp_modify f (Q : unit → drv W → Prop) s : Q tt (f s) → wlp (modify f) Q s.
Proof. done. Qed.

Lemma wlp_lift_any {A} (o : outcome A) (Q : A → drv W → Prop) s : (∀ a, Q a s) → wlp (lift o) Q s.
Proof. intros HQ. unfold wlp, lift. by destruct o. Qed.

Lemma copy_init_frame_statics vaddr s :
  wlp (copy_init_frame v vaddr) (λ _ s', same_statics s s' ∧ d_sizes s' = d_sizes s) s.
Proof.
  unfold copy_init_frame. apply wlp_bind, wlp_lib_call_any. intros cap w1.
  apply wlp_bind, wlp_on_world_any. intros src w2. apply wlp_bind, wlp_on_world_any. intros [e c] w3.
  apply wlp_bind, wlp_modify. apply wlp_bind, wlp_assert_any. intros _.
  apply wlp_bind, wlp_on_world_any. intros dst w4. apply wlp_bind, wlp_lift_any. intros r.
  apply wlp_bind, wlp_on_world_any. intros e' w5. apply wlp_assert_any. done.
Qed.

Lemma populate_statics {VL : VkaLaws v} reserve s :
  arrays_ok reserve (mk_stock (d_world s) (d_untypeds s) (d_sizes s)) →
  wlp (populate v reserve) (λ n s', 0 < n ≤ CONFIG_MAX_NUM_BOOTINFO_UNTYPED_CAPS ∧
    env_init s' = env_init s ∧ Z.of_nat (length (d_untypeds s')) = CONFIG_MAX_NUM_BOOTINFO_UNTYPED_CAPS ∧
    Forall driver_untyped (take (Z.to_nat n) (d_untypeds s')) ∧
    take (Z.to_nat n) (d_sizes s') = size_bits <$> take (Z.to_nat n) (d_untypeds s')) s.
Proof.
  intros Hok. unfold wlp, populate, zoom.
  pose proof (populate_untypeds_run v reserve _ Hok) as H.
  destruct (populate_untypeds v reserve _) as [[n|h] st]; [|done].
  destruct H as [((_ & Hn) & Hl & Hf & _ & _ & Hs) H0]. destruct Hok as (_ & Hu & _). simpl in *.
  split; [done|]. split; [done|]. split; [|done]. by rewrite Hl.
Qed.

(** after [main_continued] has prepared the init data, the size list in the
    init frame names, for every untyped of the stock and in its order, its size,
    the processes run at the highest priority, and at most [MAX_REGIONS] ELF
    regions are recorded. *)
Theorem prepare_init_data_correct {VL : VkaLaws v} {PL : PlatLaws} reserve s :
  arrays_ok reserve (mk_stock (d_world s) (d_untypeds s) (d_sizes s)) →
  wlp (prepare_init_data v reserve) (λ _ s',
    let n := Z.to_nat (num_untypeds s') in
    0 < num_untypeds s' ≤ CONFIG_MAX_NUM_BOOTINFO_UNTYPED_CAPS ∧
    take n (init_size_bits_list (env_init s')) = size_bits <$> take n (d_untypeds s') ∧
    priority (env_init s') = seL4_MaxPrio ∧
    num_elf_regions (env_init s') < MAX_REGIONS) s.
Proof.
  intros Hok. unfold prepare_init_data. apply wlp_bind. eapply wlp_mono; [by apply populate_statics|].
  intros n s1 (Hn & _ & Hl & _ & Hs). apply wlp_bind, wlp_modify. apply wlp_bind, wlp_lift_any. intros rights.
  apply wlp_bind, wlp_lib_call_any. intros vaddr w1. apply wlp_bind, wlp_assert_any. intros _.
  apply wlp_bind. eapply wlp_mono; [apply copy_init_frame_statics|].
  intros [] s2 ((U2 & N2 & _) & S2). cbn in U2, N2, S2. looked_up.
  apply wlp_bind, wlp_set_init. apply wlp_bind, wlp_lib_call_any. intros r w2.
  apply wlp_bind, wlp_assert_any. intros Hr. apply wlp_bind, wlp_lib_call_any. intros regions w3.
  apply wlp_bind, wlp_set_init. apply wlp_bind, wlp_set_init. apply wlp_bind, wlp_set_init.
  looked_up. apply wlp_bind, wlp_lib_call. eapply wlp_mono; [apply plat_arch|].
  intros i' w4 [a ->]. apply wlp_set_init. cbn. rewrite N2, U2, S2. split; [done|].
  split; [|split; [done|by apply Z.ltb_lt]].
  unfold memcpy. rewrite take_app_length'; [done|].
  rewrite Hs, length_fmap, length_take. lia.
Qed.

End driver_specs.

(** ** A concrete set of libraries

    The allocator is the one of [Vka.v]; its counter also numbers the slots of
    the process being set up. *)

Import Bump.

Definition demo_world : Type := srv bump * list event.

Definition set_bump (b : bump) (w : demo_world) : demo_world :=
  let s := w.1 in
  (mk_srv b (client_num s) (client_count s) (buffer s) (buffer_limit s) (terminate_num s)
     (wait_count s) (started s) (reply_eps s) (global_reply_ep s) (slot s) (mrs s), w.2).
Definition get_bump (w : demo_world) : bump := ext w.1.
Definition demo_next (w : demo_world) : Z := next (get_bump w).
Definition bump_slot (w : demo_world) : demo_world :=
  let b := get_bump w in set_bump (mk_bump (next b + 1) (budget b) (books b)) w.

Definition demo_process : process := mk_process 20 21 22 1048576.

#[export] Instance demo_libs : Libs demo_world := λ A c w,
  match c in lib B return outcome B * demo_world with
  | Platsupport_get_bootinfo => (Done 4096, w)
  | Simple_default_init_bootinfo _ => (Done tt, w)
  | Bootstrap_use_current_simple _ => (Done 8192, w)
  | Allocman_make_vka _ => (Done tt, w)
  | Simple_get_pd => (Done 3, w)
  | Simple_get_cnode => (Done 2, w)
  | Simple_get_init_cap c => (Done c, w)
  | Simple_get_core_count => (Done 1, w)
  | Simple_print => (Done tt, w)
  | Bootstrap_vspace_with_bootinfo_leaky _ _ => (Done 0, w)
  | Vspace_reserve_range _ _ _ => (Done (1, 16384), w)
  | Bootstrap_configure_virtual_pool _ _ _ _ => (Done tt, w)
  | Init_default_serial_caps => (Done (0, mk_path 30 32 2 0 0 30 1), w)
  | Arch_get_serial_utspace_alloc_at => (Done 77, w)
  | Platsupport_serial_setup_simple _ => (Done tt, w)
  | Init_default_timer_caps =>
    (Done (0, mk_timer (mk_path 31 32 2 0 0 31 1) 65536 (mk_object 32 0 0 12)), w)
  | Debug_name_thread _ _ => (Done tt, w)
  | Run_on_stack => (Done 0, w)
  | Configure_process _ _ => (Done (0, demo_process), w)
  | Copy_cap_to_process _ _ => (Done (demo_next w), bump_slot w)
  | Mint_cap_to_process _ _ _ _ => (Done (demo_next w), bump_slot w)
  | Spawn_process_v _ _ _ => (Done 0, w)
  | Vspace_map_page _ _ _ => (Done 1048576, w)
  | Vspace_unmap_page _ _ => (Done tt, w)
  | Vspace_new_page _ => (Done 2097152, w)
  | Vspace_get_cap _ => (Done 40, w)
  | Arch_copy_timer_caps i _ => (Done (i <| timer_io_port_cap := demo_next w |>), bump_slot w)
  | Arch_copy_serial_caps i _ => (Done (i <| serial_io_port_cap := demo_next w |>), bump_slot w)
  | Recv_message _ => (Done (0, 1), w)
  | Print_fault_message _ _ => (Done tt, w)
  | Dump_registers _ => (Done tt, w)
  | Destroy_process _ => (Done tt, w)
  | Sel4test_failure => (Done tt, w)
  | Elf_num_regions _ => (Done 2, w)
  | Elf_reserve _ => (Done [(0, 4096); (8192, 4096)], w)
  | Plat_init i => (Done (i <| tsc_freq := 2400 |>), w)
  | Thread_initial => (Done tt, w)
  | Initial_client_pool _ => (Done tt, w)
  | Thread_lock_create => (Done 500, w)
  | Lock_set_held _ => (Done tt, w)
  | Thread_semaphore_create => (Done 501, w)
  | Thread_resume _ => (Done tt, w)
  | Sel4_thread_initial => (Done tt, w)
  | Mutex_init _ _ => (Done 0, w)
  | Mutex_lock _ => (Done 0, w)
  | Sem_new _ _ => (Done 0, w)
  | Bin_sem_new _ _ => (Done 0, w)
  | Cv_new _ => (Done 0, w)
  | Set_lists _ _ => (Done tt, w)
  | Malloc_thread => (Done 900, w)
  | Configure_thread _ _ _ _ _ => (Done 0, w)
  | Start_thread _ _ _ _ => (Done 0, w)
  | Sel4_thread_new _ _ => (Done tt, w)
  end.

#[export] Instance demo_invocations : Invocations demo_world :=
  zoom_invocations get_bump set_bump bump_invocations.
Definition demo_vka : vka_t demo_world := zoom_vka get_bump set_bump bump_vka.
#[export] Instance demo_laws : VkaLaws demo_vka :=
  zoom_laws get_bump set_bump bump_invocations bump_vka (λ _ _, eq_refl) bump_laws.

#[export] Instance demo_cspace : CSpaceLaws (X := bump) demo_next.
Proof.
  split; intros; unfold wlp; cbn; auto.
  - split; [unfold demo_next; cbn; lia|]. unfold timer_written, kept_or_new.
    exists (demo_next w), (clock_timer_irq_cap i), (clock_timer_dev_ut_cap i),
      (clock_timer_paddr i), (extra_timer_irq_cap i), (extra_timer_dev_ut_cap i),
      (extra_timer_paddr i).
    split; [by destruct i|]. unfold demo_next. cbn. intuition lia.
  - split; [unfold demo_next; cbn; lia|]. unfold serial_written, kept_or_new.
    exists (serial_paddr i), (serial_frame_cap i), (demo_next w).
    split; [by destruct i|]. unfold demo_next. cbn. intuition lia.
Qed.

#[export] Instance demo_returning : Returning (X := bump) demo_vka.
Proof. split; [intros A c w; by destruct c|done..]. Qed.

#[export] Instance demo_plat : PlatLaws (X := bump).
Proof. intros i w. unfold wlp. cbn. by eexists. Qed.

#[export] Instance demo_succeeding : Succeeding (X := bump).
Proof. by split. Qed.

Definition demo_init : test_init_data_t :=
  mk_init 0 0 0 0 0 0 0 0 0 0 0 0 0 0 0 0 0 0 0 0 0 (mk_region 0 0) (mk_region 0 0)
    (replicate 167 0) (replicate 40 0) 255 (replicate 4 (0, 0)) 0 0 0 0 0.

Definition demo_drv : drv demo_world :=
  mk_drv (mk_srv (mk_bump 100 1048576 (mk_account ∅ ∅ ∅)) 2 2 0 2 0 0 false (replicate 8 0) 0 zero_path ∅, []) []
    [mk_object 50 1 0 20; mk_object 51 2 0 19] [20; 19] 2 demo_init (mk_object 60 3 2 4) 0 41
    (mk_timer (mk_path 31 32 2 0 0 31 1) 65536 (mk_object 32 0 0 12)) (mk_path 30 32 2 0 0 30 1) 8192.

(** ["TEST_IPC"] *)
Definition demo_name : list Z := [84; 69; 83; 84; 95; 73; 80; 67].

Lemma run_test_slots_correct_witness :
  match run_test_slots (X := bump) 17 demo_name demo_drv with
  | (Done _, s') =>
    wrap32 (17 + 1) < 2 ^ 17 ∧
    free_slots (env_init s') = mk_region (wrap32 (17 + 1)) (2 ^ 17) ∧
    length (name (env_init s')) = TEST_NAME_MAX ∧
    name (env_init s') !! 39%nat = Some 0 ∧
    take 39 (name (env_init s')) = take 39 (drop 5 demo_name ++ replicate 39 0)
  | (Halted h, _) => h = AssertFailed ∧ 2 ^ 17 ≤ wrap32 (17 + 1)
  end.
Proof. exact (run_test_slots_correct 17 demo_name demo_drv eq_refl). Defined.

Lemma run_test_slots_free_witness :
  let m := run_test_caps (X := bump) demo_process;; endpoint ← copy_cap (X := bump) demo_process 22;
           run_test_slots (X := bump) endpoint demo_name;; mret endpoint in
  fst (m demo_drv) = Done 112 ∧
  wlp m (λ endpoint s', endpoint ≠ 0 → endpoint + 1 < word_mod →
    let i := env_init s' in
    let start := r_start (free_slots i) in
    start = endpoint + 1 ∧ free_slots i = mk_region (demo_next (d_world s')) (2 ^ 17) ∧
    Forall (λ f : test_init_data_t → Z, f i < start)
      ([serial_irq_cap] ++ timer_fields ++ untyped_fields ++ cap_fields) ∧
    Forall (λ f : test_init_data_t → Z, f i = f (env_init demo_drv) ∨ f i < start)
      (arch_timer_fields ++ arch_serial_fields)) demo_drv.
Proof.
  split; [vm_compute; reflexivity|].
  exact (run_test_slots_free demo_next demo_process 22 demo_name demo_drv eq_refl).
Defined.

Lemma run_test_finish_correct_witness :
  wp (run_test_finish demo_vka demo_process demo_name 1048576 0 1) (λ r _, r = SUCCESS) demo_drv.
Proof.
  eapply wp_mono; [exact (run_test_finish_correct demo_vka demo_process demo_name 1048576 0 1 demo_drv
    ltac:(cbn; lia))|].
  intros r s' [Hr _]. exact Hr.
Defined.

Lemma run_test_new_does_not_wait_witness :
  wp (run_test_new demo_vka [99]) (λ r _, r = SUCCESS) demo_drv.
Proof.
  eapply wp_mono; [exact (run_test_new_does_not_wait demo_vka [99] demo_drv ltac:(cbn; lia))|].
  intros r s' [Hr _]. exact Hr.
Defined.

Definition demo_boot : drv demo_world :=
  demo_drv <| d_untypeds := replicate 167 zero_object |> <| d_sizes := replicate 167 0 |>.

Lemma prepare_init_data_correct_witness :
  wlp (prepare_init_data demo_vka (replicate 16 zero_object)) (λ _ s',
    let n := Z.to_nat (num_untypeds s') in
    0 < num_untypeds s' ≤ CONFIG_MAX_NUM_BOOTINFO_UNTYPED_CAPS ∧
    take n (init_size_bits_list (env_init s')) = size_bits <$> take n (d_untypeds s') ∧
    priority (env_init s') = seL4_MaxPrio ∧
    num_elf_regions (env_init s') < MAX_REGIONS) demo_boot.
Proof.
  refine (prepare_init_data_correct demo_vka (replicate 16 zero_object) demo_boot _).
  split; [reflexivity|]. split; reflexivity.
Defined.

(** A whole test runs: it is set up, reports success and is cleaned up. *)
Example run_test_runs :
  match run_test demo_vka demo_name demo_drv with
  | (Done r, s') => r = SUCCESS ∧ free_slots (env_init s') = mk_region 113 131072 ∧
                    length (d_log s') = 26%nat
  | _ => False
  end.
Proof. vm_compute. repeat split; reflexivity. Qed.

(** The preparation goes through with an allocator of 64 MiB. *)
Example prepare_init_data_runs :
  let s := demo_boot <| d_world := set_bump (mk_bump 100 67108864 (mk_account ∅ ∅ ∅)) (d_world demo_boot) |> in
  match prepare_init_data demo_vka (replicate 16 zero_object) s with
  | (Done _, s') => 0 < num_untypeds s'
  | _ => False
  end.
Proof. vm_compute. reflexivity. Qed.
