(* ===== verification/Caps.v ===== *)
(** Capabilities of the kernel: [cap_t] as a tagged union, and the functions of
    [object/objecttype.c] and [arch/x86/object/objecttype.c] that only look at
    a capability or compute a new one.  A call to [fail] or a failed [assert]
    is an outcome.

    The fields hold the values the generated accessors return.  The build has
    no [CONFIG_VTX], and its IOMMU code is kept. *)

From S2P Require Import Prelude Messages.

(** ** [cap_t] *)

Inductive cap_t :=
| cap_null_cap
| cap_untyped_cap (capFreeIndex : Z) (capIsDevice : bool) (capBlockSize capPtr : Z)
| cap_endpoint_cap (capEPBadge : Z) (capCanGrant capCanSend capCanReceive : bool) (capEPPtr : Z)
| cap_notification_cap (capNtfnBadge : Z) (capNtfnCanReceive capNtfnCanSend : bool) (capNtfnPtr : Z)
| cap_reply_cap (capReplyMaster : bool) (capTCBPtr : Z)
| cap_cnode_cap (capCNodeRadix capCNodeGuardSize capCNodeGuard capCNodePtr : Z)
| cap_thread_cap (capTCBPtr : Z)
| cap_irq_control_cap
| cap_irq_handler_cap (capIRQ : Z)
| cap_zombie_cap (capZombieID capZombieType : Z)
| cap_domain_cap
| cap_frame_cap (capFSize capFMappedASID capFMappedAddress capFMapType : Z) (capFIsDevice : bool)
    (capFVMRights capFBasePtr : Z)
| cap_page_table_cap (capPTIsMapped : bool) (capPTMappedASID capPTMappedAddress capPTBasePtr : Z)
| cap_page_directory_cap (capPDIsMapped : bool) (capPDMappedASID capPDMappedAddress capPDBasePtr : Z)
| cap_asid_control_cap
| cap_asid_pool_cap (capASIDBase capASIDPool : Z)
| cap_io_space_cap (capDomainID capPCIDevice : Z)
| cap_io_page_table_cap (capIOPTIsMapped : bool)
    (capIOPTLevel capIOPTMappedAddress capIOPTIOASID capIOPTBasePtr : Z)
| cap_io_port_cap (capIOPortFirstPort capIOPortLastPort capIOPortVPID : Z).

#[export] Instance cap_eq_dec : EqDecision cap_t.
Proof. solve_decision. Defined.

(** [cap_get_capType(cap) == cap_null_cap], and the like. *)
Definition is_null (c : cap_t) : bool := match c with cap_null_cap => true | _ => false end.
Definition is_untyped (c : cap_t) : bool := match c with cap_untyped_cap _ _ _ _ => true | _ => false end.
Definition is_cnode (c : cap_t) : bool := match c with cap_cnode_cap _ _ _ _ => true | _ => false end.

(** The odd tags of [enum cap_tag]. *)
Definition isArchCap (c : cap_t) : bool :=
  match c with
  | cap_frame_cap _ _ _ _ _ _ _ | cap_page_table_cap _ _ _ _ | cap_page_directory_cap _ _ _ _
  | cap_asid_control_cap | cap_asid_pool_cap _ _ | cap_io_space_cap _ _
  | cap_io_page_table_cap _ _ _ _ _ | cap_io_port_cap _ _ _ => true
  | _ => false
  end.

(** ** Zombies: the address of a table and the number of slots left in it *)

Definition seL4_SlotBits : Z := 4.
Definition TCB_SIZE_BITS : Z := 10.
Definition TCB_CNODE_RADIX : Z := 4.
Definition ZombieType_ZombieTCB : Z := BIT 5.
Definition ZombieType_ZombieCNode (n : Z) : Z := Z.land n (MASK 5).

Definition Zombie_new (number type ptr : Z) : cap_t :=
  let mask := if type =? ZombieType_ZombieTCB then MASK (TCB_CNODE_RADIX + 1) else MASK (type + 1) in
  cap_zombie_cap (Z.lor (Z.land ptr (wrap32 (Z.lnot mask))) (Z.land number mask)) type.

Definition capZombieBits (type : Z) : Z :=
  if type =? ZombieType_ZombieTCB then TCB_CNODE_RADIX else ZombieType_ZombieCNode type.
Definition capZombieNumber (id type : Z) : Z := Z.land id (MASK (capZombieBits type + 1)).
Definition capZombiePtr (id type : Z) : Z := Z.land id (wrap32 (Z.lnot (MASK (capZombieBits type + 1)))).
Definition set_capZombieNumber (id type n : Z) : cap_t :=
  let mask := MASK (capZombieBits type + 1) in
  cap_zombie_cap (Z.lor (Z.land id (wrap32 (Z.lnot mask))) (Z.land n mask)) type.

(** ** The memory behind a capability *)

Definition X86_SmallPage : Z := 0.
Definition X86_LargePage : Z := 1.
Definition X64_HugePage : Z := 2.

Definition pageBitsForSize (pagesize : Z) : outcome Z :=
  if pagesize =? X86_SmallPage then mret 12
  else if pagesize =? X86_LargePage then mret 22
  else if pagesize =? X64_HugePage then mret 30
  else Halted AssertFailed.

Definition cap_get_archCapSizeBits (c : cap_t) : outcome Z :=
  match c with
  | cap_frame_cap size _ _ _ _ _ _ => pageBitsForSize size
  | cap_page_table_cap _ _ _ _ => mret 12
  | cap_page_directory_cap _ _ _ _ => mret 12
  | cap_io_port_cap _ _ _ => mret 0
  | cap_io_space_cap _ _ => mret 0
  | cap_io_page_table_cap _ _ _ _ _ => mret 12
  | cap_asid_control_cap => mret 0
  | cap_asid_pool_cap _ _ => mret 12
  | _ => Halted AssertFailed
  end.

Definition cap_get_capSizeBits (c : cap_t) : outcome Z :=
  match c with
  | cap_untyped_cap _ _ size _ => mret size
  | cap_endpoint_cap _ _ _ _ _ => mret 4
  | cap_notification_cap _ _ _ _ => mret 4
  | cap_cnode_cap radix _ _ _ => mret (wrap32 (radix + seL4_SlotBits))
  | cap_thread_cap _ => mret TCB_SIZE_BITS
  | cap_zombie_cap _ type =>
    if type =? ZombieType_ZombieTCB then mret TCB_SIZE_BITS
    else mret (wrap32 (ZombieType_ZombieCNode type + seL4_SlotBits))
  | cap_null_cap | cap_domain_cap | cap_reply_cap _ _ | cap_irq_control_cap | cap_irq_handler_cap _ => mret 0
  | _ => cap_get_archCapSizeBits c
  end.

Definition cap_get_archCapIsPhysical (c : cap_t) : outcome bool :=
  match c with
  | cap_frame_cap _ _ _ _ _ _ _ | cap_page_table_cap _ _ _ _ | cap_page_directory_cap _ _ _ _ => mret true
  | cap_io_port_cap _ _ _ | cap_io_space_cap _ _ => mret false
  | cap_io_page_table_cap _ _ _ _ _ => mret true
  | cap_asid_control_cap => mret false
  | cap_asid_pool_cap _ _ => mret true
  | _ => Halted AssertFailed
  end.

(** There is no case for the null capability. *)
Definition cap_get_capIsPhysical (c : cap_t) : outcome bool :=
  match c with
  | cap_untyped_cap _ _ _ _ | cap_endpoint_cap _ _ _ _ _ | cap_notification_cap _ _ _ _
  | cap_cnode_cap _ _ _ _ | cap_thread_cap _ | cap_zombie_cap _ _ => mret true
  | cap_domain_cap | cap_reply_cap _ _ | cap_irq_control_cap | cap_irq_handler_cap _ => mret false
  | _ => cap_get_archCapIsPhysical c
  end.

Definition cap_get_archCapPtr (c : cap_t) : outcome Z :=
  match c with
  | cap_frame_cap _ _ _ _ _ _ ptr => mret ptr
  | cap_page_table_cap _ _ _ ptr => mret ptr
  | cap_page_directory_cap _ _ _ ptr => mret ptr
  | cap_io_port_cap _ _ _ | cap_io_space_cap _ _ => mret 0
  | cap_io_page_table_cap _ _ _ _ ptr => mret ptr
  | cap_asid_control_cap => mret 0
  | cap_asid_pool_cap _ ptr => mret ptr
  | _ => Halted AssertFailed
  end.

(** The block of a thread starts with its slots. *)
Definition tcb_block (tcb : Z) : Z := Z.land tcb (wrap32 (Z.lnot (MASK TCB_SIZE_BITS))).

Definition cap_get_capPtr (c : cap_t) : outcome Z :=
  match c with
  | cap_untyped_cap _ _ _ ptr => mret ptr
  | cap_endpoint_cap _ _ _ _ ptr => mret ptr
  | cap_notification_cap _ _ _ ptr => mret ptr
  | cap_cnode_cap _ _ _ ptr => mret ptr
  | cap_thread_cap tcb => mret (tcb_block tcb)
  | cap_zombie_cap id type => mret (capZombiePtr id type)
  | cap_domain_cap | cap_reply_cap _ _ | cap_irq_control_cap | cap_irq_handler_cap _ => mret 0
  | _ => cap_get_archCapPtr c
  end.

(** ** Comparing capabilities *)

Definition Arch_sameRegionAs (cap_a cap_b : cap_t) : outcome bool :=
  match cap_a, cap_b with
  | cap_frame_cap sizeA _ _ _ _ _ botA, cap_frame_cap sizeB _ _ _ _ _ botB =>
    bitsA ← pageBitsForSize sizeA;
    bitsB ← pageBitsForSize sizeB;
    let topA := wrap32 (botA + MASK bitsA) in
    let topB := wrap32 (botB + MASK bitsB) in
    mret ((botA <=? botB) && (topB <=? topA) && (botB <=? topB))
  | cap_page_table_cap _ _ _ a, cap_page_table_cap _ _ _ b => mret (a =? b)
  | cap_page_directory_cap _ _ _ a, cap_page_directory_cap _ _ _ b => mret (a =? b)
  | cap_asid_control_cap, cap_asid_control_cap => mret true
  | cap_asid_pool_cap _ a, cap_asid_pool_cap _ b => mret (a =? b)
  | cap_io_port_cap botA topA _, cap_io_port_cap botB topB _ => mret ((botA <=? botB) && (topB <=? topA))
  | cap_io_space_cap _ a, cap_io_space_cap _ b => mret (a =? b)
  | cap_io_page_table_cap _ _ _ _ a, cap_io_page_table_cap _ _ _ _ b => mret (a =? b)
  | _, _ => mret false
  end.

Definition Arch_sameObjectAs (cap_a cap_b : cap_t) : outcome bool :=
  match cap_a, cap_b with
  | cap_io_port_cap _ _ _, cap_io_port_cap _ _ _ => mret true
  | cap_io_port_cap _ _ _, _ => mret false
  | cap_frame_cap sizeA _ _ _ _ _ a, cap_frame_cap sizeB _ _ _ _ _ b => mret ((a =? b) && (sizeA =? sizeB))
  | _, _ => Arch_sameRegionAs cap_a cap_b
  end.

Definition sameRegionAs (cap_a cap_b : cap_t) : outcome bool :=
  match cap_a with
  | cap_untyped_cap _ _ size aBase =>
    phys ← cap_get_capIsPhysical cap_b;
    if phys : bool then
      bBase ← cap_get_capPtr cap_b;
      bBits ← cap_get_capSizeBits cap_b;
      let aTop := wrap32 (aBase + MASK size) in
      let bTop := wrap32 (bBase + MASK bBits) in
      mret ((aBase <=? bBase) && (bTop <=? aTop) && (bBase <=? bTop))
    else mret false
  | cap_endpoint_cap _ _ _ _ a =>
    mret (match cap_b with cap_endpoint_cap _ _ _ _ b => a =? b | _ => false end)
  | cap_notification_cap _ _ _ a =>
    mret (match cap_b with cap_notification_cap _ _ _ b => a =? b | _ => false end)
  | cap_cnode_cap radixA _ _ a =>
    mret (match cap_b with cap_cnode_cap radixB _ _ b => (a =? b) && (radixA =? radixB) | _ => false end)
  | cap_thread_cap a => mret (match cap_b with cap_thread_cap b => a =? b | _ => false end)
  | cap_reply_cap _ a => mret (match cap_b with cap_reply_cap _ b => a =? b | _ => false end)
  | cap_domain_cap => mret (match cap_b with cap_domain_cap => true | _ => false end)
  | cap_irq_control_cap =>
    mret (match cap_b with cap_irq_control_cap | cap_irq_handler_cap _ => true | _ => false end)
  | cap_irq_handler_cap a => mret (match cap_b with cap_irq_handler_cap b => a =? b | _ => false end)
  | _ => if isArchCap cap_a && isArchCap cap_b then Arch_sameRegionAs cap_a cap_b else mret false
  end.

Definition sameObjectAs (cap_a cap_b : cap_t) : outcome bool :=
  match cap_a, cap_b with
  | cap_untyped_cap _ _ _ _, _ => mret false
  | cap_irq_control_cap, cap_irq_handler_cap _ => mret false
  | _, _ =>
    if isArchCap cap_a && isArchCap cap_b then Arch_sameObjectAs cap_a cap_b
    else sameRegionAs cap_a cap_b
  end.

Definition hasCancelSendRights (c : cap_t) : bool :=
  match c with
  | cap_endpoint_cap _ canGrant canSend canReceive _ => canSend && canReceive && canGrant
  | _ => false
  end.

(** ** Computing capabilities *)

Definition wordRadix : Z := 5.
Definition wordBits : Z := 32.

Definition cnode_capdata_get_guard (w : Z) : Z := bf_get 0x3ffff00 8 w.
Definition cnode_capdata_get_guardSize (w : Z) : Z := bf_get 0xf8 3 w.
Definition io_space_capdata_get_domainID (w : Z) : Z := bf_get 0xffff0000 16 w.
Definition io_space_capdata_get_PCIDevice (w : Z) : Z := bf_get 0xffff 0 w.
Definition io_port_capdata_get_firstPort (w : Z) : Z := bf_get 0xffff0000 16 w.
Definition io_port_capdata_get_lastPort (w : Z) : Z := bf_get 0xffff 0 w.

(** The setters of the badge and of the guard: what a getter reads afterwards.
    The guards of the badge setters shift the complement of the mask and so
    check nothing ([Messages.MessageInfo_set_label_truncates]). *)
Definition set_badge (v : Z) : outcome Z :=
  check (bf_fits (Z.shiftr (wrap32 (Z.lnot 0xfffffff0)) 4) v);;
  mret (bf_get 0xfffffff0 4 (bf_set 0xfffffff0 4 0 v)).
Definition set_guard (v : Z) : outcome Z :=
  check (bf_fits (wrap32 (Z.lnot 0x3ffff)) v);;
  mret (bf_get 0x3ffff 0 (bf_set 0x3ffff 0 0 v)).
Definition set_guardSize (v : Z) : outcome Z :=
  check (bf_fits (Z.shiftr (wrap32 (Z.lnot 0xf800000)) 23) v);;
  mret (bf_get 0xf800000 23 (bf_set 0xf800000 23 0 v)).

(** The IO domains the hardware has: [x86KSFirstValidIODomain] and
    [x86KSnumIODomainIDBits]. *)
Record io_domains := mk_io { x86KSFirstValidIODomain : Z; x86KSnumIODomainIDBits : Z }.

Definition VPID_INVALID : Z := 0.

Definition Arch_updateCapData (io : io_domains) (preserve : bool) (data : Z) (c : cap_t) : outcome cap_t :=
  match c with
  | cap_io_space_cap _ pciDevice =>
    let PCIDevice := io_space_capdata_get_PCIDevice data in
    let domainID := io_space_capdata_get_domainID data in
    if negb preserve && (pciDevice =? 0) && (x86KSFirstValidIODomain io <=? domainID)
       && negb (domainID =? 0) && (domainID <=? MASK (x86KSnumIODomainIDBits io))
    then mret (cap_io_space_cap domainID PCIDevice)
    else mret cap_null_cap
  | cap_io_port_cap capFirstPort capLastPort _ =>
    let firstPort := io_port_capdata_get_firstPort data in
    let lastPort := io_port_capdata_get_lastPort data in
    check (capFirstPort <=? capLastPort);;
    if lastPort <? firstPort then mret cap_null_cap
    else if (capFirstPort <=? firstPort) && (lastPort <=? capLastPort)
    then mret (cap_io_port_cap firstPort lastPort VPID_INVALID)
    else mret cap_null_cap
  | _ => mret c
  end.

Definition updateCapData (io : io_domains) (preserve : bool) (newData : Z) (c : cap_t) : outcome cap_t :=
  if isArchCap c then Arch_updateCapData io preserve newData c
  else
    match c with
    | cap_endpoint_cap badge g s r ptr =>
      if negb preserve && (badge =? 0)
      then b ← set_badge newData; mret (cap_endpoint_cap b g s r ptr)
      else mret cap_null_cap
    | cap_notification_cap badge r s ptr =>
      if negb preserve && (badge =? 0)
      then b ← set_badge newData; mret (cap_notification_cap b r s ptr)
      else mret cap_null_cap
    | cap_cnode_cap radix _ _ ptr =>
      let guardSize := cnode_capdata_get_guardSize newData in
      if wordBits <? wrap32 (guardSize + radix) then mret cap_null_cap
      else
        let guard := Z.land (cnode_capdata_get_guard newData) (MASK guardSize) in
        g ← set_guard guard;
        gs ← set_guardSize guardSize;
        mret (cap_cnode_cap radix gs g ptr)
    | _ => mret c
    end.

Definition VMKernelOnly : Z := 1.
Definition VMReadOnly : Z := 2.
Definition VMReadWrite : Z := 3.

(** The rights of a word. *)
Definition allow_grant (rights : Z) : bool := negb (CapRights.seL4_CapRights_get_capAllowGrant rights =? 0).
Definition allow_read (rights : Z) : bool := negb (CapRights.seL4_CapRights_get_capAllowRead rights =? 0).
Definition allow_write (rights : Z) : bool := negb (CapRights.seL4_CapRights_get_capAllowWrite rights =? 0).

Definition maskVMRights (vm_rights cap_rights_mask : Z) : Z :=
  if (vm_rights =? VMReadOnly) && allow_read cap_rights_mask then VMReadOnly
  else if (vm_rights =? VMReadWrite) && allow_read cap_rights_mask
  then (if negb (allow_write cap_rights_mask) then VMReadOnly else VMReadWrite)
  else VMKernelOnly.

Definition Arch_maskCapRights (cap_rights_mask : Z) (c : cap_t) : cap_t :=
  match c with
  | cap_frame_cap size asid addr mt dev vm_rights ptr =>
    cap_frame_cap size asid addr mt dev (maskVMRights vm_rights cap_rights_mask) ptr
  | _ => c
  end.

Definition maskCapRights (cap_rights : Z) (c : cap_t) : cap_t :=
  if isArchCap c then Arch_maskCapRights cap_rights c
  else
    match c with
    | cap_endpoint_cap badge canGrant canSend canReceive ptr =>
      cap_endpoint_cap badge (canGrant && allow_grant cap_rights) (canSend && allow_write cap_rights)
        (canReceive && allow_read cap_rights) ptr
    | cap_notification_cap badge canReceive canSend ptr =>
      cap_notification_cap badge (canReceive && allow_read cap_rights) (canSend && allow_write cap_rights) ptr
    | _ => c
    end.

(** ** Identity of objects *)

Lemma sameObjectAs_total a b : ∃ r, sameObjectAs a b = Done r.
Proof. destruct a; destruct b; eexists; reflexivity. Qed.

Lemma sameObjectAs_sym a b : sameObjectAs a b = sameObjectAs b a.
Proof.
  destruct a, b; try reflexivity; cbn; f_equal; rewrite 1?Z.eqb_sym; try done.
  all: f_equal; apply Z.eqb_sym.
Qed.

(** [sameObjectAs] never fails and is symmetric and transitive, so that
    looking at one neighbour on each side says the same as looking from them;
    only capabilities that name an object of their own (not the null, untyped
    and zombie capabilities) are the same object as themselves. *)
Theorem sameObjectAs_per :
  (∀ a b, ∃ r, sameObjectAs a b = Done r) ∧
  (∀ a b, sameObjectAs a b = sameObjectAs b a) ∧
  (∀ a b c, sameObjectAs a b = Done true → sameObjectAs b c = Done true → sameObjectAs a c = Done true) ∧
  (∀ a, sameObjectAs a a = Done true ↔
    match a with cap_null_cap | cap_untyped_cap _ _ _ _ | cap_zombie_cap _ _ => False | _ => True end).
Proof.
  split_and!.
  - apply sameObjectAs_total.
  - apply sameObjectAs_sym.
  - intros a b c Hab Hbc. destruct a, b; try done; destruct c; try done; cbn in *.
    all: injection Hab as Hab; injection Hbc as Hbc.
    all: rewrite ?andb_true_iff, ?Z.eqb_eq in *; f_equal; rewrite ?andb_true_iff, ?Z.eqb_eq; intuition congruence.
  - intros a. destruct a; cbn; rewrite ?Z.eqb_refl; split; done.
Qed.

(** ** Rights *)

Lemma allow_bit mask i (r : Z) :
  0 ≤ i → mask = 2 ^ i → negb (bf_get mask i r =? 0) = Z.testbit r i.
Proof.
  intros Hi ->. unfold bf_get.
  assert (E : Z.shiftr (Z.land r (2 ^ i)) i = Z.b2z (Z.testbit r i)).
  { apply Z.bits_inj'. intros n Hn. rewrite Z.shiftr_spec, Z.land_spec, Z.pow2_bits_eqb by lia.
    destruct (Z.eqb_spec i (n + i)) as [E|E].
    - assert (n = 0) as -> by lia. rewrite Z.add_0_l, andb_true_r. by destruct (Z.testbit r i).
    - rewrite andb_false_r. destruct (Z.testbit r i); [|by rewrite Z.bits_0].
      change (Z.b2z true) with (2 ^ 0). rewrite Z.pow2_bits_eqb by lia.
      destruct (Z.eqb_spec 0 n); [lia|done]. }
  rewrite E. by destruct (Z.testbit r i).
Qed.

Lemma allow_grant_bit r : allow_grant r = Z.testbit r 2.
Proof. by apply allow_bit. Qed.
Lemma allow_read_bit r : allow_read r = Z.testbit r 1.
Proof. by apply allow_bit. Qed.
Lemma allow_write_bit r : allow_write r = Z.testbit r 0.
Proof. by apply allow_bit. Qed.

(** [a] has at most the rights of [b], on the same object. *)
Definition rights_le (a b : cap_t) : Prop :=
  match a, b with
  | cap_endpoint_cap ba ga sa ra pa, cap_endpoint_cap bb gb sb rb pb =>
    ba = bb ∧ pa = pb ∧ (ga → gb) ∧ (sa → sb) ∧ (ra → rb)
  | cap_notification_cap ba ra sa pa, cap_notification_cap bb rb sb pb =>
    ba = bb ∧ pa = pb ∧ (ra → rb) ∧ (sa → sb)
  | cap_frame_cap za aa da ma va ra pa, cap_frame_cap zb ab db mb vb rb pb =>
    (za, aa, da, ma, va, pa) = (zb, ab, db, mb, vb, pb) ∧
    (ra = rb ∨ ra = VMKernelOnly ∨ (ra = VMReadOnly ∧ rb = VMReadWrite))
  | _, _ => a = b
  end.

(** Masking never adds a right and leaves everything else of the
    capability alone, and masking twice is masking with the rights both masks
    have. *)
Theorem maskCapRights_restricts r1 r2 c :
  rights_le (maskCapRights r1 c) c ∧
  maskCapRights r2 (maskCapRights r1 c) = maskCapRights (Z.land r1 r2) c.
Proof.
  split.
  - destruct c; cbn; try done.
    + rewrite !andb_True. tauto.
    + rewrite !andb_True. tauto.
    + split; [done|]. unfold maskVMRights.
      destruct (Z.eqb_spec capFVMRights VMReadOnly), (Z.eqb_spec capFVMRights VMReadWrite),
        (allow_read r1), (allow_write r1); cbn; auto.
  - unfold maskCapRights, Arch_maskCapRights, maskVMRights.
    rewrite ?allow_grant_bit, ?allow_read_bit, ?allow_write_bit, ?Z.land_spec.
    generalize (Z.testbit r1 0), (Z.testbit r1 1), (Z.testbit r1 2),
      (Z.testbit r2 0), (Z.testbit r2 1), (Z.testbit r2 2).
    intros w1 d1 g1 w2 d2 g2. destruct c; cbn; try done.
    + by rewrite !andb_assoc.
    + by rewrite !andb_assoc.
    + f_equal.
      destruct (Z.eqb_spec capFVMRights VMReadOnly), (Z.eqb_spec capFVMRights VMReadWrite),
        w1, d1, w2, d2; try done; unfold VMReadOnly, VMReadWrite in *; lia.
Qed.

(** ** Minting: what the user library packs, the kernel unpacks *)

Lemma set_badge_small b : 0 ≤ b < 2 ^ 28 → set_badge b = Done b.
Proof.
  intros Hb. unfold set_badge, mbind, outcome_bind, mret, outcome_ret. cbn. f_equal.
  change (bf_get (field 4 28) 4 (bf_set (field 4 28) 4 0 b) = b). by apply bf_get_set_same.
Qed.

Lemma Badge_new_value b : 0 ≤ b < 2 ^ 28 → CapData.seL4_CapData_Badge_new b = Done b.
Proof.
  intros Hb. unfold CapData.seL4_CapData_Badge_new, CapData.seL4_CapData_Badge, seL4_DebugAssert, check.
  name_fields. rewrite !bf_fits_ones by lia. unfold mbind, outcome_bind, mret, outcome_ret. f_equal.
  unfold bf_put. rewrite (Z.land_ones b), (Z.mod_small b), Z.shiftl_0_r by lia.
  change (wrap32 b = b). apply wrap32_small. unfold is_word, word_mod. lia.
Qed.

Lemma set_guard_small g : 0 ≤ g < 2 ^ 18 → set_guard g = Done g.
Proof.
  intros Hg. unfold set_guard, check. name_fields. rewrite bf_fits_ones by lia.
  unfold mbind, outcome_bind, mret, outcome_ret. f_equal.
  change (bf_get (field 0 18) 0 (bf_set (field 0 18) 0 0 g) = g). by apply bf_get_set_same.
Qed.

Lemma set_guardSize_small s : 0 ≤ s < 2 ^ 5 → set_guardSize s = Done s.
Proof.
  intros Hs. unfold set_guardSize, check.
  assert (E : bf_fits (Z.shiftr (wrap32 (Z.lnot 0xf800000)) 23) s = true).
  { unfold bf_fits. change (Z.shiftr (wrap32 (Z.lnot 0xf800000)) 23) with (field 5 4).
    apply Z.eqb_eq, Z.bits_inj'. intros i Hi. rewrite Z.land_spec, field_testbit, Z.bits_0 by lia.
    destruct (Z.leb_spec 5 i); [|done]. rewrite (small_testbit s 5) by lia. apply andb_false_r. }
  rewrite E. unfold mbind, outcome_bind, mret, outcome_ret. f_equal.
  change (bf_get (field 23 5) 23 (bf_set (field 23 5) 23 0 s) = s). by apply bf_get_set_same.
Qed.

(** C38: minting with the user library's capability data: a badge packed by
    [seL4_CapData_Badge_new] becomes the badge of an unbadged endpoint or
    notification capability and is refused for a badged one and by a mutation;
    a guard packed by [seL4_CapData_Guard_new] becomes the guard of a CNode
    capability, cut to its size, if guard and radix fit a word. *)
Theorem mint_with_capdata io b badge g s r ptr bits size radix gs0 g0 :
  0 ≤ b < 2 ^ 28 → 0 ≤ bits < 2 ^ 18 → 0 ≤ size < 2 ^ 5 → 0 ≤ radix < 2 ^ 5 →
  (w ← CapData.seL4_CapData_Badge_new b; updateCapData io false w (cap_endpoint_cap badge g s r ptr))
  = Done (if badge =? 0 then cap_endpoint_cap b g s r ptr else cap_null_cap) ∧
  (w ← CapData.seL4_CapData_Badge_new b; updateCapData io false w (cap_notification_cap badge r s ptr))
  = Done (if badge =? 0 then cap_notification_cap b r s ptr else cap_null_cap) ∧
  (w ← CapData.seL4_CapData_Badge_new b; updateCapData io true w (cap_endpoint_cap badge g s r ptr))
  = Done cap_null_cap ∧
  (w ← CapData.seL4_CapData_Guard_new bits size; updateCapData io false w (cap_cnode_cap radix gs0 g0 ptr))
  = Done (if 32 <? size + radix then cap_null_cap
          else cap_cnode_cap radix size (bits mod 2 ^ size) ptr).
Proof.
  intros Hb Hbits Hsize Hradix. rewrite Badge_new_value by done.
  unfold mbind, outcome_bind. cbn [updateCapData isArchCap negb andb]. split_and!; try done.
  - destruct (badge =? 0); [|done]. by rewrite set_badge_small.
  - destruct (badge =? 0); [|done]. by rewrite set_badge_small.
  - unfold CapData.seL4_CapData_Guard_new, CapData.seL4_CapData_Guard, seL4_DebugAssert, check.
    name_fields. rewrite !bf_fits_ones by lia. unfold mbind, outcome_bind, mret, outcome_ret.
    unfold cnode_capdata_get_guardSize, cnode_capdata_get_guard, wordBits. name_fields.
    change (bf_fits (wrap32 (Z.lnot 1)) 1) with true. cbv beta iota zeta. read_fields. rewrite (wrap32_small (size + radix)) by (unfold is_word, word_mod; lia).
    destruct (Z.ltb_spec 32 (size + radix)); [done|].
    assert (E : Z.land bits (MASK size) = bits mod 2 ^ size).
    { unfold MASK. rewrite BIT_pow2 by lia.
      assert (0 < 2 ^ size ≤ 2 ^ 31) by (split; [apply Z.pow_pos_nonneg; lia|apply Z.pow_le_mono_r; lia]).
      rewrite wrap32_small by (unfold is_word, word_mod; lia).
      rewrite <- Z.land_ones by lia. by rewrite Z.ones_equiv, Z.sub_1_r. }
    assert (0 ≤ bits mod 2 ^ size < 2 ^ 18).
    { pose proof (Z.mod_le bits (2 ^ size)).
      pose proof (Z.mod_pos_bound bits (2 ^ size) ltac:(apply Z.pow_pos_nonneg; lia)).
      assert (0 < 2 ^ size) by (apply Z.pow_pos_nonneg; lia). lia. }
    rewrite E, set_guard_small, set_guardSize_small by lia. done.
Qed.

Lemma mint_with_capdata_witness :
  (w ← CapData.seL4_CapData_Guard_new 5 3; updateCapData (mk_io 16 8) false w (cap_cnode_cap 12 0 0 4096))
  = Done (if 32 <? 3 + 12 then cap_null_cap else cap_cnode_cap 12 3 (5 mod 2 ^ 3) 4096).
Proof.
  refine (proj2 (proj2 (proj2
    (mint_with_capdata (mk_io 16 8) 97 0 true true true 4096 5 3 12 0 0 _ _ _ _)))); lia.
Defined.
