(* ===== verification/Kernel.v ===== *)
(** The kernel's thread control blocks, the queues threaded through them and
    the state the scheduler and the IPC objects share: the structures of
    [object/structures.h] and [model/statedata.c] in the kernel of the build
    ([build/kernel/kernel_all.c], [kernel_final.c]; one node, one domain).

    A pointer is an address; 0 is NULL, and an access through a pointer to no
    object halts.  The second half of the file is a small theory of the
    kernel's doubly linked queues: what [head], [end] and the two link fields
    mean as a list, and how the list changes with them. *)

From S2P Require Import Prelude Caps.

(** ** Objects *)

Inductive thread_state :=
| ThreadState_Inactive | ThreadState_Running | ThreadState_Restart
| ThreadState_BlockedOnReceive | ThreadState_BlockedOnSend | ThreadState_BlockedOnReply
| ThreadState_BlockedOnNotification | ThreadState_IdleThreadState.

#[export] Instance thread_state_eq_dec : EqDecision thread_state.
Proof. solve_decision. Defined.

(** Errors a lookup, a system call or a thread leaves behind. *)
Inductive lookup_fault :=
| lookup_fault_invalid_root
| lookup_fault_missing_capability (bitsLeft : Z)
| lookup_fault_depth_mismatch (bitsFound bitsLeft : Z)
| lookup_fault_guard_mismatch (guardFound bitsLeft bitsFound : Z).

Inductive fault :=
| seL4_Fault_NullFault
| seL4_Fault_CapFault (address : Z) (inReceivePhase : bool)
| seL4_Fault_UnknownSyscall (syscallNumber : Z)
| seL4_Fault_UserException (number code : Z)
| seL4_Fault_VMFault (address FSR : Z) (instructionFault : bool).

Record syscall_error_t := mk_error {
  invalidArgumentNumber : Z; invalidCapNumber : Z; rangeErrorMin : Z; rangeErrorMax : Z;
  memoryLeft : Z; failedLookupWasSource : bool; error_type : Z
}.
#[export] Instance eta_error : Eta syscall_error_t := λ e,
  mk_error (invalidArgumentNumber e) (invalidCapNumber e) (rangeErrorMin e) (rangeErrorMax e)
    (memoryLeft e) (failedLookupWasSource e) (error_type e).

(** [struct tcb], with the fields of its [thread_state_t] beside the others. *)
Record tcb_t := mk_tcb {
  tsType : thread_state;
  tcbQueued : bool;
  blockingObject : Z;
  blockingIPCBadge : Z;
  blockingIPCCanGrant : bool;
  blockingIPCIsCall : bool;
  tcbBoundNotification : Z;
  tcbFault : fault;
  tcbLookupFailure : lookup_fault;
  tcbDomain : Z;
  tcbMCP : Z;
  tcbPriority : Z;
  tcbTimeSlice : Z;
  tcbFaultHandler : Z;
  tcbIPCBuffer : Z;
  tcbSchedNext : Z;
  tcbSchedPrev : Z;
  tcbEPNext : Z;
  tcbEPPrev : Z;
  registers : gmap Z Z
}.
#[export] Instance eta_tcb : Eta tcb_t := λ t,
  mk_tcb (tsType t) (tcbQueued t) (blockingObject t) (blockingIPCBadge t) (blockingIPCCanGrant t)
    (blockingIPCIsCall t) (tcbBoundNotification t) (tcbFault t) (tcbLookupFailure t) (tcbDomain t)
    (tcbMCP t) (tcbPriority t) (tcbTimeSlice t) (tcbFaultHandler t) (tcbIPCBuffer t) (tcbSchedNext t) (tcbSchedPrev t) (tcbEPNext t) (tcbEPPrev t)
    (registers t).

(** [tcb_queue_t]. *)
Record tcb_queue_t := mk_queue { q_head : Z; q_end : Z }.
#[export] Instance eta_queue : Eta tcb_queue_t := λ q, mk_queue (q_head q) (q_end q).

Inductive notification_state := NtfnState_Idle | NtfnState_Waiting | NtfnState_Active.
Inductive endpoint_state := EPState_Idle | EPState_Send | EPState_Recv.
#[export] Instance endpoint_state_eq_dec : EqDecision endpoint_state.
Proof. solve_decision. Defined.
#[export] Instance notification_state_eq_dec : EqDecision notification_state.
Proof. solve_decision. Defined.

Record notification_t := mk_ntfn {
  ntfnState : notification_state;
  ntfnQueue : tcb_queue_t;
  ntfnMsgIdentifier : Z;
  ntfnBoundTCB : Z
}.
#[export] Instance eta_ntfn : Eta notification_t := λ n,
  mk_ntfn (ntfnState n) (ntfnQueue n) (ntfnMsgIdentifier n) (ntfnBoundTCB n).

Record endpoint_t := mk_ep { epState : endpoint_state; epQueue : tcb_queue_t }.
#[export] Instance eta_ep : Eta endpoint_t := λ e, mk_ep (epState e) (epQueue e).

(** [struct cte] and [mdb_node_t]: a slot and its place in the derivation list. *)
Record mdb_node_t := mdb_node_new {
  mdbNext : Z; mdbRevocable : bool; mdbFirstBadged : bool; mdbPrev : Z
}.
#[export] Instance eta_mdb : Eta mdb_node_t := λ m,
  mdb_node_new (mdbNext m) (mdbRevocable m) (mdbFirstBadged m) (mdbPrev m).
Record cte_t := mk_cte { cte_cap : cap_t; cteMDBNode : mdb_node_t }.
#[export] Instance eta_cte : Eta cte_t := λ c, mk_cte (cte_cap c) (cteMDBNode c).
Definition nullMDBNode : mdb_node_t := mdb_node_new 0 false false 0.

(** What is connected to an interrupt line. *)
Inductive x86_irq_state :=
| x86_irq_state_irq_free
| x86_irq_state_irq_ioapic (id pin level polarity_low masked : Z)
| x86_irq_state_irq_msi (bus dev func handle : Z)
| x86_irq_state_irq_reserved.

(** Calls out of this model: what the processor and the IOMMU keep of the page
    tables, the I/O ports, the interrupt controller, the FPU's owner and the list
    of threads kept for debugging.  They change none of the state below; the
    kernel's calls are recorded. *)
Inductive arch_call :=
| call_setCurrentPD (pd : Z)
| call_invalidateTranslationSingleASID (vptr asid : Z)
| call_invalidatePageStructureCacheASID (root asid : Z)
| call_flushCacheRange (vaddr size_bits : Z)
| call_invalidate_iotlb
| call_in (bits port : Z)
| call_out (bits port data : Z)
| call_tcbDebugRemove (tcb : Z)
| call_fpuThreadDelete (tcb : Z)
| call_initFpuContext (tcb : Z)
| call_switchLocalFpuOwner (tcb : Z)
| call_tcbDebugAppend (tcb : Z)
| call_updateIRQState (irq : Z) (st : x86_irq_state)
| call_ioapic_map_pin_to_vector (ioapic pin level polarity vector : Z)
| call_ackInterrupt (irq : Z).

Inductive irq_state := IRQInactive | IRQSignal | IRQTimer | IRQReserved.

(** The variables of [arch/x86/model/statedata.c] and of [intel-vtd.c]: the table
    of ASID pools, the addresses of the global page directory and of the table
    of IO contexts, the depth of the IO page tables; and what the next reads of
    I/O ports will answer. *)
Record x86_state := mk_x86 {
  x86KSASIDTable : list Z;
  ia32KSGlobalPD : Z;
  x86KSvtdRootTable : Z;
  x86KSnumIOPTLevels : Z;
  port_reads : list Z
}.
#[export] Instance eta_x86 : Eta x86_state := λ x,
  mk_x86 (x86KSASIDTable x) (ia32KSGlobalPD x) (x86KSvtdRootTable x) (x86KSnumIOPTLevels x) (port_reads x).

(** ** Kernel state *)

Record ks := mk_ks {
  tcbs : gmap Z tcb_t;
  ntfns : gmap Z notification_t;
  eps : gmap Z endpoint_t;
  ksReadyQueues : list tcb_queue_t;
  ksReadyQueuesL1Bitmap : Z;
  ksReadyQueuesL2Bitmap : list Z;
  ksCurThread : Z;
  ksIdleThread : Z;
  ksSchedulerAction : Z;
  ksDomSchedule : list (Z * Z);       (* domain and length of each entry *)
  ksDomScheduleIdx : Z;
  ksCurDomain : Z;
  ksDomainTime : Z;
  ksWorkUnitsCompleted : Z;
  ctes : gmap Z cte_t;
  intStateIRQTable : gmap Z irq_state;
  irq_masks : list (bool * Z);        (* calls to [maskInterrupt], newest first *)
  current_lookup_fault : lookup_fault;
  current_fault : fault;
  current_syscall_error : syscall_error_t;
  intStateIRQNode : Z;
  arch_calls : list arch_call;        (* newest first *)
  mem_words : gmap Z Z;               (* IPC buffers, page tables and ASID pools, by word *)
  current_extra_caps : list Z;        (* [excaprefs], three slots *)
  irq_pending : list bool;            (* what [isIRQPending] will answer *)
  x86 : x86_state
}.
#[export] Instance eta_ks : Eta ks := λ k,
  mk_ks (tcbs k) (ntfns k) (eps k) (ksReadyQueues k) (ksReadyQueuesL1Bitmap k)
    (ksReadyQueuesL2Bitmap k) (ksCurThread k) (ksIdleThread k) (ksSchedulerAction k)
    (ksDomSchedule k) (ksDomScheduleIdx k) (ksCurDomain k) (ksDomainTime k) (ksWorkUnitsCompleted k)
    (ctes k) (intStateIRQTable k) (irq_masks k) (current_lookup_fault k) (current_fault k)
    (current_syscall_error k) (intStateIRQNode k) (arch_calls k)
    (mem_words k) (current_extra_caps k) (irq_pending k) (x86 k).

(** The parts of the state the scheduler has nothing to do with. *)
Definition objects (k : ks) :=
  (ntfns k, ctes k, intStateIRQTable k, irq_masks k, current_lookup_fault k, current_fault k,
   current_syscall_error k, intStateIRQNode k, arch_calls k, mem_words k,
   current_extra_caps k, irq_pending k, x86 k).

Definition K (A : Type) : Type := M ks A.

(** A word of memory at its address. *)
Definition word_at (a : Z) : K Z := gets (λ k, default 0 (mem_words k !! a)).
Definition word_set (a v : Z) : K unit := modify (λ k, k <| mem_words ::= <[a := v]> |>).

Definition arch_call_made (a : arch_call) : K unit := modify (λ k, k <| arch_calls ::= cons a |>).

(** [*t], and the assignment of one of its fields. *)
Definition tcb_at (t : Z) : K tcb_t := λ k,
  match tcbs k !! t with Some c => (Done c, k) | None => (Halted BadPointer, k) end.
Definition tcb_set (t : Z) (f : tcb_t → tcb_t) : K unit := λ k,
  match tcbs k !! t with
  | Some c => (Done tt, k <| tcbs ::= <[t := f c]> |>)
  | None => (Halted BadPointer, k)
  end.

Definition ntfn_at (n : Z) : K notification_t := λ k,
  match ntfns k !! n with Some c => (Done c, k) | None => (Halted BadPointer, k) end.
Definition ntfn_set (n : Z) (f : notification_t → notification_t) : K unit := λ k,
  match ntfns k !! n with
  | Some c => (Done tt, k <| ntfns ::= <[n := f c]> |>)
  | None => (Halted BadPointer, k)
  end.

Definition ep_at (e : Z) : K endpoint_t := λ k,
  match eps k !! e with Some c => (Done c, k) | None => (Halted BadPointer, k) end.
Definition ep_set (e : Z) (f : endpoint_t → endpoint_t) : K unit := λ k,
  match eps k !! e with
  | Some c => (Done tt, k <| eps ::= <[e := f c]> |>)
  | None => (Halted BadPointer, k)
  end.

Lemma wp_tcb_at t c (Q : tcb_t → ks → Prop) k : tcbs k !! t = Some c → Q c k → wp (tcb_at t) Q k.
Proof. intros H HQ. unfold wp, tcb_at. by rewrite H. Qed.

Lemma wp_tcb_set t f c (Q : unit → ks → Prop) k :
  tcbs k !! t = Some c → Q tt (k <| tcbs ::= <[t := f c]> |>) → wp (tcb_set t f) Q k.
Proof. intros H HQ. unfold wp, tcb_set. by rewrite H. Qed.

Lemma wp_ntfn_at n c (Q : notification_t → ks → Prop) k :
  ntfns k !! n = Some c → Q c k → wp (ntfn_at n) Q k.
Proof. intros H HQ. unfold wp, ntfn_at. by rewrite H. Qed.

Lemma wp_ntfn_set n f c (Q : unit → ks → Prop) k :
  ntfns k !! n = Some c → Q tt (k <| ntfns ::= <[n := f c]> |>) → wp (ntfn_set n f) Q k.
Proof. intros H HQ. unfold wp, ntfn_set. by rewrite H. Qed.

(** ** Doubly linked queues

    The scheduler's queues and the endpoints' run through different fields of
    the same objects; [links] names the pair of fields. *)

Record links (N : Type) := mk_links {
  nx : N → Z; pv : N → Z; set_nx : Z → N → N; set_pv : Z → N → N;
  nx_set_nx : ∀ v c, nx (set_nx v c) = v;
  pv_set_nx : ∀ v c, pv (set_nx v c) = pv c;
  nx_set_pv : ∀ v c, nx (set_pv v c) = nx c;
  pv_set_pv : ∀ v c, pv (set_pv v c) = v;
  erase_nx : ∀ v c, set_nx 0 (set_pv 0 (set_nx v c)) = set_nx 0 (set_pv 0 c);
  erase_pv : ∀ v c, set_nx 0 (set_pv 0 (set_pv v c)) = set_nx 0 (set_pv 0 c)
}.
Arguments nx {N}.
Arguments pv {N}.
Arguments set_nx {N}.
Arguments set_pv {N}.

Definition sched_links : links tcb_t.
Proof.
  refine (mk_links tcb_t tcbSchedNext tcbSchedPrev (λ v c, c <| tcbSchedNext := v |>)
    (λ v c, c <| tcbSchedPrev := v |>) _ _ _ _ _ _); reflexivity.
Defined.

Definition ep_links : links tcb_t.
Proof.
  refine (mk_links tcb_t tcbEPNext tcbEPPrev (λ v c, c <| tcbEPNext := v |>)
    (λ v c, c <| tcbEPPrev := v |>) _ _ _ _ _ _); reflexivity.
Defined.

(** The first and the last element of a queue, or a default. *)
Definition first_or (d : Z) (l : list Z) : Z := match l with [] => d | t :: _ => t end.
Fixpoint last_or (d : Z) (l : list Z) : Z := match l with [] => d | t :: l' => last_or t l' end.

Lemma last_or_app d l1 l2 : last_or d (l1 ++ l2) = last_or (last_or d l1) l2.
Proof. revert d. induction l1; simpl; auto. Qed.

Lemma last_or_snoc d l t : last_or d (l ++ [t]) = t.
Proof. by rewrite last_or_app. Qed.

Lemma last_or_cons_elem d t l : last_or d (t :: l) ∈ t :: l.
Proof.
  revert d t. induction l as [|u l IH]; intros d t; simpl; [set_solver|].
  right. apply (IH t u).
Qed.

Section dll.
Context {N : Type} (L : links N).
Implicit Types h : gmap Z N.

(** What is left of an object when its links are forgotten. *)
Definition erase (c : N) : N := set_nx L 0 (set_pv L 0 c).
Definition same_but_links h h' : Prop := ∀ u, erase <$> h' !! u = erase <$> h !! u.

(** [dseg h p l n]: the objects of [l] are linked in order, the first one back
    to [p] and the last one on to [n]. *)
Fixpoint dseg h (p : Z) (l : list Z) (n : Z) : Prop :=
  match l with
  | [] => True
  | t :: l' =>
    t ≠ 0 ∧ (∃ c, h !! t = Some c ∧ pv L c = p ∧ nx L c = first_or n l') ∧ dseg h t l' n
  end.

Lemma dseg_app h p l1 l2 n :
  dseg h p (l1 ++ l2) n ↔ dseg h p l1 (first_or n l2) ∧ dseg h (last_or p l1) l2 n.
Proof.
  revert p. induction l1 as [|t l1 IH]; intros p; simpl; [tauto|]. rewrite IH.
  assert (first_or n (l1 ++ l2) = first_or (first_or n l2) l1) as -> by (by destruct l1). tauto.
Qed.

Lemma dseg_lookup h p l n t : dseg h p l n → t ∈ l → t ≠ 0 ∧ is_Some (h !! t).
Proof.
  revert p. induction l as [|u l IH]; intros p; simpl; [by rewrite elem_of_nil|].
  intros (Hu & (c & Hc & _) & Hl) [->|Ht]%elem_of_cons.
  - split; [done|]. by rewrite Hc.
  - by eapply IH.
Qed.

Lemma dseg_frame h h' p l n :
  (∀ t, t ∈ l → (λ c, (nx L c, pv L c)) <$> h' !! t = (λ c, (nx L c, pv L c)) <$> h !! t) →
  dseg h p l n → dseg h' p l n.
Proof.
  revert p. induction l as [|t l IH]; intros p Hf; simpl; [done|].
  intros (Ht & (c & Hc & Hp & Hn) & Hl). split; [done|]. split.
  - specialize (Hf t ltac:(set_solver)). rewrite Hc in Hf. simpl in Hf.
    destruct (h' !! t) as [c'|]; [|done]. simpl in Hf. exists c'. split; [done|]. injection Hf as Hn' Hp'. split; congruence.
  - apply IH; [|done]. intros u Hu. apply Hf. set_solver.
Qed.

Lemma dseg_frame_ne h t c p l n : t ∉ l → dseg h p l n → dseg (<[t := c]> h) p l n.
Proof.
  intros Ht. apply dseg_frame. intros u Hu. rewrite lookup_insert_ne; [done|]. by intros ->.
Qed.

(** Redirecting the first object's back link, or the last one's forward link. *)
Lemma dseg_set_first h p q t l n c :
  NoDup (t :: l) → dseg h p (t :: l) n → h !! t = Some c →
  dseg (<[t := set_pv L q c]> h) q (t :: l) n.
Proof.
  intros [Ht _]%NoDup_cons (H0 & (c0 & Hc & Hp & Hn) & Hl) Hc'. simplify_eq. simpl.
  split; [done|]. split.
  - eexists. rewrite lookup_insert_eq. split; [done|].
    by rewrite (pv_set_pv _ L), (nx_set_pv _ L).
  - by apply dseg_frame_ne.
Qed.

Lemma dseg_set_last h p l t n m c :
  NoDup (l ++ [t]) → dseg h p (l ++ [t]) n → h !! t = Some c →
  dseg (<[t := set_nx L m c]> h) p (l ++ [t]) m.
Proof.
  intros (_ & Hd & _)%NoDup_app Hl Hc. apply dseg_app in Hl as [Hl Ht].
  assert (t ∉ l) by (intros Hi; apply (Hd t Hi); set_solver).
  apply dseg_app. split; [by apply dseg_frame_ne|].
  destruct Ht as (H0 & (c0 & Hc0 & Hp & Hn) & _). simplify_eq. simpl. split; [done|]. split; [|done].
  eexists. rewrite lookup_insert_eq. split; [done|]. by rewrite (pv_set_nx _ L), (nx_set_nx _ L).
Qed.

(** The queue [q] holds the list [l]. *)
Definition dlist h (q : tcb_queue_t) (l : list Z) : Prop :=
  NoDup l ∧ dseg h 0 l 0 ∧ q_head q = first_or 0 l ∧ q_end q = last_or 0 l.

Lemma dlist_nonzero h q l : dlist h q l → 0 ∉ l.
Proof. intros (_ & Hl & _) H0. by apply (dseg_lookup _ _ _ _ _ Hl) in H0 as [? _]. Qed.

Lemma dlist_empty h q l : dlist h q l → (q_head q = 0 ↔ l = []) ∧ (q_end q = 0 ↔ l = []).
Proof.
  intros H. pose proof (dlist_nonzero _ _ _ H) as H0. destruct H as (_ & _ & -> & ->).
  destruct l as [|t l]; [done|]. cbn [first_or]. split; (split; [|done]).
  - intros ->. set_solver.
  - intros E. pose proof (last_or_cons_elem 0 t l) as Hin. rewrite E in Hin. done.
Qed.

Lemma dlist_frame h h' q l :
  (∀ t, t ∈ l → (λ c, (nx L c, pv L c)) <$> h' !! t = (λ c, (nx L c, pv L c)) <$> h !! t) →
  dlist h q l → dlist h' q l.
Proof.
  intros Hf (Hn & Hd & Hh & He). split; [done|]. split; [by eapply dseg_frame|done].
Qed.

Lemma dlist_frame_ne h q l t c : t ∉ l → dlist h q l → dlist (<[t := c]> h) q l.
Proof.
  intros Ht (Hn & Hd & Hq). split; [done|]. split; [by apply dseg_frame_ne|done].
Qed.

Lemma same_but_insert_nx h t c v : h !! t = Some c → same_but_links h (<[t := set_nx L v c]> h).
Proof.
  intros Hc u. destruct (decide (t = u)) as [->|Hne].
  - rewrite lookup_insert_eq, Hc. simpl. unfold erase. by rewrite (erase_nx _ L).
  - by rewrite lookup_insert_ne.
Qed.

Lemma same_but_insert_pv h t c v : h !! t = Some c → same_but_links h (<[t := set_pv L v c]> h).
Proof.
  intros Hc u. destruct (decide (t = u)) as [->|Hne].
  - rewrite lookup_insert_eq, Hc. simpl. unfold erase. by rewrite (erase_pv _ L).
  - by rewrite lookup_insert_ne.
Qed.

Lemma same_but_trans h1 h2 h3 :
  same_but_links h1 h2 → same_but_links h2 h3 → same_but_links h1 h3.
Proof. intros H1 H2 u. by rewrite H2, H1. Qed.

(** Every field but the links keeps its value. *)
Lemma same_but_field {B} (f : N → B) h h' u c' :
  (∀ c, f (erase c) = f c) → same_but_links h h' → h' !! u = Some c' →
  ∃ c, h !! u = Some c ∧ f c' = f c.
Proof.
  intros Hf Hs Hc'. specialize (Hs u). rewrite Hc' in Hs. simpl in Hs.
  destruct (h !! u) as [c|]; [|done]. simpl in Hs. exists c. split; [done|].
  injection Hs as Hs. by rewrite <- (Hf c'), Hs, Hf.
Qed.

Lemma same_but_lookup h h' u : same_but_links h h' → is_Some (h !! u) → is_Some (h' !! u).
Proof.
  intros Hs [c Hc]. specialize (Hs u). rewrite Hc in Hs. destruct (h' !! u); [eauto|done].
Qed.

Lemma same_but_insert_both h t c a b :
  h !! t = Some c → same_but_links h (<[t := set_nx L a (set_pv L b c)]> h).
Proof.
  intros Hc. eapply same_but_trans; [by apply (same_but_insert_pv h t c b)|].
  rewrite <- (insert_insert_eq h t (set_nx L a (set_pv L b c)) (set_pv L b c)).
  apply same_but_insert_nx. by rewrite lookup_insert_eq.
Qed.

Lemma list_snoc_or_nil {A} (l : list A) : l = [] ∨ ∃ l' u, l = l' ++ [u].
Proof. destruct l as [|u l _] using rev_ind; eauto. Qed.

(** *** Adding an object at the end and at the front *)

Lemma dlist_append h q l t c :
  dlist h q l → h !! t = Some c → t ∉ l → t ≠ 0 →
  ∃ h1,
    (if q_head q =? 0 then h1 = h
     else ∃ ce, h !! q_end q = Some ce ∧ h1 = <[q_end q := set_nx L t ce]> h) ∧
    h1 !! t = Some c ∧
    let h2 := <[t := set_nx L 0 (set_pv L (q_end q) c)]> h1 in
    dlist h2 (mk_queue (if q_head q =? 0 then t else q_head q) t) (l ++ [t]) ∧
    same_but_links h h2 ∧ (∀ u, u ∉ l ++ [t] → h2 !! u = h !! u).
Proof.
  intros Hl Hc Ht H0. pose proof (dlist_empty _ _ _ Hl) as [Hhd _].
  destruct Hl as (Hn & Hd & Hh & He). destruct (list_snoc_or_nil l) as [->|(l' & u & ->)].
  - destruct (Z.eqb_spec (q_head q) 0) as [_|]; [|by destruct Hhd; auto].
    exists h. split; [done|]. split; [done|]. simpl in *. split; [|split].
    + split; [apply NoDup_singleton|]. split; [|done]. simpl. split; [done|]. split; [|done].
      eexists. rewrite lookup_insert_eq. split; [done|].
      by rewrite (pv_set_nx _ L), (nx_set_nx _ L), (pv_set_pv _ L).
    + by apply same_but_insert_both.
    + intros u Hu. apply lookup_insert_ne. set_solver.
  - destruct (Z.eqb_spec (q_head q) 0) as [E|Hne].
    { apply Hhd in E. by destruct l'. }
    rewrite last_or_snoc in He. rewrite He.
    destruct (dseg_lookup _ _ _ _ u Hd) as [Hu0 [cu Hcu]]; [set_solver|].
    assert (Htu : u ≠ t) by set_solver.
    exists (<[u := set_nx L t cu]> h). split; [by eexists|].
    split; [by rewrite lookup_insert_ne|]. split; [|split].
    + split; [apply NoDup_app; split_and!; [done|set_solver|apply NoDup_singleton]|].
      split; [|split; [|by rewrite last_or_snoc]].
      2:{ rewrite Hh. by destruct l'. }
      apply dseg_app. split.
      * apply dseg_frame_ne; [done|]. by apply (dseg_set_last _ _ _ _ 0).
      * simpl. split; [done|]. split; [|done]. eexists. rewrite lookup_insert_eq.
        split; [done|]. by rewrite (pv_set_nx _ L), (nx_set_nx _ L), (pv_set_pv _ L), last_or_snoc.
    + eapply same_but_trans; [by apply (same_but_insert_nx h u cu t)|].
      apply same_but_insert_both. by rewrite lookup_insert_ne.
    + intros w Hw. rewrite !lookup_insert_ne by set_solver. done.
Qed.

Lemma dlist_prepend h q l t c :
  dlist h q l → h !! t = Some c → t ∉ l → t ≠ 0 →
  ∃ h1,
    (if q_end q =? 0 then h1 = h
     else ∃ ch, h !! q_head q = Some ch ∧ h1 = <[q_head q := set_pv L t ch]> h) ∧
    h1 !! t = Some c ∧
    let h2 := <[t := set_nx L (q_head q) (set_pv L 0 c)]> h1 in
    dlist h2 (mk_queue t (if q_end q =? 0 then t else q_end q)) (t :: l) ∧
    same_but_links h h2 ∧ (∀ u, u ∉ t :: l → h2 !! u = h !! u).
Proof.
  intros Hl Hc Ht H0. pose proof (dlist_empty _ _ _ Hl) as [_ Hen].
  destruct Hl as (Hn & Hd & Hh & He). destruct l as [|u l].
  - destruct (Z.eqb_spec (q_end q) 0) as [_|]; [|by destruct Hen; auto].
    exists h. split; [done|]. split; [done|]. simpl in *. rewrite Hh. split; [|split].
    + split; [apply NoDup_singleton|]. split; [|done]. simpl. split; [done|]. split; [|done].
      eexists. rewrite lookup_insert_eq. split; [done|].
      by rewrite (pv_set_nx _ L), (nx_set_nx _ L), (pv_set_pv _ L).
    + by apply same_but_insert_both.
    + intros u Hu. apply lookup_insert_ne. set_solver.
  - destruct (Z.eqb_spec (q_end q) 0) as [E|Hne]; [by apply Hen in E|].
    simpl in Hh. rewrite Hh.
    destruct (dseg_lookup _ _ _ _ u Hd) as [Hu0 [cu Hcu]]; [set_solver|].
    assert (Htu : u ≠ t) by set_solver.
    exists (<[u := set_pv L t cu]> h). split; [by eexists|].
    split; [by rewrite lookup_insert_ne|]. split; [|split].
    + split; [by constructor|]. split; [|by split].
      cbn [dseg]. split; [done|]. split.
      * eexists. rewrite lookup_insert_eq. split; [done|].
        by rewrite (pv_set_nx _ L), (nx_set_nx _ L), (pv_set_pv _ L).
      * apply (dseg_frame_ne _ t _ t (u :: l)); [done|]. by apply (dseg_set_first _ 0).
    + eapply same_but_trans; [by apply (same_but_insert_pv h u cu t)|].
      apply same_but_insert_both. by rewrite lookup_insert_ne.
    + intros w Hw. rewrite !lookup_insert_ne by set_solver. done.
Qed.

(** *** Taking an object out *)

Lemma dlist_split h q l1 t l2 c :
  dlist h q (l1 ++ t :: l2) → h !! t = Some c →
  dseg h 0 l1 t ∧ dseg h t l2 0 ∧ pv L c = last_or 0 l1 ∧ nx L c = first_or 0 l2.
Proof.
  intros (_ & Hd & _) Hc. apply dseg_app in Hd as [H1 (_ & (c' & Hc' & Hp & Hn) & H2)].
  simplify_eq. done.
Qed.

(** The neighbours of [t] are linked to each other; its own links stay. *)
Lemma dlist_unlink h q l1 t l2 c :
  dlist h q (l1 ++ t :: l2) → h !! t = Some c →
  ∃ h1,
    (if pv L c =? 0 then h1 = h
     else ∃ cp, h !! pv L c = Some cp ∧ h1 = <[pv L c := set_nx L (nx L c) cp]> h) ∧
  ∃ h2,
    (if nx L c =? 0 then h2 = h1
     else ∃ cn, h1 !! nx L c = Some cn ∧ h2 = <[nx L c := set_pv L (pv L c) cn]> h1) ∧
    dlist h2 (mk_queue (if pv L c =? 0 then nx L c else q_head q)
                       (if nx L c =? 0 then pv L c else q_end q)) (l1 ++ l2) ∧
    same_but_links h h2 ∧ (∀ u, u ∉ l1 ++ l2 → h2 !! u = h !! u).
Proof.
  intros Hl Hc. destruct (dlist_split _ _ _ _ _ _ Hl Hc) as (D1 & D2 & Hp & Hn).
  pose proof (dlist_nonzero _ _ _ Hl) as Hz. destruct Hl as (Hnd & _ & Hh & He).
  apply NoDup_app in Hnd as (N1 & Hdis & [Ht N2]%NoDup_cons). rewrite Hp, Hn.
  assert (Hnd' : NoDup (l1 ++ l2)) by (apply NoDup_app; split_and!; set_solver).
  (* the part before t *)
  assert (∃ h1, (if last_or 0 l1 =? 0 then h1 = h
     else ∃ cp, h !! last_or 0 l1 = Some cp ∧ h1 = <[last_or 0 l1 := set_nx L (first_or 0 l2) cp]> h) ∧
     dseg h1 0 l1 (first_or 0 l2) ∧ same_but_links h h1 ∧ (∀ u, u ∉ l1 → h1 !! u = h !! u)
     ∧ (last_or 0 l1 = 0 ↔ l1 = []))
    as (h1 & Hh1 & D1' & S1 & F1 & E1).
  { destruct (list_snoc_or_nil l1) as [->|(l & u & ->)]; [by exists h|].
    destruct (dseg_lookup _ _ _ _ u D1) as [Hu0 [cu Hcu]]; [set_solver|].
    rewrite last_or_snoc. destruct (Z.eqb_spec u 0); [done|].
    exists (<[u := set_nx L (first_or 0 l2) cu]> h). split; [by eexists|].
    split; [by apply (dseg_set_last _ _ _ _ t)|]. split; [by apply same_but_insert_nx|].
    split; [intros w Hw; apply lookup_insert_ne; set_solver|]. split; [done|]. by destruct l. }
  exists h1. split; [done|].
  assert (D2' : dseg h1 t l2 0).
  { eapply dseg_frame; [|exact D2]. intros u Hu. rewrite F1; [done|]. set_solver. }
  assert (F1' : ∀ u, u ∈ l2 → h1 !! u = h !! u) by (intros u Hu; apply F1; set_solver).
  destruct l2 as [|w l2]; cbn [first_or] in *.
  - exists h1. split; [done|]. rewrite app_nil_r in *. split; [|split].
    + split; [done|]. split; [done|]. cbn. split; [|done].
      rewrite Hh. destruct (Z.eqb_spec (last_or 0 l1) 0) as [E|E]; [by apply E1 in E as ->|].
      destruct l1; [done|done].
    + done.
    + intros u Hu. apply F1. set_solver.
  - destruct (dseg_lookup _ _ _ _ w D2') as [Hw0 [cw Hcw]]; [set_solver|].
    destruct (Z.eqb_spec w 0); [done|].
    exists (<[w := set_pv L (last_or 0 l1) cw]> h1). split; [by eexists|]. split; [|split].
    + split; [done|]. split; [|split].
      * apply dseg_app. split; [apply dseg_frame_ne; [set_solver|done]|].
        by apply (dseg_set_first _ t).
      * cbn. rewrite Hh. destruct (Z.eqb_spec (last_or 0 l1) 0) as [E|E]; [by apply E1 in E as ->|].
        by destruct l1.
      * cbn [q_end]. rewrite He, !last_or_app. done.
    + eapply same_but_trans; [exact S1|]. by apply same_but_insert_pv.
    + intros u Hu. rewrite lookup_insert_ne by set_solver. apply F1. set_solver.
Qed.

(** *** Adding an object after another, and renaming *)

Lemma dseg_insert h h' p l1 s l2 n t :
  t ≠ 0 → dseg h p (l1 ++ s :: l2) n →
  (∀ u, u ∈ l1 → (λ c, (nx L c, pv L c)) <$> h' !! u = (λ c, (nx L c, pv L c)) <$> h !! u) →
  (∃ c, h' !! s = Some c ∧ pv L c = last_or p l1 ∧ nx L c = t) →
  (∃ c, h' !! t = Some c ∧ pv L c = s ∧ nx L c = first_or n l2) →
  dseg h' t l2 n → dseg h' p (l1 ++ s :: t :: l2) n.
Proof.
  intros Ht Hd Hf Hs Hnew H2. apply dseg_app in Hd as [H1 (Hs0 & _)].
  apply dseg_app. split; [|cbn; by split_and!]. cbn [first_or] in *. by eapply dseg_frame.
Qed.

Lemma dseg_rename (π : Z → Z) h h' p l n :
  (∀ t c, t ∈ l → h !! t = Some c →
    π t ≠ 0 ∧ ∃ c', h' !! π t = Some c' ∧ nx L c' = π (nx L c) ∧ pv L c' = π (pv L c)) →
  dseg h p l n → dseg h' (π p) (π <$> l) (π n).
Proof.
  revert p. induction l as [|t l IH]; intros p Hm; [done|].
  intros (Ht & (c & Hc & Hp & Hn) & Hl). destruct (Hm t c) as (Ht' & c' & Hc' & Hn' & Hp'); [set_solver|done|].
  cbn. split; [done|]. split.
  - exists c'. split; [done|]. rewrite Hp', Hn', Hp, Hn. split; [done|]. by destruct l.
  - apply IH; [|done]. intros u x Hu. apply Hm. set_solver.
Qed.

(** The two links of a chain agree with each other. *)
Lemma dseg_next h p l n t c : NoDup l → dseg h p l n → t ∈ l → h !! t = Some c →
  (nx L c = n ∧ last_or p l = t) ∨ (nx L c ∈ l ∧ ∃ c', h !! nx L c = Some c' ∧ pv L c' = t).
Proof.
  revert p. induction l as [|u l IH]; intros p Hnd; [by rewrite elem_of_nil|].
  intros (Hu & (cu & Hcu & Hp & Hn) & Hl) Ht Hc. apply NoDup_cons in Hnd as [Hul Hnd].
  apply elem_of_cons in Ht as [->|Ht].
  - simplify_eq. destruct l as [|w l]; cbn in Hn; [by left|]. right. rewrite Hn.
    destruct Hl as (_ & (cw & Hcw & Hpw & _) & _). split; [set_solver|]. by exists cw.
  - destruct (IH u Hnd Hl Ht Hc) as [[? ?]|(? & ?)]; [left|right]; (split; [|done]); set_solver.
Qed.

Lemma dseg_prev h p l n t c : NoDup l → dseg h p l n → t ∈ l → h !! t = Some c →
  (pv L c = p ∧ first_or n l = t) ∨ (pv L c ∈ l ∧ ∃ c', h !! pv L c = Some c' ∧ nx L c' = t).
Proof.
  revert p. induction l as [|u l IH]; intros p Hnd; [by rewrite elem_of_nil|].
  intros (Hu & (cu & Hcu & Hp & Hn) & Hl) Ht Hc. apply NoDup_cons in Hnd as [Hul Hnd].
  apply elem_of_cons in Ht as [->|Ht].
  - simplify_eq. by left.
  - right. destruct (IH u Hnd Hl Ht Hc) as [[-> Hf]|(Hin & c' & ?)].
    + split; [set_solver|]. exists cu. split; [done|]. rewrite Hn. by destruct l.
    + split; [set_solver|]. by exists c'.
Qed.

(** Changing what a segment leads to, and where it comes from. *)
Lemma dseg_retarget h h' p l s m :
  s ∉ l → dseg h p l s →
  (∀ u c, u ∈ l → h !! u = Some c → ∃ c', h' !! u = Some c' ∧ pv L c' = pv L c ∧
     nx L c' = if decide (nx L c = s) then m else nx L c) →
  dseg h' p l m.
Proof.
  revert p. induction l as [|t l IH]; intros p Hs; [done|].
  intros (Ht & (c & Hc & Hp & Hn) & Hl) Hm. destruct (Hm t c) as (c' & Hc' & Hp' & Hn'); [set_solver|done|].
  cbn. split; [done|]. split; [|apply IH; [set_solver|done|intros u x Hu; apply Hm; set_solver]].
  exists c'. split; [done|]. split; [congruence|]. rewrite Hn', Hn.
  destruct l as [|u l]; cbn; [by rewrite decide_True|]. rewrite decide_False; [done|]. set_solver.
Qed.

Lemma dseg_restart h h' s l n q :
  s ∉ l → NoDup l → dseg h s l n →
  (∀ u c, u ∈ l → h !! u = Some c → ∃ c', h' !! u = Some c' ∧ nx L c' = nx L c ∧
     pv L c' = if decide (pv L c = s) then q else pv L c) →
  dseg h' q l n.
Proof.
  destruct l as [|t l]; [done|]. intros Hs Hnd (Ht & (c & Hc & Hp & Hn) & Hl) Hm.
  destruct (Hm t c) as (c' & Hc' & Hn' & Hp'); [set_solver|done|].
  cbn. split; [done|]. split.
  - exists c'. split; [done|]. rewrite Hp', decide_True by done. split; [done|congruence].
  - eapply dseg_frame; [|exact Hl]. intros u Hu.
    destruct (dseg_lookup _ _ _ _ u Hl Hu) as [_ [x Hx]]. destruct (Hm u x) as (x' & Hx' & En & Ep); [set_solver|done|].
    rewrite Hx, Hx'. cbn. rewrite En, Ep. rewrite decide_False; [done|].
    apply NoDup_cons in Hnd as [Htl Hnd].
    destruct (dseg_prev h t l n u x Hnd Hl Hu Hx) as [[-> _]|[Hin _]]; [set_solver|]. intros E. rewrite E in Hin. set_solver.
Qed.

End dll.
