(* ===== verification/CSpace.v ===== *)
(** Address resolution in capability spaces: [kernel/cspace.c].

    The abstract view of a capability address is a string of bits, most
    significant first; a CNode consumes its guard and its index and hands the
    rest to the next one ([walks]).  [resolveAddressBits], which works with
    shifts and masks on one word, is proved to compute this walk. *)

From S2P Require Import Prelude Caps Kernel.

(** ** Errors and slots *)

Inductive exception_t :=
| EXCEPTION_NONE | EXCEPTION_FAULT | EXCEPTION_LOOKUP_FAULT | EXCEPTION_SYSCALL_ERROR
| EXCEPTION_PREEMPTED.
#[export] Instance exception_eq_dec : EqDecision exception_t.
Proof. solve_decision. Defined.

(** [seL4_Error] *)
Definition seL4_InvalidArgument : Z := 1.
Definition seL4_InvalidCapability : Z := 2.
Definition seL4_IllegalOperation : Z := 3.
Definition seL4_RangeError : Z := 4.
Definition seL4_AlignmentError : Z := 5.
Definition seL4_FailedLookup : Z := 6.
Definition seL4_TruncatedMessage : Z := 7.
Definition seL4_DeleteFirst : Z := 8.
Definition seL4_RevokeFirst : Z := 9.
Definition seL4_NotEnoughMemory : Z := 10.

Definition cte_at (p : Z) : K cte_t := λ k,
  match ctes k !! p with Some c => (Done c, k) | None => (Halted BadPointer, k) end.
Definition cte_set (p : Z) (f : cte_t → cte_t) : K unit := λ k,
  match ctes k !! p with
  | Some c => (Done tt, k <| ctes ::= <[p := f c]> |>)
  | None => (Halted BadPointer, k)
  end.

Lemma wp_cte_at p c (Q : cte_t → ks → Prop) k : ctes k !! p = Some c → Q c k → wp (cte_at p) Q k.
Proof. intros H HQ. unfold wp, cte_at. by rewrite H. Qed.

Lemma wp_cte_set p f c (Q : unit → ks → Prop) k :
  ctes k !! p = Some c → Q tt (k <| ctes ::= <[p := f c]> |>) → wp (cte_set p f) Q k.
Proof. intros H HQ. unfold wp, cte_set. by rewrite H. Qed.

Definition set_lookup_fault (f : lookup_fault) : K unit := modify (λ k, k <| current_lookup_fault := f |>).
Definition set_error (f : syscall_error_t → syscall_error_t) : K unit :=
  modify (λ k, k <| current_syscall_error ::= f |>).

(** [CTE_PTR(p) + i], and the slots of a thread. *)
Definition cte_index (p i : Z) : Z := wrap32 (p + 16 * i).
Definition tcbCTable : Z := 0.
Definition tcbVTable : Z := 1.
Definition tcbReply : Z := 2.
Definition tcbCaller : Z := 3.
Definition tcbBuffer : Z := 4.
Definition TCB_PTR_CTE_PTR (tcb i : Z) : Z := cte_index (tcb_block tcb) i.

(** ** [resolveAddressBits] *)

Record resolveAddressBits_ret_t := mk_resolve {
  res_status : exception_t; res_slot : Z; res_bitsRemaining : Z
}.

(** The [while (1)] loop; [n0] is the value [bitsRemaining] starts with. *)
Fixpoint resolve_loop (fuel : nat) (nodeCap : cap_t) (capptr n_bits n0 : Z) : K resolveAddressBits_ret_t :=
  match fuel, nodeCap with
  | S fuel', cap_cnode_cap radixBits guardBits capGuard ptr =>
    let levelBits := wrap32 (radixBits + guardBits) in
    assert (negb (levelBits =? 0));;
    let guard := Z.land (Z.shiftr capptr (Z.land (wrap32 (n_bits - guardBits)) (MASK wordRadix)))
                   (MASK guardBits) in
    if (n_bits <? guardBits) || negb (guard =? capGuard) then
      set_lookup_fault (lookup_fault_guard_mismatch capGuard n_bits guardBits);;
      mret (mk_resolve EXCEPTION_LOOKUP_FAULT 0 n0)
    else if n_bits <? levelBits then
      set_lookup_fault (lookup_fault_depth_mismatch levelBits n_bits);;
      mret (mk_resolve EXCEPTION_LOOKUP_FAULT 0 n0)
    else
      let offset := Z.land (Z.shiftr capptr (wrap32 (n_bits - levelBits))) (MASK radixBits) in
      let slot := cte_index ptr offset in
      if n_bits <=? levelBits then mret (mk_resolve EXCEPTION_NONE slot 0)
      else
        let n_bits := wrap32 (n_bits - levelBits) in
        c ← cte_at slot;
        if negb (is_cnode (cte_cap c)) then mret (mk_resolve EXCEPTION_NONE slot n_bits)
        else resolve_loop fuel' (cte_cap c) capptr n_bits n0
  | _, _ => halt_with OutOfFuel
  end.

(** A round consumes at least one bit of at most 32. *)
Definition resolveAddressBits (nodeCap : cap_t) (capptr n_bits : Z) : K resolveAddressBits_ret_t :=
  if negb (is_cnode nodeCap) then
    set_lookup_fault lookup_fault_invalid_root;;
    mret (mk_resolve EXCEPTION_LOOKUP_FAULT 0 n_bits)
  else resolve_loop (Z.to_nat wordBits) nodeCap capptr n_bits n_bits.

(** ** The lookups *)

Record lookupSlot_ret_t := mk_slot_ret { slot_status : exception_t; slot_slot : Z }.
Record lookupCap_ret_t := mk_cap_ret { cap_status : exception_t; cap_cap : cap_t }.
Record lookupCapAndSlot_ret_t := mk_cas_ret { cas_status : exception_t; cas_cap : cap_t; cas_slot : Z }.

Definition lookupSlot (thread capptr : Z) : K lookupSlot_ret_t :=
  root ← cte_at (TCB_PTR_CTE_PTR thread tcbCTable);
  res ← resolveAddressBits (cte_cap root) capptr wordBits;
  mret (mk_slot_ret (res_status res) (res_slot res)).

Definition lookupCap (thread cPtr : Z) : K lookupCap_ret_t :=
  lu ← lookupSlot thread cPtr;
  if decide (slot_status lu ≠ EXCEPTION_NONE) then mret (mk_cap_ret (slot_status lu) cap_null_cap)
  else c ← cte_at (slot_slot lu); mret (mk_cap_ret EXCEPTION_NONE (cte_cap c)).

Definition lookupCapAndSlot (thread cPtr : Z) : K lookupCapAndSlot_ret_t :=
  lu ← lookupSlot thread cPtr;
  if decide (slot_status lu ≠ EXCEPTION_NONE) then mret (mk_cas_ret (slot_status lu) cap_null_cap 0)
  else c ← cte_at (slot_slot lu); mret (mk_cas_ret EXCEPTION_NONE (cte_cap c) (slot_slot lu)).

Definition failed_lookup (isSource : bool) : K unit :=
  set_error (λ e, e <| error_type := seL4_FailedLookup |>);;
  set_error (λ e, e <| failedLookupWasSource := isSource |>).

Definition lookupSlotForCNodeOp (isSource : bool) (root : cap_t) (capptr depth : Z) : K lookupSlot_ret_t :=
  if negb (is_cnode root) then
    failed_lookup isSource;;
    set_lookup_fault lookup_fault_invalid_root;;
    mret (mk_slot_ret EXCEPTION_SYSCALL_ERROR 0)
  else if (depth <? 1) || (wordBits <? depth) then
    set_error (λ e, e <| error_type := seL4_RangeError |> <| rangeErrorMin := 1 |> <| rangeErrorMax := wordBits |>);;
    mret (mk_slot_ret EXCEPTION_SYSCALL_ERROR 0)
  else
    res ← resolveAddressBits root capptr depth;
    if decide (res_status res ≠ EXCEPTION_NONE) then
      failed_lookup isSource;;
      mret (mk_slot_ret EXCEPTION_SYSCALL_ERROR 0)
    else if negb (res_bitsRemaining res =? 0) then
      failed_lookup isSource;;
      set_lookup_fault (lookup_fault_depth_mismatch 0 (res_bitsRemaining res));;
      mret (mk_slot_ret EXCEPTION_SYSCALL_ERROR 0)
    else mret (mk_slot_ret EXCEPTION_NONE (res_slot res)).

Definition lookupSourceSlot := lookupSlotForCNodeOp true.
Definition lookupTargetSlot := lookupSlotForCNodeOp false.
Definition lookupPivotSlot := lookupSlotForCNodeOp true.

(** ** Words as strings of bits *)

Fixpoint bits_of (n : nat) (w : Z) : list bool :=
  match n with O => [] | S n' => Z.testbit w (Z.of_nat n') :: bits_of n' w end.

(** The number a string of bits denotes. *)
Fixpoint val_of (l : list bool) : Z :=
  match l with [] => 0 | b :: l' => Z.b2z b * 2 ^ Z.of_nat (length l') + val_of l' end.

Lemma bits_of_length n w : length (bits_of n w) = n.
Proof. induction n; simpl; auto. Qed.

Lemma bits_of_nil n w : bits_of n w = [] ↔ n = 0%nat.
Proof. by destruct n. Qed.

(** The first [i] of [i + j] bits are the high ones. *)
Lemma bits_of_split i j w : bits_of (i + j) w = bits_of i (Z.shiftr w (Z.of_nat j)) ++ bits_of j w.
Proof.
  induction i as [|i IH]; [done|]. cbn [Nat.add bits_of app]. rewrite IH, Z.shiftr_spec by lia.
  repeat f_equal. lia.
Qed.

Lemma bits_of_inj n a b : bits_of n a = bits_of n b ↔ a mod 2 ^ Z.of_nat n = b mod 2 ^ Z.of_nat n.
Proof.
  rewrite <- !Z.land_ones by lia. split.
  - intros E. apply Z.bits_inj'. intros i Hi. rewrite !Z.land_spec.
    destruct (Z.lt_ge_cases i (Z.of_nat n)); [|by rewrite Z.ones_spec_high, !andb_false_r by lia].
    rewrite Z.ones_spec_low, !andb_true_r by lia.
    revert E. induction n as [|n IH]; [lia|]. simpl. intros [= E1 E2].
    destruct (decide (i = Z.of_nat n)) as [->|]; [done|]. apply IH; [lia|done].
  - intros E. assert (Hb : ∀ i, 0 ≤ i < Z.of_nat n → Z.testbit a i = Z.testbit b i).
    { intros i Hi. assert (E' : Z.testbit (Z.land a (Z.ones (Z.of_nat n))) i
        = Z.testbit (Z.land b (Z.ones (Z.of_nat n))) i) by (by rewrite E).
      by rewrite !Z.land_spec, Z.ones_spec_low, !andb_true_r in E' by lia. }
    clear E. induction n as [|n IH]; [done|]. simpl. rewrite Hb by lia.
    f_equal. apply IH. intros i Hi. apply Hb. lia.
Qed.

Lemma val_of_bits n w : val_of (bits_of n w) = w mod 2 ^ Z.of_nat n.
Proof.
  induction n as [|n IH]; [symmetry; apply Z.mod_1_r|].
  cbn [bits_of val_of]. rewrite bits_of_length, IH, Nat2Z.inj_succ.
  rewrite Z.pow_succ_r by lia. rewrite (Z.mul_comm 2), Z.rem_mul_r by lia.
  rewrite <- Z.testbit_spec' by lia. lia.
Qed.

(** ** Walks *)

(** The fields of a CNode capability fit, a CNode consumes bits, and all the
    slots it covers exist. *)
Definition cnode_wf (k : ks) (c : cap_t) : Prop :=
  match c with
  | cap_cnode_cap radix gs g ptr =>
    0 ≤ radix < 32 ∧ 0 ≤ gs < 32 ∧ 0 ≤ g < 2 ^ gs ∧ radix + gs ≠ 0 ∧
    ∀ i, 0 ≤ i < 2 ^ radix → is_Some (ctes k !! cte_index ptr i)
  | _ => True
  end.
Definition cspace_ok (k : ks) : Prop := map_Forall (λ _ c, cnode_wf k (cte_cap c)) (ctes k).

(** Where the resolution of an address ends: at a slot, with bits left over, or
    with an error. *)
Inductive walk := At (slot : Z) (rest : list bool) | Stop (f : lookup_fault).

Inductive walks (k : ks) : cap_t → list bool → walk → Prop :=
| walks_guard radix gs g ptr bits :
    ¬ bits_of (Z.to_nat gs) g `prefix_of` bits →
    walks k (cap_cnode_cap radix gs g ptr) bits
      (Stop (lookup_fault_guard_mismatch g (Z.of_nat (length bits)) gs))
| walks_depth radix gs g ptr l :
    Z.of_nat (length l) < radix →
    walks k (cap_cnode_cap radix gs g ptr) (bits_of (Z.to_nat gs) g ++ l)
      (Stop (lookup_fault_depth_mismatch (radix + gs) (gs + Z.of_nat (length l))))
| walks_end radix gs g ptr i :
    Z.of_nat (length i) = radix →
    walks k (cap_cnode_cap radix gs g ptr) (bits_of (Z.to_nat gs) g ++ i) (At (cte_index ptr (val_of i)) [])
| walks_leaf radix gs g ptr i rest c :
    Z.of_nat (length i) = radix → rest ≠ [] →
    ctes k !! cte_index ptr (val_of i) = Some c → is_cnode (cte_cap c) = false →
    walks k (cap_cnode_cap radix gs g ptr) (bits_of (Z.to_nat gs) g ++ i ++ rest)
      (At (cte_index ptr (val_of i)) rest)
| walks_next radix gs g ptr i rest c w :
    Z.of_nat (length i) = radix → rest ≠ [] →
    ctes k !! cte_index ptr (val_of i) = Some c → is_cnode (cte_cap c) = true →
    walks k (cte_cap c) rest w →
    walks k (cap_cnode_cap radix gs g ptr) (bits_of (Z.to_nat gs) g ++ i ++ rest) w.

(** What the code returns at the end of a walk. *)
Definition walk_result (n0 : Z) (w : walk) (k : ks) : outcome resolveAddressBits_ret_t * ks :=
  match w with
  | At slot rest => (Done (mk_resolve EXCEPTION_NONE slot (Z.of_nat (length rest))), k)
  | Stop f => (Done (mk_resolve EXCEPTION_LOOKUP_FAULT 0 n0), k <| current_lookup_fault := f |>)
  end.

Lemma land_MASK v n : 0 ≤ n < 32 → Z.land v (MASK n) = v mod 2 ^ n.
Proof.
  intros Hn. unfold MASK. rewrite BIT_pow2 by lia.
  assert (0 < 2 ^ n ≤ 2 ^ 31) by (split; [apply Z.pow_pos_nonneg; lia|apply Z.pow_le_mono_r; lia]).
  rewrite wrap32_small by (unfold is_word, word_mod; lia).
  rewrite <- Z.land_ones by lia. by rewrite Z.ones_equiv, Z.sub_1_r.
Qed.

(** The guard the code extracts is the value of the first bits. *)
Lemma guard_bits capptr n gs :
  0 ≤ gs < 32 → gs ≤ n ≤ 32 →
  Z.land (Z.shiftr capptr (Z.land (wrap32 (n - gs)) (MASK wordRadix))) (MASK gs)
  = Z.shiftr capptr (n - gs) mod 2 ^ gs.
Proof.
  intros Hg Hn. rewrite land_MASK by lia. destruct (decide (gs = 0)) as [->|Hne].
  { by rewrite !Z.mod_1_r. }
  rewrite wrap32_small by (unfold is_word, word_mod; lia).
  rewrite (land_MASK _ wordRadix) by (unfold wordRadix; lia). rewrite (Z.mod_small (n - gs)); [done|].
  unfold wordRadix. lia.
Qed.

Lemma prefix_bits n w l : bits_of n w `prefix_of` l ↔ take n l = bits_of n w.
Proof.
  split.
  - intros [l' ->]. rewrite <- (bits_of_length n w) at 1. by rewrite take_app_length.
  - intros <-. apply prefix_take.
Qed.

Lemma bits_split_Z n j w : 0 ≤ j ≤ Z.of_nat n →
  bits_of n w = bits_of (Z.to_nat j) (Z.shiftr w (Z.of_nat n - j)) ++ bits_of (Z.to_nat (Z.of_nat n - j)) w.
Proof.
  intros Hj. replace n with (Z.to_nat j + Z.to_nat (Z.of_nat n - j))%nat at 1 by lia.
  rewrite bits_of_split. by rewrite Z2Nat.id by lia.
Qed.

Lemma resolve_loop_walks fuel k radix gs g ptr capptr n n0 :
  cspace_ok k → cnode_wf k (cap_cnode_cap radix gs g ptr) → (1 ≤ n ≤ 32)%nat → (n ≤ fuel)%nat →
  ∃ w, walks k (cap_cnode_cap radix gs g ptr) (bits_of n capptr) w ∧
    resolve_loop fuel (cap_cnode_cap radix gs g ptr) capptr (Z.of_nat n) n0 k = walk_result n0 w k.
Proof.
  intros Hok. revert radix gs g ptr n. induction fuel as [|fuel IH]; [lia|].
  intros radix gs g ptr n (Hr & Hgs & Hg & Hlev & Hslots) Hn Hf. cbn [resolve_loop].
  rewrite (wrap32_small (radix + gs)) by (unfold is_word, word_mod; lia).
  destruct (Z.eqb_spec (radix + gs) 0); [done|]. cbn [negb assert mbind M_bind mret M_ret].
  destruct (Z.ltb_spec (Z.of_nat n) gs) as [Hlt|Hge].
  { cbn [orb]. eexists. split; [apply walks_guard|].
    - intros Hp%prefix_length. rewrite !bits_of_length in Hp. lia.
    - by rewrite bits_of_length. }
  cbn [orb]. rewrite guard_bits by lia.
  set (gn := Z.to_nat gs). set (m := Z.of_nat n - gs).
  assert (Esp : bits_of n capptr = bits_of gn (Z.shiftr capptr m) ++ bits_of (Z.to_nat m) capptr)
    by (apply bits_split_Z; lia).
  assert (Eg : bits_of gn (Z.shiftr capptr m) = bits_of gn g ↔ Z.shiftr capptr m mod 2 ^ gs = g).
  { rewrite bits_of_inj. unfold gn. rewrite Z2Nat.id by lia. by rewrite (Z.mod_small g). }
  destruct (Z.eqb_spec (Z.shiftr capptr m mod 2 ^ gs) g) as [E|E]; cbn [negb].
  2:{ eexists. split; [apply walks_guard|by rewrite bits_of_length].
      rewrite prefix_bits, Esp. fold gn. rewrite <- (bits_of_length gn (Z.shiftr capptr m)) at 1.
      rewrite take_app_length. tauto. }
  apply Eg in E. rewrite E in Esp.
  destruct (Z.ltb_spec (Z.of_nat n) (radix + gs)) as [Hd|Hd].
  { eexists. rewrite Esp. split; [apply walks_depth; rewrite bits_of_length; lia|].
    rewrite bits_of_length. by replace (gs + Z.of_nat (Z.to_nat m)) with (Z.of_nat n) by lia. }
  rewrite (wrap32_small (Z.of_nat n - (radix + gs))) by (unfold is_word, word_mod; lia).
  rewrite land_MASK by lia. set (r := Z.of_nat n - (radix + gs)).
  assert (Ei : bits_of (Z.to_nat m) capptr =
    bits_of (Z.to_nat radix) (Z.shiftr capptr r) ++ bits_of (Z.to_nat r) capptr).
  { rewrite (bits_split_Z (Z.to_nat m) radix) by lia. by replace (Z.of_nat (Z.to_nat m) - radix) with r by lia. }
  assert (Ev : val_of (bits_of (Z.to_nat radix) (Z.shiftr capptr r)) = Z.shiftr capptr r mod 2 ^ radix).
  { rewrite val_of_bits. by rewrite Z2Nat.id by lia. }
  assert (El : Z.of_nat (length (bits_of (Z.to_nat radix) (Z.shiftr capptr r))) = radix)
    by (rewrite bits_of_length; lia).
  rewrite Ei in Esp. rewrite <- Ev.
  set (i := bits_of (Z.to_nat radix) (Z.shiftr capptr r)) in *.
  destruct (Z.leb_spec (Z.of_nat n) (radix + gs)) as [Hle|Hgt].
  { exists (At (cte_index ptr (val_of i)) []). split; [|done].
    replace (Z.to_nat r) with 0%nat in Esp by lia. cbn [bits_of] in Esp. rewrite app_nil_r in Esp.
    rewrite Esp. by apply walks_end. }
  assert (Hne : bits_of (Z.to_nat r) capptr ≠ []) by (rewrite bits_of_nil; lia).
  destruct (Hslots (val_of i)) as [c Hc].
  { rewrite Ev. apply Z.mod_pos_bound, Z.pow_pos_nonneg; lia. }
  unfold mbind, M_bind, mret, M_ret, cte_at. cbv beta iota zeta. rewrite Hc. destruct (is_cnode (cte_cap c)) eqn:Ec; cbn [negb].
  2:{ eexists. rewrite Esp. split; [by apply (walks_leaf k _ _ _ _ _ _ c)|].
      cbn [walk_result]. rewrite bits_of_length. by replace (Z.of_nat (Z.to_nat r)) with r by lia. }
  destruct (cte_cap c) as [| | | | |radix' gs' g' ptr'| | | | | | | | | | | | |] eqn:Ecc; try done.
  destruct (IH radix' gs' g' ptr' (Z.to_nat r)) as (w & Hw & Hrun); [|lia|lia|].
  { rewrite <- Ecc. exact (Hok _ _ Hc). }
  exists w. rewrite Esp. split.
  - eapply walks_next; [done|done|exact Hc|by rewrite Ecc|by rewrite Ecc].
  - rewrite Z2Nat.id in Hrun by lia. exact Hrun.
Qed.

(** Two walks of the same bits take the same first step. *)
Ltac walk_inv H :=
  inversion H; subst;
  try match goal with Hg : ¬ _ `prefix_of` _ |- _ => by destruct Hg; apply prefix_app_r end;
  repeat match goal with Hne : ?l ≠ [] |- _ =>
    lazymatch goal with _ : length l ≠ 0%nat |- _ => fail | _ => assert (length l ≠ 0%nat) by (by destruct l) end end;
  repeat match goal with E : bits_of _ _ ++ _ = bits_of _ _ ++ _ |- _ => apply app_inv_head in E end;
  try match goal with E : ?i ++ ?r = ?i' ++ ?r' |- _ => apply app_inj_1 in E as [??]; [|lia] end;
  subst; rewrite ?length_app in *; try lia; try congruence.

Lemma walks_det k c bits w1 w2 : walks k c bits w1 → walks k c bits w2 → w1 = w2.
Proof.
  intros H1. revert w2. induction H1; intros w2 Hw2; walk_inv Hw2; simplify_eq; auto.
Qed.

Lemma resolveAddressBits_walk k root capptr n :
  cspace_ok k → cnode_wf k root → is_cnode root = true → 1 ≤ n ≤ 32 →
  ∃ w, walks k root (bits_of (Z.to_nat n) capptr) w ∧ resolveAddressBits root capptr n k = walk_result n w k.
Proof.
  intros Hok Hwf Hcn Hn. destruct root as [| | | | |radix gs g ptr| | | | | | | | | | | | |]; try done.
  destruct (resolve_loop_walks (Z.to_nat wordBits) k radix gs g ptr capptr (Z.to_nat n) n)
    as (w & Hw & Hrun); [done|done|lia|unfold wordBits; lia|].
  exists w. split; [done|]. rewrite Z2Nat.id in Hrun by lia. exact Hrun.
Qed.

(** C31: [resolveAddressBits] computes the walk: in a well-formed capability
    space it always returns, within the fuel, and its result, bits left over or
    lookup error included, is that of the one walk the address has. *)
Theorem resolveAddressBits_walks k root capptr n :
  cspace_ok k → cnode_wf k root → is_cnode root = true → 1 ≤ n ≤ 32 →
  ∃ w, walks k root (bits_of (Z.to_nat n) capptr) w ∧
    (∀ w', walks k root (bits_of (Z.to_nat n) capptr) w' → w' = w) ∧
    resolveAddressBits root capptr n k = walk_result n w k.
Proof.
  intros Hok Hwf Hcn Hn. destruct (resolveAddressBits_walk k root capptr n Hok Hwf Hcn Hn) as (w & Hw & Hrun).
  exists w. split_and!; [done| |done]. intros w' Hw'. by eapply walks_det.
Qed.

(** ** Lookups for CNode operations *)

Definition failed_lookup_error (isSource : bool) (k : ks) : ks :=
  k <| current_syscall_error ::= λ e, e <| error_type := seL4_FailedLookup |>
                                      <| failedLookupWasSource := isSource |> |>.

(** The outcome of a lookup at a fixed depth. *)
Definition cnode_op_result (isSource : bool) (w : walk) (k : ks) : outcome lookupSlot_ret_t * ks :=
  match w with
  | At slot [] => (Done (mk_slot_ret EXCEPTION_NONE slot), k)
  | At _ rest => (Done (mk_slot_ret EXCEPTION_SYSCALL_ERROR 0),
      failed_lookup_error isSource k <| current_lookup_fault := lookup_fault_depth_mismatch 0 (Z.of_nat (length rest)) |>)
  | Stop f => (Done (mk_slot_ret EXCEPTION_SYSCALL_ERROR 0),
      failed_lookup_error isSource (k <| current_lookup_fault := f |>))
  end.

(** The lookup behind every CNode operation returns a slot exactly when the
    root is a CNode, the depth is between 1 and 32 and the walk of the address
    ends at a slot with no bit left; each other case is the error its kind calls
    for, and no other part of the kernel state changes. *)
Theorem lookupSlotForCNodeOp_correct k isSource root capptr depth :
  cspace_ok k → cnode_wf k root →
  (is_cnode root = false →
   lookupSlotForCNodeOp isSource root capptr depth k =
     (Done (mk_slot_ret EXCEPTION_SYSCALL_ERROR 0),
      failed_lookup_error isSource k <| current_lookup_fault := lookup_fault_invalid_root |>)) ∧
  (is_cnode root = true → ¬ (1 ≤ depth ≤ 32) →
   lookupSlotForCNodeOp isSource root capptr depth k =
     (Done (mk_slot_ret EXCEPTION_SYSCALL_ERROR 0),
      k <| current_syscall_error ::= λ e, e <| error_type := seL4_RangeError |> <| rangeErrorMin := 1 |>
                                            <| rangeErrorMax := 32 |> |>)) ∧
  (is_cnode root = true → 1 ≤ depth ≤ 32 →
   ∃ w, walks k root (bits_of (Z.to_nat depth) capptr) w ∧
     lookupSlotForCNodeOp isSource root capptr depth k = cnode_op_result isSource w k).
Proof.
  intros Hok Hwf. unfold lookupSlotForCNodeOp. split_and!; intros Hcn; rewrite Hcn; cbn [negb].
  - reflexivity.
  - intros Hd. destruct (Z.ltb_spec depth 1); [reflexivity|].
    destruct (Z.ltb_spec wordBits depth); [reflexivity|]. unfold wordBits in *. lia.
  - intros Hd. destruct (Z.ltb_spec depth 1); [lia|].
    destruct (Z.ltb_spec wordBits depth); [unfold wordBits in *; lia|]. cbn [orb].
    destruct (resolveAddressBits_walk k root capptr depth Hok Hwf Hcn Hd) as (w & Hw & Hrun).
    exists w. split; [done|]. unfold mbind, M_bind. rewrite Hrun.
    destruct w as [slot [|b rest]|f]; reflexivity.
Qed.

(** A root of four slots behind a guard of three bits; its slot 1 holds a CNode
    of two slots, its slot 2 a notification. *)
Definition demo_root : cap_t := cap_cnode_cap 2 3 5 4096.
Definition demo_slot (c : cap_t) : cte_t := mk_cte c nullMDBNode.
Definition cspace_demo : ks :=
  mk_ks ∅ ∅ ∅ [] 0 [] 0 0 0 [] 0 0 0 0
    (list_to_map
      [(4096, demo_slot cap_null_cap); (4112, demo_slot (cap_cnode_cap 1 0 0 8192));
       (4128, demo_slot (cap_notification_cap 7 true true 512)); (4144, demo_slot cap_null_cap);
       (8192, demo_slot cap_null_cap); (8208, demo_slot (cap_thread_cap 1024))])
    ∅ [] lookup_fault_invalid_root seL4_Fault_NullFault (mk_error 0 0 0 0 0 false 0) 0 []
    ∅ [0; 0; 0] [] (mk_x86 [0; 0; 0; 0] 0 0 0 []).

Lemma cspace_demo_ok : cspace_ok cspace_demo.
Proof.
  intros p c Hc. unfold cspace_demo in Hc. cbn [ctes list_to_map foldr fst snd] in Hc.
  repeat (apply lookup_insert_Some in Hc as [[<- <-]|[_ Hc]]; [try exact I|]); [|done].
  cbn. split_and!; try lia. intros i Hi.
  assert (i = 0 ∨ i = 1) as [->| ->] by lia; eexists; vm_compute; reflexivity.
Qed.

Lemma demo_root_wf : cnode_wf cspace_demo demo_root.
Proof.
  cbn. split_and!; try lia. intros i Hi.
  assert (i = 0 ∨ i = 1 ∨ i = 2 ∨ i = 3) as [->|[->|[->| ->]]] by lia; eexists; vm_compute; reflexivity.
Qed.

(** Guard 101, index 01, then index 1 of the inner CNode: the six bits 101011. *)
Example resolve_demo :
  fst (resolveAddressBits demo_root 43 6 cspace_demo) = Done (mk_resolve EXCEPTION_NONE 8208 0) ∧
  fst (resolveAddressBits demo_root 45 6 cspace_demo) = Done (mk_resolve EXCEPTION_NONE 4128 1) ∧
  fst (resolveAddressBits demo_root 61 6 cspace_demo) = Done (mk_resolve EXCEPTION_LOOKUP_FAULT 0 6).
Proof. split_and!; vm_compute; reflexivity. Qed.

Lemma resolveAddressBits_walks_witness :
  ∃ w, walks cspace_demo demo_root (bits_of 6 43) w ∧
    (∀ w', walks cspace_demo demo_root (bits_of 6 43) w' → w' = w) ∧
    resolveAddressBits demo_root 43 6 cspace_demo = walk_result 6 w cspace_demo.
Proof.
  refine (resolveAddressBits_walks cspace_demo demo_root 43 6 cspace_demo_ok demo_root_wf eq_refl _).
  lia.
Defined.

Lemma lookupSlotForCNodeOp_correct_witness :
  ∃ w, walks cspace_demo demo_root (bits_of 6 43) w ∧
    lookupSlotForCNodeOp true demo_root 43 6 cspace_demo = cnode_op_result true w cspace_demo.
Proof.
  refine (proj2 (proj2 (lookupSlotForCNodeOp_correct cspace_demo true demo_root 43 6
    cspace_demo_ok demo_root_wf)) eq_refl _). lia.
Defined.
