(* ===== verification/CNode.v ===== *)
(** Slots and the capability derivation list: the operations of
    [object/cnode.c] that copy, move, swap and remove capabilities.

    The derivation list ("MDB") links the slots that hold capabilities; the
    abstract view is a list of disjoint chains ([mdb_ok]), and every operation
    is proved to be the list operation its name promises.  The addresses of
    slots are multiples of 16, so the alignment checks of the generated setters
    of [mdb_node_t] hold; they are not repeated here. *)

From S2P Require Import Prelude Caps Kernel CSpace.

Definition mdb_links : links cte_t.
Proof.
  refine (mk_links cte_t (λ c, mdbNext (cteMDBNode c)) (λ c, mdbPrev (cteMDBNode c))
    (λ v c, c <| cteMDBNode ::= λ m, m <| mdbNext := v |> |>)
    (λ v c, c <| cteMDBNode ::= λ m, m <| mdbPrev := v |> |>) _ _ _ _ _ _); reflexivity.
Defined.

(** [mdb_node_ptr_set_mdbNext(&p->cteMDBNode, v)], and the like *)
Definition set_mdbNext (p v : Z) : K unit := cte_set p (set_nx mdb_links v).
Definition set_mdbPrev (p v : Z) : K unit := cte_set p (set_pv mdb_links v).
Definition set_cap (p : Z) (c : cap_t) : K unit := cte_set p (λ s, s <| cte_cap := c |>).
Definition set_mdb (p : Z) (m : mdb_node_t) : K unit := cte_set p (λ s, s <| cteMDBNode := m |>).

(** ** Insertion *)

Definition MAX_FREE_INDEX (sizeBits : Z) : Z := BIT (sizeBits - 4).

(** [cap_untyped_cap_ptr_set_capFreeIndex]; the field has 26 bits. *)
Definition set_capFreeIndex (v : Z) (c : cap_t) : outcome cap_t :=
  match c with
  | cap_untyped_cap _ dev size ptr => mret (cap_untyped_cap (v mod 2 ^ 26) dev size ptr)
  | _ => Halted AssertFailed
  end.

Definition setUntypedCapAsFull (srcCap newCap : cap_t) (srcSlot : Z) : K unit :=
  match srcCap, newCap with
  | cap_untyped_cap _ _ size ptr, cap_untyped_cap _ _ size' ptr' =>
    if (ptr =? ptr') && (size' =? size) then
      s ← cte_at srcSlot;
      c ← lift (set_capFreeIndex (MAX_FREE_INDEX size) (cte_cap s));
      set_cap srcSlot c
    else mret tt
  | _, _ => mret tt
  end.

(** The [switch] of [cteInsert]; the getters check the type of [srcCap]. *)
Definition newCapIsRevocable (newCap srcCap : cap_t) : outcome bool :=
  match newCap with
  | cap_endpoint_cap b _ _ _ _ =>
    match srcCap with cap_endpoint_cap b' _ _ _ _ => mret (negb (b =? b')) | _ => Halted AssertFailed end
  | cap_notification_cap b _ _ _ =>
    match srcCap with cap_notification_cap b' _ _ _ => mret (negb (b =? b')) | _ => Halted AssertFailed end
  | cap_irq_handler_cap _ => mret (match srcCap with cap_irq_control_cap => true | _ => false end)
  | cap_untyped_cap _ _ _ _ => mret true
  | _ => mret false
  end.

(** [assert(destination is empty); assert(its mdb node is empty);] *)
Definition assert_empty (destSlot : Z) : K unit :=
  d ← cte_at destSlot;
  assert (is_null (cte_cap d));;
  assert ((mdbNext (cteMDBNode d) =? 0) && (mdbPrev (cteMDBNode d) =? 0)).

Definition cteInsert (newCap : cap_t) (srcSlot destSlot : Z) : K unit :=
  src ← cte_at srcSlot;
  let srcMDB := cteMDBNode src in
  let srcCap := cte_cap src in
  rev ← lift (newCapIsRevocable newCap srcCap);
  let newMDB := srcMDB <| mdbPrev := srcSlot |> <| mdbRevocable := rev |> <| mdbFirstBadged := rev |> in
  assert_empty destSlot;;
  setUntypedCapAsFull srcCap newCap srcSlot;;
  set_cap destSlot newCap;;
  set_mdb destSlot newMDB;;
  set_mdbNext srcSlot destSlot;;
  when (negb (mdbNext newMDB =? 0)) (set_mdbPrev (mdbNext newMDB) destSlot).

Definition insertNewCap (parent slot : Z) (c : cap_t) : K unit :=
  p ← cte_at parent;
  let next := mdbNext (cteMDBNode p) in
  set_cap slot c;;
  set_mdb slot (mdb_node_new next true true parent);;
  when (negb (next =? 0)) (set_mdbPrev next slot);;
  set_mdbNext parent slot.

Definition setupReplyMaster (thread : Z) : K unit :=
  let slot := TCB_PTR_CTE_PTR thread tcbReply in
  s ← cte_at slot;
  when (is_null (cte_cap s))
    (set_cap slot (cap_reply_cap true thread);;
     set_mdb slot nullMDBNode;;
     cte_set slot (λ s, s <| cteMDBNode ::= λ m, m <| mdbRevocable := true |> |>);;
     cte_set slot (λ s, s <| cteMDBNode ::= λ m, m <| mdbFirstBadged := true |> |>)).

(** ** Moving *)

Definition cteMove (newCap : cap_t) (srcSlot destSlot : Z) : K unit :=
  assert_empty destSlot;;
  src ← cte_at srcSlot;
  let mdb := cteMDBNode src in
  set_cap destSlot newCap;;
  set_cap srcSlot cap_null_cap;;
  set_mdb destSlot mdb;;
  set_mdb srcSlot nullMDBNode;;
  when (negb (mdbPrev mdb =? 0)) (set_mdbNext (mdbPrev mdb) destSlot);;
  when (negb (mdbNext mdb =? 0)) (set_mdbPrev (mdbNext mdb) destSlot).

Definition cteSwap (cap1 : cap_t) (slot1 : Z) (cap2 : cap_t) (slot2 : Z) : K unit :=
  set_cap slot1 cap2;;
  set_cap slot2 cap1;;
  s1 ← cte_at slot1;
  let mdb1 := cteMDBNode s1 in
  when (negb (mdbPrev mdb1 =? 0)) (set_mdbNext (mdbPrev mdb1) slot2);;
  when (negb (mdbNext mdb1 =? 0)) (set_mdbPrev (mdbNext mdb1) slot2);;
  s2 ← cte_at slot2;
  let mdb2 := cteMDBNode s2 in
  set_mdb slot1 mdb2;;
  set_mdb slot2 mdb1;;
  when (negb (mdbPrev mdb2 =? 0)) (set_mdbNext (mdbPrev mdb2) slot1);;
  when (negb (mdbNext mdb2 =? 0)) (set_mdbPrev (mdbNext mdb2) slot1).

Definition capSwapForDelete (slot1 slot2 : Z) : K unit :=
  if slot1 =? slot2 then mret tt
  else
    s1 ← cte_at slot1;
    s2 ← cte_at slot2;
    cteSwap (cte_cap s1) slot1 (cte_cap s2) slot2.

(** ** Removal *)

Definition irqInvalid : Z := -1.

(** [maskInterrupt] talks to the interrupt controller: the call is recorded. *)
Definition maskInterrupt (mask : bool) (irq : Z) : K unit := modify (λ k, k <| irq_masks ::= cons (mask, irq) |>).
Definition setIRQState (st : irq_state) (irq : Z) : K unit :=
  modify (λ k, k <| intStateIRQTable ::= <[irq := st]> |>);;
  maskInterrupt (match st with IRQInactive => true | _ => false end) irq.
Definition deletedIRQHandler (irq : Z) : K unit := setIRQState IRQInactive irq.

Definition emptySlot (slot irq : Z) : K unit :=
  s ← cte_at slot;
  if negb (is_null (cte_cap s)) then
    let mdbNode := cteMDBNode s in
    let prev := mdbPrev mdbNode in
    let next := mdbNext mdbNode in
    when (negb (prev =? 0)) (set_mdbNext prev next);;
    when (negb (next =? 0)) (set_mdbPrev next prev);;
    when (negb (next =? 0))
      (cte_set next (λ n, n <| cteMDBNode ::= λ m,
         m <| mdbFirstBadged := mdbFirstBadged m || mdbFirstBadged mdbNode |> |>));;
    set_cap slot cap_null_cap;;
    set_mdb slot nullMDBNode;;
    when (negb (irq =? irqInvalid)) (deletedIRQHandler irq)
  else mret tt.

(** ** Questions about a slot *)

Definition isMDBParentOf (cte_a cte_b : cte_t) : outcome bool :=
  if negb (mdbRevocable (cteMDBNode cte_a)) then mret false
  else
    same ← sameRegionAs (cte_cap cte_a) (cte_cap cte_b);
    if negb same then mret false
    else
      match cte_cap cte_a with
      | cap_endpoint_cap badge _ _ _ _ =>
        if badge =? 0 then mret true
        else
          match cte_cap cte_b with
          | cap_endpoint_cap badge' _ _ _ _ =>
            mret ((badge =? badge') && negb (mdbFirstBadged (cteMDBNode cte_b)))
          | _ => Halted AssertFailed
          end
      | cap_notification_cap badge _ _ _ =>
        if badge =? 0 then mret true
        else
          match cte_cap cte_b with
          | cap_notification_cap badge' _ _ _ =>
            mret ((badge =? badge') && negb (mdbFirstBadged (cteMDBNode cte_b)))
          | _ => Halted AssertFailed
          end
      | _ => mret true
      end.

Definition ensureNoChildren (slot : Z) : K exception_t :=
  s ← cte_at slot;
  if negb (mdbNext (cteMDBNode s) =? 0) then
    n ← cte_at (mdbNext (cteMDBNode s));
    parent ← lift (isMDBParentOf s n);
    if parent : bool then
      set_error (λ e, e <| error_type := seL4_RevokeFirst |>);;
      mret EXCEPTION_SYSCALL_ERROR
    else mret EXCEPTION_NONE
  else mret EXCEPTION_NONE.

Definition ensureEmptySlot (slot : Z) : K exception_t :=
  s ← cte_at slot;
  if negb (is_null (cte_cap s)) then
    set_error (λ e, e <| error_type := seL4_DeleteFirst |>);;
    mret EXCEPTION_SYSCALL_ERROR
  else mret EXCEPTION_NONE.

Definition isFinalCapability (cte : Z) : K bool :=
  s ← cte_at cte;
  let mdb := cteMDBNode s in
  prevIsSameObject ←
    (if mdbPrev mdb =? 0 then mret false
     else p ← cte_at (mdbPrev mdb); lift (sameObjectAs (cte_cap p) (cte_cap s)));
  if prevIsSameObject : bool then mret false
  else if mdbNext mdb =? 0 then mret true
  else n ← cte_at (mdbNext mdb); same ← lift (sameObjectAs (cte_cap s) (cte_cap n)); mret (negb same).

Definition slotCapLongRunningDelete (slot : Z) : K bool :=
  s ← cte_at slot;
  if is_null (cte_cap s) then mret false
  else
    final ← isFinalCapability slot;
    if negb final then mret false
    else mret (match cte_cap s with
               | cap_thread_cap _ | cap_zombie_cap _ _ | cap_cnode_cap _ _ _ _ => true
               | _ => false
               end).

(** ** Invocations that only touch slots *)

Definition invokeCNodeInsert (c : cap_t) (srcSlot destSlot : Z) : K exception_t :=
  cteInsert c srcSlot destSlot;; mret EXCEPTION_NONE.

Definition invokeCNodeMove (c : cap_t) (srcSlot destSlot : Z) : K exception_t :=
  cteMove c srcSlot destSlot;; mret EXCEPTION_NONE.

Definition invokeCNodeRotate (cap1 cap2 : cap_t) (slot1 slot2 slot3 : Z) : K exception_t :=
  (if slot1 =? slot3 then cteSwap cap1 slot1 cap2 slot2
   else cteMove cap2 slot2 slot3;; cteMove cap1 slot1 slot2);;
  mret EXCEPTION_NONE.

Definition invokeCNodeSaveCaller (destSlot : Z) : K exception_t :=
  ct ← gets ksCurThread;
  let srcSlot := TCB_PTR_CTE_PTR ct tcbCaller in
  s ← cte_at srcSlot;
  match cte_cap s with
  | cap_null_cap => mret EXCEPTION_NONE
  | cap_reply_cap master _ =>
    when (negb master) (cteMove (cte_cap s) srcSlot destSlot);;
    mret EXCEPTION_NONE
  | _ => halt_with AssertFailed
  end.

(** ** The derivation list as a list of chains *)

Record mdb_ok (h : gmap Z cte_t) (cs : list (list Z)) : Prop := {
  mo_chain : ∀ l, l ∈ cs → dseg mdb_links h 0 l 0;
  mo_nodup : NoDup (concat cs);
  mo_used : ∀ p s, h !! p = Some s → (p ∈ concat cs ↔ is_null (cte_cap s) = false);
  mo_free : ∀ p s, h !! p = Some s → is_null (cte_cap s) = true → cteMDBNode s = nullMDBNode;
  mo_ptr : h !! 0 = None
}.

(** A slot apart from its links. *)
Notation slot_core := (erase mdb_links).

Lemma chain_nodup (cs : list (list Z)) l : NoDup (concat cs) → l ∈ cs → NoDup l.
Proof.
  intros Hnd Hl. induction cs as [|l0 cs IH]; [by apply elem_of_nil in Hl|].
  cbn in Hnd. apply NoDup_app in Hnd as (H1 & _ & H2). apply elem_of_cons in Hl as [->|Hl]; auto.
Qed.

Lemma elem_of_concat (cs : list (list Z)) p : p ∈ concat cs ↔ ∃ l, l ∈ cs ∧ p ∈ l.
Proof. rewrite list_elem_of_In, in_concat. setoid_rewrite <- list_elem_of_In. naive_solver. Qed.

Section mdb_facts.
Context (h : gmap Z cte_t) (cs : list (list Z)) (H : mdb_ok h cs).

Lemma mdb_nonzero p s : h !! p = Some s → p ≠ 0.
Proof. intros Hp ->. by rewrite (mo_ptr _ _ H) in Hp. Qed.

Lemma mdb_chain p s : h !! p = Some s → is_null (cte_cap s) = false →
  ∃ l1 l2, l1 ++ p :: l2 ∈ cs ∧ NoDup (l1 ++ p :: l2) ∧
    mdbPrev (cteMDBNode s) = last_or 0 l1 ∧ mdbNext (cteMDBNode s) = first_or 0 l2.
Proof.
  intros Hp Hn. apply (mo_used _ _ H p s Hp), elem_of_concat in Hn as (l & Hl & Hpl).
  apply list_elem_of_split in Hpl as (l1 & l2 & ->). exists l1, l2.
  pose proof (chain_nodup _ _ (mo_nodup _ _ H) Hl) as Hnd.
  pose proof (mo_chain _ _ H _ Hl) as Hd. apply dseg_app in Hd as (_ & _ & (c & Hc & Hpv & Hnx) & _).
  simplify_eq. by split_and!.
Qed.

(** The next slot exists, holds a capability and points back. *)
Lemma mdb_next p s : h !! p = Some s → mdbNext (cteMDBNode s) ≠ 0 →
  ∃ n, h !! mdbNext (cteMDBNode s) = Some n ∧ mdbPrev (cteMDBNode n) = p ∧
    is_null (cte_cap n) = false ∧ is_null (cte_cap s) = false ∧ mdbNext (cteMDBNode s) ≠ p.
Proof.
  intros Hp Hnz. destruct (is_null (cte_cap s)) eqn:E.
  { by rewrite (mo_free _ _ H p s Hp E) in Hnz. }
  destruct (mdb_chain p s Hp E) as (l1 & l2 & Hl & Hnd & _ & Hn). rewrite Hn in *.
  pose proof (mo_chain _ _ H _ Hl) as Hd. destruct l2 as [|n l2]; [done|]. cbn in *.
  apply dseg_app in Hd as (_ & _ & _ & _ & (c & Hc & Hpv & _) & _). exists c. split_and!; try done.
  - apply (mo_used _ _ H n c Hc), elem_of_concat. eexists. split; [exact Hl|]. set_solver.
  - intros ->. apply NoDup_app in Hnd as (_ & _ & [Hnin _]%NoDup_cons). set_solver.
Qed.

Lemma mdb_prev p s : h !! p = Some s → mdbPrev (cteMDBNode s) ≠ 0 →
  ∃ n, h !! mdbPrev (cteMDBNode s) = Some n ∧ mdbNext (cteMDBNode n) = p ∧
    is_null (cte_cap n) = false ∧ is_null (cte_cap s) = false ∧ mdbPrev (cteMDBNode s) ≠ p.
Proof.
  intros Hp Hnz. destruct (is_null (cte_cap s)) eqn:E.
  { by rewrite (mo_free _ _ H p s Hp E) in Hnz. }
  destruct (mdb_chain p s Hp E) as (l1 & l2 & Hl & Hnd & Hpv & _). rewrite Hpv in *.
  pose proof (mo_chain _ _ H _ Hl) as Hd.
  destruct (list_snoc_or_nil l1) as [->|(l & q & ->)]; [done|]. rewrite last_or_snoc in *.
  rewrite <- app_assoc in Hd, Hnd. apply dseg_app in Hd as (_ & _ & (c & Hc & _ & Hnx) & _).
  exists c. split_and!; try done.
  - apply (mo_used _ _ H q c Hc), elem_of_concat. eexists. split; [exact Hl|]. set_solver.
  - intros ->. apply NoDup_app in Hnd as (_ & _ & [Hnin _]%NoDup_cons). set_solver.
Qed.

(** The links of the list mirror each other. *)
Lemma mdb_sym p s q t : h !! p = Some s → h !! q = Some t →
  mdbNext (cteMDBNode s) = q ↔ mdbPrev (cteMDBNode t) = p.
Proof.
  intros Hp Hq. split.
  - intros E. destruct (mdb_next p s Hp) as (n & Hn & Hpv & _); [rewrite E; by eapply mdb_nonzero|].
    rewrite E in Hn. by simplify_eq.
  - intros E. destruct (mdb_prev q t Hq) as (n & Hn & Hnx & _); [rewrite E; by eapply mdb_nonzero|].
    rewrite E in Hn. by simplify_eq.
Qed.

End mdb_facts.

(** ** Writing slots *)

Lemma insert_alter_eq {A} (m : gmap Z A) i x f : m !! i = Some x → <[i := f x]> m = alter f i m.
Proof.
  intros Hi. apply map_eq. intros j. destruct (decide (i = j)) as [->|Hne].
  - by rewrite lookup_insert_eq, lookup_alter_eq, Hi.
  - by rewrite lookup_insert_ne, lookup_alter_ne.
Qed.

Lemma lookup_alter_if {A} (m : gmap Z A) i j f :
  alter f i m !! j = (if decide (j = i) then f else id) <$> m !! j.
Proof.
  destruct (decide (j = i)) as [->|Hne].
  - by rewrite lookup_alter_eq.
  - rewrite lookup_alter_ne by done. by destruct (m !! j).
Qed.

Lemma wp_cte_alter p f (Q : unit → ks → Prop) k :
  is_Some (ctes k !! p) → Q tt (k <| ctes ::= alter f p |>) → wp (cte_set p f) Q k.
Proof.
  intros [c Hc] HQ. apply (wp_cte_set _ _ c); [done|].
  assert (E : k <| ctes ::= <[p := f c]> |> = k <| ctes ::= alter f p |>)
    by (unfold update; by rewrite (insert_alter_eq _ _ c)).
  by rewrite E.
Qed.

(** [if (p) set link of *p] *)
Definition alter_nz (f : cte_t → cte_t) (p : Z) (h : gmap Z cte_t) : gmap Z cte_t :=
  if p =? 0 then h else alter f p h.

Lemma lookup_alter_nz f p h j : h !! 0 = None →
  alter_nz f p h !! j = (if decide (j = p) then f else id) <$> h !! j.
Proof.
  intros H0. unfold alter_nz. destruct (Z.eqb_spec p 0) as [->|].
  - destruct (decide (j = 0)) as [->|]; [by rewrite H0|]. by destruct (h !! j).
  - apply lookup_alter_if.
Qed.

Lemma wp_when_alter p f (Q : unit → ks → Prop) k :
  (p ≠ 0 → is_Some (ctes k !! p)) → Q tt (k <| ctes ::= alter_nz f p |>) →
  wp (when (negb (p =? 0)) (cte_set p f)) Q k.
Proof.
  intros Hp HQ. unfold alter_nz in HQ. destruct (Z.eqb_spec p 0) as [E|E]; cbn [negb when].
  - apply wp_ret. assert (Ek : k <| ctes ::= λ h, h |> = k) by (by destruct k). by rewrite Ek in HQ.
  - apply wp_cte_alter; auto.
Qed.

(** Writes keep slots alive. *)
Lemma live_alter (f : cte_t → cte_t) i (h : gmap Z cte_t) j : is_Some (h !! j) → is_Some (alter f i h !! j).
Proof. intros Hj. rewrite lookup_alter_if. by apply fmap_is_Some. Qed.
Lemma live_alter_nz f i h j : is_Some (h !! j) → is_Some (alter_nz f i h !! j).
Proof. unfold alter_nz. destruct (i =? 0); [done|apply live_alter]. Qed.

Create HintDb mdb.
#[export] Hint Resolve live_alter live_alter_nz : mdb.
#[export] Hint Extern 1 (is_Some (ctes (_ <| ctes ::= _ |>) !! _)) => progress cbn [ctes update] : mdb.

(** Renaming one slot. *)
Definition moved (src dest x : Z) : Z := if decide (x = src) then dest else x.

Definition rename_slots (π : Z → Z) (cs : list (list Z)) : list (list Z) := (λ l : list Z, π <$> l) <$> cs.

Lemma concat_rename π cs : concat (rename_slots π cs) = π <$> concat cs.
Proof.
  unfold rename_slots. induction cs as [|l cs IH]; [done|]. rewrite fmap_cons. cbn [concat].
  by rewrite fmap_app, <- IH.
Qed.

Lemma mdb_slot_exists h cs t : mdb_ok h cs → t ∈ concat cs → is_Some (h !! t).
Proof.
  intros H (l & Hl & Ht)%elem_of_concat.
  by destruct (dseg_lookup mdb_links h 0 l 0 t (mo_chain _ _ H _ Hl) Ht).
Qed.

(** A renaming of slots that is injective on those in use, carried out on the
    links and with the capabilities following, keeps the list well formed. *)
Lemma mdb_ok_rename h h' cs (π : Z → Z) :
  mdb_ok h cs → π 0 = 0 → h' !! 0 = None →
  (∀ x y, x ∈ concat cs → y ∈ concat cs → π x = π y → x = y) →
  (∀ t c, t ∈ concat cs → h !! t = Some c → π t ≠ 0 ∧ ∃ c', h' !! π t = Some c' ∧
     mdbNext (cteMDBNode c') = π (mdbNext (cteMDBNode c)) ∧
     mdbPrev (cteMDBNode c') = π (mdbPrev (cteMDBNode c)) ∧ is_null (cte_cap c') = false) →
  (∀ p s, h' !! p = Some s → (∀ t, t ∈ concat cs → p ≠ π t) →
     is_null (cte_cap s) = true ∧ cteMDBNode s = nullMDBNode) →
  mdb_ok h' (rename_slots π cs).
Proof.
  intros H H0 Hz Hinj Hm Hf.
  assert (Hu : ∀ p s, h' !! p = Some s → is_null (cte_cap s) = false → p ∈ π <$> concat cs).
  { intros p s Hp Hn. destruct (decide (p ∈ π <$> concat cs)) as [|Hni]; [done|].
    destruct (Hf p s Hp) as [? _]; [|congruence]. intros t Ht ->. apply Hni. by apply list_elem_of_fmap_2. }
  assert (Hi : ∀ p s, h' !! p = Some s → p ∈ π <$> concat cs → is_null (cte_cap s) = false).
  { intros p s Hp (t & -> & Ht)%list_elem_of_fmap. destruct (mdb_slot_exists _ _ t H Ht) as [c Hc].
    destruct (Hm t c Ht Hc) as (_ & c' & Hc' & _ & _ & Hn). congruence. }
  split; [| | | |done].
  - intros l' (l & -> & Hl)%list_elem_of_fmap. rewrite <- H0.
    eapply dseg_rename; [|by apply (mo_chain _ _ H)].
    intros t c Ht Hc. assert (Hin : t ∈ concat cs) by (apply elem_of_concat; eauto).
    destruct (Hm t c Hin Hc) as (Hz' & c' & ? & ? & ? & _). split; [done|]. by exists c'.
  - rewrite concat_rename. apply NoDup_fmap_2_strong; [|apply H]. intros x y Hx Hy. by apply Hinj.
  - intros p s Hp. rewrite concat_rename. split; [by apply Hi|by apply Hu].
  - intros p s Hp Hn. apply (Hf p s Hp). intros t Ht ->.
    assert (is_null (cte_cap s) = false) by (eapply Hi; [done|by apply list_elem_of_fmap_2]). congruence.
Qed.

Lemma wp_assert_empty p d (Q : unit → ks → Prop) k :
  ctes k !! p = Some d → is_null (cte_cap d) = true → cteMDBNode d = nullMDBNode →
  Q tt k → wp (assert_empty p) Q k.
Proof.
  intros Hd Hn Hm HQ. unfold assert_empty. apply wp_bind, (wp_cte_at _ d); [done|].
  apply wp_bind, wp_assert; [done|]. apply wp_assert; [by rewrite Hm|done].
Qed.

(** *** [cteMove] *)

(** The slots after [cteMove], in the order of its assignments. *)
Definition move_heap (newCap : cap_t) (src dest : Z) (mdb : mdb_node_t) (h : gmap Z cte_t) : gmap Z cte_t :=
  alter_nz (set_pv mdb_links dest) (mdbNext mdb)
  (alter_nz (set_nx mdb_links dest) (mdbPrev mdb)
  (alter (λ s, s <| cteMDBNode := nullMDBNode |>) src
  (alter (λ s, s <| cteMDBNode := mdb |>) dest
  (alter (λ s, s <| cte_cap := cap_null_cap |>) src
  (alter (λ s, s <| cte_cap := newCap |>) dest h))))).

Lemma cteMove_run k cs newCap src dest s d :
  mdb_ok (ctes k) cs → ctes k !! src = Some s → ctes k !! dest = Some d → is_null (cte_cap d) = true →
  wp (cteMove newCap src dest) (λ _ k', k' = k <| ctes := move_heap newCap src dest (cteMDBNode s) (ctes k) |>) k.
Proof.
  intros H Hs Hd Hn. unfold cteMove. apply wp_bind, (wp_assert_empty _ d); try done.
  { by apply (mo_free _ _ H dest d). }
  apply wp_bind, (wp_cte_at _ s); [done|].
  assert (Hls : is_Some (ctes k !! src)) by eauto. assert (Hld : is_Some (ctes k !! dest)) by eauto.
  do 4 (apply wp_bind, wp_cte_alter; [by auto 10 with mdb|]).
  apply wp_bind, wp_when_alter.
  { intros Hz. destruct (mdb_prev _ _ H src s Hs Hz) as (n & Hn' & _).
    assert (is_Some (ctes k !! mdbPrev (cteMDBNode s))) by eauto. by auto 10 with mdb. }
  apply wp_when_alter.
  { intros Hz. destruct (mdb_next _ _ H src s Hs Hz) as (n & Hn' & _).
    assert (is_Some (ctes k !! mdbNext (cteMDBNode s))) by eauto. by auto 10 with mdb. }
  reflexivity.
Qed.

Lemma zero_alter f p (h : gmap Z cte_t) : h !! 0 = None → alter f p h !! 0 = None.
Proof. intros H. rewrite lookup_alter_if, H. done. Qed.
Lemma zero_alter_nz f p (h : gmap Z cte_t) : h !! 0 = None → alter_nz f p h !! 0 = None.
Proof. unfold alter_nz. destruct (p =? 0); [done|apply zero_alter]. Qed.
#[export] Hint Resolve zero_alter zero_alter_nz : mdb.

(** Reads a slot through a sequence of writes. *)
Ltac read_slot := repeat first
  [ rewrite lookup_alter_nz by auto 20 with mdb | rewrite lookup_alter_if ].

Lemma move_heap_lookup newCap src dest mdb h u c :
  h !! 0 = None → src ≠ dest → h !! u = Some c →
  mdbNext mdb ≠ src → mdbNext mdb ≠ dest → mdbPrev mdb ≠ src → mdbPrev mdb ≠ dest →
  move_heap newCap src dest mdb h !! u =
    if decide (u = dest) then Some (mk_cte newCap mdb)
    else if decide (u = src) then Some (mk_cte cap_null_cap nullMDBNode)
    else Some ((if decide (u = mdbNext mdb) then set_pv mdb_links dest else id)
          ((if decide (u = mdbPrev mdb) then set_nx mdb_links dest else id) c)).
Proof.
  intros H0 Hne Hc Hns Hnd Hps Hpd. unfold move_heap. read_slot. rewrite Hc. cbn [fmap option_fmap option_map].
  destruct (decide (u = dest)) as [->|].
  { rewrite !(decide_False (P := dest = src)), !(decide_False (P := dest = _)) by done. by destruct c. }
  destruct (decide (u = src)) as [->|]; [|done].
  rewrite !(decide_False (P := src = _)) by done. by destruct c.
Qed.

Lemma move_heap_ok h cs newCap src dest s d :
  mdb_ok h cs → h !! src = Some s → h !! dest = Some d → is_null (cte_cap s) = false →
  is_null (cte_cap d) = true → is_null newCap = false →
  mdb_ok (move_heap newCap src dest (cteMDBNode s) h) (rename_slots (moved src dest) cs).
Proof.
  intros H Hs Hd Hns Hnd Hnew. set (m := cteMDBNode s).
  pose proof (mdb_nonzero _ _ H _ _ Hs) as Hs0. pose proof (mdb_nonzero _ _ H _ _ Hd) as Hd0.
  assert (Hsd : src ≠ dest) by congruence.
  assert (Hdin : dest ∉ concat cs).
  { intros Hin. apply (mo_used _ _ H dest d Hd) in Hin. congruence. }
  assert (Hsin : src ∈ concat cs) by (by apply (mo_used _ _ H src s Hs)).
  assert (HN : mdbNext m ≠ src ∧ mdbNext m ≠ dest).
  { destruct (decide (mdbNext m = 0)) as [->|Hz]; [by split|].
    destruct (mdb_next _ _ H _ _ Hs Hz) as (n & Hn & _ & Hnn & _ & ?). split; [done|].
    intros E. fold m in Hn. rewrite E in Hn. congruence. }
  assert (HP : mdbPrev m ≠ src ∧ mdbPrev m ≠ dest).
  { destruct (decide (mdbPrev m = 0)) as [->|Hz]; [by split|].
    destruct (mdb_prev _ _ H _ _ Hs Hz) as (n & Hn & _ & Hnn & _ & ?). split; [done|].
    intros E. fold m in Hn. rewrite E in Hn. congruence. }
  destruct HN as [HN1 HN2], HP as [HP1 HP2]. pose proof (mo_ptr _ _ H) as H0.
  pose proof (λ u c Hu, move_heap_lookup newCap src dest m h u c H0 Hsd Hu HN1 HN2 HP1 HP2) as Hl.
  apply (mdb_ok_rename h); try done.
  - unfold moved. by rewrite decide_False by done.
  - unfold move_heap. auto 20 with mdb.
  - intros x y Hx Hy. unfold moved. repeat case_decide; congruence.
  - intros t c Ht Hc. unfold moved at 1 2. destruct (decide (t = src)) as [->|Hts].
    + split; [done|]. simplify_eq. eexists. rewrite (Hl _ _ Hd), decide_True by done. split; [done|].
      fold m. unfold moved. by rewrite !decide_False by done.
    + assert (Htd : t ≠ dest) by congruence. split; [by eapply (mdb_nonzero _ _ H)|].
      eexists. rewrite (Hl _ _ Hc), !(decide_False (P := t = _)) by done. split; [done|].
      pose proof (mdb_sym _ _ H t c src s Hc Hs) as E1. pose proof (mdb_sym _ _ H src s t c Hs Hc) as E2.
      fold m in E1, E2. unfold moved.
      assert (Hnn : is_null (cte_cap c) = false) by (by apply (mo_used _ _ H t c Hc)).
      repeat case_decide; cbn; split_and!; try done; naive_solver.
  - intros p x Hp Hno. destruct (h !! p) as [c|] eqn:Hc.
    2:{ unfold move_heap in Hp. revert Hp. read_slot. by rewrite Hc. }
    rewrite (Hl _ _ Hc) in Hp. destruct (decide (p = dest)) as [->|Hpd].
    { destruct (Hno src Hsin). unfold moved. by rewrite decide_True. }
    destruct (decide (p = src)) as [->|Hps]; [by simplify_eq|].
    assert (Hpin : p ∉ concat cs).
    { intros Hin. apply (Hno p Hin). unfold moved. by rewrite decide_False. }
    assert (Hcn : is_null (cte_cap c) = true).
    { destruct (is_null (cte_cap c)) eqn:E; [done|]. by apply (mo_used _ _ H p c Hc) in E. }
    pose proof (mo_free _ _ H p c Hc Hcn) as Hm0.
    pose proof (mdb_sym _ _ H p c src s Hc Hs) as E1. pose proof (mdb_sym _ _ H src s p c Hs Hc) as E2.
    fold m in E1, E2. rewrite Hm0 in E1, E2. cbn in E1, E2.
    rewrite !decide_False in Hp by naive_solver. by simplify_eq.
Qed.

(** *** [cteSwap] *)

Definition swapped (a b x : Z) : Z := if decide (x = a) then b else if decide (x = b) then a else x.

(** The slots before [mdb2] is read, and at the end. *)
Definition swap_heap1 (cap1 : cap_t) (slot1 : Z) (cap2 : cap_t) (slot2 : Z) (mdb1 : mdb_node_t)
    (h : gmap Z cte_t) : gmap Z cte_t :=
  alter_nz (set_pv mdb_links slot2) (mdbNext mdb1)
  (alter_nz (set_nx mdb_links slot2) (mdbPrev mdb1)
  (alter (λ s, s <| cte_cap := cap1 |>) slot2
  (alter (λ s, s <| cte_cap := cap2 |>) slot1 h))).
Definition swap_heap2 (slot1 slot2 : Z) (mdb1 mdb2 : mdb_node_t) (h : gmap Z cte_t) : gmap Z cte_t :=
  alter_nz (set_pv mdb_links slot1) (mdbNext mdb2)
  (alter_nz (set_nx mdb_links slot1) (mdbPrev mdb2)
  (alter (λ s, s <| cteMDBNode := mdb1 |>) slot2
  (alter (λ s, s <| cteMDBNode := mdb2 |>) slot1 h))).

(** [mdb2] as the code reads it: the neighbours of [slot1] have been redirected. *)
Definition mdb2_read (slot2 : Z) (mdb1 mdb2 : mdb_node_t) : mdb_node_t :=
  mdb_node_new (if decide (slot2 = mdbPrev mdb1) then slot2 else mdbNext mdb2)
    (mdbRevocable mdb2) (mdbFirstBadged mdb2)
    (if decide (slot2 = mdbNext mdb1) then slot2 else mdbPrev mdb2).

Definition swap_heap (cap1 : cap_t) (slot1 : Z) (cap2 : cap_t) (slot2 : Z) (mdb1 mdb2 : mdb_node_t)
    (h : gmap Z cte_t) : gmap Z cte_t :=
  swap_heap2 slot1 slot2 mdb1 (mdb2_read slot2 mdb1 mdb2) (swap_heap1 cap1 slot1 cap2 slot2 mdb1 h).

Lemma swap_heap1_slot2 cap1 slot1 cap2 slot2 mdb1 h s2 :
  h !! 0 = None → slot1 ≠ slot2 → h !! slot2 = Some s2 →
  swap_heap1 cap1 slot1 cap2 slot2 mdb1 h !! slot2 = Some (mk_cte cap1 (mdb2_read slot2 mdb1 (cteMDBNode s2))).
Proof.
  intros H0 Hne Hs. unfold swap_heap1, mdb2_read. read_slot. rewrite Hs. cbn [fmap option_fmap option_map].
  rewrite (decide_True (P := slot2 = slot2)), (decide_False (P := slot2 = slot1)) by done.
  destruct s2 as [c2 m2]. repeat case_decide; destruct m2; done.
Qed.

Lemma cteSwap_run k cs cap1 slot1 cap2 slot2 s1 s2 :
  mdb_ok (ctes k) cs → ctes k !! slot1 = Some s1 → ctes k !! slot2 = Some s2 → slot1 ≠ slot2 →
  wp (cteSwap cap1 slot1 cap2 slot2) (λ _ k', k' = k <| ctes :=
    swap_heap cap1 slot1 cap2 slot2 (cteMDBNode s1) (cteMDBNode s2) (ctes k) |>) k.
Proof.
  intros H H1 H2 Hne. unfold cteSwap.
  assert (Hl1 : is_Some (ctes k !! slot1)) by eauto. assert (Hl2 : is_Some (ctes k !! slot2)) by eauto.
  pose proof (mo_ptr _ _ H) as H0.
  assert (Hlive : ∀ p s v, ctes k !! p = Some s →
    v = mdbNext (cteMDBNode s) ∨ v = mdbPrev (cteMDBNode s) → v ≠ 0 → is_Some (ctes k !! v)).
  { intros p s v Hp [->| ->] Hz.
    - destruct (mdb_next _ _ H _ _ Hp Hz) as (? & -> & _). eauto.
    - destruct (mdb_prev _ _ H _ _ Hp Hz) as (? & -> & _). eauto. }
  do 2 (apply wp_bind, wp_cte_alter; [by auto 10 with mdb|]).
  apply wp_bind, (wp_cte_at _ (mk_cte cap2 (cteMDBNode s1))).
  { cbn [ctes update]. read_slot. rewrite H1. cbn [fmap option_fmap option_map].
    rewrite decide_False, decide_True by done. by destruct s1. }
  cbn [cteMDBNode]. 
  apply wp_bind, wp_when_alter; [intros Hz; pose proof (Hlive _ _ _ H1 (or_intror eq_refl) Hz); by auto 10 with mdb|].
  apply wp_bind, wp_when_alter; [intros Hz; pose proof (Hlive _ _ _ H1 (or_introl eq_refl) Hz); by auto 10 with mdb|].
  apply wp_bind. eapply wp_cte_at.
  { apply (swap_heap1_slot2 cap1 slot1 cap2 slot2 (cteMDBNode s1) (ctes k) s2 H0 Hne H2). }
  cbn [cteMDBNode]. set (m2 := mdb2_read slot2 (cteMDBNode s1) (cteMDBNode s2)).
  assert (Hm2 : ∀ v, v = mdbNext m2 ∨ v = mdbPrev m2 → v ≠ 0 → is_Some (ctes k !! v)).
  { intros v Hv Hz. unfold m2, mdb2_read in Hv. cbn in Hv.
    destruct Hv as [->| ->]; case_decide; try done; (eapply Hlive; [exact H2| |done]); auto. }
  do 2 (apply wp_bind, wp_cte_alter; [by auto 20 with mdb|]).
  apply wp_bind, wp_when_alter; [intros Hz; pose proof (Hm2 _ (or_intror eq_refl) Hz); by auto 20 with mdb|].
  apply wp_when_alter; [intros Hz; pose proof (Hm2 _ (or_introl eq_refl) Hz); by auto 20 with mdb|].
  reflexivity.
Qed.

(** Decides an equivalence of two equations, both ways. *)
Ltac split_iff H :=
  let A := fresh in
  lazymatch type of H with ?P ↔ ?Q =>
    destruct (decide P) as [A|A]; [pose proof (proj1 H A)|assert (¬ Q) by (intros B; apply A, H, B)]; clear H
  end.

(** The three kinds of slots after a swap. *)
Section swap.
Context (cap1 : cap_t) (slot1 : Z) (cap2 : cap_t) (slot2 : Z) (m1 m2 : mdb_node_t) (h : gmap Z cte_t).
Context (H0 : h !! 0 = None) (Hne : slot1 ≠ slot2).
Context (N1 : mdbNext m1 ≠ slot1) (P1 : mdbPrev m1 ≠ slot1) (N2 : mdbNext m2 ≠ slot2) (P2 : mdbPrev m2 ≠ slot2).
Context (S21 : mdbNext m2 = slot1 ↔ mdbPrev m1 = slot2) (S12 : mdbNext m1 = slot2 ↔ mdbPrev m2 = slot1).

Let renamed (m : mdb_node_t) : mdb_node_t :=
  mdb_node_new (swapped slot1 slot2 (mdbNext m)) (mdbRevocable m) (mdbFirstBadged m)
    (swapped slot1 slot2 (mdbPrev m)).

Lemma swap_heap_slot1 s : h !! slot1 = Some s →
  swap_heap cap1 slot1 cap2 slot2 m1 m2 h !! slot1 = Some (mk_cte cap2 (renamed m2)).
Proof.
  intros Hs. unfold swap_heap, swap_heap2, swap_heap1. read_slot. rewrite Hs.
  cbn [fmap option_fmap option_map].
  rewrite !(decide_True (P := slot1 = slot1)), !(decide_False (P := slot1 = slot2)) by done.
  unfold renamed, swapped, mdb2_read. destruct s as [cs ms], m1 as [nx1 rv1 fb1 pv1], m2 as [nx2 rv2 fb2 pv2]. cbn [mdbNext mdbPrev] in *. split_iff S21; split_iff S12.
  all: repeat case_decide; try congruence; reflexivity.
Qed.

Lemma swap_heap_slot2 s : h !! slot2 = Some s →
  swap_heap cap1 slot1 cap2 slot2 m1 m2 h !! slot2 = Some (mk_cte cap1 (renamed m1)).
Proof.
  intros Hs. unfold swap_heap, swap_heap2, swap_heap1. read_slot. rewrite Hs.
  cbn [fmap option_fmap option_map].
  rewrite !(decide_True (P := slot2 = slot2)), !(decide_False (P := slot2 = slot1)) by done.
  unfold renamed, swapped, mdb2_read. destruct s as [cs ms], m1 as [nx1 rv1 fb1 pv1], m2 as [nx2 rv2 fb2 pv2]. cbn [mdbNext mdbPrev] in *. split_iff S21; split_iff S12.
  all: repeat case_decide; try congruence; reflexivity.
Qed.

Lemma swap_heap_other u c : h !! u = Some c → u ≠ slot1 → u ≠ slot2 →
  (mdbNext (cteMDBNode c) = slot1 ↔ mdbPrev m1 = u) → (mdbNext (cteMDBNode c) = slot2 ↔ mdbPrev m2 = u) →
  (mdbPrev (cteMDBNode c) = slot1 ↔ mdbNext m1 = u) → (mdbPrev (cteMDBNode c) = slot2 ↔ mdbNext m2 = u) →
  swap_heap cap1 slot1 cap2 slot2 m1 m2 h !! u = Some (mk_cte (cte_cap c) (renamed (cteMDBNode c))).
Proof.
  intros Hc Hu1 Hu2 E1 E2 E3 E4. unfold swap_heap, swap_heap2, swap_heap1. read_slot. rewrite Hc.
  cbn [fmap option_fmap option_map].
  rewrite !(decide_False (P := u = slot1)), !(decide_False (P := u = slot2)) by done.
  unfold renamed, swapped, mdb2_read. destruct c as [c [nx0 rv0 fb0 pv0]], m1 as [nx1 rv1 fb1 pv1], m2 as [nx2 rv2 fb2 pv2].
  cbn [mdbNext mdbPrev cteMDBNode cte_cap mdbRevocable mdbFirstBadged] in *. split_iff S21; split_iff S12; split_iff E1; split_iff E2; split_iff E3; split_iff E4; try congruence.
  all: repeat case_decide; try congruence; reflexivity.
Qed.
End swap.

Lemma swapped_inj a b x y : swapped a b x = swapped a b y → x = y.
Proof. unfold swapped. repeat case_decide; congruence. Qed.

Lemma swapped_invol a b x : swapped a b (swapped a b x) = x.
Proof. unfold swapped. repeat case_decide; congruence. Qed.

(** No slot is its own neighbour. *)
Lemma mdb_irrefl h cs p s : mdb_ok h cs → h !! p = Some s →
  mdbNext (cteMDBNode s) ≠ p ∧ mdbPrev (cteMDBNode s) ≠ p.
Proof.
  intros H Hp. pose proof (mdb_nonzero _ _ H _ _ Hp) as H0. split.
  - intros E. destruct (mdb_next _ _ H _ _ Hp) as (_ & _ & _ & _ & _ & ?); congruence.
  - intros E. destruct (mdb_prev _ _ H _ _ Hp) as (_ & _ & _ & _ & _ & ?); congruence.
Qed.

(** The links of every slot after a swap are the old ones, renamed. *)
Lemma swap_heap_lookup h cs cap1 slot1 cap2 slot2 s1 s2 u c :
  mdb_ok h cs → h !! slot1 = Some s1 → h !! slot2 = Some s2 → slot1 ≠ slot2 → h !! u = Some c →
  swap_heap cap1 slot1 cap2 slot2 (cteMDBNode s1) (cteMDBNode s2) h !! swapped slot1 slot2 u =
    Some (mk_cte (if decide (u = slot1) then cap1 else if decide (u = slot2) then cap2 else cte_cap c)
      (mdb_node_new (swapped slot1 slot2 (mdbNext (cteMDBNode c))) (mdbRevocable (cteMDBNode c))
        (mdbFirstBadged (cteMDBNode c)) (swapped slot1 slot2 (mdbPrev (cteMDBNode c))))).
Proof.
  intros H H1 H2 Hne Hc. pose proof (mo_ptr _ _ H) as H0.
  destruct (mdb_irrefl _ _ _ _ H H1) as [N1 P1]. destruct (mdb_irrefl _ _ _ _ H H2) as [N2 P2].
  pose proof (mdb_sym _ _ H _ _ _ _ H2 H1) as S21. pose proof (mdb_sym _ _ H _ _ _ _ H1 H2) as S12.
  unfold swapped at 1. destruct (decide (u = slot1)) as [->|Hu1].
  { simplify_eq. by rewrite (swap_heap_slot2 _ _ _ _ _ _ h H0 Hne N1 P1 N2 P2 S21 S12 s2 H2). }
  destruct (decide (u = slot2)) as [->|Hu2].
  { simplify_eq. by rewrite (swap_heap_slot1 _ _ _ _ _ _ h H0 Hne N1 P1 N2 P2 S21 S12 s1 H1). }
  apply swap_heap_other; try done.
  - by apply (mdb_sym _ _ H).
  - by apply (mdb_sym _ _ H).
  - split; intros E; by apply (mdb_sym _ _ H _ _ _ _ H1 Hc).
  - split; intros E; by apply (mdb_sym _ _ H _ _ _ _ H2 Hc).
Qed.

Lemma swap_heap_none h cap1 slot1 cap2 slot2 m1 m2 u :
  h !! 0 = None → h !! u = None → swap_heap cap1 slot1 cap2 slot2 m1 m2 h !! u = None.
Proof. intros H0 Hu. unfold swap_heap, swap_heap2, swap_heap1. read_slot. by rewrite Hu. Qed.

Lemma swap_heap_ok h cs cap1 slot1 cap2 slot2 s1 s2 :
  mdb_ok h cs → h !! slot1 = Some s1 → h !! slot2 = Some s2 → slot1 ≠ slot2 →
  is_null cap1 = is_null (cte_cap s1) → is_null cap2 = is_null (cte_cap s2) →
  mdb_ok (swap_heap cap1 slot1 cap2 slot2 (cteMDBNode s1) (cteMDBNode s2) h)
    (rename_slots (swapped slot1 slot2) cs).
Proof.
  intros H H1 H2 Hne Hn1 Hn2. pose proof (mo_ptr _ _ H) as H0.
  pose proof (mdb_nonzero _ _ H _ _ H1) as Hz1. pose proof (mdb_nonzero _ _ H _ _ H2) as Hz2.
  pose proof (λ u c, swap_heap_lookup h cs cap1 slot1 cap2 slot2 s1 s2 u c H H1 H2 Hne) as Hl.
  assert (Hnull : ∀ u c, h !! u = Some c →
    is_null (if decide (u = slot1) then cap1 else if decide (u = slot2) then cap2 else cte_cap c)
    = is_null (cte_cap c)).
  { intros u c Hc. repeat case_decide; subst; simplify_eq; done. }
  assert (Hsw0 : swapped slot1 slot2 0 = 0) by (unfold swapped; by rewrite !decide_False).
  apply (mdb_ok_rename h); try done.
  - apply swap_heap_none; done.
  - intros x y _ _. apply swapped_inj.
  - intros t c Ht Hc. split.
    { pose proof (mdb_nonzero _ _ H _ _ Hc). unfold swapped. by repeat case_decide. }
    eexists. rewrite (Hl t c Hc). split; [done|]. cbn. split_and!; try done.
    rewrite (Hnull t c Hc). by apply (mo_used _ _ H t c Hc).
  - intros p x Hp Hno.
    assert (∃ u, p = swapped slot1 slot2 u) as [u ->] by (eexists; by rewrite swapped_invol).
    destruct (h !! u) as [c|] eqn:Hc.
    2:{ assert (Hin : h !! swapped slot1 slot2 u = None).
        { unfold swapped. repeat case_decide; subst; congruence. }
        rewrite swap_heap_none in Hp; done. }
    rewrite (Hl u c Hc) in Hp. injection Hp as <-. cbn. rewrite (Hnull u c Hc).
    assert (Hcn : is_null (cte_cap c) = true).
    { destruct (is_null (cte_cap c)) eqn:E; [done|]. apply (mo_used _ _ H u c Hc) in E.
      by destruct (Hno u E). }
    split; [done|]. rewrite (mo_free _ _ H u c Hc Hcn). cbn. by rewrite Hsw0.
Qed.

(** C14: [cteMove] moves a capability: the source slot becomes empty, the
    destination, which must have been empty, takes the new capability and the
    place of the source in the derivation list, flags included; every other slot
    keeps its capability and its flags, and nothing outside the slots changes. *)
Theorem cteMove_moves k cs newCap src dest s d :
  mdb_ok (ctes k) cs → ctes k !! src = Some s → ctes k !! dest = Some d →
  is_null (cte_cap s) = false → is_null (cte_cap d) = true → is_null newCap = false →
  wp (cteMove newCap src dest) (λ _ k', ∃ h', k' = k <| ctes := h' |> ∧
    mdb_ok h' (rename_slots (moved src dest) cs) ∧
    h' !! dest = Some (mk_cte newCap (cteMDBNode s)) ∧
    h' !! src = Some (mk_cte cap_null_cap nullMDBNode) ∧
    ∀ u, u ≠ src → u ≠ dest → slot_core <$> h' !! u = slot_core <$> ctes k !! u) k.
Proof.
  intros H Hs Hd Hns Hnd Hnew. eapply wp_mono; [by apply (cteMove_run k cs newCap src dest s d)|].
  intros [] k' ->. eexists. split; [done|]. split; [by eapply move_heap_ok|].
  destruct (mdb_irrefl _ _ _ _ H Hs) as [N P]. pose proof (mo_ptr _ _ H) as H0.
  assert (Hsd : src ≠ dest) by congruence.
  assert (Hd0 : mdbNext (cteMDBNode d) = 0 ∧ mdbPrev (cteMDBNode d) = 0)
    by (by rewrite (mo_free _ _ H _ _ Hd Hnd)).
  pose proof (mdb_nonzero _ _ H _ _ Hs) as Hsz.
  assert (Nd : mdbNext (cteMDBNode s) ≠ dest).
  { intros E. apply (mdb_sym _ _ H _ _ _ _ Hs Hd) in E. destruct Hd0. congruence. }
  assert (Pd : mdbPrev (cteMDBNode s) ≠ dest).
  { intros E. apply (mdb_sym _ _ H _ _ _ _ Hd Hs) in E. destruct Hd0. congruence. }
  pose proof (λ u c Hu, move_heap_lookup newCap src dest _ _ u c H0 Hsd Hu N Nd P Pd) as Hl.
  split; [by rewrite (Hl _ _ Hd), decide_True|]. split.
  { by rewrite (Hl _ _ Hs), decide_False, decide_True. }
  intros u Hus Hud. destruct (ctes k !! u) as [c|] eqn:Hc.
  - rewrite (Hl _ _ Hc), !(decide_False (P := u = _)) by done. repeat case_decide; done.
  - unfold move_heap. read_slot. by rewrite Hc.
Qed.

(** [cteSwap] exchanges two slots: the capabilities given take each other's
    slot and place in the derivation list, also when the slots are neighbours
    in it or when one of them is empty, and every other slot keeps its
    capability and its flags. *)
Theorem cteSwap_swaps k cs cap1 slot1 cap2 slot2 s1 s2 :
  mdb_ok (ctes k) cs → ctes k !! slot1 = Some s1 → ctes k !! slot2 = Some s2 → slot1 ≠ slot2 →
  is_null cap1 = is_null (cte_cap s1) → is_null cap2 = is_null (cte_cap s2) →
  wp (cteSwap cap1 slot1 cap2 slot2) (λ _ k', ∃ h', k' = k <| ctes := h' |> ∧
    mdb_ok h' (rename_slots (swapped slot1 slot2) cs) ∧
    slot_core <$> h' !! slot1 = Some (slot_core (mk_cte cap2 (cteMDBNode s2))) ∧
    slot_core <$> h' !! slot2 = Some (slot_core (mk_cte cap1 (cteMDBNode s1))) ∧
    ∀ u, u ≠ slot1 → u ≠ slot2 → slot_core <$> h' !! u = slot_core <$> ctes k !! u) k.
Proof.
  intros H H1 H2 Hne Hn1 Hn2.
  eapply wp_mono; [by apply (cteSwap_run k cs cap1 slot1 cap2 slot2 s1 s2)|].
  intros [] k' ->. eexists. split; [done|]. split; [by eapply swap_heap_ok|].
  pose proof (λ u c, swap_heap_lookup _ cs cap1 slot1 cap2 slot2 s1 s2 u c H H1 H2 Hne) as Hl.
  assert (E1 : swapped slot1 slot2 slot2 = slot1) by (unfold swapped; by rewrite decide_False, decide_True).
  assert (E2 : swapped slot1 slot2 slot1 = slot2) by (unfold swapped; by rewrite decide_True).
  split; [|split].
  - pose proof (Hl slot2 s2 H2) as E. rewrite E1 in E. rewrite E.
    by rewrite (decide_False (P := slot2 = slot1)), (decide_True (P := slot2 = slot2)).
  - pose proof (Hl slot1 s1 H1) as E. rewrite E2 in E. rewrite E. by rewrite decide_True.
  - intros u Hu1 Hu2. assert (Eu : swapped slot1 slot2 u = u) by (unfold swapped; by rewrite !decide_False).
    destruct (ctes k !! u) as [c|] eqn:Hc.
    + pose proof (Hl u c Hc) as E. rewrite Eu in E. rewrite E. by rewrite !(decide_False (P := u = _)).
    + rewrite swap_heap_none; [done|apply H|done].
Qed.

(** *** [cteInsert] and [insertNewCap] *)

Fixpoint insert_after (s t : Z) (l : list Z) : list Z :=
  match l with
  | [] => []
  | x :: l' => if decide (x = s) then x :: t :: l' else x :: insert_after s t l'
  end.

Lemma insert_after_split s t l1 l2 : s ∉ l1 → insert_after s t (l1 ++ s :: l2) = l1 ++ s :: t :: l2.
Proof.
  intros Hs. induction l1 as [|x l1 IH]; cbn; [by rewrite decide_True|].
  rewrite decide_False by set_solver. f_equal. apply IH. set_solver.
Qed.

Lemma insert_after_notin s t l : s ∉ l → insert_after s t l = l.
Proof.
  intros Hs. induction l as [|x l IH]; cbn; [done|]. rewrite decide_False by set_solver.
  f_equal. apply IH. set_solver.
Qed.

Lemma insert_after_perm s t cs :
  NoDup (concat cs) → s ∈ concat cs → concat (insert_after s t <$> cs) ≡ₚ t :: concat cs.
Proof.
  induction cs as [|l cs IH]; [by intros _ []%elem_of_nil|]. cbn [concat]. rewrite fmap_cons. cbn [concat].
  intros (Hl & Hd & Hcs)%NoDup_app Hs. destruct (decide (s ∈ l)) as [Hin|Hni].
  - assert (Hid : insert_after s t <$> cs = cs).
    { rewrite <- (list_fmap_id cs) at 2. apply list_fmap_ext. intros i x Hx. apply insert_after_notin.
      intros Hsx. apply (Hd s Hin), elem_of_concat. exists x. split; [by eapply list_elem_of_lookup_2|done]. }
    rewrite Hid. apply list_elem_of_split in Hin as (l1 & l2 & ->).
    rewrite insert_after_split; [by rewrite <- !app_assoc; cbn; rewrite <- !Permutation_middle; apply perm_swap|].
    apply NoDup_app in Hl as (_ & Hl & _). intros Hx. apply (Hl s Hx). set_solver.
  - rewrite insert_after_notin by done. rewrite IH; [by rewrite Permutation_middle|done|].
    apply elem_of_app in Hs as [?|?]; done.
Qed.

(** [t] becomes the slot after [s]; only links change elsewhere. *)
Section insert.
Context (h h' : gmap Z cte_t) (cs : list (list Z)) (s t : Z) (src d src' d' : cte_t).
Context (H : mdb_ok h cs) (Hs : h !! s = Some src) (Ht : h !! t = Some d).
Context (Hns : is_null (cte_cap src) = false) (Hnt : is_null (cte_cap d) = true).
Context (Hs' : h' !! s = Some src') (Hps : mdbPrev (cteMDBNode src') = mdbPrev (cteMDBNode src)).
Context (Hxs : mdbNext (cteMDBNode src') = t) (Hns' : is_null (cte_cap src') = false).
Context (Ht' : h' !! t = Some d') (Hpt : mdbPrev (cteMDBNode d') = s).
Context (Hxt : mdbNext (cteMDBNode d') = mdbNext (cteMDBNode src)) (Hnt' : is_null (cte_cap d') = false).
Context (Ho : ∀ u, u ≠ s → u ≠ t → h' !! u =
  (if decide (u = mdbNext (cteMDBNode src)) then set_pv mdb_links t else id) <$> h !! u).

Lemma insert_target_out : t ∉ concat cs.
Proof. intros Hin. apply (mo_used _ _ H t d Ht) in Hin. congruence. Qed.

Lemma insert_links u c : u ≠ s → u ∈ concat cs → h !! u = Some c → ∃ c', h' !! u = Some c' ∧
  nx mdb_links c' = nx mdb_links c ∧
  pv mdb_links c' = if decide (pv mdb_links c = s) then t else pv mdb_links c.
Proof.
  intros Hus Hu Hc. pose proof insert_target_out as Htni. assert (Hut : u ≠ t) by congruence.
  rewrite (Ho u Hus Hut), Hc. eexists. split; [done|]. pose proof (mdb_sym _ _ H _ _ _ _ Hs Hc) as E.
  change (pv mdb_links c) with (mdbPrev (cteMDBNode c)).
  destruct (decide (u = mdbNext (cteMDBNode src))) as [Eu|Eu].
  - rewrite decide_True by (apply E; congruence). done.
  - rewrite decide_False by (rewrite <- E; congruence). done.
Qed.

Lemma insert_chain l : l ∈ cs → dseg mdb_links h' 0 (insert_after s t l) 0.
Proof.
  intros Hl. pose proof (mo_chain _ _ H l Hl) as Hd.
  pose proof (chain_nodup _ _ (mo_nodup _ _ H) Hl) as Hnd.
  pose proof (mdb_nonzero _ _ H _ _ Hs) as Hs0. pose proof (mdb_nonzero _ _ H _ _ Ht) as Ht0.
  assert (Hsub : ∀ u, u ∈ l → u ∈ concat cs) by (intros u Hu; apply elem_of_concat; eauto).
  destruct (decide (s ∈ l)) as [Hin|Hni].
  - apply list_elem_of_split in Hin as (l1 & l2 & ->). apply NoDup_app in Hnd as (N1 & N2 & N3).
    apply NoDup_cons in N3 as [N3 N4].
    assert (Hs1 : s ∉ l1) by (intros Hx; apply (N2 s Hx); set_solver).
    rewrite insert_after_split by done. pose proof Hd as Hd'.
    apply dseg_app in Hd' as [D1 (_ & (c & Hc & Hpc & Hnc) & D2)]. assert (c = src) as -> by congruence.
    apply (dseg_insert mdb_links h); [done|done| | | |].
    + intros u Hu. destruct (dseg_lookup _ _ _ _ _ u D1 Hu) as [_ [x Hx]].
      destruct (insert_links u x) as (x' & Hx' & En & Ep); [congruence|apply Hsub; set_solver|done|].
      rewrite Hx, Hx'. cbn [fmap option_fmap option_map]. rewrite En, Ep, decide_False; [done|].
      destruct (dseg_prev mdb_links h 0 l1 s u x N1 D1 Hu Hx) as [[-> _]|[Hin _]]; [done|].
      intros E. by rewrite E in Hin.
    + exists src'. split; [done|]. split; [|done]. by rewrite <- Hpc.
    + exists d'. split; [done|]. split; [done|]. by rewrite <- Hnc.
    + apply (dseg_restart mdb_links h h' s); [done|done|done|]. intros u x Hu Hx.
      apply insert_links; [congruence|apply Hsub; set_solver|done].
  - rewrite insert_after_notin by done. eapply dseg_frame; [|exact Hd]. intros u Hu.
    destruct (dseg_lookup _ _ _ _ _ u Hd Hu) as [_ [x Hx]].
    destruct (insert_links u x) as (x' & Hx' & En & Ep); [congruence|by apply Hsub|done|].
    rewrite Hx, Hx'. cbn [fmap option_fmap option_map]. rewrite En, Ep, decide_False; [done|].
    destruct (dseg_prev mdb_links h 0 l 0 u x Hnd Hd Hu Hx) as [[-> _]|[Hin _]]; [done|]. congruence.
Qed.

Lemma mdb_ok_insert : h' !! 0 = None → mdb_ok h' (insert_after s t <$> cs).
Proof.
  intros H0. assert (Hsin : s ∈ concat cs) by (by apply (mo_used _ _ H s src Hs)).
  pose proof (insert_after_perm s t cs (mo_nodup _ _ H) Hsin) as Hperm.
  split; [| | | |done].
  - intros l' (l & -> & Hl)%list_elem_of_fmap. by apply insert_chain.
  - rewrite Hperm. apply NoDup_cons. split; [apply insert_target_out|apply H].
  - intros p x Hp. rewrite Hperm, elem_of_cons. destruct (decide (p = t)) as [->|Hpt'].
    { assert (x = d') as -> by congruence. rewrite Hnt'. tauto. }
    destruct (decide (p = s)) as [->|Hps']; [assert (x = src') as -> by congruence; rewrite Hns'; tauto|].
    rewrite (Ho p Hps' Hpt') in Hp. destruct (h !! p) as [c|] eqn:Hc; [|done]. injection Hp as <-.
    pose proof (mo_used _ _ H p c Hc). case_decide; cbn; tauto.
  - intros p x Hp Hn. destruct (decide (p = t)) as [->|Hpt']; [congruence|].
    destruct (decide (p = s)) as [->|Hps']; [congruence|].
    rewrite (Ho p Hps' Hpt') in Hp. destruct (h !! p) as [c|] eqn:Hc; [|done]. injection Hp as <-.
    pose proof (mdb_sym _ _ H _ _ _ _ Hs Hc) as E.
    destruct (decide (p = mdbNext (cteMDBNode src))) as [Ep|Ep]; [|by apply (mo_free _ _ H p c Hc)].
    symmetry in Ep. apply E in Ep. cbn in Hn. rewrite (mo_free _ _ H p c Hc Hn) in Ep.
    by destruct (mdb_nonzero _ _ H _ _ Hs).
Qed.
End insert.

(** The source after the insertion of a child of an untyped capability. *)
Definition full_source (srcCap newCap : cap_t) : cap_t :=
  match srcCap, newCap with
  | cap_untyped_cap _ dev size ptr, cap_untyped_cap _ _ size' ptr' =>
    if (ptr =? ptr') && (size' =? size)
    then cap_untyped_cap (MAX_FREE_INDEX size mod 2 ^ 26) dev size ptr else srcCap
  | _, _ => srcCap
  end.

Lemma full_source_null srcCap newCap : is_null (full_source srcCap newCap) = is_null srcCap.
Proof. unfold full_source. by repeat case_match. Qed.

Lemma setUntypedCapAsFull_run k newCap srcSlot s :
  ctes k !! srcSlot = Some s →
  wp (setUntypedCapAsFull (cte_cap s) newCap srcSlot) (λ _ k', k' = k <| ctes ::=
    alter (λ x, x <| cte_cap := full_source (cte_cap s) newCap |>) srcSlot |>) k.
Proof.
  intros Hs. assert (Hid : full_source (cte_cap s) newCap = cte_cap s →
    k = k <| ctes ::= alter (λ x, x <| cte_cap := full_source (cte_cap s) newCap |>) srcSlot |>).
  { intros E. unfold update. rewrite E.
    assert (Ea : alter (λ x, mk_cte (cte_cap s) (cteMDBNode x)) srcSlot (ctes k) = ctes k).
    { apply map_eq. intros j. rewrite lookup_alter_if. destruct (decide (j = srcSlot)) as [->|].
      - rewrite Hs. by destruct s.
      - by destruct (ctes k !! j). }
    rewrite Ea. by destruct k. }
  unfold setUntypedCapAsFull. unfold full_source in *.
  destruct (cte_cap s) eqn:Ec; try (by apply wp_ret, Hid).
  destruct newCap; try (by apply wp_ret, Hid).
  destruct (_ && _); [|by apply wp_ret, Hid].
  apply wp_bind, (wp_cte_at _ s); [done|]. rewrite Ec. apply wp_bind. unfold lift, wp at 1. cbn.
  apply wp_cte_alter; [by rewrite Hs|]. done.
Qed.

Definition insert_heap (newCap : cap_t) (src dest : Z) (s : cte_t) (rev : bool) (h : gmap Z cte_t) : gmap Z cte_t :=
  let newMDB := cteMDBNode s <| mdbPrev := src |> <| mdbRevocable := rev |> <| mdbFirstBadged := rev |> in
  alter_nz (set_pv mdb_links dest) (mdbNext newMDB)
  (alter (set_nx mdb_links dest) src
  (alter (λ x, x <| cteMDBNode := newMDB |>) dest
  (alter (λ x, x <| cte_cap := newCap |>) dest
  (alter (λ x, x <| cte_cap := full_source (cte_cap s) newCap |>) src h)))).

Lemma cteInsert_run k cs newCap src dest s d rev :
  mdb_ok (ctes k) cs → ctes k !! src = Some s → ctes k !! dest = Some d → is_null (cte_cap d) = true →
  newCapIsRevocable newCap (cte_cap s) = Done rev →
  wp (cteInsert newCap src dest) (λ _ k', k' = k <| ctes := insert_heap newCap src dest s rev (ctes k) |>) k.
Proof.
  intros H Hs Hd Hn Hrev. unfold cteInsert. apply wp_bind, (wp_cte_at _ s); [done|].
  apply wp_bind. unfold lift, wp at 1. rewrite Hrev.
  apply wp_bind, (wp_assert_empty _ d); try done; [by apply (mo_free _ _ H dest d)|].
  apply wp_bind. eapply wp_mono; [by apply setUntypedCapAsFull_run|]. intros [] k1 ->.
  assert (Hls : is_Some (ctes k !! src)) by eauto. assert (Hld : is_Some (ctes k !! dest)) by eauto.
  do 3 (apply wp_bind, wp_cte_alter; [by auto 10 with mdb|]).
  apply wp_when_alter; [|reflexivity].
  intros Hz. destruct (mdb_next _ _ H src s Hs Hz) as (n & Hn' & _).
  assert (is_Some (ctes k !! mdbNext (cteMDBNode s))) by eauto. by auto 10 with mdb.
Qed.

Lemma cteInsert_spec k cs newCap src dest s d rev :
  mdb_ok (ctes k) cs → ctes k !! src = Some s → ctes k !! dest = Some d →
  is_null (cte_cap s) = false → is_null (cte_cap d) = true → is_null newCap = false →
  newCapIsRevocable newCap (cte_cap s) = Done rev →
  wp (cteInsert newCap src dest) (λ _ k', ∃ h', k' = k <| ctes := h' |> ∧
    mdb_ok h' (insert_after src dest <$> cs) ∧
    slot_core <$> h' !! dest = Some (mk_cte newCap (mdb_node_new 0 rev rev 0)) ∧
    slot_core <$> h' !! src = Some (slot_core (s <| cte_cap := full_source (cte_cap s) newCap |>)) ∧
    ∀ u, u ≠ src → u ≠ dest → slot_core <$> h' !! u = slot_core <$> ctes k !! u) k.
Proof.
  intros H Hs Hd Hns Hnd Hnew Hrev. pose proof (mo_ptr _ _ H) as H0.
  eapply wp_mono; [by apply (cteInsert_run k cs newCap src dest s d rev)|].
  intros [] k' ->. eexists. split; [done|]. set (h' := insert_heap _ _ _ _ _ _).
  assert (Hsd : src ≠ dest) by congruence. destruct (mdb_irrefl _ _ _ _ H Hs) as [N _].
  assert (Nd : dest ≠ mdbNext (cteMDBNode s)).
  { intros E. symmetry in E. apply (mdb_sym _ _ H _ _ _ _ Hs Hd) in E.
    rewrite (mo_free _ _ H _ _ Hd Hnd) in E. by destruct (mdb_nonzero _ _ H _ _ Hs). }
  assert (Es : h' !! src = Some (s <| cte_cap := full_source (cte_cap s) newCap |>
                                   <| cteMDBNode ::= λ m, m <| mdbNext := dest |> |>)).
  { unfold h', insert_heap. read_slot. rewrite Hs. cbn [fmap option_fmap option_map].
    rewrite !(decide_False (P := src = dest)), (decide_False (P := src = _)), !decide_True by (done || congruence).
    reflexivity. }
  assert (Ed : h' !! dest = Some (mk_cte newCap (mdb_node_new (mdbNext (cteMDBNode s)) rev rev src))).
  { unfold h', insert_heap. read_slot. rewrite Hd. cbn [fmap option_fmap option_map].
    rewrite !(decide_False (P := dest = src)), (decide_False (P := dest = mdbNext _)), !decide_True by done.
    reflexivity. }
  assert (Eo : ∀ u, u ≠ src → u ≠ dest → h' !! u =
    (if decide (u = mdbNext (cteMDBNode s)) then set_pv mdb_links dest else id) <$> ctes k !! u).
  { intros u Hu1 Hu2. unfold h', insert_heap. read_slot. rewrite !(decide_False (P := u = dest)),
      !(decide_False (P := u = src)) by done. by destruct (ctes k !! u). }
  split; [|split; [by rewrite Ed|split; [by rewrite Es|]]].
  - eapply (mdb_ok_insert (ctes k) h' cs src dest s d _ _ H Hs Hd Hns Hnd Es); try done.
    + cbn. by rewrite full_source_null.
    + unfold h', insert_heap. auto 20 with mdb.
  - intros u Hu1 Hu2. rewrite (Eo u Hu1 Hu2). destruct (ctes k !! u); [|done]. by case_decide.
Qed.

(** [cteInsert] puts the new capability into the empty destination and
    behind its source in the derivation list, marked revocable and first-badged
    exactly as the kind of copy asks for; the source, when an untyped capability
    gets a child of its own size, is marked full; every other slot keeps its
    capability and flags, and nothing outside the slots changes. *)
Theorem cteInsert_inserts k cs newCap src dest s d rev :
  mdb_ok (ctes k) cs → ctes k !! src = Some s → ctes k !! dest = Some d →
  is_null (cte_cap s) = false → is_null (cte_cap d) = true → is_null newCap = false →
  newCapIsRevocable newCap (cte_cap s) = Done rev →
  wp (cteInsert newCap src dest) (λ _ k', ∃ h', k' = k <| ctes := h' |> ∧
    mdb_ok h' (insert_after src dest <$> cs) ∧
    slot_core <$> h' !! dest = Some (mk_cte newCap (mdb_node_new 0 rev rev 0)) ∧
    slot_core <$> h' !! src = Some (slot_core (s <| cte_cap := full_source (cte_cap s) newCap |>)) ∧
    ∀ u, u ≠ src → u ≠ dest → slot_core <$> h' !! u = slot_core <$> ctes k !! u) k.
Proof. exact (cteInsert_spec k cs newCap src dest s d rev). Qed.

(** [insertNewCap], which retyping uses, does the same for a fresh object. *)
Lemma insertNewCap_inserts k cs parent slot c p d :
  mdb_ok (ctes k) cs → ctes k !! parent = Some p → ctes k !! slot = Some d →
  is_null (cte_cap p) = false → is_null (cte_cap d) = true → is_null c = false →
  wp (insertNewCap parent slot c) (λ _ k', ∃ h', k' = k <| ctes := h' |> ∧
    mdb_ok h' (insert_after parent slot <$> cs) ∧
    slot_core <$> h' !! slot = Some (mk_cte c (mdb_node_new 0 true true 0)) ∧
    ∀ u, u ≠ slot → slot_core <$> h' !! u = slot_core <$> ctes k !! u) k.
Proof.
  intros H Hp Hd Hnp Hnd Hnew. pose proof (mo_ptr _ _ H) as H0. unfold insertNewCap.
  assert (Hsd : parent ≠ slot) by congruence. destruct (mdb_irrefl _ _ _ _ H Hp) as [N _].
  assert (Nd : slot ≠ mdbNext (cteMDBNode p)).
  { intros E. symmetry in E. apply (mdb_sym _ _ H _ _ _ _ Hp Hd) in E.
    rewrite (mo_free _ _ H _ _ Hd Hnd) in E. by destruct (mdb_nonzero _ _ H _ _ Hp). }
  assert (Hlp : is_Some (ctes k !! parent)) by eauto. assert (Hld : is_Some (ctes k !! slot)) by eauto.
  apply wp_bind, (wp_cte_at _ p); [done|]. do 2 (apply wp_bind, wp_cte_alter; [by auto 10 with mdb|]).
  apply wp_bind, wp_when_alter.
  { intros Hz. destruct (mdb_next _ _ H parent p Hp Hz) as (n & Hn' & _).
    assert (is_Some (ctes k !! mdbNext (cteMDBNode p))) by eauto. by auto 10 with mdb. }
  apply wp_cte_alter; [by auto 10 with mdb|].
  set (h' := alter (set_nx mdb_links slot) parent
    (alter_nz (set_pv mdb_links slot) (mdbNext (cteMDBNode p))
    (alter (λ x, x <| cteMDBNode := mdb_node_new (mdbNext (cteMDBNode p)) true true parent |>) slot
    (alter (λ x, x <| cte_cap := c |>) slot (ctes k))))).
  exists h'. split; [reflexivity|].
  assert (Es : h' !! parent = Some (p <| cteMDBNode ::= λ m, m <| mdbNext := slot |> |>)).
  { unfold h'. read_slot. rewrite Hp. cbn [fmap option_fmap option_map].
    rewrite !(decide_False (P := parent = slot)), (decide_False (P := parent = mdbNext _)), !decide_True
      by (done || congruence). reflexivity. }
  assert (Ed : h' !! slot = Some (mk_cte c (mdb_node_new (mdbNext (cteMDBNode p)) true true parent))).
  { unfold h'. read_slot. rewrite Hd. cbn [fmap option_fmap option_map].
    rewrite !(decide_False (P := slot = parent)), (decide_False (P := slot = mdbNext _)), !decide_True by done.
    reflexivity. }
  assert (Eo : ∀ u, u ≠ parent → u ≠ slot → h' !! u =
    (if decide (u = mdbNext (cteMDBNode p)) then set_pv mdb_links slot else id) <$> ctes k !! u).
  { intros u Hu1 Hu2. unfold h'. read_slot. rewrite !(decide_False (P := u = slot)),
      !(decide_False (P := u = parent)) by done. by destruct (ctes k !! u). }
  split; [|split; [by rewrite Ed|]].
  - eapply (mdb_ok_insert (ctes k) h' cs parent slot p d _ _ H Hp Hd Hnp Hnd Es); try done.
    unfold h'. auto 20 with mdb.
  - intros u Hu. destruct (decide (u = parent)) as [->|Hu']; [by rewrite Es, Hp|].
    rewrite (Eo u Hu' Hu). destruct (ctes k !! u); [|done]. by case_decide.
Qed.

(** *** [emptySlot] *)

Definition remove_slot (t : Z) (cs : list (list Z)) : list (list Z) := (λ l : list Z, filter (.≠ t) l) <$> cs.

Lemma concat_remove t cs : concat (remove_slot t cs) = filter (.≠ t) (concat cs).
Proof.
  unfold remove_slot. induction cs as [|l cs IH]; [done|]. rewrite fmap_cons. cbn [concat].
  by rewrite filter_app, <- IH.
Qed.

(** The slots after [emptySlot]. *)
Definition empty_heap (slot : Z) (m : mdb_node_t) (h : gmap Z cte_t) : gmap Z cte_t :=
  alter (λ x, x <| cteMDBNode := nullMDBNode |>) slot
  (alter (λ x, x <| cte_cap := cap_null_cap |>) slot
  (alter_nz (λ n, n <| cteMDBNode ::= λ x, x <| mdbFirstBadged := mdbFirstBadged x || mdbFirstBadged m |> |>)
     (mdbNext m)
  (alter_nz (set_pv mdb_links (mdbPrev m)) (mdbNext m)
  (alter_nz (set_nx mdb_links (mdbNext m)) (mdbPrev m) h)))).

Section remove.
Context (h : gmap Z cte_t) (cs : list (list Z)) (t : Z) (s : cte_t).
Context (H : mdb_ok h cs) (Ht : h !! t = Some s) (Hns : is_null (cte_cap s) = false).
Let m := cteMDBNode s.
Let h' := empty_heap t m h.

Lemma empty_heap_slot : h' !! t = Some (mk_cte cap_null_cap nullMDBNode).
Proof.
  unfold h', empty_heap. pose proof (mo_ptr _ _ H) as H0. read_slot. rewrite Ht. cbn [fmap option_fmap option_map].
  rewrite !(decide_True (P := t = t)) by done. done.
Qed.

Lemma empty_heap_other u c : u ≠ t → h !! u = Some c →
  h' !! u = Some (mk_cte (cte_cap c)
    (mdb_node_new (if decide (mdbNext (cteMDBNode c) = t) then mdbNext m else mdbNext (cteMDBNode c))
      (mdbRevocable (cteMDBNode c))
      (if decide (u = mdbNext m) then mdbFirstBadged (cteMDBNode c) || mdbFirstBadged m
       else mdbFirstBadged (cteMDBNode c))
      (if decide (mdbPrev (cteMDBNode c) = t) then mdbPrev m else mdbPrev (cteMDBNode c)))).
Proof.
  intros Hu Hc. unfold h', empty_heap. pose proof (mo_ptr _ _ H) as H0. read_slot. rewrite Hc.
  cbn [fmap option_fmap option_map]. rewrite !(decide_False (P := u = t)) by done.
  pose proof (mdb_sym _ _ H _ _ _ _ Hc Ht) as E1. pose proof (mdb_sym _ _ H _ _ _ _ Ht Hc) as E2. fold m in E1, E2.
  destruct c as [c [nx0 rv0 fb0 pv0]]. cbn [cte_cap cteMDBNode mdbNext mdbPrev mdbRevocable mdbFirstBadged] in *.
  split_iff E1; split_iff E2; repeat case_decide; try congruence; reflexivity.
Qed.

Lemma remove_chain l : l ∈ cs → dseg mdb_links h' 0 (filter (.≠ t) l) 0.
Proof.
  intros Hl. pose proof (mo_chain _ _ H l Hl) as Hd.
  pose proof (chain_nodup _ _ (mo_nodup _ _ H) Hl) as Hnd. pose proof (mdb_nonzero _ _ H _ _ Ht) as Ht0.
  destruct (decide (t ∈ l)) as [Hin|Hni].
  - apply list_elem_of_split in Hin as (l1 & l2 & ->). pose proof (filter_ne_app l1 l2 t Hnd) as Hfl.
    apply NoDup_app in Hnd as (N1 & N2 & [N3 N4]%NoDup_cons).
    assert (Ht1 : t ∉ l1) by (intros Hx; apply (N2 t Hx); set_solver).
    rewrite Hfl. apply dseg_app in Hd as [D1 (_ & (c & Hc & Hpc & Hnc) & D2)].
    assert (c = s) as -> by congruence. cbn [first_or] in D1.
    change (mdbPrev m = last_or 0 l1) in Hpc. change (mdbNext m = first_or 0 l2) in Hnc.
    apply dseg_app. split.
    + rewrite <- Hnc. apply (dseg_retarget mdb_links h h' 0 l1 t); [done|done|]. intros u x Hu Hx.
      rewrite (empty_heap_other u x) by (done || congruence). eexists. split; [done|]. split; [|done]. cbn.
      rewrite decide_False; [done|].
      destruct (dseg_prev mdb_links h 0 l1 t u x N1 D1 Hu Hx) as [[E _]|[Hin _]]; cbn in *; congruence.
    + rewrite <- Hpc. apply (dseg_restart mdb_links h h' t); [done|done|done|]. intros u x Hu Hx.
      rewrite (empty_heap_other u x) by (done || congruence). eexists. split; [done|]. split; [|done]. cbn.
      rewrite decide_False; [done|].
      destruct (dseg_next mdb_links h t l2 0 u x N4 D2 Hu Hx) as [[E _]|[Hin _]]; cbn in *; congruence.
  - rewrite filter_ne_id by done. eapply dseg_frame; [|exact Hd]. intros u Hu.
    destruct (dseg_lookup _ _ _ _ _ u Hd Hu) as [_ [x Hx]].
    rewrite (empty_heap_other u x), Hx by (done || congruence). cbn.
    rewrite !decide_False; [done| |].
    + destruct (dseg_prev mdb_links h 0 l 0 u x Hnd Hd Hu Hx) as [[E _]|[Hin _]]; cbn in *; congruence.
    + destruct (dseg_next mdb_links h 0 l 0 u x Hnd Hd Hu Hx) as [[E _]|[Hin _]]; cbn in *; congruence.
Qed.

Lemma mdb_ok_remove : mdb_ok h' (remove_slot t cs).
Proof.
  pose proof (mo_ptr _ _ H) as H0.
  assert (Hback : ∀ u x, u ≠ t → h' !! u = Some x → ∃ c, h !! u = Some c ∧ cte_cap x = cte_cap c).
  { intros u x Hu Hx. destruct (h !! u) as [c|] eqn:Hc.
    - rewrite (empty_heap_other u c Hu Hc) in Hx. injection Hx as <-. by exists c.
    - unfold h', empty_heap in Hx. revert Hx. read_slot. by rewrite Hc. }
  split.
  - intros l' (l & -> & Hl)%list_elem_of_fmap. by apply remove_chain.
  - rewrite concat_remove. apply NoDup_filter, H.
  - intros p x Hp. rewrite concat_remove, list_elem_of_filter. destruct (decide (p = t)) as [->|Hne].
    + rewrite empty_heap_slot in Hp. injection Hp as <-. cbn. naive_solver.
    + destruct (Hback p x Hne Hp) as (c & Hc & ->). rewrite <- (mo_used _ _ H p c Hc). tauto.
  - intros p x Hp Hn. destruct (decide (p = t)) as [->|Hne].
    { rewrite empty_heap_slot in Hp. by injection Hp as <-. }
    destruct (Hback p x Hne Hp) as (c & Hc & E). rewrite E in Hn.
    pose proof (mo_free _ _ H p c Hc Hn) as Hm. rewrite (empty_heap_other p c Hne Hc) in Hp. injection Hp as <-.
    cbn. pose proof (mdb_nonzero _ _ H _ _ Ht) as Ht0.
    pose proof (mdb_sym _ _ H _ _ _ _ Ht Hc) as E2. fold m in E2. rewrite Hm in E2 |- *. cbn in *.
    rewrite !(decide_False (P := 0 = t)) by done. rewrite decide_False by (intros E'; naive_solver). done.
  - unfold h', empty_heap. auto 20 with mdb.
Qed.
End remove.

Lemma emptySlot_run k cs slot s irq :
  mdb_ok (ctes k) cs → ctes k !! slot = Some s → is_null (cte_cap s) = false →
  wp (emptySlot slot irq) (λ _ k',
    let k1 := k <| ctes := empty_heap slot (cteMDBNode s) (ctes k) |> in
    k' = if irq =? irqInvalid then k1
         else k1 <| intStateIRQTable ::= <[irq := IRQInactive]> |> <| irq_masks ::= cons (true, irq) |>) k.
Proof.
  intros H Hs Hn. unfold emptySlot. apply wp_bind, (wp_cte_at _ s); [done|]. rewrite Hn. cbn [negb].
  assert (Hls : is_Some (ctes k !! slot)) by eauto.
  assert (HlN : mdbNext (cteMDBNode s) ≠ 0 → is_Some (ctes k !! mdbNext (cteMDBNode s))).
  { intros Hz. destruct (mdb_next _ _ H slot s Hs Hz) as (n & -> & _). eauto. }
  assert (HlP : mdbPrev (cteMDBNode s) ≠ 0 → is_Some (ctes k !! mdbPrev (cteMDBNode s))).
  { intros Hz. destruct (mdb_prev _ _ H slot s Hs Hz) as (n & -> & _). eauto. }
  apply wp_bind, wp_when_alter; [by auto 10 with mdb|].
  do 2 (apply wp_bind, wp_when_alter; [by auto 10 with mdb|]).
  do 2 (apply wp_bind, wp_cte_alter; [by auto 10 with mdb|]).
  destruct (irq =? irqInvalid); reflexivity.
Qed.

Lemma emptySlot_spec k cs slot s irq :
  mdb_ok (ctes k) cs → ctes k !! slot = Some s →
  wp (emptySlot slot irq) (λ _ k',
    if is_null (cte_cap s) then k' = k
    else mdb_ok (ctes k') (remove_slot slot cs) ∧
      ctes k' !! slot = Some (mk_cte cap_null_cap nullMDBNode) ∧
      (∀ u, u ≠ slot → u ≠ mdbNext (cteMDBNode s) → slot_core <$> ctes k' !! u = slot_core <$> ctes k !! u) ∧
      (∀ n, ctes k !! mdbNext (cteMDBNode s) = Some n →
        slot_core <$> ctes k' !! mdbNext (cteMDBNode s) =
          Some (mk_cte (cte_cap n) (mdb_node_new 0 (mdbRevocable (cteMDBNode n))
            (mdbFirstBadged (cteMDBNode n) || mdbFirstBadged (cteMDBNode s)) 0))) ∧
      (irq ≠ irqInvalid → intStateIRQTable k' !! irq = Some IRQInactive ∧ head (irq_masks k') = Some (true, irq)) ∧
      tcbs k' = tcbs k ∧ ntfns k' = ntfns k ∧ eps k' = eps k) k.
Proof.
  intros H Hs. destruct (is_null (cte_cap s)) eqn:Hn.
  { unfold emptySlot. apply wp_bind, (wp_cte_at _ s); [done|]. by rewrite Hn. }
  eapply wp_mono; [by apply (emptySlot_run k cs slot s irq)|]. intros [] k' ->.
  set (h' := empty_heap slot (cteMDBNode s) (ctes k)).
  pose proof (mdb_ok_remove _ _ _ _ H Hs Hn) as Hok. fold h' in Hok.
  pose proof (empty_heap_slot _ _ _ _ H Hs) as Hsl. fold h' in Hsl.
  assert (Eh : ∀ k1, ctes (if irq =? irqInvalid then k1
    else k1 <| intStateIRQTable ::= <[irq := IRQInactive]> |> <| irq_masks ::= cons (true, irq) |>) = ctes k1)
    by (intros k1; by destruct (irq =? irqInvalid)).
  rewrite Eh. cbn [ctes update]. split; [exact Hok|]. split; [exact Hsl|]. split; [|split; [|split]].
  - intros u Hu1 Hu2. destruct (ctes k !! u) as [c|] eqn:Hc.
    + unfold h'. rewrite (empty_heap_other _ _ _ _ H Hs u c Hu1 Hc). cbn. by rewrite (decide_False (P := u = _)).
    + unfold h', empty_heap. pose proof (mo_ptr _ _ H). cbn. read_slot. by rewrite Hc.
  - intros n Hnx. destruct (mdb_irrefl _ _ _ _ H Hs) as [N _].
    unfold h'. rewrite (empty_heap_other _ _ _ _ H Hs _ n N Hnx).
    rewrite (decide_True (P := mdbNext (cteMDBNode s) = mdbNext (cteMDBNode s))) by done. reflexivity.
  - intros Hi. destruct (Z.eqb_spec irq irqInvalid); [done|]. cbn. split; [apply lookup_insert_eq|done].
  - destruct (irq =? irqInvalid); by split_and!.
Qed.

(** [emptySlot] takes a capability out: the slot becomes empty and leaves
    the derivation list, its neighbours are linked to each other, the slot after
    it inherits the first-badged mark, no other capability or flag changes, and
    the interrupt of a deleted handler becomes inactive and masked.  On an empty
    slot it does nothing. *)
Theorem emptySlot_removes k cs slot s irq :
  mdb_ok (ctes k) cs → ctes k !! slot = Some s →
  wp (emptySlot slot irq) (λ _ k',
    if is_null (cte_cap s) then k' = k
    else mdb_ok (ctes k') (remove_slot slot cs) ∧
      ctes k' !! slot = Some (mk_cte cap_null_cap nullMDBNode) ∧
      (∀ u, u ≠ slot → u ≠ mdbNext (cteMDBNode s) → slot_core <$> ctes k' !! u = slot_core <$> ctes k !! u) ∧
      (∀ n, ctes k !! mdbNext (cteMDBNode s) = Some n →
        slot_core <$> ctes k' !! mdbNext (cteMDBNode s) =
          Some (mk_cte (cte_cap n) (mdb_node_new 0 (mdbRevocable (cteMDBNode n))
            (mdbFirstBadged (cteMDBNode n) || mdbFirstBadged (cteMDBNode s)) 0))) ∧
      (irq ≠ irqInvalid → intStateIRQTable k' !! irq = Some IRQInactive ∧ head (irq_masks k') = Some (true, irq)) ∧
      tcbs k' = tcbs k ∧ ntfns k' = ntfns k ∧ eps k' = eps k) k.
Proof. exact (emptySlot_spec k cs slot s irq). Qed.

(** *** Final capabilities *)

Definition same_object (h : gmap Z cte_t) (p q : Z) : Prop :=
  ∃ sp sq, h !! p = Some sp ∧ h !! q = Some sq ∧ sameObjectAs (cte_cap sp) (cte_cap sq) = Done true.

(** Capabilities to one object are together in one chain. *)
Definition objects_adjacent (h : gmap Z cte_t) (cs : list (list Z)) : Prop :=
  ∀ p q, p ≠ q → same_object h p q → ∃ l1 l2 l3,
    (l1 ++ p :: l2 ++ q :: l3 ∈ cs ∨ l1 ++ q :: l2 ++ p :: l3 ∈ cs) ∧ ∀ r, r ∈ l2 → same_object h p r.

Lemma same_object_sym h p q : same_object h p q → same_object h q p.
Proof.
  intros (sp & sq & Hp & Hq & E). exists sq, sp. split_and!; try done.
  by rewrite sameObjectAs_sym.
Qed.

(** What [isFinalCapability] looks at: the two neighbours. *)
Lemma isFinalCapability_spec k cs slot s :
  mdb_ok (ctes k) cs → ctes k !! slot = Some s →
  wp (isFinalCapability slot) (λ r k', k' = k ∧
    (r = true ↔ ¬ (mdbPrev (cteMDBNode s) ≠ 0 ∧ same_object (ctes k) slot (mdbPrev (cteMDBNode s))) ∧
                ¬ (mdbNext (cteMDBNode s) ≠ 0 ∧ same_object (ctes k) slot (mdbNext (cteMDBNode s))))) k.
Proof.
  intros H Hs. unfold isFinalCapability. apply wp_bind, (wp_cte_at _ s); [done|].
  assert (Hsame : ∀ q c r, ctes k !! q = Some c → sameObjectAs (cte_cap s) (cte_cap c) = Done r →
    (r = true ↔ same_object (ctes k) slot q)).
  { intros q c r Hq E. split.
    - intros ->. by exists s, c.
    - intros (sp & sq & Hp & Hq' & E'). simplify_eq. congruence. }
  assert (Hnext : ∀ b, (b = true ↔ mdbPrev (cteMDBNode s) ≠ 0 ∧ same_object (ctes k) slot (mdbPrev (cteMDBNode s))) →
    wp (if b : bool then mret false
        else if mdbNext (cteMDBNode s) =? 0 then mret true
        else n ← cte_at (mdbNext (cteMDBNode s)); same ← lift (sameObjectAs (cte_cap s) (cte_cap n));
             mret (negb same))
      (λ r k', k' = k ∧ (r = true ↔ ¬ (mdbPrev (cteMDBNode s) ≠ 0 ∧ same_object (ctes k) slot (mdbPrev (cteMDBNode s))) ∧
        ¬ (mdbNext (cteMDBNode s) ≠ 0 ∧ same_object (ctes k) slot (mdbNext (cteMDBNode s))))) k).
  { intros b Hb. destruct b; [apply wp_ret; split; [done|]; rewrite <- Hb; split; [done|by intros [? _]]|].
    destruct (Z.eqb_spec (mdbNext (cteMDBNode s)) 0) as [E|E].
    - apply wp_ret. split; [done|]. rewrite E, <- Hb. split; [|done]. intros _. by split; [|intros [? _]].
    - destruct (mdb_next _ _ H _ _ Hs E) as (n & Hn & _). apply wp_bind, (wp_cte_at _ n); [done|].
      destruct (sameObjectAs_total (cte_cap s) (cte_cap n)) as [r Hr]. apply wp_bind. unfold lift, wp at 1.
      rewrite Hr. apply wp_ret. split; [done|]. rewrite <- (Hsame _ n r Hn Hr), <- Hb.
      destruct r; split; try done; [by intros [_ []]|intros _; by split; [|intros [_ ?]]]. }
  apply wp_bind. destruct (Z.eqb_spec (mdbPrev (cteMDBNode s)) 0) as [E|E].
  - apply wp_ret. refine (Hnext false _). split; [done|]. by intros [? _].
  - destruct (mdb_prev _ _ H _ _ Hs E) as (n & Hn & _). apply wp_bind, (wp_cte_at _ n); [done|].
    destruct (sameObjectAs_total (cte_cap s) (cte_cap n)) as [r Hr]. unfold lift, wp at 1.
    rewrite sameObjectAs_sym, Hr. apply Hnext. rewrite (Hsame _ n r Hn Hr). tauto.
Qed.

Lemma isFinalCapability_final k cs slot s :
  mdb_ok (ctes k) cs → objects_adjacent (ctes k) cs → ctes k !! slot = Some s →
  wp (isFinalCapability slot) (λ r k', k' = k ∧
    (r = true ↔ ∀ q, q ≠ slot → ¬ same_object (ctes k) slot q)) k.
Proof.
  intros H Ha Hs. eapply wp_mono; [by apply (isFinalCapability_spec k cs slot s)|].
  intros r k' [-> Hr]. split; [done|]. rewrite Hr. clear r Hr.
  destruct (mdb_irrefl _ _ _ _ H Hs) as [N P]. split.
  - intros [Hp Hn] q Hq Hsame. destruct (Ha slot q (not_eq_sym Hq) Hsame) as (l1 & l2 & l3 & Hin & Hbet).
    assert (Hnd : ∀ a b, a ++ slot :: b ∈ cs →
      mdbPrev (cteMDBNode s) = last_or 0 a ∧ mdbNext (cteMDBNode s) = first_or 0 b).
    { intros a b Hl. pose proof (mo_chain _ _ H _ Hl) as Hd.
      apply dseg_app in Hd as (_ & _ & (c & Hc & Hpc & Hnc) & _). by simplify_eq. }
    assert (Hz : ∀ r, same_object (ctes k) slot r → r ≠ 0).
    { intros r (sp & sq & _ & Hr & _). by eapply (mdb_nonzero _ _ H). }
    destruct Hin as [Hl|Hl].
    + destruct (Hnd l1 (l2 ++ q :: l3) Hl) as [_ E]. apply Hn.
      assert (same_object (ctes k) slot (mdbNext (cteMDBNode s))).
      { rewrite E. destruct l2 as [|r l2]; [done|]. apply Hbet. set_solver. }
      split; [by apply Hz|done].
    + assert (Hl' : (l1 ++ q :: l2) ++ slot :: l3 ∈ cs) by (by rewrite <- app_assoc).
      destruct (Hnd _ _ Hl') as [E _]. apply Hp.
      assert (same_object (ctes k) slot (mdbPrev (cteMDBNode s))).
      { rewrite E. destruct (list_snoc_or_nil l2) as [->|(l & r & ->)].
        - by rewrite last_or_snoc.
        - rewrite app_comm_cons, app_assoc, last_or_snoc. apply Hbet. set_solver. }
      split; [by apply Hz|done].
  - intros Hno. split; intros [_ Hsame]; by eapply Hno; [|exact Hsame].
Qed.

(** When the capabilities to each object are next to each other in the
    derivation list, [isFinalCapability], which only looks at the two
    neighbours, answers whether no other slot of the system holds a capability
    to the same object. *)
Theorem isFinalCapability_correct k cs slot s :
  mdb_ok (ctes k) cs → objects_adjacent (ctes k) cs → ctes k !! slot = Some s →
  wp (isFinalCapability slot) (λ r k', k' = k ∧
    (r = true ↔ ∀ q, q ≠ slot → ¬ same_object (ctes k) slot q)) k.
Proof. exact (isFinalCapability_final k cs slot s). Qed.

(** ** A small derivation list: untyped memory, an endpoint made from it, a
    badged copy of the endpoint capability, and an empty slot. *)

Definition demo_untyped : cte_t :=
  mk_cte (cap_untyped_cap 16 false 12 1048576) (mdb_node_new 4112 true true 0).
Definition demo_endpoint : cte_t :=
  mk_cte (cap_endpoint_cap 0 true true true 1048576) (mdb_node_new 4144 true true 4096).
Definition demo_badged : cte_t :=
  mk_cte (cap_endpoint_cap 7 false true false 1048576) (mdb_node_new 0 true true 4112).
Definition demo_empty : cte_t := mk_cte cap_null_cap nullMDBNode.
Definition demo_slots : gmap Z cte_t :=
  <[4096 := demo_untyped]> (<[4112 := demo_endpoint]> (<[4144 := demo_badged]> (<[4128 := demo_empty]> ∅))).
Definition mdb_demo : ks := cspace_demo <| ctes := demo_slots |>.
Definition demo_chains : list (list Z) := [[4096; 4112; 4144]].

Lemma demo_slots_cases (P : Z → cte_t → Prop) :
  P 4096 demo_untyped → P 4112 demo_endpoint → P 4144 demo_badged → P 4128 demo_empty →
  ∀ p s, demo_slots !! p = Some s → P p s.
Proof.
  intros H1 H2 H3 H4 p s Hp. unfold demo_slots in Hp.
  repeat (apply lookup_insert_Some in Hp as [[<- <-]|[_ Hp]]; [done|]). done.
Qed.

Lemma mdb_demo_ok : mdb_ok (ctes mdb_demo) demo_chains.
Proof.
  split.
  - intros l Hl. apply list_elem_of_singleton in Hl as ->. cbn [dseg first_or].
    split; [done|]. split; [by exists demo_untyped|]. split; [done|]. split; [by exists demo_endpoint|].
    split; [done|]. split; [by exists demo_badged|done].
  - cbn. repeat (apply NoDup_cons; split; [set_solver|]). apply NoDup_nil_2.
  - apply (demo_slots_cases (λ p s, p ∈ concat demo_chains ↔ is_null (cte_cap s) = false));
      cbn; split; try done; set_solver.
  - by apply (demo_slots_cases (λ p s, is_null (cte_cap s) = true → cteMDBNode s = nullMDBNode)).
  - done.
Qed.

Lemma mdb_demo_adjacent : objects_adjacent (ctes mdb_demo) demo_chains.
Proof.
  intros p q Hpq (sp & sq & Hp & Hq & E).
  assert (Hc : (p = 4112 ∧ q = 4144) ∨ (p = 4144 ∧ q = 4112)).
  { revert p sp Hp Hpq E.
    apply (demo_slots_cases (λ p sp, p ≠ q → sameObjectAs (cte_cap sp) (cte_cap sq) = Done true →
      (p = 4112 ∧ q = 4144) ∨ (p = 4144 ∧ q = 4112))); try done; revert q sq Hq.
    - apply (demo_slots_cases (λ q sq, 4112 ≠ q → sameObjectAs (cte_cap demo_endpoint) (cte_cap sq) = Done true →
        (4112 = 4112 ∧ q = 4144) ∨ (4112 = 4144 ∧ q = 4112))); try done. by left.
    - apply (demo_slots_cases (λ q sq, 4144 ≠ q → sameObjectAs (cte_cap demo_badged) (cte_cap sq) = Done true →
        (4144 = 4112 ∧ q = 4144) ∨ (4144 = 4144 ∧ q = 4112))); try done. by right. }
  exists [4096], [], []. split; [|intros r []%elem_of_nil].
  destruct Hc as [[-> ->]|[-> ->]]; [left|right]; apply list_elem_of_singleton; done.
Qed.

Lemma cteMove_moves_witness :
  wp (cteMove (cte_cap demo_badged) 4144 4128) (λ _ k', ∃ h', k' = mdb_demo <| ctes := h' |> ∧
    mdb_ok h' (rename_slots (moved 4144 4128) demo_chains) ∧
    h' !! 4128 = Some (mk_cte (cte_cap demo_badged) (cteMDBNode demo_badged)) ∧
    h' !! 4144 = Some (mk_cte cap_null_cap nullMDBNode) ∧
    ∀ u, u ≠ 4144 → u ≠ 4128 → slot_core <$> h' !! u = slot_core <$> ctes mdb_demo !! u) mdb_demo.
Proof.
  exact (cteMove_moves mdb_demo demo_chains (cte_cap demo_badged) 4144 4128 demo_badged demo_empty
    mdb_demo_ok eq_refl eq_refl eq_refl eq_refl eq_refl).
Defined.

(** The two neighbours change places. *)
Lemma cteSwap_swaps_witness :
  wp (cteSwap (cte_cap demo_endpoint) 4112 (cte_cap demo_badged) 4144) (λ _ k', ∃ h',
    k' = mdb_demo <| ctes := h' |> ∧
    mdb_ok h' (rename_slots (swapped 4112 4144) demo_chains) ∧
    slot_core <$> h' !! 4112 = Some (slot_core (mk_cte (cte_cap demo_badged) (cteMDBNode demo_badged))) ∧
    slot_core <$> h' !! 4144 = Some (slot_core (mk_cte (cte_cap demo_endpoint) (cteMDBNode demo_endpoint))) ∧
    ∀ u, u ≠ 4112 → u ≠ 4144 → slot_core <$> h' !! u = slot_core <$> ctes mdb_demo !! u) mdb_demo.
Proof.
  refine (cteSwap_swaps mdb_demo demo_chains (cte_cap demo_endpoint) 4112 (cte_cap demo_badged) 4144
    demo_endpoint demo_badged mdb_demo_ok eq_refl eq_refl _ eq_refl eq_refl). discriminate.
Defined.

Lemma cteInsert_inserts_witness :
  wp (cteInsert (cap_endpoint_cap 9 false true false 1048576) 4112 4128) (λ _ k', ∃ h',
    k' = mdb_demo <| ctes := h' |> ∧
    mdb_ok h' (insert_after 4112 4128 <$> demo_chains) ∧
    slot_core <$> h' !! 4128 = Some (mk_cte (cap_endpoint_cap 9 false true false 1048576)
      (mdb_node_new 0 true true 0)) ∧
    slot_core <$> h' !! 4112 = Some (slot_core (demo_endpoint <| cte_cap :=
      full_source (cte_cap demo_endpoint) (cap_endpoint_cap 9 false true false 1048576) |>)) ∧
    ∀ u, u ≠ 4112 → u ≠ 4128 → slot_core <$> h' !! u = slot_core <$> ctes mdb_demo !! u) mdb_demo.
Proof.
  exact (cteInsert_inserts mdb_demo demo_chains (cap_endpoint_cap 9 false true false 1048576) 4112 4128
    demo_endpoint demo_empty true mdb_demo_ok eq_refl eq_refl eq_refl eq_refl eq_refl eq_refl).
Defined.

Lemma emptySlot_removes_witness :
  wp (emptySlot 4112 irqInvalid) (λ _ k',
    if is_null (cte_cap demo_endpoint) then k' = mdb_demo
    else mdb_ok (ctes k') (remove_slot 4112 demo_chains) ∧
      ctes k' !! 4112 = Some (mk_cte cap_null_cap nullMDBNode) ∧
      (∀ u, u ≠ 4112 → u ≠ 4144 → slot_core <$> ctes k' !! u = slot_core <$> ctes mdb_demo !! u) ∧
      (∀ n, ctes mdb_demo !! 4144 = Some n →
        slot_core <$> ctes k' !! 4144 =
          Some (mk_cte (cte_cap n) (mdb_node_new 0 (mdbRevocable (cteMDBNode n))
            (mdbFirstBadged (cteMDBNode n) || mdbFirstBadged (cteMDBNode demo_endpoint)) 0))) ∧
      (irqInvalid ≠ irqInvalid → intStateIRQTable k' !! irqInvalid = Some IRQInactive ∧
        head (irq_masks k') = Some (true, irqInvalid)) ∧
      tcbs k' = tcbs mdb_demo ∧ ntfns k' = ntfns mdb_demo ∧ eps k' = eps mdb_demo) mdb_demo.
Proof. exact (emptySlot_removes mdb_demo demo_chains 4112 demo_endpoint irqInvalid mdb_demo_ok eq_refl). Defined.

Lemma isFinalCapability_correct_witness :
  wp (isFinalCapability 4112) (λ r k', k' = mdb_demo ∧
    (r = true ↔ ∀ q, q ≠ 4112 → ¬ same_object (ctes mdb_demo) 4112 q)) mdb_demo.
Proof.
  exact (isFinalCapability_correct mdb_demo demo_chains 4112 demo_endpoint mdb_demo_ok
    mdb_demo_adjacent eq_refl).
Defined.

Example demo_not_final : fst (isFinalCapability 4112 mdb_demo) = Done false.
Proof. vm_compute. reflexivity. Qed.
