(* ===== verification/Scheduler.v ===== *)
(** The kernel's scheduler: the ready queues and their bitmaps ([object/tcb.c])
    and the scheduling half of [kernel/thread.c].

    The abstract scheduler is a function from priorities to lists of threads.
    [sched_ok] says what the queues, the two bitmap levels and the [tcbQueued]
    flags have to do with it; the operations are proved to implement pushing,
    appending and removing on these lists, and [chooseThread] to pick the head
    of the highest list that is not empty. *)

From stdpp Require Import functions.
From S2P Require Import Prelude Caps Kernel.

Definition CONFIG_NUM_DOMAINS : Z := 1.
Definition CONFIG_NUM_PRIORITIES : Z := 256.
Definition CONFIG_TIME_SLICE : Z := 3.
Definition SchedulerAction_ResumeCurrentThread : Z := 0.
Definition SchedulerAction_ChooseNewThread : Z := 4294967295.

(** ** Helpers of [kernel/thread.h] *)

Definition ready_queues_index (dom prio : Z) : K Z :=
  if 1 <? CONFIG_NUM_DOMAINS then mret (wrap32 (dom * CONFIG_NUM_PRIORITIES + prio))
  else assert (dom =? 0);; mret prio.

Definition prio_to_l1index (prio : Z) : Z := Z.shiftr prio wordRadix.
Definition l1index_to_prio (l1index : Z) : Z := wrap32 (Z.shiftl l1index wordRadix).

Definition isRunnable_state (s : thread_state) : bool :=
  match s with ThreadState_Running | ThreadState_Restart => true | _ => false end.
Definition isRunnable (t : Z) : K bool := c ← tcb_at t; mret (isRunnable_state (tsType c)).

(** [clzl], for a word that is not 0. *)
Definition clzl (w : Z) : Z := 31 - Z.log2 w.

(** Array accesses; one domain, so the index of the domain must be 0. *)
Definition l2_at (dom i : Z) : K Z := λ k,
  if (dom =? 0) && (0 <=? i) then
    match ksReadyQueuesL2Bitmap k !! Z.to_nat i with
    | Some w => (Done w, k)
    | None => (Halted BadPointer, k)
    end
  else (Halted BadPointer, k).
Definition l2_set (dom i w : Z) : K unit := λ k,
  if (dom =? 0) && (0 <=? i) && (i <? Z.of_nat (length (ksReadyQueuesL2Bitmap k)))
  then (Done tt, k <| ksReadyQueuesL2Bitmap ::= <[Z.to_nat i := w]> |>)
  else (Halted BadPointer, k).
Definition l1_at (dom : Z) : K Z := λ k,
  if dom =? 0 then (Done (ksReadyQueuesL1Bitmap k), k) else (Halted BadPointer, k).
Definition l1_set (dom w : Z) : K unit := λ k,
  if dom =? 0 then (Done tt, k <| ksReadyQueuesL1Bitmap := w |>) else (Halted BadPointer, k).
Definition queue_at (idx : Z) : K tcb_queue_t := λ k,
  if 0 <=? idx then
    match ksReadyQueues k !! Z.to_nat idx with
    | Some q => (Done q, k)
    | None => (Halted BadPointer, k)
    end
  else (Halted BadPointer, k).
Definition queue_set (idx : Z) (q : tcb_queue_t) : K unit := λ k,
  if (0 <=? idx) && (idx <? Z.of_nat (length (ksReadyQueues k)))
  then (Done tt, k <| ksReadyQueues ::= <[Z.to_nat idx := q]> |>)
  else (Halted BadPointer, k).

(** ** [object/tcb.c] *)

Definition addToBitmap (dom prio : Z) : K unit :=
  let l1index := prio_to_l1index prio in
  l1 ← l1_at dom;
  l1_set dom (Z.lor l1 (BIT l1index));;
  l2 ← l2_at dom l1index;
  l2_set dom l1index (Z.lor l2 (BIT (Z.land prio (MASK wordRadix)))).

Definition removeFromBitmap (dom prio : Z) : K unit :=
  let l1index := prio_to_l1index prio in
  l2 ← l2_at dom l1index;
  l2_set dom l1index (Z.land l2 (wrap32 (Z.lnot (BIT (Z.land prio (MASK wordRadix))))));;
  l2 ← l2_at dom l1index;
  if l2 =? 0 then
    l1 ← l1_at dom;
    l1_set dom (Z.land l1 (wrap32 (Z.lnot (BIT l1index))))
  else mret tt.

Definition tcbSchedEnqueue (tcb : Z) : K unit :=
  c ← tcb_at tcb;
  if negb (tcbQueued c) then
    let dom := tcbDomain c in
    let prio := tcbPriority c in
    idx ← ready_queues_index dom prio;
    queue ← queue_at idx;
    queue ←
      (if q_end queue =? 0 then addToBitmap dom prio;; mret (queue <| q_end := tcb |>)
       else tcb_set (q_head queue) (λ c, c <| tcbSchedPrev := tcb |>);; mret queue);
    tcb_set tcb (λ c, c <| tcbSchedPrev := 0 |>);;
    tcb_set tcb (λ c, c <| tcbSchedNext := q_head queue |>);;
    queue_set idx (queue <| q_head := tcb |>);;
    tcb_set tcb (λ c, c <| tcbQueued := true |>)
  else mret tt.

Definition tcbSchedAppend (tcb : Z) : K unit :=
  c ← tcb_at tcb;
  if negb (tcbQueued c) then
    let dom := tcbDomain c in
    let prio := tcbPriority c in
    idx ← ready_queues_index dom prio;
    queue ← queue_at idx;
    queue ←
      (if q_head queue =? 0 then addToBitmap dom prio;; mret (queue <| q_head := tcb |>)
       else tcb_set (q_end queue) (λ c, c <| tcbSchedNext := tcb |>);; mret queue);
    tcb_set tcb (λ c, c <| tcbSchedPrev := q_end queue |>);;
    tcb_set tcb (λ c, c <| tcbSchedNext := 0 |>);;
    queue_set idx (queue <| q_end := tcb |>);;
    tcb_set tcb (λ c, c <| tcbQueued := true |>)
  else mret tt.

Definition tcbSchedDequeue (tcb : Z) : K unit :=
  c ← tcb_at tcb;
  if tcbQueued c then
    let dom := tcbDomain c in
    let prio := tcbPriority c in
    idx ← ready_queues_index dom prio;
    queue ← queue_at idx;
    queue ←
      (if negb (tcbSchedPrev c =? 0) then
         tcb_set (tcbSchedPrev c) (λ p, p <| tcbSchedNext := tcbSchedNext c |>);; mret queue
       else
         when (tcbSchedNext c =? 0) (removeFromBitmap dom prio);;
         mret (queue <| q_head := tcbSchedNext c |>));
    queue ←
      (if negb (tcbSchedNext c =? 0) then
         tcb_set (tcbSchedNext c) (λ n, n <| tcbSchedPrev := tcbSchedPrev c |>);; mret queue
       else mret (queue <| q_end := tcbSchedPrev c |>));
    queue_set idx queue;;
    tcb_set tcb (λ c, c <| tcbQueued := false |>)
  else mret tt.

(** ** [kernel/thread.c] *)

Definition cur : K Z := gets ksCurThread.
Definition set_action (a : Z) : K unit := modify (λ k, k <| ksSchedulerAction := a |>).

Definition rescheduleRequired : K unit :=
  action ← gets ksSchedulerAction;
  when (negb (action =? SchedulerAction_ResumeCurrentThread)
        && negb (action =? SchedulerAction_ChooseNewThread))
    (tcbSchedEnqueue action);;
  set_action SchedulerAction_ChooseNewThread.

Definition scheduleTCB (tptr : Z) : K unit :=
  c ← cur;
  action ← gets ksSchedulerAction;
  if (tptr =? c) && (action =? SchedulerAction_ResumeCurrentThread) then
    r ← isRunnable tptr;
    when (negb r) rescheduleRequired
  else mret tt.

Definition setThreadState (tptr : Z) (ts : thread_state) : K unit :=
  tcb_set tptr (λ c, c <| tsType := ts |>);;
  scheduleTCB tptr.

Definition possibleSwitchTo (target : Z) (onSamePriority : bool) : K unit :=
  curDom ← gets ksCurDomain;
  ct ← cur;
  cc ← tcb_at ct;
  tc ← tcb_at target;
  action ← gets ksSchedulerAction;
  let curPrio := tcbPriority cc in
  let targetPrio := tcbPriority tc in
  if negb (tcbDomain tc =? curDom) then tcbSchedEnqueue target
  else
    (if ((curPrio <? targetPrio) || ((targetPrio =? curPrio) && onSamePriority))
        && (action =? SchedulerAction_ResumeCurrentThread)
     then set_action target
     else tcbSchedEnqueue target);;
    when (negb (action =? SchedulerAction_ResumeCurrentThread)
          && negb (action =? SchedulerAction_ChooseNewThread)) rescheduleRequired.

Definition attemptSwitchTo (target : Z) : K unit := possibleSwitchTo target true.
Definition switchIfRequiredTo (target : Z) : K unit := possibleSwitchTo target false.

Definition setMCPriority (tptr mcp : Z) : K unit := tcb_set tptr (λ c, c <| tcbMCP := mcp |>).

Definition setPriority (tptr prio : Z) : K unit :=
  tcbSchedDequeue tptr;;
  tcb_set tptr (λ c, c <| tcbPriority := prio |>);;
  r ← isRunnable tptr;
  when r (tcbSchedEnqueue tptr);;
  c ← cur;
  when (tptr =? c) rescheduleRequired.

Definition setDomain (tptr dom : Z) : K unit :=
  tcbSchedDequeue tptr;;
  tcb_set tptr (λ c, c <| tcbDomain := dom |>);;
  r ← isRunnable tptr;
  when r (tcbSchedEnqueue tptr);;
  c ← cur;
  when (tptr =? c) rescheduleRequired.

(** The switch of the page directory, [Arch_switchToThread], is left out. *)
Definition switchToThread (thread : Z) : K unit :=
  tcbSchedDequeue thread;;
  modify (λ k, k <| ksCurThread := thread |>).

Definition switchToIdleThread : K unit :=
  modify (λ k, k <| ksCurThread := ksIdleThread k |>).

Definition chooseThread : K unit :=
  d ← gets ksCurDomain;
  let dom := if 1 <? CONFIG_NUM_DOMAINS then d else 0 in
  l1 ← l1_at dom;
  if negb (l1 =? 0) then
    let l1index := wordBits - 1 - clzl l1 in
    l2 ← l2_at dom l1index;
    let l2index := wordBits - 1 - clzl l2 in
    let prio := Z.lor (l1index_to_prio l1index) l2index in
    idx ← ready_queues_index dom prio;
    queue ← queue_at idx;
    let thread := q_head queue in
    assert (negb (thread =? 0));;
    r ← isRunnable thread;
    assert r;;
    switchToThread thread
  else switchToIdleThread.

Definition nextDomain : K unit := λ k,
  let idx := wrap32 (ksDomScheduleIdx k + 1) in
  let idx := if Z.of_nat (length (ksDomSchedule k)) <=? idx then 0 else idx in
  match ksDomSchedule k !! Z.to_nat idx with
  | Some (d, len) =>
    (Done tt, k <| ksDomScheduleIdx := idx |> <| ksWorkUnitsCompleted := 0 |>
                <| ksCurDomain := d |> <| ksDomainTime := len |>)
  | None => (Halted BadPointer, k)
  end.

Definition enqueue_current_if_runnable : K unit :=
  c ← cur;
  r ← isRunnable c;
  when r (tcbSchedEnqueue c).

Definition schedule : K unit :=
  action ← gets ksSchedulerAction;
  if action =? SchedulerAction_ChooseNewThread then
    enqueue_current_if_runnable;;
    d ← gets ksDomainTime;
    when (d =? 0) nextDomain;;
    chooseThread;;
    set_action SchedulerAction_ResumeCurrentThread
  else if negb (action =? SchedulerAction_ResumeCurrentThread) then
    enqueue_current_if_runnable;;
    a ← gets ksSchedulerAction;
    switchToThread a;;
    set_action SchedulerAction_ResumeCurrentThread
  else mret tt.

Definition timerTick : K unit :=
  ct ← cur;
  c ← tcb_at ct;
  when (bool_decide (tsType c = ThreadState_Running))
    (if 1 <? tcbTimeSlice c then tcb_set ct (λ c, c <| tcbTimeSlice ::= λ x, x - 1 |>)
     else
       tcb_set ct (λ c, c <| tcbTimeSlice := CONFIG_TIME_SLICE |>);;
       tcbSchedAppend ct;;
       rescheduleRequired);;
  when (1 <? CONFIG_NUM_DOMAINS)
    (modify (λ k, k <| ksDomainTime ::= λ x, wrap32 (x - 1) |>);;
     d ← gets ksDomainTime;
     when (d =? 0) rescheduleRequired).

(** ** The two bitmap levels *)

Definition prio_ok (p : Z) : Prop := 0 ≤ p < CONFIG_NUM_PRIORITIES.

(** Bit [p mod 32] of word [p / 32] says whether the list of [p] has a thread,
    and bit [i] of the first level whether word [i] has a bit. *)
Record bitmap_ok (l1 : Z) (l2 : list Z) (rq : Z → list Z) : Prop := {
  bm_len : length l2 = 9%nat ∧ l2 !! 8%nat = Some 0;   (* the last word is not used *)
  bm_word1 : is_word l1;
  bm_word2 : Forall is_word l2;
  bm_bit2 : ∀ p w, prio_ok p → l2 !! Z.to_nat (p / 32) = Some w →
    (Z.testbit w (p mod 32) = true ↔ rq p ≠ []);
  bm_bit1 : ∀ i, 0 ≤ i →
    (Z.testbit l1 i = true ↔ ∃ w, l2 !! Z.to_nat i = Some w ∧ w ≠ 0)
}.

Lemma l1index_div p : prio_to_l1index p = p / 32.
Proof. unfold prio_to_l1index, wordRadix. by rewrite Z.shiftr_div_pow2. Qed.

Lemma l2index_mod p : Z.land p (MASK wordRadix) = p mod 32.
Proof. change (MASK wordRadix) with (Z.ones 5). by rewrite Z.land_ones. Qed.

Lemma prio_split p : prio_ok p → 0 ≤ p / 32 < 8 ∧ 0 ≤ p mod 32 < 32 ∧ p = 32 * (p / 32) + p mod 32.
Proof.
  unfold prio_ok, CONFIG_NUM_PRIORITIES. intros Hp.
  pose proof (Z.div_mod p 32 ltac:(lia)). pose proof (Z.mod_pos_bound p 32 ltac:(lia)).
  lia.
Qed.

Lemma word_nonzero_bit w : is_word w → w ≠ 0 → ∃ i, 0 ≤ i < 32 ∧ Z.testbit w i = true.
Proof.
  intros Hw Hne. exists (Z.log2 w). unfold is_word in Hw.
  pose proof (Z.log2_nonneg w). split; [|apply Z.bit_log2; lia]. split; [done|].
  apply Z.log2_lt_pow2; [lia|]. apply Hw.
Qed.

(** Changing a list without emptying or filling it. *)
Lemma bitmap_keep l1 l2 rq p l :
  bitmap_ok l1 l2 rq → (rq p = [] ↔ l = []) → bitmap_ok l1 l2 (<[p := l]> rq).
Proof.
  intros [H1 H2 H3 H4 H5] Hl. split; try done. intros p' w Hp' Hw. rewrite (H4 p' w Hp' Hw).
  destruct (decide (p = p')) as [->|Hne].
  - rewrite fn_lookup_insert. tauto.
  - by rewrite fn_lookup_insert_ne.
Qed.

Lemma bit_lor_other w b i : is_word w → 0 ≤ b < 32 → 0 ≤ i →
  Z.testbit (Z.lor w (BIT b)) i = Z.testbit w i || (b =? i).
Proof. intros Hw Hb Hi. by rewrite Z.lor_spec, BIT_testbit. Qed.

Lemma bit_clear w b i : is_word w → 0 ≤ b < 32 → 0 ≤ i →
  Z.testbit (Z.land w (wrap32 (Z.lnot (BIT b)))) i = Z.testbit w i && negb (b =? i).
Proof.
  intros Hw Hb Hi. rewrite Z.land_spec, wrap32_testbit, Z.lnot_spec, BIT_testbit by lia.
  destruct (Z.ltb_spec i 32); [done|]. rewrite (word_testbit_high w i) by done. done.
Qed.

Lemma BIT_word b : is_word (BIT b).
Proof. apply wrap32_range. Qed.

(** [addToBitmap]: the list of [p] is not empty any more. *)
Lemma bitmap_add l1 l2 rq p l w :
  bitmap_ok l1 l2 rq → prio_ok p → l ≠ [] → l2 !! Z.to_nat (p / 32) = Some w →
  bitmap_ok (Z.lor l1 (BIT (p / 32))) (<[Z.to_nat (p / 32) := Z.lor w (BIT (p mod 32))]> l2)
    (<[p := l]> rq).
Proof.
  intros [[H1 H0] H2 H3 H4 H5] Hp Hl Hw. destruct (prio_split p Hp) as (Hi & Hm & Hpe).
  assert (Hww : is_word w) by (by eapply (proj1 (Forall_lookup _ _) H3)).
  assert (Hlt : (Z.to_nat (p / 32) < length l2)%nat) by (rewrite H1; lia).
  split.
  - rewrite length_insert, list_lookup_insert_ne by lia. done.
  - apply lor_word; [done|apply BIT_word].
  - apply Forall_insert; [done|]. apply lor_word; [done|apply BIT_word].
  - intros p' w' Hp' Hw'. destruct (prio_split p' Hp') as (Hi' & Hm' & Hpe').
    destruct (decide (p / 32 = p' / 32)) as [Ei|Hne].
    + rewrite <- Ei, list_lookup_insert_eq in Hw' by done. injection Hw' as <-.
      rewrite bit_lor_other by (done || lia). rewrite Ei in Hw.
      destruct (decide (p = p')) as [->|Hpp].
      * rewrite fn_lookup_insert, Z.eqb_refl, orb_true_r. done.
      * rewrite fn_lookup_insert_ne by done. destruct (Z.eqb_spec (p mod 32) (p' mod 32)); [lia|].
        rewrite orb_false_r. by apply H4.
    + rewrite list_lookup_insert_ne in Hw' by lia.
      rewrite fn_lookup_insert_ne by (intros ->; done). by apply H4.
  - intros i Hi0. rewrite bit_lor_other by (done || lia).
    destruct (Z.eqb_spec (p / 32) i) as [<-|Hne].
    + rewrite orb_true_r, list_lookup_insert_eq by done. split; [|done]. intros _. eexists. split; [done|].
      intros E. assert (Hb : Z.testbit (Z.lor w (BIT (p mod 32))) (p mod 32) = true)
        by (rewrite bit_lor_other, Z.eqb_refl by (done || lia); apply orb_true_r).
      by rewrite E, Z.bits_0 in Hb.
    + rewrite orb_false_r, list_lookup_insert_ne by lia. by apply H5.
Qed.

(** [removeFromBitmap]: the list of [p] becomes empty. *)
Lemma bitmap_remove l1 l2 rq p w :
  bitmap_ok l1 l2 rq → prio_ok p → l2 !! Z.to_nat (p / 32) = Some w →
  let w' := Z.land w (wrap32 (Z.lnot (BIT (p mod 32)))) in
  bitmap_ok (if w' =? 0 then Z.land l1 (wrap32 (Z.lnot (BIT (p / 32)))) else l1)
    (<[Z.to_nat (p / 32) := w']> l2) (<[p := []]> rq).
Proof.
  intros [[H1 H0] H2 H3 H4 H5] Hp Hw w'. destruct (prio_split p Hp) as (Hi & Hm & Hpe).
  assert (Hww : is_word w) by (by eapply (proj1 (Forall_lookup _ _) H3)).
  assert (Hlt : (Z.to_nat (p / 32) < length l2)%nat) by (rewrite H1; lia).
  split.
  - rewrite length_insert, list_lookup_insert_ne by lia. done.
  - destruct (w' =? 0); [by apply land_word|done].
  - apply Forall_insert; [done|]. by apply land_word.
  - intros p' x Hp' Hx. destruct (prio_split p' Hp') as (Hi' & Hm' & Hpe').
    destruct (decide (p / 32 = p' / 32)) as [Ei|Hne].
    + rewrite <- Ei, list_lookup_insert_eq in Hx by done. injection Hx as <-. unfold w'.
      rewrite bit_clear by (done || lia). rewrite Ei in Hw.
      destruct (decide (p = p')) as [->|Hpp].
      * rewrite fn_lookup_insert, Z.eqb_refl, andb_false_r. done.
      * rewrite fn_lookup_insert_ne by done. destruct (Z.eqb_spec (p mod 32) (p' mod 32)); [lia|].
        rewrite andb_true_r. by apply H4.
    + rewrite list_lookup_insert_ne in Hx by lia.
      rewrite fn_lookup_insert_ne by (intros ->; done). by apply H4.
  - intros i Hi0. destruct (Z.eqb_spec (p / 32) i) as [<-|Hne].
    + rewrite list_lookup_insert_eq by done. destruct (Z.eqb_spec w' 0) as [E|E].
      * rewrite bit_clear, Z.eqb_refl, andb_false_r by (done || lia). split; [done|].
        intros (x & [= <-] & Hx). done.
      * rewrite (H5 (p / 32)) by lia. split; [intros _; by exists w'|]. intros _. exists w.
        split; [done|]. intros ->. apply E. unfold w'. apply Z.land_0_l.
    + rewrite list_lookup_insert_ne by lia. rewrite <- (H5 i) by done.
      destruct (w' =? 0); [|done]. rewrite bit_clear by (done || lia).
      destruct (Z.eqb_spec (p / 32) i); [done|]. by rewrite andb_true_r.
Qed.

(** The two [clzl]s find the highest priority with a thread. *)
Lemma bitmap_highest l1 l2 rq w :
  bitmap_ok l1 l2 rq → l1 ≠ 0 → l2 !! Z.to_nat (Z.log2 l1) = Some w →
  let p := 32 * Z.log2 l1 + Z.log2 w in
  0 ≤ Z.log2 l1 < 8 ∧ w ≠ 0 ∧ 0 ≤ Z.log2 w < 32 ∧ prio_ok p ∧ rq p ≠ [] ∧
  ∀ p', prio_ok p' → p < p' → rq p' = [].
Proof.
  intros [[H1 H0] H2 H3 H4 H5] Hne Hw p. unfold is_word in H2.
  pose proof (Z.log2_nonneg l1) as Hl0.
  assert (Hb1 : Z.testbit l1 (Z.log2 l1) = true) by (apply Z.bit_log2; lia).
  apply H5 in Hb1 as (w0 & Hw0 & Hwne); [|done]. simplify_eq.
  pose proof (lookup_lt_Some _ _ _ Hw) as Hlt. rewrite H1 in Hlt.
  assert (Hl8 : Z.log2 l1 ≠ 8) by (intros E; rewrite E in Hw; change (Z.to_nat 8) with 8%nat in Hw; congruence).
  assert (Hww : is_word w) by (by eapply (proj1 (Forall_lookup _ _) H3)).
  pose proof Hww as [Hw1 Hw2].
  pose proof (Z.log2_nonneg w) as Hl2. assert (Hl3 : Z.log2 w < 32) by (by apply Z.log2_lt_pow2; [lia|]).
  assert (Hp : prio_ok p) by (unfold prio_ok, p, CONFIG_NUM_PRIORITIES; lia).
  assert (Hd : p / 32 = Z.log2 l1) by (unfold p; rewrite Z.mul_comm, Z.div_add_l, Z.div_small; lia).
  assert (Hm : p mod 32 = Z.log2 w).
  { unfold p. rewrite Z.add_comm, Z.mul_comm, Z.mod_add by lia. apply Z.mod_small. lia. }
  split_and!; try lia; try done.
  - apply (H4 p w Hp); [by rewrite Hd|]. rewrite Hm. apply Z.bit_log2. lia.
  - intros p' Hp' Hlt'. destruct (prio_split p' Hp') as (Hi' & Hm' & Hpe').
    destruct (lookup_lt_is_Some_2 l2 (Z.to_nat (p' / 32))) as [w' Hw']; [rewrite H1; lia|].
    destruct (rq p') as [|t l] eqn:E; [done|]. exfalso.
    assert (Hbit : Z.testbit w' (p' mod 32) = true) by (apply (H4 p' w' Hp' Hw'); by rewrite E).
    assert (Hw'w : is_word w') by (by eapply (proj1 (Forall_lookup _ _) H3)).
    destruct (Z.lt_trichotomy (p' / 32) (Z.log2 l1)) as [Hc|[Hc|Hc]].
    + unfold p in Hlt'. lia.
    + rewrite Hc in Hw'. simplify_eq. rewrite Z.bits_above_log2 in Hbit; [done|lia|].
      unfold p in Hlt'. lia.
    + assert (Hb1 : Z.testbit l1 (p' / 32) = true).
      { apply H5; [lia|]. exists w'. split; [done|]. intros ->. by rewrite Z.bits_0 in Hbit. }
      rewrite Z.bits_above_log2 in Hb1; [done|lia|lia].
Qed.

Definition bitmaps_of (k : ks) (rq : Z → list Z) : Prop :=
  bitmap_ok (ksReadyQueuesL1Bitmap k) (ksReadyQueuesL2Bitmap k) rq.

Lemma l2_word k rq p : bitmaps_of k rq → prio_ok p →
  ∃ w, ksReadyQueuesL2Bitmap k !! Z.to_nat (p / 32) = Some w.
Proof.
  intros H Hp. destruct (prio_split p Hp) as (Hi & _).
  apply lookup_lt_is_Some_2. rewrite (proj1 (bm_len _ _ _ H)). lia.
Qed.

Lemma wp_l2_at i w (Q : Z → ks → Prop) k :
  0 ≤ i → ksReadyQueuesL2Bitmap k !! Z.to_nat i = Some w → Q w k → wp (l2_at 0 i) Q k.
Proof.
  intros Hi Hw HQ. unfold wp, l2_at. destruct (Z.leb_spec 0 i); [|lia]. simpl. by rewrite Hw.
Qed.

Lemma wp_l2_set i w w0 (Q : unit → ks → Prop) k :
  0 ≤ i → ksReadyQueuesL2Bitmap k !! Z.to_nat i = Some w0 →
  Q tt (k <| ksReadyQueuesL2Bitmap ::= <[Z.to_nat i := w]> |>) → wp (l2_set 0 i w) Q k.
Proof.
  intros Hi Hw HQ. apply lookup_lt_Some in Hw. unfold wp, l2_set.
  destruct (Z.leb_spec 0 i); [|lia]. simpl.
  destruct (Z.ltb_spec i (Z.of_nat (length (ksReadyQueuesL2Bitmap k)))); [done|lia].
Qed.

Lemma addToBitmap_spec p k rq :
  bitmaps_of k rq → prio_ok p →
  wp (addToBitmap 0 p) (λ _ k', ∃ l1 l2,
    k' = k <| ksReadyQueuesL1Bitmap := l1 |> <| ksReadyQueuesL2Bitmap := l2 |> ∧
    ∀ l, l ≠ [] → bitmap_ok l1 l2 (<[p := l]> rq)) k.
Proof.
  intros Hb Hp. destruct (l2_word _ _ _ Hb Hp) as [w Hw].
  destruct (prio_split p Hp) as (Hi & _). unfold addToBitmap.
  rewrite l1index_div, l2index_mod. apply wp_bind. unfold l1_at, wp at 1. simpl.
  apply wp_bind. unfold l1_set, wp at 1. simpl. apply wp_bind, (wp_l2_at _ w); [lia|done|].
  apply (wp_l2_set _ _ w); [lia|done|]. eexists _, _. split; [reflexivity|].
  intros l Hl. by apply bitmap_add.
Qed.

Lemma removeFromBitmap_spec p k rq :
  bitmaps_of k rq → prio_ok p →
  wp (removeFromBitmap 0 p) (λ _ k', ∃ l1 l2,
    k' = k <| ksReadyQueuesL1Bitmap := l1 |> <| ksReadyQueuesL2Bitmap := l2 |> ∧
    bitmap_ok l1 l2 (<[p := []]> rq)) k.
Proof.
  intros Hb Hp. destruct (l2_word _ _ _ Hb Hp) as [w Hw].
  destruct (prio_split p Hp) as (Hi & _). unfold removeFromBitmap.
  rewrite l1index_div, l2index_mod. apply wp_bind, (wp_l2_at _ w); [lia|done|].
  apply wp_bind, (wp_l2_set _ _ w); [lia|done|].
  apply wp_bind. eapply wp_l2_at; [lia| |].
  { cbn. apply list_lookup_insert_eq. by eapply lookup_lt_Some. }
  pose proof (bitmap_remove _ _ _ _ _ Hb Hp Hw) as Hr. cbv zeta in Hr.
  destruct (_ =? 0) eqn:E.
  - apply wp_bind. unfold l1_at, wp at 1. simpl. unfold l1_set, wp. simpl.
    eexists _, _. split; [reflexivity|]. exact Hr.
  - apply wp_ret. eexists _, _. split; [|exact Hr]. reflexivity.
Qed.

(** ** The ready queues *)

Record sched_ok (k : ks) (rq : Z → list Z) : Prop := {
  so_len : length (ksReadyQueues k) = 256%nat;
  so_queue : ∀ p q, prio_ok p → ksReadyQueues k !! Z.to_nat p = Some q →
    dlist sched_links (tcbs k) q (rq p);
  so_in : ∀ p t, t ∈ rq p → prio_ok p ∧
    ∃ c, tcbs k !! t = Some c ∧ tcbPriority c = p ∧ tcbQueued c = true;
  so_queued : ∀ t c, tcbs k !! t = Some c → tcbQueued c = true → t ∈ rq (tcbPriority c);
  so_tcb : ∀ t c, tcbs k !! t = Some c → t ≠ 0 ∧ prio_ok (tcbPriority c) ∧ tcbDomain c = 0;
  so_bitmaps : bitmaps_of k rq
}.

(** Threads as they are when the scheduler's fields are forgotten. *)
Definition sched_core (c : tcb_t) : tcb_t :=
  c <| tcbQueued := false |> <| tcbSchedNext := 0 |> <| tcbSchedPrev := 0 |>.

(** The parts of the state outside threads and ready queues are equal. *)
Definition same_rest (k k' : ks) : Prop :=
  objects k' = objects k ∧ eps k' = eps k ∧ ksCurThread k' = ksCurThread k ∧
  ksIdleThread k' = ksIdleThread k ∧ ksSchedulerAction k' = ksSchedulerAction k ∧
  ksDomSchedule k' = ksDomSchedule k ∧ ksDomScheduleIdx k' = ksDomScheduleIdx k ∧
  ksCurDomain k' = ksCurDomain k ∧ ksDomainTime k' = ksDomainTime k.

(** An operation on the queues changes nothing else. *)
Record only_queues (k k' : ks) : Prop := {
  oq_tcbs : ∀ u, sched_core <$> tcbs k' !! u = sched_core <$> tcbs k !! u;
  oq_rest : same_rest k k'
}.

Lemma only_queues_refl k : only_queues k k.
Proof. by split. Qed.

Lemma only_queues_trans k1 k2 k3 : only_queues k1 k2 → only_queues k2 k3 → only_queues k1 k3.
Proof.
  intros [H1 R1] [H2 R2]. split; [intros u; congruence|].
  unfold same_rest in *. intuition congruence.
Qed.

Lemma queue_of k rq p : sched_ok k rq → prio_ok p →
  ∃ q, ksReadyQueues k !! Z.to_nat p = Some q ∧ dlist sched_links (tcbs k) q (rq p).
Proof.
  intros H Hp. destruct (lookup_lt_is_Some_2 (ksReadyQueues k) (Z.to_nat p)) as [q Hq].
  { rewrite (so_len _ _ H). unfold prio_ok, CONFIG_NUM_PRIORITIES in Hp. lia. }
  exists q. split; [done|]. by apply (so_queue _ _ H).
Qed.

Lemma wp_queue_at p q (Q : tcb_queue_t → ks → Prop) k :
  0 ≤ p → ksReadyQueues k !! Z.to_nat p = Some q → Q q k → wp (queue_at p) Q k.
Proof.
  intros Hp Hq HQ. unfold wp, queue_at. destruct (Z.leb_spec 0 p); [|lia]. by rewrite Hq.
Qed.

Lemma wp_queue_set p q q0 (Q : unit → ks → Prop) k :
  0 ≤ p → ksReadyQueues k !! Z.to_nat p = Some q0 →
  Q tt (k <| ksReadyQueues ::= <[Z.to_nat p := q]> |>) → wp (queue_set p q) Q k.
Proof.
  intros Hp Hq HQ. apply lookup_lt_Some in Hq. unfold wp, queue_set.
  destruct (Z.leb_spec 0 p); [|lia]. simpl.
  destruct (Z.ltb_spec p (Z.of_nat (length (ksReadyQueues k)))); [done|lia].
Qed.

Lemma wp_index prio (Q : Z → ks → Prop) k : Q prio k → wp (ready_queues_index 0 prio) Q k.
Proof. done. Qed.

(** Threads of another list are not touched. *)
Lemma rq_disjoint k rq p p' t : sched_ok k rq → t ∈ rq p → t ∈ rq p' → p = p'.
Proof.
  intros H H1 H2. apply (so_in _ _ H) in H1 as (_ & c & Hc & <- & _).
  apply (so_in _ _ H) in H2 as (_ & c' & Hc' & <- & _). by simplify_eq.
Qed.

(** The common end of the three operations: the list of priority [p] has become
    [l], its links are right in the heap [h], and the flag of [t] is [b]. *)
Section queue_update.
Context (k k' : ks) (rq : Z → list Z) (t : Z) (c c2 : tcb_t) (p : Z) (q : tcb_queue_t)
  (l : list Z) (h : gmap Z tcb_t) (b : bool).
Context (H : sched_ok k rq) (Hc : tcbs k !! t = Some c) (Hpr : tcbPriority c = p)
  (Hl : dlist sched_links h q l) (Hs : same_but_links sched_links (tcbs k) h)
  (Hout : ∀ u, u ∉ t :: rq p ++ l → h !! u = tcbs k !! u)
  (Hc2 : h !! t = Some c2)
  (Hmem : ∀ u, u ∈ l ↔ (u = t ∧ b = true) ∨ (u ∈ rq p ∧ u ≠ t))
  (Hk : tcbs k' = <[t := c2 <| tcbQueued := b |>]> h)
  (Hkq : ksReadyQueues k' = <[Z.to_nat p := q]> (ksReadyQueues k)).

Lemma update_field {B} (f : tcb_t → B) u x' :
  (∀ x, f (erase sched_links x) = f x) → (∀ x, f (x <| tcbQueued := b |>) = f x) →
  tcbs k' !! u = Some x' → ∃ x, tcbs k !! u = Some x ∧ f x' = f x.
Proof.
  intros Hf Hfb Hx'. rewrite Hk in Hx'. destruct (decide (t = u)) as [->|Hne].
  - rewrite lookup_insert_eq in Hx'. simplify_eq.
    destruct (same_but_field sched_links f _ _ _ _ Hf Hs Hc2) as (x & Hx & E).
    exists x. split; [done|]. by rewrite Hfb.
  - rewrite lookup_insert_ne in Hx' by done. by apply (same_but_field sched_links f _ h).
Qed.

Lemma update_prio : prio_ok p.
Proof. destruct (so_tcb _ _ H t c Hc) as (_ & Hp & _). by rewrite Hpr in Hp. Qed.

(** A thread of another list is neither [t] nor in the list that changes. *)
Lemma update_other p' u : p ≠ p' → u ∈ rq p' → u ≠ t ∧ h !! u = tcbs k !! u.
Proof.
  intros Hne Hu. assert (Hup : u ∉ rq p) by (intros Hu'; by apply Hne, (rq_disjoint k rq p p' u)).
  assert (Hut : u ≠ t).
  { intros ->. apply (so_in _ _ H) in Hu as (_ & x & Hx & Hpx & _). congruence. }
  split; [done|]. apply Hout. rewrite elem_of_cons, elem_of_app, Hmem. naive_solver.
Qed.

Lemma update_queue p' q' : prio_ok p' → ksReadyQueues k' !! Z.to_nat p' = Some q' →
  dlist sched_links (tcbs k') q' ((<[p := l]> rq) p').
Proof.
  rewrite Hk, Hkq. intros Hp' Hq'. pose proof update_prio as Hp.
  destruct (decide (p = p')) as [<-|Hne].
  - rewrite list_lookup_insert_eq in Hq'.
    2:{ rewrite (so_len _ _ H). unfold prio_ok, CONFIG_NUM_PRIORITIES in Hp'. lia. }
    injection Hq' as <-. rewrite fn_lookup_insert. eapply dlist_frame; [|exact Hl].
    intros u _. destruct (decide (t = u)) as [->|Hne]; [|by rewrite lookup_insert_ne].
    by rewrite lookup_insert_eq, Hc2.
  - rewrite list_lookup_insert_ne in Hq' by (unfold prio_ok in Hp, Hp'; lia).
    rewrite fn_lookup_insert_ne by done.
    eapply dlist_frame; [|by apply (so_queue _ _ H)]. intros u Hu.
    destruct (update_other p' u Hne Hu) as [Hut Hu']. by rewrite lookup_insert_ne, Hu'.
Qed.

Lemma update_in p' u : u ∈ (<[p := l]> rq) p' →
  prio_ok p' ∧ ∃ x, tcbs k' !! u = Some x ∧ tcbPriority x = p' ∧ tcbQueued x = true.
Proof.
  rewrite Hk. intros Hu. destruct (decide (p = p')) as [<-|Hne].
  - rewrite fn_lookup_insert in Hu. split; [apply update_prio|].
    apply Hmem in Hu as [[-> Hbt]|[Hu Hne]].
    + eexists. rewrite lookup_insert_eq. split; [done|]. split; [|done].
      destruct (same_but_field sched_links tcbPriority _ _ _ _ ltac:(done) Hs Hc2) as (x & Hx & E).
      by simplify_eq.
    + apply (so_in _ _ H) in Hu as (_ & x & Hx & Hpx & Hqx).
      rewrite lookup_insert_ne by done.
      destruct (same_but_lookup _ _ _ u Hs ltac:(by rewrite Hx)) as [x' Hx'].
      exists x'. split; [done|].
      destruct (same_but_field sched_links (λ y, (tcbPriority y, tcbQueued y)) _ _ _ _ ltac:(done) Hs Hx')
        as (y & Hy & E). injection E as -> ->. by simplify_eq.
  - rewrite fn_lookup_insert_ne in Hu by done.
    destruct (so_in _ _ H _ _ Hu) as (Hp' & x & Hx & Hpx). split; [done|]. exists x.
    destruct (update_other p' u Hne Hu) as [Hut Hu']. by rewrite lookup_insert_ne, Hu'.
Qed.

Lemma update_queued u x' : tcbs k' !! u = Some x' → tcbQueued x' = true →
  u ∈ (<[p := l]> rq) (tcbPriority x').
Proof.
  intros Hx' Hq'. destruct (update_field tcbPriority u x' ltac:(done) ltac:(done) Hx') as (x & Hx & E).
  rewrite E. rewrite Hk in Hx'. destruct (decide (t = u)) as [->|Hne].
  - rewrite lookup_insert_eq in Hx'. simplify_eq. rewrite fn_lookup_insert. apply Hmem. by left.
  - rewrite lookup_insert_ne in Hx' by done.
    destruct (same_but_field sched_links tcbQueued _ _ _ _ ltac:(done) Hs Hx') as (y & Hy & E2).
    assert (y = x) as -> by congruence.
    rewrite E2 in Hq'. pose proof (so_queued _ _ H u x Hx Hq') as Hin.
    destruct (decide (p = tcbPriority x)) as [Ep|Ep].
    + rewrite <- Ep, fn_lookup_insert. apply Hmem. right. by rewrite Ep.
    + by rewrite fn_lookup_insert_ne.
Qed.

Lemma update_core u : sched_core <$> tcbs k' !! u = sched_core <$> tcbs k !! u.
Proof.
  rewrite Hk. destruct (decide (t = u)) as [->|Hne].
  - rewrite lookup_insert_eq.
    destruct (same_but_field sched_links (λ x, sched_core x) _ _ _ _ ltac:(done) Hs Hc2) as (x & -> & E).
    exact (f_equal Some E).
  - rewrite lookup_insert_ne by done. specialize (Hs u).
    destruct (h !! u) as [x|], (tcbs k !! u) as [y|]; try done.
    cbn [fmap option_fmap option_map] in *. apply (inj Some) in Hs.
    f_equal. change (sched_core x) with (sched_core (erase sched_links x)). by rewrite Hs.
Qed.

Lemma sched_ok_update :
  bitmaps_of k' (<[p := l]> rq) → same_rest k k' →
  sched_ok k' (<[p := l]> rq) ∧ only_queues k k'.
Proof.
  intros Hb Hrest. split; [|split; [apply update_core|done]]. split; [..|exact Hb].
  - rewrite Hkq, length_insert. apply (so_len _ _ H).
  - apply update_queue.
  - apply update_in.
  - apply update_queued.
  - intros u x' Hx'.
    destruct (update_field (λ x, (tcbPriority x, tcbDomain x)) u x' ltac:(done) ltac:(done) Hx')
      as (x & Hx & E). injection E as -> ->. apply (so_tcb _ _ H u x Hx).
Qed.

End queue_update.

(** *** The three operations implement the list operations *)

(** The abstract operations. *)
Definition rq_push (t p : Z) (rq : Z → list Z) : Z → list Z := <[p := t :: rq p]> rq.
Definition rq_append (t p : Z) (rq : Z → list Z) : Z → list Z := <[p := rq p ++ [t]]> rq.
Definition rq_remove (t p : Z) (rq : Z → list Z) : Z → list Z := <[p := filter (.≠ t) (rq p)]> rq.

Lemma not_queued_out k rq t c p :
  sched_ok k rq → tcbs k !! t = Some c → tcbQueued c = false → t ∉ rq p.
Proof. intros H Hc Hq Hin. apply (so_in _ _ H) in Hin as (_ & x & Hx & _ & Hqx). congruence. Qed.

Lemma tcbSchedEnqueue_queued k t c :
  tcbs k !! t = Some c → tcbQueued c = true → wp (tcbSchedEnqueue t) (λ _ k', k' = k) k.
Proof. intros Hc Hq. apply wp_bind, (wp_tcb_at _ c); [done|]. by rewrite Hq. Qed.

Lemma tcbSchedEnqueue_push k rq t c :
  sched_ok k rq → tcbs k !! t = Some c → tcbQueued c = false →
  wp (tcbSchedEnqueue t) (λ _ k',
    sched_ok k' (rq_push t (tcbPriority c) rq) ∧ only_queues k k') k.
Proof.
  intros H Hc Hq. destruct (so_tcb _ _ H t c Hc) as (Ht0 & Hp & Hdom).
  destruct (queue_of _ _ _ H Hp) as (q & Hqat & Hl).
  assert (Hout : t ∉ rq (tcbPriority c)) by (by eapply not_queued_out).
  pose proof (dlist_empty _ _ _ _ Hl) as [_ Hempty].
  destruct (dlist_prepend sched_links _ _ _ _ _ Hl Hc Hout Ht0) as (h1 & Hh1 & Hc1 & Hl2 & Hs2 & Hf2).
  assert (Hp0 : 0 ≤ tcbPriority c) by apply Hp.
  unfold tcbSchedEnqueue. apply wp_bind, (wp_tcb_at _ c); [done|]. rewrite Hq, Hdom. cbn [negb].
  apply wp_bind, wp_index. apply wp_bind, (wp_queue_at _ q); [done|done|].
  assert (Hrest : ∀ k1 q', tcbs k1 = h1 → ksReadyQueues k1 = ksReadyQueues k → same_rest k k1 →
    bitmaps_of k1 (rq_push t (tcbPriority c) rq) →
    q_head q' = q_head q → q_end q' = (if q_end q =? 0 then t else q_end q) →
    wp (tcb_set t (λ c, c <| tcbSchedPrev := 0 |>);;
        tcb_set t (λ c, c <| tcbSchedNext := q_head q' |>);;
        queue_set (tcbPriority c) (q' <| q_head := t |>);;
        tcb_set t (λ c, c <| tcbQueued := true |>))
      (λ _ k', sched_ok k' (rq_push t (tcbPriority c) rq) ∧ only_queues k k') k1).
  { intros k1 q' Et Eq Er Hb Eh Ee. apply wp_bind, (wp_tcb_set _ _ c); [by rewrite Et|].
    apply wp_bind. eapply wp_tcb_set; [apply lookup_insert_eq|].
    apply wp_bind. eapply wp_queue_set; [done|by rewrite <- Hqat, <- Eq|].
    eapply wp_tcb_set; [apply lookup_insert_eq|].
    assert (Hq' : q' <| q_head := t |> = mk_queue t (if q_end q =? 0 then t else q_end q))
      by (unfold update; by rewrite <- Ee).
    rewrite Hq', Eh. eapply (sched_ok_update k _ rq t c _ _ _ _ _ true);
      [done|done|done|exact Hl2|exact Hs2|..]; try done.
    - intros u Hu. apply Hf2. set_solver.
    - apply lookup_insert_eq.
    - intros u. rewrite elem_of_cons. destruct (decide (u = t)); set_solver.
    - cbn. by rewrite !insert_insert_eq, Et.
    - cbn. by rewrite Eq. }
  pose proof (so_bitmaps _ _ H) as Hb.
  destruct (Z.eqb_spec (q_end q) 0) as [E|E].
  - subst h1. apply wp_bind, wp_bind. eapply wp_mono; [by apply (addToBitmap_spec _ _ rq)|].
    intros [] k1 (l1 & l2 & -> & Hb'). apply wp_ret, Hrest; try done. by apply Hb'.
  - destruct Hh1 as (ch & Hch & ->). apply wp_bind, wp_bind, (wp_tcb_set _ _ ch); [done|].
    apply wp_ret, Hrest; try done. apply bitmap_keep; [done|]. split; [|done].
    intros E'. destruct E. by apply Hempty.
Qed.

Lemma tcbSchedAppend_append k rq t c :
  sched_ok k rq → tcbs k !! t = Some c → tcbQueued c = false →
  wp (tcbSchedAppend t) (λ _ k',
    sched_ok k' (rq_append t (tcbPriority c) rq) ∧ only_queues k k') k.
Proof.
  intros H Hc Hq. destruct (so_tcb _ _ H t c Hc) as (Ht0 & Hp & Hdom).
  destruct (queue_of _ _ _ H Hp) as (q & Hqat & Hl).
  assert (Hout : t ∉ rq (tcbPriority c)) by (by eapply not_queued_out).
  pose proof (dlist_empty _ _ _ _ Hl) as [Hempty _].
  destruct (dlist_append sched_links _ _ _ _ _ Hl Hc Hout Ht0) as (h1 & Hh1 & Hc1 & Hl2 & Hs2 & Hf2).
  assert (Hp0 : 0 ≤ tcbPriority c) by apply Hp.
  unfold tcbSchedAppend. apply wp_bind, (wp_tcb_at _ c); [done|]. rewrite Hq, Hdom. cbn [negb].
  apply wp_bind, wp_index. apply wp_bind, (wp_queue_at _ q); [done|done|].
  assert (Hrest : ∀ k1 q', tcbs k1 = h1 → ksReadyQueues k1 = ksReadyQueues k → same_rest k k1 →
    bitmaps_of k1 (rq_append t (tcbPriority c) rq) →
    q_end q' = q_end q → q_head q' = (if q_head q =? 0 then t else q_head q) →
    wp (tcb_set t (λ c, c <| tcbSchedPrev := q_end q' |>);;
        tcb_set t (λ c, c <| tcbSchedNext := 0 |>);;
        queue_set (tcbPriority c) (q' <| q_end := t |>);;
        tcb_set t (λ c, c <| tcbQueued := true |>))
      (λ _ k', sched_ok k' (rq_append t (tcbPriority c) rq) ∧ only_queues k k') k1).
  { intros k1 q' Et Eq Er Hb Ee Eh. apply wp_bind, (wp_tcb_set _ _ c); [by rewrite Et|].
    apply wp_bind. eapply wp_tcb_set; [apply lookup_insert_eq|].
    apply wp_bind. eapply wp_queue_set; [done|by rewrite <- Hqat, <- Eq|].
    eapply wp_tcb_set; [apply lookup_insert_eq|].
    assert (Hq' : q' <| q_end := t |> = mk_queue (if q_head q =? 0 then t else q_head q) t)
      by (unfold update; by rewrite <- Eh).
    rewrite Hq', Ee. eapply (sched_ok_update k _ rq t c _ _ _ _ _ true);
      [done|done|done|exact Hl2|exact Hs2|..]; try done.
    - intros u Hu. apply Hf2. set_solver.
    - apply lookup_insert_eq.
    - intros u. rewrite elem_of_app, list_elem_of_singleton. destruct (decide (u = t)); set_solver.
    - cbn. by rewrite !insert_insert_eq, Et.
    - cbn. by rewrite Eq. }
  pose proof (so_bitmaps _ _ H) as Hb.
  destruct (Z.eqb_spec (q_head q) 0) as [E|E].
  - subst h1. apply wp_bind, wp_bind. eapply wp_mono; [by apply (addToBitmap_spec _ _ rq)|].
    intros [] k1 (l1 & l2 & -> & Hb'). apply wp_ret, Hrest; try done. apply Hb'. by destruct (rq _).
  - destruct Hh1 as (ch & Hch & ->). apply wp_bind, wp_bind, (wp_tcb_set _ _ ch); [done|].
    apply wp_ret, Hrest; try done. apply bitmap_keep; [done|]. split; [|by destruct (rq _)].
    intros E'. destruct E. by apply Hempty.
Qed.

Lemma tcbSchedDequeue_remove k rq t c :
  sched_ok k rq → tcbs k !! t = Some c → tcbQueued c = true →
  wp (tcbSchedDequeue t) (λ _ k',
    sched_ok k' (rq_remove t (tcbPriority c) rq) ∧ only_queues k k') k.
Proof.
  intros H Hc Hq. destruct (so_tcb _ _ H t c Hc) as (Ht0 & Hp & Hdom).
  destruct (queue_of _ _ _ H Hp) as (q & Hqat & Hl).
  pose proof (so_queued _ _ H t c Hc Hq) as Hin.
  apply list_elem_of_split in Hin as (l1 & l2 & Erq). rewrite Erq in Hl.
  assert (Efil : filter (.≠ t) (rq (tcbPriority c)) = l1 ++ l2)
    by (rewrite Erq; apply filter_ne_app, Hl).
  unfold rq_remove. rewrite Efil.
  destruct (dlist_unlink sched_links _ _ _ _ _ _ Hl Hc) as (h1 & Hh1 & h2 & Hh2 & Hl2 & Hs2 & Hf2).
  pose proof (dlist_split _ _ _ _ _ _ _ Hl Hc) as (_ & _ & Epv & Enx).
  change (pv sched_links c) with (tcbSchedPrev c) in *. change (nx sched_links c) with (tcbSchedNext c) in *.
  assert (Ht12 : t ∉ l1 ++ l2) by (rewrite <- Efil; intros [? _]%list_elem_of_filter; done).
  assert (Hemp : l1 ++ l2 = [] ↔ tcbSchedPrev c = 0 ∧ tcbSchedNext c = 0).
  { rewrite Epv, Enx. pose proof (dlist_nonzero _ _ _ _ Hl) as Hz. split.
    - by intros [-> ->]%app_nil.
    - intros [E1 E2]. destruct (list_snoc_or_nil l1) as [->|(l & u & ->)].
      + destruct l2; [done|]. simpl in E2. set_solver.
      + rewrite last_or_snoc in E1. set_solver. }
  assert (Hp0 : 0 ≤ tcbPriority c) by apply Hp. pose proof (so_bitmaps _ _ H) as Hb.
  unfold tcbSchedDequeue. apply wp_bind, (wp_tcb_at _ c); [done|]. rewrite Hq, Hdom.
  apply wp_bind, wp_index. apply wp_bind, (wp_queue_at _ q); [done|done|].
  (* the last writes *)
  assert (Hrest : ∀ k1 q', tcbs k1 = h2 → ksReadyQueues k1 = ksReadyQueues k → same_rest k k1 →
    bitmaps_of k1 (<[tcbPriority c := l1 ++ l2]> rq) →
    q_head q' = (if tcbSchedPrev c =? 0 then tcbSchedNext c else q_head q) →
    q_end q' = (if tcbSchedNext c =? 0 then tcbSchedPrev c else q_end q) →
    wp (queue_set (tcbPriority c) q';; tcb_set t (λ c, c <| tcbQueued := false |>))
      (λ _ k', sched_ok k' (<[tcbPriority c := l1 ++ l2]> rq) ∧ only_queues k k') k1).
  { intros k1 q' Et Eq Er Hb' Eh Ee. apply wp_bind. eapply wp_queue_set; [done|by rewrite <- Hqat, <- Eq|].
    assert (Hc2 : h2 !! t = Some c) by (by rewrite Hf2).
    apply (wp_tcb_set _ _ c); [cbn; by rewrite Et|].
    eapply (sched_ok_update k _ rq t c _ _ _ _ _ false); [done|done|done|exact Hl2|exact Hs2|..]; try done.
    - intros u Hu. apply Hf2. rewrite elem_of_cons, elem_of_app in Hu. set_solver.
    - intros u. rewrite <- Efil, list_elem_of_filter. naive_solver.
    - cbn. by rewrite Et.
    - cbn. rewrite Eq. destruct q'. cbn in *. by rewrite Eh, Ee. }
  (* the forward neighbour *)
  assert (Hmid : ∀ k1 q', tcbs k1 = h1 → ksReadyQueues k1 = ksReadyQueues k → same_rest k k1 →
    bitmaps_of k1 (<[tcbPriority c := l1 ++ l2]> rq) →
    q_head q' = (if tcbSchedPrev c =? 0 then tcbSchedNext c else q_head q) → q_end q' = q_end q →
    wp (queue ← (if negb (tcbSchedNext c =? 0)
                 then tcb_set (tcbSchedNext c) (λ n, n <| tcbSchedPrev := tcbSchedPrev c |>);; mret q'
                 else mret (q' <| q_end := tcbSchedPrev c |>));
        queue_set (tcbPriority c) queue;; tcb_set t (λ c, c <| tcbQueued := false |>))
      (λ _ k', sched_ok k' (<[tcbPriority c := l1 ++ l2]> rq) ∧ only_queues k k') k1).
  { intros k1 q' Et Eq Er Hb' Eh Ee. apply wp_bind. destruct (tcbSchedNext c =? 0); cbn [negb].
    - apply wp_ret, Hrest; try done. by rewrite Et.
    - destruct Hh2 as (cn & Hcn & ->). apply wp_bind, (wp_tcb_set _ _ cn); [by rewrite Et|].
      apply wp_ret, Hrest; try done. cbn. by rewrite Et. }
  apply wp_bind. destruct (tcbSchedPrev c =? 0) eqn:Ep; cbn [negb].
  - subst h1. destruct (tcbSchedNext c =? 0) eqn:En; cbn [when].
    + apply wp_bind. eapply wp_mono; [by apply (removeFromBitmap_spec _ _ rq)|].
      intros [] k1 (m1 & m2 & -> & Hb'). apply wp_ret, Hmid; try done.
      assert (l1 ++ l2 = []) as -> by (apply Hemp; split; by apply Z.eqb_eq). done.
    + apply wp_bind, wp_ret. apply wp_ret, Hmid; try done. apply bitmap_keep; [done|].
      rewrite Erq, Hemp. split; [by destruct l1|]. intros [_ E]. by rewrite E in En.
  - destruct Hh1 as (cp & Hcp & ->). apply wp_bind, (wp_tcb_set _ _ cp); [done|]. apply wp_ret, Hmid; try done.
    apply bitmap_keep; [done|]. rewrite Erq, Hemp. split; [by destruct l1|].
    intros [E _]. by rewrite E in Ep.
Qed.

(** The effect of an operation on the abstract queues, given the thread's flag. *)
Definition rq_enqueue (t : Z) (c : tcb_t) (rq : Z → list Z) : Z → list Z :=
  if tcbQueued c then rq else rq_push t (tcbPriority c) rq.
Definition rq_requeue (t : Z) (c : tcb_t) (rq : Z → list Z) : Z → list Z :=
  if tcbQueued c then rq else rq_append t (tcbPriority c) rq.
Definition rq_dequeue (t : Z) (c : tcb_t) (rq : Z → list Z) : Z → list Z :=
  if tcbQueued c then rq_remove t (tcbPriority c) rq else rq.

Lemma tcbSchedEnqueue_spec k rq t c :
  sched_ok k rq → tcbs k !! t = Some c →
  wp (tcbSchedEnqueue t) (λ _ k', sched_ok k' (rq_enqueue t c rq) ∧ only_queues k k') k.
Proof.
  intros H Hc. unfold rq_enqueue. destruct (tcbQueued c) eqn:E; [|by apply tcbSchedEnqueue_push].
  apply wp_bind, (wp_tcb_at _ c); [done|]. rewrite E. apply wp_ret. split; [done|apply only_queues_refl].
Qed.

Lemma tcbSchedAppend_spec k rq t c :
  sched_ok k rq → tcbs k !! t = Some c →
  wp (tcbSchedAppend t) (λ _ k', sched_ok k' (rq_requeue t c rq) ∧ only_queues k k') k.
Proof.
  intros H Hc. unfold rq_requeue. destruct (tcbQueued c) eqn:E; [|by apply tcbSchedAppend_append].
  apply wp_bind, (wp_tcb_at _ c); [done|]. rewrite E. apply wp_ret. split; [done|apply only_queues_refl].
Qed.

Lemma tcbSchedDequeue_spec k rq t c :
  sched_ok k rq → tcbs k !! t = Some c →
  wp (tcbSchedDequeue t) (λ _ k', sched_ok k' (rq_dequeue t c rq) ∧ only_queues k k') k.
Proof.
  intros H Hc. unfold rq_dequeue. destruct (tcbQueued c) eqn:E; [by apply tcbSchedDequeue_remove|].
  apply wp_bind, (wp_tcb_at _ c); [done|]. rewrite E. apply wp_ret. split; [done|apply only_queues_refl].
Qed.

(** C15: the ready queues implement a list of threads per priority: with the
    invariant, [tcbSchedEnqueue] puts a thread that is on no queue at the front
    of its priority's list, [tcbSchedAppend] at its end, [tcbSchedDequeue] takes
    a queued thread out wherever it is; each is a no-op in the other case, each
    keeps the invariant (links, flags and both bitmap levels), touches no other
    field of any thread and nothing else of the kernel state, and never follows
    a bad pointer. *)
Theorem ready_queues_refine_lists k rq t c :
  sched_ok k rq → tcbs k !! t = Some c →
  wp (tcbSchedEnqueue t) (λ _ k', sched_ok k' (rq_enqueue t c rq) ∧ only_queues k k') k ∧
  wp (tcbSchedAppend t) (λ _ k', sched_ok k' (rq_requeue t c rq) ∧ only_queues k k') k ∧
  wp (tcbSchedDequeue t) (λ _ k', sched_ok k' (rq_dequeue t c rq) ∧ only_queues k k') k.
Proof.
  intros H Hc. split; [|split].
  - by apply tcbSchedEnqueue_spec.
  - by apply tcbSchedAppend_spec.
  - by apply tcbSchedDequeue_spec.
Qed.

(** ** Choosing a thread *)

Definition runnable (k : ks) (t : Z) : Prop :=
  ∃ c, tcbs k !! t = Some c ∧ isRunnable_state (tsType c) = true.
Definition queues_runnable (k : ks) (rq : Z → list Z) : Prop := ∀ p t, t ∈ rq p → runnable k t.

Lemma oq_field {B} (f : tcb_t → B) k k' u c :
  (∀ x, f (sched_core x) = f x) → only_queues k k' → tcbs k !! u = Some c →
  ∃ c', tcbs k' !! u = Some c' ∧ f c' = f c.
Proof.
  intros Hf [Ht _] Hc. specialize (Ht u). rewrite Hc in Ht.
  destruct (tcbs k' !! u) as [c'|]; [|done]. exists c'. split; [done|].
  cbn [fmap option_fmap option_map] in Ht. apply (inj Some) in Ht.
  by rewrite <- (Hf c'), Ht, Hf.
Qed.

Lemma oq_runnable k k' t : only_queues k k' → runnable k t → runnable k' t.
Proof.
  intros Ho (c & Hc & Hr). destruct (oq_field tsType k k' t c ltac:(done) Ho Hc) as (c' & Hc' & E).
  exists c'. by rewrite E.
Qed.

Lemma isRunnable_spec k t c : tcbs k !! t = Some c →
  wp (isRunnable t) (λ r k', r = isRunnable_state (tsType c) ∧ k' = k) k.
Proof. intros Hc. by apply wp_bind, (wp_tcb_at _ c). Qed.

(** The head of a list, removed. *)
Lemma rq_dequeue_head k rq p t l c :
  sched_ok k rq → rq p = t :: l → tcbs k !! t = Some c → rq_dequeue t c rq = <[p := l]> rq.
Proof.
  intros H Hl Hc. assert (Hin : t ∈ rq p) by (rewrite Hl; set_solver).
  destruct (so_in _ _ H _ _ Hin) as (Hp & x & Hx & Hpx & Hqx). simplify_eq.
  unfold rq_dequeue, rq_remove. rewrite Hqx, Hl. rewrite filter_cons_False by naive_solver.
  rewrite filter_ne_id; [done|].
  destruct (queue_of _ _ _ H Hp) as (q & _ & Hd). rewrite Hl in Hd.
  destruct Hd as ([Hnt _]%NoDup_cons & _). done.
Qed.

(** What [chooseThread] leaves: the idle thread when every list is empty, or
    else the head of the highest list that is not. *)
Definition chosen (k : ks) (rq : Z → list Z) (k' : ks) : Prop :=
  ((∀ p, prio_ok p → rq p = []) ∧ ksCurThread k' = ksIdleThread k ∧ sched_ok k' rq) ∨
  (∃ p t l, prio_ok p ∧ rq p = t :: l ∧ (∀ p', prio_ok p' → p < p' → rq p' = []) ∧
     ksCurThread k' = t ∧ sched_ok k' (<[p := l]> rq)).

(** The state apart from the running thread and the queues. *)
Definition same_but_current (k k' : ks) : Prop :=
  only_queues k (k' <| ksCurThread := ksCurThread k |>).

Lemma sched_ok_ext k k' rq :
  tcbs k' = tcbs k → ksReadyQueues k' = ksReadyQueues k →
  ksReadyQueuesL1Bitmap k' = ksReadyQueuesL1Bitmap k →
  ksReadyQueuesL2Bitmap k' = ksReadyQueuesL2Bitmap k → sched_ok k rq → sched_ok k' rq.
Proof.
  intros Et Eq E1 E2 []. split; unfold bitmaps_of; rewrite ?Et, ?Eq, ?E1, ?E2; done.
Qed.

Lemma lor_shift_add a b : 0 ≤ a < 8 → 0 ≤ b < 32 → Z.lor (l1index_to_prio a) b = 32 * a + b.
Proof.
  intros Ha Hb. unfold l1index_to_prio, wordRadix.
  rewrite wrap32_small by (rewrite Z.shiftl_mul_pow2 by lia; unfold is_word, word_mod; lia).
  rewrite Z.shiftl_mul_pow2 by lia. change (2 ^ 5) with 32. rewrite (Z.mul_comm 32 a).
  rewrite <- Z.lxor_lor; [rewrite <- Z.add_nocarry_lxor; [done|]|];
    apply Z.bits_inj'; intros i Hi; rewrite Z.land_spec, Z.bits_0;
    (destruct (Z.lt_ge_cases i 5);
      [change 32 with (2 ^ 5); rewrite Z.mul_pow2_bits_low by lia; done
      |rewrite (small_testbit b 5) by (simpl; lia); apply andb_false_r]).
Qed.

Lemma chooseThread_spec k rq :
  sched_ok k rq → queues_runnable k rq →
  wp chooseThread (λ _ k', chosen k rq k' ∧ same_but_current k k') k.
Proof.
  intros H Hr. pose proof (so_bitmaps _ _ H) as Hb. unfold chooseThread.
  apply wp_bind, wp_gets. cbn [CONFIG_NUM_DOMAINS]. change (1 <? CONFIG_NUM_DOMAINS) with false.
  apply wp_bind. unfold l1_at, wp at 1. simpl.
  destruct (Z.eqb_spec (ksReadyQueuesL1Bitmap k) 0) as [E|E]; cbn [negb].
  - split; [|by split]. left. split; [|split; [done|by apply (sched_ok_ext k)]].
    intros p Hp. destruct (prio_split p Hp) as (Hi & _). destruct (l2_word _ _ _ Hb Hp) as [w Hw].
    destruct (rq p) as [|t l] eqn:El; [done|]. exfalso.
    assert (Hbit : Z.testbit w (p mod 32) = true) by (apply (bm_bit2 _ _ _ Hb p w Hp Hw); by rewrite El).
    assert (H1 : Z.testbit (ksReadyQueuesL1Bitmap k) (p / 32) = true).
    { apply (bm_bit1 _ _ _ Hb); [lia|]. exists w. split; [done|]. intros ->. by rewrite Z.bits_0 in Hbit. }
    by rewrite E, Z.bits_0 in H1.
  - set (l1 := ksReadyQueuesL1Bitmap k) in *.
    replace (wordBits - 1 - clzl l1) with (Z.log2 l1) by (unfold wordBits, clzl; lia).
    assert (Hbit : Z.testbit l1 (Z.log2 l1) = true).
    { apply Z.bit_log2. pose proof (bm_word1 _ _ _ Hb) as [Hw _]. fold l1 in Hw. lia. }
    apply (bm_bit1 _ _ _ Hb) in Hbit as (w & Hw & Hwne); [|apply Z.log2_nonneg].
    destruct (bitmap_highest _ _ _ _ Hb E Hw) as (Hi & _ & Hj & Hp & Hne & Htop). fold l1 in Hi, Hp, Hne, Htop.
    apply wp_bind, (wp_l2_at _ w); [lia|done|].
    replace (wordBits - 1 - clzl w) with (Z.log2 w) by (unfold wordBits, clzl; lia).
    rewrite lor_shift_add by done. set (p := 32 * Z.log2 l1 + Z.log2 w) in *.
    apply wp_bind, wp_index. destruct (queue_of _ _ _ H Hp) as (q & Hq & Hl).
    apply wp_bind, (wp_queue_at _ q); [apply Hp|done|].
    destruct (rq p) as [|t l] eqn:El; [done|].
    pose proof (dlist_nonzero _ _ _ _ Hl) as Hz. destruct Hl as (_ & _ & Hh & _). simpl in Hh. rewrite Hh.
    apply wp_bind, wp_assert; [apply negb_true_iff, Z.eqb_neq; set_solver|].
    destruct (Hr p t) as (c & Hc & Hrun); [rewrite El; set_solver|].
    apply wp_bind. eapply wp_mono; [by apply isRunnable_spec|]. intros r k0 [-> ->].
    apply wp_bind, wp_assert; [done|]. unfold switchToThread. apply wp_bind.
    eapply wp_mono; [by apply (tcbSchedDequeue_spec _ rq t c)|]. intros [] k1 [H1 O1].
    apply wp_modify. rewrite (rq_dequeue_head k rq p t l c H El Hc) in H1. split.
    + right. exists p, t, l. split_and!; try done. by apply (sched_ok_ext k1).
    + destruct O1 as [Ot (R1 & R2 & R3 & R)]. split; [done|]. split_and!; try done; apply R.
Qed.

(** [chooseThread] switches to the head of the highest priority that has a
    ready thread, and takes it off its queue; to the idle thread exactly when
    there is none.  Its assertions hold. *)
Theorem chooseThread_highest k rq :
  sched_ok k rq → queues_runnable k rq →
  wp chooseThread (λ _ k', chosen k rq k' ∧ same_but_current k k') k.
Proof. apply chooseThread_spec. Qed.

(** ** [schedule] *)

(** The queues after the running thread, if it can go on, has been put back. *)
Definition rq_with_current (k : ks) (rq : Z → list Z) (c : tcb_t) : Z → list Z :=
  if isRunnable_state (tsType c) then rq_enqueue (ksCurThread k) c rq else rq.

Lemma rq_enqueue_elem t c rq p u :
  u ∈ rq_enqueue t c rq p ↔ u ∈ rq p ∨ (tcbQueued c = false ∧ u = t ∧ p = tcbPriority c).
Proof.
  unfold rq_enqueue, rq_push. destruct (tcbQueued c); [naive_solver|].
  destruct (decide (tcbPriority c = p)) as [<-|Hne].
  - rewrite fn_lookup_insert. set_solver.
  - rewrite fn_lookup_insert_ne by done. naive_solver.
Qed.

Lemma enqueue_current_spec k rq c :
  sched_ok k rq → queues_runnable k rq → tcbs k !! ksCurThread k = Some c →
  wp enqueue_current_if_runnable (λ _ k',
    sched_ok k' (rq_with_current k rq c) ∧ queues_runnable k' (rq_with_current k rq c) ∧
    only_queues k k') k.
Proof.
  intros H Hr Hc. unfold enqueue_current_if_runnable, rq_with_current. apply wp_bind, wp_gets.
  apply wp_bind. eapply wp_mono; [by apply isRunnable_spec|]. intros r k0 [-> ->].
  destruct (isRunnable_state (tsType c)) eqn:E; cbn [when].
  - eapply wp_mono; [by apply tcbSchedEnqueue_spec|]. intros [] k1 [H1 O1]. split_and!; try done.
    intros p u Hu. apply (oq_runnable k); [done|].
    apply rq_enqueue_elem in Hu as [Hu|(_ & -> & _)]; [by eapply Hr|by exists c].
  - apply wp_ret. split; [done|]. split; [done|apply only_queues_refl].
Qed.

(** The abstract queues matter only pointwise. *)
#[export] Instance sched_ok_proper :
  Proper (eq ==> pointwise_relation Z eq ==> impl) sched_ok.
Proof.
  intros k _ <- rq rq' E [H1 H2 H3 H4 H5 [B1 B2 B3 B4 B5]].
  split; [done|..]; [| | |done|split; [done..| |done]]; intros *; rewrite <- E; eauto.
Qed.

(** Taking a thread off whatever queue it is on. *)
Definition rq_without (t : Z) (rq : Z → list Z) : Z → list Z := λ p, filter (.≠ t) (rq p).

Lemma rq_dequeue_without k rq t c p :
  sched_ok k rq → tcbs k !! t = Some c → rq_dequeue t c rq p = rq_without t rq p.
Proof.
  intros H Hc. unfold rq_dequeue, rq_remove, rq_without.
  assert (Hout : ∀ p', t ∈ rq p' → tcbQueued c = true ∧ tcbPriority c = p').
  { intros p' Hin. destruct (so_in _ _ H _ _ Hin) as (_ & x & Hx & Hp & Hq). by simplify_eq. }
  destruct (tcbQueued c).
  - destruct (decide (tcbPriority c = p)) as [<-|Hne]; [by rewrite fn_lookup_insert|].
    rewrite fn_lookup_insert_ne, filter_ne_id; [done| |done]. by intros [_ ?]%Hout.
  - rewrite filter_ne_id; [done|]. by intros [? _]%Hout.
Qed.

(** What the running of [schedule] with a given pending action achieves. *)
Definition scheduled (k : ks) (rq : Z → list Z) (c : tcb_t) (k' : ks) : Prop :=
  let action := ksSchedulerAction k in
  ksSchedulerAction k' = SchedulerAction_ResumeCurrentThread ∧
  (action = SchedulerAction_ResumeCurrentThread → k' = k) ∧
  (action = SchedulerAction_ChooseNewThread → chosen k (rq_with_current k rq c) k') ∧
  (action ≠ SchedulerAction_ResumeCurrentThread → action ≠ SchedulerAction_ChooseNewThread →
   ksCurThread k' = action ∧ sched_ok k' (rq_without action (rq_with_current k rq c))).

(** All that is not the scheduler's business. *)
Definition switched (k k' : ks) : Prop :=
  (∀ u, sched_core <$> tcbs k' !! u = sched_core <$> tcbs k !! u) ∧
  objects k' = objects k ∧ eps k' = eps k ∧ ksIdleThread k' = ksIdleThread k ∧
  ksCurDomain k' = ksCurDomain k ∧ ksDomainTime k' = ksDomainTime k.

Lemma schedule_spec k rq c :
  sched_ok k rq → queues_runnable k rq → tcbs k !! ksCurThread k = Some c → ksDomainTime k ≠ 0 →
  (ksSchedulerAction k = SchedulerAction_ResumeCurrentThread ∨
   ksSchedulerAction k = SchedulerAction_ChooseNewThread ∨ is_Some (tcbs k !! ksSchedulerAction k)) →
  wp schedule (λ _ k', scheduled k rq c k' ∧
    switched k k') k.
Proof.
  intros H Hr Hc Hd Ha. unfold schedule. apply wp_bind, wp_gets.
  destruct (Z.eqb_spec (ksSchedulerAction k) SchedulerAction_ChooseNewThread) as [E|E].
  - apply wp_bind. eapply wp_mono; [by apply enqueue_current_spec|]. intros [] k1 (H1 & Hr1 & O1).
    apply wp_bind, wp_gets. apply wp_bind.
    destruct O1 as [Ot1 (E1 & E2 & E3 & E4 & E5 & E6 & E7 & E8 & E9)].
    destruct (Z.eqb_spec (ksDomainTime k1) 0); [congruence|]. apply wp_ret.
    apply wp_bind. eapply wp_mono; [by apply chooseThread_spec|]. intros [] k2 [Hch Hs2].
    apply wp_modify. split; [|destruct Hs2 as [Ot2 (F1 & F2 & F3 & F4 & F5 & F6 & F7 & F8 & F9)]].
    2:{ cbn in F2, F4, F8, F9. split; [intros u; exact (eq_trans (Ot2 u) (Ot1 u))|].
        split; [exact (eq_trans F1 E1)|]. split_and!; cbn; congruence. }
    split; [done|]. split; [by rewrite E|]. split; [|done]. intros _.
    destruct Hch as [(Hemp & Hcur & Hok)|(p & t & l & Hp & Hl & Htop & Hcur & Hok)].
    + left. split; [done|]. split; [by rewrite <- E4|]. by apply (sched_ok_ext k2).
    + right. exists p, t, l. split_and!; try done. by apply (sched_ok_ext k2).
  - destruct (Z.eqb_spec (ksSchedulerAction k) SchedulerAction_ResumeCurrentThread) as [E'|E']; cbn [negb].
    + apply wp_ret. split; [split; [done|split_and!; done]|by split_and!].
    + destruct Ha as [Ha|[Ha|[ca Hca]]]; [done|done|].
      apply wp_bind. eapply wp_mono; [by apply enqueue_current_spec|]. intros [] k1 (H1 & Hr1 & O1).
      apply wp_bind, wp_gets.
      destruct (oq_field tsType _ _ _ _ ltac:(done) O1 Hca) as (ca1 & Hca1 & _).
      destruct O1 as [Ot1 (E1 & E2 & E3 & E4 & E5 & E6 & E7 & E8 & E9)]. rewrite E5.
      unfold switchToThread. apply wp_bind, wp_bind.
      eapply wp_mono; [by apply (tcbSchedDequeue_spec _ (rq_with_current k rq c) _ ca1)|]. intros [] k2 [H2 O2].
      apply wp_modify, wp_modify. split; [|destruct O2 as [Ot2 (F1 & F2 & F3 & F4 & F5 & F6 & F7 & F8 & F9)]].
      2:{ split; [intros u; exact (eq_trans (Ot2 u) (Ot1 u))|]. split; [exact (eq_trans F1 E1)|]. split_and!; cbn; congruence. }
      split; [done|]. split; [done|]. split; [done|]. intros _ _. split; [done|].
      apply (sched_ok_ext k2); try done. eapply sched_ok_proper; [done| |exact H2].
      intros p. by apply (rq_dequeue_without k1).
Qed.

(** [schedule] carries out the pending action and resets it: nothing when the
    running thread goes on; otherwise the running thread, if still runnable, is
    first put at the front of its queue, and then the thread asked for runs, or
    the best one is chosen. *)
Theorem schedule_correct k rq c :
  sched_ok k rq → queues_runnable k rq → tcbs k !! ksCurThread k = Some c → ksDomainTime k ≠ 0 →
  (ksSchedulerAction k = SchedulerAction_ResumeCurrentThread ∨
   ksSchedulerAction k = SchedulerAction_ChooseNewThread ∨ is_Some (tcbs k !! ksSchedulerAction k)) →
  wp schedule (λ _ k', scheduled k rq c k' ∧
    switched k k') k.
Proof. apply schedule_spec. Qed.

(** ** Changes of a thread the queues do not see *)

Lemma sched_ok_set k rq t c c' :
  sched_ok k rq → tcbs k !! t = Some c →
  tcbQueued c' = tcbQueued c → tcbPriority c' = tcbPriority c → tcbDomain c' = tcbDomain c →
  tcbSchedNext c' = tcbSchedNext c → tcbSchedPrev c' = tcbSchedPrev c →
  sched_ok (k <| tcbs ::= <[t := c']> |>) rq.
Proof.
  intros [H1 H2 H3 H4 H5 H6] Hc Eq Ep Ed En Epv. split; try done; cbn.
  - intros p q Hp Hq. eapply dlist_frame; [|by apply H2]. intros u _.
    destruct (decide (t = u)) as [->|Hne]; [|by rewrite lookup_insert_ne].
    rewrite lookup_insert_eq, Hc. cbn. by rewrite En, Epv.
  - intros p u Hu. destruct (H3 p u Hu) as (Hp & x & Hx & Hpx & Hqx). split; [done|].
    destruct (decide (t = u)) as [->|Hne].
    + exists c'. rewrite lookup_insert_eq. simplify_eq. by rewrite Eq.
    + exists x. by rewrite lookup_insert_ne.
  - intros u x Hx Hqx. destruct (decide (t = u)) as [->|Hne].
    + rewrite lookup_insert_eq in Hx. simplify_eq. rewrite Ep. apply H4; [done|congruence].
    + rewrite lookup_insert_ne in Hx by done. by apply H4.
  - intros u x Hx. destruct (decide (t = u)) as [->|Hne].
    + rewrite lookup_insert_eq in Hx. simplify_eq. rewrite Ep, Ed. by apply H5.
    + rewrite lookup_insert_ne in Hx by done. by apply H5.
Qed.

(** A thread on no queue can take any valid priority. *)
Lemma sched_ok_set_prio k rq t c p :
  sched_ok k rq → tcbs k !! t = Some c → tcbQueued c = false → prio_ok p →
  sched_ok (k <| tcbs ::= <[t := c <| tcbPriority := p |>]> |>) rq.
Proof.
  intros [H1 H2 H3 H4 H5 H6] Hc Hq Hp. split; try done; cbn.
  - intros p' q Hp' Hq'. eapply dlist_frame; [|by apply H2]. intros u _.
    destruct (decide (t = u)) as [->|Hne]; [|by rewrite lookup_insert_ne].
    rewrite lookup_insert_eq, Hc. done.
  - intros p' u Hu. destruct (H3 p' u Hu) as (Hp' & x & Hx & Hpx & Hqx). split; [done|].
    exists x. rewrite lookup_insert_ne; [done|]. intros ->. congruence.
  - intros u x Hx Hqx. destruct (decide (t = u)) as [->|Hne].
    + rewrite lookup_insert_eq in Hx. simplify_eq. cbn in Hqx. congruence.
    + rewrite lookup_insert_ne in Hx by done. by apply H4.
  - intros u x Hx. destruct (decide (t = u)) as [->|Hne].
    + rewrite lookup_insert_eq in Hx. simplify_eq. cbn. destruct (H5 u c Hc) as (? & _ & ?). done.
    + rewrite lookup_insert_ne in Hx by done. by apply H5.
Qed.

Lemma rq_append_elem t p rq p' u :
  u ∈ rq_append t p rq p' ↔ u ∈ rq p' ∨ (u = t ∧ p' = p).
Proof.
  unfold rq_append. destruct (decide (p = p')) as [<-|Hne].
  - rewrite fn_lookup_insert. set_solver.
  - rewrite fn_lookup_insert_ne by done. naive_solver.
Qed.

(** ** Time slices *)

Lemma set_slice_runnable k x c n u :
  tcbs k !! x = Some c → runnable k u →
  runnable (k <| tcbs ::= <[x := c <| tcbTimeSlice := n |>]> |>) u.
Proof.
  intros Hc (cu & Hcu & Hru). destruct (decide (x = u)) as [<-|Hne].
  - eexists. split; [apply lookup_insert_eq|]. by simplify_eq.
  - exists cu. split; [|done]. cbn. by rewrite lookup_insert_ne.
Qed.

(** The timer interrupt at the end of a slice. *)
Lemma timerTick_expired k rq c :
  sched_ok k rq → queues_runnable k rq → tcbs k !! ksCurThread k = Some c →
  tsType c = ThreadState_Running → tcbQueued c = false → tcbTimeSlice c ≤ 1 →
  ksSchedulerAction k = SchedulerAction_ResumeCurrentThread →
  wp timerTick (λ _ k', sched_ok k' (rq_append (ksCurThread k) (tcbPriority c) rq) ∧
    queues_runnable k' (rq_append (ksCurThread k) (tcbPriority c) rq) ∧
    ksCurThread k' = ksCurThread k ∧ ksDomainTime k' = ksDomainTime k ∧
    ksSchedulerAction k' = SchedulerAction_ChooseNewThread ∧
    ∃ c', tcbs k' !! ksCurThread k = Some c' ∧ tsType c' = ThreadState_Running ∧
      tcbTimeSlice c' = CONFIG_TIME_SLICE ∧ tcbQueued c' = true) k.
Proof.
  intros H Hr Hc Hst Hnq Hts Hact. set (x := ksCurThread k) in *.
  unfold timerTick. apply wp_bind, wp_gets. apply wp_bind, (wp_tcb_at _ c); [done|].
  rewrite bool_decide_true by done. cbn [when]. apply wp_bind.
  destruct (Z.ltb_spec 1 (tcbTimeSlice c)); [lia|].
  apply wp_bind, (wp_tcb_set _ _ c); [done|]. set (c1 := c <| tcbTimeSlice := CONFIG_TIME_SLICE |>).
  set (k1 := k <| tcbs ::= <[x := c1]> |>).
  assert (H1 : sched_ok k1 rq) by (by apply (sched_ok_set k rq x c c1)).
  assert (Hc1 : tcbs k1 !! x = Some c1) by apply lookup_insert_eq.
  apply wp_bind. eapply wp_mono; [by apply (tcbSchedAppend_append _ rq x c1)|].
  intros [] k2 [H2 O2]. unfold rescheduleRequired. apply wp_bind, wp_gets.
  pose proof (oq_rest _ _ O2) as (E1 & E2 & E3 & E4 & E5 & E6 & E7 & E8 & E9). cbn in E3, E5, E9.
  rewrite E5, Hact. cbn [negb andb when Z.eqb SchedulerAction_ResumeCurrentThread].
  apply wp_bind, wp_ret. apply wp_modify. change (1 <? CONFIG_NUM_DOMAINS) with false. cbn [when].
  apply wp_ret. split; [by apply (sched_ok_ext k2)|]. split.
  { intros p u Hu. apply (oq_runnable k1 k2 u O2). apply set_slice_runnable; [done|].
    apply rq_append_elem in Hu as [Hu|[-> _]]; [by eapply Hr|]. exists c. by rewrite Hst. }
  do 3 (split; [done|]).
  destruct (oq_field (λ y, (tsType y, tcbTimeSlice y)) _ _ _ _ ltac:(done) O2 Hc1) as (c3 & Hc3 & Ec3).
  injection Ec3 as Et3 Es3. exists c3. split; [done|]. split; [by rewrite Et3|]. split; [done|].
  assert (Hin : x ∈ rq_append x (tcbPriority c) rq (tcbPriority c)) by (apply rq_append_elem; auto).
  destruct (so_in _ _ H2 _ _ Hin) as (_ & y & Hy & _ & Hqy). congruence.
Qed.

(** Round robin: when the time slice of the running thread is used up, the
    timer interrupt gives it a new slice and puts it at the end of its
    priority's queue, and the thread that had been waiting longest there runs
    next, unless a higher priority has a ready thread. *)
Theorem timer_round_robin k rq c t l :
  sched_ok k rq → queues_runnable k rq → tcbs k !! ksCurThread k = Some c →
  tsType c = ThreadState_Running → tcbQueued c = false → tcbTimeSlice c ≤ 1 →
  ksSchedulerAction k = SchedulerAction_ResumeCurrentThread → ksDomainTime k ≠ 0 →
  rq (tcbPriority c) = t :: l →
  (∀ p, prio_ok p → tcbPriority c < p → rq p = []) →
  wp (timerTick;; schedule) (λ _ k',
    ksCurThread k' = t ∧
    sched_ok k' (<[tcbPriority c := l ++ [ksCurThread k]]> rq) ∧
    (∃ c', tcbs k' !! ksCurThread k = Some c' ∧ tcbTimeSlice c' = CONFIG_TIME_SLICE) ∧
    ksSchedulerAction k' = SchedulerAction_ResumeCurrentThread) k.
Proof.
  intros H Hr Hc Hst Hnq Hts Hact Hd Hl Htop. set (x := ksCurThread k) in *.
  set (p := tcbPriority c) in *. set (rq2 := rq_append x p rq).
  apply wp_bind. eapply wp_mono; [by apply (timerTick_expired k rq c)|].
  intros [] k3 (H3 & Hr3 & Ecur & Edt & Eact & c3 & Hc3 & Et3 & Es3 & Hq3).
  eapply wp_mono.
  { apply (schedule_spec k3 rq2 c3); [done|done|by rewrite Ecur|congruence|auto]. }
  intros [] k4 [(Ha4 & _ & Hch & _) [Hcore _]]. specialize (Hch Eact).
  assert (Ewc : rq_with_current k3 rq2 c3 = rq2)
    by (unfold rq_with_current, rq_enqueue; by rewrite Et3, Hq3).
  rewrite Ewc in Hch.
  assert (El2 : rq2 p = t :: l ++ [x]) by (unfold rq2, rq_append; by rewrite fn_lookup_insert, Hl).
  assert (Hp : prio_ok p) by (apply (so_tcb _ _ H x c Hc)).
  destruct Hch as [(Hemp & _)|(p' & t' & l' & Hp' & Hl' & Htop' & Hcur & Hok)].
  { specialize (Hemp p Hp). congruence. }
  assert (p' = p) as ->.
  { destruct (Z.lt_trichotomy p' p) as [Hlt|[->|Hgt]]; [|done|].
    - specialize (Htop' p Hp Hlt). congruence.
    - unfold rq2, rq_append in Hl'. rewrite fn_lookup_insert_ne in Hl' by lia.
      rewrite (Htop p' Hp' Hgt) in Hl'. done. }
  rewrite El2 in Hl'. injection Hl' as <- <-. split; [done|]. split; [|split; [|done]].
  - eapply sched_ok_proper; [done| |exact Hok]. intros p0. unfold rq2, rq_append.
    destruct (decide (p = p0)) as [<-|Hne]; [by rewrite !fn_lookup_insert|].
    by rewrite !fn_lookup_insert_ne.
  - fold x in Hc3. specialize (Hcore x). rewrite Hc3 in Hcore. destruct (tcbs k4 !! x) as [c4|] eqn:Hc4; [|done].
    cbn [fmap option_fmap option_map] in Hcore. apply (inj Some) in Hcore.
    exists c4. split; [done|]. change (tcbTimeSlice (sched_core c4) = CONFIG_TIME_SLICE).
    by rewrite Hcore.
Qed.

(** ** The queues at boot, and a small system *)

(** Empty queues and bitmaps, as at boot. *)
Definition queues_boot (k : ks) : Prop :=
  ksReadyQueues k = replicate 256 (mk_queue 0 0) ∧
  ksReadyQueuesL1Bitmap k = 0 ∧ ksReadyQueuesL2Bitmap k = replicate 9 0 ∧
  map_Forall (λ t c, t ≠ 0 ∧ prio_ok (tcbPriority c) ∧ tcbDomain c = 0 ∧ tcbQueued c = false) (tcbs k).

Lemma sched_ok_boot k : queues_boot k → sched_ok k (λ _, []).
Proof.
  intros (Hq & H1 & H2 & Ht). split.
  - by rewrite Hq.
  - intros p q _ Hl. rewrite Hq in Hl. apply lookup_replicate in Hl as [-> _].
    split; [constructor|]. by split_and!.
  - intros p t []%elem_of_nil.
  - intros t c Hc Hqd. apply Ht in Hc as (_ & _ & _ & ?). congruence.
  - intros t c Hc. by apply Ht in Hc as (? & ? & ? & _).
  - unfold bitmaps_of. rewrite H1, H2. split.
    + done.
    + done.
    + by apply Forall_replicate.
    + intros p w _ Hw. apply lookup_replicate in Hw as [-> _]. by rewrite Z.bits_0.
    + intros i _. rewrite Z.bits_0. split; [done|]. intros (w & Hw & Hne).
      by apply lookup_replicate in Hw as [-> _].
Qed.

Definition demo_tcb (st : thread_state) (prio : Z) : tcb_t :=
  mk_tcb st false 0 0 false false 0 seL4_Fault_NullFault lookup_fault_invalid_root 0 255 prio 1 0 0 0 0 0 0 ∅.

Definition demo_waiter (st : thread_state) (prio obj badge next prev : Z) : tcb_t :=
  demo_tcb st prio <| blockingObject := obj |> <| blockingIPCBadge := badge |>
    <| tcbEPNext := next |> <| tcbEPPrev := prev |>.
Definition demo_bound : tcb_t :=
  demo_waiter ThreadState_BlockedOnReceive 110 720 0 0 0 <| tcbBoundNotification := 616 |>.

(** The idle thread, two threads of priority 100, the first of them running,
    one of priority 120 that waits for a notification, three that wait to send
    and one that waits to receive and is bound to another notification. *)
Definition demo_boot : ks :=
  mk_ks (list_to_map
      [(8, demo_tcb ThreadState_IdleThreadState 0); (16, demo_tcb ThreadState_Running 100);
       (32, demo_tcb ThreadState_Running 100);
       (48, demo_waiter ThreadState_BlockedOnNotification 120 600 0 0 0);
       (64, demo_waiter ThreadState_BlockedOnSend 90 700 1 80 0);
       (80, demo_waiter ThreadState_BlockedOnSend 90 700 2 96 64);
       (96, demo_waiter ThreadState_BlockedOnSend 90 700 1 0 80); (112, demo_bound)])
    (list_to_map [(600, mk_ntfn NtfnState_Waiting (mk_queue 48 48) 0 0);
       (616, mk_ntfn NtfnState_Idle (mk_queue 0 0) 0 112)])
    (list_to_map [(700, mk_ep EPState_Send (mk_queue 64 96)); (720, mk_ep EPState_Recv (mk_queue 112 112))])
    (replicate 256 (mk_queue 0 0)) 0 (replicate 9 0) 16 8 0 [(0, 1)] 0 0 1 0
    ∅ ∅ [] lookup_fault_invalid_root seL4_Fault_NullFault (mk_error 0 0 0 0 0 false 0) 0 []
    ∅ [0; 0; 0] [] (mk_x86 [0; 0; 0; 0] 0 0 0 []).

(** The same with the second thread on its queue. *)
Definition demo_ks : ks := snd (tcbSchedEnqueue 32 demo_boot).
Definition demo_rq : Z → list Z := <[100 := [32]]> (λ _, []).

Lemma demo_boot_ok : sched_ok demo_boot (λ _, []).
Proof.
  apply sched_ok_boot. split_and!; try done. apply map_Forall_lookup. intros t c Hc.
  cbn in Hc. repeat (apply lookup_insert_Some in Hc as [[<- <-]|[_ Hc]]; [done|]). done.
Qed.

Lemma demo_ok : sched_ok demo_ks demo_rq.
Proof.
  pose proof (tcbSchedEnqueue_spec demo_boot _ 32 (demo_tcb ThreadState_Running 100) demo_boot_ok eq_refl) as H.
  unfold wp in H. change (sched_ok (snd (tcbSchedEnqueue 32 demo_boot)) demo_rq).
  destruct (tcbSchedEnqueue 32 demo_boot) as [[[]|] k]; [|done]. apply H.
Qed.

Lemma demo_queues_runnable : queues_runnable demo_ks demo_rq.
Proof.
  intros p t Ht. unfold demo_rq in Ht. destruct (decide (100 = p)) as [<-|Hne].
  - rewrite fn_lookup_insert in Ht. apply list_elem_of_singleton in Ht as ->.
    exists (demo_tcb ThreadState_Running 100 <| tcbQueued := true |>). split; vm_compute; reflexivity.
  - rewrite fn_lookup_insert_ne in Ht by done. by apply elem_of_nil in Ht.
Qed.

Lemma ready_queues_refine_lists_witness :
  wp (tcbSchedEnqueue 16) (λ _ k',
    sched_ok k' (rq_enqueue 16 (demo_tcb ThreadState_Running 100) demo_rq) ∧ only_queues demo_ks k') demo_ks.
Proof.
  exact (proj1 (ready_queues_refine_lists demo_ks demo_rq 16 (demo_tcb ThreadState_Running 100)
    demo_ok eq_refl)).
Defined.

Lemma chooseThread_highest_witness :
  wp chooseThread (λ _ k', chosen demo_ks demo_rq k' ∧ same_but_current demo_ks k') demo_ks.
Proof. exact (chooseThread_highest demo_ks demo_rq demo_ok demo_queues_runnable). Defined.

Lemma schedule_correct_witness :
  wp schedule (λ _ k', scheduled demo_ks demo_rq (demo_tcb ThreadState_Running 100) k' ∧
    switched demo_ks k') demo_ks.
Proof.
  refine (schedule_correct demo_ks demo_rq (demo_tcb ThreadState_Running 100)
    demo_ok demo_queues_runnable eq_refl _ (or_introl eq_refl)). vm_compute. discriminate.
Defined.

Lemma timer_round_robin_witness :
  wp (timerTick;; schedule) (λ _ k',
    ksCurThread k' = 32 ∧
    sched_ok k' (<[100 := [] ++ [16]]> demo_rq) ∧
    (∃ c', tcbs k' !! 16 = Some c' ∧ tcbTimeSlice c' = CONFIG_TIME_SLICE) ∧
    ksSchedulerAction k' = SchedulerAction_ResumeCurrentThread) demo_ks.
Proof.
  refine (timer_round_robin demo_ks demo_rq (demo_tcb ThreadState_Running 100) 32 []
    demo_ok demo_queues_runnable eq_refl eq_refl eq_refl _ eq_refl _ eq_refl _).
  - vm_compute. discriminate.
  - vm_compute. discriminate.
  - intros p _ Hp. cbn in Hp. unfold demo_rq. rewrite fn_lookup_insert_ne; [done|lia].
Defined.
