(* ===== verification/Wakeup.v ===== *)
(** The invariant of the scheduler across the kernel's other code: which
    threads are queued, running or about to run, and how blocking a thread,
    waking one, changing a priority and rescheduling keep it. *)

From stdpp Require Import functions.
From S2P Require Import Prelude Kernel Scheduler.

Definition queued (k : ks) (t : Z) : Prop := ∃ c, tcbs k !! t = Some c ∧ tcbQueued c = true.

(** No runnable thread is forgotten: it is queued, running, or the pending
    action; [x] is excepted, a thread that has just been made runnable. *)
Record sched_inv_but (x : option Z) (k : ks) : Prop := {
  si_rq : ∃ rq, sched_ok k rq ∧ queues_runnable k rq;
  si_ptr : ∀ t c, tcbs k !! t = Some c → t ≠ SchedulerAction_ChooseNewThread;
  si_cur : is_Some (tcbs k !! ksCurThread k);
  si_dom : ksCurDomain k = 0 ∧ ksDomainTime k ≠ 0;
  si_action : ksSchedulerAction k = SchedulerAction_ResumeCurrentThread ∨
    ksSchedulerAction k = SchedulerAction_ChooseNewThread ∨ runnable k (ksSchedulerAction k);
  si_resume : ksSchedulerAction k = SchedulerAction_ResumeCurrentThread →
    runnable k (ksCurThread k) ∨ ksCurThread k = ksIdleThread k;
  si_lost : ∀ t, runnable k t → Some t ≠ x →
    queued k t ∨ t = ksCurThread k ∨ t = ksSchedulerAction k;
  si_idle : ∃ c, tcbs k !! ksIdleThread k = Some c ∧ tsType c = ThreadState_IdleThreadState
}.
Notation sched_inv := (sched_inv_but None).

(** What the scheduler's operations leave alone. *)
Definition same_threads (k k' : ks) : Prop :=
  (∀ u, sched_core <$> tcbs k' !! u = sched_core <$> tcbs k !! u) ∧
  objects k' = objects k ∧ eps k' = eps k ∧ ksCurThread k' = ksCurThread k ∧
  ksIdleThread k' = ksIdleThread k.

Lemma same_threads_refl k : same_threads k k.
Proof. by split_and!. Qed.
Lemma same_threads_trans k1 k2 k3 : same_threads k1 k2 → same_threads k2 k3 → same_threads k1 k3.
Proof. unfold same_threads. intros (A&?&?&?&?) (B&?&?&?&?). split_and!; congruence. Qed.

Lemma only_queues_threads k k' : only_queues k k' → same_threads k k'.
Proof. intros [H (?&?&?&?&?&?&?&?&?)]. by split_and!. Qed.

Lemma st_field {B} (f : tcb_t → B) k k' u c :
  (∀ x, f (sched_core x) = f x) → same_threads k k' → tcbs k !! u = Some c →
  ∃ c', tcbs k' !! u = Some c' ∧ f c' = f c.
Proof.
  intros Hf (Ht & _) Hc. specialize (Ht u). rewrite Hc in Ht.
  destruct (tcbs k' !! u) as [c'|]; [|done]. exists c'. split; [done|].
  cbn [fmap option_fmap option_map] in Ht. apply (inj Some) in Ht. by rewrite <- (Hf c'), Ht, Hf.
Qed.

Lemma st_field_back {B} (f : tcb_t → B) k k' u c' :
  (∀ x, f (sched_core x) = f x) → same_threads k k' → tcbs k' !! u = Some c' →
  ∃ c, tcbs k !! u = Some c ∧ f c' = f c.
Proof.
  intros Hf (Ht & _) Hc. specialize (Ht u). rewrite Hc in Ht.
  destruct (tcbs k !! u) as [c|]; [|done]. exists c. split; [done|].
  cbn [fmap option_fmap option_map] in Ht. apply (inj Some) in Ht. by rewrite <- (Hf c'), Ht, Hf.
Qed.

Lemma st_runnable k k' t : same_threads k k' → runnable k t ↔ runnable k' t.
Proof.
  intros Hs. split; intros (c & Hc & Hr).
  - destruct (st_field tsType _ _ _ _ ltac:(done) Hs Hc) as (c' & ? & E). exists c'. by rewrite E.
  - destruct (st_field_back tsType _ _ _ _ ltac:(done) Hs Hc) as (c' & ? & E). exists c'. by rewrite <- E.
Qed.

Lemma in_queue_queued k rq p t : sched_ok k rq → t ∈ rq p → queued k t.
Proof. intros H Ht. destruct (so_in _ _ H _ _ Ht) as (_ & c & Hc & _ & Hq). by exists c. Qed.

Lemma queued_in k rq t : sched_ok k rq → queued k t → ∃ p, t ∈ rq p.
Proof. intros H (c & Hc & Hq). exists (tcbPriority c). by apply (so_queued _ _ H). Qed.

(** The part of the invariant a change of the queues cannot break. *)
Lemma sched_inv_change k k' x y rq :
  sched_inv_but x k → same_threads k k' →
  ksCurDomain k' = ksCurDomain k → ksDomainTime k' = ksDomainTime k →
  sched_ok k' rq → queues_runnable k' rq →
  (ksSchedulerAction k' = SchedulerAction_ResumeCurrentThread ∨
   ksSchedulerAction k' = SchedulerAction_ChooseNewThread ∨ runnable k' (ksSchedulerAction k')) →
  (ksSchedulerAction k' = SchedulerAction_ResumeCurrentThread →
   ksSchedulerAction k = SchedulerAction_ResumeCurrentThread) →
  (∀ t, runnable k t → Some t ≠ y → queued k' t ∨ t = ksCurThread k ∨ t = ksSchedulerAction k') →
  sched_inv_but y k'.
Proof.
  intros I Hs Hd Hdt Hok Hr Ha Hres Hl. pose proof Hs as (Ht & En & Ee & Ec & Ei).
  split; try done.
  - by exists rq.
  - intros t c' Hc'. destruct (st_field_back tsType _ _ _ _ ltac:(done) Hs Hc') as (c & Hc & _).
    by eapply (si_ptr _ _ I).
  - rewrite Ec. destruct (si_cur _ _ I) as [c Hc].
    destruct (st_field tsType _ _ _ _ ltac:(done) Hs Hc) as (c' & Hc' & _). by rewrite Hc'.
  - rewrite Hd, Hdt. apply (si_dom _ _ I).
  - intros E. rewrite Ec, Ei, <- (st_runnable k k' _ Hs). by apply (si_resume _ _ I), Hres.
  - intros t Hrt Hne. rewrite Ec. apply Hl; [|done]. by apply (st_runnable k k' t Hs).
  - rewrite Ei. destruct (si_idle _ _ I) as (c & Hc & Hst).
    destruct (st_field tsType _ _ _ _ ltac:(done) Hs Hc) as (c' & Hc' & E). exists c'. by rewrite E.
Qed.

Lemma queued_after_enqueue k k' rq t c u :
  sched_ok k rq → tcbs k !! t = Some c → sched_ok k' (rq_enqueue t c rq) →
  queued k u ∨ u = t → queued k' u.
Proof.
  intros H Hc H' [Hq| ->].
  - destruct (queued_in _ _ _ H Hq) as [p Hp]. eapply in_queue_queued; [done|].
    apply rq_enqueue_elem. by left.
  - destruct (tcbQueued c) eqn:E.
    + eapply (in_queue_queued _ _ (tcbPriority c)); [exact H'|]. apply rq_enqueue_elem. left.
      by apply (so_queued _ _ H).
    + eapply (in_queue_queued _ _ (tcbPriority c)); [exact H'|]. apply rq_enqueue_elem. by right.
Qed.

Lemma enqueue_runnable k k' rq t c :
  queues_runnable k rq → runnable k t → only_queues k k' → queues_runnable k' (rq_enqueue t c rq).
Proof.
  intros Hr Ht Ho p u Hu. apply (oq_runnable k); [done|].
  apply rq_enqueue_elem in Hu as [Hu|(_ & -> & _)]; [by eapply Hr|done].
Qed.

(** Putting a runnable thread on its queue. *)
Lemma enqueue_inv k x t :
  sched_inv_but x k → runnable k t →
  wp (tcbSchedEnqueue t) (λ _ k', sched_inv_but x k' ∧ queued k' t ∧ only_queues k k' ∧
    ∀ u, queued k u → queued k' u) k.
Proof.
  intros I Ht. destruct (si_rq _ _ I) as (rq & Hok & Hr). pose proof Ht as (c & Hc & _).
  eapply wp_mono; [by apply (tcbSchedEnqueue_spec k rq t c)|]. intros [] k' [Hok' O].
  pose proof (oq_rest _ _ O) as (E1 & E2 & E3 & E4 & E5 & E6 & E7 & E8 & E9).
  assert (Hqu : ∀ u, queued k u ∨ u = t → queued k' u)
    by (intros u; by apply (queued_after_enqueue k k' rq t c)).
  split; [|split; [|split; [done|]]]; [|by apply Hqu; right|by intros u Hu; apply Hqu; left].
  eapply (sched_inv_change k k' x x); try done.
  - by apply only_queues_threads.
  - by eapply enqueue_runnable.
  - rewrite E5. destruct (si_action _ _ I) as [?|[?|?]]; auto. right. right. by eapply oq_runnable.
  - by rewrite E5.
  - intros u Hu Hne. rewrite E5. destruct (si_lost _ _ I u Hu Hne) as [Hq|?]; [|auto].
    left. apply Hqu. by left.
Qed.

(** [rescheduleRequired] hands the pending thread to its queue. *)
Lemma rescheduleRequired_inv k x :
  sched_inv_but x k →
  wp rescheduleRequired (λ _ k', sched_inv_but x k' ∧ same_threads k k' ∧
    (∀ t, queued k t → queued k' t) ∧
    ksSchedulerAction k' = SchedulerAction_ChooseNewThread) k.
Proof.
  intros I. unfold rescheduleRequired. apply wp_bind, wp_gets.
  assert (Hend : ∀ k1, sched_inv_but x k1 → same_threads k k1 →
    (∀ t, queued k t → queued k1 t) →
    (runnable k (ksSchedulerAction k) → Some (ksSchedulerAction k) ≠ x → queued k1 (ksSchedulerAction k)) →
    ksSchedulerAction k1 = ksSchedulerAction k →
    wp (set_action SchedulerAction_ChooseNewThread) (λ _ k', sched_inv_but x k' ∧ same_threads k k' ∧
      (∀ t, queued k t → queued k' t) ∧
      ksSchedulerAction k' = SchedulerAction_ChooseNewThread) k1).
  { intros k1 I1 S1 Q1 Ha Ea. apply wp_modify. destruct (si_rq _ _ I1) as (rq & Hok & Hr).
    split; [|by split_and!].
    eapply (sched_inv_change k1 _ x x rq); try done; try (by apply (sched_ok_ext k1)); try (by auto).
    intros t Ht Hne. destruct (si_lost _ _ I1 t Ht Hne) as [?|[?| ->]]; [by left|by right; left|].
    left. rewrite Ea in *. apply Ha; [|done]. by apply (st_runnable k k1). }
  apply wp_bind. destruct (si_action _ _ I) as [E|[E|Hrun]].
  - rewrite E. cbn. apply wp_ret, Hend; try done.
    intros (c & Hc & _). rewrite E in Hc. destruct (si_rq _ _ I) as (rq & Hok & _).
    by destruct (so_tcb _ _ Hok _ _ Hc).
  - rewrite E. cbn. apply wp_ret, Hend; try done.
    intros (c & Hc & _). by apply (si_ptr _ _ I) in Hc.
  - destruct (_ && _) eqn:Eb; cbn [when].
    + eapply wp_mono; [by apply enqueue_inv|]. intros [] k1 (I1 & Hq1 & O1 & Hm).
      apply Hend; try done; [by apply only_queues_threads|apply O1].
    + exfalso. destruct Hrun as (c & Hc & _). destruct (si_rq _ _ I) as (rq & Hok & _).
      apply (so_tcb _ _ Hok) in Hc as Hz. apply (si_ptr _ _ I) in Hc as Hn.
      unfold SchedulerAction_ResumeCurrentThread in Eb.
      destruct (Z.eqb_spec (ksSchedulerAction k) 0); [by destruct Hz|].
      by destruct (Z.eqb_spec (ksSchedulerAction k) SchedulerAction_ChooseNewThread).
Qed.

(** [possibleSwitchTo] takes care of a thread that has just been made runnable. *)
Lemma possibleSwitchTo_inv k t b :
  sched_inv_but (Some t) k → runnable k t →
  wp (possibleSwitchTo t b) (λ _ k', sched_inv k' ∧ same_threads k k' ∧
    (t = ksSchedulerAction k' ∨ queued k' t)) k.
Proof.
  intros I Ht. pose proof (si_cur _ _ I) as [cc Hcc]. pose proof Ht as (tc & Htc & _).
  destruct (si_rq _ _ I) as (rq & Hok & Hr). destruct (si_dom _ _ I) as [Hd Hdt].
  unfold possibleSwitchTo. apply wp_bind, wp_gets. apply wp_bind, wp_gets.
  apply wp_bind, (wp_tcb_at _ cc); [done|]. apply wp_bind, (wp_tcb_at _ tc); [done|].
  apply wp_bind, wp_gets. destruct (so_tcb _ _ Hok t tc Htc) as (Ht0 & _ & Htd).
  rewrite Htd, Hd. cbn [Z.eqb negb]. apply wp_bind.
  (* from a state in which t is queued *)
  assert (Hq : ∀ k1, sched_inv_but (Some t) k1 → queued k1 t → sched_inv_but None k1).
  { intros k1 I1 Hq. destruct I1. split; try done. intros u Hu _.
    destruct (decide (u = t)) as [->|Hne]; [by left|]. apply si_lost0; [done|]. congruence. }
  destruct (_ && _) eqn:E.
  - apply andb_prop in E as [_ Ea]. rewrite Ea. apply Z.eqb_eq in Ea. cbn [negb andb when].
    apply wp_modify. apply wp_ret. split; [|split; [by split_and!|by left]].
    eapply (sched_inv_change k _ (Some t) None rq); try done; try (by apply (sched_ok_ext k)); try (by auto).
    intros u Hu _. destruct (decide (u = t)) as [->|Hne]; [by right; right|].
    destruct (si_lost _ _ I u Hu) as [?|[?| ->]]; [congruence|by left|by right; left|].
    exfalso. destruct Hu as (c & Hc & _). rewrite Ea in Hc. by destruct (so_tcb _ _ Hok _ _ Hc).
  - eapply wp_mono; [by apply enqueue_inv|]. intros [] k1 (I1 & Hq1 & O1 & Hm).
    pose proof (only_queues_threads _ _ O1) as S1.
    clear E. destruct (negb _ && negb _); cbn [when].
    + eapply wp_mono; [apply (rescheduleRequired_inv k1 None); by apply Hq|].
      intros [] k2 (I2 & S2 & Q2 & _). split; [done|]. split; [by eapply same_threads_trans|].
      right. by apply Q2.
    + apply wp_ret. split; [by apply Hq|]. split; [done|by right].
Qed.

(** ** Changing the state of a thread *)

Lemma set_state_runnable k t c st u :
  tcbs k !! t = Some c →
  runnable (k <| tcbs ::= <[t := c <| tsType := st |>]> |>) u ↔
  (u = t ∧ isRunnable_state st = true) ∨ (u ≠ t ∧ runnable k u).
Proof.
  intros Hc. unfold runnable. cbn. destruct (decide (t = u)) as [<-|Hne].
  - rewrite lookup_insert_eq. split.
    + intros (x & [= <-] & Hr). by left.
    + intros [[_ Hr]|[? _]]; [|done]. eexists. by split.
  - rewrite lookup_insert_ne by done. naive_solver.
Qed.

Lemma set_state_queued k t c st u :
  tcbs k !! t = Some c →
  queued (k <| tcbs ::= <[t := c <| tsType := st |>]> |>) u ↔ queued k u.
Proof.
  intros Hc. unfold queued. cbn. destruct (decide (t = u)) as [<-|Hne].
  - rewrite lookup_insert_eq, Hc. split; intros (x & [= <-] & Hq); eexists; by split.
  - by rewrite lookup_insert_ne.
Qed.

(** The invariant after the state of [t] alone has been written. *)
Lemma set_state_inv k t c st :
  sched_inv k → tcbs k !! t = Some c → t ≠ ksIdleThread k →
  (isRunnable_state st = false → ¬ queued k t ∧ ksSchedulerAction k ≠ t) →
  let k' := k <| tcbs ::= <[t := c <| tsType := st |>]> |> in
  (t = ksCurThread k → ksSchedulerAction k = SchedulerAction_ResumeCurrentThread →
   isRunnable_state st = true) →
  sched_inv_but (Some t) k'.
Proof.
  intros I Hc Hid Hnr k' Hcur. destruct (si_rq _ _ I) as (rq & Hok & Hr).
  assert (Hrun : ∀ u, u ≠ t → runnable k u → runnable k' u)
    by (intros u Hu Hru; apply (set_state_runnable k t c st u Hc); by right).
  split; try apply I.
  - exists rq. split; [by apply (sched_ok_set k rq t c)|].
    intros p u Hu. apply (set_state_runnable k t c st u Hc).
    destruct (decide (u = t)) as [->|Hne]; [|right; split; [done|by eapply Hr]].
    left. split; [done|]. destruct (isRunnable_state st) eqn:E; [done|].
    destruct (Hnr eq_refl) as [Hnq _]. destruct Hnq. by eapply in_queue_queued.
  - intros u x Hx. cbn in Hx. destruct (decide (t = u)) as [<-|Hne]; [by eapply (si_ptr _ _ I)|].
    rewrite lookup_insert_ne in Hx by done. by eapply (si_ptr _ _ I).
  - cbn. destruct (decide (t = ksCurThread k)) as [E|Hne].
    + rewrite <- E, lookup_insert_eq. eauto.
    + rewrite lookup_insert_ne by done. apply (si_cur _ _ I).
  - cbn. destruct (si_action _ _ I) as [?|[?|Hra]]; auto. right. right.
    apply (set_state_runnable k t c st _ Hc). destruct (decide (ksSchedulerAction k = t)) as [E|Hne].
    + left. split; [done|]. destruct (isRunnable_state st) eqn:E'; [done|]. by destruct (Hnr eq_refl).
    + by right.
  - cbn. intros E. destruct (decide (ksCurThread k = t)) as [Et|Hne].
    + left. apply (set_state_runnable k t c st _ Hc). left. auto.
    + destruct (si_resume _ _ I E) as [Hru|?]; [left; by apply Hrun|by right].
  - intros u Hu Hne. change (queued k' u ∨ u = ksCurThread k ∨ u = ksSchedulerAction k).
    apply (set_state_runnable k t c st u Hc) in Hu as [[-> _]|[_ Hu]]; [done|].
    unfold k'. rewrite (set_state_queued k t c st u Hc). by apply (si_lost _ _ I u Hu).
  - cbn. destruct (si_idle _ _ I) as (x & Hx & Hxs). exists x. by rewrite lookup_insert_ne.
Qed.

(** Waking a thread: making a blocked thread runnable and offering the
    processor to it keeps the scheduler's invariant: the thread is queued or is
    the pending action, no runnable thread is forgotten, and the current thread
    is not left running when it cannot run. *)
Theorem wakeup_keeps_invariant k t c b :
  sched_inv k → tcbs k !! t = Some c → t ≠ ksIdleThread k →
  wp (setThreadState t ThreadState_Running;; possibleSwitchTo t b) (λ _ k',
    sched_inv k' ∧ runnable k' t ∧ (t = ksSchedulerAction k' ∨ queued k' t)) k.
Proof.
  intros I Hc Hid. apply wp_bind. unfold setThreadState. apply wp_bind, (wp_tcb_set _ _ c); [done|].
  set (k1 := k <| tcbs ::= <[t := c <| tsType := ThreadState_Running |>]> |>).
  assert (I1 : sched_inv_but (Some t) k1) by (by apply set_state_inv).
  assert (Ht : runnable k1 t) by (apply (set_state_runnable k t c _ t Hc); by left).
  assert (Hgo : wp (possibleSwitchTo t b) (λ _ k',
    sched_inv k' ∧ runnable k' t ∧ (t = ksSchedulerAction k' ∨ queued k' t)) k1).
  { eapply wp_mono; [by apply possibleSwitchTo_inv|]. intros [] k2 (I2 & S2 & H2).
    split_and!; [done|by apply (st_runnable k1 k2)|done]. }
  unfold scheduleTCB. apply wp_bind, wp_gets. apply wp_bind, wp_gets.
  destruct (_ && _); [|by apply wp_ret]. apply wp_bind. eapply wp_mono.
  { apply (isRunnable_spec k1 t (c <| tsType := ThreadState_Running |>)). apply lookup_insert_eq. }
  intros r k2 [-> ->]. by apply wp_ret.
Qed.

Lemma not_runnable_inv k t : sched_inv_but (Some t) k → ¬ runnable k t → sched_inv k.
Proof.
  intros I Hn. destruct I. split; try done. intros u Hu _. apply si_lost0; [done|].
  intros [= ->]. done.
Qed.

Lemma choose_inv k :
  sched_inv k → ksSchedulerAction k = SchedulerAction_ResumeCurrentThread →
  sched_inv (k <| ksSchedulerAction := SchedulerAction_ChooseNewThread |>).
Proof.
  intros I Ha. destruct (si_rq _ _ I) as (rq & Hok & Hr).
  eapply (sched_inv_change k _ None None rq); try done; try (by apply (sched_ok_ext k)); try (by auto).
  intros u Hu _. destruct (si_lost _ _ I u Hu ltac:(done)) as [?|[?| ->]]; auto.
  exfalso. destruct Hu as (c & Hc & _). rewrite Ha in Hc. by destruct (so_tcb _ _ Hok _ _ Hc).
Qed.

(** blocking a thread that is not queued, such as the running one: its state
    changes and, if it was running, a new thread will be chosen; the scheduler's
    invariant is kept. *)
Theorem block_keeps_invariant k t c st :
  sched_inv k → tcbs k !! t = Some c → t ≠ ksIdleThread k →
  isRunnable_state st = false → ¬ queued k t → ksSchedulerAction k ≠ t →
  wp (setThreadState t st) (λ _ k', sched_inv k' ∧ ¬ runnable k' t ∧
    (t = ksCurThread k → ksSchedulerAction k = SchedulerAction_ResumeCurrentThread →
     ksSchedulerAction k' = SchedulerAction_ChooseNewThread)) k.
Proof.
  intros I Hc Hid Hst Hnq Hna. unfold setThreadState. apply wp_bind, (wp_tcb_set _ _ c); [done|].
  set (k1 := k <| tcbs ::= <[t := c <| tsType := st |>]> |>).
  assert (Hnr : ¬ runnable k1 t).
  { intros [[_ E]|[? _]]%(set_state_runnable k t c st t Hc); [congruence|done]. }
  unfold scheduleTCB. apply wp_bind, wp_gets. apply wp_bind, wp_gets.
  destruct (_ && _) eqn:E.
  - apply andb_prop in E as [Et Ea]. apply Z.eqb_eq in Et, Ea.
    apply wp_bind. eapply wp_mono.
    { apply (isRunnable_spec k1 t (c <| tsType := st |>)). apply lookup_insert_eq. }
    intros r k2 [-> ->]. cbn [tsType update]. change (tsType (c <| tsType := st |>)) with st.
    rewrite Hst. cbn [negb when]. unfold rescheduleRequired. apply wp_bind, wp_gets.
    rewrite Ea. cbn [Z.eqb negb andb when SchedulerAction_ResumeCurrentThread].
    apply wp_bind, wp_ret. apply wp_modify. split; [|split; [done|done]].
    apply (not_runnable_inv _ t); [|done].
    assert (Ek : k1 <| ksSchedulerAction := SchedulerAction_ChooseNewThread |> =
      k <| ksSchedulerAction := SchedulerAction_ChooseNewThread |>
        <| tcbs ::= <[t := c <| tsType := st |>]> |>) by reflexivity.
    rewrite Ek.
    apply set_state_inv; [by apply choose_inv|exact Hc|exact Hid| |done].
    intros _. split; [exact Hnq|]. cbn. intros <-. by apply (si_ptr _ _ I) in Hc.
  - apply wp_ret. split; [|split; [done|]].
    + apply (not_runnable_inv _ t); [|done]. apply set_state_inv; try done. intros -> Ea.
      change (ksSchedulerAction k1) with (ksSchedulerAction k) in E. rewrite Ea in E.
      by rewrite Z.eqb_refl in E.
    + intros -> Ea. change (ksSchedulerAction k1) with (ksSchedulerAction k) in E. rewrite Ea in E.
      by rewrite Z.eqb_refl in E.
Qed.

(** ** [schedule] *)

(** Once the running thread is back on its queue, every runnable thread is on
    one, except the one that is to run next. *)
Lemma all_runnable_queued k rq c u :
  sched_inv k → sched_ok k rq → tcbs k !! ksCurThread k = Some c → runnable k u →
  (∃ p, u ∈ rq_with_current k rq c p) ∨ u = ksSchedulerAction k.
Proof.
  intros I Hok Hc Hu. unfold rq_with_current.
  destruct (si_lost _ _ I u Hu ltac:(done)) as [Hq|[->|?]]; [| |by right].
  - left. destruct (queued_in _ _ _ Hok Hq) as [p Hp]. exists p.
    destruct (isRunnable_state _); [|done]. apply rq_enqueue_elem. by left.
  - left. destruct Hu as (c' & Hc' & Hr). simplify_eq. rewrite Hr. exists (tcbPriority c).
    apply rq_enqueue_elem. destruct (tcbQueued c) eqn:E; [left; by apply (so_queued _ _ Hok)|by right].
Qed.

Lemma with_current_runnable k rq c :
  queues_runnable k rq → tcbs k !! ksCurThread k = Some c → queues_runnable k (rq_with_current k rq c).
Proof.
  intros Hr Hc p u Hu. unfold rq_with_current in Hu.
  destruct (isRunnable_state (tsType c)) eqn:E; [|by eapply Hr].
  apply rq_enqueue_elem in Hu as [Hu|(_ & -> & _)]; [by eapply Hr|by exists c].
Qed.

Lemma switched_runnable k k' t : switched k k' → runnable k t ↔ runnable k' t.
Proof.
  intros (H & _). specialize (H t). unfold runnable.
  destruct (tcbs k !! t) as [c|], (tcbs k' !! t) as [c'|]; try done.
  cbn [fmap option_fmap option_map] in H. apply (inj Some) in H.
  assert (E : tsType c' = tsType c) by (by change (tsType (sched_core c') = tsType (sched_core c)); rewrite H).
  split; intros (x & [= <-] & Hx); eexists; (split; [done|]); congruence.
Qed.

Lemma with_current_prio k rq c p u :
  sched_ok k rq → tcbs k !! ksCurThread k = Some c → u ∈ rq_with_current k rq c p →
  prio_ok p ∧ ∃ x, tcbs k !! u = Some x ∧ tcbPriority x = p.
Proof.
  intros Hok Hc Hu. unfold rq_with_current in Hu.
  assert (Hin : u ∈ rq p → prio_ok p ∧ ∃ x, tcbs k !! u = Some x ∧ tcbPriority x = p).
  { intros Hi. destruct (so_in _ _ Hok _ _ Hi) as (? & x & ? & ? & _). eauto. }
  destruct (isRunnable_state _); [|auto].
  apply rq_enqueue_elem in Hu as [Hu|(_ & -> & ->)]; [auto|].
  split; [apply (so_tcb _ _ Hok _ _ Hc)|by exists c].
Qed.

Lemma switched_prio k k' t c :
  switched k k' → tcbs k !! t = Some c → ∃ c', tcbs k' !! t = Some c' ∧ tcbPriority c' = tcbPriority c.
Proof.
  intros (H & _) Hc. specialize (H t). rewrite Hc in H.
  destruct (tcbs k' !! t) as [c'|]; [|done]. exists c'. split; [done|].
  cbn [fmap option_fmap option_map] in H. apply (inj Some) in H.
  change (tcbPriority (sched_core c') = tcbPriority (sched_core c)). by rewrite H.
Qed.

(** The invariant after a switch. *)
Lemma switched_inv k k' rq' :
  sched_inv k → switched k k' → sched_ok k' rq' →
  (∀ p u, u ∈ rq' p → runnable k u) →
  ksSchedulerAction k' = SchedulerAction_ResumeCurrentThread →
  runnable k (ksCurThread k') ∨ ksCurThread k' = ksIdleThread k →
  (∀ u, runnable k u → (∃ p, u ∈ rq' p) ∨ u = ksCurThread k') →
  sched_inv k'.
Proof.
  intros I Hsw Hok Hr Ha Hcur Hall. pose proof Hsw as (Hcore & En & Ee & Ei & Ed & Edt).
  assert (Hex : ∀ t, is_Some (tcbs k !! t) ↔ is_Some (tcbs k' !! t)).
  { intros t. specialize (Hcore t). destruct (tcbs k !! t), (tcbs k' !! t); simpl in Hcore; try done. }
  split.
  - exists rq'. split; [done|]. intros p u Hu. apply (switched_runnable k k' u Hsw). by eapply Hr.
  - intros t c' Hc'. destruct (proj2 (Hex t)) as [c Hc]; [by rewrite Hc'|]. by eapply (si_ptr _ _ I).
  - apply Hex. destruct Hcur as [(c & Hc & _)| ->]; [by rewrite Hc|].
    destruct (si_idle _ _ I) as (c & -> & _). eauto.
  - rewrite Ed, Edt. apply (si_dom _ _ I).
  - by left.
  - intros _. rewrite Ei. destruct Hcur as [Hcur|?]; [left|by right]. by apply (switched_runnable k k').
  - intros t Ht _. apply (switched_runnable k k' t Hsw) in Ht.
    destruct (Hall t Ht) as [[p Hp]|?]; [left|by right; left]. by eapply in_queue_queued.
  - rewrite Ei. destruct (si_idle _ _ I) as (c & Hc & Hst). specialize (Hcore (ksIdleThread k)).
    rewrite Hc in Hcore. destruct (tcbs k' !! ksIdleThread k) as [c'|]; [|done]. exists c'. split; [done|].
    cbn [fmap option_fmap option_map] in Hcore. apply (inj Some) in Hcore.
    change (tsType (sched_core c') = ThreadState_IdleThreadState). by rewrite Hcore.
Qed.

(** What [schedule] does with each action.  Only a choice among the queues looks
    at priorities: to go on with the current thread, or to switch to a thread
    that is named, was decided when the action was set. *)
Definition rescheduled (k k' : ks) : Prop :=
  if decide (ksSchedulerAction k = SchedulerAction_ResumeCurrentThread) then k' = k
  else if decide (ksSchedulerAction k = SchedulerAction_ChooseNewThread) then
    ∀ t c, runnable k' t → tcbs k' !! t = Some c →
      runnable k' (ksCurThread k') ∧ ∃ cc, tcbs k' !! ksCurThread k' = Some cc ∧ tcbPriority c ≤ tcbPriority cc
  else ksCurThread k' = ksSchedulerAction k ∧ runnable k' (ksCurThread k').

(** C16: [schedule] re-establishes the state a return to user level needs: the
    pending action is reset, the current thread can run or is the idle thread, and
    every other runnable thread is on its queue.  Which thread runs depends on the
    pending action: to resume the current thread changes nothing; to switch to a
    named thread makes that thread run, whatever its priority; and when a thread
    is to be chosen, one that can run is, if there is one, and no runnable thread
    has a higher priority than it. *)
Theorem schedule_keeps_invariant k :
  sched_inv k →
  wp schedule (λ _ k', sched_inv k' ∧
    ksSchedulerAction k' = SchedulerAction_ResumeCurrentThread ∧
    (runnable k' (ksCurThread k') ∨ ksCurThread k' = ksIdleThread k') ∧
    rescheduled k k') k.
Proof.
  intros I. destruct (si_rq _ _ I) as (rq & Hok & Hr). destruct (si_cur _ _ I) as [c Hc].
  pose proof (si_dom _ _ I) as [_ Hdt].
  assert (Ha : ksSchedulerAction k = SchedulerAction_ResumeCurrentThread ∨
    ksSchedulerAction k = SchedulerAction_ChooseNewThread ∨ is_Some (tcbs k !! ksSchedulerAction k)).
  { destruct (si_action _ _ I) as [?|[?|(ca & Hca & _)]]; eauto. }
  eapply wp_mono; [by apply (schedule_spec k rq c)|]. intros [] k' [(Ea & Hres & Hch & Hsw) Hs].
  set (rq1 := rq_with_current k rq c) in *.
  pose proof (with_current_runnable k rq c Hr Hc : queues_runnable k rq1) as Hr1.
  pose proof (λ u, all_runnable_queued k rq c u I Hok Hc) as Hall. fold rq1 in Hall.
  assert (Hend : sched_inv k' → rescheduled k k' →
    sched_inv k' ∧ ksSchedulerAction k' = SchedulerAction_ResumeCurrentThread ∧
    (runnable k' (ksCurThread k') ∨ ksCurThread k' = ksIdleThread k') ∧ rescheduled k k').
  { intros I' Hp. split_and!; try done. by apply (si_resume _ _ I'). }
  unfold rescheduled in *. destruct (decide (ksSchedulerAction k = SchedulerAction_ResumeCurrentThread)) as [E|E].
  { rewrite (Hres E) in *. by apply Hend. }
  destruct (decide (ksSchedulerAction k = SchedulerAction_ChooseNewThread)) as [E'|E'].
  - assert (Hna : ∀ u, runnable k u → ∃ p, u ∈ rq1 p).
    { intros u Hu. destruct (Hall u Hu) as [?| ->]; [done|]. destruct Hu as (x & Hx & _).
      rewrite E' in Hx. by apply (si_ptr _ _ I) in Hx. }
    destruct (Hch E') as [(Hemp & Hcur & Hok')|(p & t & l & Hp & Hl & Htop & Hcur & Hok')].
    + assert (Hno : ∀ u, ¬ runnable k u).
      { intros u Hu. destruct (Hna u Hu) as [p Hp].
        destruct (so_in _ _ Hok' _ _ Hp) as (Hpo & _). by rewrite (Hemp p Hpo), elem_of_nil in Hp. }
      apply Hend.
      * eapply (switched_inv k k' rq1); try done; [by right|]. intros u Hu. by destruct (Hno u).
      * intros u x Hu _. apply (switched_runnable k k' u Hs) in Hu. by destruct (Hno u).
    + apply Hend.
      * eapply (switched_inv k k' (<[p := l]> rq1)); try done.
        -- intros p' u Hu. apply (Hr1 p'). destruct (decide (p = p')) as [<-|Hne].
           ++ rewrite fn_lookup_insert in Hu. rewrite Hl. set_solver.
           ++ by rewrite fn_lookup_insert_ne in Hu.
        -- left. rewrite Hcur. apply (Hr1 p). rewrite Hl. set_solver.
        -- intros u Hu. destruct (Hna u Hu) as [p' Hp']. rewrite Hcur.
           destruct (decide (p = p')) as [<-|Hne].
           ++ rewrite Hl in Hp'. apply elem_of_cons in Hp' as [->|Hp']; [by right|].
              left. exists p. by rewrite fn_lookup_insert.
           ++ left. exists p'. by rewrite fn_lookup_insert_ne.
      * intros u x Hu Hx. split; [apply (switched_runnable k k' _ Hs); rewrite Hcur; apply (Hr1 p); rewrite Hl; set_solver|].
        apply (switched_runnable k k' u Hs) in Hu.
        destruct (Hna u Hu) as [p' Hp'].
        destruct (with_current_prio k rq c p' u Hok Hc Hp') as (Hpo & y & Hy & Ey).
        destruct (with_current_prio k rq c p t Hok Hc) as (_ & z & Hz & Ez); [fold rq1; rewrite Hl; set_solver|].
        destruct (switched_prio _ _ _ _ Hs Hy) as (y' & Hy' & Ey').
        destruct (switched_prio _ _ _ _ Hs Hz) as (z' & Hz' & Ez').
        exists z'. rewrite Hcur. split; [done|]. simplify_eq. rewrite Ey', Ez'.
        destruct (Z.le_gt_cases (tcbPriority y) (tcbPriority z)) as [?|Hgt]; [done|].
        by rewrite (Htop _ Hpo Hgt), elem_of_nil in Hp'.
  - destruct (Hsw E E') as (Hcur & Hok').
    destruct (si_action _ _ I) as [?|[?|Hra]]; [done|done|].
    apply Hend; [|split; [done|]; rewrite Hcur; by apply (switched_runnable k k' _ Hs)].
    eapply (switched_inv k k'); try done.
    + intros p u [_ Hu]%list_elem_of_filter. by eapply Hr1.
    + left. by rewrite Hcur.
    + intros u Hu. rewrite Hcur. destruct (decide (u = ksSchedulerAction k)) as [->|Hne]; [by right|].
      destruct (Hall u Hu) as [[p Hp]|?]; [|done]. left. exists p. by apply list_elem_of_filter.
Qed.

(** ** The small system *)

(** The current thread gives way to its equals. *)
Definition demo_choose : ks := demo_ks <| ksSchedulerAction := SchedulerAction_ChooseNewThread |>.

(** The threads of the small system, one by one. *)
Lemma demo_cases (P : Z → tcb_t → Prop) :
  P 8 (demo_tcb ThreadState_IdleThreadState 0) → P 16 (demo_tcb ThreadState_Running 100) →
  P 32 (demo_tcb ThreadState_Running 100 <| tcbQueued := true |>) →
  P 48 (demo_waiter ThreadState_BlockedOnNotification 120 600 0 0 0) →
  P 64 (demo_waiter ThreadState_BlockedOnSend 90 700 1 80 0) →
  P 80 (demo_waiter ThreadState_BlockedOnSend 90 700 2 96 64) →
  P 96 (demo_waiter ThreadState_BlockedOnSend 90 700 1 0 80) → P 112 demo_bound →
  ∀ t c, tcbs demo_ks !! t = Some c → P t c.
Proof.
  intros H1 H2 H3 H4 H5 H6 H7 H8 t c Hc.
  assert (E : tcbs demo_ks = list_to_map
    [(8, demo_tcb ThreadState_IdleThreadState 0); (16, demo_tcb ThreadState_Running 100);
     (32, demo_tcb ThreadState_Running 100 <| tcbQueued := true |>);
     (48, demo_waiter ThreadState_BlockedOnNotification 120 600 0 0 0);
     (64, demo_waiter ThreadState_BlockedOnSend 90 700 1 80 0);
     (80, demo_waiter ThreadState_BlockedOnSend 90 700 2 96 64);
     (96, demo_waiter ThreadState_BlockedOnSend 90 700 1 0 80); (112, demo_bound)]) by (vm_compute; reflexivity).
  rewrite E in Hc. apply elem_of_list_to_map_2 in Hc.
  repeat (apply elem_of_cons in Hc as [[= -> ->]|Hc]; [done|]). by apply elem_of_nil in Hc.
Qed.

Lemma demo_inv : sched_inv demo_ks.
Proof.
  split.
  - exists demo_rq. split; [apply demo_ok|apply demo_queues_runnable].
  - by apply (demo_cases (λ t _, t ≠ SchedulerAction_ChooseNewThread)).
  - eexists. vm_compute. reflexivity.
  - split; [reflexivity|]. vm_compute. discriminate.
  - by left.
  - intros _. left. exists (demo_tcb ThreadState_Running 100). split; vm_compute; reflexivity.
  - intros t (c & Hc & Hr) _. revert t c Hc Hr.
    apply (demo_cases (λ t c, isRunnable_state (tsType c) = true →
      queued demo_ks t ∨ t = ksCurThread demo_ks ∨ t = ksSchedulerAction demo_ks)); try done.
    + intros _. right. left. reflexivity.
    + intros _. left. exists (demo_tcb ThreadState_Running 100 <| tcbQueued := true |>).
      split; vm_compute; reflexivity.
  - exists (demo_tcb ThreadState_IdleThreadState 0). split; vm_compute; reflexivity.
Qed.

Lemma wakeup_keeps_invariant_witness :
  wp (setThreadState 48 ThreadState_Running;; possibleSwitchTo 48 true) (λ _ k',
    sched_inv k' ∧ runnable k' 48 ∧ (48 = ksSchedulerAction k' ∨ queued k' 48)) demo_ks.
Proof.
  refine (wakeup_keeps_invariant demo_ks 48 (demo_waiter ThreadState_BlockedOnNotification 120 600 0 0 0) true
    demo_inv eq_refl _). vm_compute. discriminate.
Defined.

Lemma block_keeps_invariant_witness :
  wp (setThreadState 16 ThreadState_BlockedOnReceive) (λ _ k', sched_inv k' ∧ ¬ runnable k' 16 ∧
    (16 = ksCurThread demo_ks → ksSchedulerAction demo_ks = SchedulerAction_ResumeCurrentThread →
     ksSchedulerAction k' = SchedulerAction_ChooseNewThread)) demo_ks.
Proof.
  refine (block_keeps_invariant demo_ks 16 (demo_tcb ThreadState_Running 100) ThreadState_BlockedOnReceive
    demo_inv eq_refl _ eq_refl _ _).
  - vm_compute. discriminate.
  - intros (c & Hc & Hq). vm_compute in Hc. injection Hc as <-. discriminate.
  - vm_compute. discriminate.
Defined.

Lemma schedule_keeps_invariant_witness :
  wp schedule (λ _ k', sched_inv k' ∧
    ksSchedulerAction k' = SchedulerAction_ResumeCurrentThread ∧
    (runnable k' (ksCurThread k') ∨ ksCurThread k' = ksIdleThread k') ∧
    ∀ t c, runnable k' t → tcbs k' !! t = Some c →
      runnable k' (ksCurThread k') ∧ ∃ cc, tcbs k' !! ksCurThread k' = Some cc ∧ tcbPriority c ≤ tcbPriority cc) demo_choose.
Proof. refine (schedule_keeps_invariant demo_choose (choose_inv demo_ks demo_inv eq_refl)). Defined.
