(* ===== verification/Paging.v ===== *)
(** The words the memory management units read: entries of page tables and page
    directories, of ASID pools and of the VT-d tables, and the mapping attributes
    and rights they are made from ([arch/object/structures_gen.h],
    [plat_mode/machine/hardware_gen.h], [arch/x86/32/kernel/vspace.c]).

    An entry is one word (the entries of VT-d: two and four).  A generated
    constructor or accessor asserts what it is given, so it may fail. *)

From S2P Require Import Prelude Caps.

(** [w |= (v & ones) << shift] after the check that [v] fits. *)
Definition put (ones shift v w : Z) : outcome Z :=
  check (bf_fits (wrap32 (Z.lnot ones)) v);;
  mret (bf_put ones shift w v).

(** The fields of a generated constructor, one after the other. *)
Fixpoint puts (l : list (Z * Z * Z)) (w : Z) : outcome Z :=
  match l with
  | [] => mret w
  | (ones, shift, v) :: l => w ← put ones shift v w; puts l w
  end.

(** ** Entries of a page table *)

Definition pte_new (page_base_address avl global pat dirty accessed cache_disabled write_through super_user read_write
    present : Z) : outcome Z :=
  puts [(0xfffff000, 0, page_base_address); (0x7, 9, avl); (0x1, 8, global); (0x1, 7, pat); (0x1, 6, dirty);
    (0x1, 5, accessed); (0x1, 4, cache_disabled); (0x1, 3, write_through); (0x1, 2, super_user); (0x1, 1, read_write); (0x1, 0, present)] 0.

Definition pte_get_page_base_address (w : Z) : Z := bf_get 0xfffff000 0 w.
Definition pte_get_dirty (w : Z) : Z := bf_get 0x40 6 w.
Definition pte_get_accessed (w : Z) : Z := bf_get 0x20 5 w.
Definition pte_get_super_user (w : Z) : Z := bf_get 0x4 2 w.
Definition pte_get_present (w : Z) : Z := bf_get 0x1 0 w.

(** ** Entries of a page directory *)

Definition pde_pde_small : Z := 0.
Definition pde_pde_large : Z := 1.
Definition pde_get_page_size (w : Z) : Z := Z.land (Z.shiftr w 7) 0x1.

Definition pde_pde_small_new (pt_base_address avl accessed cache_disabled write_through super_user read_write present : Z) :
    outcome Z :=
  puts [(0xfffff000, 0, pt_base_address); (0x7, 9, avl); (0x1, 7, pde_pde_small);
    (0x1, 5, accessed); (0x1, 4, cache_disabled); (0x1, 3, write_through); (0x1, 2, super_user); (0x1, 1, read_write); (0x1, 0, present)] 0.

Definition pde_pde_large_new (page_base_address pat avl global dirty accessed cache_disabled write_through super_user read_write
    present : Z) : outcome Z :=
  puts [(0xffe00000, 0, page_base_address); (0x1, 12, pat); (0x7, 9, avl); (0x1, 8, global); (0x1, 7, pde_pde_large); (0x1, 6, dirty);
    (0x1, 5, accessed); (0x1, 4, cache_disabled); (0x1, 3, write_through); (0x1, 2, super_user); (0x1, 1, read_write); (0x1, 0, present)] 0.

(** A field of one of the two kinds, which the accessor asserts the entry to be. *)
Definition tagged (tag mask shift w : Z) : outcome Z :=
  check (pde_get_page_size w =? tag);;
  mret (bf_get mask shift w).

Definition pde_pde_small_get_pt_base_address (w : Z) : outcome Z := tagged pde_pde_small 0xfffff000 0 w.
Definition pde_pde_small_get_present (w : Z) : outcome Z := tagged pde_pde_small 0x1 0 w.
Definition pde_pde_large_get_page_base_address (w : Z) : outcome Z := tagged pde_pde_large 0xffe00000 0 w.
Definition pde_pde_large_get_dirty (w : Z) : outcome Z := tagged pde_pde_large 0x40 6 w.
Definition pde_pde_large_get_accessed (w : Z) : outcome Z := tagged pde_pde_large 0x20 5 w.
Definition pde_pde_large_get_present (w : Z) : outcome Z := tagged pde_pde_large 0x1 0 w.

(** [pde_ptr_get_page_size(p) == pde_pde_small && pde_pde_small_ptr_get_present(p)],
    the test the code makes everywhere, and its counterpart. *)
Definition small_present (w : Z) : outcome bool :=
  if pde_get_page_size w =? pde_pde_small then p ← pde_pde_small_get_present w; mret (negb (p =? 0)) else mret false.
Definition large_present (w : Z) : outcome bool :=
  if pde_get_page_size w =? pde_pde_large then p ← pde_pde_large_get_present w; mret (negb (p =? 0)) else mret false.

(** ** Entries of an ASID pool *)

Definition asid_map_asid_map_none : Z := 0.
Definition asid_map_asid_map_vspace : Z := 1.
Definition asid_map_get_type (w : Z) : Z := Z.land (Z.shiftr w 0) 0x3.
Definition asid_map_asid_map_none_new : outcome Z := puts [(0x3, 0, asid_map_asid_map_none)] 0.
Definition asid_map_asid_map_vspace_new (vspace_root : Z) : outcome Z :=
  puts [(0xfffff000, 0, vspace_root); (0x3, 0, asid_map_asid_map_vspace)] 0.
Definition asid_map_asid_map_vspace_get_vspace_root (w : Z) : outcome Z :=
  check (asid_map_get_type w =? asid_map_asid_map_vspace);;
  mret (bf_get 0xfffff000 0 w).

(** ** Attributes and rights *)

Definition vm_attributes_get_x86PATBit (w : Z) : Z := bf_get 0x4 2 w.
Definition vm_attributes_get_x86PCDBit (w : Z) : Z := bf_get 0x2 1 w.
Definition vm_attributes_get_x86PWTBit (w : Z) : Z := bf_get 0x1 0 w.

Definition WritableFromVMRights (vm_rights : Z) : outcome Z :=
  if vm_rights =? VMReadOnly then mret 0
  else if (vm_rights =? VMKernelOnly) || (vm_rights =? VMReadWrite) then mret 1
  else Halted AssertFailed.

Definition SuperUserFromVMRights (vm_rights : Z) : outcome Z :=
  if vm_rights =? VMKernelOnly then mret 0
  else if (vm_rights =? VMReadOnly) || (vm_rights =? VMReadWrite) then mret 1
  else Halted AssertFailed.

Definition makeUserPDELargePage (paddr vm_attr vm_rights : Z) : outcome Z :=
  super_user ← SuperUserFromVMRights vm_rights;
  read_write ← WritableFromVMRights vm_rights;
  pde_pde_large_new paddr (vm_attributes_get_x86PATBit vm_attr) 0 0 0 0 (vm_attributes_get_x86PCDBit vm_attr)
    (vm_attributes_get_x86PWTBit vm_attr) super_user read_write 1.

Definition makeUserPDEPageTable (paddr vm_attr : Z) : outcome Z :=
  pde_pde_small_new paddr 0 0 (vm_attributes_get_x86PCDBit vm_attr) (vm_attributes_get_x86PWTBit vm_attr) 1 1 1.

Definition makeUserPDELargePageInvalid : outcome Z := pde_pde_large_new 0 0 0 0 0 0 0 0 0 0 0.
Definition makeUserPDEPageTableInvalid : outcome Z := pde_pde_small_new 0 0 0 0 0 0 0 0.

Definition makeUserPTE (paddr vm_attr vm_rights : Z) : outcome Z :=
  super_user ← SuperUserFromVMRights vm_rights;
  read_write ← WritableFromVMRights vm_rights;
  pte_new paddr 0 0 (vm_attributes_get_x86PATBit vm_attr) 0 0 (vm_attributes_get_x86PCDBit vm_attr)
    (vm_attributes_get_x86PWTBit vm_attr) super_user read_write 1.

Definition makeUserPTEInvalid : outcome Z := pte_new 0 0 0 0 0 0 0 0 0 0 0.

(** ** VT-d *)

(** The first word of an entry of an IO page table; the second is zero. *)
Definition vtd_pte_new (addr write read : Z) : outcome Z :=
  puts [(0xfffff000, 0, addr); (0x1, 1, write); (0x1, 0, read)] 0.
Definition vtd_pte_get_addr (w : Z) : Z := bf_get 0xfffff000 0 w.
Definition vtd_pte_get_write (w : Z) : Z := bf_get 0x2 1 w.

(** Words 0 and 2 of a context entry; words 1 and 3 are zero. *)
Definition vtd_cte_new (did rmrr aw asr translation_type present : Z) : outcome (Z * Z) :=
  w2 ← puts [(0xffff, 8, did); (0x1, 3, rmrr); (0x7, 0, aw)] 0;
  w0 ← puts [(0xfffff000, 0, asr); (0x3, 2, translation_type); (0x1, 0, present)] 0;
  mret (w0, w2).
Definition vtd_cte_get_asr (w0 : Z) : Z := bf_get 0xfffff000 0 w0.
Definition vtd_cte_get_present (w0 : Z) : Z := bf_get 0x1 0 w0.
Definition vtd_rte_get_ctp (w0 : Z) : Z := bf_get 0xfffff000 0 w0.

(** ** What an entry says *)

(** A base address and the bits below it. *)
Lemma land_low b q c m : 0 ≤ b → 0 ≤ c < 2 ^ b → 0 ≤ m < 2 ^ b → Z.land (2 ^ b * q + c) m = Z.land c m.
Proof.
  intros Hb Hc Hm. apply Z.bits_inj'. intros i Hi. rewrite !Z.land_spec.
  destruct (Z.lt_ge_cases i b) as [Hl|]; [|rewrite (small_testbit m b) by lia; by rewrite !andb_false_r].
  rewrite <- (Z.mod_pow2_bits_low (2 ^ b * q + c) b i) by done.
  by rewrite Z.add_comm, Z.mul_comm, Z.mod_add, Z.mod_small by lia.
Qed.

Lemma lor_low b q c d : 0 ≤ b → 0 ≤ c < 2 ^ b → 0 ≤ d < 2 ^ b → Z.lor (2 ^ b * q + c) d = 2 ^ b * q + Z.lor c d.
Proof.
  intros Hb Hc Hd. pose proof (Z.add_lor_land (2 ^ b * q + c) d) as H1. pose proof (Z.add_lor_land c d) as H2.
  rewrite (land_low b) in H1 by done. lia.
Qed.

Lemma lor_below b c d : 0 ≤ b → 0 ≤ c < 2 ^ b → 0 ≤ d < 2 ^ b → 0 ≤ Z.lor c d < 2 ^ b.
Proof.
  intros Hb Hc Hd. split; [apply Z.lor_nonneg; lia|].
  destruct (Z.eq_dec (Z.lor c d) 0) as [->|]; [by apply Z.pow_pos_nonneg|].
  assert (0 ≤ Z.lor c d) by (apply Z.lor_nonneg; lia).
  apply Z.log2_lt_pow2; [lia|]. rewrite Z.log2_lor by lia.
  assert (∀ x, 0 ≤ x < 2 ^ b → x ≠ 0 → Z.log2 x < b) as Hx by (intros; apply Z.log2_lt_pow2; lia).
  destruct (Z.eq_dec c 0) as [->|Hc0], (Z.eq_dec d 0) as [->|Hd0]; [done| | |].
  - pose proof (Hx d Hd Hd0). pose proof (Z.log2_nonneg d). change (Z.log2 0) with 0. lia.
  - pose proof (Hx c Hc Hc0). pose proof (Z.log2_nonneg c). change (Z.log2 0) with 0. lia.
  - pose proof (Hx c Hc Hc0). pose proof (Hx d Hd Hd0). lia.
Qed.

(** The part of a word from bit [b] up. *)
Lemma land_high b w : 0 ≤ b ≤ 32 → is_word w → Z.land w (field b (32 - b)) = 2 ^ b * (w / 2 ^ b).
Proof.
  intros Hb Hw. apply Z.bits_inj'. intros i Hi. rewrite Z.land_spec, field_testbit by lia.
  rewrite (Z.mul_comm (2 ^ b)), <- Z.shiftl_mul_pow2, <- Z.shiftr_div_pow2, Z.shiftl_spec by lia.
  destruct (Z.leb_spec b i); cbn [andb]; [|rewrite (Z.testbit_neg_r _ (i - b)) by lia; apply andb_false_r].
  rewrite Z.shiftr_spec by lia. replace (i - b + b) with i by lia.
  destruct (Z.ltb_spec i (b + (32 - b))); [by rewrite andb_true_r|].
  rewrite (word_testbit_high w) by (done || lia). done.
Qed.

Section entry.
Context (b q : Z).
Hypotheses (Hb : 0 ≤ b ≤ 32) (Hq : 0 ≤ q < 2 ^ (32 - b)).

Lemma entry_word c : 0 ≤ c < 2 ^ b → is_word (2 ^ b * q + c).
Proof.
  intros Hc. unfold is_word. change word_mod with (2 ^ 32). assert (E : 2 ^ b * 2 ^ (32 - b) = 2 ^ 32) by (rewrite <- Z.pow_add_r by lia; f_equal; lia).
  assert (2 ^ b * q ≤ 2 ^ b * (2 ^ (32 - b) - 1)) by (apply Z.mul_le_mono_nonneg_l; lia). nia.
Qed.

Lemma put_base : put (field b (32 - b)) 0 (2 ^ b * q) 0 = Done (2 ^ b * q + 0).
Proof.
  pose proof (Z.pow_pos_nonneg 2 b ltac:(lia) ltac:(lia)) as Hp.
  assert (Hw : is_word (2 ^ b * q)) by (rewrite <- (Z.add_0_r (_ * _)); apply entry_word; lia).
  assert (El : Z.land (2 ^ b * q) (field b (32 - b)) = 2 ^ b * q).
  { rewrite land_high by done. rewrite (Z.mul_comm _ q), Z.div_mul by lia. lia. }
  unfold put, bf_put. rewrite El, Z.shiftl_0_r, Z.lor_0_l, (wrap32_small _ Hw), Z.add_0_r.
  assert (Ef : bf_fits (wrap32 (Z.lnot (field b (32 - b)))) (2 ^ b * q) = true); [|by rewrite Ef].
  unfold bf_fits. apply Z.eqb_eq. rewrite <- El. apply Z.bits_inj'. intros i Hi.
  rewrite !Z.land_spec, wrap32_testbit, Z.lnot_spec, Z.bits_0 by lia.
  destruct (Z.testbit (field _ _) i); cbn; by rewrite !andb_false_r.
Qed.

Lemma put_flag ones shift v c : 0 ≤ c < 2 ^ b → bf_fits (wrap32 (Z.lnot ones)) v = true →
  0 ≤ Z.shiftl (Z.land v ones) shift < 2 ^ b →
  put ones shift v (2 ^ b * q + c) = Done (2 ^ b * q + Z.lor c (Z.shiftl (Z.land v ones) shift)).
Proof.
  intros Hc Hf Hv. unfold put, bf_put. rewrite Hf. cbn. f_equal. rewrite wrap32_small.
  - rewrite (lor_low b) by lia. done.
  - unfold is_word. change word_mod with (2 ^ 32). pose proof (Z.pow_le_mono_r 2 b 32). lia.
Qed.

Lemma get_flag mask shift c : 0 ≤ c < 2 ^ b → 0 ≤ mask < 2 ^ b → bf_get mask shift (2 ^ b * q + c) = bf_get mask shift c.
Proof. intros. unfold bf_get. by rewrite (land_low b) by lia. Qed.

Lemma get_base c : 0 ≤ c < 2 ^ b → bf_get (field b (32 - b)) 0 (2 ^ b * q + c) = 2 ^ b * q.
Proof.
  intros Hc. unfold bf_get. rewrite Z.shiftr_0_r, land_high by (done || by apply entry_word).
  f_equal. rewrite (Z.mul_comm _ q), Z.div_add_l, Z.div_small by lia. lia.
Qed.
End entry.

Lemma bit_get off w : 0 ≤ off → bf_get (field off 1) off w = 0 ∨ bf_get (field off 1) off w = 1.
Proof. intros. pose proof (bf_get_range off 1 w ltac:(lia) ltac:(lia)). lia. Qed.

Lemma attribute_bits w :
  (vm_attributes_get_x86PATBit w = 0 ∨ vm_attributes_get_x86PATBit w = 1) ∧
  (vm_attributes_get_x86PCDBit w = 0 ∨ vm_attributes_get_x86PCDBit w = 1) ∧
  (vm_attributes_get_x86PWTBit w = 0 ∨ vm_attributes_get_x86PWTBit w = 1).
Proof. split_and!; [exact (bit_get 2 w ltac:(lia))|exact (bit_get 1 w ltac:(lia))|exact (bit_get 0 w ltac:(lia))]. Qed.

(** Bits of an entry, as the processor tests them. *)
Definition present_bit (w : Z) : bool := Z.testbit w 0.
Definition write_bit (w : Z) : bool := Z.testbit w 1.
Definition user_bit (w : Z) : bool := Z.testbit w 2.
Definition size_bit (w : Z) : bool := Z.testbit w 7.

Lemma get_bit i w : 0 ≤ i → negb (bf_get (field i 1) i w =? 0) = Z.testbit w i.
Proof.
  intros Hi. assert (E : Z.testbit (bf_get (field i 1) i w) 0 = Z.testbit w i).
  { unfold bf_get. rewrite Z.shiftr_spec, Z.land_spec, field_testbit by lia. rewrite Z.add_0_l, Z.leb_refl.
    destruct (Z.ltb_spec i (i + 1)); [apply andb_true_r|lia]. }
  rewrite <- E. by destruct (bit_get i w Hi) as [-> | ->].
Qed.

Lemma page_size_bit w : pde_get_page_size w = if size_bit w then pde_pde_large else pde_pde_small.
Proof.
  unfold pde_get_page_size, size_bit. change 0x1 with (Z.ones 1). rewrite Z.land_ones by lia. change (2 ^ 1) with 2.
  rewrite Zmod_odd, <- Z.bit0_odd, Z.shiftr_spec by lia. done.
Qed.

Lemma small_present_bits w : small_present w = Done (negb (size_bit w) && present_bit w).
Proof.
  unfold small_present, pde_pde_small_get_present, tagged. rewrite page_size_bit. destruct (size_bit w); cbn; [done|].
  by rewrite (get_bit 0).
Qed.
Lemma large_present_bits w : large_present w = Done (size_bit w && present_bit w).
Proof.
  unfold large_present, pde_pde_large_get_present, tagged. rewrite page_size_bit. destruct (size_bit w); cbn; [|done].
  by rewrite (get_bit 0).
Qed.

Definition rights_ok (r : Z) : Prop := r = VMKernelOnly ∨ r = VMReadOnly ∨ r = VMReadWrite.

(** What the processor reads in an entry for a frame: its address, and whether
    user code may use it at all and write to it. *)
Definition maps_page (mask paddr vm_rights w : Z) : Prop :=
  is_word w ∧ bf_get mask 0 w = paddr ∧ present_bit w = true ∧
  user_bit w = negb (vm_rights =? VMKernelOnly) ∧ write_bit w = negb (vm_rights =? VMReadOnly).

Lemma low_bits b q c i : 0 ≤ i < b → 0 ≤ c < 2 ^ b → Z.testbit (2 ^ b * q + c) i = Z.testbit c i.
Proof.
  intros Hi Hc. rewrite <- (Z.mod_pow2_bits_low (2 ^ b * q + c) b i) by lia.
  by rewrite Z.add_comm, Z.mul_comm, Z.mod_add, Z.mod_small by lia.
Qed.

(** Flags below the base address. *)
Fixpoint flags (l : list (Z * Z * Z)) (c : Z) : Z :=
  match l with
  | [] => c
  | (ones, shift, v) :: l => flags l (Z.lor c (Z.shiftl (Z.land v ones) shift))
  end.
Definition flag_ok (b : Z) (f : Z * Z * Z) : bool :=
  let '(ones, shift, v) := f in
  bf_fits (wrap32 (Z.lnot ones)) v && (0 <=? Z.shiftl (Z.land v ones) shift) && (Z.shiftl (Z.land v ones) shift <? 2 ^ b).

Lemma puts_flags b q l c : 0 ≤ b ≤ 32 → 0 ≤ c < 2 ^ b → forallb (flag_ok b) l = true →
  puts l (2 ^ b * q + c) = Done (2 ^ b * q + flags l c) ∧ 0 ≤ flags l c < 2 ^ b.
Proof.
  intros Hb. revert c. induction l as [|[[ones shift] v] l IH]; intros c Hc; cbn [forallb puts flags]; [done|].
  intros [Hf Hl]%andb_prop. unfold flag_ok in Hf. apply andb_prop in Hf as [[Hf Hv1%Z.leb_le]%andb_prop Hv2%Z.ltb_lt].
  rewrite (put_flag b q) by (done || lia). cbn [mbind outcome_bind]. apply IH; [|done]. apply lor_below; lia.
Qed.

(** An entry made of an aligned address and flags. *)
Lemma puts_entry b paddr l : 0 ≤ b ≤ 32 → is_word paddr → (2 ^ b | paddr) → forallb (flag_ok b) l = true →
  ∃ w, puts ((field b (32 - b), 0, paddr) :: l) 0 = Done w ∧ is_word w ∧ bf_get (field b (32 - b)) 0 w = paddr ∧
    ∀ i, 0 ≤ i < b → Z.testbit w i = Z.testbit (flags l 0) i.
Proof.
  intros Hb Hw [q ->] Hl. pose proof (Z.pow_pos_nonneg 2 b ltac:(lia) ltac:(lia)) as Hp.
  assert (E : 2 ^ b * 2 ^ (32 - b) = 2 ^ 32) by (rewrite <- Z.pow_add_r by lia; f_equal; lia).
  unfold is_word in Hw. change word_mod with (2 ^ 32) in Hw. assert (Hq : 0 ≤ q < 2 ^ (32 - b)) by nia.
  rewrite (Z.mul_comm q). destruct (puts_flags b q l 0 Hb) as [Ep Hc]; [lia|done|]. exists (2 ^ b * q + flags l 0).
  split_and!.
  - cbn [puts]. rewrite put_base by done. exact Ep.
  - by apply entry_word.
  - by apply get_base.
  - intros i Hi. by apply low_bits.
Qed.

(** The entry for [paddr] once the value of every flag is known. *)
Ltac entry_for b paddr :=
  let w := fresh "w" in let Ew := fresh in let Hf := fresh in
  edestruct (puts_entry b paddr) as (w & Ew & ? & ? & Hf);
  [lia|done|done| |exists w; split; [exact Ew|]; unfold maps_page; split_and!; try done; apply Hf; lia]; reflexivity.

Lemma makeUserPTE_maps paddr attr r : is_word paddr → (4096 | paddr) → rights_ok r →
  ∃ w, makeUserPTE paddr attr r = Done w ∧ maps_page 0xfffff000 paddr r w.
Proof.
  intros Hw Hd Hr. destruct (attribute_bits attr) as (P & C & W). unfold makeUserPTE.
  destruct P as [-> | ->], C as [-> | ->], W as [-> | ->], Hr as [-> |[-> | ->]];
    entry_for 12 paddr.
Qed.

Lemma makeUserPDELargePage_maps paddr attr r : is_word paddr → (2 ^ 21 | paddr) → rights_ok r →
  ∃ w, makeUserPDELargePage paddr attr r = Done w ∧ size_bit w = true ∧ maps_page 0xffe00000 paddr r w.
Proof.
  intros Hw Hd Hr. destruct (attribute_bits attr) as (P & C & W). unfold makeUserPDELargePage.
  destruct P as [-> | ->], C as [-> | ->], W as [-> | ->], Hr as [-> |[-> | ->]];
    entry_for 21 paddr.
Qed.

(** A page table lets everything through: its own entries decide. *)
Lemma makeUserPDEPageTable_points paddr attr : is_word paddr → (4096 | paddr) →
  ∃ w, makeUserPDEPageTable paddr attr = Done w ∧ size_bit w = false ∧ maps_page 0xfffff000 paddr VMReadWrite w.
Proof.
  intros Hw Hd. destruct (attribute_bits attr) as (_ & C & W). unfold makeUserPDEPageTable.
  destruct C as [-> | ->], W as [-> | ->];
    entry_for 12 paddr.
Qed.

Lemma invalid_entries : makeUserPTEInvalid = Done 0 ∧ makeUserPDELargePageInvalid = Done 128 ∧ makeUserPDEPageTableInvalid = Done 0 ∧
  asid_map_asid_map_none_new = Done 0.
Proof. done. Qed.

Lemma vspace_map root : is_word root → (4096 | root) →
  ∃ w, asid_map_asid_map_vspace_new root = Done w ∧ asid_map_get_type w = asid_map_asid_map_vspace ∧
    asid_map_asid_map_vspace_get_vspace_root w = Done root.
Proof.
  intros Hw Hd. destruct (puts_entry 12 root [(0x3, 0, asid_map_asid_map_vspace)]) as (w & Ew & Hww & Hb & Hf); [lia|done|done|done|].
  assert (Et : asid_map_get_type w = asid_map_asid_map_vspace).
  { unfold asid_map_get_type. rewrite Z.shiftr_0_r. apply Z.bits_inj'. intros i Hi. rewrite Z.land_spec.
    destruct (Z.lt_ge_cases i 2) as [Hl|]; [rewrite Hf by lia; by assert (i = 0 ∨ i = 1) as [-> | ->] by lia|].
    rewrite (small_testbit 0x3 2), (small_testbit asid_map_asid_map_vspace 2) by (unfold asid_map_asid_map_vspace; lia). apply andb_false_r. }
  exists w. split_and!; [exact Ew|done|]. unfold asid_map_asid_map_vspace_get_vspace_root. rewrite Et. exact (f_equal Done Hb).
Qed.
