(* ===== verification/VSpace.v ===== *)
(** Address spaces ([arch/x86/kernel/vspace.c], [arch/x86/32/kernel/vspace.c] and
    [vspace_32paging.c]): ASIDs and the page directories they stand for, the
    entries of page tables and directories, and what is unmapped when a
    capability goes.

    Page tables, page directories and ASID pools are words of memory
    ([mem_words]).  What the processor caches of them, and which directory it
    uses, is outside: [setCurrentPD] and the invalidations are recorded.  So is
    the test of [setVMRoot] that spares a reload of the directory in use. *)

From S2P Require Import Prelude Caps Kernel CSpace CNode Scheduler Paging.

Definition asidInvalid : Z := 0.
Definition asidHighBits : Z := 2.
Definition asidLowBits : Z := 10.

(** [enum vm_page_map_type] *)
Definition X86_MappingNone : Z := 0.
Definition X86_MappingVSpace : Z := 1.
Definition X86_MappingIOSpace : Z := 2.

Definition PPTR_BASE : Z := 0xe0000000.
(** [PPTR_BASE & ~MASK(LARGE_PAGE_BITS)] *)
Definition PPTR_USER_TOP : Z := 0xe0000000.
Definition ptrFromPAddr (paddr : Z) : Z := wrap32 (paddr + PPTR_BASE).
Definition addrFromPPtr (pptr : Z) : Z := wrap32 (pptr - PPTR_BASE).

(** Entry [i] of an array of words at [p]. *)
Definition entry_ptr (p i : Z) : Z := wrap32 (p + 4 * i).

(** ** Address space identifiers *)

(** [x86KSASIDTable[i]] *)
Definition asid_table_at (i : Z) : K Z := λ k,
  match x86KSASIDTable (x86 k) !! Z.to_nat i with Some p => (Done p, k) | None => (Halted BadPointer, k) end.
Definition asid_table_set (i p : Z) : K unit := λ k,
  match x86KSASIDTable (x86 k) !! Z.to_nat i with
  | Some _ => (Done tt, k <| x86 ::= λ x, x <| x86KSASIDTable ::= <[Z.to_nat i := p]> |> |>)
  | None => (Halted BadPointer, k)
  end.

Definition findMapForASID (asid : Z) : K Z :=
  poolPtr ← asid_table_at (Z.shiftr asid asidLowBits);
  if poolPtr =? 0 then lift asid_map_asid_map_none_new
  else word_at (entry_ptr poolPtr (Z.land asid (MASK asidLowBits))).

(** The page directory, or [EXCEPTION_LOOKUP_FAULT]. *)
Definition findVSpaceForASID (asid : Z) : K (option Z) :=
  asid_map ← findMapForASID asid;
  if negb (asid_map_get_type asid_map =? asid_map_asid_map_vspace) then
    set_lookup_fault lookup_fault_invalid_root;;
    mret None
  else
    root ← lift (asid_map_asid_map_vspace_get_vspace_root asid_map);
    mret (Some root).

Definition isVTableRoot (cap : cap_t) : bool :=
  match cap with cap_page_directory_cap _ _ _ _ => true | _ => false end.
Definition isValidNativeRoot (cap : cap_t) : bool :=
  match cap with cap_page_directory_cap mapped _ _ _ => isVTableRoot cap && mapped | _ => false end.
(** [NULL] when the capability is not a root. *)
Definition getValidNativeRoot (cap : cap_t) : Z :=
  match cap with
  | cap_page_directory_cap _ _ _ ptr => if isValidNativeRoot cap then ptr else 0
  | _ => 0
  end.
Definition cap_get_capMappedASID (cap : cap_t) : outcome Z :=
  match cap with cap_page_directory_cap _ asid _ _ => mret asid | _ => Halted AssertFailed end.

Definition setVMRoot (tcb : Z) : K unit :=
  s ← cte_at (TCB_PTR_CTE_PTR tcb tcbVTable);
  let threadRoot := cte_cap s in
  let vspace_root := getValidNativeRoot threadRoot in
  if vspace_root =? 0 then
    g ← gets (λ k, ia32KSGlobalPD (x86 k));
    arch_call_made (call_setCurrentPD (addrFromPPtr g))
  else
    asid ← lift (cap_get_capMappedASID threadRoot);
    find_ret ← findVSpaceForASID asid;
    g ← gets (λ k, ia32KSGlobalPD (x86 k));
    match find_ret with
    | Some r =>
      if negb (r =? vspace_root) then arch_call_made (call_setCurrentPD (addrFromPPtr g))
      else arch_call_made (call_setCurrentPD (addrFromPPtr vspace_root))
    | None => arch_call_made (call_setCurrentPD (addrFromPPtr g))
    end.

(** There are no process-context identifiers in 32-bit mode. *)
Definition hwASIDInvalidate (asid vspace : Z) : K unit := mret tt.

Definition deleteASIDPool (asid_base pool : Z) : K unit :=
  assert (Z.land asid_base (MASK asidLowBits) =? 0);;
  p ← asid_table_at (Z.shiftr asid_base asidLowBits);
  when (p =? pool)
    (for_range 0 (Z.to_nat (BIT asidLowBits)) (λ offset,
       asid_map ← word_at (entry_ptr pool offset);
       when (asid_map_get_type asid_map =? asid_map_asid_map_vspace)
         (vspace ← lift (asid_map_asid_map_vspace_get_vspace_root asid_map);
          hwASIDInvalidate (wrap32 (asid_base + offset)) vspace));;
     asid_table_set (Z.shiftr asid_base asidLowBits) 0;;
     ct ← cur;
     setVMRoot ct).

Definition deleteASID (asid vspace : Z) : K unit :=
  poolPtr ← asid_table_at (Z.shiftr asid asidLowBits);
  hwASIDInvalidate asid vspace;;
  when (negb (poolPtr =? 0))
    (let e := entry_ptr poolPtr (Z.land asid (MASK asidLowBits)) in
     asid_map ← word_at e;
     same ← (if asid_map_get_type asid_map =? asid_map_asid_map_vspace then
               root ← lift (asid_map_asid_map_vspace_get_vspace_root asid_map);
               mret (root =? vspace)
             else mret false);
     when (same : bool)
       (none ← lift asid_map_asid_map_none_new;
        word_set e none;;
        ct ← cur;
        setVMRoot ct)).

(** ** Page tables and directories *)

(** The entry of the page directory for an address; the lookup does not fail. *)
Definition lookupPDSlot (vspace vptr : Z) : Z := entry_ptr vspace (Z.shiftr vptr 22).

(** The entry of the page table, or [EXCEPTION_LOOKUP_FAULT]. *)
Definition lookupPTSlot (vspace vptr : Z) : K (option Z) :=
  pde ← word_at (lookupPDSlot vspace vptr);
  sp ← lift (small_present pde);
  if negb sp then
    set_lookup_fault (lookup_fault_missing_capability 22);;
    mret None
  else
    base ← lift (pde_pde_small_get_pt_base_address pde);
    mret (Some (entry_ptr (ptrFromPAddr base) (Z.land (Z.shiftr vptr 12) (MASK 10)))).

(** Whether the running thread uses the address space. *)
Definition current_vspace (vspace : Z) : K bool :=
  ct ← cur;
  s ← cte_at (TCB_PTR_CTE_PTR ct tcbVTable);
  if isValidNativeRoot (cte_cap s) then
    p ← lift (cap_get_capPtr (cte_cap s));
    mret (p =? vspace)
  else mret false.

Definition flushTable (vspace vptr pt asid : Z) : K unit :=
  assert (Z.land vptr (MASK 22) =? 0);;
  mine ← current_vspace vspace;
  for_range 0 (Z.to_nat (BIT 10)) (λ i,
    pte ← word_at (entry_ptr pt i);
    when (negb (pte_get_present pte =? 0) && mine)
      (arch_call_made (call_invalidateTranslationSingleASID (wrap32 (vptr + Z.shiftl i 12)) asid))).

Definition modeUnmapPage (page_size vroot vaddr pptr : Z) : K unit := halt_with AssertFailed.

(** The entry of a page goes, when it is still the one of this frame; whether it
    was. *)
Definition unmap_small (vspace vptr pptr : Z) : K bool :=
  lu_ret ← lookupPTSlot vspace vptr;
  match lu_ret with
  | None => mret false
  | Some ptSlot =>
    pte ← word_at ptSlot;
    if negb (negb (pte_get_present pte =? 0) && (pte_get_page_base_address pte =? addrFromPPtr pptr)) then mret false
    else
      pte ← lift makeUserPTEInvalid;
      word_set ptSlot pte;;
      mret true
  end.

Definition unmap_large (vspace vptr pptr : Z) : K bool :=
  let pdSlot := lookupPDSlot vspace vptr in
  pde ← word_at pdSlot;
  lp ← lift (large_present pde);
  base ← (if (lp : bool) then lift (pde_pde_large_get_page_base_address pde) else mret 0);
  if negb (lp && (base =? addrFromPPtr pptr)) then mret false
  else
    pde ← lift makeUserPDELargePageInvalid;
    word_set pdSlot pde;;
    mret true.

Definition unmapPage (page_size asid vptr pptr : Z) : K unit :=
  find_ret ← findVSpaceForASID asid;
  match find_ret with
  | None => mret tt
  | Some vspace =>
    gone ← (if page_size =? X86_SmallPage then unmap_small vspace vptr pptr
            else if page_size =? X86_LargePage then unmap_large vspace vptr pptr
            else modeUnmapPage page_size vspace vptr pptr;; mret true);
    when (gone : bool)
      (mine ← current_vspace vspace;
       when (mine : bool) (arch_call_made (call_invalidateTranslationSingleASID vptr asid)))
  end.

Definition unmapPageTable (asid vaddr pt : Z) : K unit :=
  find_ret ← findVSpaceForASID asid;
  match find_ret with
  | None => mret tt
  | Some vspace =>
    let pdSlot := lookupPDSlot vspace vaddr in
    pde ← word_at pdSlot;
    sp ← lift (small_present pde);
    base ← (if (sp : bool) then lift (pde_pde_small_get_pt_base_address pde) else mret 0);
    if negb (sp && (base =? addrFromPPtr pt)) then mret tt
    else
      flushTable vspace vaddr pt asid;;
      pde ← lift makeUserPDEPageTableInvalid;
      word_set pdSlot pde;;
      arch_call_made (call_invalidatePageStructureCacheASID (addrFromPPtr vspace) asid)
  end.

Definition unmapPageDirectory (asid vaddr pd : Z) : K unit := deleteASID asid pd.

(** The kernel's own entries, in every page directory. *)
Definition copyGlobalMappings (new_vspace : Z) : K unit :=
  let lo := Z.shiftr PPTR_BASE 22 in
  for_range lo (Z.to_nat (BIT 10 - lo)) (λ i,
    g ← gets (λ k, ia32KSGlobalPD (x86 k));
    pde ← word_at (entry_ptr g i);
    word_set (entry_ptr new_vspace i) pde).

(** ** What these operations leave alone *)

(** An ASID is an index of the pools. *)
Definition root_ok (c : cap_t) : Prop :=
  match c with cap_page_directory_cap _ asid _ _ => 0 ≤ asid < 4096 | _ => True end.

(** The table of ASID pools is whole, and the running thread has the slot of its
    address space. *)
Definition vm_ok (k : ks) : Prop :=
  length (x86KSASIDTable (x86 k)) = 4%nat ∧
  ∃ s, ctes k !! TCB_PTR_CTE_PTR (ksCurThread k) tcbVTable = Some s ∧ root_ok (cte_cap s).

(** Nothing but memory, the table of ASID pools, the calls made and the lookup
    fault differs. *)
Definition vm_only (k k' : ks) : Prop :=
  k' = k <| mem_words := mem_words k' |> <| x86 := x86 k' |> <| arch_calls := arch_calls k' |>
         <| current_lookup_fault := current_lookup_fault k' |> ∧
  length (x86KSASIDTable (x86 k')) = length (x86KSASIDTable (x86 k)).

#[export] Instance vm_only_preorder : PreOrder vm_only.
Proof.
  split.
  - intros k. split; [by destruct k|done].
  - intros k1 k2 k3 [E2 L2] [E3 L3]. split; [|congruence]. rewrite E3, E2. by destruct k3, k1.
Qed.

Lemma vm_only_ok k k' : vm_only k k' → vm_ok k → vm_ok k'.
Proof. intros [E L] [H1 H2]. split; [congruence|]. by rewrite E. Qed.

(** A computation that ends and leaves the rest alone. *)
Definition tidy {A} (m : K A) : Prop := ∀ k, vm_ok k → wp m (λ _ k', vm_only k k') k.

Lemma tidy_ret {A} (a : A) : tidy (mret a).
Proof. intros k _. by apply wp_ret. Qed.
Lemma tidy_bind {A B} (m : K A) (f : A → K B) : tidy m → (∀ a, tidy (f a)) → tidy (m ≫= f).
Proof.
  intros Hm Hf k Hk. apply wp_bind. eapply wp_mono; [by apply Hm|]. intros a k1 H1.
  eapply wp_mono; [by apply Hf, (vm_only_ok k)|]. intros b k2 H2. by trans k1.
Qed.
Lemma tidy_gets {A} (f : ks → A) : tidy (gets f).
Proof. intros k _. by apply wp_gets. Qed.
Lemma tidy_lift {A B} (o : outcome A) a (f : A → K B) : o = Done a → tidy (f a) → tidy (lift o ≫= f).
Proof. intros -> Hf. exact Hf. Qed.
Lemma tidy_cte_root {B} (f : cte_t → K B) : (∀ s, root_ok (cte_cap s) → tidy (f s)) →
  tidy (ct ← cur; s ← cte_at (TCB_PTR_CTE_PTR ct tcbVTable); f s).
Proof.
  intros Hf k Hk. apply wp_bind, wp_gets. destruct Hk as [L (s & Hs & Hr)]. apply wp_bind. apply (wp_cte_at _ s); [done|].
  apply Hf; [done|]. split; [done|by exists s].
Qed.
Lemma tidy_when b (m : K unit) : (b = true → tidy m) → tidy (when b m).
Proof. destruct b; cbn; [auto|intros; apply tidy_ret]. Qed.
Lemma tidy_assert b : b = true → tidy (assert b).
Proof. intros -> k _. by apply wp_assert. Qed.
Lemma tidy_for lo n body : (∀ i, lo ≤ i < lo + Z.of_nat n → tidy (body i)) → tidy (for_range lo n body).
Proof.
  intros Hb k Hk. apply (wp_for_range (λ _ k', vm_only k k')); [done|]. intros i k' Hi H.
  eapply wp_mono; [by apply Hb, (vm_only_ok k)|]. intros [] k2 H2. by trans k'.
Qed.

Lemma tidy_word_at a : tidy (word_at a).
Proof. apply tidy_gets. Qed.
Lemma tidy_word_set a v : tidy (word_set a v).
Proof. intros k _. apply wp_modify. split; [by destruct k|done]. Qed.
Lemma tidy_arch_call a : tidy (arch_call_made a).
Proof. intros k _. apply wp_modify. split; [by destruct k|done]. Qed.
Lemma tidy_set_lookup_fault f : tidy (set_lookup_fault f).
Proof. intros k _. apply wp_modify. split; [by destruct k|done]. Qed.

(** An index of the table of ASID pools. *)
Lemma asid_high asid : 0 ≤ asid < 4096 → (Z.to_nat (Z.shiftr asid asidLowBits) < 4)%nat.
Proof.
  intros H. unfold asidLowBits. rewrite Z.shiftr_div_pow2 by lia. change (2 ^ 10) with 1024.
  assert (asid / 1024 < 4) by (apply Z.div_lt_upper_bound; lia). pose proof (Z.div_pos asid 1024). lia.
Qed.

Lemma tidy_asid_table_at i : (Z.to_nat i < 4)%nat → tidy (asid_table_at i).
Proof.
  intros Hi k [L _]. unfold wp, asid_table_at. destruct (lookup_lt_is_Some_2 (x86KSASIDTable (x86 k)) (Z.to_nat i)) as [p ->]; [lia|done].
Qed.
Lemma tidy_asid_table_set i p : (Z.to_nat i < 4)%nat → tidy (asid_table_set i p).
Proof.
  intros Hi k [L _]. unfold wp, asid_table_set.
  destruct (lookup_lt_is_Some_2 (x86KSASIDTable (x86 k)) (Z.to_nat i)) as [p' ->]; [lia|].
  split; [by destruct k|]. cbn. apply length_insert.
Qed.

Create HintDb tidy.
#[export] Hint Resolve tidy_ret tidy_word_at tidy_word_set tidy_arch_call tidy_set_lookup_fault tidy_gets tidy_asid_table_at
  tidy_asid_table_set asid_high : tidy.

(** The steps whose form tells what to do. *)
Ltac tidy_steps :=
  repeat first
    [ match goal with |- ∀ _, _ => intro end
    | progress cbn [when]
    | solve [auto with tidy]
    | apply tidy_when; intro
    | match goal with
      | |- tidy (mbind _ (lift (small_present _))) => eapply tidy_lift; [apply small_present_bits|]
      | |- tidy (mbind _ (lift (large_present _))) => eapply tidy_lift; [apply large_present_bits|]
      | |- tidy (mbind _ (lift _)) => first [eapply tidy_lift; [reflexivity|] | fail 2]
      | |- tidy (mbind _ (if ?b then _ else _)) => destruct b eqn:?
      | |- tidy (mbind _ _) => apply tidy_bind
      | |- tidy (if ?b then _ else _) => destruct b eqn:?
      | |- tidy (match ?x with _ => _ end) => destruct x eqn:?
      end ].

Lemma vspace_root_done w : asid_map_get_type w =? asid_map_asid_map_vspace = true →
  asid_map_asid_map_vspace_get_vspace_root w = Done (bf_get 0xfffff000 0 w).
Proof. intros E. unfold asid_map_asid_map_vspace_get_vspace_root. by rewrite E. Qed.

Lemma small_base_done w : negb (size_bit w) && present_bit w = true →
  pde_pde_small_get_pt_base_address w = Done (bf_get 0xfffff000 0 w).
Proof. unfold pde_pde_small_get_pt_base_address, tagged. rewrite page_size_bit. by destruct (size_bit w). Qed.
Lemma large_base_done w : size_bit w && present_bit w = true →
  pde_pde_large_get_page_base_address w = Done (bf_get 0xffe00000 0 w).
Proof. unfold pde_pde_large_get_page_base_address, tagged. rewrite page_size_bit. by destruct (size_bit w). Qed.

Lemma tidy_findVSpace asid : 0 ≤ asid < 4096 → tidy (findVSpaceForASID asid).
Proof.
  intros H. unfold findVSpaceForASID, findMapForASID. apply tidy_bind.
  - apply tidy_bind; [auto with tidy|]. intros p. destruct (p =? 0); [intros k Hk; exact (reflexivity k)|auto with tidy].
  - intros w. destruct (asid_map_get_type w =? asid_map_asid_map_vspace) eqn:E; cbn [negb]; tidy_steps.
    eapply tidy_lift; [by apply vspace_root_done|]. auto with tidy.
Qed.
#[export] Hint Resolve tidy_findVSpace : tidy.

Lemma tidy_setVMRoot : tidy (ct ← cur; setVMRoot ct).
Proof.
  unfold setVMRoot. apply tidy_cte_root. intros s Hr. destruct (getValidNativeRoot (cte_cap s) =? 0) eqn:E; [tidy_steps|].
  destruct (cte_cap s); try done. cbn [cap_get_capMappedASID]. tidy_steps.
Qed.
Lemma tidy_current_vspace v : tidy (current_vspace v).
Proof.
  unfold current_vspace. apply tidy_cte_root. intros s Hr. destruct (isValidNativeRoot (cte_cap s)) eqn:E; [|tidy_steps].
  destruct (cte_cap s); try done. cbn [cap_get_capPtr]. tidy_steps.
Qed.
#[export] Hint Resolve tidy_setVMRoot tidy_current_vspace : tidy.

Lemma tidy_deleteASIDPool base pool : 0 ≤ base < 4096 → (1024 | base) → tidy (deleteASIDPool base pool).
Proof.
  intros Hb [q ->]. unfold deleteASIDPool. apply tidy_bind.
  { apply tidy_assert, Z.eqb_eq. change (MASK asidLowBits) with (Z.ones 10). rewrite Z.land_ones by lia. apply Z_mod_mult. }
  intros []. tidy_steps. apply tidy_for. intros i Hi. tidy_steps.
  eapply tidy_lift; [by apply vspace_root_done|]. unfold hwASIDInvalidate. auto with tidy.
Qed.

Lemma tidy_deleteASID asid v : 0 ≤ asid < 4096 → tidy (deleteASID asid v).
Proof.
  intros H. unfold deleteASID, hwASIDInvalidate. tidy_steps.
  all: eapply tidy_lift; [by apply vspace_root_done|]. all: tidy_steps.
Qed.

Lemma tidy_lookupPTSlot v p : tidy (lookupPTSlot v p).
Proof.
  unfold lookupPTSlot. tidy_steps. eapply tidy_lift; [apply small_base_done; by apply negb_false_iff|]. auto with tidy.
Qed.
#[export] Hint Resolve tidy_lookupPTSlot : tidy.

Lemma tidy_unmapPage size asid v p : size = X86_SmallPage ∨ size = X86_LargePage → 0 ≤ asid < 4096 → tidy (unmapPage size asid v p).
Proof.
  intros Hs H. unfold unmapPage. apply tidy_bind; [auto with tidy|]. intros [r|]; [|auto with tidy].
  assert (Hg : ∀ m : K bool, tidy m → tidy (gone ← m; when (gone : bool) (mine ← current_vspace r;
    when (mine : bool) (arch_call_made (call_invalidateTranslationSingleASID v asid))))) by (intros; tidy_steps).
  destruct Hs as [-> | ->]; apply Hg; [change (tidy (unmap_small r v p))|change (tidy (unmap_large r v p))].
  - unfold unmap_small. tidy_steps.
  - unfold unmap_large. tidy_steps. eapply tidy_lift; [by apply large_base_done|]. tidy_steps.
Qed.

Lemma tidy_flushTable r v p asid : (2 ^ 22 | v) → tidy (flushTable r v p asid).
Proof.
  intros [q ->]. unfold flushTable. apply tidy_bind.
  { apply tidy_assert, Z.eqb_eq. change (MASK 22) with (Z.ones 22). rewrite Z.land_ones by lia. apply Z_mod_mult. }
  tidy_steps. apply tidy_for. intros i Hi. tidy_steps.
Qed.
#[export] Hint Resolve tidy_flushTable : tidy.

Lemma tidy_unmapPageTable asid v p : 0 ≤ asid < 4096 → (2 ^ 22 | v) → tidy (unmapPageTable asid v p).
Proof.
  intros H Hv. unfold unmapPageTable. tidy_steps. eapply tidy_lift; [by apply small_base_done|]. tidy_steps.
Qed.
