(* ===== verification/IOSpace.v ===== *)
(** Address spaces of devices ([arch/x86/object/iospace.c], on the tables of
    [plat/pc99/machine/intel-vtd.c]): the context of a device, the IO page tables
    below it, and what is unmapped when a capability goes.

    The tables are words of memory; the caches of the IOMMU are outside
    ([flushCacheRange] and [invalidate_iotlb] are recorded).  IO page tables have
    at most four levels ([x86KSnumIOPTLevels]), so that no shift exceeds a word. *)

From S2P Require Import Prelude Caps Kernel CSpace CNode Scheduler Paging VSpace.

Definition VTD_PTE_SIZE_BITS : Z := 3.
Definition VTD_CTE_SIZE_BITS : Z := 3.
Definition VTD_PT_BITS : Z := 9.

(** The address of the device's context entry. *)
Definition lookup_vtd_context_slot (cap : cap_t) : K Z :=
  pci_request_id ← lift (match cap with
    | cap_io_space_cap _ pci => mret pci
    | cap_io_page_table_cap _ _ _ ioasid _ => mret ioasid
    | cap_frame_cap _ asid _ _ _ _ _ => mret asid
    | _ => Halted AssertFailed
    end);
  root ← gets (λ k, x86KSvtdRootTable (x86 k));
  let vtd_root_index := Z.land (Z.shiftr pci_request_id 8) 0xff in
  let vtd_root_slot := wrap32 (root + 16 * vtd_root_index) in
  rte ← word_at vtd_root_slot;
  let vtd_context := ptrFromPAddr (vtd_rte_get_ctp rte) in
  let vtd_context_index :=
    Z.lor (Z.shiftl (Z.land (Z.shiftr pci_request_id 3) 0x1f) 3) (Z.land pci_request_id 0x7) in
  mret (wrap32 (vtd_context + 16 * vtd_context_index)).

(** The slot reached and the number of levels below it, or
    [EXCEPTION_LOOKUP_FAULT]; the recursion is on [levels_remaining]. *)
Fixpoint lookupIOPTSlot_resolve_levels (iopt translation levels_to_resolve : Z) (levels_remaining : nat) : K (option (Z * Z)) :=
  if iopt =? 0 then mret None
  else
    levels ← gets (λ k, x86KSnumIOPTLevels (x86 k));
    let shift := VTD_PT_BITS * (levels - 1 - (levels_to_resolve - Z.of_nat levels_remaining)) in
    let iopt_index := Z.land (Z.shiftr translation shift) (MASK VTD_PT_BITS) in
    let iopt_slot := wrap32 (iopt + 8 * iopt_index) in
    w ← word_at iopt_slot;
    match levels_remaining with
    | O => mret (Some (iopt_slot, 0))
    | S n =>
      if vtd_pte_get_write w =? 0 then mret (Some (iopt_slot, Z.of_nat levels_remaining))
      else lookupIOPTSlot_resolve_levels (ptrFromPAddr (vtd_pte_get_addr w)) translation levels_to_resolve n
    end.

Definition lookupIOPTSlot (iopt io_address : Z) : K (option (Z * Z)) :=
  if iopt =? 0 then mret None
  else
    levels ← gets (λ k, x86KSnumIOPTLevels (x86 k));
    lookupIOPTSlot_resolve_levels iopt (Z.shiftr io_address 12) (levels - 1) (Z.to_nat (levels - 1)).

(** [*slot = vtd_pte] and [*slot = vtd_cte] *)
Definition vtd_pte_set (slot w : Z) : K unit := word_set slot w;; word_set (entry_ptr slot 1) 0.
Definition vtd_cte_set (slot : Z) (w : Z * Z) : K unit :=
  word_set slot (fst w);; word_set (entry_ptr slot 1) 0;;
  word_set (entry_ptr slot 2) (snd w);; word_set (entry_ptr slot 3) 0.

(** The thread that runs restarts its system call, whatever it is that drops the
    capability. *)
Definition unmapVTDContextEntry (cap : cap_t) : K unit :=
  cte ← lookup_vtd_context_slot cap;
  assert (negb (cte =? 0));;
  w ← lift (vtd_cte_new 0 0 0 0 0 0);
  vtd_cte_set cte w;;
  arch_call_made (call_flushCacheRange cte VTD_CTE_SIZE_BITS);;
  arch_call_made call_invalidate_iotlb;;
  ct ← cur;
  setThreadState ct ThreadState_Restart.

(** The entry for a page table or a page goes when it still points to it. *)
Definition clear_iopt (lu_ret : option (Z * Z)) (base : Z) : K bool :=
  match lu_ret with
  | Some (slot, 0) =>
    w ← word_at slot;
    if negb (vtd_pte_get_addr w =? addrFromPPtr base) then mret false
    else
      w ← lift (vtd_pte_new 0 0 0);
      vtd_pte_set slot w;;
      arch_call_made (call_flushCacheRange slot VTD_PTE_SIZE_BITS);;
      mret true
  | _ => mret false
  end.

Definition deleteIOPageTable (io_pt_cap : cap_t) : K unit :=
  match io_pt_cap with
  | cap_io_page_table_cap mapped level io_address _ base =>
    if mapped then
      vtd_context_slot ← lookup_vtd_context_slot io_pt_cap;
      cte ← word_at vtd_context_slot;
      if vtd_cte_get_present cte =? 0 then mret tt
      else
        let vtd_pte := ptrFromPAddr (vtd_cte_get_asr cte) in
        gone ← (if level =? 0 then
                  if negb (addrFromPPtr vtd_pte =? addrFromPPtr base) then mret false
                  else
                    w ← lift (vtd_cte_new 0 0 0 0 0 0);
                    vtd_cte_set vtd_context_slot w;;
                    arch_call_made (call_flushCacheRange vtd_context_slot VTD_CTE_SIZE_BITS);;
                    mret true
                else
                  lu_ret ← lookupIOPTSlot_resolve_levels vtd_pte (Z.shiftr io_address 12) (level - 1) (Z.to_nat (level - 1));
                  clear_iopt lu_ret base);
        when (gone : bool) (arch_call_made call_invalidate_iotlb)
    else mret tt
  | _ => halt_with AssertFailed
  end.

Definition unmapIOPage (cap : cap_t) : K unit :=
  match cap with
  | cap_frame_cap _ _ io_address _ _ _ base =>
    vtd_context_slot ← lookup_vtd_context_slot cap;
    cte ← word_at vtd_context_slot;
    if vtd_cte_get_present cte =? 0 then mret tt
    else
      lu_ret ← lookupIOPTSlot (ptrFromPAddr (vtd_cte_get_asr cte)) io_address;
      gone ← clear_iopt lu_ret base;
      when (gone : bool) (arch_call_made call_invalidate_iotlb)
  | _ => halt_with AssertFailed
  end.

(** ** What these operations leave alone *)

Definition has_context (c : cap_t) : bool :=
  match c with cap_io_space_cap _ _ | cap_io_page_table_cap _ _ _ _ _ | cap_frame_cap _ _ _ _ _ _ _ => true | _ => false end.

Lemma tidy_lookup_context c : has_context c = true → tidy (lookup_vtd_context_slot c).
Proof. intros H. unfold lookup_vtd_context_slot. destruct c; try done; tidy_steps. Qed.

Lemma tidy_resolve_levels n : ∀ iopt t l, tidy (lookupIOPTSlot_resolve_levels iopt t l n).
Proof. induction n as [|n IH]; intros iopt t l; cbn [lookupIOPTSlot_resolve_levels]; tidy_steps. Qed.
#[export] Hint Resolve tidy_resolve_levels : tidy.

Lemma tidy_clear_iopt r b : tidy (clear_iopt r b).
Proof. unfold clear_iopt, vtd_pte_set. tidy_steps. Qed.
#[export] Hint Resolve tidy_clear_iopt : tidy.

Lemma tidy_deleteIOPageTable m l a i b : tidy (deleteIOPageTable (cap_io_page_table_cap m l a i b)).
Proof.
  unfold deleteIOPageTable. destruct m; [|auto with tidy]. apply tidy_bind; [by apply tidy_lookup_context|]. unfold vtd_cte_set. tidy_steps.
Qed.

Lemma tidy_unmapIOPage s a v m d r p : tidy (unmapIOPage (cap_frame_cap s a v m d r p)).
Proof.
  unfold unmapIOPage. apply tidy_bind; [by apply tidy_lookup_context|]. unfold lookupIOPTSlot. tidy_steps.
Qed.
