(* ===== verification/Ipc.v ===== *)
(** Threads waiting on endpoints and notifications: the queues of
    [object/tcb.c] ([tcbEPAppend], [tcbEPDequeue]), [object/notification.c],
    the cancelling half of [object/endpoint.c], the finalisation of
    capabilities ([object/objecttype.c] and its x86 part, [cteDeleteOne]), and
    [suspend], [restart] and [activateThread] of [kernel/thread.c].

    The abstract view ([ipc_ok]) gives every endpoint and every notification
    the list of the threads that wait on it.  The theorems say that signalling
    and waiting are the operations of a simple notification ([ntfn_signal],
    [ntfn_wait]), that cancelling removes exactly the thread it is asked to
    remove or releases every waiter, and that all of this keeps the scheduler's
    invariant ([sched_inv]). *)

From stdpp Require Import functions.
From S2P Require Import Prelude Caps Kernel CSpace CNode Scheduler Wakeup Paging VSpace IOSpace.

(** ** Registers *)

Definition badgeRegister : Z := 1.
Definition msgInfoRegister : Z := 4.
Definition FaultIP : Z := 11.
Definition NextIP : Z := 14.

Definition setRegister (t r v : Z) : K unit := tcb_set t (λ c, c <| registers ::= <[r := v]> |>).
Definition getRegister (t r : Z) : K Z := c ← tcb_at t; mret (default 0 (registers c !! r)).
Definition getRestartPC (t : Z) : K Z := getRegister t FaultIP.
Definition setNextPC (t v : Z) : K unit := setRegister t NextIP v.

(** ** The queue of an endpoint or a notification *)

Definition tcbEPAppend (tcb : Z) (queue : tcb_queue_t) : K tcb_queue_t :=
  queue1 ← (if q_head queue =? 0 then mret (queue <| q_head := tcb |>)
            else tcb_set (q_end queue) (λ c, c <| tcbEPNext := tcb |>);; mret queue);
  tcb_set tcb (λ c, c <| tcbEPPrev := q_end queue1 |>);;
  tcb_set tcb (λ c, c <| tcbEPNext := 0 |>);;
  mret (queue1 <| q_end := tcb |>).

Definition tcbEPDequeue (tcb : Z) (queue : tcb_queue_t) : K tcb_queue_t :=
  c ← tcb_at tcb;
  queue1 ← (if negb (tcbEPPrev c =? 0)
            then tcb_set (tcbEPPrev c) (λ p, p <| tcbEPNext := tcbEPNext c |>);; mret queue
            else mret (queue <| q_head := tcbEPNext c |>));
  c ← tcb_at tcb;
  if negb (tcbEPNext c =? 0)
  then tcb_set (tcbEPNext c) (λ n, n <| tcbEPPrev := tcbEPPrev c |>);; mret queue1
  else mret (queue1 <| q_end := tcbEPPrev c |>).

(** ** Notifications *)

Definition ntfn_ptr_get_queue (n : Z) : K tcb_queue_t := x ← ntfn_at n; mret (ntfnQueue x).
Definition ntfn_ptr_set_queue (n : Z) (q : tcb_queue_t) : K unit := ntfn_set n (λ x, x <| ntfnQueue := q |>).
Definition set_ntfn_state (n : Z) (s : notification_state) : K unit := ntfn_set n (λ x, x <| ntfnState := s |>).

Definition ntfn_set_active (n badge : Z) : K unit :=
  set_ntfn_state n NtfnState_Active;;
  ntfn_set n (λ x, x <| ntfnMsgIdentifier := badge |>).

Definition doNBRecvFailedTransfer (thread : Z) : K unit := setRegister thread badgeRegister 0.

(** A thread blocks: its state and the object, then [scheduleTCB]. *)
Definition receiveSignal (thread : Z) (cap : cap_t) (isBlocking : bool) : K unit :=
  match cap with
  | cap_notification_cap _ _ _ ntfnPtr =>
    x ← ntfn_at ntfnPtr;
    match ntfnState x with
    | NtfnState_Idle | NtfnState_Waiting =>
      if isBlocking then
        tcb_set thread (λ c, c <| tsType := ThreadState_BlockedOnNotification |>);;
        tcb_set thread (λ c, c <| blockingObject := ntfnPtr |>);;
        scheduleTCB thread;;
        ntfn_queue ← ntfn_ptr_get_queue ntfnPtr;
        ntfn_queue ← tcbEPAppend thread ntfn_queue;
        set_ntfn_state ntfnPtr NtfnState_Waiting;;
        ntfn_ptr_set_queue ntfnPtr ntfn_queue
      else doNBRecvFailedTransfer thread
    | NtfnState_Active =>
      setRegister thread badgeRegister (ntfnMsgIdentifier x);;
      set_ntfn_state ntfnPtr NtfnState_Idle
    end
  | _ => halt_with AssertFailed
  end.

(** The threads of a queue, from [thread] on, are made to restart. *)
Fixpoint restart_queue (fuel : nat) (thread : Z) : K unit :=
  if thread =? 0 then mret tt
  else
    match fuel with
    | O => halt_with OutOfFuel
    | S fuel' =>
      setThreadState thread ThreadState_Restart;;
      tcbSchedEnqueue thread;;
      c ← tcb_at thread;
      restart_queue fuel' (tcbEPNext c)
    end.

(** A queue holds no thread twice, so it is at most as long as there are threads. *)
Definition restart_all (thread : Z) : K unit :=
  n ← gets (λ k, size (tcbs k));
  restart_queue n thread.

Definition cancelAllSignals (ntfnPtr : Z) : K unit :=
  x ← ntfn_at ntfnPtr;
  match ntfnState x with
  | NtfnState_Waiting =>
    let thread := q_head (ntfnQueue x) in
    set_ntfn_state ntfnPtr NtfnState_Idle;;
    ntfn_set ntfnPtr (λ x, x <| ntfnQueue ::= λ q, q <| q_head := 0 |> |>);;
    ntfn_set ntfnPtr (λ x, x <| ntfnQueue ::= λ q, q <| q_end := 0 |> |>);;
    restart_all thread;;
    rescheduleRequired
  | _ => mret tt
  end.

Definition cancelSignal (threadPtr ntfnPtr : Z) : K unit :=
  x ← ntfn_at ntfnPtr;
  assert (match ntfnState x with NtfnState_Waiting => true | _ => false end);;
  ntfn_queue ← ntfn_ptr_get_queue ntfnPtr;
  ntfn_queue ← tcbEPDequeue threadPtr ntfn_queue;
  ntfn_ptr_set_queue ntfnPtr ntfn_queue;;
  when (q_head ntfn_queue =? 0) (set_ntfn_state ntfnPtr NtfnState_Idle);;
  setThreadState threadPtr ThreadState_Inactive.

Definition completeSignal (ntfnPtr tcb : Z) : K unit :=
  if tcb =? 0 then halt_with AssertFailed
  else
    x ← ntfn_at ntfnPtr;
    match ntfnState x with
    | NtfnState_Active =>
      setRegister tcb badgeRegister (ntfnMsgIdentifier x);;
      set_ntfn_state ntfnPtr NtfnState_Idle
    | _ => halt_with AssertFailed
    end.

Definition doUnbindNotification (ntfnPtr tcbptr : Z) : K unit :=
  ntfn_set ntfnPtr (λ x, x <| ntfnBoundTCB := 0 |>);;
  tcb_set tcbptr (λ c, c <| tcbBoundNotification := 0 |>).

Definition unbindMaybeNotification (ntfnPtr : Z) : K unit :=
  x ← ntfn_at ntfnPtr;
  when (negb (ntfnBoundTCB x =? 0)) (doUnbindNotification ntfnPtr (ntfnBoundTCB x)).

Definition unbindNotification (tcb : Z) : K unit :=
  c ← tcb_at tcb;
  when (negb (tcbBoundNotification c =? 0)) (doUnbindNotification (tcbBoundNotification c) tcb).

Definition bindNotification (tcb ntfnPtr : Z) : K unit :=
  ntfn_set ntfnPtr (λ x, x <| ntfnBoundTCB := tcb |>);;
  tcb_set tcb (λ c, c <| tcbBoundNotification := ntfnPtr |>).

(** ** Endpoints *)

Definition ep_ptr_get_queue (e : Z) : K tcb_queue_t := x ← ep_at e; mret (epQueue x).
Definition ep_ptr_set_queue (e : Z) (q : tcb_queue_t) : K unit := ep_set e (λ x, x <| epQueue := q |>).
Definition set_ep_state (e : Z) (s : endpoint_state) : K unit := ep_set e (λ x, x <| epState := s |>).

(** The endpoint becomes idle with an empty queue. *)
Definition make_ep_idle (e : Z) : K unit :=
  set_ep_state e EPState_Idle;;
  ep_set e (λ x, x <| epQueue ::= λ q, q <| q_head := 0 |> |>);;
  ep_set e (λ x, x <| epQueue ::= λ q, q <| q_end := 0 |> |>).

Definition cancelAllIPC (epptr : Z) : K unit :=
  x ← ep_at epptr;
  match epState x with
  | EPState_Idle => mret tt
  | _ =>
    let thread := q_head (epQueue x) in
    make_ep_idle epptr;;
    restart_all thread;;
    rescheduleRequired
  end.

(** The loop of [cancelBadgedSends]: the senders with the badge restart. *)
Fixpoint restart_badged (fuel : nat) (badge thread : Z) (queue : tcb_queue_t) : K tcb_queue_t :=
  if thread =? 0 then mret queue
  else
    match fuel with
    | O => halt_with OutOfFuel
    | S fuel' =>
      c ← tcb_at thread;
      let b := blockingIPCBadge c in
      let next := tcbEPNext c in
      queue ← (if b =? badge then
                 setThreadState thread ThreadState_Restart;;
                 tcbSchedEnqueue thread;;
                 tcbEPDequeue thread queue
               else mret queue);
      restart_badged fuel' badge next queue
    end.

Definition cancelBadgedSends (epptr badge : Z) : K unit :=
  x ← ep_at epptr;
  match epState x with
  | EPState_Idle | EPState_Recv => mret tt
  | EPState_Send =>
    let queue := epQueue x in
    make_ep_idle epptr;;
    n ← gets (λ k, size (tcbs k));
    queue ← restart_badged n badge (q_head queue) queue;
    ep_ptr_set_queue epptr queue;;
    when (negb (q_head queue =? 0)) (set_ep_state epptr EPState_Send);;
    rescheduleRequired
  end.

(** ** Finalisation *)

Definition Mode_finaliseCap (cap : cap_t) (final : bool) : K cap_t :=
  match cap with
  | cap_frame_cap size asid vaddr mapType _ _ ptr =>
    when (final && negb (asid =? 0))
      (if mapType =? X86_MappingVSpace then unmapPage size asid vaddr ptr
       else if mapType =? X86_MappingIOSpace then unmapIOPage cap
       else halt_with AssertFailed);;
    mret cap_null_cap
  | _ => halt_with AssertFailed
  end.

Definition Arch_finaliseCap (cap : cap_t) (final : bool) : K cap_t :=
  match cap with
  | cap_page_directory_cap mapped asid vaddr ptr =>
    when (final && mapped) (unmapPageDirectory asid vaddr ptr);; mret cap_null_cap
  | cap_page_table_cap mapped asid vaddr ptr =>
    when (final && mapped) (unmapPageTable asid vaddr ptr);; mret cap_null_cap
  | cap_asid_pool_cap base pool =>
    when final (deleteASIDPool base pool);; mret cap_null_cap
  | cap_asid_control_cap => mret cap_null_cap
  | cap_io_port_cap _ _ _ => mret cap_null_cap
  | cap_io_space_cap _ _ =>
    when final (unmapVTDContextEntry cap);; mret cap_null_cap
  | cap_io_page_table_cap mapped _ _ _ _ =>
    when (final && mapped) (deleteIOPageTable cap);; mret cap_null_cap
  | _ => Mode_finaliseCap cap final
  end.

Record finaliseCap_ret_t := mk_fc { fc_remainder : cap_t; fc_irq : Z }.

(** [finaliseCap] up to [if (exposed)]: the capabilities that go at once. *)
Definition finaliseCap_at_once (cap : cap_t) (final : bool) : K (option finaliseCap_ret_t) :=
  if isArchCap cap then
    r ← Arch_finaliseCap cap final;
    mret (Some (mk_fc r irqInvalid))
  else
    match cap with
    | cap_endpoint_cap _ _ _ _ ep =>
      when final (cancelAllIPC ep);;
      mret (Some (mk_fc cap_null_cap irqInvalid))
    | cap_notification_cap _ _ _ ntfn =>
      when final (unbindMaybeNotification ntfn;; cancelAllSignals ntfn);;
      mret (Some (mk_fc cap_null_cap irqInvalid))
    | cap_reply_cap _ _ | cap_null_cap | cap_domain_cap => mret (Some (mk_fc cap_null_cap irqInvalid))
    | _ => mret None
    end.

(** [finaliseCap(cap, final, true)] *)
Definition finaliseCap_exposed (cap : cap_t) (final : bool) : K finaliseCap_ret_t :=
  r ← finaliseCap_at_once cap final;
  match r with Some fc => mret fc | None => halt_with AssertFailed end.

Definition capRemovable (cap : cap_t) (slot : Z) : outcome bool :=
  match cap with
  | cap_null_cap => mret true
  | cap_zombie_cap id type =>
    let n := capZombieNumber id type in
    let z_slot := capZombiePtr id type in
    mret ((n =? 0) || ((n =? 1) && (slot =? z_slot)))
  | _ => Halted AssertFailed
  end.

Definition cteDeleteOne (slot : Z) : K unit :=
  s ← cte_at slot;
  if negb (is_null (cte_cap s)) then
    final ← isFinalCapability slot;
    s ← cte_at slot;
    fc_ret ← finaliseCap_exposed (cte_cap s) final;
    ok ← lift (capRemovable (fc_remainder fc_ret) slot);
    assert (ok && (fc_irq fc_ret =? irqInvalid));;
    emptySlot slot irqInvalid
  else mret tt.

Definition cancelIPC (tptr : Z) : K unit :=
  c ← tcb_at tptr;
  match tsType c with
  | ThreadState_BlockedOnSend | ThreadState_BlockedOnReceive =>
    let epptr := blockingObject c in
    x ← ep_at epptr;
    assert (match epState x with EPState_Idle => false | _ => true end);;
    queue ← ep_ptr_get_queue epptr;
    queue ← tcbEPDequeue tptr queue;
    ep_ptr_set_queue epptr queue;;
    when (q_head queue =? 0) (set_ep_state epptr EPState_Idle);;
    setThreadState tptr ThreadState_Inactive
  | ThreadState_BlockedOnNotification => cancelSignal tptr (blockingObject c)
  | ThreadState_BlockedOnReply =>
    tcb_set tptr (λ c, c <| tcbFault := seL4_Fault_NullFault |>);;
    slot ← cte_at (TCB_PTR_CTE_PTR tptr tcbReply);
    let callerCap := mdbNext (cteMDBNode slot) in
    when (negb (callerCap =? 0)) (cteDeleteOne callerCap)
  | _ => mret tt
  end.

Definition suspend (target : Z) : K unit :=
  cancelIPC target;;
  setThreadState target ThreadState_Inactive;;
  tcbSchedDequeue target.

Definition deletingIRQHandler (irq : Z) : K unit :=
  base ← gets intStateIRQNode;
  cteDeleteOne (cte_index base irq).

Definition tcbArchCNodeEntries : Z := 6.
Definition Arch_prepareThreadDelete (t : Z) : K unit := arch_call_made (call_fpuThreadDelete t).

Definition finaliseCap (cap : cap_t) (final exposed : bool) : K finaliseCap_ret_t :=
  r ← finaliseCap_at_once cap final;
  match r with
  | Some fc => mret fc
  | None =>
    if exposed then halt_with AssertFailed
    else
      match cap with
      | cap_cnode_cap radix _ _ ptr =>
        mret (mk_fc (if final then Zombie_new (wrap32 (Z.shiftl 1 radix)) radix ptr else cap_null_cap) irqInvalid)
      | cap_thread_cap tcb =>
        if final then
          let cte_ptr := TCB_PTR_CTE_PTR tcb tcbCTable in
          unbindNotification tcb;;
          suspend tcb;;
          arch_call_made (call_tcbDebugRemove tcb);;
          Arch_prepareThreadDelete tcb;;
          mret (mk_fc (Zombie_new tcbArchCNodeEntries ZombieType_ZombieTCB cte_ptr) irqInvalid)
        else mret (mk_fc cap_null_cap irqInvalid)
      | cap_zombie_cap _ _ => mret (mk_fc cap irqInvalid)
      | cap_irq_handler_cap irq =>
        if final then deletingIRQHandler irq;; mret (mk_fc cap_null_cap irq)
        else mret (mk_fc cap_null_cap irqInvalid)
      | _ => mret (mk_fc cap_null_cap irqInvalid)
      end
  end.

(** ** Threads *)

Definition isBlocked_state (s : thread_state) : bool :=
  match s with
  | ThreadState_Inactive | ThreadState_BlockedOnReceive | ThreadState_BlockedOnSend
  | ThreadState_BlockedOnNotification | ThreadState_BlockedOnReply => true
  | _ => false
  end.

Definition restart (target : Z) : K unit :=
  c ← tcb_at target;
  when (isBlocked_state (tsType c))
    (cancelIPC target;;
     setupReplyMaster target;;
     setThreadState target ThreadState_Restart;;
     tcbSchedEnqueue target;;
     switchIfRequiredTo target).

(** [Arch_activateIdleThread] is empty. *)
Definition activateThread : K unit :=
  t ← cur;
  c ← tcb_at t;
  match tsType c with
  | ThreadState_Running => mret tt
  | ThreadState_Restart =>
    pc ← getRestartPC t;
    setNextPC t pc;;
    setThreadState t ThreadState_Running
  | ThreadState_IdleThreadState => mret tt
  | _ => halt_with AssertFailed
  end.

Definition sendSignal (ntfnPtr badge : Z) : K unit :=
  x ← ntfn_at ntfnPtr;
  match ntfnState x with
  | NtfnState_Idle =>
    let tcb := ntfnBoundTCB x in
    if negb (tcb =? 0) then
      c ← tcb_at tcb;
      if decide (tsType c = ThreadState_BlockedOnReceive) then
        cancelIPC tcb;;
        setThreadState tcb ThreadState_Running;;
        setRegister tcb badgeRegister badge;;
        switchIfRequiredTo tcb
      else ntfn_set_active ntfnPtr badge
    else ntfn_set_active ntfnPtr badge
  | NtfnState_Waiting =>
    ntfn_queue ← ntfn_ptr_get_queue ntfnPtr;
    let dest := q_head ntfn_queue in
    assert (negb (dest =? 0));;
    ntfn_queue ← tcbEPDequeue dest ntfn_queue;
    ntfn_ptr_set_queue ntfnPtr ntfn_queue;;
    when (q_head ntfn_queue =? 0) (set_ntfn_state ntfnPtr NtfnState_Idle);;
    setThreadState dest ThreadState_Running;;
    setRegister dest badgeRegister badge;;
    switchIfRequiredTo dest
  | NtfnState_Active =>
    ntfn_set ntfnPtr (λ x, x <| ntfnMsgIdentifier := Z.lor (ntfnMsgIdentifier x) badge |>)
  end.

Definition setupCallerCap (sender receiver : Z) : K unit :=
  setThreadState sender ThreadState_BlockedOnReply;;
  let replySlot := TCB_PTR_CTE_PTR sender tcbReply in
  r ← cte_at replySlot;
  assert (match cte_cap r with cap_reply_cap master t => master && (t =? sender) | _ => false end);;
  let callerSlot := TCB_PTR_CTE_PTR receiver tcbCaller in
  c ← cte_at callerSlot;
  assert (is_null (cte_cap c));;
  cteInsert (cap_reply_cap false sender) replySlot callerSlot.

Definition deleteCallerCap (receiver : Z) : K unit := cteDeleteOne (TCB_PTR_CTE_PTR receiver tcbCaller).
