(* ===== verification/Waiting.v ===== *)
(** Which threads wait on which object: the invariant of the queues of
    endpoints and notifications ([ipc_ok]), how the queue operations of
    [Ipc] change it, and how it lives beside the scheduler's invariant. *)

From stdpp Require Import functions.
From S2P Require Import Prelude Kernel Scheduler Wakeup Paging VSpace IOSpace Ipc.

(** ** What the scheduler reads of a thread *)

Definition sched_view (c : tcb_t) :=
  (tsType c, tcbQueued c, tcbDomain c, tcbPriority c, tcbSchedNext c, tcbSchedPrev c).
Definition sched_globals (k : ks) :=
  (ksReadyQueues k, ksReadyQueuesL1Bitmap k, ksReadyQueuesL2Bitmap k, ksCurThread k,
   ksIdleThread k, ksSchedulerAction k, ksCurDomain k, ksDomainTime k).

(** Nothing the scheduler reads differs. *)
Definition sched_same (k k' : ks) : Prop :=
  (∀ u, sched_view <$> tcbs k' !! u = sched_view <$> tcbs k !! u) ∧ sched_globals k' = sched_globals k.

Lemma sched_same_refl k : sched_same k k.
Proof. by split. Qed.
Lemma sched_same_sym k k' : sched_same k k' → sched_same k' k.
Proof. intros [H1 H2]. split; [intros u; by rewrite H1|done]. Qed.
Lemma sched_same_trans k1 k2 k3 : sched_same k1 k2 → sched_same k2 k3 → sched_same k1 k3.
Proof. intros [H1 E1] [H2 E2]. split; [intros u; by rewrite H2|by rewrite E2]. Qed.

#[export] Instance sched_same_equiv : Equivalence sched_same.
Proof.
  split; [exact sched_same_refl|exact sched_same_sym|exact sched_same_trans].
Qed.

Lemma sched_same_lookup k k' u c :
  sched_same k k' → tcbs k !! u = Some c → ∃ c', tcbs k' !! u = Some c' ∧ sched_view c' = sched_view c.
Proof.
  intros [H _] Hc. specialize (H u). rewrite Hc in H. destruct (tcbs k' !! u) as [c'|]; [|done].
  exists c'. split; [done|]. cbn [fmap option_fmap option_map] in H. by apply (inj Some) in H.
Qed.

Lemma sched_same_set k t c c' :
  tcbs k !! t = Some c → sched_view c' = sched_view c →
  sched_same k (k <| tcbs ::= <[t := c']> |>).
Proof.
  intros Hc E. split; [|done]. intros u. cbn. destruct (decide (t = u)) as [<-|Hne].
  - rewrite lookup_insert_eq, Hc. cbn. by rewrite E.
  - by rewrite lookup_insert_ne.
Qed.

Lemma sched_same_ok k k' rq : sched_same k k' → sched_ok k rq → sched_ok k' rq.
Proof.
  intros S. pose proof (sched_same_sym _ _ S) as S'. pose proof S as [Ht E].
  injection E as Eq E1 E2 _ _ _ _ _.
  assert (B : ∀ u x, tcbs k' !! u = Some x → ∃ c, tcbs k !! u = Some c ∧ sched_view c = sched_view x)
    by (intros u x Hx; by apply (sched_same_lookup k' k)).
  intros [H1 H2 H3 H4 H5 H6].
  split; unfold bitmaps_of in *; rewrite ?Eq, ?E1, ?E2; try done.
  - intros p q Hp Hq. eapply dlist_frame; [|by apply H2]. intros u _. specialize (Ht u).
    destruct (tcbs k' !! u), (tcbs k !! u); try done. cbn in *. injection Ht as _ _ _ _ -> ->. done.
  - intros p t Hin. destruct (H3 p t Hin) as (Hp & c & Hc & ? & ?). split; [done|].
    destruct (sched_same_lookup _ _ _ _ S Hc) as (c' & Hc' & Ev). exists c'. injection Ev as _ -> _ -> _ _. done.
  - intros t c' Hc' Hq. destruct (B t c' Hc') as (c & Hc & Ev). injection Ev as _ Q _ P _ _.
    rewrite <- P. apply H4; congruence.
  - intros t c' Hc'. destruct (B t c' Hc') as (c & Hc & Ev). injection Ev as _ _ D P _ _.
    rewrite <- P, <- D. by apply H5.
Qed.

Lemma sched_same_runnable k k' t : sched_same k k' → runnable k t ↔ runnable k' t.
Proof.
  intros S. split; intros (c & Hc & Hr).
  - destruct (sched_same_lookup _ _ _ _ S Hc) as (c' & Hc' & Ev). exists c'. injection Ev as -> _ _ _ _ _. done.
  - destruct (sched_same_lookup _ _ _ _ (sched_same_sym _ _ S) Hc) as (c' & Hc' & Ev).
    exists c'. injection Ev as -> _ _ _ _ _. done.
Qed.

Lemma sched_same_queued k k' t : sched_same k k' → queued k t → queued k' t.
Proof.
  intros S (c & Hc & Hq). destruct (sched_same_lookup _ _ _ _ S Hc) as (c' & Hc' & Ev).
  exists c'. injection Ev as _ -> _ _ _ _. done.
Qed.

(** The scheduler's invariant respects [sched_same]. *)
Lemma sched_same_inv x k k' : sched_same k k' → sched_inv_but x k → sched_inv_but x k'.
Proof.
  intros S I. pose proof S as [Ht E]. injection E as _ _ _ Ec Ei Ea Ed Edt.
  split; rewrite ?Ec, ?Ei, ?Ea, ?Ed, ?Edt; try (apply I).
  - destruct (si_rq _ _ I) as (rq & Hok & Hr). exists rq. split; [by eapply sched_same_ok|].
    intros p t Hin. apply (sched_same_runnable k k'); [done|by eapply Hr].
  - intros t c' Hc'. destruct (sched_same_lookup _ _ _ _ (sched_same_sym _ _ S) Hc') as (c & Hc & _).
    by eapply (si_ptr _ _ I).
  - destruct (si_cur _ _ I) as [c Hc]. destruct (sched_same_lookup _ _ _ _ S Hc) as (c' & -> & _). eauto.
  - rewrite <- (sched_same_runnable k k') by done. apply I.
  - rewrite <- (sched_same_runnable k k') by done. apply I.
  - intros t Hrt Hne. apply (sched_same_runnable k k') in Hrt; [|done].
    destruct (si_lost _ _ I t Hrt Hne) as [?|?]; [left; by eapply sched_same_queued|by right].
  - destruct (si_idle _ _ I) as (c & Hc & Hst). destruct (sched_same_lookup _ _ _ _ S Hc) as (c' & Hc' & Ev).
    exists c'. injection Ev as -> _ _ _ _ _. done.
Qed.

#[export] Instance sched_inv_proper x : Proper (sched_same ==> iff) (sched_inv_but x).
Proof. intros k k' S. split; apply sched_same_inv; [done|by symmetry]. Qed.

Lemma sched_same_links k k' :
  same_but_links ep_links (tcbs k) (tcbs k') → sched_globals k' = sched_globals k → sched_same k k'.
Proof.
  intros Hs E. split; [|done]. intros u. specialize (Hs u).
  destruct (tcbs k' !! u) as [c'|], (tcbs k !! u) as [c|]; try done.
  cbn [fmap option_fmap option_map] in *. apply (inj Some) in Hs. f_equal.
  assert (Ev : ∀ x, sched_view (erase ep_links x) = sched_view x) by done.
  by rewrite <- (Ev c'), <- (Ev c), Hs.
Qed.

(** ** Objects threads wait on *)

Definition ep_waits (s : endpoint_state) : option thread_state :=
  match s with
  | EPState_Idle => None
  | EPState_Send => Some ThreadState_BlockedOnSend
  | EPState_Recv => Some ThreadState_BlockedOnReceive
  end.
Definition ntfn_waits (s : notification_state) : option thread_state :=
  match s with NtfnState_Waiting => Some ThreadState_BlockedOnNotification | _ => None end.

(** The queue of the object at [a], and the state of the threads in it. *)
Definition wait_obj (k : ks) (a : Z) : option (tcb_queue_t * option thread_state) :=
  match eps k !! a with
  | Some x => Some (epQueue x, ep_waits (epState x))
  | None => (λ x, (ntfnQueue x, ntfn_waits (ntfnState x))) <$> ntfns k !! a
  end.

Definition waiting_state (s : thread_state) : bool :=
  match s with
  | ThreadState_BlockedOnSend | ThreadState_BlockedOnReceive | ThreadState_BlockedOnNotification => true
  | _ => false
  end.

(** What this invariant reads of a thread. *)
Definition ipc_view (c : tcb_t) := (tsType c, blockingObject c, tcbEPNext c, tcbEPPrev c).

(** [wq a] lists the threads that wait on the object at [a]: they form its
    queue and are blocked on it in the state the object has; every blocked
    thread is in such a list, the threads of [X] excepted, which are in none. *)
Record ipc_ok_but (X : list Z) (k : ks) (wq : Z → list Z) : Prop := {
  io_kinds : ∀ a, is_Some (eps k !! a) → ntfns k !! a = None;
  io_queue : ∀ a q w, wait_obj k a = Some (q, w) →
    dlist ep_links (tcbs k) q (wq a) ∧ (w = None ↔ wq a = []);
  io_in : ∀ a t, t ∈ wq a →
    ∃ q st c, wait_obj k a = Some (q, Some st) ∧ tcbs k !! t = Some c ∧
      blockingObject c = a ∧ tsType c = st;
  io_blocked : ∀ t c, tcbs k !! t = Some c → waiting_state (tsType c) = true → t ∉ X →
    t ∈ wq (blockingObject c);
  io_out : ∀ t a, t ∈ X → t ∉ wq a
}.
Notation ipc_ok := (ipc_ok_but []).

Lemma waits_waiting k a q st : wait_obj k a = Some (q, Some st) → waiting_state st = true.
Proof.
  unfold wait_obj. destruct (eps k !! a) as [x|].
  - destruct (epState x); intros [= <- <-]; done.
  - destruct (ntfns k !! a) as [x|]; [|done]. cbn. destruct (ntfnState x); intros [= <- <-]; done.
Qed.

Lemma ipc_disjoint X k wq a b t : ipc_ok_but X k wq → t ∈ wq a → t ∈ wq b → a = b.
Proof.
  intros H Ha Hb. destruct (io_in _ _ _ H _ _ Ha) as (? & ? & c & _ & Hc & <- & _).
  destruct (io_in _ _ _ H _ _ Hb) as (? & ? & c' & _ & Hc' & <- & _). congruence.
Qed.

(** A thread that is not blocked on a queue is in none. *)
Lemma not_waiting_out X k wq t c a :
  ipc_ok_but X k wq → tcbs k !! t = Some c → waiting_state (tsType c) = false → t ∉ wq a.
Proof.
  intros H Hc Hw Hin. destruct (io_in _ _ _ H _ _ Hin) as (q & st & c' & Ho & Hc' & _ & <-).
  apply waits_waiting in Ho. congruence.
Qed.

(** Changes to threads this invariant does not read, with the objects kept. *)
Lemma ipc_ok_same X k k' wq :
  (∀ u, ipc_view <$> tcbs k' !! u = ipc_view <$> tcbs k !! u) →
  eps k' = eps k → ntfns k' = ntfns k → ipc_ok_but X k wq → ipc_ok_but X k' wq.
Proof.
  intros Ht Ee En H.
  assert (Eo : ∀ a, wait_obj k' a = wait_obj k a) by (intros a; unfold wait_obj; by rewrite Ee, En).
  assert (F : ∀ u c, tcbs k !! u = Some c → ∃ c', tcbs k' !! u = Some c' ∧ ipc_view c' = ipc_view c).
  { intros u c Hc. specialize (Ht u). rewrite Hc in Ht. destruct (tcbs k' !! u) as [c'|]; [|done].
    exists c'. split; [done|]. cbn [fmap option_fmap option_map] in Ht. by apply (inj Some) in Ht. }
  split.
  - rewrite Ee, En. apply H.
  - intros a q w. rewrite Eo. intros Ho. destruct (io_queue _ _ _ H a q w Ho) as [Hd Hw].
    split; [|done]. eapply dlist_frame; [|exact Hd]. intros u _. specialize (Ht u).
    destruct (tcbs k' !! u), (tcbs k !! u); try done. cbn in *. injection Ht as _ _ -> ->. done.
  - intros a t Hin. destruct (io_in _ _ _ H a t Hin) as (q & st & c & Ho & Hc & Hb & Hs).
    destruct (F t c Hc) as (c' & Hc' & Ev). exists q, st, c'. rewrite Eo. injection Ev as -> -> _ _. done.
  - intros t c' Hc'. specialize (Ht t). rewrite Hc' in Ht. destruct (tcbs k !! t) as [c|] eqn:Hc; [|done].
    cbn [fmap option_fmap option_map] in Ht. apply (inj Some) in Ht. injection Ht as -> -> _ _.
    by apply (io_blocked _ _ _ H).
  - apply H.
Qed.

Lemma same_threads_ipc X k k' wq : same_threads k k' → ipc_ok_but X k wq → ipc_ok_but X k' wq.
Proof.
  intros (Ht & Eo & Ee & _). injection Eo as En _ _ _ _ _ _ _ _ _ _ _. apply ipc_ok_same; [|done|done].
  intros u. specialize (Ht u). destruct (tcbs k' !! u) as [c'|], (tcbs k !! u) as [c|]; try done.
  cbn [fmap option_fmap option_map] in *. apply (inj Some) in Ht. f_equal.
  assert (Ev : ∀ x, ipc_view (sched_core x) = ipc_view x) by done.
  by rewrite <- (Ev c'), <- (Ev c), Ht.
Qed.

Lemma ipc_ok_set X k t c c' wq :
  tcbs k !! t = Some c → ipc_view c' = ipc_view c →
  ipc_ok_but X k wq → ipc_ok_but X (k <| tcbs ::= <[t := c']> |>) wq.
Proof.
  intros Hc E. apply ipc_ok_same; [|done|done]. intros u. cbn. destruct (decide (t = u)) as [<-|Hne].
  - rewrite lookup_insert_eq, Hc. cbn. by rewrite E.
  - by rewrite lookup_insert_ne.
Qed.

(** An excepted thread may change in any way; once it does not wait, it is no
    longer an exception. *)
Lemma ipc_ok_free X k t c c' wq :
  tcbs k !! t = Some c → t ∈ X → ipc_ok_but X k wq →
  ipc_ok_but X (k <| tcbs ::= <[t := c']> |>) wq.
Proof.
  intros Hc Ht H. assert (Hout : ∀ a, t ∉ wq a) by (intros a; by apply (io_out _ _ _ H)).
  split; try apply H.
  - intros a q w Ho. destruct (io_queue _ _ _ H a q w Ho) as [Hd Hw].
    split; [|done]. by apply dlist_frame_ne.
  - intros a u Hin. destruct (io_in _ _ _ H a u Hin) as (q & st & x & Ho & Hx & Hb & Hs).
    exists q, st, x. split; [done|]. split; [|done]. cbn. rewrite lookup_insert_ne; [done|].
    intros <-. by apply (Hout a).
  - intros u x Hx Hw Hu. cbn in Hx. rewrite lookup_insert_ne in Hx by (by intros <-).
    by apply (io_blocked _ _ _ H).
Qed.

Lemma ipc_ok_awake X k t c wq :
  tcbs k !! t = Some c → waiting_state (tsType c) = false →
  ipc_ok_but (t :: X) k wq → ipc_ok_but X k wq.
Proof.
  intros Hc Hw H. split; try apply H.
  - intros u x Hx Hwx Hu. apply (io_blocked _ _ _ H); try done. intros [->|?]%elem_of_cons; [congruence|done].
  - intros u a Hu. apply (io_out _ _ _ H). set_solver.
Qed.

Lemma ipc_ok_except X k t c wq :
  tcbs k !! t = Some c → waiting_state (tsType c) = false →
  ipc_ok_but X k wq → ipc_ok_but (t :: X) k wq.
Proof.
  intros Hc Hw H. split; try apply H.
  - intros u x Hx Hwx Hu. apply (io_blocked _ _ _ H); try done. set_solver.
  - intros u a [->|Hu]%elem_of_cons; [by eapply not_waiting_out|by apply (io_out _ _ _ H)].
Qed.

(** ** Changing one queue *)

(** The object at [a] alone changes, to the queue [q] and the state [w]. *)
Definition only_obj (k k' : ks) (a : Z) (q : tcb_queue_t) (w : option thread_state) : Prop :=
  wait_obj k' a = Some (q, w) ∧ (∀ b, b ≠ a → wait_obj k' b = wait_obj k b) ∧
  (∀ b, is_Some (eps k' !! b) → ntfns k' !! b = None).

Lemma ipc_ok_requeue X X' k k' wq a l q w :
  ipc_ok_but X k wq → only_obj k k' a q w →
  same_but_links ep_links (tcbs k) (tcbs k') →
  (∀ u, u ∉ wq a → u ∉ l → tcbs k' !! u = tcbs k !! u) →
  dlist ep_links (tcbs k') q l → (w = None ↔ l = []) →
  (∀ u, u ∈ l → ∃ c, tcbs k !! u = Some c ∧ blockingObject c = a ∧ w = Some (tsType c)) →
  (∀ u, u ∈ wq a ∨ u ∈ X ↔ u ∈ l ∨ u ∈ X') → (∀ u, u ∈ l → u ∉ X') →
  ipc_ok_but X' k' (<[a := l]> wq).
Proof.
  intros H (Ha & Ho & Hk) Hs Hf Hd Hw Hl HX HX'.
  assert (Hwq : ∀ u, u ∈ wq a → ∃ c, tcbs k !! u = Some c ∧ blockingObject c = a).
  { intros u Hu. destruct (io_in _ _ _ H _ _ Hu) as (? & ? & c & _ & ? & ? & _). by exists c. }
  assert (Hother : ∀ b u, b ≠ a → u ∈ wq b → u ∉ wq a ∧ u ∉ l).
  { intros b u Hb Hu. destruct (io_in _ _ _ H _ _ Hu) as (? & ? & c & _ & Hc & Hbo & _).
    split; intros Hin; [apply Hwq in Hin as (c' & ? & ?)|apply Hl in Hin as (c' & ? & ? & _)]; congruence. }
  assert (Hfield : ∀ u c', tcbs k' !! u = Some c' →
    ∃ c, tcbs k !! u = Some c ∧ (tsType c', blockingObject c') = (tsType c, blockingObject c)).
  { intros u c' Hc'. by apply (same_but_field ep_links (λ c, (tsType c, blockingObject c)) (tcbs k) (tcbs k')). }
  split.
  - done.
  - intros b q0 w0 Hb. destruct (decide (b = a)) as [->|Hne].
    + rewrite fn_lookup_insert. rewrite Ha in Hb. by injection Hb as <- <-.
    + rewrite fn_lookup_insert_ne by done. rewrite Ho in Hb by done.
      destruct (io_queue _ _ _ H _ _ _ Hb) as [Hdb Hwb]. split; [|done].
      eapply dlist_frame; [|exact Hdb]. intros u Hu. by rewrite Hf by (by apply (Hother b)).
  - intros b u Hu. destruct (decide (b = a)) as [->|Hne].
    + rewrite fn_lookup_insert in Hu. destruct (Hl u Hu) as (c & Hc & Hb & ->).
      destruct (same_but_lookup ep_links (tcbs k) (tcbs k') u Hs) as [c' Hc']; [by rewrite Hc|].
      destruct (Hfield u c' Hc') as (c2 & Hc2 & [= Et Eb]). assert (c2 = c) as -> by congruence.
      exists q, (tsType c), c'. by rewrite Eb, Et.
    + rewrite fn_lookup_insert_ne in Hu by done.
      destruct (io_in _ _ _ H _ _ Hu) as (q0 & st & c & Hob & Hc & Hb & Hst).
      exists q0, st, c. rewrite Ho by done. split; [done|]. split; [|done].
      rewrite Hf by (by apply (Hother b)). done.
  - intros u c' Hc' Hwt Hu. destruct (Hfield u c' Hc') as (c & Hc & [= Et Eb]). rewrite Eb.
    rewrite Et in Hwt. destruct (decide (blockingObject c = a)) as [E|Hne].
    + rewrite E, fn_lookup_insert. destruct (decide (u ∈ X)) as [HuX|HnX].
      * by destruct (proj1 (HX u)) as [?|?]; [right| |].
      * pose proof (io_blocked _ _ _ H u c Hc Hwt HnX) as Hin. rewrite E in Hin.
        by destruct (proj1 (HX u)) as [?|?]; [left| |].
    + rewrite fn_lookup_insert_ne by done. apply (io_blocked _ _ _ H); [done|done|]. intros HuX.
      destruct (proj1 (HX u)) as [Hul|?]; [by right| |done]. apply Hl in Hul as (c2 & ? & ? & _). congruence.
  - intros u b Hu. destruct (decide (b = a)) as [->|Hne].
    + rewrite fn_lookup_insert. intros Hul. by apply (HX' u).
    + rewrite fn_lookup_insert_ne by done. intros Hub. destruct (proj2 (HX u)) as [?|HuX]; [by right| |].
      * by destruct (Hother b u Hne Hub).
      * by apply (io_out _ _ _ H u b).
Qed.

Lemma only_obj_ntfn k k' n x x' :
  (∀ a, is_Some (eps k !! a) → ntfns k !! a = None) →
  ntfns k !! n = Some x → eps k' = eps k → ntfns k' = <[n := x']> (ntfns k) →
  only_obj k k' n (ntfnQueue x') (ntfn_waits (ntfnState x')).
Proof.
  intros Hk Hx Ee En. assert (He : eps k !! n = None).
  { destruct (eps k !! n) eqn:E; [|done]. rewrite Hk in Hx; [done|by rewrite E]. }
  unfold only_obj, wait_obj. rewrite Ee, En. split; [|split].
  - by rewrite He, lookup_insert_eq.
  - intros b Hb. by rewrite lookup_insert_ne.
  - intros b Hb. destruct (decide (n = b)) as [<-|Hne]; [by rewrite He in Hb; destruct Hb|].
    rewrite lookup_insert_ne by done. by apply Hk.
Qed.

Lemma only_obj_ep k k' e x x' :
  (∀ a, is_Some (eps k !! a) → ntfns k !! a = None) →
  eps k !! e = Some x → ntfns k' = ntfns k → eps k' = <[e := x']> (eps k) →
  only_obj k k' e (epQueue x') (ep_waits (epState x')).
Proof.
  intros Hk Hx En Ee. unfold only_obj, wait_obj. rewrite Ee, En. split; [|split].
  - by rewrite lookup_insert_eq.
  - intros b Hb. by rewrite lookup_insert_ne.
  - intros b Hb. destruct (decide (e = b)) as [<-|Hne]; [apply Hk; by rewrite Hx|].
    rewrite lookup_insert_ne in Hb by done. by apply Hk.
Qed.

(** ** The queue operations *)

Lemma ks_tcbs_eta k : k <| tcbs := tcbs k |> = k.
Proof. by destruct k. Qed.

Lemma tcbEPAppend_spec k q l t c :
  dlist ep_links (tcbs k) q l → tcbs k !! t = Some c → t ∉ l → t ≠ 0 →
  wp (tcbEPAppend t q) (λ q' k', ∃ h, k' = k <| tcbs := h |> ∧ dlist ep_links h q' (l ++ [t]) ∧
    same_but_links ep_links (tcbs k) h ∧ (∀ u, u ∉ l → u ∉ l ++ [t] → h !! u = tcbs k !! u)) k.
Proof.
  intros Hd Hc Ht H0. destruct (dlist_append ep_links _ _ _ _ _ Hd Hc Ht H0) as (h1 & Hh1 & Hc1 & Hd2 & Hs & Hf).
  assert (Hend : ∀ hd, hd = (if q_head q =? 0 then t else q_head q) →
    wp (tcb_set t (λ c, c <| tcbEPPrev := q_end q |>);; tcb_set t (λ c, c <| tcbEPNext := 0 |>);;
      mret (mk_queue hd (q_end q) <| q_end := t |>)) (λ q' k', ∃ h, k' = k <| tcbs := h |> ∧ dlist ep_links h q' (l ++ [t]) ∧
    same_but_links ep_links (tcbs k) h ∧ (∀ u, u ∉ l → u ∉ l ++ [t] → h !! u = tcbs k !! u)) (k <| tcbs := h1 |>)).
  { intros hd ->. apply wp_bind, (wp_tcb_set _ _ c); [done|]. apply wp_bind.
    eapply wp_tcb_set; [apply lookup_insert_eq|]. apply wp_ret. eexists. split; [reflexivity|].
    cbn. rewrite insert_insert_eq. split; [exact Hd2|]. split; [exact Hs|]. intros u _. apply Hf. }
  destruct q as [hd en]. cbn in *. unfold tcbEPAppend. cbn. apply wp_bind.
  destruct (hd =? 0).
  - subst h1. rewrite ks_tcbs_eta in Hend. apply wp_ret. by apply (Hend t).
  - destruct Hh1 as (ce & Hce & ->). apply wp_bind, (wp_tcb_set _ _ ce); [done|]. apply wp_ret. by apply (Hend hd).
Qed.

Lemma tcbEPDequeue_spec k q l1 t l2 :
  dlist ep_links (tcbs k) q (l1 ++ t :: l2) →
  wp (tcbEPDequeue t q) (λ q' k', ∃ h, k' = k <| tcbs := h |> ∧ dlist ep_links h q' (l1 ++ l2) ∧
    same_but_links ep_links (tcbs k) h ∧
    (∀ u, u ∉ l1 ++ l2 → h !! u = tcbs k !! u)) k.
Proof.
  intros Hd. destruct (dseg_lookup ep_links (tcbs k) 0 (l1 ++ t :: l2) 0 t) as [Ht0 [c Hc]]; [apply Hd|set_solver|].
  destruct (dlist_unlink ep_links _ _ _ _ _ _ Hd Hc) as (h1 & Hh1 & h2 & Hh2 & Hd2 & Hs & Hf).
  assert (Hsplit := dlist_split _ _ _ _ _ _ _ Hd Hc). destruct Hsplit as (_ & _ & Ep & _).
  change (pv ep_links c) with (tcbEPPrev c) in *. change (nx ep_links c) with (tcbEPNext c) in *.
  assert (Hc1 : h1 !! t = Some c).
  { destruct (Z.eqb_spec (tcbEPPrev c) 0) as [_|Hne]; [by subst h1|].
    destruct Hh1 as (cp & _ & ->). rewrite lookup_insert_ne; [done|]. rewrite Ep in *. intros E.
    destruct (list_snoc_or_nil l1) as [->|(l & u & ->)]; [done|]. rewrite last_or_snoc in E. subst u.
    destruct Hd as [Hnd _]. apply NoDup_app in Hnd as (_ & Hdis & _). apply (Hdis t); set_solver. }
  assert (Hend : ∀ hd, hd = (if tcbEPPrev c =? 0 then tcbEPNext c else q_head q) →
    wp (c ← tcb_at t;
        if negb (tcbEPNext c =? 0)
        then tcb_set (tcbEPNext c) (λ n, n <| tcbEPPrev := tcbEPPrev c |>);; mret (mk_queue hd (q_end q))
        else mret (mk_queue hd (q_end q) <| q_end := tcbEPPrev c |>))
      (λ q' k', ∃ h, k' = k <| tcbs := h |> ∧ dlist ep_links h q' (l1 ++ l2) ∧
        same_but_links ep_links (tcbs k) h ∧
        (∀ u, u ∉ l1 ++ l2 → h !! u = tcbs k !! u)) (k <| tcbs := h1 |>)).
  { intros hd ->. apply wp_bind, (wp_tcb_at _ c); [done|]. destruct (tcbEPNext c =? 0) eqn:En; cbn [negb].
    - subst h2. apply wp_ret. exists h1. split; [done|]. by split_and!.
    - destruct Hh2 as (cn & Hcn & ->). apply wp_bind, (wp_tcb_set _ _ cn); [done|]. apply wp_ret.
      eexists. split; [reflexivity|]. by split_and!. }
  destruct q as [hd en]. unfold tcbEPDequeue. apply wp_bind, (wp_tcb_at _ c); [done|]. apply wp_bind.
  destruct (tcbEPPrev c =? 0) eqn:E; cbn [negb].
  - subst h1. rewrite ks_tcbs_eta in Hend. apply wp_ret. by apply (Hend (tcbEPNext c)).
  - destruct Hh1 as (cp & Hcp & ->). apply wp_bind, (wp_tcb_set _ _ cp); [done|]. apply wp_ret. by apply (Hend hd).
Qed.

(** ** Taking a thread off an object *)

Definition ntfn_after (l : list Z) (q : tcb_queue_t) (x : notification_t) : notification_t :=
  x <| ntfnQueue := q |>
    <| ntfnState := match l with [] => NtfnState_Idle | _ => ntfnState x end |>.
Definition ep_after (l : list Z) (q : tcb_queue_t) (x : endpoint_t) : endpoint_t :=
  x <| epQueue := q |> <| epState := match l with [] => EPState_Idle | _ => epState x end |>.

(** The invariant when [t] has left the queue of [a] and is otherwise as before. *)
Lemma ipc_ok_detach k k' wq a l1 t l2 q w w' q' :
  ipc_ok k wq → wait_obj k a = Some (q, w) → wq a = l1 ++ t :: l2 →
  only_obj k k' a q' w' → (w' = match l1 ++ l2 with [] => None | _ => w end) →
  same_but_links ep_links (tcbs k) (tcbs k') → dlist ep_links (tcbs k') q' (l1 ++ l2) →
  (∀ u, u ∉ l1 ++ l2 → tcbs k' !! u = tcbs k !! u) →
  ipc_ok_but [t] k' (<[a := l1 ++ l2]> wq).
Proof.
  intros H Ha Hq Ho Ew Hs Hd Hf. destruct (io_queue _ _ _ H _ _ _ Ha) as [[Hnd _] Hw].
  rewrite Hq in Hnd. pose proof Hnd as (_ & Hdis & [Ht2 _]%NoDup_cons)%NoDup_app.
  eapply (ipc_ok_requeue [] [t]); [done|exact Ho|done| |done| | | |].
  - intros u _. apply Hf.
  - subst w'. destruct (l1 ++ l2) eqn:E; [done|]. split; [|done]. intros ->.
    assert (wq a = []) by (by apply Hw). rewrite Hq in *. by destruct l1.
  - intros u Hu. assert (Hin : u ∈ wq a) by (rewrite Hq; set_solver).
    destruct (io_in _ _ _ H _ _ Hin) as (q0 & st & c & Ho' & Hc & Hb & Hst).
    exists c. split; [done|]. split; [done|]. rewrite Ha in Ho'. injection Ho' as -> ->. subst w' st.
    destruct (l1 ++ l2); [|done]. by apply elem_of_nil in Hu.
  - intros u. rewrite Hq. set_solver.
  - intros u Hu ->%list_elem_of_singleton. set_solver.
Qed.

Lemma dlist_head_empty {N} (L : links N) h q l : dlist L h q l → (q_head q =? 0) = match l with [] => true | _ => false end.
Proof.
  intros Hd. destruct (dlist_empty _ _ _ _ Hd) as [He _]. destruct (Z.eqb_spec (q_head q) 0) as [E|E].
  - by rewrite (proj1 He E).
  - destruct l; [|done]. by destruct E; apply He.
Qed.

Lemma wait_obj_ntfn X k wq n x : ipc_ok_but X k wq → ntfns k !! n = Some x →
  wait_obj k n = Some (ntfnQueue x, ntfn_waits (ntfnState x)).
Proof.
  intros H Hx. unfold wait_obj. destruct (eps k !! n) eqn:E; [|by rewrite Hx].
  rewrite (io_kinds _ _ _ H) in Hx; [done|by rewrite E].
Qed.

Lemma wait_obj_ep k e x : eps k !! e = Some x → wait_obj k e = Some (epQueue x, ep_waits (epState x)).
Proof. intros Hx. unfold wait_obj. by rewrite Hx. Qed.

(** A thread leaves a notification, and the code goes on with [rest]. *)
Lemma dequeue_ntfn k wq n x l1 t l2 (rest : K unit) (Q : unit → ks → Prop) :
  ipc_ok k wq → ntfns k !! n = Some x → wq n = l1 ++ t :: l2 →
  (∀ h q, let k' := k <| tcbs := h |> <| ntfns := <[n := ntfn_after (l1 ++ l2) q x]> (ntfns k) |> in
     ipc_ok_but [t] k' (<[n := l1 ++ l2]> wq) → same_but_links ep_links (tcbs k) h → wp rest Q k') →
  wp (q ← tcbEPDequeue t (ntfnQueue x); ntfn_ptr_set_queue n q;;
      when (q_head q =? 0) (set_ntfn_state n NtfnState_Idle);; rest) Q k.
Proof.
  intros H Hx Hq Hrest. pose proof (wait_obj_ntfn _ _ _ _ _ H Hx) as Ho.
  destruct (io_queue _ _ _ H _ _ _ Ho) as [Hd Hw]. rewrite Hq in Hd.
  apply wp_bind. eapply wp_mono; [by apply tcbEPDequeue_spec|].
  intros q' k1 (h & -> & Hd' & Hs & Hf). apply wp_bind. apply (wp_ntfn_set _ _ x); [done|].
  rewrite (dlist_head_empty _ _ _ _ Hd').
  assert (Hst : ntfnState x = NtfnState_Waiting).
  { destruct (ntfnState x) eqn:E; cbn in Hw; [|done|]; exfalso; rewrite Hq in Hw;
      destruct Hw as [Hw _]; specialize (Hw eq_refl); by destruct l1. }
  assert (Hgo : ∀ k', k' = k <| tcbs := h |> <| ntfns := <[n := ntfn_after (l1 ++ l2) q' x]> (ntfns k) |> → wp rest Q k').
  { intros k' ->. apply (Hrest h q'); [|done].
    eapply (ipc_ok_detach k _ wq n l1 t l2 _ _ (ntfn_waits (ntfnState (ntfn_after (l1 ++ l2) q' x))) q'); try done.
    - apply (only_obj_ntfn k _ n x (ntfn_after (l1 ++ l2) q' x)); try done. apply H.
    - unfold ntfn_after. cbn. by destruct (l1 ++ l2). }
  apply wp_bind. destruct (l1 ++ l2) eqn:E; cbn [when].
  - apply (wp_ntfn_set _ _ (x <| ntfnQueue := q' |>)); [apply lookup_insert_eq|]. apply Hgo.
    unfold update. cbn. by rewrite insert_insert_eq.
  - apply wp_ret, Hgo. unfold ntfn_after. by destruct x.
Qed.

(** The same for an endpoint. *)
Lemma dequeue_ep k wq e x l1 t l2 (rest : K unit) (Q : unit → ks → Prop) :
  ipc_ok k wq → eps k !! e = Some x → wq e = l1 ++ t :: l2 →
  (∀ h q, let k' := k <| tcbs := h |> <| eps := <[e := ep_after (l1 ++ l2) q x]> (eps k) |> in
     ipc_ok_but [t] k' (<[e := l1 ++ l2]> wq) → same_but_links ep_links (tcbs k) h → wp rest Q k') →
  wp (q ← tcbEPDequeue t (epQueue x); ep_ptr_set_queue e q;;
      when (q_head q =? 0) (set_ep_state e EPState_Idle);; rest) Q k.
Proof.
  intros H Hx Hq Hrest. pose proof (wait_obj_ep _ _ _ Hx) as Ho.
  destruct (io_queue _ _ _ H _ _ _ Ho) as [Hd Hw]. rewrite Hq in Hd.
  apply wp_bind. eapply wp_mono; [by apply tcbEPDequeue_spec|].
  intros q' k1 (h & -> & Hd' & Hs & Hf). apply wp_bind.
  unfold ep_ptr_set_queue, set_ep_state, ep_set, wp at 1. cbn. rewrite Hx.
  rewrite (dlist_head_empty _ _ _ _ Hd').
  assert (Hgo : ∀ k', k' = k <| tcbs := h |> <| eps := <[e := ep_after (l1 ++ l2) q' x]> (eps k) |> → wp rest Q k').
  { intros k' ->. apply (Hrest h q'); [|done].
    eapply (ipc_ok_detach k _ wq e l1 t l2 _ _ (ep_waits (epState (ep_after (l1 ++ l2) q' x))) q'); try done.
    - apply (only_obj_ep k _ e x (ep_after (l1 ++ l2) q' x)); try done. apply H.
    - unfold ep_after. cbn. by destruct (l1 ++ l2). }
  apply wp_bind. destruct (l1 ++ l2) eqn:E; cbn [when].
  - unfold wp at 1. cbn. rewrite lookup_insert_eq. apply Hgo. unfold update. cbn. by rewrite insert_insert_eq.
  - apply wp_ret, Hgo. unfold ep_after. by destruct x.
Qed.

(** ** Putting a thread on an object *)

Lemma ipc_ok_attach X k k' wq a t c q w q' st :
  ipc_ok_but (t :: X) k wq → t ∉ X → wait_obj k a = Some (q, w) → w = None ∨ w = Some st →
  tcbs k !! t = Some c → blockingObject c = a → tsType c = st →
  only_obj k k' a q' (Some st) →
  same_but_links ep_links (tcbs k) (tcbs k') → dlist ep_links (tcbs k') q' (wq a ++ [t]) →
  (∀ u, u ∉ wq a → u ∉ wq a ++ [t] → tcbs k' !! u = tcbs k !! u) →
  ipc_ok_but X k' (<[a := wq a ++ [t]]> wq).
Proof.
  intros H HtX Ha Hw Hc Hb Hst Ho Hs Hd Hf. destruct (io_queue _ _ _ H _ _ _ Ha) as [_ Hwa].
  assert (Hta : t ∉ wq a) by (apply (io_out _ _ _ H); set_solver).
  eapply (ipc_ok_requeue (t :: X) X); [done|exact Ho|done|done|done| | | |].
  - split; [done|]. by destruct (wq a).
  - intros u [Hu| ->%list_elem_of_singleton]%elem_of_app; [|exists c; by rewrite Hst].
    destruct (io_in _ _ _ H _ _ Hu) as (q0 & st0 & c0 & Ho' & Hc0 & Hb0 & Hst0).
    exists c0. split; [done|]. split; [done|]. rewrite Ha in Ho'. injection Ho' as -> ->.
    destruct Hw as [?|[= <-]]; [done|]. by rewrite Hst0.
  - intros u. rewrite elem_of_app, elem_of_cons, list_elem_of_singleton. tauto.
  - intros u [Hu| ->%list_elem_of_singleton]%elem_of_app Hx; [|done].
    apply (io_out _ _ _ H u a); [set_solver|done].
Qed.

(** ** Threads that change their state *)

Lemma blocked_not_queued k t :
  sched_inv k → is_Some (tcbs k !! t) → ¬ runnable k t → ¬ queued k t ∧ ksSchedulerAction k ≠ t.
Proof.
  intros I [c Hc] Hn. destruct (si_rq _ _ I) as (rq & Hok & Hr). split.
  - intros [p Hp]%(queued_in _ _ _ Hok). by apply Hn, (Hr p).
  - intros <-. destruct (si_action _ _ I) as [E|[E|?]]; [| |done].
    + rewrite E in Hc. by destruct (so_tcb _ _ Hok _ _ Hc).
    + by apply (si_ptr _ _ I) in Hc.
Qed.

Definition with_state (t : Z) (c : tcb_t) (st : thread_state) (k : ks) : ks :=
  k <| tcbs ::= <[t := c <| tsType := st |>]> |>.

Lemma runnable_state k t c : tcbs k !! t = Some c → runnable k t ↔ isRunnable_state (tsType c) = true.
Proof. intros Hc. split; [intros (c' & Hc' & ?); congruence|intros ?; by exists c]. Qed.

(** Making a thread runnable writes its state and nothing else. *)
Lemma setThreadState_runs k t c st (Q : unit → ks → Prop) :
  tcbs k !! t = Some c → isRunnable_state st = true →
  Q tt (with_state t c st k) → wp (setThreadState t st) Q k.
Proof.
  intros Hc Hst HQ. unfold setThreadState. apply wp_bind, (wp_tcb_set _ _ c); [done|].
  unfold scheduleTCB. apply wp_bind, wp_gets. apply wp_bind, wp_gets.
  destruct (_ && _); [|by apply wp_ret]. apply wp_bind. eapply wp_mono.
  { apply (isRunnable_spec _ t (c <| tsType := st |>)). apply lookup_insert_eq. }
  intros r k2 [-> ->]. change (tsType (c <| tsType := st |>)) with st. rewrite Hst. by apply wp_ret.
Qed.

(** So does any change to a thread that is not running. *)
Lemma setThreadState_blocked k t c st (Q : unit → ks → Prop) :
  sched_inv k → tcbs k !! t = Some c → isRunnable_state (tsType c) = false → t ≠ ksIdleThread k →
  Q tt (with_state t c st k) → wp (setThreadState t st) Q k.
Proof.
  intros I Hc Hn Hid HQ. unfold setThreadState. apply wp_bind, (wp_tcb_set _ _ c); [done|].
  unfold scheduleTCB. apply wp_bind, wp_gets. apply wp_bind, wp_gets.
  destruct (_ && _) eqn:E; [|by apply wp_ret]. exfalso. apply andb_prop in E as [Et Ea].
  apply Z.eqb_eq in Et, Ea. cbn in Et, Ea. destruct (si_resume _ _ I Ea) as [Hr|]; [|congruence].
  rewrite <- Et in Hr. apply (runnable_state k t c Hc) in Hr. congruence.
Qed.

Lemma blocked_set_inv k t c st :
  sched_inv k → tcbs k !! t = Some c → isRunnable_state (tsType c) = false → t ≠ ksIdleThread k →
  sched_inv_but (Some t) (with_state t c st k) ∧
  (isRunnable_state st = false → sched_inv (with_state t c st k)).
Proof.
  intros I Hc Hn Hid.
  assert (Hnr : ¬ runnable k t) by (rewrite (runnable_state k t c Hc); congruence).
  destruct (blocked_not_queued k t I ltac:(by rewrite Hc) Hnr) as [Hq Ha].
  assert (I' : sched_inv_but (Some t) (with_state t c st k)).
  { apply set_state_inv; [done|done|done|done|]. intros -> E. destruct (si_resume _ _ I E) as [?|?]; done. }
  split; [done|]. intros Hst. apply (not_runnable_inv _ t); [done|].
  intros [[_ E]|[? _]]%(set_state_runnable k t c st t Hc); [congruence|done].
Qed.

(** A thread on its ready queue is no exception. *)
Lemma sched_inv_queued k t : sched_inv_but (Some t) k → queued k t → sched_inv k.
Proof.
  intros I Hq. split; try apply I. intros u Hu _.
  destruct (decide (u = t)) as [->|Hne]; [by left|]. apply (si_lost _ _ I); [done|]. congruence.
Qed.

Lemma waiting_not_idle X k wq t a : sched_inv k → ipc_ok_but X k wq → t ∈ wq a → t ≠ ksIdleThread k.
Proof.
  intros I H Ht ->. destruct (si_idle _ _ I) as (c & Hc & Hst).
  by eapply (not_waiting_out _ _ _ _ c); [done|done|by rewrite Hst|].
Qed.

Lemma waiting_not_runnable s : waiting_state s = true → isRunnable_state s = false.
Proof. by destruct s. Qed.

(** What is left of a thread when the fields of the scheduler and the links of
    the waiting queues are forgotten. *)
Definition thread_core (c : tcb_t) : tcb_t := erase ep_links (sched_core c).

(** The interrupt lines: their state, their slots, what the controller will say;
    and the variables of the address spaces. *)
Definition irq_view (k : ks) := (intStateIRQTable k, intStateIRQNode k, irq_pending k, x86 k).

(** The states agree on everything but the scheduler's own fields, the pending
    action and the links of waiting queues; the listed threads excepted. *)
Definition threads_but (X : list Z) (k k' : ks) : Prop :=
  (∀ u, u ∉ X → thread_core <$> tcbs k' !! u = thread_core <$> tcbs k !! u) ∧
  ctes k' = ctes k ∧ irq_view k' = irq_view k ∧ ksCurThread k' = ksCurThread k ∧
  ksIdleThread k' = ksIdleThread k.

(** Notifications keep their bound thread, endpoints stay, and no thread is
    made the pending action. *)
Definition objs_keep (k k' : ks) : Prop :=
  (∀ n, ntfnBoundTCB <$> ntfns k' !! n = ntfnBoundTCB <$> ntfns k !! n) ∧
  (∀ e, is_Some (eps k' !! e) ↔ is_Some (eps k !! e)) ∧
  (ksSchedulerAction k' = ksSchedulerAction k ∨ ksSchedulerAction k' = SchedulerAction_ChooseNewThread).

Lemma objs_keep_trans k1 k2 k3 : objs_keep k1 k2 → objs_keep k2 k3 → objs_keep k1 k3.
Proof.
  intros (N1 & E1 & A1) (N2 & E2 & A2). split_and!.
  - intros n. by rewrite N2.
  - intros e. by rewrite E2.
  - destruct A2 as [->|?]; auto.
Qed.

Lemma objs_keep_ntfn k k' n x x' :
  ntfns k !! n = Some x → ntfnBoundTCB x' = ntfnBoundTCB x → ntfns k' = <[n := x']> (ntfns k) → eps k' = eps k →
  ksSchedulerAction k' = ksSchedulerAction k ∨ ksSchedulerAction k' = SchedulerAction_ChooseNewThread → objs_keep k k'.
Proof.
  intros Hx Eb En Ee Ha. split_and!; [|by rewrite Ee|done]. intros m. rewrite En.
  destruct (decide (n = m)) as [<-|Hne]; [|by rewrite lookup_insert_ne]. rewrite lookup_insert_eq, Hx. cbn. by rewrite Eb.
Qed.

Lemma objs_keep_ep k k' e x x' :
  eps k !! e = Some x → ntfns k' = ntfns k → eps k' = <[e := x']> (eps k) →
  ksSchedulerAction k' = ksSchedulerAction k ∨ ksSchedulerAction k' = SchedulerAction_ChooseNewThread → objs_keep k k'.
Proof.
  intros Hx En Ee Ha. split_and!; [by rewrite En| |done]. intros m. rewrite Ee.
  destruct (decide (e = m)) as [<-|Hne]; [|by rewrite lookup_insert_ne]. rewrite lookup_insert_eq, Hx. by split.
Qed.

Lemma threads_but_refl X k : threads_but X k k.
Proof. by split_and!. Qed.
Lemma threads_but_trans X k1 k2 k3 : threads_but X k1 k2 → threads_but X k2 k3 → threads_but X k1 k3.
Proof.
  intros (A & ?&?&?&?) (B & ?&?&?&?). split_and!; [|congruence..]. intros u Hu. by rewrite B, A.
Qed.
Lemma threads_but_mono X Y k k' : (∀ u, u ∈ X → u ∈ Y) → threads_but X k k' → threads_but Y k k'.
Proof. intros HX (A & HA). split; [|done]. intros u Hu. apply A. auto. Qed.

Lemma same_threads_but X k k' : same_threads k k' → threads_but X k k'.
Proof.
  intros (Ht & Eo & Ee & Ec & Ei). injection Eo as _ Ec' Ei' _ _ _ _ En' _ _ _ Ep'. split_and!; try done; [|unfold irq_view; congruence].
  intros u _. specialize (Ht u). destruct (tcbs k' !! u), (tcbs k !! u); try done.
  cbn [fmap option_fmap option_map] in *. apply (inj Some) in Ht. unfold thread_core. by rewrite Ht.
Qed.

Lemma links_but k k' :
  same_but_links ep_links (tcbs k) (tcbs k') → ctes k' = ctes k → irq_view k' = irq_view k →
  ksCurThread k' = ksCurThread k → ksIdleThread k' = ksIdleThread k → threads_but [] k k'.
Proof.
  intros Hs ? ? ? ?. split_and!; try done. intros u _. specialize (Hs u).
  destruct (tcbs k' !! u) as [c'|], (tcbs k !! u) as [c|]; try done.
  cbn [fmap option_fmap option_map] in *. apply (inj Some) in Hs. f_equal.
  assert (E : ∀ x, thread_core x = sched_core (erase ep_links x)) by done. by rewrite !E, Hs.
Qed.

Lemma set_but X k t c : t ∈ X → threads_but X k (k <| tcbs ::= <[t := c]> |>).
Proof.
  intros Ht. split_and!; try done. intros u Hu. cbn. rewrite lookup_insert_ne; [done|]. by intros <-.
Qed.

(** ** A thread blocks on an object *)

(** [scheduleTCB] after the running thread's state has become [c1]. *)
Lemma block_thread k t c c1 :
  sched_inv k → tcbs k !! t = Some c → t ≠ ksIdleThread k → ¬ queued k t → ksSchedulerAction k ≠ t →
  isRunnable_state (tsType c1) = false → sched_view c1 = sched_view (c <| tsType := tsType c1 |>) →
  let k1 := k <| tcbs ::= <[t := c1]> |> in
  wp (scheduleTCB t) (λ _ k', sched_inv k' ∧ ¬ runnable k' t ∧
    (k' = k1 ∨ ksSchedulerAction k = SchedulerAction_ResumeCurrentThread ∧
       k' = k1 <| ksSchedulerAction := SchedulerAction_ChooseNewThread |>) ∧
    (t = ksCurThread k → ksSchedulerAction k' ≠ SchedulerAction_ResumeCurrentThread)) k1.
Proof.
  intros I Hc Hid Hnq Hna Hst Ev k1. set (st := tsType c1) in *.
  assert (Hsame : ∀ a, sched_same (with_state t c st (k <| ksSchedulerAction := a |>)) (k1 <| ksSchedulerAction := a |>)).
  { intros a. split; [|done]. intros u. cbn. destruct (decide (t = u)) as [<-|Hne].
    - rewrite !lookup_insert_eq. cbn [fmap option_fmap option_map]. by rewrite Ev.
    - by rewrite !lookup_insert_ne. }
  assert (Hc1 : tcbs k1 !! t = Some c1) by apply lookup_insert_eq.
  assert (Hnr : ∀ a, ¬ runnable (k1 <| ksSchedulerAction := a |>) t).
  { intros a (c' & Hc' & Hr). cbn in Hc'. rewrite lookup_insert_eq in Hc'. injection Hc' as <-. fold st in Hr. congruence. }
  assert (Hinv : ∀ a, sched_inv (k <| ksSchedulerAction := a |>) → a ≠ t →
    (t = ksCurThread k → a ≠ SchedulerAction_ResumeCurrentThread) → sched_inv (k1 <| ksSchedulerAction := a |>)).
  { intros a Ia Ha Hr. apply (not_runnable_inv _ t); [|apply Hnr].
    apply (sched_same_inv (Some t) _ _ (Hsame a)). apply set_state_inv; [exact Ia|exact Hc|exact Hid| |].
    - intros _. by split.
    - intros Et E. exfalso. by apply (Hr Et). }
  assert (Eta : ∀ k : ks, k <| ksSchedulerAction := ksSchedulerAction k |> = k) by (by intros []).
  unfold scheduleTCB. apply wp_bind, wp_gets. apply wp_bind, wp_gets. destruct (_ && _) eqn:E.
  - apply andb_prop in E as [Et Ea]. apply Z.eqb_eq in Et, Ea. cbn in Et, Ea.
    apply wp_bind. eapply wp_mono; [by apply (isRunnable_spec k1 t c1)|]. intros r k2 [-> ->].
    fold st. rewrite Hst. cbn [negb when]. unfold rescheduleRequired. apply wp_bind, wp_gets.
    change (ksSchedulerAction k1) with (ksSchedulerAction k). rewrite Ea.
    cbn [Z.eqb negb andb when SchedulerAction_ResumeCurrentThread].
    apply wp_bind, wp_ret. apply wp_modify. split_and!; [|apply Hnr|right; by split|done].
    apply Hinv; [by apply choose_inv| |done]. intros <-. by apply (si_ptr _ _ I) in Hc.
  - assert (Hcur : t = ksCurThread k → ksSchedulerAction k ≠ SchedulerAction_ResumeCurrentThread).
    { intros Et Ea. change ((t =? ksCurThread k) && (ksSchedulerAction k =? SchedulerAction_ResumeCurrentThread) = false) in E.
      rewrite <- Et, Ea, Z.eqb_refl in E. done. }
    apply wp_ret. specialize (Hinv (ksSchedulerAction k)). specialize (Hnr (ksSchedulerAction k)).
    change (ksSchedulerAction k) with (ksSchedulerAction k1) in Hinv at 4.
    change (ksSchedulerAction k) with (ksSchedulerAction k1) in Hnr.
    rewrite (Eta k), (Eta k1) in Hinv. rewrite (Eta k1) in Hnr. split_and!; [by apply Hinv|done|by left|done].
Qed.

Lemma enqueue_ntfn k wq n x t c :
  ipc_ok_but [t] k wq → ntfns k !! n = Some x → ntfnState x ≠ NtfnState_Active → t ≠ 0 →
  tcbs k !! t = Some c → blockingObject c = n → tsType c = ThreadState_BlockedOnNotification →
  wp (q ← tcbEPAppend t (ntfnQueue x); set_ntfn_state n NtfnState_Waiting;; ntfn_ptr_set_queue n q)
    (λ _ k', ∃ h q,
       k' = k <| tcbs := h |> <| ntfns ::= <[n := x <| ntfnState := NtfnState_Waiting |> <| ntfnQueue := q |>]> |> ∧
       ipc_ok k' (<[n := wq n ++ [t]]> wq) ∧ same_but_links ep_links (tcbs k) h) k.
Proof.
  intros H Hx Hst Ht0 Hc Hb Ht. pose proof (wait_obj_ntfn _ _ _ _ _ H Hx) as Ho.
  destruct (io_queue _ _ _ H _ _ _ Ho) as [Hd _].
  assert (Htn : t ∉ wq n) by (apply (io_out _ _ _ H); set_solver).
  apply wp_bind. eapply wp_mono; [by apply (tcbEPAppend_spec k _ (wq n) t c)|].
  intros q k1 (h & -> & Hd' & Hs & Hf). apply wp_bind, (wp_ntfn_set _ _ x); [done|].
  eapply wp_ntfn_set; [apply lookup_insert_eq|]. exists h, q.
  unfold update. cbn. rewrite insert_insert_eq. split; [done|]. split; [|done].
  eapply (ipc_ok_attach [] k _ wq n t c (ntfnQueue x) (ntfn_waits (ntfnState x)) q ThreadState_BlockedOnNotification); try done.
  - set_solver.
  - destruct (ntfnState x); [by left|by right|done].
  - refine (only_obj_ntfn k _ n x (x <| ntfnState := NtfnState_Waiting |> <| ntfnQueue := q |>) _ Hx _ _);
      [apply H|done|done].
Qed.

Lemma enqueue_ep k wq e x t c st :
  ipc_ok_but [t] k wq → eps k !! e = Some x → epState x = EPState_Idle ∨ epState x = st → t ≠ 0 →
  tcbs k !! t = Some c → blockingObject c = e → ep_waits st = Some (tsType c) →
  wp (q ← tcbEPAppend t (epQueue x); set_ep_state e st;; ep_ptr_set_queue e q)
    (λ _ k', ∃ h q,
       k' = k <| tcbs := h |> <| eps ::= <[e := x <| epState := st |> <| epQueue := q |>]> |> ∧
       ipc_ok k' (<[e := wq e ++ [t]]> wq) ∧ same_but_links ep_links (tcbs k) h) k.
Proof.
  intros H Hx Hst Ht0 Hc Hb Ht. pose proof (wait_obj_ep _ _ _ Hx) as Ho.
  destruct (io_queue _ _ _ H _ _ _ Ho) as [Hd _].
  assert (Htn : t ∉ wq e) by (apply (io_out _ _ _ H); set_solver).
  apply wp_bind. eapply wp_mono; [by apply (tcbEPAppend_spec k _ (wq e) t c)|].
  intros q k1 (h & -> & Hd' & Hs & Hf). apply wp_bind.
  unfold set_ep_state, ep_ptr_set_queue, ep_set, wp at 1. cbn. rewrite Hx. unfold wp. cbn. rewrite lookup_insert_eq.
  exists h, q. unfold update. cbn. rewrite insert_insert_eq. split; [done|]. split; [|done].
  eapply (ipc_ok_attach [] k _ wq e t c (epQueue x) (ep_waits (epState x)) q (tsType c)); try done.
  - set_solver.
  - destruct Hst as [-> | ->]; [by left|by right].
  - rewrite <- Ht. refine (only_obj_ep k _ e x (x <| epState := st |> <| epQueue := q |>) _ Hx _ _);
      [apply H|done|done].
Qed.

Lemma block_ready k wq t c c1 :
  sched_inv k → ipc_ok k wq → tcbs k !! t = Some c → waiting_state (tsType c) = false →
  t ≠ ksIdleThread k → ¬ queued k t → ksSchedulerAction k ≠ t →
  isRunnable_state (tsType c1) = false → sched_view c1 = sched_view (c <| tsType := tsType c1 |>) →
  wp (scheduleTCB t) (λ _ k', sched_inv k' ∧ ¬ runnable k' t ∧ ipc_ok_but [t] k' wq ∧
    tcbs k' !! t = Some c1 ∧ ntfns k' = ntfns k ∧ eps k' = eps k ∧ threads_but [t] k k' ∧
    (t = ksCurThread k → ksSchedulerAction k' ≠ SchedulerAction_ResumeCurrentThread))
    (k <| tcbs ::= <[t := c1]> |>).
Proof.
  intros I H Hc Hw Hid Hnq Hna Hst Ev. eapply wp_mono; [by apply (block_thread k t c c1)|].
  intros [] k' (I' & Hn' & Hk' & Ha'). set (k1 := k <| tcbs ::= <[t := c1]> |>) in *.
  assert (H1 : ipc_ok_but [t] k1 wq).
  { apply (ipc_ok_free [t] k t c); [done|set_solver|]. by apply (ipc_ok_except [] k t c). }
  assert (B1 : threads_but [t] k k1) by (apply set_but; set_solver).
  assert (Hc1 : tcbs k1 !! t = Some c1) by apply lookup_insert_eq.
  destruct Hk' as [-> | [_ ->]]; split_and!; try done. by apply (ipc_ok_same [t] k1).
Qed.

(** Once the thread is linked into the queue, only links differ. *)
Lemma block_done k k2 k3 t c1 :
  threads_but [t] k k2 → same_but_links ep_links (tcbs k2) (tcbs k3) → sched_globals k3 = sched_globals k2 →
  ctes k3 = ctes k2 → irq_view k3 = irq_view k2 → tcbs k2 !! t = Some c1 →
  sched_inv k2 → ¬ runnable k2 t →
  sched_inv k3 ∧ ¬ runnable k3 t ∧ thread_core <$> tcbs k3 !! t = Some (thread_core c1) ∧ threads_but [t] k k3.
Proof.
  intros B Hs Eg Ec Ei Hc I Hn. assert (S : sched_same k2 k3) by (by apply sched_same_links).
  injection Eg as _ _ _ Ecu Eid _ _ _. split_and!.
  - by apply (sched_same_inv None k2).
  - by rewrite <- (sched_same_runnable k2 k3).
  - destruct (same_but_lookup ep_links _ _ t Hs) as [c3 Hc3]; [by rewrite Hc|].
    destruct (same_but_field ep_links thread_core _ _ t c3 ltac:(done) Hs Hc3) as (c' & Hc' & E).
    assert (c' = c1) as -> by congruence. rewrite Hc3. cbn [fmap option_fmap option_map]. by rewrite E.
  - eapply threads_but_trans; [exact B|]. eapply (threads_but_mono []); [set_solver|]. by apply links_but.
Qed.

(** ** The small system *)

Definition demo_wq : Z → list Z := <[600 := [48]]> (<[700 := [64; 80; 96]]> (<[720 := [112]]> (λ _, []))).

Lemma demo_objs a q w : wait_obj demo_ks a = Some (q, w) →
  (a = 600 ∧ q = mk_queue 48 48 ∧ w = Some ThreadState_BlockedOnNotification) ∨
  (a = 616 ∧ q = mk_queue 0 0 ∧ w = None) ∨
  (a = 700 ∧ q = mk_queue 64 96 ∧ w = Some ThreadState_BlockedOnSend) ∨
  (a = 720 ∧ q = mk_queue 112 112 ∧ w = Some ThreadState_BlockedOnReceive).
Proof.
  unfold wait_obj.
  assert (Ee : eps demo_ks = eps demo_boot) by (vm_compute; reflexivity).
  assert (En : ntfns demo_ks = ntfns demo_boot) by (vm_compute; reflexivity). rewrite Ee, En.
  destruct (eps demo_boot !! a) as [x|] eqn:E.
  - intros [= <- <-]. cbn in E. apply lookup_insert_Some in E as [[<- <-]|[_ E]]; [tauto|].
    apply lookup_insert_Some in E as [[<- <-]|[_ E]]; [tauto|]. done.
  - destruct (ntfns demo_boot !! a) as [x|] eqn:E'; [|done]. intros [= <- <-]. cbn in E'.
    apply lookup_insert_Some in E' as [[<- <-]|[_ E']]; [tauto|].
    apply lookup_insert_Some in E' as [[<- <-]|[_ E']]; [tauto|]. done.
Qed.

Lemma demo_wq_in a t : t ∈ demo_wq a →
  (a = 600 ∧ t = 48) ∨ (a = 700 ∧ (t = 64 ∨ t = 80 ∨ t = 96)) ∨ (a = 720 ∧ t = 112).
Proof.
  unfold demo_wq. destruct (decide (600 = a)) as [<-|H1]; [rewrite fn_lookup_insert; set_solver|].
  rewrite fn_lookup_insert_ne by done. destruct (decide (700 = a)) as [<-|H2]; [rewrite fn_lookup_insert; set_solver|].
  rewrite fn_lookup_insert_ne by done. destruct (decide (720 = a)) as [<-|H3]; [rewrite fn_lookup_insert; set_solver|].
  rewrite fn_lookup_insert_ne by done. by rewrite elem_of_nil.
Qed.

Lemma demo_ipc : ipc_ok demo_ks demo_wq.
Proof.
  split.
  - intros a [x Hx]. assert (Ee : eps demo_ks = eps demo_boot) by (vm_compute; reflexivity). rewrite Ee in Hx. cbn in Hx.
    apply lookup_insert_Some in Hx as [[<- _]|[_ Hx]]; [by vm_compute|].
    apply lookup_insert_Some in Hx as [[<- _]|[_ Hx]]; [by vm_compute|done].
  - intros a q w [(-> & -> & ->)|[(-> & -> & ->)|[(-> & -> & ->)|(-> & -> & ->)]]]%demo_objs;
      (split; [split_and!; [apply (bool_decide_unpack _); by vm_compute| |done|done]|done]);
      repeat (split; [done|]); repeat (split; [eexists; split; [vm_compute; reflexivity|done]|]);
      repeat (split; [done|]); repeat (split; [eexists; split; [vm_compute; reflexivity|done]|]); try done.
    all: cbn; repeat (split; [done|split; [eexists; split; [vm_compute; reflexivity|done]|]]); done.
  - intros a t [(-> & ->)|[(-> & [->|[->| ->]])|(-> & ->)]]%demo_wq_in;
      eexists _, _, _; (split; [vm_compute; reflexivity|split; [vm_compute; reflexivity|done]]).
  - intros t c Hc. revert t c Hc.
    apply (demo_cases (λ t c, waiting_state (tsType c) = true → t ∉ [] → t ∈ demo_wq (blockingObject c)));
      try done; intros _ _; apply (bool_decide_unpack _); by vm_compute.
  - intros t a Ht. by apply elem_of_nil in Ht.
Qed.
