(* ===== verification/Signals.v ===== *)
(** Signals, waits and their cancellation: what the operations of [Ipc] do to
    the threads that wait ([ipc_ok]) and to the scheduler ([sched_inv]). *)

From stdpp Require Import functions.
From S2P Require Import Prelude Caps Kernel Scheduler Wakeup Paging VSpace IOSpace Ipc Waiting.

(** ** Waking a thread *)

(** [t] runs with [badge] in its register: it is on its ready queue or is the
    pending action, and otherwise still the thread [c]. *)
Definition received (k' : ks) (t badge : Z) (c : tcb_t) : Prop :=
  (t = ksSchedulerAction k' ∨ queued k' t) ∧
  thread_core <$> tcbs k' !! t = Some (thread_core
    (c <| tsType := ThreadState_Running |> <| registers ::= <[badgeRegister := badge]> |>)).

Lemma same_threads_core k k' u c :
  same_threads k k' → tcbs k !! u = Some c → thread_core <$> tcbs k' !! u = Some (thread_core c).
Proof.
  intros S Hc. destruct (same_threads_but [] k k' S) as [H _]. specialize (H u ltac:(set_solver)).
  by rewrite H, Hc.
Qed.

Lemma with_state_lookup t c st k : tcbs (with_state t c st k) !! t = Some (c <| tsType := st |>).
Proof. apply lookup_insert_eq. Qed.

Lemma wake_spec k wq t c b :
  sched_inv k → ipc_ok_but [t] k wq → tcbs k !! t = Some c →
  isRunnable_state (tsType c) = false → t ≠ ksIdleThread k →
  wp (setThreadState t ThreadState_Running;; setRegister t badgeRegister b;; switchIfRequiredTo t)
    (λ _ k', sched_inv k' ∧ ipc_ok k' wq ∧ received k' t b c ∧ threads_but [t] k k' ∧
       ntfns k' = ntfns k ∧ eps k' = eps k) k.
Proof.
  intros I H Hc Hn Hid. apply wp_bind, (setThreadState_runs k t c); [done|done|].
  destruct (blocked_set_inv k t c ThreadState_Running I Hc Hn Hid) as [I1 _].
  set (k1 := with_state t c ThreadState_Running k) in *.
  set (c1 := c <| tsType := ThreadState_Running |>).
  assert (Hc1 : tcbs k1 !! t = Some c1) by apply with_state_lookup.
  apply wp_bind, (wp_tcb_set _ _ c1); [done|].
  set (c2 := c1 <| registers ::= <[badgeRegister := b]> |>). set (k2 := k1 <| tcbs ::= <[t := c2]> |>).
  assert (I2 : sched_inv_but (Some t) k2).
  { eapply sched_same_inv; [|exact I1]. by apply (sched_same_set k1 t c1). }
  assert (Hc2 : tcbs k2 !! t = Some c2) by apply lookup_insert_eq.
  assert (Hr2 : runnable k2 t) by (exists c2; by split).
  assert (H2 : ipc_ok k2 wq).
  { apply (ipc_ok_awake [] k2 t c2 wq Hc2); [done|]. apply (ipc_ok_free [t] k1 t c1); [done|set_solver|].
    apply (ipc_ok_free [t] k t c); [done|set_solver|done]. }
  eapply wp_mono; [by apply possibleSwitchTo_inv|]. intros [] k' (I' & S' & Hq).
  pose proof S' as (_ & Eo & Ee & _). injection Eo as En _ _ _ _ _ _ _ _ _ _ _.
  split_and!; try done.
  - by apply (same_threads_ipc [] k2).
  - split; [done|]. by apply (same_threads_core k2).
  - eapply threads_but_trans; [|by apply (same_threads_but [t] k2)].
    eapply threads_but_trans; [by apply (set_but [t] k t (c <| tsType := ThreadState_Running |>)); set_solver|].
    apply set_but. set_solver.
Qed.

(** ** Cancelling one thread *)

Definition made_inactive (k' : ks) (t : Z) (c : tcb_t) : Prop :=
  thread_core <$> tcbs k' !! t = Some (thread_core (c <| tsType := ThreadState_Inactive |>)).

(** The end of [cancelSignal] and of [cancelIPC]. *)
Lemma inactive_spec k k1 wq t c :
  sched_inv k → same_but_links ep_links (tcbs k) (tcbs k1) → sched_globals k1 = sched_globals k →
  ctes k1 = ctes k → irq_view k1 = irq_view k →
  tcbs k !! t = Some c → isRunnable_state (tsType c) = false → t ≠ ksIdleThread k →
  ipc_ok_but [t] k1 wq →
  wp (setThreadState t ThreadState_Inactive) (λ _ k',
    sched_inv k' ∧ ipc_ok k' wq ∧ made_inactive k' t c ∧ threads_but [t] k k' ∧
    ntfns k' = ntfns k1 ∧ eps k' = eps k1 ∧ ksSchedulerAction k' = ksSchedulerAction k) k1.
Proof.
  intros I Hs Eg Ec Ei Hc Hn Hid H. pose proof (sched_same_links k k1 Hs Eg) as S.
  pose proof (sched_same_inv None k k1 S I) as I1. injection Eg as _ _ _ Ecur Eidle Eact _ _.
  destruct (same_but_lookup ep_links (tcbs k) (tcbs k1) t Hs) as [c1 Hc1]; [by rewrite Hc|].
  assert (Ev : thread_core c1 = thread_core c ∧ tsType c1 = tsType c).
  { destruct (same_but_field ep_links (λ c, (thread_core c, tsType c)) _ _ t c1 ltac:(done) Hs Hc1) as (c' & Hc' & E).
    assert (c' = c) as -> by congruence. by apply pair_equal_spec in E. }
  destruct Ev as [Ev Et]. rewrite <- Et in Hn. rewrite <- Eidle in Hid.
  apply (setThreadState_blocked k1 t c1); [done|done|done|done|].
  destruct (blocked_set_inv k1 t c1 ThreadState_Inactive I1 Hc1 Hn Hid) as [_ I2]. specialize (I2 eq_refl).
  split_and!; try done.
  - eapply (ipc_ok_awake [] _ t); [apply with_state_lookup|done|]. apply (ipc_ok_free [t] k1 t c1); [done|set_solver|done].
  - unfold made_inactive. rewrite with_state_lookup. cbn [fmap option_fmap option_map]. f_equal.
    assert (E : ∀ x, thread_core (x <| tsType := ThreadState_Inactive |>) =
      thread_core x <| tsType := ThreadState_Inactive |>) by done. by rewrite !E, Ev.
  - eapply threads_but_trans; [|apply set_but; set_solver].
    eapply (threads_but_mono []); [set_solver|]. by apply links_but.
Qed.

Lemma filter_split t (l l1 l2 : list Z) : NoDup l → l = l1 ++ t :: l2 → filter (.≠ t) l = l1 ++ l2.
Proof. intros Hnd ->. by apply filter_ne_app. Qed.

(** [cancelIPC] on a thread that waits in a queue. *)
Lemma cancelIPC_waiting k wq t c :
  sched_inv k → ipc_ok k wq → tcbs k !! t = Some c → waiting_state (tsType c) = true →
  let a := blockingObject c in
  wp (cancelIPC t) (λ _ k', sched_inv k' ∧ ipc_ok k' (<[a := filter (.≠ t) (wq a)]> wq) ∧
    made_inactive k' t c ∧ threads_but [t] k k' ∧
    (∀ n x, n ≠ a → ntfns k !! n = Some x → ntfns k' !! n = Some x) ∧
    (∀ e x, e ≠ a → eps k !! e = Some x → eps k' !! e = Some x) ∧ objs_keep k k') k.
Proof.
  intros I H Hc Hw a. pose proof (io_blocked _ _ _ H t c Hc Hw ltac:(set_solver)) as Hin.
  fold a in Hin. pose proof (waiting_not_idle _ _ _ _ _ I H Hin) as Hid.
  pose proof (waiting_not_runnable _ Hw) as Hn.
  destruct (io_in _ _ _ H _ _ Hin) as (q & st & c' & Ho & Hc' & _ & Hst).
  assert (c' = c) as -> by congruence. clear Hc'.
  destruct (io_queue _ _ _ H _ _ _ Ho) as [[Hnd _] _].
  apply list_elem_of_split in Hin as (l1 & l2 & Hq). rewrite (filter_split t _ l1 l2 Hnd Hq).
  unfold cancelIPC. apply wp_bind, (wp_tcb_at _ c); [done|]. fold a. unfold wait_obj in Ho.
  destruct (eps k !! a) as [x|] eqn:Ex.
  - injection Ho as _ Hx. assert (Hb : tsType c = ThreadState_BlockedOnSend ∨ tsType c = ThreadState_BlockedOnReceive).
    { destruct (epState x); injection Hx as E || discriminate; rewrite Hst, <- E; auto. }
    assert (Hgo : wp (x0 ← ep_at a; assert (match epState x0 with EPState_Idle => false | _ => true end);;
      queue ← ep_ptr_get_queue a; queue ← tcbEPDequeue t queue; ep_ptr_set_queue a queue;;
      when (q_head queue =? 0) (set_ep_state a EPState_Idle);; setThreadState t ThreadState_Inactive)
      (λ _ k', sched_inv k' ∧ ipc_ok k' (<[a := l1 ++ l2]> wq) ∧ made_inactive k' t c ∧ threads_but [t] k k' ∧
        (∀ n x, n ≠ a → ntfns k !! n = Some x → ntfns k' !! n = Some x) ∧
        (∀ e x, e ≠ a → eps k !! e = Some x → eps k' !! e = Some x) ∧ objs_keep k k') k).
    { assert (Hat : ∀ Q, Q x k → wp (ep_at a) Q k) by (intros Q HQ; unfold wp, ep_at; by rewrite Ex).
      apply wp_bind, Hat. apply wp_bind, wp_assert; [by destruct (epState x)|].
      apply wp_bind. unfold ep_ptr_get_queue. apply wp_bind, Hat, wp_ret.
      apply (dequeue_ep k wq a x l1 t l2); [done|done|done|]. intros h q' k' Hk' Hs.
      eapply wp_mono; [apply (inactive_spec k k' (<[a := l1 ++ l2]> wq) t c); done|].
      intros [] k2 (? & ? & ? & ? & En & Ee & Ea). split_and!; try done.
      - intros n y _ Hy. by rewrite En.
      - intros e y Hne Hy. rewrite Ee. cbn. by rewrite lookup_insert_ne.
      - eapply (objs_keep_ep k k2 a x); [done|by rewrite En|by rewrite Ee|by left]. }
    destruct Hb as [-> | ->]; exact Hgo.
  - destruct (ntfns k !! a) as [x|] eqn:En; [|done]. cbn in Ho. injection Ho as _ Hx.
    destruct (ntfnState x) eqn:Es; [done| |done]. injection Hx as <-. rewrite Hst.
    unfold cancelSignal. apply wp_bind, (wp_ntfn_at _ x); [done|]. rewrite Es. apply wp_bind, wp_assert; [done|].
    apply wp_bind. unfold ntfn_ptr_get_queue. apply wp_bind, (wp_ntfn_at _ x); [done|]. apply wp_ret.
    apply (dequeue_ntfn k wq a x l1 t l2); [done|done|done|]. intros h q' k' Hk' Hs.
    eapply wp_mono; [apply (inactive_spec k k' (<[a := l1 ++ l2]> wq) t c); done|].
    intros [] k2 (? & ? & ? & ? & En' & Ee & Ea). split_and!; try done.
    + intros n y Hne Hy. rewrite En'. cbn. by rewrite lookup_insert_ne.
    + intros e y _ Hy. by rewrite Ee.
    + eapply (objs_keep_ntfn k k2 a x); [done| |by rewrite En'|by rewrite Ee|by left].
      by destruct (l1 ++ l2).
Qed.

(** ** Signalling *)

(** The thread a signal on [n] goes to and the object that thread waits on. *)
Definition signal_target (k : ks) (wq : Z → list Z) (n : Z) (x : notification_t) : option (Z * Z) :=
  match ntfnState x with
  | NtfnState_Active => None
  | NtfnState_Waiting => match wq n with t :: _ => Some (t, n) | [] => None end
  | NtfnState_Idle =>
    match tcbs k !! ntfnBoundTCB x with
    | Some c => if decide (tsType c = ThreadState_BlockedOnReceive)
                then Some (ntfnBoundTCB x, blockingObject c) else None
    | None => None
    end
  end.

(** The notification when nobody takes the signal: the badges accumulate. *)
Definition activated (x : notification_t) (badge : Z) : notification_t :=
  x <| ntfnState := NtfnState_Active |>
    <| ntfnMsgIdentifier :=
         match ntfnState x with NtfnState_Active => Z.lor (ntfnMsgIdentifier x) badge | _ => badge end |>.

(** A notification and its bound thread name each other. *)
Definition bound_ok (k : ks) : Prop :=
  (∀ n x, ntfns k !! n = Some x → ntfnBoundTCB x ≠ 0 →
     ∃ c, tcbs k !! ntfnBoundTCB x = Some c ∧ tcbBoundNotification c = n) ∧
  (∀ t c, tcbs k !! t = Some c → tcbBoundNotification c ≠ 0 →
     ∃ x, ntfns k !! tcbBoundNotification c = Some x ∧ ntfnBoundTCB x = t).

Lemma ipc_ok_ntfn_keep X k wq n x x' :
  ntfns k !! n = Some x → ntfnQueue x' = ntfnQueue x →
  ntfn_waits (ntfnState x') = ntfn_waits (ntfnState x) →
  ipc_ok_but X k wq → ipc_ok_but X (k <| ntfns ::= <[n := x']> |>) wq.
Proof.
  intros Hx Eq Ew H. set (k' := k <| ntfns ::= <[n := x']> |>).
  assert (Eo : ∀ a, wait_obj k' a = wait_obj k a).
  { intros a. unfold wait_obj. cbn. destruct (eps k !! a); [done|]. destruct (decide (n = a)) as [<-|Hne].
    - rewrite lookup_insert_eq, Hx. cbn. by rewrite Eq, Ew.
    - by rewrite lookup_insert_ne. }
  split.
  - intros a Ha. cbn in *. pose proof (io_kinds _ _ _ H a Ha) as Hk.
    rewrite lookup_insert_ne; [done|]. intros <-. by rewrite Hx in Hk.
  - intros a q w. rewrite Eo. apply H.
  - intros a t Ht. rewrite Eo. by apply H.
  - apply H.
  - apply H.
Qed.

Lemma ntfn_set_active_spec k n x badge (Q : unit → ks → Prop) :
  ntfns k !! n = Some x → ntfnState x ≠ NtfnState_Active →
  Q tt (k <| ntfns ::= <[n := activated x badge]> |>) → wp (ntfn_set_active n badge) Q k.
Proof.
  intros Hx Hs HQ. unfold ntfn_set_active, set_ntfn_state. apply wp_bind, (wp_ntfn_set _ _ x); [done|].
  eapply wp_ntfn_set; [apply lookup_insert_eq|]. cbn. unfold update. cbn. rewrite insert_insert_eq.
  unfold activated, update in HQ. cbn in HQ. by destruct (ntfnState x).
Qed.

Lemma core_field {B} (f : tcb_t → B) (o : option tcb_t) c :
  (∀ x, f (thread_core x) = f x) → thread_core <$> o = Some (thread_core c) → ∃ c', o = Some c' ∧ f c' = f c.
Proof.
  intros Hf E. destruct o as [c'|]; [|done]. exists c'. split; [done|].
  cbn [fmap option_fmap option_map] in E. apply (inj Some) in E. by rewrite <- (Hf c'), E, Hf.
Qed.

Lemma received_core k t b c c1 : thread_core c1 = thread_core c → received k t b c1 → received k t b c.
Proof.
  intros Ec [Hq Hr]. split; [done|]. rewrite Hr. f_equal.
  assert (E : ∀ y, thread_core (y <| tsType := ThreadState_Running |> <| registers ::= <[badgeRegister := b]> |>) =
    thread_core y <| tsType := ThreadState_Running |> <| registers ::= <[badgeRegister := b]> |>) by done.
  by rewrite !E, Ec.
Qed.

(** The bound thread waits for a message and gets the signal instead. *)
Lemma signal_bound k wq t c badge :
  sched_inv k → ipc_ok k wq → tcbs k !! t = Some c → tsType c = ThreadState_BlockedOnReceive →
  let a := blockingObject c in
  wp (cancelIPC t;; setThreadState t ThreadState_Running;; setRegister t badgeRegister badge;; switchIfRequiredTo t)
    (λ _ k', sched_inv k' ∧ ipc_ok k' (<[a := filter (.≠ t) (wq a)]> wq) ∧
       received k' t badge c ∧ threads_but [t] k k') k.
Proof.
  intros I H Hc Ht a. apply wp_bind.
  eapply wp_mono; [apply (cancelIPC_waiting k wq t c); try done; by rewrite Ht|].
  intros [] k1 (I1 & H1 & Hm & S1 & _ & _).
  destruct (core_field (λ c, (thread_core c, tsType c)) _ _ ltac:(done) Hm) as (c1 & Hc1 & E1).
  apply pair_equal_spec in E1 as [Ec Et1]. change (tsType c1 = ThreadState_Inactive) in Et1.
  assert (Hid : t ≠ ksIdleThread k1).
  { destruct S1 as (_ & _ & _ & _ & ->). intros E. destruct (si_idle _ _ I) as (c0 & Hc0 & Hs0). congruence. }
  eapply wp_mono; [apply (wake_spec k1 (<[a := filter (.≠ t) (wq a)]> wq) t c1 badge); try done|].
  { apply (ipc_ok_except [] k1 t c1); [done|by rewrite Et1|done]. }
  { by rewrite Et1. }
  intros [] k2 (I2 & H2 & R2 & S2 & _). split_and!; [done|done| |by eapply threads_but_trans].
  destruct R2 as [Hq Hr]. split; [done|]. rewrite Hr. f_equal.
  assert (E : ∀ y z, thread_core y = thread_core (z <| tsType := ThreadState_Inactive |>) →
    thread_core (y <| tsType := ThreadState_Running |> <| registers ::= <[badgeRegister := badge]> |>) =
    thread_core (z <| tsType := ThreadState_Running |> <| registers ::= <[badgeRegister := badge]> |>)).
  { intros y z E. change (thread_core y <| tsType := ThreadState_Running |> <| registers ::= <[badgeRegister := badge]> |> =
      thread_core (z <| tsType := ThreadState_Running |> <| registers ::= <[badgeRegister := badge]> |>)).
    by rewrite E. }
  by apply E.
Qed.

(** The first waiting thread gets the signal. *)
Lemma signal_waiting k wq n x t l badge :
  sched_inv k → ipc_ok k wq → ntfns k !! n = Some x → wq n = t :: l →
  wp (q ← tcbEPDequeue t (ntfnQueue x); ntfn_ptr_set_queue n q;;
      when (q_head q =? 0) (set_ntfn_state n NtfnState_Idle);;
      setThreadState t ThreadState_Running;; setRegister t badgeRegister badge;; switchIfRequiredTo t)
    (λ _ k', sched_inv k' ∧ ipc_ok k' (<[n := l]> wq) ∧
       (∃ c, tcbs k !! t = Some c ∧ received k' t badge c) ∧ threads_but [t] k k' ∧
       (∃ q, ntfns k' = <[n := ntfn_after l q x]> (ntfns k))) k.
Proof.
  intros I H Hx Eq. assert (Hin : t ∈ wq n) by (rewrite Eq; set_solver).
  destruct (io_in _ _ _ H _ _ Hin) as (q0 & st & c & Ho & Hc & Hb & Hst).
  apply waits_waiting in Ho. rewrite <- Hst in Ho. apply waiting_not_runnable in Ho.
  apply (dequeue_ntfn k wq n x [] t l); [done|done|done|]. intros h q k1 H1 Hs1. cbn [app] in *.
  assert (Hid := waiting_not_idle _ _ _ _ _ I H Hin).
  destruct (same_but_lookup ep_links (tcbs k) (tcbs k1) t Hs1) as [c1 Hc1]; [by rewrite Hc|].
  destruct (same_but_field ep_links (λ c, (thread_core c, tsType c)) _ _ t c1 ltac:(done) Hs1 Hc1) as (c' & Hc' & E1).
  assert (c' = c) as -> by congruence. apply pair_equal_spec in E1 as [Ec Et1].
  eapply wp_mono; [apply (wake_spec k1 (<[n := l]> wq) t c1 badge); try done|].
  { apply (sched_same_inv None k); [|done]. by apply sched_same_links. }
  { by rewrite Et1. }
  intros [] k2 (I2 & H2 & R2 & S2 & En2 & _). split_and!; [done|done| | |].
  - exists c. split; [done|]. by apply (received_core _ _ _ c c1).
  - eapply threads_but_trans; [|exact S2]. eapply (threads_but_mono []); [set_solver|]. by apply links_but.
  - exists q. by rewrite En2.
Qed.

(** What [sendSignal] does on every branch. *)
Lemma sendSignal_spec k wq n x badge :
  sched_inv k → ipc_ok k wq → bound_ok k → ntfns k !! n = Some x →
  wp (sendSignal n badge) (λ _ k', sched_inv k' ∧
    match signal_target k wq n x with
    | Some (t, a) =>
      ipc_ok k' (<[a := filter (.≠ t) (wq a)]> wq) ∧
      (∃ c, tcbs k !! t = Some c ∧ received k' t badge c) ∧ threads_but [t] k k' ∧
      (a = n → ∃ q, ntfns k' = <[n := ntfn_after (filter (.≠ t) (wq n)) q x]> (ntfns k))
    | None => ipc_ok k' wq ∧ k' = k <| ntfns ::= <[n := activated x badge]> |>
    end) k.
Proof.
  intros I H [B _] Hx. unfold sendSignal. apply wp_bind, (wp_ntfn_at _ x); [done|].
  assert (Hact : ntfnState x ≠ NtfnState_Waiting →
    ipc_ok (k <| ntfns ::= <[n := activated x badge]> |>) wq ∧
    sched_inv (k <| ntfns ::= <[n := activated x badge]> |>)).
  { intros Hs. split; [|by apply (sched_same_inv None k)].
    apply (ipc_ok_ntfn_keep [] k wq n x); [done|done|by destruct (ntfnState x)|done]. }
  unfold signal_target. destruct (ntfnState x) eqn:Es.
  - assert (Hset : wp (ntfn_set_active n badge) (λ _ k', sched_inv k' ∧ ipc_ok k' wq ∧
      k' = k <| ntfns ::= <[n := activated x badge]> |>) k).
    { apply (ntfn_set_active_spec k n x); [done|congruence|]. destruct Hact as [? ?]; [done|]. by split_and!. }
    destruct (Z.eqb_spec (ntfnBoundTCB x) 0) as [E|Hne]; cbn [negb].
    { rewrite E. destruct (tcbs k !! 0) eqn:E0; [|done]. destruct (si_rq _ _ I) as (rq & Hok & _).
      by destruct (so_tcb _ _ Hok _ _ E0). }
    destruct (B n x Hx Hne) as (c & Hc & _). rewrite Hc. apply wp_bind, (wp_tcb_at _ c); [done|].
    destruct (decide (tsType c = ThreadState_BlockedOnReceive)) as [Ht|_]; [|exact Hset].
    eapply wp_mono; [by apply (signal_bound k wq _ c badge)|]. intros [] k' (? & ? & ? & ?).
    split_and!; [done|done|by exists c|done|]. intros E. exfalso.
    assert (Hin : ntfnBoundTCB x ∈ wq n) by (rewrite <- E; apply (io_blocked _ _ _ H); [done|by rewrite Ht|set_solver]).
    destruct (io_in _ _ _ H _ _ Hin) as (q & st & c' & Ho & _). rewrite (wait_obj_ntfn _ _ _ _ _ H Hx), Es in Ho. done.
  - pose proof (wait_obj_ntfn _ _ _ _ _ H Hx) as Ho. rewrite Es in Ho. cbn in Ho.
    destruct (io_queue _ _ _ H _ _ _ Ho) as [Hd Hw].
    destruct (wq n) as [|t l] eqn:Eq; [by destruct Hw as [_ Hw]; specialize (Hw eq_refl)|].
    apply wp_bind. unfold ntfn_ptr_get_queue. apply wp_bind, (wp_ntfn_at _ x); [done|]. apply wp_ret.
    pose proof (dlist_nonzero _ _ _ _ Hd) as Hz. destruct Hd as (Hnd & Hd & Hh & He).
    assert (Ehd : q_head (ntfnQueue x) = t) by done. rewrite Ehd.
    apply wp_bind, wp_assert; [by destruct (Z.eqb_spec t 0); [set_solver|]|].
    assert (Ef : filter (.≠ t) (wq n) = l) by (rewrite Eq; by apply (filter_split t (t :: l) [] l)).
    eapply wp_mono; [by apply (signal_waiting k wq n x t l badge)|]. intros [] k' (? & ? & ? & ? & ?).
    split_and!; [done|by rewrite Ef|done|done|by rewrite <- Eq, Ef].
  - apply (wp_ntfn_set _ _ x); [done|]. destruct Hact as [? ?]; [done|].
    assert (E : x <| ntfnMsgIdentifier := Z.lor (ntfnMsgIdentifier x) badge |> = activated x badge)
      by (destruct x; cbn in Es; by subst).
    rewrite E. by split_and!.
Qed.

(** Signalling.  If a thread is blocked for this signal, the first in the
    queue of the notification or the bound thread that waits for a message,
    that thread and no other is taken off the object it waits on and made to
    run with the badge; otherwise the notification becomes or stays active and
    collects the badge.  The waiting queues and the scheduler stay consistent. *)
Theorem sendSignal_correct k wq n x badge :
  sched_inv k → ipc_ok k wq → bound_ok k → ntfns k !! n = Some x →
  wp (sendSignal n badge) (λ _ k', sched_inv k' ∧
    match signal_target k wq n x with
    | Some (t, a) =>
      ipc_ok k' (<[a := filter (.≠ t) (wq a)]> wq) ∧
      (∃ c, tcbs k !! t = Some c ∧ received k' t badge c) ∧ threads_but [t] k k' ∧
      (a = n → ∃ q, ntfns k' = <[n := ntfn_after (filter (.≠ t) (wq n)) q x]> (ntfns k))
    | None => ipc_ok k' wq ∧ k' = k <| ntfns ::= <[n := activated x badge]> |>
    end) k.
Proof. exact (sendSignal_spec k wq n x badge). Qed.

(** ** Waiting *)

(** [t] is the thread [c], blocked on the object at [a]. *)
Definition blocked_on (k' : ks) (t a : Z) (st : thread_state) (c : tcb_t) : Prop :=
  thread_core <$> tcbs k' !! t = Some (thread_core (c <| tsType := st |> <| blockingObject := a |>)).

(** What [receiveSignal] does on every branch. *)
Lemma receiveSignal_spec k wq t c b cr cs n x blocking :
  sched_inv k → ipc_ok k wq → ntfns k !! n = Some x → tcbs k !! t = Some c →
  runnable k t → t ≠ ksIdleThread k → ¬ queued k t → ksSchedulerAction k ≠ t →
  wp (receiveSignal t (cap_notification_cap b cr cs n) blocking) (λ _ k', sched_inv k' ∧
    match ntfnState x with
    | NtfnState_Active =>
      ipc_ok k' wq ∧
      k' = k <| tcbs ::= <[t := c <| registers ::= <[badgeRegister := ntfnMsgIdentifier x]> |>]> |>
             <| ntfns ::= <[n := x <| ntfnState := NtfnState_Idle |>]> |>
    | _ =>
      if blocking then
        ipc_ok k' (<[n := wq n ++ [t]]> wq) ∧ ¬ runnable k' t ∧
        blocked_on k' t n ThreadState_BlockedOnNotification c ∧ threads_but [t] k k' ∧
        (t = ksCurThread k → ksSchedulerAction k' ≠ SchedulerAction_ResumeCurrentThread) ∧
        (∃ q, ntfns k' = <[n := x <| ntfnState := NtfnState_Waiting |> <| ntfnQueue := q |>]> (ntfns k))
      else
        ipc_ok k' wq ∧ k' = k <| tcbs ::= <[t := c <| registers ::= <[badgeRegister := 0]> |>]> |>
    end) k.
Proof.
  intros I H Hx Hc Hrun Hid Hnq Hna. cbn [receiveSignal].
  assert (Hw : waiting_state (tsType c) = false).
  { apply (runnable_state k t c Hc) in Hrun. by destruct (tsType c). }
  assert (Ht0 : t ≠ 0) by (destruct (si_rq _ _ I) as (rq & Hok & _); by destruct (so_tcb _ _ Hok _ _ Hc)).
  apply wp_bind, (wp_ntfn_at _ x); [done|].
  assert (Hreg : ∀ v, let k1 := k <| tcbs ::= <[t := c <| registers ::= <[badgeRegister := v]> |>]> |> in
    sched_inv k1 ∧ ipc_ok k1 wq).
  { intros v. split; [by eapply sched_same_inv, I; apply (sched_same_set k t c)|]. by apply (ipc_ok_set [] k t c). }
  assert (Hnb : wp (doNBRecvFailedTransfer t) (λ _ k', sched_inv k' ∧ ipc_ok k' wq ∧
    k' = k <| tcbs ::= <[t := c <| registers ::= <[badgeRegister := 0]> |>]> |>) k).
  { apply (wp_tcb_set _ _ c); [done|]. by destruct (Hreg 0). }
  assert (Hblock : ntfnState x ≠ NtfnState_Active →
    wp (tcb_set t (λ c, c <| tsType := ThreadState_BlockedOnNotification |>);;
        tcb_set t (λ c, c <| blockingObject := n |>);; scheduleTCB t;;
        q ← ntfn_ptr_get_queue n; q ← tcbEPAppend t q;
        set_ntfn_state n NtfnState_Waiting;; ntfn_ptr_set_queue n q)
      (λ _ k', sched_inv k' ∧ ipc_ok k' (<[n := wq n ++ [t]]> wq) ∧ ¬ runnable k' t ∧
        blocked_on k' t n ThreadState_BlockedOnNotification c ∧ threads_but [t] k k' ∧
        (t = ksCurThread k → ksSchedulerAction k' ≠ SchedulerAction_ResumeCurrentThread) ∧
        (∃ q, ntfns k' = <[n := x <| ntfnState := NtfnState_Waiting |> <| ntfnQueue := q |>]> (ntfns k))) k).
  { intros Hns. apply wp_bind, (wp_tcb_set _ _ c); [done|]. apply wp_bind.
    eapply wp_tcb_set; [apply lookup_insert_eq|]. set (c1 := c <| tsType := _ |> <| blockingObject := n |>).
    assert (Ek : k <| tcbs ::= <[t := c <| tsType := ThreadState_BlockedOnNotification |>]> |> <| tcbs ::= <[t := c1]> |>
      = k <| tcbs ::= <[t := c1]> |>) by (unfold update; cbn; by rewrite insert_insert_eq).
    rewrite Ek. apply wp_bind. eapply wp_mono; [by apply (block_ready k wq t c c1)|].
    intros [] k2 (I2 & Hn2 & H2 & Hc2 & En2 & Ee2 & B2 & Ha2).
    unfold ntfn_ptr_get_queue. apply wp_bind, wp_bind, (wp_ntfn_at _ x); [by rewrite En2|]. apply wp_ret.
    eapply wp_mono; [apply (enqueue_ntfn k2 wq n x t c1); try done; by rewrite En2|].
    intros [] k3 (h & q & E3 & H3 & Hs). assert (Et3 : tcbs k3 = h) by (by rewrite E3). rewrite <- Et3 in Hs.
    destruct (block_done k k2 k3 t c1 B2 Hs) as (I3 & Hn3 & Hc3 & B3); try done; try (by rewrite E3).
    split_and!; try done; [by rewrite E3|]. exists q. by rewrite E3, <- En2. }
  destruct (ntfnState x) eqn:Es.
  - destruct blocking; [by apply Hblock|exact Hnb].
  - destruct blocking; [by apply Hblock|exact Hnb].
  - apply wp_bind, (wp_tcb_set _ _ c); [done|]. apply (wp_ntfn_set _ _ x); [done|].
    destruct (Hreg (ntfnMsgIdentifier x)) as [I1 H1]. split_and!; [by eapply sched_same_inv, I1| |done].
    apply (ipc_ok_ntfn_keep [] _ wq n x); [done|done|by rewrite Es|done].
Qed.

(** Waiting on a notification.  An active one gives the collected badge and
    becomes idle; otherwise the thread goes to the end of the queue and stops
    running, or, when it does not want to block, reads a zero badge.  The waiting
    queues and the scheduler stay consistent. *)
Theorem receiveSignal_correct k wq t c b cr cs n x blocking :
  sched_inv k → ipc_ok k wq → ntfns k !! n = Some x → tcbs k !! t = Some c →
  runnable k t → t ≠ ksIdleThread k → ¬ queued k t → ksSchedulerAction k ≠ t →
  wp (receiveSignal t (cap_notification_cap b cr cs n) blocking) (λ _ k', sched_inv k' ∧
    match ntfnState x with
    | NtfnState_Active =>
      ipc_ok k' wq ∧
      k' = k <| tcbs ::= <[t := c <| registers ::= <[badgeRegister := ntfnMsgIdentifier x]> |>]> |>
             <| ntfns ::= <[n := x <| ntfnState := NtfnState_Idle |>]> |>
    | _ =>
      if blocking then
        ipc_ok k' (<[n := wq n ++ [t]]> wq) ∧ ¬ runnable k' t ∧
        blocked_on k' t n ThreadState_BlockedOnNotification c ∧ threads_but [t] k k' ∧
        (t = ksCurThread k → ksSchedulerAction k' ≠ SchedulerAction_ResumeCurrentThread) ∧
        (∃ q, ntfns k' = <[n := x <| ntfnState := NtfnState_Waiting |> <| ntfnQueue := q |>]> (ntfns k))
      else
        ipc_ok k' wq ∧ k' = k <| tcbs ::= <[t := c <| registers ::= <[badgeRegister := 0]> |>]> |>
    end) k.
Proof. exact (receiveSignal_spec k wq t c b cr cs n x blocking). Qed.

(** ** The small system *)

Lemma demo_bound_ok : bound_ok demo_ks.
Proof.
  assert (En : ntfns demo_ks = ntfns demo_boot) by (vm_compute; reflexivity). split.
  - intros n x Hx Hb. rewrite En in Hx. cbn in Hx.
    apply lookup_insert_Some in Hx as [[<- <-]|[_ Hx]]; [done|].
    apply lookup_insert_Some in Hx as [[<- <-]|[_ Hx]]; [|done]. exists demo_bound. split; vm_compute; reflexivity.
  - apply (demo_cases (λ t c, tcbBoundNotification c ≠ 0 →
      ∃ x, ntfns demo_ks !! tcbBoundNotification c = Some x ∧ ntfnBoundTCB x = t)); try done.
    intros _. eexists. split; vm_compute; reflexivity.
Qed.

Lemma sendSignal_correct_witness :
  wp (sendSignal 600 5) (λ _ k', sched_inv k' ∧
    ipc_ok k' (<[600 := filter (.≠ 48) (demo_wq 600)]> demo_wq) ∧
    (∃ c, tcbs demo_ks !! 48 = Some c ∧ received k' 48 5 c) ∧ threads_but [48] demo_ks k' ∧
    (600 = 600 → ∃ q, ntfns k' = <[600 := ntfn_after (filter (.≠ 48) (demo_wq 600)) q
       (mk_ntfn NtfnState_Waiting (mk_queue 48 48) 0 0)]> (ntfns demo_ks))) demo_ks.
Proof.
  exact (sendSignal_correct demo_ks demo_wq 600 (mk_ntfn NtfnState_Waiting (mk_queue 48 48) 0 0) 5
    demo_inv demo_ipc demo_bound_ok eq_refl).
Defined.

Lemma receiveSignal_correct_witness :
  wp (receiveSignal 16 (cap_notification_cap 0 true true 600) true) (λ _ k', sched_inv k' ∧
    ipc_ok k' (<[600 := demo_wq 600 ++ [16]]> demo_wq) ∧ ¬ runnable k' 16 ∧
    blocked_on k' 16 600 ThreadState_BlockedOnNotification (demo_tcb ThreadState_Running 100) ∧
    threads_but [16] demo_ks k' ∧
    (16 = ksCurThread demo_ks → ksSchedulerAction k' ≠ SchedulerAction_ResumeCurrentThread) ∧
    (∃ q, ntfns k' = <[600 := mk_ntfn NtfnState_Waiting (mk_queue 48 48) 0 0
       <| ntfnState := NtfnState_Waiting |> <| ntfnQueue := q |>]> (ntfns demo_ks))) demo_ks.
Proof.
  refine (receiveSignal_correct demo_ks demo_wq 16 (demo_tcb ThreadState_Running 100) 0 true true 600
    (mk_ntfn NtfnState_Waiting (mk_queue 48 48) 0 0) true demo_inv demo_ipc eq_refl eq_refl _ _ _ _).
  - exists (demo_tcb ThreadState_Running 100). split; vm_compute; reflexivity.
  - vm_compute. discriminate.
  - intros (c & Hc & Hq). vm_compute in Hc. injection Hc as <-. discriminate.
  - vm_compute. discriminate.
Defined.
