(* ===== verification/Cancel.v ===== *)
(** Cancelling whole queues: what happens to the threads that wait on an
    endpoint or a notification when the object goes away ([cancelAllIPC],
    [cancelAllSignals]) or a badge is revoked ([cancelBadgedSends]). *)

From stdpp Require Import functions.
From S2P Require Import Prelude Caps Kernel Scheduler Wakeup Paging VSpace IOSpace Ipc Waiting Signals.

(** ** Restarting a queue *)

(** A pair of statements as a unit. *)
Lemma wp_seq {St A B C} (m : M St A) (n : M St B) (rest : B → M St C) (Q : C → St → Prop) s :
  wp (m;; n) (λ b s', wp (rest b) Q s') s → wp (m;; b ← n; rest b) Q s.
Proof.
  unfold wp, mbind, M_bind. destruct (m s) as [[a|] s1]; [|done]. by destruct (n s1) as [[b|] s2].
Qed.

(** [t], which was blocked, restarts: it is on its ready queue. *)
Definition restarted (k k' : ks) (t : Z) : Prop :=
  queued k' t ∧ ∃ c, tcbs k !! t = Some c ∧
    thread_core <$> tcbs k' !! t = Some (thread_core (c <| tsType := ThreadState_Restart |>)).

Lemma ipc_ok_ext X k wq wq' : (∀ a, wq a = wq' a) → ipc_ok_but X k wq → ipc_ok_but X k wq'.
Proof.
  intros E H. split.
  - apply H.
  - intros a. rewrite <- E. apply H.
  - intros a t. rewrite <- E. apply H.
  - intros t c. rewrite <- E. apply H.
  - intros t a. rewrite <- E. apply H.
Qed.

#[export] Instance ipc_ok_proper X k : Proper (pointwise_relation Z eq ==> iff) (ipc_ok_but X k).
Proof. intros wq wq' E. split; apply ipc_ok_ext; [done|]. intros a. by rewrite (E a). Qed.

(** One thread of the queue. *)
Lemma restart_one k wq t X c :
  sched_inv k → ipc_ok_but (t :: X) k wq → tcbs k !! t = Some c →
  isRunnable_state (tsType c) = false → t ≠ ksIdleThread k →
  wp (setThreadState t ThreadState_Restart;; tcbSchedEnqueue t) (λ _ k',
    sched_inv k' ∧ ipc_ok_but X k' wq ∧ restarted k k' t ∧ threads_but [t] k k' ∧
    ntfns k' = ntfns k ∧ eps k' = eps k ∧ (∀ u, queued k u → queued k' u) ∧
    (∀ u, (λ c, (tcbEPNext c, tcbEPPrev c)) <$> tcbs k' !! u = (λ c, (tcbEPNext c, tcbEPPrev c)) <$> tcbs k !! u)) k.
Proof.
  intros I H Hc Hn Hid. apply wp_bind, (setThreadState_runs k t c); [done|done|].
  destruct (blocked_set_inv k t c ThreadState_Restart I Hc Hn Hid) as [I1 _].
  set (k1 := with_state t c ThreadState_Restart k) in *. set (c1 := c <| tsType := ThreadState_Restart |>).
  assert (Hc1 : tcbs k1 !! t = Some c1) by apply with_state_lookup.
  assert (H1 : ipc_ok_but X k1 wq).
  { apply (ipc_ok_awake X k1 t c1 wq Hc1); [done|]. apply (ipc_ok_free (t :: X) k t c); [done|set_solver|done]. }
  eapply wp_mono; [apply (enqueue_inv k1 (Some t) t I1); by exists c1|].
  intros [] k' (I' & Hq' & O' & Hm). pose proof (only_queues_threads _ _ O') as S'.
  pose proof S' as (Ht' & Eo & Ee & _). injection Eo as En _ _ _ _ _ _ _ _ _ _ _.
  split_and!; try done.
  - by apply (sched_inv_queued k' t).
  - by apply (same_threads_ipc X k1).
  - split; [done|]. exists c. split; [done|]. by apply (same_threads_core k1).
  - eapply threads_but_trans; [|by apply (same_threads_but [t] k1)]. apply set_but. set_solver.
  - intros u Hu. apply Hm. by apply (set_state_queued k t c).
  - intros u. assert (E1 : (λ c, (tcbEPNext c, tcbEPPrev c)) <$> tcbs k1 !! u = (λ c, (tcbEPNext c, tcbEPPrev c)) <$> tcbs k !! u).
    { cbn. destruct (decide (t = u)) as [<-|Hne]; [by rewrite lookup_insert_eq, Hc|by rewrite lookup_insert_ne]. }
    rewrite <- E1. specialize (Ht' u). destruct (tcbs k' !! u) as [x|], (tcbs k1 !! u) as [y|]; try done.
    cbn [fmap option_fmap option_map] in *. apply (inj Some) in Ht'. f_equal.
    assert (E : ∀ z, (tcbEPNext (sched_core z), tcbEPPrev (sched_core z)) = (tcbEPNext z, tcbEPPrev z)) by done.
    by rewrite <- (E x), <- (E y), Ht'.
Qed.

Lemma core_status k k' u c :
  threads_but [] k k' → tcbs k !! u = Some c → ∃ c', tcbs k' !! u = Some c' ∧ thread_core c' = thread_core c.
Proof.
  intros (H & _) Hc. specialize (H u ltac:(set_solver)). rewrite Hc in H.
  destruct (tcbs k' !! u) as [c'|]; [|done]. exists c'. split; [done|].
  cbn [fmap option_fmap option_map] in H. by apply (inj Some) in H.
Qed.

Lemma restarted_later k k1 k' t X :
  restarted k k1 t → threads_but X k1 k' → t ∉ X → (∀ u, queued k1 u → queued k' u) → restarted k k' t.
Proof.
  intros (Hq & c & Hc & Hr) (B & _) Ht Hm. split; [by apply Hm|]. exists c. split; [done|]. by rewrite (B t Ht).
Qed.

Lemma restarted_before k k1 k' t X :
  restarted k1 k' t → threads_but X k k1 → t ∉ X → restarted k k' t.
Proof.
  intros (Hq & c & Hc & Hr) (B & _) Ht. split; [done|]. specialize (B t Ht). rewrite Hc in B.
  destruct (tcbs k !! t) as [c0|]; [|done]. exists c0. split; [done|]. rewrite Hr.
  cbn [fmap option_fmap option_map] in B. apply (inj Some) in B. f_equal.
  assert (E : ∀ y, thread_core (y <| tsType := ThreadState_Restart |>) = thread_core y <| tsType := ThreadState_Restart |>) by done.
  by rewrite !E, B.
Qed.

(** Threads that are not running and can be restarted. *)
Definition stopped (k : ks) (t : Z) : Prop :=
  ∃ c, tcbs k !! t = Some c ∧ isRunnable_state (tsType c) = false ∧ t ≠ ksIdleThread k.

(** The loop over a whole queue ends and restarts each of its threads. *)
Lemma restart_queue_spec l fuel k wq p :
  sched_inv k → ipc_ok_but l k wq → NoDup l → dseg ep_links (tcbs k) p l 0 →
  (∀ t, t ∈ l → stopped k t) → (length l ≤ fuel)%nat →
  wp (restart_queue fuel (first_or 0 l)) (λ _ k', sched_inv k' ∧ ipc_ok k' wq ∧
    (∀ t, t ∈ l → restarted k k' t) ∧ threads_but l k k' ∧ ntfns k' = ntfns k ∧ eps k' = eps k ∧
    (∀ u, queued k u → queued k' u)) k.
Proof.
  revert fuel k p. induction l as [|t l IH]; intros fuel k p I H Hnd Hd Hst Hf.
  - destruct fuel; cbn; apply wp_ret; split_and!; try done; set_solver.
  - destruct fuel as [|fuel]; [cbn in Hf; lia|]. destruct Hd as (Ht0 & (c & Hc & Hp & Hnx) & Hd).
    apply NoDup_cons in Hnd as [Htl Hnd]. destruct (Hst t) as (c' & Hc' & Hn & Hid); [set_solver|].
    assert (c' = c) as -> by congruence. cbn [restart_queue first_or]. destruct (Z.eqb_spec t 0); [done|].
    cut (wp (setThreadState t ThreadState_Restart;; tcbSchedEnqueue t) (λ _ k1, wp (c ← tcb_at t; restart_queue fuel (tcbEPNext c))
      (λ _ k', sched_inv k' ∧ ipc_ok k' wq ∧ (∀ u, u ∈ t :: l → restarted k k' u) ∧
      threads_but (t :: l) k k' ∧ ntfns k' = ntfns k ∧ eps k' = eps k ∧ (∀ u, queued k u → queued k' u)) k1) k).
    { intros G. by apply wp_seq. }
    eapply wp_mono; [by apply (restart_one k wq t l c)|]. intros [] k1 (I1 & H1 & R1 & B1 & En1 & Ee1 & Q1 & L1).
    pose proof (L1 t) as Lt. rewrite Hc in Lt. destruct (tcbs k1 !! t) as [c1|] eqn:Hc1; [|done].
    cbn [fmap option_fmap option_map] in Lt. apply (inj Some), pair_equal_spec in Lt as [Lt _].
    apply wp_bind, (wp_tcb_at _ c1); [done|]. rewrite Lt.
    change (tcbEPNext c) with (nx ep_links c). rewrite Hnx.
    assert (Hst1 : ∀ u, u ∈ l → stopped k1 u).
    { intros u Hu. destruct (Hst u) as (cu & Hcu & Hnu & Hidu); [set_solver|].
      destruct B1 as (B1 & _ & _ & _ & Ei). specialize (B1 u ltac:(set_solver)). rewrite Hcu in B1.
      destruct (core_field tsType (tcbs k1 !! u) cu ltac:(done) B1) as (cu1 & Hcu1 & E).
      exists cu1. rewrite E, Ei. done. }
    eapply wp_mono; [apply (IH fuel k1 t); try done; [|cbn in Hf; lia]|].
    { eapply dseg_frame; [|exact Hd]. intros u _. apply L1. }
    intros [] k' (I' & H' & R' & B' & En' & Ee' & Q'). split_and!; try done.
    + intros u [->|Hu]%elem_of_cons; [by eapply restarted_later|]. eapply (restarted_before k k1 k' u [t]); [by apply R'|done|].
      intros ->%list_elem_of_singleton. done.
    + eapply threads_but_trans; eapply threads_but_mono; [|exact B1| |exact B']; set_solver.
    + by rewrite En'.
    + by rewrite Ee'.
    + auto.
Qed.

Lemma queue_length k q l : dlist ep_links (tcbs k) q l → (length l ≤ size (tcbs k))%nat.
Proof.
  intros (Hnd & Hd & _). rewrite <- size_dom, <- (size_list_to_set (C := gset Z) l Hnd).
  apply subseteq_size. intros t Ht%elem_of_list_to_set.
  apply elem_of_dom. by apply (dseg_lookup ep_links _ _ _ _ _ Hd).
Qed.

(** ** The two ways to empty a queue *)

(** Every thread leaves the object at [a] at once. *)
Lemma ipc_ok_detach_all k k' wq a :
  ipc_ok k wq → only_obj k k' a (mk_queue 0 0) None → tcbs k' = tcbs k →
  ipc_ok_but (wq a) k' (<[a := []]> wq).
Proof.
  intros H Ho Et. eapply (ipc_ok_requeue [] (wq a) k k' wq a [] (mk_queue 0 0) None); try done.
  - by rewrite Et.
  - intros u _ _. by rewrite Et.
  - split_and!; [apply NoDup_nil_2|done|done|done].
  - intros u Hu. by apply elem_of_nil in Hu.
  - intros u. set_solver.
  - intros u Hu. by apply elem_of_nil in Hu.
Qed.

Lemma waiting_stopped k wq a t : sched_inv k → ipc_ok k wq → t ∈ wq a → stopped k t.
Proof.
  intros I H Ht. destruct (io_in _ _ _ H _ _ Ht) as (q & st & c & Ho & Hc & _ & Hst). exists c.
  split; [done|]. split; [|by eapply waiting_not_idle]. apply waiting_not_runnable.
  rewrite Hst. by eapply waits_waiting.
Qed.

(** The end of [cancelAllIPC] and [cancelAllSignals], from the state in which
    the object at [a] has already been emptied. *)
Lemma restart_all_spec k k1 wq a q w :
  sched_inv k → ipc_ok k wq → wait_obj k a = Some (q, w) →
  only_obj k k1 a (mk_queue 0 0) None → tcbs k1 = tcbs k → sched_globals k1 = sched_globals k →
  ctes k1 = ctes k → irq_view k1 = irq_view k →
  wp (restart_all (q_head q);; rescheduleRequired) (λ _ k', sched_inv k' ∧ ipc_ok k' (<[a := []]> wq) ∧
    (∀ t, t ∈ wq a → restarted k k' t) ∧ threads_but (wq a) k k' ∧
    ntfns k' = ntfns k1 ∧ eps k' = eps k1 ∧
    ksSchedulerAction k' = SchedulerAction_ChooseNewThread) k1.
Proof.
  intros I H Ho Ho1 Et Eg Ec Ei. destruct (io_queue _ _ _ H _ _ _ Ho) as [Hd _].
  assert (S1 : sched_same k k1) by (split; [by rewrite Et|done]).
  pose proof (sched_same_inv None k k1 S1 I) as I1. pose proof (ipc_ok_detach_all k k1 wq a H Ho1 Et) as H1.
  injection Eg as _ _ _ Ecu Eid _ _ _.
  assert (B1 : threads_but [] k k1) by (split_and!; try done; intros u _; by rewrite Et).
  assert (Hst : ∀ t, t ∈ wq a → stopped k1 t).
  { intros t Ht. destruct (waiting_stopped k wq a t I H Ht) as (c & Hc & Hn & Hid). exists c. by rewrite Et, Eid. }
  pose proof (queue_length k q (wq a) Hd) as Hlen. destruct Hd as (Hnd & Hd & Hh & _). rewrite Hh.
  apply wp_bind. unfold restart_all. apply wp_bind, wp_gets.
  eapply wp_mono; [apply (restart_queue_spec (wq a) _ k1 (<[a := []]> wq) 0); try done; by rewrite Et|].
  intros [] k2 (I2 & H2 & R2 & B2 & En2 & Ee2 & _).
  eapply wp_mono; [by apply (rescheduleRequired_inv k2 None)|]. intros [] k' (I' & S' & Q' & Ea').
  pose proof S' as (_ & Eo & Ee & _). injection Eo as En _ _ _ _ _ _ _ _ _ _ _.
  pose proof (same_threads_but [] k2 k' S') as B'. split_and!; try done.
  - by apply (same_threads_ipc [] k2).
  - intros t Ht. apply (restarted_before k k1 k' t []); [|done|set_solver].
    apply (restarted_later k1 k2 k' t []); [by apply R2|done|set_solver|done].
  - eapply threads_but_trans; [eapply (threads_but_mono []); [set_solver|exact B1]|].
    eapply threads_but_trans; [exact B2|]. eapply (threads_but_mono []); [set_solver|exact B'].
  - by rewrite En.
  - by rewrite Ee.
Qed.

Lemma wp_ep_at e x (Q : endpoint_t → ks → Prop) k : eps k !! e = Some x → Q x k → wp (ep_at e) Q k.
Proof. intros H HQ. unfold wp, ep_at. by rewrite H. Qed.

Lemma wp_ep_set e f x (Q : unit → ks → Prop) k :
  eps k !! e = Some x → Q tt (k <| eps ::= <[e := f x]> |>) → wp (ep_set e f) Q k.
Proof. intros H HQ. unfold wp, ep_set. by rewrite H. Qed.

Lemma make_ep_idle_spec e x (rest : K unit) (Q : unit → ks → Prop) k :
  eps k !! e = Some x → wp rest Q (k <| eps ::= <[e := mk_ep EPState_Idle (mk_queue 0 0)]> |>) →
  wp (make_ep_idle e;; rest) Q k.
Proof.
  intros Hx HQ. apply wp_bind. unfold make_ep_idle, set_ep_state.
  apply wp_bind, (wp_ep_set _ _ x); [done|].
  apply wp_bind. eapply wp_ep_set; [apply lookup_insert_eq|].
  eapply wp_ep_set; [apply lookup_insert_eq|].
  revert HQ. unfold update. cbn. by rewrite !insert_insert_eq.
Qed.

(** Deleting an endpoint under its waiting threads: every thread that
    waits to send or receive restarts and is on its ready queue, the endpoint
    is idle with an empty queue, no other thread changes, and a new thread will
    be chosen. *)
Theorem cancelAllIPC_correct k wq e x :
  sched_inv k → ipc_ok k wq → eps k !! e = Some x →
  wp (cancelAllIPC e) (λ _ k', sched_inv k' ∧ ipc_ok k' (<[e := []]> wq) ∧
    (∀ t, t ∈ wq e → restarted k k' t) ∧ threads_but (wq e) k k' ∧
    (∃ x', eps k' !! e = Some x' ∧ epState x' = EPState_Idle) ∧
    (wq e ≠ [] → ksSchedulerAction k' = SchedulerAction_ChooseNewThread) ∧ objs_keep k k') k.
Proof.
  intros I H Hx. pose proof (wait_obj_ep _ _ _ Hx) as Ho. destruct (io_queue _ _ _ H _ _ _ Ho) as [_ Hw].
  unfold cancelAllIPC. apply wp_bind, (wp_ep_at _ x); [done|].
  assert (Hgo : wp (make_ep_idle e;; restart_all (q_head (epQueue x));; rescheduleRequired)
    (λ _ k', sched_inv k' ∧ ipc_ok k' (<[e := []]> wq) ∧
    (∀ t, t ∈ wq e → restarted k k' t) ∧ threads_but (wq e) k k' ∧
    (∃ x', eps k' !! e = Some x' ∧ epState x' = EPState_Idle) ∧
    (wq e ≠ [] → ksSchedulerAction k' = SchedulerAction_ChooseNewThread) ∧ objs_keep k k') k).
  { apply (make_ep_idle_spec e x); [done|].
    eapply wp_mono; [eapply (restart_all_spec k _ wq e); try done|].
    - apply (only_obj_ep k _ e x (mk_ep EPState_Idle (mk_queue 0 0))); try done. apply H.
    - intros [] k' (? & ? & ? & ? & En & Ee & Ha). split_and!; try done.
      + exists (mk_ep EPState_Idle (mk_queue 0 0)). rewrite Ee. split; [apply lookup_insert_eq|done].
      + eapply (objs_keep_ep k k' e x); [done|by rewrite En|by rewrite Ee|by right]. }
  destruct (epState x) eqn:Es; [|exact Hgo|exact Hgo].
  assert (E : wq e = []) by (by apply Hw). apply wp_ret. rewrite E. split_and!; try done.
  - eapply (ipc_ok_ext [] k wq); [|done]. intros a. destruct (decide (e = a)) as [<-|Hne].
    + by rewrite fn_lookup_insert.
    + by rewrite fn_lookup_insert_ne.
  - intros t Ht. by apply elem_of_nil in Ht.
  - by exists x.
  - split_and!; auto.
Qed.

(** Deleting a notification under its waiting threads: every one of them
    restarts, the notification is no longer waited for, no other thread
    changes. *)
Theorem cancelAllSignals_correct k wq n x :
  sched_inv k → ipc_ok k wq → ntfns k !! n = Some x →
  wp (cancelAllSignals n) (λ _ k', sched_inv k' ∧ ipc_ok k' (<[n := []]> wq) ∧
    (∀ t, t ∈ wq n → restarted k k' t) ∧ threads_but (wq n) k k' ∧
    (∃ x', ntfns k' !! n = Some x' ∧ ntfnState x' ≠ NtfnState_Waiting ∧ ntfnBoundTCB x' = ntfnBoundTCB x) ∧
    (wq n ≠ [] → ksSchedulerAction k' = SchedulerAction_ChooseNewThread) ∧ objs_keep k k') k.
Proof.
  intros I H Hx. pose proof (wait_obj_ntfn _ _ _ _ _ H Hx) as Ho. destruct (io_queue _ _ _ H _ _ _ Ho) as [_ Hw].
  unfold cancelAllSignals. apply wp_bind, (wp_ntfn_at _ x); [done|].
  assert (Hskip : ntfn_waits (ntfnState x) = None → ntfnState x ≠ NtfnState_Waiting →
    wp (mret tt) (λ _ k', sched_inv k' ∧ ipc_ok k' (<[n := []]> wq) ∧
    (∀ t, t ∈ wq n → restarted k k' t) ∧ threads_but (wq n) k k' ∧
    (∃ x', ntfns k' !! n = Some x' ∧ ntfnState x' ≠ NtfnState_Waiting ∧ ntfnBoundTCB x' = ntfnBoundTCB x) ∧
    (wq n ≠ [] → ksSchedulerAction k' = SchedulerAction_ChooseNewThread) ∧ objs_keep k k') k).
  { intros E Hns. apply Hw in E. apply wp_ret. rewrite E. split_and!; try done.
    - eapply (ipc_ok_ext [] k wq); [|done]. intros a. destruct (decide (n = a)) as [<-|Hne].
      + by rewrite fn_lookup_insert.
      + by rewrite fn_lookup_insert_ne.
    - intros t Ht. by apply elem_of_nil in Ht.
    - by exists x.
    - split_and!; auto. }
  destruct (ntfnState x) eqn:Es; [by apply Hskip| |by apply Hskip]. clear Hskip.
  unfold set_ntfn_state. apply wp_bind, (wp_ntfn_set _ _ x); [done|].
  apply wp_bind. eapply wp_ntfn_set; [apply lookup_insert_eq|].
  apply wp_bind. eapply wp_ntfn_set; [apply lookup_insert_eq|].
  set (x' := mk_ntfn NtfnState_Idle (mk_queue 0 0) (ntfnMsgIdentifier x) (ntfnBoundTCB x)).
  assert (Hgo : wp (restart_all (q_head (ntfnQueue x));; rescheduleRequired)
    (λ _ k', sched_inv k' ∧ ipc_ok k' (<[n := []]> wq) ∧
    (∀ t, t ∈ wq n → restarted k k' t) ∧ threads_but (wq n) k k' ∧
    (∃ x', ntfns k' !! n = Some x' ∧ ntfnState x' ≠ NtfnState_Waiting ∧ ntfnBoundTCB x' = ntfnBoundTCB x) ∧
    (wq n ≠ [] → ksSchedulerAction k' = SchedulerAction_ChooseNewThread) ∧ objs_keep k k')
    (k <| ntfns ::= <[n := x']> |>)).
  { eapply wp_mono; [eapply (restart_all_spec k _ wq n); try done|].
    - apply (only_obj_ntfn k _ n x x'); try done. apply H.
    - intros [] k' (? & ? & ? & ? & En & Ee & Ha). split_and!; try done.
      + exists x'. rewrite En. split; [apply lookup_insert_eq|done].
      + apply (objs_keep_ntfn k k' n x x'); [done|done|by rewrite En|by rewrite Ee|by right]. }
  revert Hgo. unfold update. cbn. by rewrite !insert_insert_eq.
Qed.

(** ** Revoking a badge *)

(** The badge a blocked sender would send with. *)
Definition has_badge (k : ks) (b t : Z) : bool :=
  match tcbs k !! t with Some c => blockingIPCBadge c =? b | None => false end.

Lemma ipc_ok_members X Y k wq : (∀ u, u ∈ X ↔ u ∈ Y) → ipc_ok_but X k wq → ipc_ok_but Y k wq.
Proof.
  intros E H. split; try apply H.
  - intros t c Hc Hw Ht. apply (io_blocked _ _ _ H); [done|done|]. by rewrite E.
  - intros t a Ht. apply (io_out _ _ _ H). by rewrite E.
Qed.

(** The excepted threads may change in any way. *)
Lemma ipc_ok_free_all X k h wq :
  (∀ u, u ∉ X → h !! u = tcbs k !! u) → ipc_ok_but X k wq → ipc_ok_but X (k <| tcbs := h |>) wq.
Proof.
  intros Hf H. assert (Hout : ∀ a u, u ∈ wq a → h !! u = tcbs k !! u).
  { intros a u Hu. apply Hf. intros Hx. by apply (io_out _ _ _ H u a). }
  split; try apply H.
  - intros a q w Ho. destruct (io_queue _ _ _ H a q w Ho) as [Hd Hw]. split; [|done].
    eapply dlist_frame; [|exact Hd]. intros u Hu. cbn. by rewrite (Hout a u Hu).
  - intros a u Hu. destruct (io_in _ _ _ H a u Hu) as (q & st & c & Ho & Hc & Hb & Hs).
    exists q, st, c. cbn. by rewrite (Hout a u Hu).
  - intros u c Hc Hw Hu. cbn in Hc. rewrite Hf in Hc by done. by apply (io_blocked _ _ _ H).
Qed.

Lemma has_badge_core k k' b t : thread_core <$> tcbs k' !! t = thread_core <$> tcbs k !! t →
  has_badge k' b t = has_badge k b t.
Proof.
  unfold has_badge. intros E. destruct (tcbs k !! t) as [c|], (tcbs k' !! t) as [c'|]; try done.
  cbn [fmap option_fmap option_map] in E. apply (inj Some) in E.
  assert (Eb : ∀ x, blockingIPCBadge (thread_core x) = blockingIPCBadge x) by done.
  by rewrite <- (Eb c), <- (Eb c'), E.
Qed.

Lemma stopped_core k k' X t : threads_but X k k' → t ∉ X → stopped k t → stopped k' t.
Proof.
  intros (B & _ & _ & _ & Ei) Ht (c & Hc & Hn & Hid). specialize (B t Ht). rewrite Hc in B.
  destruct (core_field tsType (tcbs k' !! t) c ltac:(done) B) as (c' & Hc' & E).
  exists c'. by rewrite E, Ei.
Qed.

(** One sender with the badge: it restarts and leaves the queue. *)
Lemma restart_badged_one k wq l1 t l2 q :
  sched_inv k → ipc_ok_but (l1 ++ t :: l2) k wq → dlist ep_links (tcbs k) q (l1 ++ t :: l2) → stopped k t →
  wp (setThreadState t ThreadState_Restart;; tcbSchedEnqueue t;; tcbEPDequeue t q) (λ q' k',
    sched_inv k' ∧ ipc_ok_but (l1 ++ l2) k' wq ∧ dlist ep_links (tcbs k') q' (l1 ++ l2) ∧
    restarted k k' t ∧ threads_but [t] k k' ∧ ntfns k' = ntfns k ∧ eps k' = eps k ∧
    (∀ u, queued k u → queued k' u)) k.
Proof.
  intros I H Hd (c & Hc & Hn & Hid).
  cut (wp (setThreadState t ThreadState_Restart;; tcbSchedEnqueue t) (λ _ k1, wp (tcbEPDequeue t q)
    (λ q' k', sched_inv k' ∧ ipc_ok_but (l1 ++ l2) k' wq ∧ dlist ep_links (tcbs k') q' (l1 ++ l2) ∧
    restarted k k' t ∧ threads_but [t] k k' ∧ ntfns k' = ntfns k ∧ eps k' = eps k ∧
    (∀ u, queued k u → queued k' u)) k1) k).
  { intros G. by apply wp_seq. }
  pose proof Hd as [Hnd _]. pose proof Hnd as (_ & Hdis & [Ht2 _]%NoDup_cons)%NoDup_app.
  eapply wp_mono; [apply (restart_one k wq t (l1 ++ l2) c); try done|].
  { eapply ipc_ok_members; [|exact H]. intros u. set_solver. }
  intros [] k1 (I1 & H1 & R1 & B1 & En1 & Ee1 & Q1 & L1).
  assert (Hd1 : dlist ep_links (tcbs k1) q (l1 ++ t :: l2)).
  { eapply dlist_frame; [|exact Hd]. intros u _. apply L1. }
  eapply wp_mono; [by apply tcbEPDequeue_spec|]. intros q' k' (h & -> & Hd' & Hs & Hf).
  assert (S : sched_same k1 (k1 <| tcbs := h |>)) by (by apply sched_same_links).
  assert (B2 : threads_but [] k1 (k1 <| tcbs := h |>)) by (by apply links_but).
  assert (Q2 : ∀ u, queued k1 u → queued (k1 <| tcbs := h |>) u) by (intros u; by apply sched_same_queued).
  split_and!; try done.
  - by apply (sched_same_inv None k1).
  - by apply ipc_ok_free_all.
  - by eapply restarted_later; [|exact B2|set_solver|].
  - eapply threads_but_trans; [exact B1|]. eapply (threads_but_mono []); [set_solver|exact B2].
  - auto.
Qed.

Lemma filter_ext_in (P Q : Z → Prop) `{∀ x, Decision (P x), ∀ x, Decision (Q x)} (l : list Z) :
  (∀ u, u ∈ l → P u ↔ Q u) → filter P l = filter Q l.
Proof.
  induction l as [|t l IH]; intros E; [done|]. rewrite !filter_cons, IH by set_solver.
  assert (Et : P t ↔ Q t) by (apply E; set_solver). destruct (decide (P t)), (decide (Q t)); [done|tauto|tauto|done].
Qed.

(** The loop of [cancelBadgedSends]: [l1] are the senders already looked at
    that stay, [l2] those still to come. *)
Lemma restart_badged_spec b l2 l1 fuel k wq q :
  sched_inv k → ipc_ok_but (l1 ++ l2) k wq → dlist ep_links (tcbs k) q (l1 ++ l2) →
  (∀ t, t ∈ l2 → stopped k t) → (length l2 ≤ fuel)%nat →
  let keep := filter (λ t, has_badge k b t = false) l2 in
  wp (restart_badged fuel b (first_or 0 l2) q) (λ q' k',
    sched_inv k' ∧ ipc_ok_but (l1 ++ keep) k' wq ∧ dlist ep_links (tcbs k') q' (l1 ++ keep) ∧
    (∀ t, t ∈ l2 → has_badge k b t = true → restarted k k' t) ∧
    threads_but (filter (λ t, has_badge k b t = true) l2) k k' ∧
    ntfns k' = ntfns k ∧ eps k' = eps k ∧ (∀ u, queued k u → queued k' u)) k.
Proof.
  revert l1 fuel k q. induction l2 as [|t l2 IH]; intros l1 fuel k q I H Hd Hst Hf.
  { destruct fuel; cbn; apply wp_ret; split_and!; try done; intros t Ht; by apply elem_of_nil in Ht. }
  destruct fuel as [|fuel]; [cbn in Hf; lia|]. cbn in Hf.
  pose proof (dlist_nonzero _ _ _ _ Hd) as Hz. pose proof Hd as (Hnd & Hseg & _).
  pose proof Hnd as (_ & Hdis & [Htl _]%NoDup_cons)%NoDup_app.
  destruct (dseg_lookup ep_links _ _ _ _ t Hseg) as [Ht0 [c Hc]]; [set_solver|].
  destruct (dlist_split _ _ _ _ _ _ _ Hd Hc) as (_ & _ & _ & Hnx).
  cbn [restart_badged first_or]. destruct (Z.eqb_spec t 0); [done|].
  apply wp_bind, (wp_tcb_at _ c); [done|]. change (tcbEPNext c) with (nx ep_links c). rewrite Hnx.
  assert (Eb : has_badge k b t = (blockingIPCBadge c =? b)) by (unfold has_badge; by rewrite Hc).
  apply wp_bind. rewrite <- Eb. destruct (has_badge k b t) eqn:E.
  - eapply wp_mono; [apply (restart_badged_one k wq l1 t l2); try done; apply Hst; set_solver|].
    intros q1 k1 (I1 & H1 & Hd1 & R1 & B1 & En1 & Ee1 & Q1).
    assert (Hhb : ∀ u, u ∈ l2 → has_badge k1 b u = has_badge k b u).
    { intros u Hu. apply has_badge_core, B1. intros ->%list_elem_of_singleton. done. }
    assert (Ef : ∀ v, filter (λ u, has_badge k1 b u = v) l2 = filter (λ u, has_badge k b u = v) l2).
    { intros v. apply filter_ext_in. intros u Hu. by rewrite Hhb. }
    eapply wp_mono; [apply (IH l1 fuel k1 q1); try done; [|lia]|].
    { intros u Hu. eapply (stopped_core k k1 [t]); [done| |apply Hst; set_solver]. intros ->%list_elem_of_singleton. done. }
    rewrite !Ef, filter_cons_False by congruence. intros q' k' (I' & H' & Hd' & R' & B' & En' & Ee' & Q').
    split_and!; try done; [| |congruence|congruence|auto].
    + intros u [->|Hu]%elem_of_cons Hbu.
      * eapply restarted_later; [done|exact B'| |done]. by intros [_ ?]%list_elem_of_filter.
      * eapply (restarted_before k k1 k' u [t]); [apply R'; [done|by rewrite Hhb]|done|].
        intros ->%list_elem_of_singleton. done.
    + rewrite filter_cons_True by done.
      eapply threads_but_trans; eapply threads_but_mono; [|exact B1| |exact B']; set_solver.
  - apply wp_ret. assert (Eapp : l1 ++ t :: l2 = (l1 ++ [t]) ++ l2) by (by rewrite <- app_assoc).
    rewrite Eapp in H, Hd. eapply wp_mono; [apply (IH (l1 ++ [t]) fuel k q); try done; [|lia]|].
    { intros u Hu. apply Hst. set_solver. }
    rewrite <- !app_assoc. intros q' k' (I' & H' & Hd' & R' & B' & En' & Ee' & Q').
    rewrite filter_cons_True by done. rewrite (filter_cons_False _ t l2) by congruence.
    split_and!; try done. intros u [->|Hu]%elem_of_cons Hbu; [congruence|by apply R'].
Qed.

(** Revoking a badge: exactly the senders that wait with this badge restart;
    the other senders stay in the queue in their order, and receivers, other
    objects and other threads are not affected. *)
Theorem cancelBadgedSends_correct k wq e x b :
  sched_inv k → ipc_ok k wq → eps k !! e = Some x →
  wp (cancelBadgedSends e b) (λ _ k', sched_inv k' ∧
    match epState x with
    | EPState_Send =>
      ipc_ok k' (<[e := filter (λ t, has_badge k b t = false) (wq e)]> wq) ∧
      (∀ t, t ∈ wq e → has_badge k b t = true → restarted k k' t) ∧
      threads_but (filter (λ t, has_badge k b t = true) (wq e)) k k' ∧
      ksSchedulerAction k' = SchedulerAction_ChooseNewThread
    | _ => k' = k
    end) k.
Proof.
  intros I H Hx. pose proof (wait_obj_ep _ _ _ Hx) as Ho. destruct (io_queue _ _ _ H _ _ _ Ho) as [Hd _].
  unfold cancelBadgedSends. apply wp_bind, (wp_ep_at _ x); [done|].
  destruct (epState x) eqn:Es; [by apply wp_ret| |by apply wp_ret].
  apply (make_ep_idle_spec e x); [done|]. set (x1 := mk_ep EPState_Idle (mk_queue 0 0)).
  set (k1 := k <| eps ::= <[e := x1]> |>). apply wp_bind, wp_gets.
  assert (H1 : ipc_ok_but (wq e) k1 (<[e := []]> wq)).
  { apply (ipc_ok_detach_all k k1 wq e); try done. apply (only_obj_ep k _ e x x1); try done. apply H. }
  assert (I1 : sched_inv k1) by (by apply (sched_same_inv None k)).
  set (keep := filter (λ t, has_badge k b t = false) (wq e)).
  apply wp_bind. pose proof Hd as (_ & _ & -> & _).
  eapply wp_mono; [apply (restart_badged_spec b (wq e) [] _ k1 (<[e := []]> wq)); try done|].
  { intros t Ht. exact (waiting_stopped k wq e t I H Ht). }
  { exact (queue_length k _ _ Hd). }
  cbn [app]. change (filter (λ t, has_badge k1 b t = false) (wq e)) with keep.
  intros q k2 (I2 & H2 & Hd2 & R2 & B2 & En2 & Ee2 & Q2).
  assert (Hx2 : eps k2 !! e = Some x1) by (rewrite Ee2; apply lookup_insert_eq).
  apply wp_bind, (wp_ep_set _ _ x1); [done|].
  set (x3 := mk_ep (match keep with [] => EPState_Idle | _ => EPState_Send end) q).
  assert (Hend : wp rescheduleRequired (λ _ k', sched_inv k' ∧
      ipc_ok k' (<[e := keep]> wq) ∧ (∀ t, t ∈ wq e → has_badge k b t = true → restarted k k' t) ∧
      threads_but (filter (λ t, has_badge k b t = true) (wq e)) k k' ∧
      ksSchedulerAction k' = SchedulerAction_ChooseNewThread) (k2 <| eps ::= <[e := x3]> |>)).
  { set (k3 := k2 <| eps ::= <[e := x3]> |>). assert (I3 : sched_inv k3) by (by apply (sched_same_inv None k2)).
    assert (H3 : ipc_ok k3 (<[e := keep]> wq)).
    { eapply (ipc_ok_ext [] k3 (<[e := keep]> (<[e := []]> wq))).
      { intros a. destruct (decide (e = a)) as [<-|Hne]; [by rewrite !fn_lookup_insert|by rewrite !fn_lookup_insert_ne]. }
      eapply (ipc_ok_requeue keep [] k2 k3 _ e keep q (ep_waits (epState x3))); try done.
      - apply (only_obj_ep k2 k3 e x1 x3); try done. apply H2.
      - cbn. by destruct keep.
      - intros u Hu. assert (Huk : u ∈ wq e ∧ has_badge k b u = false) by (apply list_elem_of_filter in Hu; tauto).
        destruct (io_in _ _ _ H _ _ (proj1 Huk)) as (q0 & st & c & Ho' & Hc & Hb & Hst).
        rewrite Ho, ?Es in Ho'. cbn in Ho'. injection Ho' as _ <-.
        destruct B2 as (B2 & _). specialize (B2 u). rewrite list_elem_of_filter in B2.
        change (has_badge k1 b u) with (has_badge k b u) in B2. specialize (B2 ltac:(intros [? _]; destruct Huk; congruence)).
        change (tcbs k1) with (tcbs k) in B2. rewrite Hc in B2.
        destruct (core_field (λ c, (tsType c, blockingObject c)) _ c ltac:(done) B2) as (c2 & Hc2 & [= Et Eb]).
        exists c2. rewrite Et, Eb, Hst. cbn. split; [done|]. split; [done|]. destruct keep; [by apply elem_of_nil in Hu|done].
      - intros u. rewrite fn_lookup_insert. set_solver.
      - intros u _ Hu. by apply elem_of_nil in Hu. }
    eapply wp_mono; [by apply (rescheduleRequired_inv k3 None)|]. intros [] k' (I' & S' & Q' & Ea').
    pose proof (same_threads_but [] k3 k' S') as B'. split_and!; try done.
    - by apply (same_threads_ipc [] k3).
    - intros t Ht Hbt. eapply (restarted_later k k2 k' t []); [by apply R2|exact B'|set_solver|exact Q'].
    - eapply threads_but_trans; [exact B2|]. eapply (threads_but_mono []); [set_solver|exact B']. }
  apply wp_bind. rewrite (dlist_head_empty _ _ _ _ Hd2). subst x3. destruct keep; cbn [negb when].
  - apply wp_ret. exact Hend.
  - eapply wp_ep_set; [apply lookup_insert_eq|]. revert Hend. unfold update. cbn. by rewrite insert_insert_eq.
Qed.

(** ** The small system *)

Lemma cancelAllIPC_correct_witness :
  wp (cancelAllIPC 700) (λ _ k', sched_inv k' ∧ ipc_ok k' (<[700 := []]> demo_wq) ∧
    (∀ t, t ∈ demo_wq 700 → restarted demo_ks k' t) ∧ threads_but (demo_wq 700) demo_ks k' ∧
    (∃ x', eps k' !! 700 = Some x' ∧ epState x' = EPState_Idle) ∧
    (demo_wq 700 ≠ [] → ksSchedulerAction k' = SchedulerAction_ChooseNewThread) ∧ objs_keep demo_ks k') demo_ks.
Proof.
  exact (cancelAllIPC_correct demo_ks demo_wq 700 (mk_ep EPState_Send (mk_queue 64 96)) demo_inv demo_ipc eq_refl).
Defined.

Lemma cancelAllSignals_correct_witness :
  wp (cancelAllSignals 600) (λ _ k', sched_inv k' ∧ ipc_ok k' (<[600 := []]> demo_wq) ∧
    (∀ t, t ∈ demo_wq 600 → restarted demo_ks k' t) ∧ threads_but (demo_wq 600) demo_ks k' ∧
    (∃ x', ntfns k' !! 600 = Some x' ∧ ntfnState x' ≠ NtfnState_Waiting ∧ ntfnBoundTCB x' = 0) ∧
    (demo_wq 600 ≠ [] → ksSchedulerAction k' = SchedulerAction_ChooseNewThread) ∧ objs_keep demo_ks k') demo_ks.
Proof.
  exact (cancelAllSignals_correct demo_ks demo_wq 600 (mk_ntfn NtfnState_Waiting (mk_queue 48 48) 0 0)
    demo_inv demo_ipc eq_refl).
Defined.

Lemma cancelBadgedSends_correct_witness :
  wp (cancelBadgedSends 700 1) (λ _ k', sched_inv k' ∧
    ipc_ok k' (<[700 := filter (λ t, has_badge demo_ks 1 t = false) (demo_wq 700)]> demo_wq) ∧
    (∀ t, t ∈ demo_wq 700 → has_badge demo_ks 1 t = true → restarted demo_ks k' t) ∧
    threads_but (filter (λ t, has_badge demo_ks 1 t = true) (demo_wq 700)) demo_ks k' ∧
    ksSchedulerAction k' = SchedulerAction_ChooseNewThread) demo_ks.
Proof.
  exact (cancelBadgedSends_correct demo_ks demo_wq 700 (mk_ep EPState_Send (mk_queue 64 96)) 1
    demo_inv demo_ipc eq_refl).
Defined.
