(* ===== verification/Notification.v ===== *)
(** The notification objects the producer/consumer server runs on
    ([Sel4Buffer.ntfn_signal], [Sel4Buffer.ntfn_wait]) are the kernel's: a
    simulation between the two. *)

From stdpp Require Import functions.
From S2P Require Import Prelude Caps Kernel Scheduler Wakeup Paging VSpace IOSpace Ipc Waiting Signals Sel4Buffer.

(** The abstract notification: [α] gives the server's number of a kernel thread. *)
Definition abs_ntfn (α : Z → nat) (x : notification_t) (l : list Z) : ntfn :=
  match ntfnState x, l with
  | NtfnState_Waiting, t :: q => NWaiting (α t) (α <$> q)
  | NtfnState_Active, _ => NActive
  | _, _ => NIdle
  end.

(** A kernel state and an abstract notification [a] for the object at [n]. *)
Definition simulates (α : Z → nat) (n : Z) (k : ks) (wq : Z → list Z) (a : ntfn) : Prop :=
  sched_inv k ∧ ipc_ok k wq ∧
  ∃ x, ntfns k !! n = Some x ∧ ntfnBoundTCB x = 0 ∧ abs_ntfn α x (wq n) = a.

Lemma signal_waiting_abs α x q t l :
  ntfnState x = NtfnState_Waiting →
  ntfn_signal (abs_ntfn α x (t :: l)) = (abs_ntfn α (ntfn_after l q x) l, Some (α t)).
Proof. intros E. unfold abs_ntfn, ntfn_after. cbn. rewrite E. by destruct l. Qed.

(** The state of the notification and its queue go together. *)
Lemma ntfn_queue_cases k wq n x : ipc_ok k wq → ntfns k !! n = Some x →
  (ntfnState x = NtfnState_Waiting ∧ ∃ t l, wq n = t :: l ∧ NoDup (t :: l)) ∨
  (ntfnState x ≠ NtfnState_Waiting ∧ wq n = []).
Proof.
  intros H Hx. pose proof (wait_obj_ntfn _ _ _ _ _ H Hx) as Ho. destruct (io_queue _ _ _ H _ _ _ Ho) as [[Hnd _] Hw].
  destruct (ntfnState x) eqn:E; cbn in Hw; [right|left|right]; (split; [done|]); try (by apply Hw).
  destruct (wq n) as [|t l]; [by destruct Hw as [_ Hw]; specialize (Hw eq_refl)|eauto].
Qed.

(** A signal, in the abstract: the next state and the thread it releases. *)
Lemma signal_simulates α n k wq a badge :
  simulates α n k wq a → bound_ok k →
  wp (sendSignal n badge) (λ _ k', ∃ wq' rel,
    ntfn_signal a = (abs_ntfn α (default (mk_ntfn NtfnState_Idle (mk_queue 0 0) 0 0) (ntfns k' !! n)) (wq' n), α <$> rel) ∧
    simulates α n k' wq' (ntfn_signal a).1 ∧ rel = head (wq n) ∧
    (∀ t, rel = Some t → runnable k' t)) k.
Proof.
  intros (I & H & x & Hx & Hb & <-) B. eapply wp_mono; [by apply (sendSignal_spec k wq n x badge)|].
  intros [] k' (I' & Hpost). assert (H0 : tcbs k !! 0 = None).
  { destruct (tcbs k !! 0) eqn:E; [|done]. destruct (si_rq _ _ I) as (rq & Hok & _). by destruct (so_tcb _ _ Hok _ _ E). }
  destruct (ntfn_queue_cases k wq n x H Hx) as [(Es & t & l & Eq & Hnd)|(Es & Eq)].
  - unfold signal_target in Hpost. rewrite Es, Eq in Hpost. destruct Hpost as (H' & (c & _ & _ & Hrun) & _ & Hn).
    assert (Ef : filter (.≠ t) (wq n) = l) by (rewrite Eq; by apply (filter_split t (t :: l) [] l)).
    destruct (Hn eq_refl) as [q Hn']. rewrite <- Eq, Ef in *. rewrite Eq.
    exists (<[n := l]> wq), (Some t). rewrite fn_lookup_insert, Hn', lookup_insert_eq. cbn [default].
    rewrite (signal_waiting_abs α x q t l Es). split_and!; try done.
    + split; [done|]. split; [done|]. exists (ntfn_after l q x). rewrite Hn', lookup_insert_eq, fn_lookup_insert. done.
    + intros u [= <-]. destruct (core_field tsType _ _ ltac:(done) Hrun) as (c' & Hc' & Et). exists c'. by rewrite Et.
  - assert (Et : signal_target k wq n x = None).
    { unfold signal_target. rewrite Hb, H0. by destruct (ntfnState x). }
    rewrite Et in Hpost. destruct Hpost as [H' ->].
    assert (Hn' : ntfns (k <| ntfns ::= <[n := activated x badge]> |>) !! n = Some (activated x badge)) by apply lookup_insert_eq.
    exists wq, None. rewrite Hn', Eq. cbn [default].
    assert (Ea : ntfn_signal (abs_ntfn α x []) = (NActive, None)) by (unfold abs_ntfn; by destruct (ntfnState x)).
    rewrite Ea. split_and!; try done. split; [done|]. split; [done|]. exists (activated x badge). rewrite Eq. done.
Qed.

(** A wait, in the abstract: the next state and whether the thread goes on. *)
Lemma wait_simulates α n k wq a t c b cr cs :
  simulates α n k wq a → tcbs k !! t = Some c → runnable k t → t ≠ ksIdleThread k →
  ¬ queued k t → ksSchedulerAction k ≠ t →
  wp (receiveSignal t (cap_notification_cap b cr cs n) true) (λ _ k', ∃ wq',
    simulates α n k' wq' (ntfn_wait (α t) a).1 ∧ (runnable k' t ↔ (ntfn_wait (α t) a).2 = true)) k.
Proof.
  intros (I & H & x & Hx & Hb & <-) Hc Hr Hid Hq Ha.
  eapply wp_mono; [by apply (receiveSignal_spec k wq t c b cr cs n x true)|]. intros [] k' (I' & Hpost).
  destruct (ntfn_queue_cases k wq n x H Hx) as [(Es & u & l & Eq & _)|(Es & Eq)].
  - rewrite Es in Hpost. destruct Hpost as (H' & Hn' & _ & _ & _ & q & En). exists (<[n := wq n ++ [t]]> wq).
    unfold abs_ntfn. rewrite Es, Eq. cbn. split; [|split; [done|by intros ?]]. split_and!; [done|by rewrite Eq in H'|].
    eexists. rewrite En, lookup_insert_eq, fn_lookup_insert. split; [done|]. split; [done|].
    unfold abs_ntfn. cbn. by rewrite fmap_app.
  - destruct (ntfnState x) eqn:Ex; [|done|].
    + destruct Hpost as (H' & Hn' & _ & _ & _ & q & En). exists (<[n := wq n ++ [t]]> wq).
      unfold abs_ntfn. rewrite Ex, Eq. cbn. split; [|split; [done|by intros ?]]. split_and!; [done|by rewrite Eq in H'|].
      eexists. rewrite En, lookup_insert_eq, fn_lookup_insert. done.
    + destruct Hpost as (H' & ->). exists wq. unfold abs_ntfn. rewrite Ex. cbn. split.
      * split_and!; [done|done|]. exists (x <| ntfnState := NtfnState_Idle |>). split; [apply lookup_insert_eq|].
        split; [done|]. by rewrite Eq.
      * split; [done|]. intros _. apply (runnable_state k t c Hc) in Hr.
        exists (c <| registers ::= <[badgeRegister := ntfnMsgIdentifier x]> |>). split; [apply lookup_insert_eq|done].
Qed.

(** C33: the kernel implements the notifications the server's model is built on:
    from a state that stands for the abstract notification [a], [sendSignal]
    leads to one that stands for the state after [ntfn_signal] and releases the
    thread it names, which can then run; [receiveSignal] leads to one that stands
    for the state after [ntfn_wait], and the caller can run on exactly when
    [ntfn_wait] says so. *)
Theorem notification_refines α n k wq a badge t c b cr cs :
  simulates α n k wq a → bound_ok k → tcbs k !! t = Some c → runnable k t →
  t ≠ ksIdleThread k → ¬ queued k t → ksSchedulerAction k ≠ t →
  wp (sendSignal n badge) (λ _ k', ∃ wq',
    simulates α n k' wq' (ntfn_signal a).1 ∧
    match (ntfn_signal a).2 with
    | Some i => ∃ u, head (wq n) = Some u ∧ α u = i ∧ runnable k' u
    | None => head (wq n) = None
    end) k ∧
  wp (receiveSignal t (cap_notification_cap b cr cs n) true) (λ _ k', ∃ wq',
    simulates α n k' wq' (ntfn_wait (α t) a).1 ∧ (runnable k' t ↔ (ntfn_wait (α t) a).2 = true)) k.
Proof.
  intros S B Hc Hr Hid Hq Ha. split; [|by eapply wait_simulates].
  eapply wp_mono; [by apply signal_simulates|]. intros [] k' (wq' & rel & E & S' & Hrel & Hrun). exists wq'.
  split; [done|]. rewrite E. cbn. rewrite <- Hrel. destruct rel as [u|]; cbn; [|done]. exists u. auto.
Qed.

Lemma notification_refines_witness :
  wp (sendSignal 600 5) (λ _ k', ∃ wq', simulates Z.to_nat 600 k' wq' NIdle ∧
    ∃ u, Some 48 = Some u ∧ Z.to_nat u = 48%nat ∧ runnable k' u) demo_ks ∧
  wp (receiveSignal 16 (cap_notification_cap 0 true true 600) true) (λ _ k', ∃ wq',
    simulates Z.to_nat 600 k' wq' (NWaiting 48%nat [16%nat]) ∧ (runnable k' 16 ↔ false = true)) demo_ks.
Proof.
  refine (notification_refines Z.to_nat 600 demo_ks demo_wq (NWaiting 48%nat []) 5 16
    (demo_tcb ThreadState_Running 100) 0 true true _ demo_bound_ok eq_refl _ _ _ _).
  - split; [exact demo_inv|split; [exact demo_ipc|]]. exists (mk_ntfn NtfnState_Waiting (mk_queue 48 48) 0 0).
    split; [|split]; vm_compute; reflexivity.
  - exists (demo_tcb ThreadState_Running 100). split; vm_compute; reflexivity.
  - vm_compute. discriminate.
  - intros (c & Hc & Hq). vm_compute in Hc. injection Hc as <-. discriminate.
  - vm_compute. discriminate.
Defined.
