(* ===== verification/Transfer.v ===== *)
(** Messages between threads: message registers and IPC buffers, the transfer
    of words and capabilities ([kernel/thread.c], [object/tcb.c],
    [object/cnode.c]), faults as messages ([api/faults.c],
    [kernel/faulthandler.c]), [sendIPC], [receiveIPC] and the replies
    ([object/endpoint.c]).

    The accessors of message tags are those of [Messages]: the kernel is built
    with the same generated code.  A word of an IPC buffer is a word of memory
    at its address; the buffer is mapped, so that an access does not fault. *)

From S2P Require Import Prelude Messages Caps Kernel CSpace CNode Scheduler VSpace Ipc.
Import MessageInfo.

(** [&buf[i]] *)
Definition buf_index (buf i : Z) : Z := wrap32 (buf + 4 * i).

(** ** Message registers *)

Definition n_msgRegisters : Z := 2.
(** [msgRegisters[i]]: [EDI], [EBP] *)
Definition msgRegister (i : Z) : Z := if i =? 0 then 5 else 6.

Definition getSyscallArg (i ipc_buffer : Z) : K Z :=
  if i <? n_msgRegisters then t ← cur; getRegister t (msgRegister i)
  else assert (negb (ipc_buffer =? 0));; word_at (buf_index ipc_buffer (i + 1)).

Definition setMR (receiver receiveIPCBuffer offset reg : Z) : K Z :=
  if n_msgRegisters <=? offset then
    if negb (receiveIPCBuffer =? 0) then
      word_set (buf_index receiveIPCBuffer (offset + 1)) reg;; mret (offset + 1)
    else mret n_msgRegisters
  else setRegister receiver (msgRegister offset) reg;; mret (offset + 1).


Definition lookupIPCBuffer (isReceiver : bool) (thread : Z) : K Z :=
  c ← tcb_at thread;
  let w_bufferPtr := tcbIPCBuffer c in
  s ← cte_at (TCB_PTR_CTE_PTR thread tcbBuffer);
  match cte_cap s with
  | cap_frame_cap size _ _ _ _ vm_rights basePtr =>
    if (vm_rights =? VMReadWrite) || (negb isReceiver && (vm_rights =? VMReadOnly)) then
      pageBits ← lift (pageBitsForSize size);
      mret (wrap32 (basePtr + Z.land w_bufferPtr (MASK pageBits)))
    else mret 0
  | _ => mret 0
  end.

Definition copyMRs (sender sendBuf receiver recvBuf n : Z) : K Z :=
  let inline := Z.min n n_msgRegisters in
  for_range 0 (Z.to_nat inline) (λ i,
    v ← getRegister sender (msgRegister i); setRegister receiver (msgRegister i) v);;
  if (recvBuf =? 0) || (sendBuf =? 0) then mret inline
  else
    for_range inline (Z.to_nat (n - inline)) (λ i,
      v ← word_at (buf_index sendBuf (i + 1)); word_set (buf_index recvBuf (i + 1)) v);;
    mret n.

(** ** Capabilities in messages *)

Definition seL4_MsgMaxLength : Z := 120.
Definition seL4_MsgMaxExtraCaps : Z := 3.

Definition messageInfoFromWord (w : Z) : outcome Z :=
  if seL4_MsgMaxLength <? seL4_MessageInfo_get_length w
  then seL4_MessageInfo_set_length w seL4_MsgMaxLength else mret w.

Definition getExtraCPtr (bufferPtr i : Z) : K Z := word_at (buf_index bufferPtr (seL4_MsgMaxLength + 2 + i)).
Definition setExtraBadge (bufferPtr badge i : Z) : K unit :=
  word_set (buf_index bufferPtr (seL4_MsgMaxLength + 2 + i)) badge.

(** [current_extra_caps.excaprefs[i] = slot] *)
Definition set_excap (i slot : Z) : K unit :=
  modify (λ k, k <| current_extra_caps ::= <[Z.to_nat i := slot]> |>).

Fixpoint lookup_extra_caps (n : nat) (i : Z) (thread bufferPtr : Z) : K (exception_t * Z) :=
  match n with
  | O => mret (EXCEPTION_NONE, i)
  | S n' =>
    cptr ← getExtraCPtr bufferPtr i;
    lu ← lookupSlot thread cptr;
    if decide (slot_status lu ≠ EXCEPTION_NONE) then
      modify (λ k, k <| current_fault := seL4_Fault_CapFault cptr false |>);;
      mret (slot_status lu, i)
    else
      set_excap i (slot_slot lu);;
      lookup_extra_caps n' (i + 1) thread bufferPtr
  end.

Definition lookupExtraCaps (thread bufferPtr info : Z) : K exception_t :=
  if bufferPtr =? 0 then set_excap 0 0;; mret EXCEPTION_NONE
  else
    let length := seL4_MessageInfo_get_extraCaps info in
    r ← lookup_extra_caps (Z.to_nat length) 0 thread bufferPtr;
    if decide (fst r ≠ EXCEPTION_NONE) then mret (fst r)
    else
      when (snd r <? seL4_MsgMaxExtraCaps) (set_excap (snd r) 0);;
      mret EXCEPTION_NONE.

Record deriveCap_ret_t := mk_derive { dc_status : exception_t; dc_cap : cap_t }.

Definition Mode_deriveCap (cap : cap_t) : K deriveCap_ret_t :=
  match cap with
  | cap_frame_cap size _ vaddr _ dev rights ptr =>
    mret (mk_derive EXCEPTION_NONE (cap_frame_cap size 0 vaddr X86_MappingNone dev rights ptr))
  | _ => halt_with AssertFailed
  end.

Definition Arch_deriveCap (cap : cap_t) : K deriveCap_ret_t :=
  match cap with
  | cap_page_table_cap mapped _ _ _ | cap_page_directory_cap mapped _ _ _
  | cap_io_page_table_cap mapped _ _ _ _ =>
    if mapped : bool then mret (mk_derive EXCEPTION_NONE cap)
    else
      set_error (λ e, e <| error_type := seL4_IllegalOperation |>);;
      mret (mk_derive EXCEPTION_SYSCALL_ERROR cap_null_cap)
  | cap_asid_control_cap | cap_asid_pool_cap _ _ | cap_io_port_cap _ _ _ | cap_io_space_cap _ _ =>
    mret (mk_derive EXCEPTION_NONE cap)
  | _ => Mode_deriveCap cap
  end.

Definition deriveCap (slot : Z) (cap : cap_t) : K deriveCap_ret_t :=
  if isArchCap cap then Arch_deriveCap cap
  else
    match cap with
    | cap_zombie_cap _ _ | cap_irq_control_cap | cap_reply_cap _ _ =>
      mret (mk_derive EXCEPTION_NONE cap_null_cap)
    | cap_untyped_cap _ _ _ _ =>
      status ← ensureNoChildren slot;
      mret (mk_derive status (if decide (status ≠ EXCEPTION_NONE) then cap_null_cap else cap))
    | _ => mret (mk_derive EXCEPTION_NONE cap)
    end.

(** [loadCapTransfer]: root, index and depth of the receive slot. *)
Definition loadCapTransfer (buffer : Z) : K (Z * Z * Z) :=
  let offset := seL4_MsgMaxLength + seL4_MsgMaxExtraCaps + 2 in
  root ← word_at (buf_index buffer offset);
  index ← word_at (buf_index buffer (offset + 1));
  depth ← word_at (buf_index buffer (offset + 2));
  mret (root, index, depth).

Definition getReceiveSlots (thread buffer : Z) : K Z :=
  if buffer =? 0 then mret 0
  else
    ct ← loadCapTransfer buffer;
    let '(root, index, depth) := ct in
    luc ← lookupCap thread root;
    if decide (cap_status luc ≠ EXCEPTION_NONE) then mret 0
    else
      lus ← lookupTargetSlot (cap_cap luc) index depth;
      if decide (slot_status lus ≠ EXCEPTION_NONE) then mret 0
      else
        s ← cte_at (slot_slot lus);
        if negb (is_null (cte_cap s)) then mret 0 else mret (slot_slot lus).

(** A capability of a message goes to the receive slot; then [rest]. *)
Definition transfer_one (i info destSlot slot : Z) (cap : cap_t) (rest : K (Z * Z)) : K (Z * Z) :=
  if destSlot =? 0 then mret (info, i)
  else
    dc ← deriveCap slot cap;
    if decide (dc_status dc ≠ EXCEPTION_NONE) then mret (info, i)
    else if is_null (dc_cap dc) then mret (info, i)
    else cteInsert (dc_cap dc) slot destSlot;; rest.

(** The loop of [transferCaps]; the tag and the number of capabilities seen. *)
Fixpoint transfer_caps (n : nat) (i info : Z) (caps : list Z) (endpoint receiveBuffer destSlot : Z) :
  K (Z * Z) :=
  match n with
  | O => mret (info, i)
  | S n' =>
    let slot := default 0 (caps !! Z.to_nat i) in
    if slot =? 0 then mret (info, i)
    else
      s ← cte_at slot;
      let cap := cte_cap s in
      let one := transfer_one i info destSlot slot cap
                   (transfer_caps n' (i + 1) info caps endpoint receiveBuffer 0) in
      match cap with
      | cap_endpoint_cap badge _ _ _ ep =>
        if ep =? endpoint then
          setExtraBadge receiveBuffer badge i;;
          info' ← lift (seL4_MessageInfo_set_capsUnwrapped info
                    (Z.lor (seL4_MessageInfo_get_capsUnwrapped info) (Z.shiftl 1 i)));
          transfer_caps n' (i + 1) info' caps endpoint receiveBuffer destSlot
        else one
      | _ => one
      end
  end.

Definition transferCaps (info : Z) (caps : list Z) (endpoint receiver receiveBuffer : Z) : K Z :=
  info ← lift (seL4_MessageInfo_set_extraCaps info 0);
  info ← lift (seL4_MessageInfo_set_capsUnwrapped info 0);
  if (default 0 (caps !! 0%nat) =? 0) || (receiveBuffer =? 0) then mret info
  else
    destSlot ← getReceiveSlots receiver receiveBuffer;
    r ← transfer_caps (Z.to_nat seL4_MsgMaxExtraCaps) 0 info caps endpoint receiveBuffer destSlot;
    lift (seL4_MessageInfo_set_extraCaps (fst r) (snd r)).

(** ** Transfer of a message *)

Definition doNormalTransfer (sender sendBuffer endpoint badge : Z) (canGrant : bool)
    (receiver receiveBuffer : Z) : K unit :=
  w ← getRegister sender msgInfoRegister;
  tag ← lift (messageInfoFromWord w);
  caps ← (if canGrant then
            status ← lookupExtraCaps sender sendBuffer tag;
            caps ← gets current_extra_caps;
            mret (if decide (status ≠ EXCEPTION_NONE) then <[0%nat := 0]> caps else caps)
          else caps ← gets current_extra_caps; mret (<[0%nat := 0]> caps));
  msgTransferred ← copyMRs sender sendBuffer receiver receiveBuffer (seL4_MessageInfo_get_length tag);
  tag ← transferCaps tag caps endpoint receiver receiveBuffer;
  tag ← lift (seL4_MessageInfo_set_length tag msgTransferred);
  setRegister receiver msgInfoRegister tag;;
  setRegister receiver badgeRegister badge.

Definition lookup_fault_type (f : lookup_fault) : Z :=
  match f with
  | lookup_fault_invalid_root => 0
  | lookup_fault_missing_capability _ => 1
  | lookup_fault_depth_mismatch _ _ => 2
  | lookup_fault_guard_mismatch _ _ _ => 3
  end.

Definition setMRs_lookup_failure (receiver receiveIPCBuffer : Z) (luf : lookup_fault) (offset : Z) : K Z :=
  i ← setMR receiver receiveIPCBuffer offset (lookup_fault_type luf + 1);
  assert ((offset =? 3) || (offset =? 1));;
  match luf with
  | lookup_fault_invalid_root => mret i
  | lookup_fault_missing_capability bitsLeft => setMR receiver receiveIPCBuffer (offset + 1) bitsLeft
  | lookup_fault_depth_mismatch bitsFound bitsLeft =>
    setMR receiver receiveIPCBuffer (offset + 1) bitsLeft;;
    setMR receiver receiveIPCBuffer (offset + 2) bitsFound
  | lookup_fault_guard_mismatch guardFound bitsLeft bitsFound =>
    setMR receiver receiveIPCBuffer (offset + 1) bitsLeft;;
    setMR receiver receiveIPCBuffer (offset + 2) guardFound;;
    setMR receiver receiveIPCBuffer (offset + 3) bitsFound
  end.

(** [fault_messages]: the registers of a system call and of an exception *)
Definition syscall_message : list Z := [0; 1; 2; 3; 4; 5; 6; 11; 17; 16].
Definition exception_message : list Z := [11; 17; 16].
Definition n_syscallMessage : Z := 10.
Definition n_exceptionMessage : Z := 3.

Definition copyMRsFault (sender receiver : Z) (regs : list Z) (length receiveIPCBuffer : Z) : K unit :=
  let inline := Z.min length n_msgRegisters in
  for_range 0 (Z.to_nat inline) (λ i,
    v ← getRegister sender (default 0 (regs !! Z.to_nat i)); setRegister receiver (msgRegister i) v);;
  when (negb (receiveIPCBuffer =? 0))
    (for_range inline (Z.to_nat (length - inline)) (λ i,
       v ← getRegister sender (default 0 (regs !! Z.to_nat i));
       word_set (buf_index receiveIPCBuffer (i + 1)) v)).

Definition setMRs_fault (sender receiver receiveIPCBuffer : Z) : K Z :=
  c ← tcb_at sender;
  match tcbFault c with
  | seL4_Fault_CapFault address inReceivePhase =>
    pc ← getRestartPC sender;
    setMR receiver receiveIPCBuffer 0 pc;;
    setMR receiver receiveIPCBuffer 1 address;;
    setMR receiver receiveIPCBuffer 2 (Z.b2z inReceivePhase);;
    c ← tcb_at sender;
    setMRs_lookup_failure receiver receiveIPCBuffer (tcbLookupFailure c) 3
  | seL4_Fault_UnknownSyscall syscallNumber =>
    copyMRsFault sender receiver syscall_message n_syscallMessage receiveIPCBuffer;;
    setMR receiver receiveIPCBuffer n_syscallMessage syscallNumber
  | seL4_Fault_UserException number code =>
    copyMRsFault sender receiver exception_message n_exceptionMessage receiveIPCBuffer;;
    setMR receiver receiveIPCBuffer n_exceptionMessage number;;
    setMR receiver receiveIPCBuffer (n_exceptionMessage + 1) code
  | seL4_Fault_VMFault address FSR instructionFault =>
    pc ← getRestartPC sender;
    setMR receiver receiveIPCBuffer 0 pc;;
    setMR receiver receiveIPCBuffer 1 address;;
    setMR receiver receiveIPCBuffer 2 (Z.b2z instructionFault);;
    setMR receiver receiveIPCBuffer 3 FSR
  | seL4_Fault_NullFault => halt_with AssertFailed
  end.

Definition fault_type (f : fault) : Z :=
  match f with
  | seL4_Fault_NullFault => 0
  | seL4_Fault_CapFault _ _ => 1
  | seL4_Fault_UnknownSyscall _ => 2
  | seL4_Fault_UserException _ _ => 3
  | seL4_Fault_VMFault _ _ _ => 5
  end.

Definition doFaultTransfer (badge sender receiver receiverIPCBuffer : Z) : K unit :=
  sent ← setMRs_fault sender receiver receiverIPCBuffer;
  c ← tcb_at sender;
  msgInfo ← lift (seL4_MessageInfo_new (fault_type (tcbFault c)) 0 0 sent);
  setRegister receiver msgInfoRegister msgInfo;;
  setRegister receiver badgeRegister badge.

Definition doIPCTransfer (sender endpoint badge : Z) (grant : bool) (receiver : Z) : K unit :=
  receiveBuffer ← lookupIPCBuffer true receiver;
  c ← tcb_at sender;
  if fault_type (tcbFault c) =? 0 then
    sendBuffer ← lookupIPCBuffer false sender;
    doNormalTransfer sender sendBuffer endpoint badge grant receiver receiveBuffer
  else doFaultTransfer badge sender receiver receiveBuffer.

(** ** Endpoints *)

(** The caller of a call, or a faulting thread, waits for its reply. *)
Definition wait_for_reply (canGrant : bool) (sender receiver : Z) : K unit :=
  if canGrant then setupCallerCap sender receiver else setThreadState sender ThreadState_Inactive.

Definition sendIPC (blocking do_call : bool) (badge : Z) (canGrant : bool) (thread epptr : Z) : K unit :=
  x ← ep_at epptr;
  match epState x with
  | EPState_Idle | EPState_Send =>
    when blocking
      (tcb_set thread (λ c, c <| tsType := ThreadState_BlockedOnSend |>);;
       tcb_set thread (λ c, c <| blockingObject := epptr |>);;
       tcb_set thread (λ c, c <| blockingIPCBadge := badge mod 2 ^ 28 |>);;
       tcb_set thread (λ c, c <| blockingIPCCanGrant := canGrant |>);;
       tcb_set thread (λ c, c <| blockingIPCIsCall := do_call |>);;
       scheduleTCB thread;;
       queue ← ep_ptr_get_queue epptr;
       queue ← tcbEPAppend thread queue;
       set_ep_state epptr EPState_Send;;
       ep_ptr_set_queue epptr queue)
  | EPState_Recv =>
    queue ← ep_ptr_get_queue epptr;
    let dest := q_head queue in
    assert (negb (dest =? 0));;
    queue ← tcbEPDequeue dest queue;
    ep_ptr_set_queue epptr queue;;
    when (q_head queue =? 0) (set_ep_state epptr EPState_Idle);;
    doIPCTransfer thread epptr badge canGrant dest;;
    setThreadState dest ThreadState_Running;;
    attemptSwitchTo dest;;
    c ← tcb_at thread;
    when (do_call || negb (fault_type (tcbFault c) =? 0)) (wait_for_reply canGrant thread dest)
  end.

Definition receiveIPC (thread : Z) (cap : cap_t) (isBlocking : bool) : K unit :=
  match cap with
  | cap_endpoint_cap _ _ _ _ epptr =>
    c ← tcb_at thread;
    let ntfnPtr := tcbBoundNotification c in
    active ← (if ntfnPtr =? 0 then mret false
              else n ← ntfn_at ntfnPtr;
                   mret (match ntfnState n with NtfnState_Active => true | _ => false end));
    if active : bool then completeSignal ntfnPtr thread
    else
      x ← ep_at epptr;
      match epState x with
      | EPState_Idle | EPState_Recv =>
        if isBlocking then
          tcb_set thread (λ c, c <| tsType := ThreadState_BlockedOnReceive |>);;
          tcb_set thread (λ c, c <| blockingObject := epptr |>);;
          scheduleTCB thread;;
          queue ← ep_ptr_get_queue epptr;
          queue ← tcbEPAppend thread queue;
          set_ep_state epptr EPState_Recv;;
          ep_ptr_set_queue epptr queue
        else doNBRecvFailedTransfer thread
      | EPState_Send =>
        queue ← ep_ptr_get_queue epptr;
        let sender := q_head queue in
        assert (negb (sender =? 0));;
        queue ← tcbEPDequeue sender queue;
        ep_ptr_set_queue epptr queue;;
        when (q_head queue =? 0) (set_ep_state epptr EPState_Idle);;
        s ← tcb_at sender;
        let badge := blockingIPCBadge s in
        let canGrant := blockingIPCCanGrant s in
        doIPCTransfer sender epptr badge canGrant thread;;
        s ← tcb_at sender;
        if blockingIPCIsCall s || negb (fault_type (tcbFault s) =? 0)
        then wait_for_reply canGrant sender thread
        else setThreadState sender ThreadState_Running;; switchIfRequiredTo sender
      end
  | _ => halt_with AssertFailed
  end.

(** ** Replies *)

Definition setMRs_syscall_error (thread receiveIPCBuffer : Z) : K Z :=
  e ← gets current_syscall_error;
  let t := error_type e in
  if t =? seL4_InvalidArgument then setMR thread receiveIPCBuffer 0 (invalidArgumentNumber e)
  else if t =? seL4_InvalidCapability then setMR thread receiveIPCBuffer 0 (invalidCapNumber e)
  else if t =? seL4_IllegalOperation then mret 0
  else if t =? seL4_RangeError then
    setMR thread receiveIPCBuffer 0 (rangeErrorMin e);;
    setMR thread receiveIPCBuffer 1 (rangeErrorMax e)
  else if t =? seL4_AlignmentError then mret 0
  else if t =? seL4_FailedLookup then
    setMR thread receiveIPCBuffer 0 (Z.b2z (failedLookupWasSource e));;
    luf ← gets current_lookup_fault;
    setMRs_lookup_failure thread receiveIPCBuffer luf 1
  else if (t =? seL4_TruncatedMessage) || (t =? seL4_DeleteFirst) || (t =? seL4_RevokeFirst) then mret 0
  else if t =? seL4_NotEnoughMemory then setMR thread receiveIPCBuffer 0 (memoryLeft e)
  else halt_with AssertFailed.

Definition replyFromKernel_error (thread : Z) : K unit :=
  ipcBuffer ← lookupIPCBuffer true thread;
  setRegister thread badgeRegister 0;;
  len ← setMRs_syscall_error thread ipcBuffer;
  e ← gets current_syscall_error;
  info ← lift (seL4_MessageInfo_new (error_type e) 0 0 len);
  setRegister thread msgInfoRegister info.

Definition replyFromKernel_success_empty (thread : Z) : K unit :=
  setRegister thread badgeRegister 0;;
  info ← lift (seL4_MessageInfo_new 0 0 0 0);
  setRegister thread msgInfoRegister info.

(** What a user may put into a register. *)
Definition FS : Z := 9.
Definition GS : Z := 10.
Definition TLS_BASE : Z := 12.
Definition FLAGS : Z := 16.
Definition SEL_TLS : Z := 51.
Definition SEL_IPCBUF : Z := 59.

Definition Mode_sanitiseRegister (reg v : Z) : Z :=
  if (reg =? FS) || (reg =? GS) then
    if negb (v =? SEL_TLS) && negb (v =? SEL_IPCBUF) then 0 else v
  else v.

Definition sanitiseRegister (reg v : Z) : Z :=
  let v := Mode_sanitiseRegister reg v in
  let v := if reg =? FLAGS then
             let v := Z.lor v (BIT 1) in
             let v := Z.land v (wrap32 (Z.lnot (Z.lor (BIT 3) (BIT 5)))) in
             let v := Z.lor v (BIT 9) in
             let v := Z.land v (wrap32 (Z.lnot (BIT 8))) in
             Z.land v (MASK 12)
           else v in
  if reg =? TLS_BASE then if PPTR_USER_TOP <? v then PPTR_USER_TOP else v else v.

Definition copyMRsFaultReply (sender receiver : Z) (regs : list Z) (length : Z) : K unit :=
  let inline := Z.min length n_msgRegisters in
  for_range 0 (Z.to_nat inline) (λ i,
    let r := default 0 (regs !! Z.to_nat i) in
    v ← getRegister sender (msgRegister i);
    setRegister receiver r (sanitiseRegister r v));;
  when (inline <? length)
    (sendBuf ← lookupIPCBuffer false sender;
     when (negb (sendBuf =? 0))
       (for_range inline (Z.to_nat (length - inline)) (λ i,
          let r := default 0 (regs !! Z.to_nat i) in
          v ← word_at (buf_index sendBuf (i + 1));
          setRegister receiver r (sanitiseRegister r v)))).

Definition handleFaultReply (receiver sender : Z) : K bool :=
  w ← getRegister sender msgInfoRegister;
  tag ← lift (messageInfoFromWord w);
  let label := seL4_MessageInfo_get_label tag in
  let length := seL4_MessageInfo_get_length tag in
  c ← tcb_at receiver;
  match tcbFault c with
  | seL4_Fault_CapFault _ _ => mret true
  | seL4_Fault_UnknownSyscall _ =>
    copyMRsFaultReply sender receiver syscall_message (Z.min length n_syscallMessage);;
    mret (label =? 0)
  | seL4_Fault_UserException _ _ =>
    copyMRsFaultReply sender receiver exception_message (Z.min length n_exceptionMessage);;
    mret (label =? 0)
  | seL4_Fault_VMFault _ _ _ => mret true
  | seL4_Fault_NullFault => halt_with AssertFailed
  end.

Definition doReplyTransfer (sender receiver slot : Z) : K unit :=
  c ← tcb_at receiver;
  assert (bool_decide (tsType c = ThreadState_BlockedOnReply));;
  if fault_type (tcbFault c) =? 0 then
    doIPCTransfer sender 0 0 true receiver;;
    cteDeleteOne slot;;
    setThreadState receiver ThreadState_Running;;
    attemptSwitchTo receiver
  else
    cteDeleteOne slot;;
    restart ← handleFaultReply receiver sender;
    tcb_set receiver (λ c, c <| tcbFault := seL4_Fault_NullFault |>);;
    if restart : bool then
      setThreadState receiver ThreadState_Restart;;
      attemptSwitchTo receiver
    else setThreadState receiver ThreadState_Inactive.

(** ** Faults *)

Definition sendFaultIPC (tptr : Z) : K exception_t :=
  original_lookup_fault ← gets current_lookup_fault;
  c ← tcb_at tptr;
  let handlerCPtr := tcbFaultHandler c in
  lu ← lookupCap tptr handlerCPtr;
  if decide (cap_status lu ≠ EXCEPTION_NONE) then
    modify (λ k, k <| current_fault := seL4_Fault_CapFault handlerCPtr false |>);;
    mret EXCEPTION_FAULT
  else
    let no_handler :=
      modify (λ k, k <| current_fault := seL4_Fault_CapFault handlerCPtr false |>);;
      set_lookup_fault (lookup_fault_missing_capability 0);;
      mret EXCEPTION_FAULT in
    match cap_cap lu with
    | cap_endpoint_cap badge canGrant canSend _ ep =>
      if canSend && canGrant then
        f ← gets current_fault;
        tcb_set tptr (λ c, c <| tcbFault := f |>);;
        when (fault_type f =? 1) (tcb_set tptr (λ c, c <| tcbLookupFailure := original_lookup_fault |>));;
        sendIPC true false badge true tptr ep;;
        mret EXCEPTION_NONE
      else no_handler
    | _ => no_handler
    end.

(** The report it prints is left out. *)
Definition handleDoubleFault (tptr : Z) : K unit := setThreadState tptr ThreadState_Inactive.

Definition handleFault (tptr : Z) : K unit :=
  status ← sendFaultIPC tptr;
  when (bool_decide (status ≠ EXCEPTION_NONE)) (handleDoubleFault tptr).
