(* ===== verification/Endpoint.v ===== *)
(** Messages through endpoints: what [Transfer] copies from the sender to the
    receiver, and what [sendIPC] and [receiveIPC] do to the threads that wait
    ([ipc_ok]) and to the scheduler ([sched_inv]). *)

From stdpp Require Import functions.
From S2P Require Import Prelude Messages Caps Kernel CSpace CNode Scheduler Wakeup Paging VSpace IOSpace Ipc Waiting Signals.
From S2P Require Import Cancel Transfer.
Import MessageInfo.

(** ** The words of a message *)

Definition reg (regs : gmap Z Z) (r : Z) : Z := default 0 (regs !! r).

(** Word [i] of the message in these registers and this buffer. *)
Definition msg_word (words regs : gmap Z Z) (buf i : Z) : Z :=
  if i <? n_msgRegisters then reg regs (msgRegister i) else default 0 (words !! buf_index buf (i + 1)).

(** How much of a message of [n] words arrives. *)
Definition msg_arrives (sendBuf recvBuf n : Z) : Z :=
  if (recvBuf =? 0) || (sendBuf =? 0) then Z.min n n_msgRegisters else n.

(** Only words of the receiver's message differ. *)
Definition writes_message (words words' : gmap Z Z) (buf n : Z) : Prop :=
  ∀ a, (∀ i, n_msgRegisters ≤ i < n → a ≠ buf_index buf (i + 1)) → words' !! a = words !! a.

Lemma buf_index_inj a b i j :
  (512 | a) → (512 | b) → 0 ≤ i < 128 → 0 ≤ j < 128 → buf_index a i = buf_index b j → i = j.
Proof.
  intros [x ->] [y ->] Hi Hj E. unfold buf_index, wrap32 in E. change word_mod with (2 ^ 32) in E.
  assert (E' : (x * 512 + 4 * i) mod 512 = (y * 512 + 4 * j) mod 512).
  { rewrite <- (Z.mod_mod_divide (x * 512 + 4 * i) (2 ^ 32) 512), <- (Z.mod_mod_divide (y * 512 + 4 * j) (2 ^ 32) 512);
      [by rewrite E|exists (2 ^ 23); lia..]. }
  rewrite !(Z.add_comm (_ * 512)), !Z_mod_plus_full, !Z.mod_small in E'; lia.
Qed.

Lemma tcbs_insert_id k t c : tcbs k !! t = Some c → k <| tcbs ::= <[t := c]> |> = k.
Proof. intros H. destruct k. cbn in *. unfold update. cbn. by rewrite insert_id. Qed.

Lemma tcbs_insert_insert k t a b : k <| tcbs ::= <[t := a]> |> <| tcbs ::= <[t := b]> |> = k <| tcbs ::= <[t := b]> |>.
Proof. destruct k. unfold update. cbn. by rewrite insert_insert_eq. Qed.

Lemma registers_eta c : c <| registers := registers c |> = c.
Proof. by destruct c. Qed.

Lemma ks_words_eta k : k <| mem_words := mem_words k |> = k.
Proof. by destruct k. Qed.

Lemma getRegister_spec k t c r (Q : Z → ks → Prop) :
  tcbs k !! t = Some c → Q (reg (registers c) r) k → wp (getRegister t r) Q k.
Proof. intros Hc HQ. unfold getRegister. by apply wp_bind, (wp_tcb_at _ c). Qed.

(** ** Copying the words *)

Section copy.
Context (k : ks) (s r : Z) (cs c : tcb_t).
Hypotheses (Hs : tcbs k !! s = Some cs) (Hr : tcbs k !! r = Some c) (Hne : s ≠ r).

(** The receiver has other registers. *)
Definition with_regs (regs : gmap Z Z) : ks := k <| tcbs ::= <[r := c <| registers := regs |>]> |>.

Lemma with_regs_id : with_regs (registers c) = k.
Proof. unfold with_regs. rewrite registers_eta. by apply tcbs_insert_id. Qed.

Lemma with_regs_sender regs : tcbs (with_regs regs) !! s = Some cs.
Proof. cbn. by rewrite lookup_insert_ne. Qed.

Lemma with_regs_receiver regs : tcbs (with_regs regs) !! r = Some (c <| registers := regs |>).
Proof. apply lookup_insert_eq. Qed.

Lemma setRegister_with regs q v (Q : unit → ks → Prop) :
  Q tt (with_regs (<[q := v]> regs)) → wp (setRegister r q v) Q (with_regs regs).
Proof.
  intros HQ. eapply wp_tcb_set; [apply with_regs_receiver|]. unfold with_regs, update in *. cbn in *.
  by rewrite insert_insert_eq.
Qed.

(** The registers of a message, in the order of [msgRegisters]. *)
Lemma msgRegister_inj i j : 0 ≤ i < 2 → 0 ≤ j < 2 → msgRegister i = msgRegister j → i = j.
Proof. unfold msgRegister. intros. destruct (Z.eqb_spec i 0), (Z.eqb_spec j 0); lia. Qed.

Lemma copy_registers_spec n : 0 ≤ n ≤ 2 →
  wp (for_range 0 (Z.to_nat n) (λ i,
        v ← getRegister s (msgRegister i); setRegister r (msgRegister i) v))
    (λ _ k', ∃ regs, k' = with_regs regs ∧
       (∀ i, 0 ≤ i < n → reg regs (msgRegister i) = reg (registers cs) (msgRegister i)) ∧
       (∀ q, q ≠ msgRegister 0 → q ≠ msgRegister 1 → regs !! q = registers c !! q)) k.
Proof.
  intros Hn. eapply wp_mono.
  - apply (wp_for_range (λ i k', ∃ regs, k' = with_regs regs ∧
       (∀ j, 0 ≤ j < i → reg regs (msgRegister j) = reg (registers cs) (msgRegister j)) ∧
       (∀ q, q ≠ msgRegister 0 → q ≠ msgRegister 1 → regs !! q = registers c !! q))).
    + exists (registers c). rewrite with_regs_id. split_and!; [done|lia|done].
    + intros i k' Hi (regs & -> & Hc & Hf).
      apply wp_bind, (getRegister_spec _ s cs); [apply with_regs_sender|].
      apply setRegister_with. eexists. split; [done|]. split.
      * intros j Hj. unfold reg at 1. destruct (decide (i = j)) as [<-|Hij]; [by rewrite lookup_insert_eq|].
        rewrite lookup_insert_ne; [apply Hc; lia|]. intros E. apply msgRegister_inj in E; lia.
      * intros q H0 H1. rewrite lookup_insert_ne; [by apply Hf|]. intros <-.
        assert (i = 0 ∨ i = 1) as [-> | ->] by lia; done.
  - intros [] k' H. by rewrite Z.add_0_l, Z2Nat.id in H by lia.
Qed.

Lemma copy_words_spec k1 sb rb n : (512 | sb) → (512 | rb) → 2 ≤ n ≤ 120 →
  wp (for_range 2 (Z.to_nat (n - 2)) (λ i,
        v ← word_at (buf_index sb (i + 1)); word_set (buf_index rb (i + 1)) v))
    (λ _ k', ∃ w, k' = k1 <| mem_words := w |> ∧ writes_message (mem_words k1) w rb n ∧
       (∀ i, 2 ≤ i < n → default 0 (w !! buf_index rb (i + 1)) = default 0 (mem_words k1 !! buf_index sb (i + 1)))) k1.
Proof.
  intros Hsb Hrb Hn. eapply wp_mono.
  - apply (wp_for_range (λ m k', ∃ w, k' = k1 <| mem_words := w |> ∧ writes_message (mem_words k1) w rb m ∧
      (∀ i, 2 ≤ i < m → default 0 (w !! buf_index rb (i + 1)) = default 0 (mem_words k1 !! buf_index sb (i + 1))))).
    + exists (mem_words k1). rewrite ks_words_eta. split_and!; [done|done|lia].
    + intros m k' Hm (w & -> & Hf & Hc). apply wp_bind, wp_gets, wp_modify. cbn.
      exists (<[buf_index rb (m + 1) := default 0 (w !! buf_index sb (m + 1))]> w).
      split; [done|]. split.
      * intros a Ha. rewrite lookup_insert_ne; [apply Hf; intros i Hi; apply Ha; unfold n_msgRegisters in *; lia|].
        intros <-. apply (Ha m); [unfold n_msgRegisters; lia|done].
      * intros i Hi. destruct (decide (i = m)) as [->|Him].
        -- rewrite lookup_insert_eq. cbn. rewrite Hf; [done|]. intros j Hj E. unfold n_msgRegisters in Hj.
           apply buf_index_inj in E; [lia|done|done|lia|lia].
        -- rewrite lookup_insert_ne; [apply Hc; lia|]. intros E. apply buf_index_inj in E; [lia|done|done|lia|lia].
  - intros [] k' H. by replace (2 + Z.of_nat (Z.to_nat (n - 2))) with n in H by lia.
Qed.

(** [copyMRs] moves the words of the message that fit, and writes nothing else. *)
Lemma copyMRs_spec sb rb n : (512 | sb) → (512 | rb) → 0 ≤ n ≤ 120 →
  let m := msg_arrives sb rb n in
  wp (copyMRs s sb r rb n) (λ v k', v = m ∧ ∃ regs w,
    k' = with_regs regs <| mem_words := w |> ∧
    (∀ i, 0 ≤ i < m → msg_word w regs rb i = msg_word (mem_words k) (registers cs) sb i) ∧
    writes_message (mem_words k) w rb m ∧
    (∀ q, q ≠ msgRegister 0 → q ≠ msgRegister 1 → regs !! q = registers c !! q)) k.
Proof.
  intros Hsb Hrb Hn m. unfold copyMRs. apply wp_bind.
  eapply wp_mono; [apply copy_registers_spec; unfold n_msgRegisters; lia|].
  intros [] k1 (regs & -> & Hc & Hf). unfold m, msg_arrives in *. destruct (_ || _).
  - apply wp_ret. split; [done|]. exists regs, (mem_words k). split_and!; [exact (eq_sym (ks_words_eta (with_regs regs)))| |done|done].
    intros i Hi. unfold msg_word. destruct (Z.ltb_spec i n_msgRegisters); [|lia]. apply Hc. lia.
  - apply wp_bind. destruct (Z.le_gt_cases n 2) as [Hle|Hgt].
    + unfold n_msgRegisters. rewrite Z.min_l, Z.sub_diag by lia. apply wp_ret, wp_ret. split; [done|].
      exists regs, (mem_words k). split_and!; [exact (eq_sym (ks_words_eta (with_regs regs)))| |done|done].
      intros i Hi. unfold msg_word, n_msgRegisters in *. destruct (Z.ltb_spec i 2); [|lia]. apply Hc. lia.
    + unfold n_msgRegisters in *. rewrite Z.min_r by lia.
      eapply wp_mono; [apply (copy_words_spec _ sb rb n); [done|done|lia]|].
      intros [] k2 (w & -> & Hw & Hm). apply wp_ret. split; [done|]. exists regs, w. split_and!; [done| |done|done].
      intros i Hi. unfold msg_word, n_msgRegisters. destruct (Z.ltb_spec i 2); [apply Hc; lia|apply Hm; lia].
Qed.
End copy.

(** ** A message without capabilities *)

Lemma wp_lifted {A} (o : outcome A) a (Q : A → ks → Prop) k : o = Done a → Q a k → wp (lift o) Q k.
Proof. by intros ->. Qed.

Lemma messageInfoFromWord_spec w : let t := tag_of w in
  ∃ w', messageInfoFromWord w = Done w' ∧
    tag_of w' = mk_tag (t_label t) (t_capsUnwrapped t) (t_extraCaps t) (Z.min (t_length t) seL4_MsgMaxLength).
Proof.
  intros t. pose proof (tag_of_ok w) as (_ & _ & _ & Hn). unfold messageInfoFromWord.
  change (seL4_MessageInfo_get_length w) with (t_length t). destruct (Z.ltb_spec seL4_MsgMaxLength (t_length t)).
  - rewrite Z.min_r by lia. apply (MessageInfo_set_get w seL4_MsgMaxLength). unfold seL4_MsgMaxLength. lia.
  - rewrite Z.min_l by lia. by exists w.
Qed.

(** The message in [words] and [regs] is what the sender had in [sregs]: the label,
    the words that arrive, no capabilities, and the badge. *)
Record message_received (words0 sregs rregs : gmap Z Z) (sb rb badge : Z) (words regs : gmap Z Z) : Prop := {
  mr_tag : let t := tag_of (reg sregs msgInfoRegister) in
    tag_of (reg regs msgInfoRegister) =
      mk_tag (t_label t) 0 0 (msg_arrives sb rb (Z.min (t_length t) seL4_MsgMaxLength));
  mr_badge : reg regs badgeRegister = badge;
  mr_words : ∀ i, 0 ≤ i < t_length (tag_of (reg regs msgInfoRegister)) →
    msg_word words regs rb i = msg_word words0 sregs sb i;
  mr_mem : writes_message words0 words rb (t_length (tag_of (reg regs msgInfoRegister)));
  mr_regs : ∀ q, q ∉ [msgRegister 0; msgRegister 1; msgInfoRegister; badgeRegister] →
    regs !! q = rregs !! q
}.

(** No capability goes with the message: the sender may not grant, or its tag
    names none. *)
Definition no_caps (canGrant : bool) (cs : tcb_t) : Prop :=
  canGrant = false ∨ t_extraCaps (tag_of (reg (registers cs) msgInfoRegister)) = 0.

Lemma excaps_none (l : list Z) : default 0 (<[0%nat := 0]> l !! 0%nat) = 0.
Proof. by destruct l. Qed.

Lemma no_caps_spec k s cs sb canGrant tag :
  tag_of tag = mk_tag (t_label (tag_of (reg (registers cs) msgInfoRegister)))
    (t_capsUnwrapped (tag_of (reg (registers cs) msgInfoRegister)))
    (t_extraCaps (tag_of (reg (registers cs) msgInfoRegister)))
    (Z.min (t_length (tag_of (reg (registers cs) msgInfoRegister))) seL4_MsgMaxLength) →
  no_caps canGrant cs →
  wp (if canGrant then
        status ← lookupExtraCaps s sb tag;
        caps ← gets current_extra_caps;
        mret (if decide (status ≠ EXCEPTION_NONE) then <[0%nat := 0]> caps else caps)
      else caps ← gets current_extra_caps; mret (<[0%nat := 0]> caps))
    (λ caps k', default 0 (caps !! 0%nat) = 0 ∧ ∃ e, k' = k <| current_extra_caps := e |>) k.
Proof.
  intros Ht H. assert (Eta : k = k <| current_extra_caps := current_extra_caps k |>) by (by destruct k).
  destruct canGrant.
  - destruct H as [|H]; [done|]. assert (He : seL4_MessageInfo_get_extraCaps tag = 0).
    { change (t_extraCaps (tag_of tag) = 0). by rewrite Ht. }
    apply wp_bind. unfold lookupExtraCaps.
    assert (Hset : wp (set_excap 0 0;; mret EXCEPTION_NONE) (λ status k', wp (caps ← gets current_extra_caps;
        mret (if decide (status ≠ EXCEPTION_NONE) then <[0%nat := 0]> caps else caps))
        (λ caps k', default 0 (caps !! 0%nat) = 0 ∧ ∃ e, k' = k <| current_extra_caps := e |>) k') k).
    { apply wp_bind, wp_modify, wp_ret. apply wp_bind, wp_gets, wp_ret. cbn. split; [apply excaps_none|]. by eexists. }
    destruct (sb =? 0); [exact Hset|]. rewrite He. exact Hset.
  - apply wp_bind, wp_gets, wp_ret. split; [apply excaps_none|]. by eexists.
Qed.

Lemma transferCaps_none k tag caps e r rb (Q : Z → ks → Prop) : default 0 (caps !! 0%nat) = 0 →
  (∀ tag', tag_of tag' = mk_tag (t_label (tag_of tag)) 0 0 (t_length (tag_of tag)) → Q tag' k) →
  wp (transferCaps tag caps e r rb) Q k.
Proof.
  intros Hc HQ. unfold transferCaps.
  destruct (MessageInfo_set_get tag 0) as (_ & _ & H1 & _). destruct H1 as (t1 & E1 & T1); [lia|].
  destruct (MessageInfo_set_get t1 0) as (_ & H2 & _). destruct H2 as (t2 & E2 & T2); [lia|].
  apply wp_bind, (wp_lifted _ t1); [done|]. apply wp_bind, (wp_lifted _ t2); [done|].
  rewrite Hc. apply wp_ret, HQ. rewrite T2, T1. done.
Qed.

Section normal.
Context (k : ks) (s r : Z) (cs c : tcb_t).
Hypotheses (Hs : tcbs k !! s = Some cs) (Hr : tcbs k !! r = Some c) (Hne : s ≠ r).

(** The state after a message has arrived. *)
Definition arrived (regs words : gmap Z Z) (e : list Z) : ks :=
  k <| tcbs ::= <[r := c <| registers := regs |>]> |> <| mem_words := words |> <| current_extra_caps := e |>.

Lemma doNormalTransfer_spec sb rb e badge canGrant : (512 | sb) → (512 | rb) → no_caps canGrant cs →
  wp (doNormalTransfer s sb e badge canGrant r rb)
    (λ _ k', ∃ regs words ex, k' = arrived regs words ex ∧
       message_received (mem_words k) (registers cs) (registers c) sb rb badge words regs) k.
Proof.
  intros Hsb Hrb Hg. unfold doNormalTransfer.
  apply wp_bind, (getRegister_spec _ s cs); [done|].
  destruct (messageInfoFromWord_spec (reg (registers cs) msgInfoRegister)) as (tag & E & Ht).
  set (t := tag_of (reg (registers cs) msgInfoRegister)) in *.
  apply wp_bind, (wp_lifted _ tag); [done|]. apply wp_bind.
  eapply wp_mono; [by apply (no_caps_spec k s cs sb canGrant tag)|]. intros caps k1 (Hcaps & ex & Ek1).
  assert (Hs1 : tcbs k1 !! s = Some cs) by (by rewrite Ek1). assert (Hr1 : tcbs k1 !! r = Some c) by (by rewrite Ek1).
  set (n := Z.min (t_length t) seL4_MsgMaxLength) in *.
  assert (En : seL4_MessageInfo_get_length tag = n) by (change (t_length (tag_of tag) = n); by rewrite Ht).
  pose proof (tag_of_ok (reg (registers cs) msgInfoRegister)) as (_ & _ & _ & Hlen). fold t in Hlen.
  assert (Hn : 0 ≤ n ≤ 120) by (unfold n, seL4_MsgMaxLength; lia).
  rewrite En. apply wp_bind.
  eapply wp_mono; [by apply (copyMRs_spec k1 s r cs c Hs1 Hr1 Hne sb rb n)|].
  intros m k2 (-> & regs & words & -> & Hm & Hw & Hf). subst k1.
  set (m := msg_arrives sb rb n) in *.
  assert (Hmn : 0 ≤ m ≤ n) by (unfold m, msg_arrives, n_msgRegisters; destruct (_ || _); lia).
  apply wp_bind, (transferCaps_none _ _ _ _ _ _ _ Hcaps). intros t1 T1.
  destruct (MessageInfo_set_get t1 m) as (_ & _ & _ & H2). destruct H2 as (t2 & E2 & T2); [lia|].
  apply wp_bind, (wp_lifted _ t2); [done|].
  apply wp_bind. eapply wp_tcb_set; [apply lookup_insert_eq|].
  eapply wp_tcb_set; [apply lookup_insert_eq|].
  exists (<[badgeRegister := badge]> (<[msgInfoRegister := t2]> regs)), words, ex.
  split; [unfold arrived, update; cbn; by rewrite !insert_insert_eq|].
  assert (Etag : tag_of (reg (<[badgeRegister := badge]> (<[msgInfoRegister := t2]> regs)) msgInfoRegister)
    = mk_tag (t_label t) 0 0 m).
  { unfold reg. rewrite lookup_insert_ne by done. rewrite lookup_insert_eq. change (default 0 (Some t2)) with t2. by rewrite T2, T1, Ht. }
  split; cbn zeta; rewrite ?Etag; cbn [t_length].
  - done.
  - unfold reg. by rewrite lookup_insert_eq.
  - intros i Hi. rewrite <- Hm by lia. unfold msg_word, reg, msgRegister.
    destruct (i <? n_msgRegisters); [|done].
    destruct (i =? 0); (rewrite lookup_insert_ne by done); by rewrite lookup_insert_ne.
  - done.
  - intros q Hq. rewrite !not_elem_of_cons in Hq. destruct Hq as (H5 & H6 & H4 & H1 & _).
    rewrite lookup_insert_ne by done. rewrite lookup_insert_ne by done. by apply Hf.
Qed.
End normal.

(** ** The buffers of two threads *)

(** A thread's buffer slot, and its buffer, aligned as the kernel requires. *)
Definition buffer_ok (k : ks) (t : Z) (c : tcb_t) : Prop :=
  (512 | tcbIPCBuffer c) ∧
  ∃ s, ctes k !! TCB_PTR_CTE_PTR t tcbBuffer = Some s ∧
    match cte_cap s with
    | cap_frame_cap size _ _ _ _ _ basePtr => (size = X86_SmallPage ∨ size = X86_LargePage) ∧ (4096 | basePtr)
    | _ => True
    end.

(** What [lookupIPCBuffer] finds. *)
Definition ipc_buffer (k : ks) (isReceiver : bool) (t : Z) : Z :=
  match fst (lookupIPCBuffer isReceiver t k) with Done b => b | Halted _ => 0 end.

Lemma divide_wrap x : (512 | x) → (512 | wrap32 x).
Proof.
  intros [y ->]. apply Z.mod_divide; [lia|]. unfold wrap32. change word_mod with (2 ^ 32).
  rewrite Z.mod_mod_divide by (exists (2 ^ 23); lia). apply Z.mod_mul. lia.
Qed.

Lemma divide_land x n : 9 ≤ n < 32 → (512 | x) → (512 | Z.land x (MASK n)).
Proof.
  intros Hn [y ->]. assert (E : MASK n = Z.ones n).
  { unfold MASK, BIT. rewrite Z.shiftl_1_l, (wrap32_small (2 ^ n)), wrap32_small.
    - rewrite Z.ones_equiv. lia.
    - unfold is_word, word_mod. assert (2 ^ n ≤ 2 ^ 31) by (apply Z.pow_le_mono_r; lia). lia.
    - unfold is_word, word_mod. assert (2 ^ n ≤ 2 ^ 31) by (apply Z.pow_le_mono_r; lia). lia. }
  rewrite E, Z.land_ones by lia. apply Z.mod_divide; [lia|].
  rewrite Z.mod_mod_divide; [apply Z.mod_mul; lia|].
  exists (2 ^ (n - 9)). replace 512 with (2 ^ 9) by lia. rewrite <- Z.pow_add_r by lia. f_equal. lia.
Qed.

Lemma lookupIPCBuffer_spec k rcv t c : tcbs k !! t = Some c → buffer_ok k t c →
  lookupIPCBuffer rcv t k = (Done (ipc_buffer k rcv t), k) ∧ (512 | ipc_buffer k rcv t).
Proof.
  intros Hc (Hb & s & Hs & Hcap).
  assert (H : wp (lookupIPCBuffer rcv t) (λ b k', k' = k ∧ (512 | b)) k).
  { unfold lookupIPCBuffer. apply wp_bind, (wp_tcb_at _ c); [done|]. apply wp_bind, (wp_cte_at _ s); [done|].
    destruct (cte_cap s); try (apply wp_ret; split; [done|by exists 0]).
    destruct (_ || _); [|apply wp_ret; split; [done|by exists 0]].
    destruct Hcap as [Hsize Hbase]. apply wp_bind.
    destruct Hsize as [-> | ->]; (apply (wp_lifted _ _ _ _ eq_refl); apply wp_ret; split; [done|]; apply divide_wrap, Z.divide_add_r;
      [eapply Z.divide_trans; [|done]; by exists 8|apply divide_land; [lia|done]]). }
  apply wp_done in H as (b & k' & E & -> & Hd). unfold ipc_buffer. rewrite E. by split.
Qed.

(** It depends on the slot and on the thread's buffer address alone. *)
Lemma ipc_buffer_same k k' rcv t c c' :
  tcbs k !! t = Some c → tcbs k' !! t = Some c' → tcbIPCBuffer c' = tcbIPCBuffer c → ctes k' = ctes k →
  ipc_buffer k' rcv t = ipc_buffer k rcv t.
Proof.
  intros Hc Hc' E Ec. unfold ipc_buffer, lookupIPCBuffer, tcb_at, cte_at, mbind, M_bind. rewrite Hc, Hc', Ec, E.
  destruct (ctes k !! _) as [s|]; [|done]. destruct (cte_cap s); try done. destruct (_ || _); [|done].
  unfold lift. by destruct (pageBitsForSize _).
Qed.

Lemma doIPCTransfer_spec k s r cs c e badge grant :
  tcbs k !! s = Some cs → tcbs k !! r = Some c → s ≠ r → tcbFault cs = seL4_Fault_NullFault →
  no_caps grant cs → buffer_ok k s cs → buffer_ok k r c →
  wp (doIPCTransfer s e badge grant r)
    (λ _ k', ∃ regs words ex, k' = arrived k r c regs words ex ∧
       message_received (mem_words k) (registers cs) (registers c) (ipc_buffer k false s) (ipc_buffer k true r) badge words regs) k.
Proof.
  intros Hs Hr Hne Hf Hg Bs Br. unfold doIPCTransfer.
  destruct (lookupIPCBuffer_spec k true r c Hr Br) as [Er Dr].
  destruct (lookupIPCBuffer_spec k false s cs Hs Bs) as [Es Ds].
  apply wp_bind. unfold wp at 1. rewrite Er. apply wp_bind, (wp_tcb_at _ cs); [done|]. rewrite Hf. cbn [fault_type Z.eqb].
  apply wp_bind. unfold wp at 1. rewrite Es. by apply doNormalTransfer_spec.
Qed.

(** ** Threads the scheduler leaves alone *)

Definition parked (k : ks) (u : Z) : Prop := ¬ queued k u ∧ ksSchedulerAction k ≠ u.

Lemma wp_and {St A} (m : M St A) (Q Q' : A → St → Prop) s :
  wp m Q s → wp m Q' s → wp m (λ a s', Q a s' ∧ Q' a s') s.
Proof. unfold wp. by destruct (m s) as [[a|] s']. Qed.

Lemma enqueue_others k rq t : sched_ok k rq → is_Some (tcbs k !! t) →
  wp (tcbSchedEnqueue t) (λ _ k', (∃ rq', sched_ok k' rq') ∧ only_queues k k' ∧
    ∀ u, u ≠ t → ¬ queued k u → ¬ queued k' u) k.
Proof.
  intros H [c Hc]. eapply wp_mono; [by apply (tcbSchedEnqueue_spec k rq t c)|]. intros [] k' [H' O].
  split_and!; [by eexists|done|]. intros u Hu Hn Hq. apply Hn.
  destruct (queued_in _ _ _ H' Hq) as [p Hp]. apply rq_enqueue_elem in Hp as [Hp|(_ & ? & _)]; [|done].
  by eapply in_queue_queued.
Qed.

(** [possibleSwitchTo] puts no thread but its target and the pending one on a
    queue, and makes none but its target the pending one. *)
Lemma possibleSwitchTo_stopped x k t b :
  sched_inv_but x k → is_Some (tcbs k !! t) →
  wp (possibleSwitchTo t b) (λ _ k', ∀ u, u ≠ t → is_Some (tcbs k !! u) → parked k u → parked k' u) k.
Proof.
  intros I [tc Htc]. pose proof (si_cur _ _ I) as [cc Hcc]. destruct (si_rq _ _ I) as (rq & Hok & _).
  unfold possibleSwitchTo. apply wp_bind, wp_gets. apply wp_bind, wp_gets.
  apply wp_bind, (wp_tcb_at _ cc); [done|]. apply wp_bind, (wp_tcb_at _ tc); [done|]. apply wp_bind, wp_gets.
  destruct (so_tcb _ _ Hok t tc Htc) as (_ & _ & Htd). destruct (si_dom _ _ I) as [Hd _].
  rewrite Htd, Hd. cbn [Z.eqb negb]. apply wp_bind. destruct (_ && _) eqn:E.
  - apply andb_prop in E as [_ Ea]. rewrite Ea. cbn [negb andb when]. apply wp_modify, wp_ret.
    intros u Hu _ [Hq _]. by split.
  - eapply wp_mono; [by apply (enqueue_others k rq)|]. intros [] k1 ((rq1 & Hok1) & O1 & Hn1).
    pose proof (oq_rest _ _ O1) as (_ & _ & _ & _ & Ea & _).
    destruct (negb _ && negb _) eqn:En; cbn [when].
    + apply andb_prop in En as [Er Ec]. unfold rescheduleRequired. apply wp_bind, wp_gets. rewrite Ea, Er, Ec. cbn [andb when].
      apply wp_bind. eapply wp_mono; [apply (enqueue_others k1 rq1); [done|]|].
      { destruct (si_action _ _ I) as [E'|[E'|(ca & Hca & _)]]; [by rewrite E' in Er|by rewrite E' in Ec|].
        by destruct (st_field tsType _ _ _ _ ltac:(done) (only_queues_threads _ _ O1) Hca) as (c' & -> & _). }
      intros [] k2 (_ & O2 & Hn2). apply wp_modify. intros u Hu [c Hc] [Hq Hau]. split.
      * apply Hn2; [done|by apply Hn1].
      * cbn. intros <-. by apply (si_ptr _ _ I) in Hc.
    + apply wp_ret. intros u Hu _ [Hq Hau]. split; [by apply Hn1|by rewrite Ea].
Qed.

(** ** Waking the other side *)

Lemma wake_thread k wq t c b :
  sched_inv k → ipc_ok_but [t] k wq → tcbs k !! t = Some c →
  isRunnable_state (tsType c) = false → t ≠ ksIdleThread k →
  wp (setThreadState t ThreadState_Running;; possibleSwitchTo t b)
    (λ _ k', sched_inv k' ∧ ipc_ok k' wq ∧ (t = ksSchedulerAction k' ∨ queued k' t) ∧
       same_threads (with_state t c ThreadState_Running k) k' ∧
       ∀ u, u ≠ t → is_Some (tcbs k !! u) → parked k u → parked k' u) k.
Proof.
  intros I H Hc Hn Hid. apply wp_bind, (setThreadState_runs k t c); [done|done|].
  destruct (blocked_set_inv k t c ThreadState_Running I Hc Hn Hid) as [I1 _].
  pose proof (with_state_lookup t c ThreadState_Running k) as Hc1.
  eapply wp_mono; [apply wp_and; [apply possibleSwitchTo_inv; [exact I1|by eexists]|]|].
  { apply (possibleSwitchTo_stopped (Some t)); [exact I1|by eexists]. }
  intros [] k' ((I' & S' & Hq) & Hst). split_and!; try done.
  - eapply same_threads_ipc; [exact S'|]. eapply (ipc_ok_awake [] _ t); [exact Hc1|done|].
    apply (ipc_ok_free [t] k t c); [done|set_solver|done].
  - intros u Hu Hsu [Hnq Hna]. apply Hst; [done|cbn; by rewrite lookup_insert_ne|]. split; [|done].
    intros Hq'. apply Hnq. by apply (set_state_queued k t c ThreadState_Running u Hc).
Qed.

(** A message changes nothing the scheduler or the waiting queues read. *)
Lemma arrived_inv X k r c regs words ex wq : tcbs k !! r = Some c →
  sched_inv k → ipc_ok_but X k wq →
  sched_inv (arrived k r c regs words ex) ∧ ipc_ok_but X (arrived k r c regs words ex) wq.
Proof.
  intros Hc I H. split.
  - apply (sched_same_inv None k); [|done].
    assert (S : sched_same k (k <| tcbs ::= <[r := c <| registers := regs |>]> |>)) by (by apply (sched_same_set k r c)).
    split; [exact (proj1 S)|exact (proj2 S)].
  - apply (ipc_ok_same X (k <| tcbs ::= <[r := c <| registers := regs |>]> |>)); [done|done|done|].
    by apply (ipc_ok_set X k r c).
Qed.

(** The thread [d], which was [cd], runs with the message of the thread [s],
    which was [cs]. *)
Definition delivered (k k' : ks) (s d badge : Z) (cs cd : tcb_t) : Prop :=
  (d = ksSchedulerAction k' ∨ queued k' d) ∧
  ∃ regs, thread_core <$> tcbs k' !! d =
            Some (thread_core (cd <| tsType := ThreadState_Running |> <| registers := regs |>)) ∧
    message_received (mem_words k) (registers cs) (registers cd)
      (ipc_buffer k false s) (ipc_buffer k true d) badge (mem_words k') regs.

(** The fields of a thread its waiting links do not include. *)
Lemma links_thread k k' t c : same_but_links ep_links (tcbs k) (tcbs k') → tcbs k !! t = Some c →
  ∃ c', tcbs k' !! t = Some c' ∧ erase ep_links c' = erase ep_links c.
Proof.
  intros Hs Hc. destruct (same_but_lookup ep_links (tcbs k) (tcbs k') t Hs) as [c' Hc']; [by rewrite Hc|].
  destruct (same_but_field ep_links (erase ep_links) _ _ t c' ltac:(done) Hs Hc') as (c0 & Hc0 & E).
  exists c'. split; [done|]. congruence.
Qed.

Lemma erased_fields c c' : erase ep_links c' = erase ep_links c →
  thread_core c' = thread_core c ∧ tsType c' = tsType c ∧ registers c' = registers c ∧
  tcbFault c' = tcbFault c ∧ tcbIPCBuffer c' = tcbIPCBuffer c ∧
  blockingIPCIsCall c' = blockingIPCIsCall c ∧ blockingIPCBadge c' = blockingIPCBadge c ∧
  blockingIPCCanGrant c' = blockingIPCCanGrant c.
Proof.
  intros E. assert (F : ∀ {B} (f : tcb_t → B), (∀ x, f (erase ep_links x) = f x) → f c' = f c)
    by (intros B f Hf; by rewrite <- (Hf c'), E, Hf).
  split_and!; by apply F.
Qed.

(** ** Sending to a thread that waits *)

(** The first receiver leaves the queue, gets the message and runs; the code
    goes on with [rest]. *)
Lemma send_to_waiting k wq e x t c d cd l badge grant (rest : K unit) (Q : unit → ks → Prop) :
  sched_inv k → ipc_ok k wq → eps k !! e = Some x → wq e = d :: l → tcbs k !! t = Some c →
  tcbs k !! d = Some cd → t ≠ d → tcbFault c = seL4_Fault_NullFault → no_caps grant c →
  buffer_ok k t c → buffer_ok k d cd →
  (∀ k', sched_inv k' → ipc_ok k' (<[e := l]> wq) → delivered k k' t d badge c cd → threads_but [d] k k' →
     (∀ u, u ≠ d → is_Some (tcbs k !! u) → parked k u → parked k' u) → wp rest Q k') →
  wp (q ← tcbEPDequeue d (epQueue x); ep_ptr_set_queue e q;;
      when (q_head q =? 0) (set_ep_state e EPState_Idle);;
      doIPCTransfer t e badge grant d;; setThreadState d ThreadState_Running;; attemptSwitchTo d;; rest) Q k.
Proof.
  intros I H Hx Hq Hc Hd Htd Hf Hg Bt Bd Hrest. assert (Hin : d ∈ wq e) by (rewrite Hq; set_solver).
  destruct (io_in _ _ _ H _ _ Hin) as (q0 & st & cd' & Ho & Hcd' & _ & Hst).
  assert (cd' = cd) as -> by congruence. apply waits_waiting in Ho. rewrite <- Hst in Ho.
  apply waiting_not_runnable in Ho. pose proof (waiting_not_idle _ _ _ _ _ I H Hin) as Hid.
  apply (dequeue_ep k wq e x [] d l); [done|done|done|]. intros h q k1 H1 Hs1. cbn [app] in *.
  destruct (links_thread k k1 t c Hs1 Hc) as (c1 & Hc1 & Et). destruct (links_thread k k1 d cd Hs1 Hd) as (d1 & Hd1 & Ed).
  apply erased_fields in Et as (_ & _ & Etr & Etf & Etb & _). apply erased_fields in Ed as (Edc & Eds & Edr & _ & Edb & _).
  assert (I1 : sched_inv k1) by (apply (sched_same_inv None k); [by apply sched_same_links|done]).
  assert (S1 : threads_but [] k k1) by (by apply links_but).
  apply wp_bind. eapply wp_mono; [apply (doIPCTransfer_spec k1 t d c1 d1); try done|].
  { by rewrite Etf. } { unfold no_caps. by rewrite Etr. }
  { destruct Bt as [B1 B2]. split; [by rewrite Etb|exact B2]. }
  { destruct Bd as [B1 B2]. split; [by rewrite Edb|exact B2]. }
  intros [] k2 (regs & words & ex & -> & Hmsg).
  rewrite (ipc_buffer_same k k1 _ t c c1), (ipc_buffer_same k k1 _ d cd d1), Etr, Edr in Hmsg by done.
  destruct (arrived_inv [d] k1 d d1 regs words ex _ Hd1 I1 H1) as [I2 H2]. set (k2 := arrived k1 d d1 regs words ex) in *.
  assert (Hd2 : tcbs k2 !! d = Some (d1 <| registers := regs |>)) by apply lookup_insert_eq.
  apply wp_seq. eapply wp_mono; [apply (wake_thread k2 (<[e := l]> wq) d _ true I2 H2 Hd2); [by cbn; rewrite Eds|done]|].
  intros [] k3 (I3 & H3 & Hq3 & S3 & St3). apply Hrest; try done.
  - split; [done|]. exists regs. pose proof S3 as (_ & Eo & _). injection Eo as _ _ _ _ _ _ _ _ _ Ew _ _. split.
    + rewrite (same_threads_core _ k3 d _ S3 (with_state_lookup _ _ _ _)). f_equal.
      change (thread_core d1 <| registers := regs |> <| tsType := ThreadState_Running |> =
        thread_core cd <| tsType := ThreadState_Running |> <| registers := regs |>). by rewrite Edc.
    + by rewrite Ew.
  - eapply threads_but_trans; [by eapply (threads_but_mono []); [set_solver|]|].
    eapply threads_but_trans; [|by apply (same_threads_but [d] _ _ S3)].
    split_and!; try done. intros u Hu. cbn. rewrite !lookup_insert_ne; [done|set_solver..].
  - intros u Hu [cu Hcu] [Hnq Hna]. destruct (links_thread k k1 u cu Hs1 Hcu) as (u1 & Hu1 & Eu).
    apply St3; [done|cbn; by rewrite lookup_insert_ne|]. split; [|done]. intros (u2 & Hu2 & Hq2).
    cbn in Hu2. rewrite lookup_insert_ne in Hu2 by done. apply Hnq. exists cu. split; [done|].
    assert (Eq : tcbQueued (erase ep_links u1) = tcbQueued (erase ep_links cu)) by (by rewrite Eu).
    change (tcbQueued u1 = tcbQueued cu) in Eq. change (h !! u = Some u1) in Hu1. congruence.
Qed.

(** ** Blocking on an endpoint *)

(** The thread [c] blocked to send on [e]. *)
Definition as_sender (c : tcb_t) (e badge : Z) (grant call : bool) : tcb_t :=
  c <| tsType := ThreadState_BlockedOnSend |> <| blockingObject := e |>
    <| blockingIPCBadge := badge mod 2 ^ 28 |> <| blockingIPCCanGrant := grant |> <| blockingIPCIsCall := call |>.

(** What blocking leaves: [t], now [c1], is last in the queue of [e]. *)
Record blocked_at (k k' : ks) (wq : Z → list Z) (t e : Z) (c1 : tcb_t) : Prop := {
  ba_ipc : ipc_ok k' (<[e := wq e ++ [t]]> wq);
  ba_stops : ¬ runnable k' t;
  ba_thread : thread_core <$> tcbs k' !! t = Some (thread_core c1);
  ba_others : threads_but [t] k k';
  ba_leaves : t = ksCurThread k → ksSchedulerAction k' ≠ SchedulerAction_ResumeCurrentThread
}.

Section block.
Context (k : ks) (wq : Z → list Z) (e t : Z) (x : endpoint_t) (c : tcb_t).
Hypotheses (I : sched_inv k) (H : ipc_ok k wq) (Hx : eps k !! e = Some x) (Hc : tcbs k !! t = Some c).
Hypotheses (Hrun : runnable k t) (Hid : t ≠ ksIdleThread k) (Hst : parked k t).

Lemma running_not_waiting : waiting_state (tsType c) = false ∧ t ≠ 0.
Proof.
  split; [|destruct (si_rq _ _ I) as (rq & Hok & _); by destruct (so_tcb _ _ Hok _ _ Hc)].
  apply (runnable_state k t c Hc) in Hrun. by destruct (tsType c).
Qed.

(** The end of both blocking branches. *)
Lemma block_on_ep c1 st : epState x = EPState_Idle ∨ epState x = st →
  ep_waits st = Some (tsType c1) → blockingObject c1 = e →
  sched_view c1 = sched_view (c <| tsType := tsType c1 |>) →
  wp (scheduleTCB t;; q ← ep_ptr_get_queue e; q ← tcbEPAppend t q; set_ep_state e st;; ep_ptr_set_queue e q)
    (λ _ k', sched_inv k' ∧ blocked_at k k' wq t e c1) (k <| tcbs ::= <[t := c1]> |>).
Proof.
  intros Hs Hw Hb Ev. destruct running_not_waiting as [Hnw Ht0]. destruct Hst as [Hnq Hna].
  assert (Hnr : isRunnable_state (tsType c1) = false) by (destruct st; injection Hw as <- || done; done).
  apply wp_bind. eapply wp_mono; [by apply (block_ready k wq t c c1)|].
  intros [] k2 (I2 & Hn2 & H2 & Hc2 & En2 & Ee2 & B2 & Ha2). unfold ep_ptr_get_queue.
  apply wp_bind, wp_bind, (wp_ep_at _ x); [by rewrite Ee2|]. apply wp_ret.
  eapply wp_mono; [apply (enqueue_ep k2 wq e x t c1 st); try done; by rewrite Ee2|].
  intros [] k3 (h & q & E3 & H3 & Hs3). assert (Et3 : tcbs k3 = h) by (by rewrite E3). rewrite <- Et3 in Hs3.
  destruct (block_done k k2 k3 t c1 B2 Hs3) as (I3 & Hn3 & Hc3 & B3); try done; try (by rewrite E3).
  split; [done|]. split; try done. by rewrite E3.
Qed.

Lemma block_sender badge grant call : epState x ≠ EPState_Recv →
  wp (tcb_set t (λ c, c <| tsType := ThreadState_BlockedOnSend |>);;
      tcb_set t (λ c, c <| blockingObject := e |>);;
      tcb_set t (λ c, c <| blockingIPCBadge := badge mod 2 ^ 28 |>);;
      tcb_set t (λ c, c <| blockingIPCCanGrant := grant |>);;
      tcb_set t (λ c, c <| blockingIPCIsCall := call |>);;
      scheduleTCB t;; q ← ep_ptr_get_queue e; q ← tcbEPAppend t q;
      set_ep_state e EPState_Send;; ep_ptr_set_queue e q)
    (λ _ k', sched_inv k' ∧ blocked_at k k' wq t e (as_sender c e badge grant call)) k.
Proof.
  intros Hs. apply wp_bind, (wp_tcb_set _ _ c); [done|]. do 4 (apply wp_bind; eapply wp_tcb_set; [apply lookup_insert_eq|]).
  assert (Hgo := block_on_ep (as_sender c e badge grant call) EPState_Send).
  rewrite !tcbs_insert_insert. apply Hgo; try done. destruct (epState x); by auto.
Qed.

Lemma block_receiver : epState x ≠ EPState_Send →
  wp (tcb_set t (λ c, c <| tsType := ThreadState_BlockedOnReceive |>);;
      tcb_set t (λ c, c <| blockingObject := e |>);;
      scheduleTCB t;; q ← ep_ptr_get_queue e; q ← tcbEPAppend t q;
      set_ep_state e EPState_Recv;; ep_ptr_set_queue e q)
    (λ _ k', sched_inv k' ∧
       blocked_at k k' wq t e (c <| tsType := ThreadState_BlockedOnReceive |> <| blockingObject := e |>)) k.
Proof.
  intros Hs. apply wp_bind, (wp_tcb_set _ _ c); [done|]. apply wp_bind. eapply wp_tcb_set; [apply lookup_insert_eq|].
  assert (Hgo := block_on_ep (c <| tsType := ThreadState_BlockedOnReceive |> <| blockingObject := e |>) EPState_Recv).
  rewrite !tcbs_insert_insert. apply Hgo; try done. destruct (epState x); by auto.
Qed.
End block.

(** ** [sendIPC] *)

(** The message of a thread that is not at fault, without capabilities. *)
Definition plain_message (k : ks) (s : Z) (cs : tcb_t) (grant : bool) : Prop :=
  tcbFault cs = seL4_Fault_NullFault ∧ no_caps grant cs ∧ buffer_ok k s cs.

(** The first thread in the queue of an endpoint that is not idle. *)
Lemma ep_head X k wq e x : ipc_ok_but X k wq → eps k !! e = Some x → epState x ≠ EPState_Idle →
  ∃ d l cd, wq e = d :: l ∧ q_head (epQueue x) = d ∧ d ≠ 0 ∧ tcbs k !! d = Some cd ∧
    ep_waits (epState x) = Some (tsType cd).
Proof.
  intros H Hx Hs. pose proof (wait_obj_ep _ _ _ Hx) as Ho. destruct (io_queue _ _ _ H _ _ _ Ho) as [Hd Hw].
  destruct (wq e) as [|d l] eqn:Eq; [exfalso; destruct Hw as [_ Hw]; specialize (Hw eq_refl); by destruct (epState x)|].
  assert (Hin : d ∈ wq e) by (rewrite Eq; set_solver).
  destruct (io_in _ _ _ H _ _ Hin) as (q & st & cd & Ho' & Hcd & _ & Hst).
  exists d, l, cd. pose proof (dlist_nonzero _ _ _ _ Hd) as Hz. destruct Hd as (_ & _ & Hh & _).
  split_and!; [done|done|set_solver|done|]. rewrite Ho in Ho'. injection Ho' as _ ->. by rewrite Hst.
Qed.

Lemma sendIPC_spec k wq e x t c blocking badge grant :
  sched_inv k → ipc_ok k wq → eps k !! e = Some x → tcbs k !! t = Some c →
  runnable k t → t ≠ ksIdleThread k → parked k t → plain_message k t c grant →
  (∀ d cd, head (wq e) = Some d → tcbs k !! d = Some cd → buffer_ok k d cd) →
  wp (sendIPC blocking false badge grant t e) (λ _ k', sched_inv k' ∧
    match epState x with
    | EPState_Recv => ∃ d l cd, wq e = d :: l ∧ tcbs k !! d = Some cd ∧
        ipc_ok k' (<[e := l]> wq) ∧ delivered k k' t d badge c cd ∧ threads_but [d] k k' ∧ parked k' t
    | _ => if blocking then blocked_at k k' wq t e (as_sender c e badge grant false) else k' = k
    end) k.
Proof.
  intros I H Hx Hc Hrun Hid Hst (Hf & Hg & Hb) Hbuf. unfold sendIPC. apply wp_bind, (wp_ep_at _ x); [done|].
  destruct (running_not_waiting k t c I Hc Hrun) as [Hnw _].
  destruct (epState x) eqn:Es.
  1,2: destruct blocking; [|by apply wp_ret]; apply (block_sender k wq e t x c); try done; congruence.
  destruct (ep_head [] k wq e x H Hx ltac:(by rewrite Es)) as (d & l & cd & Hq & Hh & Hd0 & Hd & Hw).
  apply wp_bind. unfold ep_ptr_get_queue. apply wp_bind, (wp_ep_at _ x); [done|]. apply wp_ret. rewrite Hh.
  apply wp_bind, wp_assert; [by destruct (Z.eqb_spec d 0)|].
  assert (Htd : t ≠ d).
  { intros <-. assert (cd = c) as -> by congruence. rewrite Es in Hw. by injection Hw as Hw; rewrite <- Hw in Hnw. }
  apply (send_to_waiting k wq e x t c d cd l); try done.
  { apply Hbuf; [by rewrite Hq|done]. }
  intros k' I' H' D' B' St'.
  assert (Hc' : thread_core <$> tcbs k' !! t = Some (thread_core c)).
  { destruct B' as [B' _]. rewrite (B' t ltac:(set_solver)). by rewrite Hc. }
  destruct (core_field tcbFault _ _ ltac:(done) Hc') as (c' & Hc1 & Ef).
  apply wp_bind, (wp_tcb_at _ c'); [done|]. rewrite Ef, Hf. apply wp_ret. split; [done|].
  exists d, l, cd. split_and!; try done; by apply St'.
Qed.

(** ** Calling *)

(** The running thread stops without waiting in a queue. *)
Lemma leave_cpu k wq t c st :
  sched_inv k → ipc_ok k wq → tcbs k !! t = Some c → waiting_state (tsType c) = false →
  t ≠ ksIdleThread k → parked k t → isRunnable_state st = false → waiting_state st = false →
  let k1 := with_state t c st k in
  wp (setThreadState t st) (λ _ k', sched_inv k' ∧ ipc_ok k' wq ∧ ¬ runnable k' t ∧
    (k' = k1 ∨ ksSchedulerAction k = SchedulerAction_ResumeCurrentThread ∧
       k' = k1 <| ksSchedulerAction := SchedulerAction_ChooseNewThread |>) ∧
    (t = ksCurThread k → ksSchedulerAction k' ≠ SchedulerAction_ResumeCurrentThread)) k.
Proof.
  intros I H Hc Hw Hid [Hnq Hna] Hst Hws k1. unfold setThreadState. apply wp_bind, (wp_tcb_set _ _ c); [done|].
  assert (H1 : ipc_ok k1 wq).
  { eapply (ipc_ok_awake [] k1 t); [apply with_state_lookup|done|].
    apply (ipc_ok_free [t] k t c); [done|set_solver|]. by apply (ipc_ok_except [] k t c). }
  eapply wp_mono; [by apply (block_thread k t c (c <| tsType := st |>))|]. intros [] k' (I' & Hn & Hk & Ha).
  split_and!; try done. destruct Hk as [-> |[_ ->]]; [done|]. by apply (ipc_ok_same [] k1).
Qed.

(** The slots a call uses: the caller's master reply capability and the empty
    slot of the callee. *)
Definition reply_slots (h : gmap Z cte_t) (s r : Z) : Prop :=
  (∃ m, h !! TCB_PTR_CTE_PTR s tcbReply = Some m ∧ cte_cap m = cap_reply_cap true s) ∧
  (∃ d, h !! TCB_PTR_CTE_PTR r tcbCaller = Some d ∧ is_null (cte_cap d) = true).

(** The callee holds the right to reply to [s], derived from the master; no
    other slot has changed. *)
Definition reply_given (h h' : gmap Z cte_t) (chains : list (list Z)) (s r : Z) : Prop :=
  let m := TCB_PTR_CTE_PTR s tcbReply in
  let d := TCB_PTR_CTE_PTR r tcbCaller in
  mdb_ok h' (insert_after m d <$> chains) ∧
  slot_core <$> h' !! d = Some (mk_cte (cap_reply_cap false s) (mdb_node_new 0 false false 0)) ∧
  ∀ u, u ≠ d → slot_core <$> h' !! u = slot_core <$> h !! u.

Lemma reply_cap_spec k chains s r :
  mdb_ok (ctes k) chains → reply_slots (ctes k) s r →
  wp (let replySlot := TCB_PTR_CTE_PTR s tcbReply in
      m ← cte_at replySlot;
      assert (match cte_cap m with cap_reply_cap master t => master && (t =? s) | _ => false end);;
      let callerSlot := TCB_PTR_CTE_PTR r tcbCaller in
      c ← cte_at callerSlot;
      assert (is_null (cte_cap c));;
      cteInsert (cap_reply_cap false s) replySlot callerSlot)
    (λ _ k', ∃ h, k' = k <| ctes := h |> ∧ reply_given (ctes k) h chains s r) k.
Proof.
  intros H [(m & Hm & Em) (d & Hd & Ed)]. cbn zeta. apply wp_bind, (wp_cte_at _ m); [done|]. rewrite Em.
  apply wp_bind, wp_assert; [by rewrite Z.eqb_refl|]. apply wp_bind, (wp_cte_at _ d); [done|].
  apply wp_bind, wp_assert; [done|].
  eapply wp_mono; [apply (cteInsert_spec k chains _ _ _ m d false H Hm Hd); by rewrite ?Em|].
  intros [] k' (h & -> & H' & Hnew & Hsrc & Hoth). exists h. split; [done|]. split_and!; [done|done|].
  intros u Hu. destruct (decide (u = TCB_PTR_CTE_PTR s tcbReply)) as [->|Hne]; [|by apply Hoth].
  rewrite Hsrc, Hm, Em. cbn. f_equal. destruct m; cbn in *. by subst.
Qed.

Lemma setupCallerCap_spec k wq chains t c d :
  sched_inv k → ipc_ok k wq → tcbs k !! t = Some c → waiting_state (tsType c) = false →
  t ≠ ksIdleThread k → parked k t → mdb_ok (ctes k) chains → reply_slots (ctes k) t d →
  wp (setupCallerCap t d) (λ _ k', sched_inv k' ∧ ipc_ok k' wq ∧ ¬ runnable k' t ∧
    reply_given (ctes k) (ctes k') chains t d ∧
    tcbs k' = <[t := c <| tsType := ThreadState_BlockedOnReply |>]> (tcbs k) ∧ mem_words k' = mem_words k ∧
    (ksSchedulerAction k ≠ SchedulerAction_ResumeCurrentThread → ksSchedulerAction k' = ksSchedulerAction k) ∧
    (t = ksCurThread k → ksSchedulerAction k' ≠ SchedulerAction_ResumeCurrentThread)) k.
Proof.
  intros I H Hc Hw Hid Hst Hm Hr. unfold setupCallerCap. apply wp_bind.
  eapply wp_mono; [by apply (leave_cpu k wq t c)|]. intros [] k1 (I1 & H1 & Hn1 & Hk & Ha).
  assert (E : ctes k1 = ctes k ∧ tcbs k1 = <[t := c <| tsType := ThreadState_BlockedOnReply |>]> (tcbs k) ∧
    mem_words k1 = mem_words k) by (destruct Hk as [-> |[_ ->]]; done). destruct E as (Ec & Et & Ew).
  rewrite <- Ec in Hm, Hr.
  eapply wp_mono; [by apply (reply_cap_spec k1 chains t d)|]. intros [] k2 (h & -> & Hg).
  split_and!; try done.
  - by apply (sched_same_inv None k1).
  - by apply (ipc_ok_same [] k1).
  - by rewrite <- Ec.
  - intros Hna. destruct Hk as [-> |[? _]]; done.
Qed.

(** A caller without the right to grant its reply capability stops for good:
    nobody can answer it. *)
Definition caller_state (grant : bool) : thread_state :=
  if grant then ThreadState_BlockedOnReply else ThreadState_Inactive.
Definition reply_offered (grant : bool) (h h' : gmap Z cte_t) (chains : list (list Z)) (s r : Z) : Prop :=
  if grant then reply_given h h' chains s r else h' = h.

(** What waiting for the reply leaves of the caller [t], which was [c]. *)
Record waits_reply (k k' : ks) (chains : list (list Z)) (t d : Z) (c : tcb_t) (grant : bool) : Prop := {
  wr_stops : ¬ runnable k' t;
  wr_slots : reply_offered grant (ctes k) (ctes k') chains t d;
  wr_tcbs : tcbs k' = <[t := c <| tsType := caller_state grant |>]> (tcbs k);
  wr_mem : mem_words k' = mem_words k;
  wr_action : ksSchedulerAction k ≠ SchedulerAction_ResumeCurrentThread → ksSchedulerAction k' = ksSchedulerAction k
}.

(** The running thread waits. *)
Lemma wait_for_reply_spec k wq chains t c d grant :
  sched_inv k → ipc_ok k wq → tcbs k !! t = Some c → waiting_state (tsType c) = false →
  t ≠ ksIdleThread k → parked k t → mdb_ok (ctes k) chains → (grant = true → reply_slots (ctes k) t d) →
  wp (wait_for_reply grant t d) (λ _ k', sched_inv k' ∧ ipc_ok k' wq ∧ waits_reply k k' chains t d c grant) k.
Proof.
  intros I H Hc Hw Hid Hst Hm Hr. destruct grant; cbn [wait_for_reply].
  - eapply wp_mono; [apply (setupCallerCap_spec k wq chains t c d); auto|].
    intros [] k' (? & ? & ? & ? & ? & ? & ? & _). by split_and!.
  - eapply wp_mono; [by apply (leave_cpu k wq t c)|]. intros [] k' (I' & H' & Hn & Hk & _). split_and!; [done|done|].
    destruct Hk as [-> |[Ea ->]]; split; try done.
Qed.

(** A sender that has left its queue waits. *)
Lemma blocked_for_reply_spec k wq chains s cs t grant :
  sched_inv k → ipc_ok_but [s] k wq → tcbs k !! s = Some cs → isRunnable_state (tsType cs) = false →
  s ≠ ksIdleThread k → mdb_ok (ctes k) chains → (grant = true → reply_slots (ctes k) s t) →
  wp (wait_for_reply grant s t) (λ _ k', sched_inv k' ∧ ipc_ok k' wq ∧ waits_reply k k' chains s t cs grant) k.
Proof.
  intros I H Hc Hn Hid Hm Hr. set (k1 := with_state s cs (caller_state grant) k).
  assert (Hk1 : sched_inv k1 ∧ ipc_ok k1 wq ∧ ¬ runnable k1 s).
  { split_and!.
    - apply (blocked_set_inv k s cs (caller_state grant)); try done. by destruct grant.
    - eapply (ipc_ok_awake [] k1 s); [apply with_state_lookup|by destruct grant|].
      apply (ipc_ok_free [s] k s cs); [done|set_solver|done].
    - rewrite (runnable_state k1 s _ (with_state_lookup _ _ _ _)). by destruct grant. }
  destruct Hk1 as (I1 & H1 & Hn1). destruct grant; cbn [wait_for_reply].
  - unfold setupCallerCap. apply wp_bind, (setThreadState_blocked k s cs); [done|done|done|done|].
    change (mdb_ok (ctes k1) chains) in Hm. specialize (Hr eq_refl). change (reply_slots (ctes k1) s t) in Hr.
    eapply wp_mono; [by apply (reply_cap_spec k1 chains s t)|]. intros [] k2 (h & -> & Hg).
    split_and!; [by apply (sched_same_inv None k1)|by apply (ipc_ok_same [] k1)|by split].
  - apply (setThreadState_blocked k s cs); [done|done|done|done|]. by split_and!.
Qed.

Lemma call_spec k wq chains e x t c blocking badge grant :
  sched_inv k → ipc_ok k wq → eps k !! e = Some x → tcbs k !! t = Some c →
  runnable k t → t ≠ ksIdleThread k → parked k t → plain_message k t c grant → mdb_ok (ctes k) chains →
  (∀ d cd, head (wq e) = Some d → tcbs k !! d = Some cd →
     buffer_ok k d cd ∧ (grant = true → reply_slots (ctes k) t d)) →
  wp (sendIPC blocking true badge grant t e) (λ _ k', sched_inv k' ∧
    match epState x with
    | EPState_Recv => ∃ d l cd, wq e = d :: l ∧ tcbs k !! d = Some cd ∧
        ipc_ok k' (<[e := l]> wq) ∧ delivered k k' t d badge c cd ∧ ¬ runnable k' t ∧
        thread_core <$> tcbs k' !! t = Some (thread_core (c <| tsType := caller_state grant |>)) ∧
        reply_offered grant (ctes k) (ctes k') chains t d ∧
        ∀ u, u ≠ t → u ≠ d → thread_core <$> tcbs k' !! u = thread_core <$> tcbs k !! u
    | _ => if blocking then blocked_at k k' wq t e (as_sender c e badge grant true) else k' = k
    end) k.
Proof.
  intros I H Hx Hc Hrun Hid Hst (Hf & Hg & Hb) Hm Hbuf. unfold sendIPC. apply wp_bind, (wp_ep_at _ x); [done|].
  destruct (running_not_waiting k t c I Hc Hrun) as [Hnw _].
  destruct (epState x) eqn:Es.
  1,2: destruct blocking; [|by apply wp_ret]; apply (block_sender k wq e t x c); try done; congruence.
  destruct (ep_head [] k wq e x H Hx ltac:(by rewrite Es)) as (d & l & cd & Hq & Hh & Hd0 & Hd & Hw).
  destruct (Hbuf d cd) as [Bd Sd]; [by rewrite Hq|done|].
  apply wp_bind. unfold ep_ptr_get_queue. apply wp_bind, (wp_ep_at _ x); [done|]. apply wp_ret. rewrite Hh.
  apply wp_bind, wp_assert; [by destruct (Z.eqb_spec d 0)|].
  assert (Htd : t ≠ d).
  { intros <-. assert (cd = c) as -> by congruence. rewrite Es in Hw. by injection Hw as Hw; rewrite <- Hw in Hnw. }
  apply (send_to_waiting k wq e x t c d cd l); try done. intros k1 I1 H1 D1 B1 St1.
  pose proof B1 as (Bt & Ec1 & _ & Ecu & Eid). specialize (Bt t ltac:(set_solver)) as Hc1. rewrite Hc in Hc1.
  destruct (core_field (λ c, (thread_core c, tsType c)) _ _ ltac:(done) Hc1) as (c1 & Hc1' & E1).
  apply pair_equal_spec in E1 as [Ecore Ets].
  apply wp_bind, (wp_tcb_at _ c1); [done|]. cbn [orb when].
  eapply wp_mono; [apply (wait_for_reply_spec k1 (<[e := l]> wq) chains t c1 d grant); try done|].
  { by rewrite Ets. } { by rewrite Eid. } { by apply St1. } { by rewrite Ec1. } { by rewrite Ec1. }
  intros [] k2 (I2 & H2 & [Hn2 G2 Et2 Ew2 Ha2]). split; [done|]. rewrite <- Ec1.
  destruct D1 as (Hqd & regs & Hdr & Hmsg). exists d, l, cd. split_and!; try done.
  - split.
    + destruct Hqd as [E|(c2 & Hc2 & Hq2)].
      * left. rewrite Ha2; [done|]. rewrite <- E. done.
      * right. exists c2. by rewrite Et2, lookup_insert_ne.
    + exists regs. rewrite Et2, lookup_insert_ne, Ew2 by done. by split.
  - rewrite Et2, lookup_insert_eq. cbn [fmap option_fmap option_map]. f_equal.
    change (thread_core c1 <| tsType := caller_state grant |> = thread_core c <| tsType := caller_state grant |>). by rewrite Ecore.
  - intros u Hut Hud. rewrite Et2, lookup_insert_ne by done. destruct B1 as [Bu _]. apply Bu. set_solver.
Qed.

(** ** [receiveIPC] *)

(** The bound notification of a thread, if it is active. *)
Definition bound_signal (k : ks) (c : tcb_t) : option notification_t :=
  if tcbBoundNotification c =? 0 then None
  else x ← ntfns k !! tcbBoundNotification c;
       match ntfnState x with NtfnState_Active => Some x | _ => None end.

Lemma bound_signal_spec k t c : bound_ok k → tcbs k !! t = Some c →
  wp (if tcbBoundNotification c =? 0 then mret false
      else n ← ntfn_at (tcbBoundNotification c);
           mret (match ntfnState n with NtfnState_Active => true | _ => false end))
    (λ a k', k' = k ∧ match bound_signal k c with
       | Some y => a = true ∧ ntfns k !! tcbBoundNotification c = Some y ∧ ntfnState y = NtfnState_Active
       | None => a = false end) k.
Proof.
  intros [_ Bn] Hc. unfold bound_signal. destruct (Z.eqb_spec (tcbBoundNotification c) 0) as [E0|Hne]; [done|].
  destruct (Bn t c Hc Hne) as (y & Hy & _). apply wp_bind, (wp_ntfn_at _ y); [done|]. apply wp_ret.
  rewrite Hy. cbn. by destruct (ntfnState y) eqn:Ey.
Qed.

(** The first sender leaves the queue and gives its message; the code goes on with
    [rest]. *)
Lemma take_message k wq e x t c s cs l (rest : bool → K unit) (Q : unit → ks → Prop) :
  sched_inv k → ipc_ok k wq → eps k !! e = Some x → wq e = s :: l → tcbs k !! t = Some c →
  tcbs k !! s = Some cs → s ≠ t → plain_message k s cs (blockingIPCCanGrant cs) → buffer_ok k t c →
  (∀ k' cs' regs, sched_inv k' → ipc_ok_but [s] k' (<[e := l]> wq) → tcbs k' !! s = Some cs' →
     thread_core cs' = thread_core cs → threads_but [t] k k' →
     thread_core <$> tcbs k' !! t = Some (thread_core (c <| registers := regs |>)) →
     message_received (mem_words k) (registers cs) (registers c)
       (ipc_buffer k false s) (ipc_buffer k true t) (blockingIPCBadge cs) (mem_words k') regs →
     wp (rest (blockingIPCCanGrant cs)) Q k') →
  wp (q ← tcbEPDequeue s (epQueue x); ep_ptr_set_queue e q;;
      when (q_head q =? 0) (set_ep_state e EPState_Idle);;
      s0 ← tcb_at s;
      let badge := blockingIPCBadge s0 in
      let canGrant := blockingIPCCanGrant s0 in
      doIPCTransfer s e badge canGrant t;; rest canGrant) Q k.
Proof.
  intros I H Hx Hq Hc Hs Hst (Hf & Hg & Bs) Bt Hrest.
  apply (dequeue_ep k wq e x [] s l); [done|done|done|]. intros h q k1 H1 Hs1. cbn [app] in *.
  destruct (links_thread k k1 t c Hs1 Hc) as (c1 & Hc1 & Et). destruct (links_thread k k1 s cs Hs1 Hs) as (s1 & Hs1' & Es).
  apply erased_fields in Et as (Etc & _ & Etr & _ & Etb & _).
  apply erased_fields in Es as (Esc & _ & Esr & Esf & Esb & _ & Esbadge & Esgrant).
  assert (I1 : sched_inv k1) by (apply (sched_same_inv None k); [by apply sched_same_links|done]).
  assert (S1 : threads_but [] k k1) by (by apply links_but).
  apply wp_bind, (wp_tcb_at _ s1); [done|]. cbn zeta. rewrite Esbadge, Esgrant.
  apply wp_bind. eapply wp_mono; [apply (doIPCTransfer_spec k1 s t s1 c1); try done|].
  { by rewrite Esf. } { unfold no_caps. by rewrite Esr. }
  { destruct Bs as [B1 B2]. split; [by rewrite Esb|exact B2]. }
  { destruct Bt as [B1 B2]. split; [by rewrite Etb|exact B2]. }
  intros [] k2 (regs & words & ex & -> & Hmsg).
  rewrite (ipc_buffer_same k k1 _ t c c1), (ipc_buffer_same k k1 _ s cs s1), Etr, Esr in Hmsg by done.
  destruct (arrived_inv [s] k1 t c1 regs words ex _ Hc1 I1 H1) as [I2 H2].
  apply (Hrest _ s1 regs I2 H2); try done.
  - cbn. by rewrite lookup_insert_ne.
  - eapply threads_but_trans; [by eapply (threads_but_mono []); [set_solver|]|].
    split_and!; try done. intros u Hu. cbn. rewrite lookup_insert_ne; [done|set_solver].
  - cbn. rewrite lookup_insert_eq. cbn [fmap option_fmap option_map]. f_equal.
    change (thread_core c1 <| registers := regs |> = thread_core c <| registers := regs |>). by rewrite Etc.
Qed.

(** What becomes of the sender [s], which was [cs]: it runs again, or, when it
    called, it waits for the reply of [t]. *)
Definition sender_after (k k' : ks) (chains : list (list Z)) (s t : Z) (cs : tcb_t) : Prop :=
  if blockingIPCIsCall cs then
    ¬ runnable k' s ∧
    thread_core <$> tcbs k' !! s = Some (thread_core (cs <| tsType := caller_state (blockingIPCCanGrant cs) |>)) ∧
    reply_offered (blockingIPCCanGrant cs) (ctes k) (ctes k') chains s t ∧
    ∀ u, u ∉ [s; t] → thread_core <$> tcbs k' !! u = thread_core <$> tcbs k !! u
  else
    (s = ksSchedulerAction k' ∨ queued k' s) ∧
    thread_core <$> tcbs k' !! s = Some (thread_core (cs <| tsType := ThreadState_Running |>)) ∧
    threads_but [s; t] k k'.

(** The right to reply needs its two slots. *)
Definition call_slots_ok (k : ks) (s t : Z) (cs : tcb_t) : Prop :=
  blockingIPCIsCall cs = true → blockingIPCCanGrant cs = true → reply_slots (ctes k) s t.

Lemma take_from_waiting k wq chains e x t c s cs l :
  sched_inv k → ipc_ok k wq → eps k !! e = Some x → wq e = s :: l → tcbs k !! t = Some c →
  tcbs k !! s = Some cs → s ≠ t → plain_message k s cs (blockingIPCCanGrant cs) → buffer_ok k t c →
  mdb_ok (ctes k) chains → call_slots_ok k s t cs →
  wp (q ← tcbEPDequeue s (epQueue x); ep_ptr_set_queue e q;;
      when (q_head q =? 0) (set_ep_state e EPState_Idle);;
      s0 ← tcb_at s;
      let badge := blockingIPCBadge s0 in
      let canGrant := blockingIPCCanGrant s0 in
      doIPCTransfer s e badge canGrant t;;
      s1 ← tcb_at s;
      if blockingIPCIsCall s1 || negb (fault_type (tcbFault s1) =? 0)
      then wait_for_reply canGrant s t
      else setThreadState s ThreadState_Running;; switchIfRequiredTo s)
    (λ _ k', sched_inv k' ∧ ipc_ok k' (<[e := l]> wq) ∧ sender_after k k' chains s t cs ∧
       ∃ regs, thread_core <$> tcbs k' !! t = Some (thread_core (c <| registers := regs |>)) ∧
          message_received (mem_words k) (registers cs) (registers c)
            (ipc_buffer k false s) (ipc_buffer k true t) (blockingIPCBadge cs) (mem_words k') regs) k.
Proof.
  intros I H Hx Hq Hc Hs Hst Hp Bt Hm Hsl. assert (Hin : s ∈ wq e) by (rewrite Hq; set_solver).
  destruct (io_in _ _ _ H _ _ Hin) as (q0 & st & cs' & Ho & Hcs' & _ & Hts).
  assert (cs' = cs) as -> by congruence. apply waits_waiting in Ho. rewrite <- Hts in Ho.
  apply waiting_not_runnable in Ho. pose proof (waiting_not_idle _ _ _ _ _ I H Hin) as Hid.
  apply (take_message k wq e x t c s cs l (λ g, s1 ← tcb_at s;
    if blockingIPCIsCall s1 || negb (fault_type (tcbFault s1) =? 0) then wait_for_reply g s t
    else setThreadState s ThreadState_Running;; switchIfRequiredTo s)); try done. clear Hcs'. intros k2 s1 regs I2 H2 Hs2 Ecore S2 Ht2 Hmsg.
  assert (Es : tsType s1 = tsType cs ∧ tcbFault s1 = tcbFault cs ∧ blockingIPCIsCall s1 = blockingIPCIsCall cs).
  { assert (F : ∀ {B} (f : tcb_t → B), (∀ x, f (thread_core x) = f x) → f s1 = f cs)
      by (intros B f Hf; by rewrite <- (Hf s1), Ecore, Hf). split_and!; by apply F. }
  destruct Es as (Ess & Esf & Escall). pose proof S2 as (So & Ec2 & _ & _ & Eid).
  apply wp_bind, (wp_tcb_at _ s1); [done|]. rewrite Escall, Esf. destruct Hp as (Hf & _). rewrite Hf. unfold sender_after.
  assert (Hcore : ∀ v, thread_core (s1 <| tsType := v |>) = thread_core (cs <| tsType := v |>)).
  { intros v. change (thread_core s1 <| tsType := v |> = thread_core cs <| tsType := v |>). by rewrite Ecore. }
  destruct (blockingIPCIsCall cs) eqn:Hcall; cbn [orb negb fault_type Z.eqb].
  - eapply wp_mono; [apply (blocked_for_reply_spec k2 (<[e := l]> wq) chains s s1 t); rewrite ?Ec2, ?Eid, ?Ess; auto|].
    intros [] k3 (I3 & H3 & [Hn3 G3 Et3 Ew3 _]). split_and!; try done.
    + rewrite Et3, lookup_insert_eq, <- Hcore. done.
    + by rewrite <- Ec2.
    + intros u Hu. rewrite Et3, lookup_insert_ne by set_solver. apply So. set_solver.
    + exists regs. rewrite Et3, lookup_insert_ne, Ew3 by done. by split.
  - eapply wp_mono; [apply (wake_thread k2 (<[e := l]> wq) s s1 false I2 H2 Hs2); [by rewrite Ess|by rewrite Eid]|].
    intros [] k3 (I3 & H3 & Hq3 & S3 & _). pose proof S3 as (_ & Eo & _). injection Eo as _ _ _ _ _ _ _ _ _ Ew _ _.
    split_and!; try done.
    + rewrite (same_threads_core _ k3 s _ S3 (with_state_lookup _ _ _ _)), Hcore. done.
    + eapply threads_but_trans; [by eapply (threads_but_mono [t]); [set_solver|]|].
      eapply threads_but_trans; [|by apply (same_threads_but [s; t] _ _ S3)]. apply set_but; set_solver.
    + exists regs. rewrite Ew. split; [|done]. destruct (tcbs k2 !! t) as [ct|] eqn:Et2; [|done].
      rewrite (same_threads_core _ k3 t ct S3); [by rewrite <- Ht2|]. cbn. by rewrite lookup_insert_ne.
Qed.

Lemma receiveIPC_spec k wq chains e x t c b g sd r blocking :
  sched_inv k → ipc_ok k wq → bound_ok k → eps k !! e = Some x → tcbs k !! t = Some c →
  runnable k t → t ≠ ksIdleThread k → parked k t → buffer_ok k t c → mdb_ok (ctes k) chains →
  (∀ s cs, head (wq e) = Some s → tcbs k !! s = Some cs →
     plain_message k s cs (blockingIPCCanGrant cs) ∧ call_slots_ok k s t cs) →
  wp (receiveIPC t (cap_endpoint_cap b g sd r e) blocking) (λ _ k', sched_inv k' ∧
    match bound_signal k c, epState x with
    | Some y, _ => ipc_ok k' wq ∧
        k' = k <| tcbs ::= <[t := c <| registers ::= <[badgeRegister := ntfnMsgIdentifier y]> |>]> |>
               <| ntfns ::= <[tcbBoundNotification c := y <| ntfnState := NtfnState_Idle |>]> |>
    | None, EPState_Send => ∃ s l cs, wq e = s :: l ∧ tcbs k !! s = Some cs ∧
        ipc_ok k' (<[e := l]> wq) ∧ sender_after k k' chains s t cs ∧
        ∃ regs, thread_core <$> tcbs k' !! t = Some (thread_core (c <| registers := regs |>)) ∧
          message_received (mem_words k) (registers cs) (registers c)
            (ipc_buffer k false s) (ipc_buffer k true t) (blockingIPCBadge cs) (mem_words k') regs
    | None, _ =>
      if blocking
      then blocked_at k k' wq t e (c <| tsType := ThreadState_BlockedOnReceive |> <| blockingObject := e |>)
      else ipc_ok k' wq ∧ k' = k <| tcbs ::= <[t := c <| registers ::= <[badgeRegister := 0]> |>]> |>
    end) k.
Proof.
  intros I H Bn Hx Hc Hrun Hid Hst Hb Hm Hsend. destruct (running_not_waiting k t c I Hc Hrun) as [Hnw Ht0].
  assert (Hreg : ∀ v, let k1 := k <| tcbs ::= <[t := c <| registers ::= <[badgeRegister := v]> |>]> |> in
    sched_inv k1 ∧ ipc_ok k1 wq).
  { intros v. split; [by eapply sched_same_inv, I; apply (sched_same_set k t c)|]. by apply (ipc_ok_set [] k t c). }
  cbn [receiveIPC]. apply wp_bind, (wp_tcb_at _ c); [done|]. apply wp_bind.
  eapply wp_mono; [by apply (bound_signal_spec k t c)|]. intros a k0 [-> Ha]. destruct (bound_signal k c) as [y|].
  - destruct Ha as (-> & Hy & Ey). unfold completeSignal. destruct (Z.eqb_spec t 0); [done|].
    apply wp_bind, (wp_ntfn_at _ y); [done|]. rewrite Ey. apply wp_bind, (wp_tcb_set _ _ c); [done|].
    apply (wp_ntfn_set _ _ y); [done|]. destruct (Hreg (ntfnMsgIdentifier y)) as [I1 H1].
    split_and!; [by eapply sched_same_inv, I1| |done].
    apply (ipc_ok_ntfn_keep [] _ wq _ y); [done|done|by rewrite Ey|done].
  - subst a. apply wp_bind, (wp_ep_at _ x); [done|].
    assert (Hnb : wp (doNBRecvFailedTransfer t) (λ _ k', sched_inv k' ∧ ipc_ok k' wq ∧
      k' = k <| tcbs ::= <[t := c <| registers ::= <[badgeRegister := 0]> |>]> |>) k).
    { apply (wp_tcb_set _ _ c); [done|]. by destruct (Hreg 0). }
    destruct (epState x) eqn:Es; [..|].
    + destruct blocking; [|exact Hnb]. apply (block_receiver k wq e t x c); try done; congruence.
    + destruct (ep_head [] k wq e x H Hx ltac:(by rewrite Es)) as (s & l & cs & Hq & Hh & Hs0 & Hs & Hw).
      destruct (Hsend s cs) as [Hp Hsl]; [by rewrite Hq|done|].
      apply wp_bind. unfold ep_ptr_get_queue. apply wp_bind, (wp_ep_at _ x); [done|]. apply wp_ret. rewrite Hh.
      apply wp_bind, wp_assert; [by destruct (Z.eqb_spec s 0)|].
      assert (Hts : s ≠ t).
      { intros ->. assert (cs = c) as -> by congruence. rewrite Es in Hw. by injection Hw as Hw; rewrite <- Hw in Hnw. }
      eapply wp_mono; [by apply (take_from_waiting k wq chains e x t c s cs l)|].
      intros [] k' (? & ? & ? & ?). split; [done|]. exists s, l, cs. by split_and!.
    + destruct blocking; [|exact Hnb]. apply (block_receiver k wq e t x c); try done; congruence.
Qed.

(** ** What the operations promise *)

(** C18: sending.  If threads wait to receive on the endpoint, the first of
    them leaves the queue and is made to run with the label, the words and the
    badge of the message: every word that arrives is the sender's, no word of
    memory outside the receiver's buffer and no other register changes.
    Otherwise a blocking sender goes to the end of the queue, with the badge kept
    to the 28 bits of its field, and stops running; a sender that does not block
    changes nothing.  The waiting queues and the scheduler stay consistent. *)
Theorem sendIPC_correct k wq e x t c blocking badge grant :
  sched_inv k → ipc_ok k wq → eps k !! e = Some x → tcbs k !! t = Some c →
  runnable k t → t ≠ ksIdleThread k → parked k t → plain_message k t c grant →
  (∀ d cd, head (wq e) = Some d → tcbs k !! d = Some cd → buffer_ok k d cd) →
  wp (sendIPC blocking false badge grant t e) (λ _ k', sched_inv k' ∧
    match epState x with
    | EPState_Recv => ∃ d l cd, wq e = d :: l ∧ tcbs k !! d = Some cd ∧
        ipc_ok k' (<[e := l]> wq) ∧ delivered k k' t d badge c cd ∧ threads_but [d] k k' ∧ parked k' t
    | _ => if blocking then blocked_at k k' wq t e (as_sender c e badge grant false) else k' = k
    end) k.
Proof. exact (sendIPC_spec k wq e x t c blocking badge grant). Qed.

(** C17: calling, with a message that carries no capability.  When a server waits,
    it gets the message as for a send, and the caller stops.  If the endpoint
    capability carries the right to grant, the caller waits for the reply, and the
    server's caller slot holds the right to reply, derived from the caller's master
    reply capability; without it the caller becomes inactive and no slot changes.
    No other thread and no other slot changes.  When no server waits, a blocking
    caller queues, marked as a call and with the right it has. *)
Theorem call_correct k wq chains e x t c blocking badge grant :
  sched_inv k → ipc_ok k wq → eps k !! e = Some x → tcbs k !! t = Some c →
  runnable k t → t ≠ ksIdleThread k → parked k t → plain_message k t c grant → mdb_ok (ctes k) chains →
  (∀ d cd, head (wq e) = Some d → tcbs k !! d = Some cd →
     buffer_ok k d cd ∧ (grant = true → reply_slots (ctes k) t d)) →
  wp (sendIPC blocking true badge grant t e) (λ _ k', sched_inv k' ∧
    match epState x with
    | EPState_Recv => ∃ d l cd, wq e = d :: l ∧ tcbs k !! d = Some cd ∧
        ipc_ok k' (<[e := l]> wq) ∧ delivered k k' t d badge c cd ∧ ¬ runnable k' t ∧
        thread_core <$> tcbs k' !! t = Some (thread_core (c <| tsType := caller_state grant |>)) ∧
        reply_offered grant (ctes k) (ctes k') chains t d ∧
        ∀ u, u ≠ t → u ≠ d → thread_core <$> tcbs k' !! u = thread_core <$> tcbs k !! u
    | _ => if blocking then blocked_at k k' wq t e (as_sender c e badge grant true) else k' = k
    end) k.
Proof. exact (call_spec k wq chains e x t c blocking badge grant). Qed.

(** C20: receiving.  A pending signal of the bound notification is taken first.
    Otherwise the first waiting sender, whose message carries no capability and no
    fault, leaves the queue and its message is the receiver's.  A sender that only
    sent runs again; one that called stops: with the right to grant it waits for the
    reply, for which the receiver's caller slot holds the right, and without it it
    becomes inactive.  With no sender the receiver goes to the end of the queue, or,
    when it does not block, reads a zero badge.  The waiting queues and the
    scheduler stay consistent. *)
Theorem receiveIPC_correct k wq chains e x t c b g sd r blocking :
  sched_inv k → ipc_ok k wq → bound_ok k → eps k !! e = Some x → tcbs k !! t = Some c →
  runnable k t → t ≠ ksIdleThread k → parked k t → buffer_ok k t c → mdb_ok (ctes k) chains →
  (∀ s cs, head (wq e) = Some s → tcbs k !! s = Some cs →
     plain_message k s cs (blockingIPCCanGrant cs) ∧ call_slots_ok k s t cs) →
  wp (receiveIPC t (cap_endpoint_cap b g sd r e) blocking) (λ _ k', sched_inv k' ∧
    match bound_signal k c, epState x with
    | Some y, _ => ipc_ok k' wq ∧
        k' = k <| tcbs ::= <[t := c <| registers ::= <[badgeRegister := ntfnMsgIdentifier y]> |>]> |>
               <| ntfns ::= <[tcbBoundNotification c := y <| ntfnState := NtfnState_Idle |>]> |>
    | None, EPState_Send => ∃ s l cs, wq e = s :: l ∧ tcbs k !! s = Some cs ∧
        ipc_ok k' (<[e := l]> wq) ∧ sender_after k k' chains s t cs ∧
        ∃ regs, thread_core <$> tcbs k' !! t = Some (thread_core (c <| registers := regs |>)) ∧
          message_received (mem_words k) (registers cs) (registers c)
            (ipc_buffer k false s) (ipc_buffer k true t) (blockingIPCBadge cs) (mem_words k') regs
    | None, _ =>
      if blocking
      then blocked_at k k' wq t e (c <| tsType := ThreadState_BlockedOnReceive |> <| blockingObject := e |>)
      else ipc_ok k' wq ∧ k' = k <| tcbs ::= <[t := c <| registers ::= <[badgeRegister := 0]> |>]> |>
    end) k.
Proof. exact (receiveIPC_spec k wq chains e x t c b g sd r blocking). Qed.

(** ** The small system with a message to send *)

Definition mail_regs : gmap Z Z :=
  list_to_map [(msgInfoRegister, 28675); (5, 11); (6, 22)].
Definition mail_sender : tcb_t := demo_tcb ThreadState_Running 100 <| registers := mail_regs |>.
Definition mail_receiver : tcb_t := demo_bound <| tcbIPCBuffer := 512 |>.
Definition mail_frame : cte_t := mk_cte (cap_frame_cap X86_SmallPage 0 0 0 false VMReadWrite 65536) nullMDBNode.
Definition mail_master : cte_t := mk_cte (cap_reply_cap true 16) (mdb_node_new 0 true true 0).
Definition mail_slots : gmap Z cte_t := <[32 := mail_master]> (<[48 := demo_empty]> (<[64 := mail_frame]> ∅)).
Definition mail_chains : list (list Z) := [[32]; [64]].

(** The running thread has a message of three words, label 7, whose third word
    is in its buffer. *)
Definition mail_ks : ks :=
  demo_ks <| tcbs ::= <[16 := mail_sender]> |> <| tcbs ::= <[112 := mail_receiver]> |>
    <| ctes := mail_slots |> <| mem_words := <[65548 := 33]> ∅ |>.

Lemma mail_inv : sched_inv mail_ks ∧ ipc_ok mail_ks demo_wq ∧ bound_ok mail_ks.
Proof.
  set (k1 := demo_ks <| tcbs ::= <[16 := mail_sender]> |>). set (k2 := k1 <| tcbs ::= <[112 := mail_receiver]> |>).
  assert (H16 : tcbs demo_ks !! 16 = Some (demo_tcb ThreadState_Running 100)) by (vm_compute; reflexivity).
  assert (H112 : tcbs k1 !! 112 = Some demo_bound) by (vm_compute; reflexivity). split_and!.
  - apply (sched_same_inv None k2); [done|]. eapply sched_same_inv; [by apply (sched_same_set k1 112 demo_bound)|].
    eapply sched_same_inv; [by apply (sched_same_set demo_ks 16 _ mail_sender H16)|]. exact demo_inv.
  - apply (ipc_ok_same [] k2); [done|done|done|]. apply (ipc_ok_set [] k1 112 demo_bound); [done|done|].
    apply (ipc_ok_set [] demo_ks 16 _ mail_sender _ H16 eq_refl). exact demo_ipc.
  - destruct demo_bound_ok as [B1 B2].
    assert (F : ∀ t c, tcbs mail_ks !! t = Some c → ∃ c0, tcbs demo_ks !! t = Some c0 ∧
      tcbBoundNotification c = tcbBoundNotification c0).
    { intros t c Ht. change (<[112 := mail_receiver]> (<[16 := mail_sender]> (tcbs demo_ks)) !! t = Some c) in Ht.
      apply lookup_insert_Some in Ht as [[<- <-]|[_ Ht]]; [by exists demo_bound|].
      apply lookup_insert_Some in Ht as [[<- <-]|[_ Ht]]; [by eexists|by exists c]. }
    split.
    + intros n x Hx Hb. destruct (B1 n x Hx Hb) as (c & Hc & En).
      change (∃ c, <[112 := mail_receiver]> (<[16 := mail_sender]> (tcbs demo_ks)) !! ntfnBoundTCB x = Some c ∧
        tcbBoundNotification c = n).
      destruct (decide (112 = ntfnBoundTCB x)) as [E|Hn1].
      { rewrite <- E, lookup_insert_eq. exists mail_receiver. split; [done|]. rewrite <- E in Hc.
        change (tcbs k1 !! 112 = Some c) in Hc. rewrite H112 in Hc. by injection Hc as <-. }
      rewrite lookup_insert_ne by done. destruct (decide (16 = ntfnBoundTCB x)) as [E|Hn2].
      { rewrite <- E, lookup_insert_eq. exists mail_sender. split; [done|]. rewrite <- E, H16 in Hc. by injection Hc as <-. }
      rewrite lookup_insert_ne by done. by exists c.
    + intros t c Ht Hb. destruct (F t c Ht) as (c0 & Hc0 & E). rewrite E in *. by apply (B2 t c0).
Qed.

Lemma mail_stopped : parked mail_ks 16 ∧ runnable mail_ks 16 ∧ 16 ≠ ksIdleThread mail_ks.
Proof.
  split_and!.
  - split; [|vm_compute; discriminate]. intros (c & Hc & Hq). vm_compute in Hc. injection Hc as <-. discriminate.
  - exists mail_sender. split; vm_compute; reflexivity.
  - vm_compute. discriminate.
Qed.

Lemma mail_slots_cases (P : Z → cte_t → Prop) :
  P 32 mail_master → P 48 demo_empty → P 64 mail_frame → ∀ p s, mail_slots !! p = Some s → P p s.
Proof.
  intros H1 H2 H3 p s Hp. unfold mail_slots in Hp.
  repeat (apply lookup_insert_Some in Hp as [[<- <-]|[_ Hp]]; [done|]). done.
Qed.

Lemma mail_mdb : mdb_ok (ctes mail_ks) mail_chains.
Proof.
  change (ctes mail_ks) with mail_slots. split.
  - intros l [->|[->|[]%elem_of_nil]%elem_of_cons]%elem_of_cons; cbn;
      (split; [done|]; split; [eexists; split; [vm_compute; reflexivity|done]|]); done.
  - cbn. repeat (apply NoDup_cons; split; [set_solver|]). apply NoDup_nil_2.
  - apply (mail_slots_cases (λ p s, p ∈ concat mail_chains ↔ is_null (cte_cap s) = false));
      cbn; split; try done; set_solver.
  - by apply (mail_slots_cases (λ p s, is_null (cte_cap s) = true → cteMDBNode s = nullMDBNode)).
  - done.
Qed.

Lemma mail_sender_ok : plain_message mail_ks 16 mail_sender true.
Proof.
  split_and!; [done|by right|]. split; [by exists 0|]. exists mail_frame. split; [vm_compute; reflexivity|].
  split; [by left|by exists 16].
Qed.

Lemma mail_receiver_ok d cd : head (demo_wq 720) = Some d → tcbs mail_ks !! d = Some cd →
  buffer_ok mail_ks d cd ∧ reply_slots (ctes mail_ks) 16 d.
Proof.
  intros [= <-] Hc. vm_compute in Hc. injection Hc as <-. split.
  - split; [by exists 1|]. exists mail_frame. split; [vm_compute; reflexivity|]. split; [by left|by exists 16].
  - split; eexists; (split; [vm_compute; reflexivity|done]).
Qed.

Lemma mail_lookup :
  tcbs mail_ks !! 16 = Some mail_sender ∧ eps mail_ks !! 720 = Some (mk_ep EPState_Recv (mk_queue 112 112)) ∧
  eps mail_ks !! 700 = Some (mk_ep EPState_Send (mk_queue 64 96)).
Proof. split_and!; vm_compute; reflexivity. Qed.

Lemma sendIPC_correct_witness :
  wp (sendIPC true false 5 true 16 720) (λ _ k', sched_inv k' ∧
    ∃ d l cd, demo_wq 720 = d :: l ∧ tcbs mail_ks !! d = Some cd ∧
      ipc_ok k' (<[720 := l]> demo_wq) ∧ delivered mail_ks k' 16 d 5 mail_sender cd ∧
      threads_but [d] mail_ks k' ∧ parked k' 16) mail_ks.
Proof.
  destruct mail_inv as (I & H & _), mail_stopped as (Hs & Hr & Hi), mail_lookup as (Hc & He & _).
  exact (sendIPC_correct mail_ks demo_wq 720 (mk_ep EPState_Recv (mk_queue 112 112)) 16 mail_sender true 5 true
    I H He Hc Hr Hi Hs mail_sender_ok (λ d cd Hd Hcd, proj1 (mail_receiver_ok d cd Hd Hcd))).
Defined.

Lemma call_correct_witness :
  wp (sendIPC true true 5 true 16 720) (λ _ k', sched_inv k' ∧
    ∃ d l cd, demo_wq 720 = d :: l ∧ tcbs mail_ks !! d = Some cd ∧
      ipc_ok k' (<[720 := l]> demo_wq) ∧ delivered mail_ks k' 16 d 5 mail_sender cd ∧ ¬ runnable k' 16 ∧
      thread_core <$> tcbs k' !! 16 = Some (thread_core (mail_sender <| tsType := ThreadState_BlockedOnReply |>)) ∧
      reply_given (ctes mail_ks) (ctes k') mail_chains 16 d ∧
      ∀ u, u ≠ 16 → u ≠ d → thread_core <$> tcbs k' !! u = thread_core <$> tcbs mail_ks !! u) mail_ks.
Proof.
  destruct mail_inv as (I & H & _), mail_stopped as (Hs & Hr & Hi), mail_lookup as (Hc & He & _).
  exact (call_correct mail_ks demo_wq mail_chains 720 (mk_ep EPState_Recv (mk_queue 112 112)) 16 mail_sender true 5 true
    I H He Hc Hr Hi Hs mail_sender_ok mail_mdb (λ d cd Hd Hcd, conj (proj1 (mail_receiver_ok d cd Hd Hcd)) (λ _, proj2 (mail_receiver_ok d cd Hd Hcd)))).
Defined.

(** The third word, from the sender's buffer, is in the receiver's. *)
Example mail_arrives :
  let k' := snd (sendIPC true false 5 true 16 720 mail_ks) in
  (λ c, (reg (registers c) 5, reg (registers c) 6, reg (registers c) badgeRegister, reg (registers c) msgInfoRegister))
    <$> tcbs k' !! 112 = Some (11, 22, 5, 28675) ∧
  mem_words k' !! 66060 = Some 33 ∧ ksSchedulerAction k' = 112.
Proof. vm_compute. split_and!; reflexivity. Qed.

Lemma mail_waiting_ok s cs : head (demo_wq 700) = Some s → tcbs mail_ks !! s = Some cs →
  plain_message mail_ks s cs (blockingIPCCanGrant cs) ∧ call_slots_ok mail_ks s 16 cs.
Proof.
  intros [= <-] Hc. vm_compute in Hc. injection Hc as <-. split; [|done]. split_and!; [done|by left|].
  split; [by exists 0|]. exists mail_frame. split; [vm_compute; reflexivity|]. split; [by left|by exists 16].
Qed.

Lemma receiveIPC_correct_witness :
  wp (receiveIPC 16 (cap_endpoint_cap 0 true true true 700) true) (λ _ k', sched_inv k' ∧
    ∃ s l cs, demo_wq 700 = s :: l ∧ tcbs mail_ks !! s = Some cs ∧
      ipc_ok k' (<[700 := l]> demo_wq) ∧ sender_after mail_ks k' mail_chains s 16 cs ∧
      ∃ regs, thread_core <$> tcbs k' !! 16 = Some (thread_core (mail_sender <| registers := regs |>)) ∧
        message_received (mem_words mail_ks) (registers cs) (registers mail_sender)
          (ipc_buffer mail_ks false s) (ipc_buffer mail_ks true 16) (blockingIPCBadge cs) (mem_words k') regs) mail_ks.
Proof.
  destruct mail_inv as (I & H & B), mail_stopped as (Hs & Hr & Hi), mail_lookup as (Hc & _ & He).
  exact (receiveIPC_correct mail_ks demo_wq mail_chains 700 (mk_ep EPState_Send (mk_queue 64 96)) 16 mail_sender 0 true true true
    true I H B He Hc Hr Hi Hs (proj2 (proj2 mail_sender_ok)) mail_mdb mail_waiting_ok).
Defined.

(** A first sender that has called: with the right to grant it waits for the reply,
    for which the receiver holds the right; without it it is inactive. *)
Definition ask_ks (grant : bool) : ks :=
  mail_ks <| tcbs ::= alter (λ c, c <| blockingIPCIsCall := true |> <| blockingIPCCanGrant := grant |>) 64 |>
    <| ctes ::= <[32 := mk_cte (cap_reply_cap true 64) (mdb_node_new 0 true true 0)]> |>.
Example callers_stop :
  let after g := snd (receiveIPC 16 (cap_endpoint_cap 0 true true true 700) true (ask_ks g)) in
  tsType <$> tcbs (after true) !! 64 = Some ThreadState_BlockedOnReply ∧
  cte_cap <$> ctes (after true) !! 48 = Some (cap_reply_cap false 64) ∧
  tsType <$> tcbs (after false) !! 64 = Some ThreadState_Inactive ∧
  cte_cap <$> ctes (after false) !! 48 = Some cap_null_cap.
Proof. vm_compute. split_and!; reflexivity. Qed.
