(* ===== verification/Reply.v ===== *)
(** Deleting one capability ([cteDeleteOne]) where it reaches into the queues of
    an endpoint, and replying ([doReplyTransfer]), which consumes the reply
    capability a call has left. *)

From stdpp Require Import functions.
From S2P Require Import Prelude Messages Caps Kernel CSpace CNode Scheduler Wakeup Paging VSpace IOSpace Ipc Waiting Signals.
From S2P Require Import Cancel Transfer Endpoint.

(** ** One slot *)

(** The slot is empty and out of the derivation list; no other slot has another
    capability. *)
Definition slot_removed (h h' : gmap Z cte_t) (chains : list (list Z)) (slot : Z) : Prop :=
  mdb_ok h' (remove_slot slot chains) ∧ h' !! slot = Some (mk_cte cap_null_cap nullMDBNode) ∧
  ∀ u, u ≠ slot → cte_cap <$> h' !! u = cte_cap <$> h !! u.

Lemma core_caps (o o' : option cte_t) : slot_core <$> o' = slot_core <$> o → cte_cap <$> o' = cte_cap <$> o.
Proof.
  destruct o as [s|], o' as [s'|]; cbn [fmap option_fmap option_map]; try done. intros E. apply (inj Some) in E. f_equal.
  change (cte_cap (slot_core s') = cte_cap (slot_core s)). by rewrite E.
Qed.

(** The line of a deleted handler is inactive and masked. *)
Definition irq_off (irq : Z) (k : ks) : ks :=
  if irq =? irqInvalid then k
  else k <| intStateIRQTable ::= <[irq := IRQInactive]> |> <| irq_masks ::= cons (true, irq) |>.

Lemma empty_any k chains slot s irq (Q : unit → ks → Prop) :
  mdb_ok (ctes k) chains → ctes k !! slot = Some s → is_null (cte_cap s) = false →
  (∀ h, slot_removed (ctes k) h chains slot → Q tt (irq_off irq (k <| ctes := h |>))) →
  wp (emptySlot slot irq) Q k.
Proof.
  intros H Hs Hn HQ. eapply wp_mono; [apply wp_and; [by apply (emptySlot_run k chains slot s irq)|
    by apply (emptySlot_spec k chains slot s irq)]|].
  intros [] k' [Ek Hspec]. rewrite Hn in Hspec. cbn zeta in Ek. fold (irq_off irq (k <| ctes := empty_heap slot (cteMDBNode s) (ctes k) |>)) in Ek.
  destruct Hspec as (M' & Hs' & Hoth & Hnext & _).
  assert (Ec : ctes k' = empty_heap slot (cteMDBNode s) (ctes k)) by (subst k'; unfold irq_off; by destruct (irq =? irqInvalid)).
  rewrite Ec in *. subst k'. apply HQ. split_and!; [done|done|].
  intros u Hu. destruct (decide (u = mdbNext (cteMDBNode s))) as [->|Hne]; [|by apply core_caps, Hoth].
  destruct (ctes k !! mdbNext (cteMDBNode s)) as [n|] eqn:En.
  - specialize (Hnext n eq_refl).
    destruct (empty_heap slot _ _ !! mdbNext _) as [n'|]; [|done]. cbn [fmap option_fmap option_map] in *.
    apply (inj Some) in Hnext. f_equal. change (cte_cap (slot_core n') = cte_cap n). by rewrite Hnext.
  - destruct (decide (mdbNext (cteMDBNode s) = 0)) as [E0|Hz].
    + rewrite E0. by rewrite (mo_ptr _ _ M').
    + destruct (mdb_next _ _ H slot s Hs Hz) as (n & Hn' & _). congruence.
Qed.

Lemma empty_one k chains slot s (Q : unit → ks → Prop) :
  mdb_ok (ctes k) chains → ctes k !! slot = Some s → is_null (cte_cap s) = false →
  (∀ h, slot_removed (ctes k) h chains slot → Q tt (k <| ctes := h |>)) →
  wp (emptySlot slot irqInvalid) Q k.
Proof. intros H Hs Hn HQ. by apply (empty_any k chains slot s). Qed.

(** [cteDeleteOne] asks whether the capability is the last one, finalises and
    empties the slot. *)
Lemma deleteOne_final k chains slot s (Q : unit → ks → Prop) :
  mdb_ok (ctes k) chains → objects_adjacent (ctes k) chains → ctes k !! slot = Some s → is_null (cte_cap s) = false →
  (∀ final : bool, (final = true ↔ ∀ q, q ≠ slot → ¬ same_object (ctes k) slot q) →
     wp (fc_ret ← finaliseCap_exposed (cte_cap s) final;
         ok ← lift (capRemovable (fc_remainder fc_ret) slot);
         assert (ok && (fc_irq fc_ret =? irqInvalid));;
         emptySlot slot irqInvalid) Q k) →
  wp (cteDeleteOne slot) Q k.
Proof.
  intros H Ha Hs Hn Hgo. unfold cteDeleteOne. apply wp_bind, (wp_cte_at _ s); [done|]. rewrite Hn. cbn [negb].
  apply wp_bind. eapply wp_mono; [by apply (isFinalCapability_final k chains slot s)|]. intros final k' [-> Hf].
  apply wp_bind, (wp_cte_at _ s); [done|]. by apply Hgo.
Qed.

(** C24: deleting an endpoint capability.  If it was the last capability to the
    endpoint, every thread that waits there restarts and the endpoint is idle; if
    not, no thread notices.  Either way the slot is empty and out of the derivation
    list, no other slot has another capability, and the waiting queues and the
    scheduler stay consistent. *)
Theorem delete_endpoint_cap k wq chains slot s badge g sd r e x :
  sched_inv k → ipc_ok k wq → mdb_ok (ctes k) chains → objects_adjacent (ctes k) chains →
  ctes k !! slot = Some s → cte_cap s = cap_endpoint_cap badge g sd r e → eps k !! e = Some x →
  wp (cteDeleteOne slot) (λ _ k', sched_inv k' ∧ slot_removed (ctes k) (ctes k') chains slot ∧
    ∃ final : bool, (final = true ↔ ∀ q, q ≠ slot → ¬ same_object (ctes k) slot q) ∧
      if final then
        ipc_ok k' (<[e := []]> wq) ∧ (∀ t, t ∈ wq e → restarted k k' t) ∧
        (∃ x', eps k' !! e = Some x' ∧ epState x' = EPState_Idle) ∧
        (∀ u, u ∉ wq e → thread_core <$> tcbs k' !! u = thread_core <$> tcbs k !! u)
      else ipc_ok k' wq ∧ tcbs k' = tcbs k ∧ eps k' = eps k) k.
Proof.
  intros I H M Adj Hs Ecap Hx. apply (deleteOne_final k chains slot s); [done|done|done|by rewrite Ecap|].
  intros final Hf. rewrite Ecap. apply wp_bind. unfold finaliseCap_exposed. apply wp_bind.
  cbn [finaliseCap_at_once isArchCap]. apply wp_bind. destruct final; cbn [when].
  - eapply wp_mono; [by apply (cancelAllIPC_correct k wq e x)|]. intros [] k1 (I1 & H1 & Hr & B & Hx' & _).
    pose proof B as (Bt & Ec & _). apply wp_ret, wp_ret. cbn [fc_remainder fc_irq capRemovable].
    apply wp_bind, (wp_lifted _ true); [done|]. apply wp_bind, wp_assert; [done|]. rewrite <- Ec in M, Hs.
    apply (empty_one k1 chains slot s); [done|done|by rewrite Ecap|]. intros h Hh. rewrite Ec in Hh. split_and!; [|done|].
    + by apply (sched_same_inv None k1).
    + exists true. split; [done|]. split_and!; try done. by apply (ipc_ok_same [] k1).
  - apply wp_ret, wp_ret, wp_ret. cbn [fc_remainder fc_irq capRemovable].
    apply wp_bind, (wp_lifted _ true); [done|]. apply wp_bind, wp_assert; [done|].
    apply (empty_one k chains slot s); [done|done|by rewrite Ecap|]. intros h Hh. split_and!; [|done|].
    + by apply (sched_same_inv None k).
    + exists false. split; [done|]. split_and!; try done. by apply (ipc_ok_same [] k).
Qed.

(** ** Replying *)

Lemma deleteOne_reply k chains slot s master r (Q : unit → ks → Prop) :
  mdb_ok (ctes k) chains → ctes k !! slot = Some s → cte_cap s = cap_reply_cap master r →
  (∀ h, slot_removed (ctes k) h chains slot → Q tt (k <| ctes := h |>)) →
  wp (cteDeleteOne slot) Q k.
Proof.
  intros H Hs Ecap HQ. unfold cteDeleteOne. apply wp_bind, (wp_cte_at _ s); [done|]. rewrite Ecap. cbn [is_null negb].
  apply wp_bind. eapply wp_mono; [by apply (isFinalCapability_spec k chains slot s)|]. intros final k' [-> _].
  apply wp_bind, (wp_cte_at _ s); [done|]. rewrite Ecap. apply wp_bind. unfold finaliseCap_exposed.
  apply wp_bind, wp_ret, wp_ret. apply wp_bind, (wp_lifted _ true); [done|]. apply wp_bind, wp_assert; [done|].
  apply (empty_one k chains slot s); [done|done|by rewrite Ecap|done].
Qed.

(** C23: replying.  The caller that waits for its reply gets the words of the
    server's message with a zero badge and runs; the reply capability is used up
    and out of the derivation list; no other slot has another capability, no other
    thread changes, and the waiting queues and the scheduler stay consistent. *)
Theorem doReplyTransfer_correct k wq chains t c r cr slot s :
  sched_inv k → ipc_ok k wq → mdb_ok (ctes k) chains → tcbs k !! t = Some c → tcbs k !! r = Some cr → t ≠ r →
  tsType cr = ThreadState_BlockedOnReply → tcbFault cr = seL4_Fault_NullFault → plain_message k t c true →
  buffer_ok k r cr → ctes k !! slot = Some s → cte_cap s = cap_reply_cap false r →
  wp (doReplyTransfer t r slot) (λ _ k', sched_inv k' ∧ ipc_ok k' wq ∧
    delivered k k' t r 0 c cr ∧ slot_removed (ctes k) (ctes k') chains slot ∧
    ∀ u, u ≠ r → thread_core <$> tcbs k' !! u = thread_core <$> tcbs k !! u) k.
Proof.
  intros I H M Hc Hr Hne Hst Hrf (Hf & Hg & Bt) Br Hs Ecap. unfold doReplyTransfer.
  apply wp_bind, (wp_tcb_at _ cr); [done|]. apply wp_bind, wp_assert; [by apply bool_decide_eq_true|].
  rewrite Hrf. cbn [fault_type Z.eqb].
  apply wp_bind. eapply wp_mono; [by apply (doIPCTransfer_spec k t r c cr)|].
  intros [] k1 (regs & words & ex & -> & Hmsg).
  destruct (arrived_inv [] k r cr regs words ex wq Hr I H) as [I1 H1]. set (k1 := arrived k r cr regs words ex) in *.
  assert (Hr1 : tcbs k1 !! r = Some (cr <| registers := regs |>)) by apply lookup_insert_eq.
  apply wp_bind, (deleteOne_reply k1 chains slot s false r); [done|done|done|]. intros h Hh.
  set (k2 := k1 <| ctes := h |>). assert (I2 : sched_inv k2) by (by apply (sched_same_inv None k1)).
  assert (H2 : ipc_ok_but [r] k2 wq).
  { apply (ipc_ok_except [] k2 r (cr <| registers := regs |>)); [done|by cbn; rewrite Hst|]. by apply (ipc_ok_same [] k1). }
  assert (Hid : r ≠ ksIdleThread k2).
  { intros E. destruct (si_idle _ _ I) as (c0 & Hc0 & Hs0). change (ksIdleThread k2) with (ksIdleThread k) in E. congruence. }
  eapply wp_mono; [apply (wake_thread k2 wq r _ true I2 H2 Hr1); [by cbn; rewrite Hst|done]|].
  intros [] k3 (I3 & H3 & Hq3 & S3 & _). pose proof S3 as (_ & Eo & _).
  injection Eo as _ Ec3 _ _ _ _ _ _ _ Ew3 _ _. split_and!; try done.
  - split; [done|]. exists regs. split; [|by rewrite Ew3].
    rewrite (same_threads_core _ k3 r _ S3 (with_state_lookup _ _ _ _)). done.
  - by rewrite Ec3.
  - intros u Hu. destruct (same_threads_but [] _ _ S3) as [B _]. rewrite (B u ltac:(set_solver)). cbn.
    by rewrite !lookup_insert_ne.
Qed.

(** ** The small system *)

(** The last capability to the endpoint on which three threads wait. *)
Definition last_slot : cte_t := mk_cte (cap_endpoint_cap 0 true true true 700) (mdb_node_new 0 true true 0).
Definition last_ks : ks := demo_ks <| ctes := {[ 4096 := last_slot ]} |>.

Lemma last_ok : sched_inv last_ks ∧ ipc_ok last_ks demo_wq ∧ mdb_ok (ctes last_ks) [[4096]] ∧
  objects_adjacent (ctes last_ks) [[4096]].
Proof.
  assert (Hc : ∀ p s, ctes last_ks !! p = Some s → p = 4096 ∧ s = last_slot).
  { intros p s Hp. change (({[ 4096 := last_slot ]} : gmap Z cte_t) !! p = Some s) in Hp.
    by apply lookup_singleton_Some in Hp as [<- <-]. }
  split_and!.
  - apply (sched_same_inv None demo_ks); [done|exact demo_inv].
  - apply (ipc_ok_same [] demo_ks); [done|done|done|exact demo_ipc].
  - split.
    + intros l [->|[]%elem_of_nil]%elem_of_cons. cbn. split; [done|]. split; [|done]. by exists last_slot.
    + cbn. apply NoDup_cons. split; [set_solver|apply NoDup_nil_2].
    + intros p s [-> ->]%Hc. cbn. split; [done|set_solver].
    + by intros p s [-> ->]%Hc.
    + done.
  - intros p q Hne (sp & sq & [-> _]%Hc & [-> _]%Hc & _). done.
Qed.

Lemma delete_endpoint_cap_witness :
  wp (cteDeleteOne 4096) (λ _ k', sched_inv k' ∧ slot_removed (ctes last_ks) (ctes k') [[4096]] 4096 ∧
    ∃ final : bool, (final = true ↔ ∀ q, q ≠ 4096 → ¬ same_object (ctes last_ks) 4096 q) ∧
      if final then
        ipc_ok k' (<[700 := []]> demo_wq) ∧ (∀ t, t ∈ demo_wq 700 → restarted last_ks k' t) ∧
        (∃ x', eps k' !! 700 = Some x' ∧ epState x' = EPState_Idle) ∧
        (∀ u, u ∉ demo_wq 700 → thread_core <$> tcbs k' !! u = thread_core <$> tcbs last_ks !! u)
      else ipc_ok k' demo_wq ∧ tcbs k' = tcbs last_ks ∧ eps k' = eps last_ks) last_ks.
Proof.
  destruct last_ok as (I & H & M & A).
  exact (delete_endpoint_cap last_ks demo_wq [[4096]] 4096 last_slot 0 true true true 700
    (mk_ep EPState_Send (mk_queue 64 96)) I H M A eq_refl eq_refl eq_refl).
Defined.

(** The state after the call of [mail_ks]: the server has the message and the
    right to reply. *)
Definition called_ks : ks := snd (sendIPC true true 5 true 16 720 mail_ks).
Definition called_thread (t : Z) : tcb_t := default mail_sender (tcbs called_ks !! t).
Definition called_slot : cte_t := default demo_empty (ctes called_ks !! 48).
Definition called_chains : list (list Z) := insert_after 32 48 <$> mail_chains.

Lemma called_ok : sched_inv called_ks ∧ ipc_ok called_ks (<[720 := []]> demo_wq) ∧
  mdb_ok (ctes called_ks) called_chains.
Proof.
  destruct mail_inv as (I & H & _), mail_stopped as (Hs & Hr & Hi), mail_lookup as (Hc & He & _).
  pose proof (call_spec mail_ks demo_wq mail_chains 720 (mk_ep EPState_Recv (mk_queue 112 112)) 16 mail_sender true 5 true
    I H He Hc Hr Hi Hs mail_sender_ok mail_mdb (λ d cd Hd Hcd, conj (proj1 (mail_receiver_ok d cd Hd Hcd)) (λ _, proj2 (mail_receiver_ok d cd Hd Hcd)))) as Hcall.
  unfold wp, called_ks in *. destruct (sendIPC true true 5 true 16 720 mail_ks) as [[[]|] k']; [|done].
  cbn [snd]. destruct Hcall as (I' & d & l & cd & [= <- <-] & _ & H' & _ & _ & _ & (M' & _) & _). by split_and!.
Qed.

Lemma called_lookup :
  tcbs called_ks !! 112 = Some (called_thread 112) ∧ tcbs called_ks !! 16 = Some (called_thread 16) ∧
  ctes called_ks !! 48 = Some called_slot ∧ cte_cap called_slot = cap_reply_cap false 16 ∧
  tsType (called_thread 16) = ThreadState_BlockedOnReply ∧ tcbFault (called_thread 16) = seL4_Fault_NullFault.
Proof. split_and!; vm_compute; reflexivity. Qed.

Lemma called_buffer t : t = 16 ∨ t = 112 → buffer_ok called_ks t (called_thread t).
Proof.
  intros [-> | ->]; (split; [first [exists 0; vm_compute; reflexivity|exists 1; vm_compute; reflexivity]|]);
    (exists mail_frame; split; [vm_compute; reflexivity|split; [by left|by exists 16]]).
Qed.

Lemma doReplyTransfer_correct_witness :
  wp (doReplyTransfer 112 16 48) (λ _ k', sched_inv k' ∧ ipc_ok k' (<[720 := []]> demo_wq) ∧
    delivered called_ks k' 112 16 0 (called_thread 112) (called_thread 16) ∧
    slot_removed (ctes called_ks) (ctes k') called_chains 48 ∧
    ∀ u, u ≠ 16 → thread_core <$> tcbs k' !! u = thread_core <$> tcbs called_ks !! u) called_ks.
Proof.
  destruct called_ok as (I & H & M), called_lookup as (H1 & H2 & H3 & H4 & H5 & H6).
  refine (doReplyTransfer_correct called_ks _ called_chains 112 (called_thread 112) 16 (called_thread 16) 48 called_slot
    I H M H1 H2 _ H5 H6 _ (called_buffer 16 (or_introl eq_refl)) H3 H4).
  - discriminate.
  - split_and!; [vm_compute; reflexivity|right; vm_compute; reflexivity|exact (called_buffer 112 (or_intror eq_refl))].
Defined.
