(* ===== verification/Retype.v ===== *)
(** Making objects from untyped memory: [object/untyped.c], the creation of
    objects in [object/objecttype.c] and its x86 part, and [preemptionPoint].

    Memory is typed: the kernel state maps the address of an object to the
    object.  [clearMemory] removes what lies in the cleared region; a new object
    is what the kernel reads from memory that is zero, which untyped memory above
    the free index is. *)

From S2P Require Import Prelude Messages Caps Kernel CSpace CNode Scheduler Wakeup Paging VSpace IOSpace Ipc Transfer.

(** ** Object types *)

Definition seL4_UntypedObject : Z := 0.
Definition seL4_TCBObject : Z := 1.
Definition seL4_EndpointObject : Z := 2.
Definition seL4_NotificationObject : Z := 3.
Definition seL4_CapTableObject : Z := 4.
Definition seL4_NonArchObjectTypeCount : Z := 5.
Definition seL4_X86_4K : Z := 5.
Definition seL4_X86_LargePageObject : Z := 6.
Definition seL4_X86_PageTableObject : Z := 7.
Definition seL4_X86_PageDirectoryObject : Z := 8.
Definition seL4_ObjectTypeCount : Z := 9.

Definition seL4_MinUntypedBits : Z := 4.
Definition seL4_MaxUntypedBits : Z := 29.
Definition CONFIG_RETYPE_FAN_OUT_LIMIT : Z := 256.
Definition CONFIG_RESET_CHUNK_BITS : Z := 8.
Definition CONFIG_MAX_NUM_WORK_UNITS_PER_PREEMPTION : Z := 100.

Definition Arch_isFrameType (t : Z) : bool := (t =? seL4_X86_4K) || (t =? seL4_X86_LargePageObject).

(** Two more numbers, of I/O page tables, are not types a user can name. *)
Definition Arch_getObjectSize (t : Z) : outcome Z :=
  if t =? seL4_X86_4K then pageBitsForSize X86_SmallPage
  else if t =? seL4_X86_LargePageObject then pageBitsForSize X86_LargePage
  else if t =? seL4_X86_PageTableObject then mret 12
  else if t =? seL4_X86_PageDirectoryObject then mret 12
  else if t =? 0xffffffff then mret 0
  else if t =? 0xffffff then mret 12
  else Halted AssertFailed.

Definition getObjectSize (t userObjSize : Z) : outcome Z :=
  if seL4_NonArchObjectTypeCount <=? t then Arch_getObjectSize t
  else if t =? seL4_TCBObject then mret 10
  else if t =? seL4_EndpointObject then mret 4
  else if t =? seL4_NotificationObject then mret 4
  else if t =? seL4_CapTableObject then mret (wrap32 (4 + userObjSize))
  else if t =? seL4_UntypedObject then mret userObjSize
  else Halted AssertFailed.

(** ** Memory *)

Definition in_region (p bits a : Z) : bool := (p <=? a) && (a <? p + 2 ^ bits).

Definition clear_region {A} (p bits : Z) (m : gmap Z A) : gmap Z A :=
  filter (λ x, in_region p bits (fst x) = false) m.

Definition clearMemory (p bits : Z) : K unit :=
  assert (p mod 4 =? 0);;
  assert (BIT bits mod 4 =? 0);;
  modify (λ k, k <| tcbs ::= clear_region p bits |> <| ntfns ::= clear_region p bits |>
                 <| eps ::= clear_region p bits |> <| ctes ::= clear_region p bits |>
                 <| mem_words ::= clear_region p bits |>).

(** Slots of zeroed memory. *)
Fixpoint zero_slots (n : nat) (p : Z) (m : gmap Z cte_t) : gmap Z cte_t :=
  match n with
  | O => m
  | S n' => <[p := mk_cte cap_null_cap nullMDBNode]> (zero_slots n' (p + 16) m)
  end.

(** ** New objects *)

Definition Mode_initContext (r : gmap Z Z) : gmap Z Z :=
  <[17 := 0]> (<[10 := 0]> (<[9 := 0]> (<[8 := 35]> (<[7 := 35]> (<[6 := 0]> (<[5 := 0]>
    (<[4 := 0]> (<[3 := 0]> (<[2 := 0]> (<[1 := 0]> (<[0 := 0]> r))))))))))).

Definition Arch_initContext (tcb : Z) : K unit :=
  tcb_set tcb (λ c, c <| registers := <[18 := 35]> (<[16 := Z.lor (BIT 9) (BIT 1)]> (<[15 := 27]> (<[14 := 0]>
    (<[11 := 0]> (<[13 := 0]> (<[12 := 0]> (Mode_initContext (registers c)))))))) |>);;
  modify (λ k, k <| arch_calls ::= (call_initFpuContext tcb ::.) |>).

(** A thread of zeroed memory. *)
Definition zero_tcb : tcb_t :=
  mk_tcb ThreadState_Inactive false 0 0 false false 0 seL4_Fault_NullFault lookup_fault_invalid_root
    0 0 0 0 0 0 0 0 0 0 ∅.



Definition Mode_createObject (t regionBase userSize : Z) (deviceMemory : bool) : K cap_t :=
  if t =? seL4_X86_4K then
    mret (cap_frame_cap X86_SmallPage asidInvalid 0 X86_MappingNone deviceMemory VMReadWrite regionBase)
  else if t =? seL4_X86_LargePageObject then
    mret (cap_frame_cap X86_LargePage asidInvalid 0 X86_MappingNone deviceMemory VMReadWrite regionBase)
  else if t =? seL4_X86_PageTableObject then mret (cap_page_table_cap false asidInvalid 0 regionBase)
  else if t =? seL4_X86_PageDirectoryObject then
    copyGlobalMappings regionBase;;
    mret (cap_page_directory_cap false asidInvalid 0 regionBase)
  else if t =? 0xffffff then mret (cap_io_page_table_cap false 0 0 0 regionBase)
  else halt_with AssertFailed.

(** The slots of a thread's block, up to [tcbArchEPTRoot]. *)
Definition tcb_slots : nat := 6.
Definition TCB_OFFSET : Z := 256.

Definition createObject (t regionBase userSize : Z) (deviceMemory : bool) : K cap_t :=
  if seL4_NonArchObjectTypeCount <=? t then Mode_createObject t regionBase userSize deviceMemory
  else if t =? seL4_TCBObject then
    let tcb := wrap32 (regionBase + TCB_OFFSET) in
    modify (λ k, k <| tcbs ::= <[tcb := zero_tcb]> |> <| ctes ::= zero_slots tcb_slots regionBase |>);;
    Arch_initContext tcb;;
    tcb_set tcb (λ c, c <| tcbTimeSlice := CONFIG_TIME_SLICE |>);;
    d ← gets ksCurDomain;
    tcb_set tcb (λ c, c <| tcbDomain := d |>);;
    modify (λ k, k <| arch_calls ::= (call_tcbDebugAppend tcb ::.) |>);;
    mret (cap_thread_cap tcb)
  else if t =? seL4_EndpointObject then
    modify (λ k, k <| eps ::= <[regionBase := mk_ep EPState_Idle (mk_queue 0 0)]> |>);;
    mret (cap_endpoint_cap 0 true true true regionBase)
  else if t =? seL4_NotificationObject then
    modify (λ k, k <| ntfns ::= <[regionBase := mk_ntfn NtfnState_Idle (mk_queue 0 0) 0 0]> |>);;
    mret (cap_notification_cap 0 true true regionBase)
  else if t =? seL4_CapTableObject then
    modify (λ k, k <| ctes ::= zero_slots (Z.to_nat (2 ^ userSize)) regionBase |>);;
    mret (cap_cnode_cap userSize 0 0 regionBase)
  else if t =? seL4_UntypedObject then mret (cap_untyped_cap 0 deviceMemory userSize regionBase)
  else halt_with AssertFailed.

(** [slot_range_t] *)
Record slot_range_t := mk_range { sr_cnode : Z; sr_offset : Z; sr_length : Z }.

Definition createNewObjects (t parent : Z) (slots : slot_range_t) (regionBase userSize : Z)
    (deviceMemory : bool) : K unit :=
  objectSize ← lift (getObjectSize t userSize);
  for_range 0 (Z.to_nat (sr_length slots)) (λ i,
    c ← createObject t (wrap32 (regionBase + wrap32 (Z.shiftl i objectSize))) userSize deviceMemory;
    insertNewCap parent (cte_index (sr_cnode slots) (sr_offset slots + i)) c).

(** ** Preemption *)

(** The answer of the interrupt controller is the next of [irq_pending]. *)
Definition isIRQPending : K bool :=
  l ← gets irq_pending;
  modify (λ k, k <| irq_pending ::= tail |>);;
  mret (default false (head l)).

Definition preemptionPoint : K exception_t :=
  modify (λ k, k <| ksWorkUnitsCompleted := wrap32 (ksWorkUnitsCompleted k + 1) |>);;
  n ← gets ksWorkUnitsCompleted;
  if CONFIG_MAX_NUM_WORK_UNITS_PER_PREEMPTION <=? n then
    modify (λ k, k <| ksWorkUnitsCompleted := 0 |>);;
    p ← isIRQPending;
    mret (if p : bool then EXCEPTION_PREEMPTED else EXCEPTION_NONE)
  else mret EXCEPTION_NONE.

(** ** Untyped capabilities *)

Definition alignUp (baseValue alignment : Z) : Z :=
  Z.land (wrap32 (baseValue + (BIT alignment - 1))) (wrap32 (Z.lnot (MASK alignment))).

Definition FREE_INDEX_TO_OFFSET (freeIndex : Z) : Z := wrap32 (Z.shiftl freeIndex 4).
Definition GET_FREE_REF (base freeIndex : Z) : Z := wrap32 (base + FREE_INDEX_TO_OFFSET freeIndex).
Definition GET_FREE_INDEX (base free : Z) : Z := Z.shiftr (wrap32 (free - base)) 4.
Definition OFFSET_TO_FREE_INDEX (offset : Z) : Z := Z.shiftr offset 4.
Definition ROUND_DOWN (n b : Z) : Z := wrap32 (Z.shiftl (Z.shiftr n b) b).

Definition untyped_parts (c : cap_t) : outcome (Z * bool * Z * Z) :=
  match c with
  | cap_untyped_cap freeIndex dev blockSize ptr => mret (freeIndex, dev, blockSize, ptr)
  | _ => Halted AssertFailed
  end.

(** The loop of [resetUntypedCap], from the last chunk down. *)
Fixpoint reset_chunks (fuel : nat) (srcSlot regionBase offset : Z) (prev_cap : cap_t) : K exception_t :=
  match fuel with
  | O => halt_with OutOfFuel
  | S fuel' =>
    if offset =? wrap32 (- BIT CONFIG_RESET_CHUNK_BITS) then mret EXCEPTION_NONE
    else
      clearMemory (wrap32 (regionBase + offset)) CONFIG_RESET_CHUNK_BITS;;
      c ← lift (set_capFreeIndex (OFFSET_TO_FREE_INDEX offset) prev_cap);
      set_cap srcSlot c;;
      status ← preemptionPoint;
      if decide (status ≠ EXCEPTION_NONE) then mret status
      else reset_chunks fuel' srcSlot regionBase (wrap32 (offset - BIT CONFIG_RESET_CHUNK_BITS)) prev_cap
  end.

(** The offset is below 2^30, so that at most 2^22 chunks are visited. *)
Definition reset_fuel (offset : Z) : nat := Z.to_nat (offset / 256 + 2).

Definition resetUntypedCap (srcSlot : Z) : K exception_t :=
  s ← cte_at srcSlot;
  let prev_cap := cte_cap s in
  f ← lift (untyped_parts prev_cap);
  let '(freeIndex, deviceMemory, block_size, regionBase) := f in
  let offset := FREE_INDEX_TO_OFFSET freeIndex in
  if offset =? 0 then mret EXCEPTION_NONE
  else if deviceMemory || (block_size <? CONFIG_RESET_CHUNK_BITS) then
    when (negb deviceMemory) (clearMemory regionBase block_size);;
    c ← lift (set_capFreeIndex 0 prev_cap);
    set_cap srcSlot c;;
    mret EXCEPTION_NONE
  else reset_chunks (reset_fuel offset) srcSlot regionBase
         (ROUND_DOWN (wrap32 (offset - 1)) CONFIG_RESET_CHUNK_BITS) prev_cap.

Definition invokeUntyped_Retype (srcSlot : Z) (reset : bool) (retypeBase newType userSize : Z)
    (destSlots : slot_range_t) (deviceMemory : bool) : K exception_t :=
  s ← cte_at srcSlot;
  f ← lift (untyped_parts (cte_cap s));
  let '(_, _, _, regionBase) := f in
  status ← (if reset then resetUntypedCap srcSlot else mret EXCEPTION_NONE);
  if decide (status ≠ EXCEPTION_NONE) then mret status
  else
    size ← lift (getObjectSize newType userSize);
    let totalObjectSize := wrap32 (Z.shiftl (sr_length destSlots) size) in
    let freeRef := wrap32 (retypeBase + totalObjectSize) in
    s ← cte_at srcSlot;
    c ← lift (set_capFreeIndex (GET_FREE_INDEX regionBase freeRef) (cte_cap s));
    set_cap srcSlot c;;
    createNewObjects newType srcSlot destSlots retypeBase userSize deviceMemory;;
    mret EXCEPTION_NONE.

(** ** Decoding *)

Definition range_error (min max : Z) : K exception_t :=
  set_error (λ e, e <| error_type := seL4_RangeError |> <| rangeErrorMin := min |> <| rangeErrorMax := max |>);;
  mret EXCEPTION_SYSCALL_ERROR.
Definition argument_error (n : Z) : K exception_t :=
  set_error (λ e, e <| error_type := seL4_InvalidArgument |> <| invalidArgumentNumber := n |>);;
  mret EXCEPTION_SYSCALL_ERROR.
Definition simple_error (t : Z) : K exception_t :=
  set_error (λ e, e <| error_type := t |>);; mret EXCEPTION_SYSCALL_ERROR.

(** Where the objects go: the aligned start of the free region, if they fit. *)
Inductive placement :=
| Placed (alignedFreeRef : Z)
| NotEnoughMemory (memoryLeft : Z)
| DeviceMemory.

Definition place_objects (freeIndex : Z) (deviceMemory : bool) (blockSize ptr newType userObjSize nodeWindow : Z) :
  outcome placement :=
  let freeRef := GET_FREE_REF ptr freeIndex in
  objectSize ← getObjectSize newType userObjSize;
  let untypedFreeBytes := wrap32 (BIT blockSize - FREE_INDEX_TO_OFFSET freeIndex) in
  if (wordBits <=? objectSize) || (Z.shiftr untypedFreeBytes objectSize <? nodeWindow)
  then mret (NotEnoughMemory untypedFreeBytes)
  else if (deviceMemory && negb (Arch_isFrameType newType)) && negb (newType =? seL4_UntypedObject)
  then mret DeviceMemory
  else mret (Placed (alignUp freeRef objectSize)).

(** The destination slots are empty, in order. *)
Fixpoint ensure_empty_window (n : nat) (cnode i : Z) : K exception_t :=
  match n with
  | O => mret EXCEPTION_NONE
  | S n' =>
    status ← ensureEmptySlot (cte_index cnode i);
    if decide (status ≠ EXCEPTION_NONE) then mret status else ensure_empty_window n' cnode (i + 1)
  end.

(** From the destination node on. *)
Definition retype_into (slot : Z) (cap nodeCap : cap_t) (newType userObjSize nodeDepth nodeOffset nodeWindow : Z) :
  K exception_t :=
  match nodeCap with
  | cap_cnode_cap radix _ _ cnode =>
    let nodeSize := wrap32 (Z.shiftl 1 radix) in
    if wrap32 (nodeSize - 1) <? nodeOffset then range_error 0 (wrap32 (nodeSize - 1))
    else if (nodeWindow <? 1) || (CONFIG_RETYPE_FAN_OUT_LIMIT <? nodeWindow)
    then range_error 1 CONFIG_RETYPE_FAN_OUT_LIMIT
    else if wrap32 (nodeSize - nodeOffset) <? nodeWindow then range_error 1 (wrap32 (nodeSize - nodeOffset))
    else
      status ← ensure_empty_window (Z.to_nat nodeWindow) cnode nodeOffset;
      if decide (status ≠ EXCEPTION_NONE) then mret status
      else
        f ← lift (untyped_parts cap);
        let '(capFreeIndex, deviceMemory, blockSize, ptr) := f in
        status ← ensureNoChildren slot;
        let reset := bool_decide (status = EXCEPTION_NONE) in
        let freeIndex := if reset then 0 else capFreeIndex in
        p ← lift (place_objects freeIndex deviceMemory blockSize ptr newType userObjSize nodeWindow);
        match p with
        | NotEnoughMemory bytesLeft =>
          set_error (λ e, e <| error_type := seL4_NotEnoughMemory |> <| memoryLeft := bytesLeft |>);;
          mret EXCEPTION_SYSCALL_ERROR
        | DeviceMemory => argument_error 1
        | Placed alignedFreeRef =>
          t ← cur;
          setThreadState t ThreadState_Restart;;
          invokeUntyped_Retype slot reset alignedFreeRef newType userObjSize
            (mk_range cnode nodeOffset nodeWindow) deviceMemory
        end
  | _ =>
    set_error (λ e, e <| error_type := seL4_FailedLookup |> <| failedLookupWasSource := false |>);;
    set_lookup_fault (lookup_fault_missing_capability nodeDepth);;
    mret EXCEPTION_SYSCALL_ERROR
  end.

Definition UntypedRetype : Z := 1.

Definition decodeUntypedInvocation (invLabel length slot : Z) (cap : cap_t) (excaps : list Z) (buffer : Z) :
  K exception_t :=
  let rootSlot := default 0 (excaps !! 0%nat) in
  if negb (invLabel =? UntypedRetype) then simple_error seL4_IllegalOperation
  else if (length <? 6) || (rootSlot =? 0) then simple_error seL4_TruncatedMessage
  else
    newType ← getSyscallArg 0 buffer;
    userObjSize ← getSyscallArg 1 buffer;
    nodeIndex ← getSyscallArg 2 buffer;
    nodeDepth ← getSyscallArg 3 buffer;
    nodeOffset ← getSyscallArg 4 buffer;
    nodeWindow ← getSyscallArg 5 buffer;
    if seL4_ObjectTypeCount <=? newType then argument_error 0
    else if seL4_MaxUntypedBits <? userObjSize then range_error 0 (wordBits - 3)
    else if (newType =? seL4_CapTableObject) && (userObjSize =? 0) then argument_error 1
    else if (newType =? seL4_UntypedObject) && (userObjSize <? seL4_MinUntypedBits) then argument_error 1
    else
      root ← cte_at rootSlot;
      if nodeDepth =? 0
      then retype_into slot cap (cte_cap root) newType userObjSize nodeDepth nodeOffset nodeWindow
      else
        lu ← lookupTargetSlot (cte_cap root) nodeIndex nodeDepth;
        if decide (slot_status lu ≠ EXCEPTION_NONE) then mret (slot_status lu)
        else
          s ← cte_at (slot_slot lu);
          retype_into slot cap (cte_cap s) newType userObjSize nodeDepth nodeOffset nodeWindow.

(** ** Where the objects go *)

(** An untyped capability that covers aligned memory. *)
Definition untyped_ok (freeIndex blockSize ptr : Z) : Prop :=
  seL4_MinUntypedBits ≤ blockSize ≤ seL4_MaxUntypedBits ∧ 0 ≤ ptr ∧ ptr + 2 ^ blockSize ≤ 2 ^ 32 ∧
  (2 ^ blockSize | ptr) ∧ 0 ≤ freeIndex ∧ 16 * freeIndex ≤ 2 ^ blockSize.

(** The arguments [decodeUntypedInvocation] lets through. *)
Definition retype_args (newType userObjSize nodeWindow : Z) : Prop :=
  0 ≤ newType < seL4_ObjectTypeCount ∧ 0 ≤ userObjSize ≤ seL4_MaxUntypedBits ∧
  (newType = seL4_UntypedObject → seL4_MinUntypedBits ≤ userObjSize) ∧
  1 ≤ nodeWindow ≤ CONFIG_RETYPE_FAN_OUT_LIMIT.

Lemma getObjectSize_done t u : 0 ≤ t < seL4_ObjectTypeCount → 0 ≤ u ≤ seL4_MaxUntypedBits →
  ∃ os, getObjectSize t u = Done os ∧ 0 ≤ os ≤ 33 ∧
    ((t = seL4_UntypedObject → seL4_MinUntypedBits ≤ u) → 4 ≤ os).
Proof.
  unfold seL4_ObjectTypeCount, seL4_MaxUntypedBits, seL4_UntypedObject, seL4_MinUntypedBits. intros Ht Hu.
  assert (t = 0 ∨ t = 1 ∨ t = 2 ∨ t = 3 ∨ t = 4 ∨ t = 5 ∨ t = 6 ∨ t = 7 ∨ t = 8) as Hc by lia.
  assert (H4 : wrap32 (4 + u) = 4 + u) by (apply wrap32_small; unfold is_word, word_mod; lia).
  destruct Hc as [->|[->|[->|[->|[->|[->|[->|[->| ->]]]]]]]]; unfold getObjectSize; cbn -[wrap32];
    rewrite ?H4; eexists; (split; [reflexivity|split; lia]).
Qed.

Lemma wrap_same x : 0 ≤ x < 2 ^ 32 → wrap32 x = x.
Proof. intros. apply wrap32_small. unfold is_word. by change word_mod with (2 ^ 32). Qed.

Lemma free_offset i bs : 0 ≤ i → 16 * i ≤ 2 ^ bs → bs ≤ 29 → 0 ≤ bs → FREE_INDEX_TO_OFFSET i = 16 * i.
Proof.
  intros. unfold FREE_INDEX_TO_OFFSET. rewrite Z.shiftl_mul_pow2 by lia.
  assert (2 ^ bs ≤ 2 ^ 29) by (apply Z.pow_le_mono_r; lia). rewrite wrap_same; lia.
Qed.

(** Clearing the low bits of a word. *)
Lemma land_lnot_mask x n : 0 ≤ x < 2 ^ 32 → 0 ≤ n < 32 →
  Z.land x (wrap32 (Z.lnot (MASK n))) = x - x mod 2 ^ n.
Proof.
  intros Hx Hn. assert (E : MASK n = Z.ones n).
  { assert (0 < 2 ^ n) by lia. assert (2 ^ n < 2 ^ 32) by (apply Z.pow_lt_mono_r; lia).
    unfold MASK. rewrite BIT_pow2, wrap_same, Z.ones_equiv by lia. lia. }
  rewrite E, <- Z.land_ones, Z.sub_land_same_l by lia. unfold wrap32. change word_mod with (2 ^ 32).
  rewrite <- Z.land_ones, (Z.land_comm (Z.lnot _)), Z.land_assoc, Z.land_ones, Z.mod_small by lia. done.
Qed.

Lemma alignUp_spec x n : 0 ≤ n < 32 → 0 ≤ x → x + 2 ^ n ≤ 2 ^ 32 →
  let y := alignUp x n in (2 ^ n | y) ∧ x ≤ y < x + 2 ^ n.
Proof.
  intros Hn Hx Hb y. unfold y, alignUp. assert (0 < 2 ^ n) by lia.
  rewrite BIT_pow2, wrap_same, land_lnot_mask by lia.
  pose proof (Z.mod_pos_bound (x + (2 ^ n - 1)) (2 ^ n)). split; [|lia].
  rewrite Z.mod_eq by lia. exists ((x + (2 ^ n - 1)) / 2 ^ n). lia.
Qed.

Lemma place_objects_spec freeIndex dev blockSize ptr newType userObjSize n :
  untyped_ok freeIndex blockSize ptr → retype_args newType userObjSize n →
  ∃ os, getObjectSize newType userObjSize = Done os ∧
    let left := 2 ^ blockSize - 16 * freeIndex in
    ∃ p, place_objects freeIndex dev blockSize ptr newType userObjSize n = Done p ∧
      match p with
      | NotEnoughMemory m => m = left ∧ left < n * 2 ^ os
      | DeviceMemory => n * 2 ^ os ≤ left ∧ dev = true ∧ Arch_isFrameType newType = false ∧
          newType ≠ seL4_UntypedObject
      | Placed base => (2 ^ os | base) ∧ ptr + 16 * freeIndex ≤ base < ptr + 16 * freeIndex + 2 ^ os ∧
          base + n * 2 ^ os ≤ ptr + 2 ^ blockSize
      end.
Proof.
  intros (Hbs & Hp & Htop & Hal & Hf0 & Hf) (Ht & Hu & _ & Hn). destruct (getObjectSize_done _ _ Ht Hu) as (os & Eos & Hos & _). unfold seL4_MinUntypedBits, seL4_MaxUntypedBits in Hbs. exists os. split; [done|].
  intros left. assert (Hpow : 2 ^ blockSize ≤ 2 ^ 29) by (apply Z.pow_le_mono_r; lia).
  assert (0 < 2 ^ os) by lia. assert (0 < 2 ^ blockSize) by lia.
  unfold place_objects. rewrite Eos. cbn [mbind outcome_bind]. unfold GET_FREE_REF.
  rewrite (free_offset freeIndex blockSize), BIT_pow2, (wrap_same (2 ^ blockSize - _)), Z.shiftr_div_pow2 by lia.
  fold left. destruct ((wordBits <=? os) || (left / 2 ^ os <? n)) eqn:E.
  - eexists. split; [reflexivity|]. split; [done|]. apply orb_prop in E as [E%Z.leb_le|E%Z.ltb_lt].
    + unfold wordBits in E. assert (2 ^ 32 ≤ 2 ^ os) by (apply Z.pow_le_mono_r; lia). nia.
    + pose proof (Z.mul_succ_div_gt left (2 ^ os)). nia.
  - apply orb_false_iff in E as [E1%Z.leb_gt E2%Z.ltb_ge]. unfold wordBits in E1.
    assert (Hfit : n * 2 ^ os ≤ left) by (pose proof (Z.mul_div_le left (2 ^ os)); nia).
    destruct (_ && _) eqn:Ed.
    + eexists. split; [reflexivity|]. cbn. apply andb_prop in Ed as [Ed E3]. apply andb_prop in Ed as [-> E4].
      apply negb_true_iff in E3, E4. apply Z.eqb_neq in E3. by split_and!.
    + eexists. split; [reflexivity|]. cbn zeta.
      assert (Hsum : ptr + 16 * freeIndex + 2 ^ os ≤ ptr + 2 ^ blockSize) by nia.
      rewrite (wrap_same (ptr + _)) by nia.
      destruct (alignUp_spec (ptr + 16 * freeIndex) os) as [Hd Hr]; [lia|lia|lia|]. split; [done|]. split; [done|].
      assert (Hob : os ≤ blockSize) by (apply (Z.pow_le_mono_r_iff 2); lia || nia).
      assert (Htopd : (2 ^ os | ptr + 2 ^ blockSize)).
      { assert ((2 ^ os | 2 ^ blockSize)).
        { exists (2 ^ (blockSize - os)). rewrite <- Z.pow_add_r by lia. f_equal. lia. }
        apply Z.divide_add_r; [by eapply Z.divide_trans|done]. }
      destruct Hd as [B EB], Htopd as [T ET]. set (base := alignUp _ _) in *. set (P := 2 ^ os) in *.
      assert (B * P < (T - n + 1) * P) by lia. assert (B < T - n + 1) by nia. nia.
Qed.

(** C26: placing objects in untyped memory.  The request is refused for lack of
    memory exactly when the objects do not fit the free bytes, however these are
    aligned; otherwise, unless kernel objects are wanted of device memory, the
    objects start at the first aligned address of the free region, and all of
    them lie inside the untyped memory: rounding up never makes them overrun it,
    and no 32-bit sum overflows. *)
Theorem place_objects_fits freeIndex dev blockSize ptr newType userObjSize n :
  untyped_ok freeIndex blockSize ptr → retype_args newType userObjSize n →
  ∃ os, getObjectSize newType userObjSize = Done os ∧
    let left := 2 ^ blockSize - 16 * freeIndex in
    ∃ p, place_objects freeIndex dev blockSize ptr newType userObjSize n = Done p ∧
      match p with
      | NotEnoughMemory m => m = left ∧ left < n * 2 ^ os
      | DeviceMemory => n * 2 ^ os ≤ left ∧ dev = true ∧ Arch_isFrameType newType = false ∧
          newType ≠ seL4_UntypedObject
      | Placed base => (2 ^ os | base) ∧ ptr + 16 * freeIndex ≤ base < ptr + 16 * freeIndex + 2 ^ os ∧
          base + n * 2 ^ os ≤ ptr + 2 ^ blockSize
      end.
Proof. exact (place_objects_spec freeIndex dev blockSize ptr newType userObjSize n). Qed.

(** One 4K page behind a first endpoint in an untyped object of 8K. *)
Lemma place_objects_fits_witness :
  ∃ os, getObjectSize seL4_X86_4K 0 = Done os ∧
    ∃ p, place_objects 1 false 13 1048576 seL4_X86_4K 0 1 = Done p ∧
      match p with
      | NotEnoughMemory m => m = 2 ^ 13 - 16 * 1 ∧ 2 ^ 13 - 16 * 1 < 1 * 2 ^ os
      | DeviceMemory => 1 * 2 ^ os ≤ 2 ^ 13 - 16 * 1 ∧ false = true ∧ Arch_isFrameType seL4_X86_4K = false ∧
          seL4_X86_4K ≠ seL4_UntypedObject
      | Placed base => (2 ^ os | base) ∧ 1048576 + 16 * 1 ≤ base < 1048576 + 16 * 1 + 2 ^ os ∧
          base + 1 * 2 ^ os ≤ 1048576 + 2 ^ 13
      end.
Proof.
  apply (place_objects_fits 1 false 13 1048576 seL4_X86_4K 0 1).
  - split_and!; try (vm_compute; congruence). by exists 128.
  - split_and!; vm_compute; congruence.
Defined.
