(* ===== verification/Reset.v ===== *)
(** Resetting untyped memory: [resetUntypedCap] clears the memory from the end
    and may be preempted between two chunks. *)

From S2P Require Import Prelude Caps Kernel CSpace CNode Scheduler Wakeup Paging VSpace IOSpace Ipc Waiting Transfer Retype.

(** ** Memory without objects *)

Definition empty_at (k : ks) (a : Z) : Prop :=
  tcbs k !! a = None ∧ ntfns k !! a = None ∧ eps k !! a = None ∧ ctes k !! a = None ∧ mem_words k !! a = None.

(** Above the free index, untyped memory is zero. *)
Definition zero_from (k : ks) (ptr freeIndex blockSize : Z) : Prop :=
  ∀ a, ptr + 16 * freeIndex ≤ a < ptr + 2 ^ blockSize → empty_at k a.

(** Only the region, the slot of its capability and the accounts of preemption
    differ. *)
Record only_region (slot ptr bits : Z) (k k' : ks) : Prop := {
  or_objects : ∀ a, in_region ptr bits a = false →
    tcbs k' !! a = tcbs k !! a ∧ ntfns k' !! a = ntfns k !! a ∧ eps k' !! a = eps k !! a ∧
    mem_words k' !! a = mem_words k !! a ∧ (a ≠ slot → ctes k' !! a = ctes k !! a);
  or_rest : sched_globals k' = sched_globals k
}.

Lemma only_region_refl slot ptr bits k : only_region slot ptr bits k k.
Proof. by split. Qed.
Lemma only_region_trans slot ptr bits k1 k2 k3 :
  only_region slot ptr bits k1 k2 → only_region slot ptr bits k2 k3 → only_region slot ptr bits k1 k3.
Proof.
  intros [H1 E1] [H2 E2]. split; [|congruence]. intros a Ha.
  destruct (H1 a Ha) as (?&?&?&?&F1), (H2 a Ha) as (?&?&?&?&F2). split_and!; try congruence.
  intros Hne. rewrite F2, F1; done.
Qed.

Lemma clear_region_lookup {A} p bits (m : gmap Z A) a :
  clear_region p bits m !! a = if in_region p bits a then None else m !! a.
Proof.
  unfold clear_region. destruct (in_region p bits a) eqn:E.
  - apply map_lookup_filter_None. right. intros x _. cbn. by rewrite E.
  - destruct (m !! a) as [x|] eqn:Em.
    + by apply map_lookup_filter_Some.
    + apply map_lookup_filter_None. by left.
Qed.

Lemma in_region_spec p bits a : in_region p bits a = true ↔ p ≤ a < p + 2 ^ bits.
Proof. unfold in_region. rewrite andb_true_iff, Z.leb_le, Z.ltb_lt. lia. Qed.
Lemma out_region_spec p bits a : in_region p bits a = false ↔ ¬ (p ≤ a < p + 2 ^ bits).
Proof. rewrite <- in_region_spec. destruct (in_region p bits a); naive_solver. Qed.

Lemma clearMemory_spec k p bits (Q : unit → ks → Prop) :
  p mod 4 = 0 → BIT bits mod 4 = 0 →
  (∀ k', (∀ a, in_region p bits a = true → empty_at k' a) →
     (∀ a, in_region p bits a = false → tcbs k' !! a = tcbs k !! a ∧ ntfns k' !! a = ntfns k !! a ∧
        eps k' !! a = eps k !! a ∧ ctes k' !! a = ctes k !! a ∧ mem_words k' !! a = mem_words k !! a) →
     sched_globals k' = sched_globals k → irq_pending k' = irq_pending k → Q tt k') →
  wp (clearMemory p bits) Q k.
Proof.
  intros H1 H2 HQ. unfold clearMemory. apply wp_bind, wp_assert; [by rewrite H1|].
  apply wp_bind, wp_assert; [by rewrite H2|]. apply wp_modify, HQ; [| |done|done].
  - intros a Ha. unfold empty_at. cbn. rewrite !clear_region_lookup, Ha. done.
  - intros a Ha. cbn. rewrite !clear_region_lookup, Ha. done.
Qed.

(** ** One chunk after the other *)

Lemma preemptionPoint_spec k :
  wp preemptionPoint (λ st k', (st = EXCEPTION_NONE ∨ st = EXCEPTION_PREEMPTED) ∧
    (st = EXCEPTION_PREEMPTED → true ∈ irq_pending k) ∧
    ∃ w p, k' = k <| ksWorkUnitsCompleted := w |> <| irq_pending := p |> ∧ (∀ b, b ∈ p → b ∈ irq_pending k)) k.
Proof.
  unfold preemptionPoint. apply wp_bind, wp_modify, wp_bind, wp_gets. destruct (_ <=? _).
  - apply wp_bind, wp_modify. unfold isIRQPending. apply wp_bind, wp_bind, wp_gets, wp_bind, wp_modify, wp_ret.
    apply wp_ret.
    assert (Hin : ∀ b, b ∈ tail (irq_pending k) → b ∈ irq_pending k) by (destruct (irq_pending k); set_solver).
    split_and!; [|intros E|].
    + cbn. destruct (default false (head (irq_pending k))); auto.
    + cbn in E. destruct (irq_pending k) as [|[] l]; [done|left|done].
    + exists 0, (tail (irq_pending k)). split; [by destruct k|done].
  - apply wp_ret. split_and!; [by left|done|]. exists (wrap32 (ksWorkUnitsCompleted k + 1)), (irq_pending k).
    split; [by destruct k|done].
Qed.

Section reset.
Context (slot ptr bs fi0 : Z) (mdb : mdb_node_t).
Hypotheses (Hbs : 8 ≤ bs ≤ 29) (Hp : 0 ≤ ptr) (Htop : ptr + 2 ^ bs ≤ 2 ^ 32) (Hal : (2 ^ bs | ptr)).
Hypothesis (Hslot : in_region ptr bs slot = false).

Definition reset_cap (fi : Z) : cap_t := cap_untyped_cap fi false bs ptr.

(** What the loop reaches: the capability says how far it got. *)
Definition reset_to (k k' : ks) (st : exception_t) (bound : Z) : Prop :=
  ∃ fi, 0 ≤ fi ≤ bound ∧ ctes k' !! slot = Some (mk_cte (reset_cap fi) mdb) ∧ zero_from k' ptr fi bs ∧
    (st = EXCEPTION_NONE ∧ fi = 0 ∨ st = EXCEPTION_PREEMPTED ∧ true ∈ irq_pending k) ∧
    only_region slot ptr bs k k'.

Lemma chunk_fits m : 256 * (m + 1) ≤ 2 ^ bs → 0 ≤ m →
  wrap32 (ptr + 256 * m) = ptr + 256 * m ∧ (ptr + 256 * m) mod 4 = 0 ∧ 16 * m < 2 ^ 26.
Proof.
  intros Hm H0. assert (2 ^ bs ≤ 2 ^ 29) by (apply Z.pow_le_mono_r; lia).
  split_and!; [apply wrap_same; lia| |lia].
  assert (Hd : (4 | 2 ^ bs)).
  { exists (2 ^ (bs - 2)). change 4 with (2 ^ 2). rewrite <- Z.pow_add_r by lia. f_equal. lia. }
  destruct (Z.divide_trans _ _ _ Hd Hal) as [q ->]. replace (q * 4 + 256 * m) with ((q + 64 * m) * 4) by lia.
  by apply Z.mod_mul.
Qed.

Lemma zero_from_chunk k k' m : zero_from k ptr (16 * (m + 1)) bs →
  (∀ a, in_region (ptr + 256 * m) 8 a = true → empty_at k' a) →
  (∀ a, in_region (ptr + 256 * m) 8 a = false → empty_at k a → empty_at k' a) →
  zero_from k' ptr (16 * m) bs.
Proof.
  intros Hz Hin Hout a Ha. destruct (in_region (ptr + 256 * m) 8 a) eqn:E; [by apply Hin|].
  apply Hout; [done|]. apply Hz. apply out_region_spec in E. lia.
Qed.

(** One chunk, and the rest. *)
Lemma reset_chunk m fuel k c : 0 ≤ m → 256 * (m + 1) ≤ 2 ^ bs →
  ctes k !! slot = Some (mk_cte c mdb) → zero_from k ptr (16 * (m + 1)) bs →
  (∀ k1, ctes k1 !! slot = Some (mk_cte (reset_cap (16 * m)) mdb) → zero_from k1 ptr (16 * m) bs →
     only_region slot ptr bs k k1 → (∀ b, b ∈ irq_pending k1 → b ∈ irq_pending k) →
     wp (reset_chunks fuel slot ptr (wrap32 (256 * m - 256)) (reset_cap fi0))
       (λ st k', reset_to k k' st (16 * m)) k1) →
  wp (reset_chunks (S fuel) slot ptr (256 * m) (reset_cap fi0)) (λ st k', reset_to k k' st (16 * m)) k.
Proof.
  intros Hm Hn Hs Hz Hrest. cbn [reset_chunks]. destruct (chunk_fits m Hn Hm) as (Ew & E4 & H26).
  assert (Hpow : 2 ^ bs ≤ 2 ^ 29) by (apply Z.pow_le_mono_r; lia).
  change (wrap32 (- BIT CONFIG_RESET_CHUNK_BITS)) with (2 ^ 32 - 256).
  destruct (Z.eqb_spec (256 * m) (2 ^ 32 - 256)) as [E|_]; [lia|]. rewrite Ew. change CONFIG_RESET_CHUNK_BITS with 8.
  apply wp_bind, clearMemory_spec; [done|done|]. intros k1 Hin Hout Eg Ep.
  assert (Hsub : ∀ a, in_region ptr bs a = false → in_region (ptr + 256 * m) 8 a = false)
    by (intros a; rewrite !out_region_spec; change (2 ^ 8) with 256; lia).
  destruct (Hout slot (Hsub slot Hslot)) as (_ & _ & _ & Hs1 & _). rewrite Hs in Hs1.
  assert (Ei : OFFSET_TO_FREE_INDEX (256 * m) mod 2 ^ 26 = 16 * m).
  { unfold OFFSET_TO_FREE_INDEX. rewrite Z.shiftr_div_pow2 by lia.
    replace (256 * m) with (16 * m * 2 ^ 4) by lia. rewrite Z.div_mul by lia. apply Z.mod_small. lia. }
  apply wp_bind. unfold wp at 1. cbn [lift set_capFreeIndex reset_cap]. rewrite Ei. fold (reset_cap (16 * m)).
  apply wp_bind, (wp_cte_set _ _ (mk_cte c mdb)); [done|].
  set (k2 := k1 <| ctes ::= _ |>).
  assert (Hs2 : ctes k2 !! slot = Some (mk_cte (reset_cap (16 * m)) mdb)) by apply lookup_insert_eq.
  assert (Hz2 : zero_from k2 ptr (16 * m) bs).
  { assert (Hne : ∀ a, ptr ≤ a < ptr + 2 ^ bs → slot ≠ a) by (apply out_region_spec in Hslot; intros; lia).
    assert (Hz1 : zero_from k1 ptr (16 * m) bs).
    { apply (zero_from_chunk k); [done|done|]. intros a Ha. unfold empty_at.
      destruct (Hout a Ha) as (-> & -> & -> & -> & ->). done. }
    intros a Ha. destruct (Hz1 a Ha) as (?&?&?&?&?). unfold empty_at. cbn. rewrite lookup_insert_ne; [done|].
    apply Hne. lia. }
  assert (O2 : only_region slot ptr bs k k2).
  { split; [|done]. intros a Ha. destruct (Hout a (Hsub a Ha)) as (?&?&?&?&?). split_and!; try done.
    intros Hne. cbn. by rewrite lookup_insert_ne. }
  apply wp_bind. eapply wp_mono; [apply preemptionPoint_spec|].
  intros st k3 (Hst & Hirq & w & p & -> & Hpend). change (irq_pending k2) with (irq_pending k1) in *. rewrite Ep in *.
  set (k3 := k2 <| ksWorkUnitsCompleted := w |> <| irq_pending := p |>).
  assert (O3 : only_region slot ptr bs k k3) by (destruct O2 as [O2 O2']; split; [exact O2|exact O2']).
  destruct (decide (st ≠ EXCEPTION_NONE)) as [Hn0|_].
  - apply wp_ret. destruct Hst as [->| ->]; [done|]. exists (16 * m). split_and!; try done; [lia..|]. right. auto.
  - change (wrap32 (256 * m - BIT 8)) with (wrap32 (256 * m - 256)). by apply Hrest.
Qed.

Lemma reset_to_mono k k1 k' st b b' : only_region slot ptr bs k k1 → (∀ b, b ∈ irq_pending k1 → b ∈ irq_pending k) →
  b ≤ b' → reset_to k1 k' st b → reset_to k k' st b'.
Proof.
  intros O Hp' Hb (fi & Hfi & Hs & Hz & Hst & O'). exists fi. split_and!; try done; [lia..| |by eapply only_region_trans].
  destruct Hst as [?|[? ?]]; [by left|right; auto].
Qed.

Lemma reset_chunks_spec n : ∀ fuel k c,
  (n + 2 ≤ fuel)%nat → 256 * (Z.of_nat n + 1) ≤ 2 ^ bs →
  ctes k !! slot = Some (mk_cte c mdb) → zero_from k ptr (16 * (Z.of_nat n + 1)) bs →
  wp (reset_chunks fuel slot ptr (256 * Z.of_nat n) (reset_cap fi0))
    (λ st k', reset_to k k' st (16 * Z.of_nat n)) k.
Proof.
  assert (Hpow : 2 ^ bs ≤ 2 ^ 29) by (apply Z.pow_le_mono_r; lia).
  induction n as [|n IH]; intros fuel k c Hfuel Hn Hs Hz; (destruct fuel as [|fuel]; [lia|]).
  - apply (reset_chunk (Z.of_nat 0) fuel k c); [lia|done|done|done|]. intros k1 Hs1 Hz1 O1 _.
    destruct fuel as [|fuel]; [lia|]. cbn [reset_chunks].
    change (wrap32 (256 * Z.of_nat 0 - 256) =? wrap32 (- BIT CONFIG_RESET_CHUNK_BITS)) with true. cbv iota.
    apply wp_ret. exists 0. split_and!; try done; [lia..|]. by left.
  - apply (reset_chunk (Z.of_nat (S n)) fuel k c); [lia|done|done|done|]. intros k1 Hs1 Hz1 O1 Hp1.
    replace (256 * Z.of_nat (S n) - 256) with (256 * Z.of_nat n) by lia. rewrite wrap_same by lia.
    eapply wp_mono; [apply (IH fuel k1 _ ltac:(lia) ltac:(lia) Hs1)|].
    + by replace (16 * (Z.of_nat n + 1)) with (16 * Z.of_nat (S n)) by lia.
    + intros st k'. apply reset_to_mono; [done|done|lia].
Qed.
End reset.

Lemma ROUND_DOWN_spec x : 0 ≤ x < 2 ^ 32 → ROUND_DOWN x CONFIG_RESET_CHUNK_BITS = 256 * (x / 256).
Proof.
  intros Hx. unfold ROUND_DOWN, CONFIG_RESET_CHUNK_BITS. rewrite Z.shiftl_mul_pow2, Z.shiftr_div_pow2 by lia.
  change (2 ^ 8) with 256. pose proof (Z.mul_div_le x 256). rewrite wrap_same; [lia|].
  pose proof (Z.div_pos x 256). lia.
Qed.

(** Nothing to clear, or a region smaller than a chunk, or device memory. *)
Lemma reset_small k slot fi dev bs ptr mdb :
  ctes k !! slot = Some (mk_cte (cap_untyped_cap fi dev bs ptr) mdb) → untyped_ok fi bs ptr →
  in_region ptr bs slot = false →
  wp (when (negb dev) (clearMemory ptr bs);;
      c ← lift (set_capFreeIndex 0 (cap_untyped_cap fi dev bs ptr)); set_cap slot c;; mret EXCEPTION_NONE)
    (λ st k', st = EXCEPTION_NONE ∧ ctes k' !! slot = Some (mk_cte (cap_untyped_cap 0 dev bs ptr) mdb) ∧
       (dev = false → zero_from k' ptr 0 bs) ∧ only_region slot ptr bs k k') k.
Proof.
  intros Hs (Hbs & Hp & Htop & Hal & _) Hslot. unfold seL4_MinUntypedBits, seL4_MaxUntypedBits in Hbs.
  assert (Hend : ∀ k1, ctes k1 !! slot = Some (mk_cte (cap_untyped_cap fi dev bs ptr) mdb) →
    (dev = false → zero_from k1 ptr 0 bs) → only_region slot ptr bs k k1 →
    wp (c ← lift (set_capFreeIndex 0 (cap_untyped_cap fi dev bs ptr)); set_cap slot c;; mret EXCEPTION_NONE)
      (λ st k', st = EXCEPTION_NONE ∧ ctes k' !! slot = Some (mk_cte (cap_untyped_cap 0 dev bs ptr) mdb) ∧
         (dev = false → zero_from k' ptr 0 bs) ∧ only_region slot ptr bs k k') k1).
  { intros k1 Hs1 Hz1 [O1 O1']. apply wp_bind. unfold wp at 1. cbn [lift set_capFreeIndex]. change (0 mod 2 ^ 26) with 0.
    apply wp_bind, (wp_cte_set _ _ _ _ _ Hs1), wp_ret. split_and!; [done|apply lookup_insert_eq| |].
    - intros Hd a Ha. destruct (Hz1 Hd a Ha) as (?&?&?&?&?). unfold empty_at. cbn. rewrite lookup_insert_ne; [done|].
      intros <-. apply out_region_spec in Hslot. lia.
    - split; [|done]. intros a Ha. destruct (O1 a Ha) as (?&?&?&?&Hc). split_and!; try done.
      intros Hne. cbn. rewrite lookup_insert_ne by done. by apply Hc. }
  apply wp_bind. destruct dev; cbn [negb when]; [apply wp_ret, Hend; [done|done|apply only_region_refl]|].
  assert (Hd4 : (4 | 2 ^ bs)).
  { exists (2 ^ (bs - 2)). change 4 with (2 ^ 2). rewrite <- Z.pow_add_r by lia. f_equal. lia. }
  apply clearMemory_spec.
  - apply Z.mod_divide; [lia|]. by eapply Z.divide_trans.
  - rewrite BIT_pow2 by lia. by apply Z.mod_divide.
  - intros k1 Hin Hout Eg _. apply Hend.
    + destruct (Hout slot Hslot) as (_ & _ & _ & -> & _). done.
    + intros _ a Ha. apply Hin, in_region_spec. lia.
    + split; [|done]. intros a Ha. destruct (Hout a Ha) as (?&?&?&?&?). by split_and!.
Qed.

(** C30: resetting untyped memory ends.  It comes back either done, with the
    capability's free index at zero, or preempted by a pending interrupt, with the
    free index lower than before; in both cases the memory above the new free
    index is empty, so that the operation can be repeated from there, and nothing
    outside the untyped memory and its slot has changed. *)
Theorem resetUntypedCap_correct k slot fi dev bs ptr mdb :
  ctes k !! slot = Some (mk_cte (cap_untyped_cap fi dev bs ptr) mdb) → untyped_ok fi bs ptr →
  in_region ptr bs slot = false → (dev = false → zero_from k ptr fi bs) →
  wp (resetUntypedCap slot) (λ st k', ∃ fi',
    ctes k' !! slot = Some (mk_cte (cap_untyped_cap fi' dev bs ptr) mdb) ∧
    (st = EXCEPTION_NONE ∧ fi' = 0 ∨
     st = EXCEPTION_PREEMPTED ∧ true ∈ irq_pending k ∧ 0 ≤ fi' < fi) ∧
    (dev = false → zero_from k' ptr fi' bs) ∧ only_region slot ptr bs k k') k.
Proof.
  intros Hs U Hslot Hz. pose proof U as (Hbs & Hp & Htop & Hal & Hf0 & Hf).
  unfold seL4_MinUntypedBits, seL4_MaxUntypedBits in Hbs.
  assert (Hpow : 2 ^ bs ≤ 2 ^ 29) by (apply Z.pow_le_mono_r; lia).
  unfold resetUntypedCap. apply wp_bind, (wp_cte_at _ _ _ _ Hs). apply wp_bind. unfold wp at 1. cbn [lift untyped_parts cte_cap mret outcome_ret].
  rewrite (free_offset fi bs) by lia. destruct (Z.eqb_spec (16 * fi) 0) as [E0|Hne].
  { apply wp_ret. exists 0. assert (fi = 0) as -> by lia. split_and!; auto using only_region_refl. }
  destruct (dev || (bs <? CONFIG_RESET_CHUNK_BITS)) eqn:Ed.
  { eapply wp_mono; [by apply (reset_small k slot fi dev bs ptr mdb)|]. intros st k' (-> & Hs' & Hz' & O').
    exists 0. split_and!; auto. }
  apply orb_false_iff in Ed as [-> Hb%Z.ltb_ge]. unfold CONFIG_RESET_CHUNK_BITS in Hb.
  rewrite (wrap_same (16 * fi - 1)), ROUND_DOWN_spec by lia.
  set (m := (16 * fi - 1) / 256). assert (Hm : 0 ≤ m) by (apply Z.div_pos; lia).
  pose proof (Z.mul_div_le (16 * fi - 1) 256 ltac:(lia)) as Hlo.
  pose proof (Z.mul_succ_div_gt (16 * fi - 1) 256 ltac:(lia)) as Hhi. fold m in Hlo, Hhi. assert (Hd : (256 | 2 ^ bs)).
  { exists (2 ^ (bs - 8)). change 256 with (2 ^ 8). rewrite <- Z.pow_add_r by lia. f_equal. lia. }
  assert (Hfit : 256 * (m + 1) ≤ 2 ^ bs) by (destruct Hd as [q Eq]; rewrite Eq in Hf |- *; lia).
  replace m with (Z.of_nat (Z.to_nat m)) by lia.
  eapply wp_mono; [apply (reset_chunks_spec slot ptr bs fi mdb ltac:(lia) Hp Htop Hal Hslot (Z.to_nat m) _ k
    (cap_untyped_cap fi false bs ptr))|].
  - unfold reset_fuel. assert (m ≤ 16 * fi / 256) by (apply Z.div_le_mono; lia). lia.
  - lia.
  - done.
  - intros a Ha. apply (Hz eq_refl). lia.
  - intros st k' (fi' & Hfi & Hs' & Hz' & Hst & O'). exists fi'. split_and!; auto.
    destruct Hst as [?|[? ?]]; [by left|right]. split_and!; auto; lia.
Qed.

(** ** A small system: untyped memory of 4K in use up to its second chunk *)

Definition reset_demo : ks :=
  demo_ks <| ctes := {[ 4096 := mk_cte (cap_untyped_cap 32 false 12 1048576) (mdb_node_new 0 true true 0) ]} |>
    <| irq_pending := [true] |>.

Lemma below_none {A} (m : gmap Z A) lo a : bool_decide (map_Forall (λ b _, b < lo) m) = true → lo ≤ a → m !! a = None.
Proof.
  intros H%bool_decide_eq_true Ha. destruct (m !! a) as [x|] eqn:E; [|done]. apply H in E. lia.
Qed.

Lemma reset_demo_zero : zero_from reset_demo 1048576 32 12.
Proof.
  intros a Ha. split_and!; (eapply (below_none _ 1048576); [vm_compute; reflexivity|lia]).
Qed.

Lemma resetUntypedCap_correct_witness :
  wp (resetUntypedCap 4096) (λ st k', ∃ fi',
    ctes k' !! 4096 = Some (mk_cte (cap_untyped_cap fi' false 12 1048576) (mdb_node_new 0 true true 0)) ∧
    (st = EXCEPTION_NONE ∧ fi' = 0 ∨
     st = EXCEPTION_PREEMPTED ∧ true ∈ irq_pending reset_demo ∧ 0 ≤ fi' < 32) ∧
    (false = false → zero_from k' 1048576 fi' 12) ∧ only_region 4096 1048576 12 reset_demo k') reset_demo.
Proof.
  refine (resetUntypedCap_correct reset_demo 4096 32 false 12 1048576 (mdb_node_new 0 true true 0) eq_refl _ eq_refl
    (λ _, reset_demo_zero)).
  split_and!; try (vm_compute; congruence). by exists 256.
Defined.
