(* ===== verification/Creation.v ===== *)
(** Creating objects: what [createObject] and [createNewObjects] put into memory
    and into the destination slots. *)

From S2P Require Import Prelude Caps Kernel CSpace CNode Scheduler Wakeup Paging VSpace IOSpace Ipc Waiting Transfer Retype Reset.

(** ** One object *)

(** The capability covers exactly the memory of the object. *)
Definition covers (c : cap_t) (base bits : Z) : Prop :=
  is_null c = false ∧ cap_get_capIsPhysical c = Done true ∧ cap_get_capPtr c = Done base ∧
  cap_get_capSizeBits c = Done bits.

Notation null_slot := (mk_cte cap_null_cap nullMDBNode).

Lemma zero_slots_out n : ∀ p m a, (∀ j, 0 ≤ j < Z.of_nat n → a ≠ p + 16 * j) → zero_slots n p m !! a = m !! a.
Proof.
  induction n as [|n IH]; intros p m a Ha; [done|]. cbn. rewrite lookup_insert_ne.
  - apply IH. intros j Hj. specialize (Ha (j + 1)). lia.
  - intros E. apply (Ha 0); lia.
Qed.

Lemma zero_slots_cases n : ∀ p m a s, zero_slots n p m !! a = Some s →
  m !! a = Some s ∨ (∃ j, 0 ≤ j < Z.of_nat n ∧ a = p + 16 * j) ∧ s = null_slot.
Proof.
  induction n as [|n IH]; intros p m a s; [by left|]. cbn. intros [[<- <-]|[_ H]]%lookup_insert_Some.
  - right. split; [exists 0; lia|done].
  - destruct (IH _ _ _ _ H) as [?|[(j & Hj & ->) ->]]; [by left|]. right. split; [exists (j + 1); lia|done].
Qed.

(** New empty slots leave the derivation list alone. *)
Lemma mdb_ok_grow h h' cs : mdb_ok h cs → h' !! 0 = None →
  (∀ a s, h !! a = Some s → h' !! a = Some s) →
  (∀ a s, h' !! a = Some s → h !! a = Some s ∨ h !! a = None ∧ s = null_slot) →
  mdb_ok h' cs.
Proof.
  intros H H0 Hkeep Hnew.
  assert (Hin : ∀ a, a ∈ concat cs → is_Some (h !! a)).
  { intros a (l & Hl & Ha)%elem_of_concat. by apply (dseg_lookup mdb_links h 0 l 0 a (mo_chain _ _ H l Hl)). }
  split; [|apply H| | |done].
  - intros l Hl. eapply dseg_frame; [|by apply (mo_chain _ _ H)]. intros u Hu.
    destruct (Hin u) as [s Hs]; [apply elem_of_concat; by exists l|]. by rewrite Hs, (Hkeep _ _ Hs).
  - intros a s Hs. destruct (Hnew a s Hs) as [Hs0|[Hn ->]]; [exact (mo_used _ _ H a s Hs0)|].
    split; [|done]. intros Ha. apply Hin in Ha as [s Hs']. congruence.
  - intros a s Hs. destruct (Hnew a s Hs) as [Hs0|[_ ->]]; [exact (mo_free _ _ H a s Hs0)|done].
Qed.

(** Nothing outside the region of the object differs, and what is new among the
    slots are empty slots inside it. *)
Record only_object (base bits : Z) (k k' : ks) : Prop := {
  oo_out : ∀ a, in_region base bits a = false →
    tcbs k' !! a = tcbs k !! a ∧ ntfns k' !! a = ntfns k !! a ∧ eps k' !! a = eps k !! a ∧
    ctes k' !! a = ctes k !! a ∧ mem_words k' !! a = mem_words k !! a;
  oo_slots : ∀ a s, ctes k' !! a = Some s → ctes k !! a = Some s ∨ in_region base bits a = true ∧ s = null_slot;
  oo_rest : sched_globals k' = sched_globals k
}.

Lemma only_object_grow base bits k k' cs : mdb_ok (ctes k) cs → 0 < base →
  (∀ a, in_region base bits a = true → ctes k !! a = None) → only_object base bits k k' → mdb_ok (ctes k') cs.
Proof.
  intros H Hb Hz [Ho Hn _]. eapply mdb_ok_grow; [done| | |].
  - destruct (Ho 0) as (_ & _ & _ & -> & _); [apply out_region_spec; lia|apply (mo_ptr _ _ H)].
  - intros a s Hs. destruct (in_region base bits a) eqn:E; [by rewrite (Hz a E) in Hs|].
    by destruct (Ho a E) as (_ & _ & _ & -> & _).
  - intros a s Hs. destruct (Hn a s Hs) as [?|[Hr ->]]; [by left|right]. by rewrite (Hz a Hr).
Qed.

Lemma type_cases t : 0 ≤ t < seL4_ObjectTypeCount →
  t = 0 ∨ t = 1 ∨ t = 2 ∨ t = 3 ∨ t = 4 ∨ t = 5 ∨ t = 6 ∨ t = 7 ∨ t = 8.
Proof. unfold seL4_ObjectTypeCount. lia. Qed.

(** A changed address inside the region. *)
Lemma insert_out {A} (m : gmap Z A) p x base bits a :
  base ≤ p < base + 2 ^ bits → in_region base bits a = false → <[p := x]> m !! a = m !! a.
Proof. intros Hp Ha%out_region_spec. rewrite lookup_insert_ne; [done|]. intros <-. lia. Qed.

Lemma only_object_id base bits k k' : tcbs k' = tcbs k → ntfns k' = ntfns k → eps k' = eps k → ctes k' = ctes k →
  sched_globals k' = sched_globals k → mem_words k' = mem_words k → only_object base bits k k'.
Proof. intros E1 E2 E3 E4 ? E5. split; rewrite ?E1, ?E2, ?E3, ?E4, ?E5; auto. Qed.

Lemma only_object_slots base bits k k' n :
  16 * Z.of_nat n ≤ 2 ^ bits → ctes k' = zero_slots n base (ctes k) →
  (∀ a, in_region base bits a = false →
     tcbs k' !! a = tcbs k !! a ∧ ntfns k' !! a = ntfns k !! a ∧ eps k' !! a = eps k !! a) →
  sched_globals k' = sched_globals k → mem_words k' = mem_words k → only_object base bits k k'.
Proof.
  intros Hn Ec Ho ? Ew. split; [| |done].
  - intros a Ha. destruct (Ho a Ha) as (?&?&?). split_and!; try done; [|by rewrite Ew]. rewrite Ec. apply zero_slots_out.
    intros j Hj ->. apply out_region_spec in Ha. lia.
  - intros a s. rewrite Ec. intros [?|[(j & Hj & ->) ->]]%zero_slots_cases; [by left|right].
    split; [|done]. apply in_region_spec. lia.
Qed.

Lemma tcb_block_base b : 0 ≤ b → b + 1024 ≤ 2 ^ 32 → (1024 | b) → tcb_block (wrap32 (b + TCB_OFFSET)) = b.
Proof.
  intros H0 Hb [q ->]. unfold tcb_block, TCB_SIZE_BITS, TCB_OFFSET. rewrite wrap_same, land_lnot_mask by lia.
  change (2 ^ 10) with 1024. rewrite Z.add_comm, Z.mod_add, Z.mod_small by lia. lia.
Qed.

(** The entries the kernel copies are entries of the new page directory. *)
Lemma copyGlobalMappings_spec k b (Q : unit → ks → Prop) : 0 ≤ b → b + 4096 ≤ 2 ^ 32 →
  (∀ w, (∀ a, in_region b 12 a = false → w !! a = mem_words k !! a) → Q tt (k <| mem_words := w |>)) →
  wp (copyGlobalMappings b) Q k.
Proof.
  intros Hb Ht HQ. unfold copyGlobalMappings. eapply wp_mono;
    [apply (wp_for_range (λ _ k', ∃ w, k' = k <| mem_words := w |> ∧ ∀ a, in_region b 12 a = false → w !! a = mem_words k !! a))|].
  - exists (mem_words k). split; [by destruct k|done].
  - intros i k' Hi (w & -> & Hw). change (Z.shiftr PPTR_BASE 22) with 896 in Hi. change (BIT 10) with 1024 in Hi.
    apply wp_bind, wp_gets, wp_bind, wp_gets, wp_modify. eexists. split; [reflexivity|]. intros a Ha. cbn.
    rewrite (insert_out _ _ _ b 12); [by apply Hw| |done]. unfold entry_ptr. change (2 ^ 12) with 4096 in *.
    rewrite wrap_same by lia. lia.
  - intros [] k' (w & -> & Hw). by apply HQ.
Qed.

Section create.
Context (k : ks) (t b u os : Z) (dev : bool).
Hypotheses (Ht : 0 ≤ t < seL4_ObjectTypeCount) (Hu : 0 ≤ u ≤ seL4_MaxUntypedBits) (Hos : getObjectSize t u = Done os).
Hypotheses (Hb : 0 ≤ b) (Htop : b + 2 ^ os ≤ 2 ^ 32) (Hal : (2 ^ os | b)).

Lemma create_tcb : t = seL4_TCBObject →
  wp (createObject t b u dev) (λ c k', covers c b os ∧ only_object b os k k') k.
Proof.
  intros ->. injection Hos as <-. unfold createObject. cbn -[wrap32 TCB_OFFSET zero_slots tcb_block].
  set (tcb := wrap32 (b + TCB_OFFSET)).
  apply wp_bind, wp_modify. unfold Arch_initContext. apply wp_bind, wp_bind.
  eapply wp_tcb_set; [apply lookup_insert_eq|]. apply wp_modify.
  apply wp_bind. eapply wp_tcb_set; [apply lookup_insert_eq|]. apply wp_bind, wp_gets.
  apply wp_bind. eapply wp_tcb_set; [apply lookup_insert_eq|]. apply wp_bind, wp_modify, wp_ret.
  change (2 ^ 10) with 1024 in *.
  assert (Etcb : tcb = b + 256) by (apply wrap_same; unfold TCB_OFFSET; lia). split.
  - split_and!; [done|done| |done]. cbn [cap_get_capPtr]. unfold tcb. by rewrite tcb_block_base.
  - apply (only_object_slots _ _ _ _ tcb_slots); try done. intros a Ha. cbn. split_and!; try done.
    repeat rewrite (insert_out _ tcb _ b 10) by (done || (change (2 ^ 10) with 1024; lia)). done.
Qed.

Lemma create_pd : t = seL4_X86_PageDirectoryObject →
  wp (createObject t b u dev) (λ c k', covers c b os ∧ only_object b os k k') k.
Proof.
  intros ->. injection Hos as <-. unfold createObject, Mode_createObject. cbn -[copyGlobalMappings].
  apply wp_bind, copyGlobalMappings_spec; [done|done|]. intros w Hw. apply wp_ret. split; [done|].
  split; [|by left|done]. intros a Ha. by rewrite <- (Hw a Ha).
Qed.

Lemma create_other : t ≠ seL4_TCBObject → t ≠ seL4_X86_PageDirectoryObject →
  wp (createObject t b u dev) (λ c k', covers c b os ∧ only_object b os k k') k.
Proof.
  intros Hn Hn'. unfold seL4_MaxUntypedBits in Hu. assert (H4 : wrap32 (4 + u) = 4 + u) by (apply wrap_same; lia).
  assert (Hin : b ≤ b < b + 2 ^ os) by (assert (0 < 2 ^ os) by (apply Z.pow_pos_nonneg; [lia|];
    destruct (getObjectSize_done t u) as (os' & E & ? & _); [done|unfold seL4_MaxUntypedBits; lia|];
    rewrite Hos in E; injection E as ->; lia); lia).
  destruct (type_cases t Ht) as [->|[->|[->|[->|[->|[->|[->|[->| ->]]]]]]]];
    try (exfalso; by apply Hn); try (exfalso; by apply Hn');
    unfold getObjectSize in Hos; cbn -[wrap32] in Hos; injection Hos as <-;
    unfold createObject, Mode_createObject; cbn -[wrap32 zero_slots];
    repeat (apply wp_bind, wp_modify); apply wp_ret; (split; [split_and!; try done; unfold seL4_SlotBits; cbn; by rewrite Z.add_comm|]);
    try (by apply only_object_id).
  - split; [|by left|done]. intros a Ha. cbn. by rewrite (insert_out _ b _ b 4).
  - split; [|by left|done]. intros a Ha. cbn. by rewrite (insert_out _ b _ b 4).
  - rewrite H4. apply (only_object_slots _ _ _ _ (Z.to_nat (2 ^ u))); try done.
    rewrite Z2Nat.id by lia. rewrite Z.pow_add_r by lia. lia.
Qed.

Lemma createObject_spec :
  wp (createObject t b u dev) (λ c k', covers c b os ∧ only_object b os k k') k.
Proof.
  destruct (decide (t = seL4_TCBObject)); [by apply create_tcb|].
  destruct (decide (t = seL4_X86_PageDirectoryObject)); [by apply create_pd|by apply create_other].
Qed.
End create.

(** ** A range of objects *)

Section range.
Context (k : ks) (chains : list (list Z)) (t parent u os base : Z) (dev : bool) (slots : slot_range_t) (p : cte_t).

Definition dest (i : Z) : Z := cte_index (sr_cnode slots) (sr_offset slots + i).
Definition region_end : Z := base + sr_length slots * 2 ^ os.

(** The destinations, each put right behind the parent. *)
Fixpoint insert_dests (n : nat) : list (list Z) :=
  match n with
  | O => chains
  | S n' => insert_after parent (dest (Z.of_nat n')) <$> insert_dests n'
  end.

(** The state when the first [i] objects have been made. *)
Record created (i : Z) (k' : ks) : Prop := {
  cr_mdb : mdb_ok (ctes k') (insert_dests (Z.to_nat i));
  cr_caps : ∀ j, 0 ≤ j < i → ∃ c, covers c (base + j * 2 ^ os) os ∧
    slot_core <$> ctes k' !! dest j = Some (mk_cte c (mdb_node_new 0 true true 0));
  cr_slots : ∀ a, ¬ (base ≤ a < region_end) → (∀ j, 0 ≤ j < i → a ≠ dest j) →
    slot_core <$> ctes k' !! a = slot_core <$> ctes k !! a;
  cr_free : ∀ a, base + i * 2 ^ os ≤ a < region_end → ctes k' !! a = None;
  cr_out : ∀ a, ¬ (base ≤ a < region_end) →
    tcbs k' !! a = tcbs k !! a ∧ ntfns k' !! a = ntfns k !! a ∧ eps k' !! a = eps k !! a ∧
    mem_words k' !! a = mem_words k !! a;
  cr_rest : sched_globals k' = sched_globals k
}.

Hypotheses (Ht : 0 ≤ t < seL4_ObjectTypeCount) (Hu : 0 ≤ u ≤ seL4_MaxUntypedBits) (Hos : getObjectSize t u = Done os).
Hypotheses (Hb : 0 < base) (Htop : region_end ≤ 2 ^ 32) (Hal : (2 ^ os | base)).
Hypotheses (Hmdb : mdb_ok (ctes k) chains) (Hp : ctes k !! parent = Some p) (Hpn : is_null (cte_cap p) = false).
Hypotheses (Hoff : 0 ≤ sr_offset slots) (Hlen : 0 ≤ sr_length slots) (Hfit : sr_offset slots + sr_length slots ≤ 2 ^ 28).
Hypothesis (Hdest : ∀ i, 0 ≤ i < sr_length slots → ∃ d, ctes k !! dest i = Some d ∧ is_null (cte_cap d) = true).
Hypothesis (Hfree : ∀ a, base ≤ a < region_end → ctes k !! a = None).

Lemma dest_inj i j : 0 ≤ i < sr_length slots → 0 ≤ j < sr_length slots → dest i = dest j → i = j.
Proof.
  intros Hi Hj. unfold dest, cte_index, wrap32. change word_mod with (2 ^ 32).
  set (x := sr_cnode slots + 16 * (sr_offset slots + i)). set (y := sr_cnode slots + 16 * (sr_offset slots + j)).
  intros E. pose proof (Z.div_mod x (2 ^ 32) ltac:(lia)). pose proof (Z.div_mod y (2 ^ 32) ltac:(lia)).
  assert (Hxy : x - y = 16 * (i - j)) by (unfold x, y; lia).
  assert (x / 2 ^ 32 = y / 2 ^ 32) by nia. lia.
Qed.

Lemma dest_outside i : 0 ≤ i < sr_length slots → ¬ (base ≤ dest i < region_end) ∧ dest i ≠ parent.
Proof.
  intros Hi. destruct (Hdest i Hi) as (d & Hd & Hn). split.
  - intros Hr. by rewrite (Hfree _ Hr) in Hd.
  - intros E. rewrite E in Hd. congruence.
Qed.

Lemma object_in_range i : 0 ≤ i < sr_length slots → 0 < 2 ^ os ∧ (2 ^ os | base + i * 2 ^ os) ∧
  base ≤ base + i * 2 ^ os ∧ base + (i + 1) * 2 ^ os ≤ region_end.
Proof.
  intros Hi. assert (0 < 2 ^ os).
  { apply Z.pow_pos_nonneg; [lia|]. destruct (getObjectSize_done t u Ht Hu) as (os' & E & ? & _).
    rewrite Hos in E. injection E as ->. lia. }
  unfold region_end. split_and!; [done| |nia|nia]. apply Z.divide_add_r; [done|by exists i].
Qed.

(** A slot apart from its links tells its capability. *)
Lemma core_cap (o o' : option cte_t) s : slot_core <$> o' = slot_core <$> o → o = Some s →
  ∃ s', o' = Some s' ∧ cte_cap s' = cte_cap s.
Proof.
  intros E ->. destruct o' as [s'|]; [|done]. exists s'. split; [done|].
  cbn [fmap option_fmap option_map] in E. apply (inj Some) in E.
  change (cte_cap s') with (cte_cap (slot_core s')). by rewrite E.
Qed.

Lemma create_next i k' : 0 ≤ i < sr_length slots → created i k' →
  wp (c ← createObject t (wrap32 (base + wrap32 (Z.shiftl i os))) u dev;
      insertNewCap parent (cte_index (sr_cnode slots) (sr_offset slots + i)) c)
    (λ _ k'', created (i + 1) k'') k'.
Proof.
  intros Hi [Cm Cc Cs Cf Co Cr]. destruct (object_in_range i Hi) as (Hpos & Hd & Hlo & Hhi).
  assert (Hos0 : 0 ≤ os) by (destruct (Z.le_gt_cases 0 os); [done|]; rewrite Z.pow_neg_r in Hpos by done; lia).
  rewrite Z.shiftl_mul_pow2, (wrap_same (i * _)), wrap_same by nia. set (b := base + i * 2 ^ os) in *.
  assert (Hreg : ∀ a, in_region b os a = true → ctes k' !! a = None)
    by (intros a Ha%in_region_spec; apply Cf; unfold b in *; lia).
  assert (Hout : ∀ a, ¬ (base ≤ a < region_end) → in_region b os a = false)
    by (intros a Ha; apply out_region_spec; unfold b in *; lia).
  apply wp_bind. eapply wp_mono; [apply (createObject_spec k' t b u os dev Ht Hu Hos); [lia|unfold b in *; lia|done]|].
  intros c k1 [Hcov O]. pose proof (only_object_grow b os k' k1 _ Cm ltac:(lia) Hreg O) as M1.
  destruct O as [Oo _ Or].
  assert (Hkeep : ∀ a, ¬ (base ≤ a < region_end) → ctes k1 !! a = ctes k' !! a)
    by (intros a Ha; by destruct (Oo a (Hout a Ha)) as (_ & _ & _ & -> & _)).
  destruct (dest_outside i Hi) as [Hdo Hdp].
  assert (Hpo : ¬ (base ≤ parent < region_end)) by (intros Hr; by rewrite (Hfree _ Hr) in Hp).
  destruct (core_cap (ctes k !! parent) (ctes k1 !! parent) p) as (p1 & Hp1 & Ep1); [|done|].
  { rewrite Hkeep by done. apply Cs; [done|]. intros j Hj E. destruct (dest_outside j); [lia|done]. }
  destruct (Hdest i Hi) as (d & Hdd & Hdn).
  destruct (core_cap (ctes k !! dest i) (ctes k1 !! dest i) d) as (d1 & Hd1 & Ed1); [|done|].
  { rewrite Hkeep by done. apply Cs; [done|]. intros j Hj E. apply dest_inj in E; lia. }
  fold (dest i). eapply wp_mono; [apply (insertNewCap_inserts k1 _ parent (dest i) c p1 d1 M1 Hp1 Hd1);
    [by rewrite Ep1|by rewrite Ed1|apply Hcov]|].
  intros [] k2 (h & E2 & M2 & Hnew & Hoth). assert (Eh : ctes k2 = h) by (by rewrite E2).
  split; rewrite ?Eh.
  - replace (Z.to_nat (i + 1)) with (S (Z.to_nat i)) by lia. cbn [insert_dests]. by rewrite Z2Nat.id by lia.
  - intros j Hj. destruct (decide (j = i)) as [->|Hne]; [by exists c|].
    destruct (Cc j ltac:(lia)) as (cj & ? & Hcj). exists cj. split; [done|].
    assert (dest j ≠ dest i) by (intros E; apply dest_inj in E; lia).
    destruct (dest_outside j ltac:(lia)) as [Hjo _]. rewrite Hoth, Hkeep by done. done.
  - intros a Ha Hne. rewrite Hoth by (apply Hne; lia).
    rewrite Hkeep by done. apply Cs; [done|]. intros j Hj. apply Hne. lia.
  - intros a Ha. assert (Hai : a ≠ dest i) by (intros ->; apply Hdo; nia).
    assert (Hn : slot_core <$> h !! a = None).
    { rewrite Hoth by done. assert (Hio : in_region b os a = false) by (apply out_region_spec; unfold b; lia).
      destruct (Oo a Hio) as (_ & _ & _ & -> & _). rewrite Cf by (unfold b in *; lia). done. }
    by destruct (h !! a).
  - intros a Ha. rewrite E2. destruct (Oo a (Hout a Ha)) as (E1 & E3 & E4 & _ & E5). destruct (Co a Ha) as (<- & <- & <- & <-). done.
  - rewrite E2. rewrite <- Cr. exact Or.
Qed.

Lemma createNewObjects_spec :
  wp (createNewObjects t parent slots base u dev) (λ _ k', created (sr_length slots) k') k.
Proof.
  unfold createNewObjects. apply wp_bind. unfold wp at 1. cbn [lift]. rewrite Hos.
  eapply wp_mono; [apply (wp_for_range created)|].
  - split; try done; [intros j Hj; lia|]. intros a Ha. apply Hfree. lia.
  - intros i k' Hi. apply create_next. lia.
  - intros [] k' H. by rewrite Z.add_0_l, Z2Nat.id in H.
Qed.
End range.

(** ** Retyping *)

Lemma mdb_ok_set_cap h cs p s c : mdb_ok h cs → h !! p = Some s → is_null c = is_null (cte_cap s) →
  mdb_ok (<[p := s <| cte_cap := c |>]> h) cs.
Proof.
  intros H Hp Hn. assert (Hcase : ∀ a s', <[p := s <| cte_cap := c |>]> h !! a = Some s' → ∃ s0, h !! a = Some s0 ∧
    is_null (cte_cap s') = is_null (cte_cap s0) ∧ cteMDBNode s' = cteMDBNode s0).
  { intros a s' [[<- <-]|[_ Ha]]%lookup_insert_Some; [by exists s|by exists s']. }
  split; [|apply H| | |].
  - intros l Hl. eapply dseg_frame; [|by apply (mo_chain _ _ H)]. intros a _.
    destruct (decide (p = a)) as [<-|Hne]; [by rewrite lookup_insert_eq, Hp|by rewrite lookup_insert_ne].
  - intros a s' Hs'. destruct (Hcase a s' Hs') as (s0 & Hs0 & -> & _). exact (mo_used _ _ H a s0 Hs0).
  - intros a s' Hs'. destruct (Hcase a s' Hs') as (s0 & Hs0 & -> & ->). exact (mo_free _ _ H a s0 Hs0).
  - rewrite lookup_insert_ne; [apply (mo_ptr _ _ H)|]. intros ->. by rewrite (mo_ptr _ _ H) in Hp.
Qed.

(** The window of destination slots: inside a node, each of them empty. *)
Definition empty_window (h : gmap Z cte_t) (slots : slot_range_t) : Prop :=
  0 ≤ sr_offset slots ∧ 0 ≤ sr_length slots ∧ sr_offset slots + sr_length slots ≤ 2 ^ 28 ∧
  ∀ i, 0 ≤ i < sr_length slots → ∃ d, h !! dest slots i = Some d ∧ is_null (cte_cap d) = true.

Lemma free_index_end ptr base total bs : 0 ≤ ptr → ptr ≤ base → 0 ≤ total → base + total ≤ ptr + 2 ^ bs →
  ptr + 2 ^ bs ≤ 2 ^ 32 → 0 ≤ bs ≤ 29 → (16 | base + total - ptr) → 0 < total →
  ptr + 16 * (GET_FREE_INDEX ptr (wrap32 (base + total)) mod 2 ^ 26) = base + total.
Proof.
  intros Hp Hb Ht Hfit Htop Hbs [q Eq] Hpos. assert (2 ^ bs ≤ 2 ^ 29) by (apply Z.pow_le_mono_r; lia).
  assert (E : wrap32 (wrap32 (base + total) - ptr) = base + total - ptr).
  { unfold wrap32. change word_mod with (2 ^ 32). rewrite Zminus_mod_idemp_l. apply Z.mod_small. lia. }
  unfold GET_FREE_INDEX. rewrite E, Eq, Z.shiftr_div_pow2 by lia. change (2 ^ 4) with 16.
  rewrite Z.div_mul, Z.mod_small by lia. lia.
Qed.

Lemma end_aligned ptr base n os bs : 4 ≤ os → 4 ≤ bs → (2 ^ os | base) → (2 ^ bs | ptr) →
  (16 | base + n * 2 ^ os - ptr).
Proof.
  intros Hos Hbs Hb Hp. assert (H16 : ∀ x, 4 ≤ x → (16 | 2 ^ x)).
  { intros x Hx. exists (2 ^ (x - 4)). change 16 with (2 ^ 4). rewrite <- Z.pow_add_r by lia. f_equal. lia. }
  apply Z.divide_sub_r; [apply Z.divide_add_r|].
  - eapply Z.divide_trans; [apply (H16 os Hos)|done].
  - apply Z.divide_mul_r, H16. lia.
  - eapply Z.divide_trans; [apply (H16 bs Hbs)|done].
Qed.

(** A fresh untyped object has nothing to reset. *)
Lemma reset_nothing k slot reset fi dev bs ptr mdb :
  ctes k !! slot = Some (mk_cte (cap_untyped_cap fi dev bs ptr) mdb) → (reset = true → fi = 0) →
  wp (if reset then resetUntypedCap slot else mret EXCEPTION_NONE) (λ st k', st = EXCEPTION_NONE ∧ k' = k) k.
Proof.
  intros Hs Hreset. destruct reset; [|done]. unfold resetUntypedCap. apply wp_bind, (wp_cte_at _ _ _ _ Hs).
  apply wp_bind. unfold wp at 1. cbn [lift untyped_parts cte_cap mret outcome_ret]. by rewrite (Hreset eq_refl).
Qed.

Lemma invokeUntyped_Retype_spec k chains slot mdb fi dev bs ptr t u slots base reset :
  ctes k !! slot = Some (mk_cte (cap_untyped_cap fi dev bs ptr) mdb) → untyped_ok fi bs ptr → 0 < ptr →
  retype_args t u (sr_length slots) →
  place_objects fi dev bs ptr t u (sr_length slots) = Done (Placed base) →
  (reset = true → fi = 0) → mdb_ok (ctes k) chains → empty_window (ctes k) slots →
  (∀ a, ptr + 16 * fi ≤ a < ptr + 2 ^ bs → ctes k !! a = None) →
  wp (invokeUntyped_Retype slot reset base t u slots dev) (λ st k', st = EXCEPTION_NONE ∧
    ∃ os fi', getObjectSize t u = Done os ∧ untyped_ok fi' bs ptr ∧
      ptr + 16 * fi ≤ base ∧ ptr + 16 * fi' = base + sr_length slots * 2 ^ os ∧
      created (k <| ctes ::= <[slot := mk_cte (cap_untyped_cap fi' dev bs ptr) mdb]> |>) chains slot os base slots
        (sr_length slots) k') k.
Proof.
  intros Hs U Hptr A Hplace Hreset M (W1 & W2 & W3 & W4) Hz.
  destruct (place_objects_spec fi dev bs ptr t u (sr_length slots) U A) as (os & Eos & pl & Epl & Hpl).
  rewrite Hplace in Epl. injection Epl as <-. destruct Hpl as (Hal & [Hlo _] & Hhi).
  pose proof U as (Hbs & _ & Htop & Hdiv & Hf0 & Hf). destruct A as (Ht & Hu & Hmin & Hn).
  destruct (getObjectSize_done t u Ht Hu) as (os' & E & Hos & H4). rewrite Eos in E. injection E as <-. specialize (H4 Hmin).
  unfold seL4_MinUntypedBits, seL4_MaxUntypedBits in Hbs. set (n := sr_length slots) in *.
  assert (Hpos : 0 < 2 ^ os) by lia. assert (Hpow : 2 ^ bs ≤ 2 ^ 29) by (apply Z.pow_le_mono_r; lia).
  unfold invokeUntyped_Retype. apply wp_bind, (wp_cte_at _ _ _ _ Hs). apply wp_bind.
  unfold wp at 1. cbn [lift untyped_parts cte_cap mret outcome_ret].
  apply wp_bind. eapply wp_mono; [by eapply (reset_nothing k slot reset)|]. intros st k0 [-> ->].
  rewrite decide_False by tauto. apply wp_bind. unfold wp at 1. cbn [lift]. rewrite Eos.
  apply wp_bind, (wp_cte_at _ _ _ _ Hs). apply wp_bind. unfold wp at 1. cbn [lift set_capFreeIndex cte_cap mret outcome_ret].
  fold n. rewrite Z.shiftl_mul_pow2, (wrap_same (n * 2 ^ os)) by nia. set (fi' := GET_FREE_INDEX _ _ mod _).
  assert (Hend : ptr + 16 * fi' = base + n * 2 ^ os).
  { apply (free_index_end ptr base (n * 2 ^ os) bs); try nia. apply (end_aligned ptr base n os bs); done || lia. }
  apply wp_bind, (wp_cte_set _ _ _ _ _ Hs). apply wp_bind. set (k1 := k <| ctes ::= _ |>).
  assert (Hs1 : ctes k1 !! slot = Some (mk_cte (cap_untyped_cap fi' dev bs ptr) mdb)) by apply lookup_insert_eq.
  eapply wp_mono; [apply (createNewObjects_spec k1 chains t slot u os base dev slots (mk_cte (cap_untyped_cap fi' dev bs ptr) mdb) Ht Hu Eos); try done|].
  - lia.
  - unfold region_end. fold n. lia.
  - by apply (mdb_ok_set_cap _ _ _ _ _ M Hs).
  - intros i Hi. destruct (W4 i Hi) as (d & Hd & Hdn). exists d. split; [|done].
    change (<[slot := mk_cte (cap_untyped_cap fi' dev bs ptr) mdb]> (ctes k) !! dest slots i = Some d).
    rewrite lookup_insert_ne; [done|]. intros E. rewrite <- E, Hs in Hd. by injection Hd as <-.
  - intros a Ha. unfold region_end in Ha. fold n in Ha.
    change (<[slot := mk_cte (cap_untyped_cap fi' dev bs ptr) mdb]> (ctes k) !! a = None).
    assert (Hza : ctes k !! a = None) by (apply Hz; lia). rewrite lookup_insert_ne; [done|]. intros <-. congruence.
  - intros [] k' C. apply wp_ret. split; [done|]. exists os, fi'. split; [done|]. split; [|by split_and!].
    unfold untyped_ok, seL4_MinUntypedBits, seL4_MaxUntypedBits. split_and!; done || lia.
Qed.

(** C25: retyping.  A placed request ends without error: every destination slot
    holds a capability that covers exactly its own part of the untyped memory, in
    order and without overlap, put behind the untyped capability in the derivation
    list; the untyped capability's free index is the end of the last object, which
    is still inside it; no other slot changes its capability, and no thread,
    notification or endpoint outside the new objects changes. *)
Theorem invokeUntyped_Retype_correct k chains slot mdb fi dev bs ptr t u slots base reset :
  ctes k !! slot = Some (mk_cte (cap_untyped_cap fi dev bs ptr) mdb) → untyped_ok fi bs ptr → 0 < ptr →
  retype_args t u (sr_length slots) →
  place_objects fi dev bs ptr t u (sr_length slots) = Done (Placed base) →
  (reset = true → fi = 0) → mdb_ok (ctes k) chains → empty_window (ctes k) slots →
  (∀ a, ptr + 16 * fi ≤ a < ptr + 2 ^ bs → ctes k !! a = None) →
  wp (invokeUntyped_Retype slot reset base t u slots dev) (λ st k', st = EXCEPTION_NONE ∧
    ∃ os fi', getObjectSize t u = Done os ∧ untyped_ok fi' bs ptr ∧
      ptr + 16 * fi ≤ base ∧ ptr + 16 * fi' = base + sr_length slots * 2 ^ os ∧
      created (k <| ctes ::= <[slot := mk_cte (cap_untyped_cap fi' dev bs ptr) mdb]> |>) chains slot os base slots
        (sr_length slots) k') k.
Proof. exact (invokeUntyped_Retype_spec k chains slot mdb fi dev bs ptr t u slots base reset). Qed.

(** ** A small system: two endpoints of a fresh untyped object *)

Definition retype_cap : cap_t := cap_untyped_cap 0 false 12 1048576.
Definition retype_slots : gmap Z cte_t :=
  <[4096 := mk_cte retype_cap (mdb_node_new 0 true true 0)]> (<[4112 := null_slot]> (<[4128 := null_slot]> ∅)).
Definition retype_demo : ks := demo_ks <| ctes := retype_slots |>.

Lemma retype_slots_cases (P : Z → cte_t → Prop) :
  P 4096 (mk_cte retype_cap (mdb_node_new 0 true true 0)) → P 4112 null_slot → P 4128 null_slot →
  ∀ p s, retype_slots !! p = Some s → P p s.
Proof.
  intros H1 H2 H3 p s Hp. unfold retype_slots in Hp.
  repeat (apply lookup_insert_Some in Hp as [[<- <-]|[_ Hp]]; [done|]). done.
Qed.

Lemma retype_demo_mdb : mdb_ok (ctes retype_demo) [[4096]].
Proof.
  change (ctes retype_demo) with retype_slots. split.
  - intros l [->|[]%elem_of_nil]%elem_of_cons. cbn. split; [done|]. split; [|done].
    eexists. split; [vm_compute; reflexivity|done].
  - cbn. repeat (apply NoDup_cons; split; [set_solver|]). apply NoDup_nil_2.
  - apply (retype_slots_cases (λ p s, p ∈ concat [[4096]] ↔ is_null (cte_cap s) = false)); cbn; split; try done; set_solver.
  - by apply (retype_slots_cases (λ p s, is_null (cte_cap s) = true → cteMDBNode s = nullMDBNode)).
  - done.
Qed.

Lemma retype_demo_window : empty_window (ctes retype_demo) (mk_range 4096 1 2).
Proof.
  unfold empty_window. cbn [sr_offset sr_length]. split_and!; [lia|lia|lia|]. intros i Hi. exists null_slot. split; [|done].
  assert (i = 0 ∨ i = 1) as [-> | ->] by lia; vm_compute; reflexivity.
Qed.

Lemma invokeUntyped_Retype_correct_witness :
  wp (invokeUntyped_Retype 4096 true 1048576 seL4_EndpointObject 0 (mk_range 4096 1 2) false) (λ st k',
    st = EXCEPTION_NONE ∧
    ∃ os fi', getObjectSize seL4_EndpointObject 0 = Done os ∧ untyped_ok fi' 12 1048576 ∧
      1048576 + 16 * 0 ≤ 1048576 ∧ 1048576 + 16 * fi' = 1048576 + 2 * 2 ^ os ∧
      created (retype_demo <| ctes ::= <[4096 := mk_cte (cap_untyped_cap fi' false 12 1048576)
        (mdb_node_new 0 true true 0)]> |>) [[4096]] 4096 os 1048576 (mk_range 4096 1 2) 2 k') retype_demo.
Proof.
  refine (invokeUntyped_Retype_correct retype_demo [[4096]] 4096 (mdb_node_new 0 true true 0) 0 false 12 1048576
    seL4_EndpointObject 0 (mk_range 4096 1 2) 1048576 true eq_refl _ _ _ eq_refl (λ _, eq_refl)
    retype_demo_mdb retype_demo_window _).
  - split_and!; try (vm_compute; congruence). by exists 256.
  - done.
  - unfold retype_args, seL4_EndpointObject, seL4_ObjectTypeCount, seL4_MaxUntypedBits, seL4_UntypedObject,
      CONFIG_RETYPE_FAN_OUT_LIMIT. cbn [sr_length]. lia.
  - intros a Ha. apply (below_none _ 1048576); [vm_compute; reflexivity|lia].
Defined.
