(* ===== verification/Deletion.v ===== *)
(** Deleting and revoking capabilities: [finaliseSlot], [reduceZombie],
    [cteDelete] and [cteRevoke] of [object/cnode.c].

    The last capability to a table of slots (a CNode, or the slots of a thread)
    becomes a zombie, and the slots are deleted one after the other.  The C
    functions call each other: [finaliseSlot] loops over [reduceZombie], which
    deletes a slot of the table with [cteDelete].  They are one recursion on
    fuel here; [Revoke] proves that [delete_fuel] is enough.

    The second half of the file is what deletion does to the capabilities, as a
    step relation on the map from slots to capabilities, with its invariants and
    the measure that decreases. *)

From S2P Require Import Prelude Caps Kernel CSpace CNode Scheduler VSpace Ipc Retype.

(** ** The code *)

Definition capCyclicZombie (cap : cap_t) (slot : Z) : bool :=
  match cap with cap_zombie_cap id type => capZombiePtr id type =? slot | _ => false end.

Record finaliseSlot_ret_t := mk_fs { fs_status : exception_t; fs_success : bool; fs_irq : Z }.

(** [reduceZombie] when [immediate] is false. *)
Definition swap_zombie (slot ptr : Z) : K exception_t :=
  assert (negb (ptr =? slot));;
  p ← cte_at ptr;
  match cte_cap p with
  | cap_zombie_cap id type => assert (negb (ptr =? capZombiePtr id type))
  | _ => mret tt
  end;;
  capSwapForDelete ptr slot;;
  mret EXCEPTION_NONE.

(** The end of [reduceZombie] when [immediate] is true, after the last slot of
    the table has been deleted. *)
Definition shrink_zombie (slot ptr n type endSlot : Z) : K exception_t :=
  s ← cte_at slot;
  match cte_cap s with
  | cap_null_cap => mret EXCEPTION_NONE
  | cap_zombie_cap id2 type2 =>
    let ptr2 := capZombiePtr id2 type2 in
    if (ptr =? ptr2) && (capZombieNumber id2 type2 =? n) && (type2 =? type) then
      e ← cte_at endSlot;
      assert (is_null (cte_cap e));;
      set_cap slot (set_capZombieNumber id2 type2 (wrap32 (n - 1)));;
      mret EXCEPTION_NONE
    else
      assert ((ptr2 =? slot) && negb (ptr =? slot));;
      mret EXCEPTION_NONE
  | _ => halt_with AssertFailed
  end.

Fixpoint finaliseSlot (fuel : nat) (slot : Z) (immediate : bool) : K finaliseSlot_ret_t :=
  match fuel with
  | O => halt_with OutOfFuel
  | S fuel' =>
    s ← cte_at slot;
    if is_null (cte_cap s) then mret (mk_fs EXCEPTION_NONE true irqInvalid)
    else
      final ← isFinalCapability slot;
      s ← cte_at slot;
      fc_ret ← finaliseCap (cte_cap s) final false;
      removable ← lift (capRemovable (fc_remainder fc_ret) slot);
      if removable : bool then mret (mk_fs EXCEPTION_NONE true (fc_irq fc_ret))
      else
        set_cap slot (fc_remainder fc_ret);;
        if negb immediate && capCyclicZombie (fc_remainder fc_ret) slot
        then mret (mk_fs EXCEPTION_NONE false (fc_irq fc_ret))
        else
          status ← reduceZombie fuel' slot immediate;
          if decide (status ≠ EXCEPTION_NONE) then mret (mk_fs status false irqInvalid)
          else
            status ← preemptionPoint;
            if decide (status ≠ EXCEPTION_NONE) then mret (mk_fs status false irqInvalid)
            else finaliseSlot fuel' slot immediate
  end
with reduceZombie (fuel : nat) (slot : Z) (immediate : bool) : K exception_t :=
  match fuel with
  | O => halt_with OutOfFuel
  | S fuel' =>
    s ← cte_at slot;
    match cte_cap s with
    | cap_zombie_cap id type =>
      let ptr := capZombiePtr id type in
      let n := capZombieNumber id type in
      assert (0 <? n);;
      if immediate then
        let endSlot := cte_index ptr (n - 1) in
        status ← cteDelete fuel' endSlot false;
        if decide (status ≠ EXCEPTION_NONE) then mret status
        else shrink_zombie slot ptr n type endSlot
      else swap_zombie slot ptr
    | _ => halt_with AssertFailed
    end
  end
with cteDelete (fuel : nat) (slot : Z) (exposed : bool) : K exception_t :=
  match fuel with
  | O => halt_with OutOfFuel
  | S fuel' =>
    fs_ret ← finaliseSlot fuel' slot exposed;
    if decide (fs_status fs_ret ≠ EXCEPTION_NONE) then mret (fs_status fs_ret)
    else
      when (exposed || fs_success fs_ret) (emptySlot slot (fs_irq fs_ret));;
      mret EXCEPTION_NONE
  end.

(** Enough for every deletion: see [Revoke.cteDelete_spec]. *)
Definition delete_fuel (k : ks) : nat := let n := size (ctes k) in (2 * n * (n + 2) + 3 * n + 12)%nat.

Definition delete_slot (slot : Z) : K exception_t :=
  fuel ← gets delete_fuel;
  cteDelete fuel slot true.

(** The loop of [cteRevoke]. *)
Fixpoint revoke_children (fuel : nat) (slot : Z) : K exception_t :=
  match fuel with
  | O => halt_with OutOfFuel
  | S fuel' =>
    s ← cte_at slot;
    let nextPtr := mdbNext (cteMDBNode s) in
    if nextPtr =? 0 then mret EXCEPTION_NONE
    else
      n ← cte_at nextPtr;
      parent ← lift (isMDBParentOf s n);
      if parent : bool then
        status ← delete_slot nextPtr;
        if decide (status ≠ EXCEPTION_NONE) then mret status
        else
          status ← preemptionPoint;
          if decide (status ≠ EXCEPTION_NONE) then mret status
          else revoke_children fuel' slot
      else mret EXCEPTION_NONE
  end.

Definition cteRevoke (slot : Z) : K exception_t :=
  n ← gets (λ k, size (ctes k));
  revoke_children (2 * n + 1) slot.

Definition invokeCNodeRevoke (destSlot : Z) : K exception_t := cteRevoke destSlot.
Definition invokeCNodeDelete (destSlot : Z) : K exception_t := delete_slot destSlot.

Definition invokeCNodeCancelBadgedSends (cap : cap_t) : K exception_t :=
  match cap with
  | cap_endpoint_cap badge _ _ _ ep =>
    when (negb (badge =? 0)) (cancelBadgedSends ep badge);;
    mret EXCEPTION_NONE
  | _ => halt_with AssertFailed
  end.

(** ** Capabilities to tables of slots *)

(** The first slot of the table and its kind: the radix of a CNode, or
    [ZombieType_ZombieTCB]. *)
Definition container (c : cap_t) : option (Z * Z) :=
  match c with
  | cap_cnode_cap radix _ _ ptr => Some (ptr, radix)
  | cap_thread_cap t => Some (TCB_PTR_CTE_PTR t tcbCTable, ZombieType_ZombieTCB)
  | cap_zombie_cap id type => Some (capZombiePtr id type, type)
  | _ => None
  end.
Definition is_zombie (c : cap_t) : bool := match c with cap_zombie_cap _ _ => true | _ => false end.
Definition is_reply (c : cap_t) : bool := match c with cap_reply_cap _ _ => true | _ => false end.
Definition is_ntfn (c : cap_t) : bool := match c with cap_notification_cap _ _ _ _ => true | _ => false end.

Definition entries (type : Z) : Z := if type =? ZombieType_ZombieTCB then tcbArchCNodeEntries else 2 ^ type.

(** ** The encoding of zombies *)

Lemma zombie_bits_TCB : capZombieBits ZombieType_ZombieTCB = 4.
Proof. reflexivity. Qed.

Lemma zombie_bits_cnode r : 0 ≤ r < 28 → capZombieBits r = r.
Proof.
  intros Hr. unfold capZombieBits, ZombieType_ZombieCNode. change ZombieType_ZombieTCB with 32.
  destruct (Z.eqb_spec r 32); [lia|]. change (MASK 5) with (Z.ones 5). rewrite Z.land_ones by lia. apply Z.mod_small. lia.
Qed.

Definition kind_ok (type : Z) : Prop := type = ZombieType_ZombieTCB ∨ 0 ≤ type < 28.

Lemma kind_bits type : kind_ok type → 0 ≤ capZombieBits type < 28 ∧ 0 < entries type ≤ 2 ^ capZombieBits type.
Proof.
  intros [-> |Hr]; [by vm_compute|]. rewrite zombie_bits_cnode by done. split; [done|].
  unfold entries. change ZombieType_ZombieTCB with 32. destruct (Z.eqb_spec type 32); [lia|].
  split; [apply Z.pow_pos_nonneg; lia|done].
Qed.

Lemma lor_aligned b n z : 0 ≤ z → (2 ^ z | b) → 0 ≤ n < 2 ^ z → Z.lor b n = b + n.
Proof.
  intros Hz [q ->] Hn. assert (E : Z.land (q * 2 ^ z) n = 0).
  { apply Z.bits_inj'. intros i Hi. rewrite Z.land_spec, Z.bits_0, <- Z.shiftl_mul_pow2, Z.shiftl_spec by lia.
    destruct (Z.lt_ge_cases i z); [by rewrite Z.testbit_neg_r by lia|]. rewrite (small_testbit n z) by lia. apply andb_false_r. }
  pose proof (Z.add_lor_land (q * 2 ^ z) n). lia.
Qed.

(** A zombie is the sum of the table's address and the number of slots left. *)
Section zombie.
Context (b n type : Z) (Hk : kind_ok type) (Hb : (2 ^ (capZombieBits type + 1) | b)) (Hb0 : 0 ≤ b)
  (Hn : 0 ≤ n < 2 ^ (capZombieBits type + 1)) (Hw : b + n < 2 ^ 32).

Lemma zombie_mod : (b + n) mod 2 ^ (capZombieBits type + 1) = n.
Proof.
  destruct Hb as [q ->]. pose proof (kind_bits _ Hk) as [Hz _]. rewrite Z.add_comm, Z_mod_plus_full. apply Z.mod_small. lia.
Qed.

Lemma zombie_split : capZombiePtr (b + n) type = b ∧ capZombieNumber (b + n) type = n.
Proof.
  pose proof (kind_bits _ Hk) as [Hz _]. unfold capZombiePtr, capZombieNumber.
  rewrite land_lnot_mask, land_MASK, zombie_mod by lia. lia.
Qed.

Lemma zombie_join : Z.lor (Z.land b (wrap32 (Z.lnot (MASK (capZombieBits type + 1)))))
    (Z.land n (MASK (capZombieBits type + 1))) = b + n.
Proof.
  pose proof (kind_bits _ Hk) as [Hz _]. rewrite land_lnot_mask, land_MASK by lia.
  destruct Hb as [q E]. rewrite E at 1 2. rewrite Z.mod_mul by lia. rewrite Z.sub_0_r, <- E, Z.mod_small by lia.
  apply (lor_aligned b n (capZombieBits type + 1)); [lia|done|done].
Qed.

Lemma Zombie_new_sum : Zombie_new n type b = cap_zombie_cap (b + n) type.
Proof.
  unfold Zombie_new. rewrite <- zombie_join. do 3 f_equal;
    (destruct Hk as [-> |Hr]; [done|rewrite zombie_bits_cnode by done; by destruct (Z.eqb_spec type ZombieType_ZombieTCB); [subst; change ZombieType_ZombieTCB with 32 in Hr; lia|]]).
Qed.
End zombie.

Lemma set_number_sum b n n' type : kind_ok type → (2 ^ (capZombieBits type + 1) | b) → 0 ≤ b →
  0 ≤ n < 2 ^ (capZombieBits type + 1) → 0 ≤ n' < 2 ^ (capZombieBits type + 1) →
  b + n < 2 ^ 32 → b + n' < 2 ^ 32 →
  set_capZombieNumber (b + n) type n' = cap_zombie_cap (b + n') type.
Proof.
  intros Hk Hb Hb0 Hn Hn' Hw Hw'. unfold set_capZombieNumber. cbn zeta. rewrite <- (zombie_join b n' type) by done.
  pose proof (zombie_split b n type) as Hs. pose proof (zombie_split b 0 type) as H0. unfold capZombiePtr in Hs, H0.
  rewrite Z.add_0_r in H0. pose proof (kind_bits _ Hk) as [? _].
  assert (0 < 2 ^ (capZombieBits type + 1)) by (apply Z.pow_pos_nonneg; lia).
  destruct Hs as [-> _]; [done|done|done|done|done|]. destruct H0 as [-> _]; [done|done|done|lia|lia|done].
Qed.

(** ** What deletion may rely on *)

Definition caps (h : gmap Z cte_t) : gmap Z cap_t := cte_cap <$> h.

Lemma caps_lookup h p s : h !! p = Some s → caps h !! p = Some (cte_cap s).
Proof. intros H. unfold caps. by rewrite lookup_fmap, H. Qed.
Lemma caps_inv h p c : caps h !! p = Some c → ∃ s, h !! p = Some s ∧ cte_cap s = c.
Proof. unfold caps. rewrite lookup_fmap. destruct (h !! p) as [s|]; [|done]. intros [= <-]. eauto. Qed.

(** The table of slots at [b] is there, aligned as its zombie needs it. *)
Record table_ok (m : gmap Z cap_t) (b type : Z) : Prop := {
  ta_kind : kind_ok type;
  ta_base : 0 ≤ b;
  ta_aligned : (2 ^ (capZombieBits type + 1) | b);
  ta_fits : b + 16 * entries type ≤ 2 ^ 32;
  ta_slots : ∀ i, 0 ≤ i < entries type → is_Some (m !! (b + 16 * i))
}.

(** Tables are apart; the only capability to a table that is being deleted is
    its zombie; a thread and its slots determine each other. *)
Record caps_ok (m : gmap Z cap_t) : Prop := {
  co_table : ∀ p c b type, m !! p = Some c → container c = Some (b, type) → table_ok m b type;
  co_apart : ∀ p c q c' b type b' type' i, m !! p = Some c → m !! q = Some c' →
    container c = Some (b, type) → container c' = Some (b', type') →
    0 ≤ i < entries type → b' = b + 16 * i → b' = b ∧ type' = type;
  co_zombie : ∀ p id type, m !! p = Some (cap_zombie_cap id type) →
    0 ≤ id < 2 ^ 32 ∧ capZombieNumber id type ≤ entries type;
  co_unique : ∀ p c q c' b type type', m !! p = Some c → m !! q = Some c' → p ≠ q → is_zombie c = true →
    container c = Some (b, type) → container c' ≠ Some (b, type');
  co_thread : ∀ p t, m !! p = Some (cap_thread_cap t) → t = tcb_block t + TCB_OFFSET ∧ 0 ≤ tcb_block t < 2 ^ 32;
  co_radix : ∀ p radix gs g b, m !! p = Some (cap_cnode_cap radix gs g b) → 0 ≤ radix < 28
}.

(** No other capability leads to the table. *)
Definition sole (m : gmap Z cap_t) (slot b : Z) : Prop :=
  ∀ q c type, q ≠ slot → m !! q = Some c → container c ≠ Some (b, type).

(** ** What deletion does to the capabilities

    It takes one out, makes the only capability to a table its zombie (or
    counts the zombie down), or swaps a zombie with the first slot of its own
    table. *)
Inductive prune (m : gmap Z cap_t) : gmap Z cap_t → Prop :=
| prune_remove q : is_Some (m !! q) → prune m (<[q := cap_null_cap]> m)
| prune_zombie q c b n type : m !! q = Some c → container c = Some (b, type) → sole m q b →
    0 ≤ n ≤ entries type → prune m (<[q := cap_zombie_cap (b + n) type]> m)
| prune_swap q e z c type : m !! e = Some z → is_zombie z = true → container z = Some (q, type) →
    m !! q = Some c → q ≠ e → prune m (<[q := z]> (<[e := c]> m)).

Notation prunes := (rtc prune).

Lemma table_sum m b type n : table_ok m b type → 0 ≤ n ≤ entries type →
  0 ≤ n < 2 ^ (capZombieBits type + 1) ∧ 0 ≤ b + n < 2 ^ 32 ∧
  capZombiePtr (b + n) type = b ∧ capZombieNumber (b + n) type = n.
Proof.
  intros T Hn. pose proof (kind_bits _ (ta_kind _ _ _ T)) as [Hz He]. pose proof (ta_base _ _ _ T). pose proof (ta_fits _ _ _ T).
  assert (Hn' : 0 ≤ n < 2 ^ (capZombieBits type + 1)).
  { rewrite Z.pow_add_r by lia. assert (0 < 2 ^ capZombieBits type) by lia. lia. }
  split; [done|]. split; [lia|]. apply zombie_split; try apply T; [done|lia].
Qed.

Lemma table_slot m b type i : table_ok m b type → 0 ≤ i < entries type →
  cte_index b i = b + 16 * i ∧ is_Some (m !! cte_index b i).
Proof.
  intros T Hi. pose proof (ta_base _ _ _ T). pose proof (ta_fits _ _ _ T).
  assert (E : cte_index b i = b + 16 * i) by (apply wrap_same; lia). rewrite E. split; [done|]. by apply T.
Qed.

Lemma table_dom m m' b type : (∀ p, is_Some (m !! p) → is_Some (m' !! p)) → table_ok m b type → table_ok m' b type.
Proof. intros Hd [? ? ? ? Hs]. split; try done. intros i Hi. by apply Hd, Hs. Qed.

(** The capabilities of [m'] to tables come from those of [m], no two from one. *)
Lemma caps_ok_from (π : Z → Z) m m' : caps_ok m → (∀ x y, π x = π y → x = y) →
  (∀ p, is_Some (m !! p) → is_Some (m' !! p)) →
  (∀ p c' x, m' !! p = Some c' → container c' = Some x → ∃ c, m !! π p = Some c ∧ container c = Some x ∧
     (is_zombie c' = true → is_zombie c = true ∨ sole m (π p) (fst x)) ∧
     (is_zombie c' = false → c = c')) →
  (∀ p id type, m' !! p = Some (cap_zombie_cap id type) → 0 ≤ id < 2 ^ 32 ∧ capZombieNumber id type ≤ entries type) →
  caps_ok m'.
Proof.
  intros H Hinj Hdom Hfrom Hz. split.
  - intros p c' b type Hp Hc. destruct (Hfrom p c' _ Hp Hc) as (c & Hm & Ec & _).
    by apply (table_dom m), (co_table _ H _ _ _ _ Hm).
  - intros p c' q d' b type b' type' i Hp Hq Hc Hd. destruct (Hfrom p c' _ Hp Hc) as (c & Hm & Ec & _).
    destruct (Hfrom q d' _ Hq Hd) as (d & Hn & Ed & _). by apply (co_apart _ H _ _ _ _ _ _ _ _ _ Hm Hn).
  - done.
  - intros p c' q d' b type type' Hp Hq Hne Hzc Hc Hd. destruct (Hfrom p c' _ Hp Hc) as (c & Hm & Ec & Hzm & _).
    destruct (Hfrom q d' _ Hq Hd) as (d & Hn & Ed & _). destruct (Hzm Hzc) as [Hzm'|Hs].
    + by eapply (co_unique _ H _ _ _ _ _ _ _ Hm Hn); [intros ?%Hinj| | |].
    + eapply (Hs (π q) d); [|exact Hn|exact Ed]. intros E%Hinj. by apply Hne.
  - intros p t Hp. destruct (Hfrom p _ _ Hp eq_refl) as (c & Hm & _ & _ & E). rewrite (E eq_refl) in Hm.
    by apply (co_thread _ H _ _ Hm).
  - intros p radix gs g b Hp. destruct (Hfrom p _ _ Hp eq_refl) as (c & Hm & _ & _ & E). rewrite (E eq_refl) in Hm.
    by apply (co_radix _ H _ _ _ _ _ Hm).
Qed.

Lemma insert_dom {A} (m : gmap Z A) q x p : is_Some (m !! p) → is_Some (<[q := x]> m !! p).
Proof. intros. destruct (decide (q = p)) as [->|?]; [by rewrite lookup_insert_eq; eauto|by rewrite lookup_insert_ne]. Qed.

Lemma swapped_lookup (m : gmap Z cap_t) q e z c p c' : m !! e = Some z → m !! q = Some c → q ≠ e →
  <[q := z]> (<[e := c]> m) !! p = Some c' → m !! swapped q e p = Some c'.
Proof.
  intros He Hq Hne. unfold swapped. destruct (decide (p = q)) as [->|]; [by rewrite lookup_insert_eq, He|].
  rewrite lookup_insert_ne by done. destruct (decide (p = e)) as [->|]; [by rewrite lookup_insert_eq, Hq|].
  by rewrite lookup_insert_ne.
Qed.

(** Every step keeps the invariant. *)
Lemma prune_ok m m' : prune m m' → caps_ok m → caps_ok m'.
Proof.
  intros Hp H. destruct Hp as [q Hq|q c b n type Hq Hc Hs Hn|q e z c type He Hz Ez Hq Hne].
  - apply (caps_ok_from (λ x, x) m); [done|done|by intros; apply insert_dom| |].
    + intros p c' x Hp Hx. destruct (decide (q = p)) as [->|]; [rewrite lookup_insert_eq in Hp; by simplify_eq|].
      rewrite lookup_insert_ne in Hp by done. exists c'. split_and!; auto.
    + intros p id ty Hp. destruct (decide (q = p)) as [->|]; [by rewrite lookup_insert_eq in Hp|].
      rewrite lookup_insert_ne in Hp by done. by apply (co_zombie _ H p).
  - destruct (table_sum m b type n (co_table _ H _ _ _ _ Hq Hc) Hn) as (_ & Hw & Ep & En).
    apply (caps_ok_from (λ x, x) m); [done|done|by intros; apply insert_dom| |].
    + intros p c' x Hp Hx. destruct (decide (q = p)) as [->|].
      * rewrite lookup_insert_eq in Hp. simplify_eq. cbn in Hx. rewrite Ep in Hx. exists c. rewrite Hc, Hx.
        split_and!; [done|done| |done]. intros _. right. by injection Hx as <-.
      * rewrite lookup_insert_ne in Hp by done. exists c'. split_and!; auto.
    + intros p id ty Hp. destruct (decide (q = p)) as [->|].
      * rewrite lookup_insert_eq in Hp. simplify_eq. rewrite En. split; [done|lia].
      * rewrite lookup_insert_ne in Hp by done. by apply (co_zombie _ H p).
  - apply (caps_ok_from (swapped q e) m); [done|apply swapped_inj|by intros; do 2 apply insert_dom| |].
    + intros p c' x Hp Hx. apply (swapped_lookup m q e z c) in Hp; [|done..]. exists c'. split_and!; auto.
    + intros p id ty Hp. apply (swapped_lookup m q e z c) in Hp; [|done..]. by apply (co_zombie _ H _ _ _ Hp).
Qed.

Lemma prunes_ok m m' : prunes m m' → caps_ok m → caps_ok m'.
Proof. induction 1 as [|m1 m2 m3 Hp _ IH]; [done|]. intros H. by apply IH, (prune_ok m1). Qed.

Lemma prune_dom m m' : prune m m' → dom m' = dom m.
Proof.
  intros [q Hq|q c b n type Hq _ _ _|q e z c type He _ _ Hq _].
  - by apply dom_insert_lookup_L.
  - by apply dom_insert_lookup_L; eauto.
  - rewrite !dom_insert_lookup_L; [done|done|]. apply insert_dom. eauto.
Qed.

Lemma prunes_dom m m' : prunes m m' → dom m' = dom m.
Proof. induction 1 as [|m1 m2 m3 Hp _ IH]; [done|]. by rewrite IH, (prune_dom m1 m2). Qed.

(** ** The measure *)

(** A zombie in the first slot of its own table can only shrink. *)
Definition weight (p : Z) (c : cap_t) : nat :=
  if is_null c then 0 else if capCyclicZombie c p then 1 else 2.
Definition measure (m : gmap Z cap_t) : nat := map_fold (λ p c n, (weight p c + n)%nat) 0%nat m.

Lemma measure_insert_new m p c : m !! p = None → measure (<[p := c]> m) = (weight p c + measure m)%nat.
Proof. intros Hp. unfold measure. rewrite map_fold_insert_L; [done| |done]. intros. lia. Qed.

Lemma measure_insert m p c c' : m !! p = Some c →
  (measure (<[p := c']> m) + weight p c = measure m + weight p c')%nat.
Proof.
  intros Hp. rewrite <- (insert_id m p c Hp) at 2. rewrite <- (insert_delete_eq m p c), <- (insert_delete_eq m p c').
  rewrite !measure_insert_new by apply lookup_delete_eq. lia.
Qed.

Lemma weight_le p c : (weight p c ≤ 2)%nat.
Proof. unfold weight. repeat case_match; lia. Qed.

Lemma measure_size m : (measure m ≤ 2 * size m)%nat.
Proof.
  induction m as [|p c m Hp IH] using map_ind; [done|]. rewrite measure_insert_new, map_size_insert_None by done.
  pose proof (weight_le p c). lia.
Qed.

Lemma weight_container p c b type : container c = Some (b, type) → weight p c = if is_zombie c && (b =? p) then 1%nat else 2%nat.
Proof. destruct c; try done; by intros [= <- <-]. Qed.

Lemma weight_zero p c : weight p c = 0%nat ↔ is_null c = true.
Proof. unfold weight. destruct (is_null c); [done|]. by destruct (capCyclicZombie c p). Qed.

(** Removing a capability and swapping a zombie into its table make it smaller. *)
Lemma remove_measure m q c : m !! q = Some c → is_null c = false → (measure (<[q := cap_null_cap]> m) < measure m)%nat.
Proof.
  intros Hq Hn. pose proof (measure_insert m q c cap_null_cap Hq) as E. cbn in E.
  assert (weight q c ≠ 0%nat) by (rewrite weight_zero; congruence). lia.
Qed.

Lemma swap_measure m q e z c type : caps_ok m → m !! e = Some z → is_zombie z = true → container z = Some (q, type) →
  m !! q = Some c → q ≠ e → (measure (<[q := z]> (<[e := c]> m)) < measure m)%nat.
Proof.
  intros H He Hz Ez Hq Hne.
  pose proof (measure_insert m e z c He) as E1.
  assert (Hq' : <[e := c]> m !! q = Some c) by (by rewrite lookup_insert_ne).
  pose proof (measure_insert (<[e := c]> m) q c z Hq') as E2.
  rewrite (weight_container e z q type Ez) in E1. rewrite (weight_container q z q type Ez) in E2. rewrite Hz in E1, E2.
  rewrite Z.eqb_refl in E2. destruct (Z.eqb_spec q e); [done|]. cbn [andb] in E1, E2.
  assert (weight e c ≤ weight q c)%nat; [|lia].
  destruct (container c) as [[b' type']|] eqn:Ec.
  - rewrite (weight_container q c b' type' Ec). destruct (is_zombie c && (b' =? q)) eqn:Eb; [|apply weight_le].
    apply andb_prop in Eb as [Ezc ->%Z.eqb_eq]. by destruct (co_unique _ H q c e z q type' type Hq He Hne Ezc Ec).
  - unfold weight. destruct c; auto; done.
Qed.

Lemma prune_measure m m' : prune m m' → caps_ok m → (measure m' ≤ measure m)%nat.
Proof.
  intros Hp H. destruct Hp as [q [c Hq]|q c b n type Hq Hc Hs Hn|q e z c type He Hz Ez Hq Hne].
  - pose proof (measure_insert m q c cap_null_cap Hq) as E. cbn in E. lia.
  - destruct (table_sum m b type n (co_table _ H _ _ _ _ Hq Hc) Hn) as (_ & _ & Ep & _).
    pose proof (measure_insert m q c (cap_zombie_cap (b + n) type) Hq) as E.
    rewrite (weight_container q c b type Hc), (weight_container q (cap_zombie_cap (b + n) type) b type) in E by (cbn; by rewrite Ep).
    cbn [is_zombie andb] in E. destruct (is_zombie c), (b =? q); cbn [andb] in E; lia.
  - pose proof (swap_measure m q e z c type H He Hz Ez Hq Hne). lia.
Qed.

Lemma prunes_measure m m' : prunes m m' → caps_ok m → (measure m' ≤ measure m)%nat.
Proof.
  induction 1 as [|m1 m2 m3 Hp _ IH]; [done|]. intros H. pose proof (prune_measure m1 m2 Hp H).
  pose proof (IH (prune_ok m1 m2 Hp H)). lia.
Qed.

(** ** No capability is created *)

(** What is found after some steps was there before, or is the zombie of a
    capability that was. *)
Definition comes_from (m : gmap Z cap_t) (c : cap_t) : Prop :=
  is_null c = true ∨ ∃ q d, m !! q = Some d ∧
    (c = d ∨ is_zombie c = true ∧ is_Some (container d) ∧ container c = container d).

Lemma comes_from_here m p c : m !! p = Some c → comes_from m c.
Proof. right. eauto. Qed.

Lemma prune_origin m m' p c : caps_ok m → prune m m' → m' !! p = Some c → comes_from m c.
Proof.
  intros H [q Hq|q d b n type Hq Hc Hs Hn|q e z d type He Hz Ez Hq Hne] Hp.
  - destruct (decide (q = p)) as [->|]; [rewrite lookup_insert_eq in Hp; simplify_eq; by left|].
    rewrite lookup_insert_ne in Hp by done. by eapply comes_from_here.
  - destruct (decide (q = p)) as [->|].
    + rewrite lookup_insert_eq in Hp. simplify_eq. right. exists p, d. split; [done|]. right.
      destruct (table_sum m b type n (co_table _ H _ _ _ _ Hq Hc) Hn) as (_ & _ & Ep & _). cbn. rewrite Ep, Hc. eauto.
    + rewrite lookup_insert_ne in Hp by done. by eapply comes_from_here.
  - apply (swapped_lookup m q e z d) in Hp; [|done..]. by eapply comes_from_here.
Qed.

Lemma prunes_origin m m' : prunes m m' → caps_ok m → ∀ p c, m' !! p = Some c → comes_from m c.
Proof.
  induction 1 as [m|m1 m2 m3 Hp _ IH]; intros H p c Hc; [by eapply comes_from_here|].
  destruct (IH (prune_ok m1 m2 Hp H) p c Hc) as [Hn|(q & d & Hq & Hcd)]; [by left|].
  destruct (prune_origin m1 m2 q d H Hp Hq) as [Hn|(q' & d' & Hq' & Hdd)].
  - destruct d; try done. destruct Hcd as [-> |(_ & Hs & _)]; [by left|by destruct Hs].
  - right. exists q', d'. split; [done|]. destruct Hcd as [-> |(? & ? & ?)]; [done|].
    destruct Hdd as [-> |(? & ? & ?)]; right; split_and!; try done; congruence.
Qed.

(** ** Slots that deletion never swaps

    The slot of a thread's reply capability and the slot of an interrupt hold
    a capability of one sort or none, and are never the first slot of a table. *)
Definition pinned (sort : cap_t → bool) (m : gmap Z cap_t) (q : Z) : Prop :=
  (∃ c, m !! q = Some c ∧ container c = None ∧ (is_null c || sort c = true)) ∧
  ∀ p c type, m !! p = Some c → container c ≠ Some (q, type).

Lemma prune_pinned sort m m' q : caps_ok m → prune m m' → pinned sort m q → pinned sort m' q.
Proof.
  intros H Hp [(c & Hc & Hn & Hsort) Hb]. split.
  - destruct Hp as [x Hx|x d b n type Hx Hd Hs Hk|x e z d type He Hz Ez Hx Hne].
    + destruct (decide (x = q)) as [->|]; [exists cap_null_cap; by rewrite lookup_insert_eq|].
      exists c. by rewrite lookup_insert_ne.
    + exists c. rewrite lookup_insert_ne; [done|]. intros ->. congruence.
    + exists c. rewrite !lookup_insert_ne; [done| |]; intros ->; [congruence|by apply (Hb e z type)].
  - intros p d type Hd Ed. destruct (prune_origin m m' p d H Hp Hd) as [Hnull|(x & d' & Hx & [-> |(_ & _ & E)])].
    + by destruct d.
    + by apply (Hb x d' type).
    + rewrite Ed in E. by apply (Hb x d' type).
Qed.
