(* ===== verification/Finalise.v ===== *)
(** Finalising a capability: what [finaliseCap] does to the threads, endpoints,
    notifications and interrupt slots behind a capability that goes, and what
    the writes of deletion do to the slots.

    [del_inv] is the invariant of deletion: the derivation list is well formed,
    with the capabilities to one object next to each other and the reply
    capabilities by themselves, the tables of slots are there and apart
    ([caps_ok]), the objects behind the capabilities exist, and scheduler and
    waiting queues are consistent. *)

From stdpp Require Import functions.
From S2P Require Import Prelude Caps Kernel CSpace CNode Scheduler Wakeup Paging VSpace IOSpace Ipc Waiting Signals.
From S2P Require Import Cancel Transfer Endpoint Reply Retype Reset Creation Deletion.

(** ** The derivation list *)

Lemma same_object_caps h p q :
  same_object h p q ↔ ∃ a b, caps h !! p = Some a ∧ caps h !! q = Some b ∧ sameObjectAs a b = Done true.
Proof.
  split.
  - intros (sp & sq & Hp & Hq & E). exists (cte_cap sp), (cte_cap sq). split_and!; auto using caps_lookup.
  - intros (a & b & (sp & Hp & <-)%caps_inv & (sq & Hq & <-)%caps_inv & E). by exists sp, sq.
Qed.

(** Nothing is the same object as an empty slot or a zombie. *)
Definition no_object (c : cap_t) : bool := is_null c || is_zombie c.

Lemma no_object_same a b : no_object a || no_object b = true → sameObjectAs a b = Done false.
Proof. destruct a, b; try done; cbn; by rewrite ?andb_false_r. Qed.

(** Reply capabilities are only next to reply capabilities. *)
Definition reply_chains (m : gmap Z cap_t) (cs : list (list Z)) : Prop :=
  ∀ l p q cp cq, l ∈ cs → p ∈ l → q ∈ l → m !! p = Some cp → m !! q = Some cq → is_reply cp = is_reply cq.

Record slots_ok (h : gmap Z cte_t) (cs : list (list Z)) : Prop := {
  sl_mdb : mdb_ok h cs;
  sl_adjacent : objects_adjacent h cs;
  sl_reply : reply_chains (caps h) cs;
  sl_caps : caps_ok (caps h)
}.

(** *** Emptying a slot *)

Lemma removed_caps h h' cs t : slot_removed h h' cs t → caps h' = <[t := cap_null_cap]> (caps h).
Proof.
  intros (_ & Ht & Ho). apply map_eq. intros p. unfold caps at 1. rewrite lookup_fmap.
  destruct (decide (p = t)) as [->|Hne]; [by rewrite Ht, lookup_insert_eq|].
  rewrite lookup_insert_ne, Ho by done. unfold caps. by rewrite lookup_fmap.
Qed.

(** A slot that has become empty or a zombie is out of the relation. *)
Lemma same_object_write h h' t z p q : no_object z = true → caps h' = <[t := z]> (caps h) →
  same_object h' p q ↔ same_object h p q ∧ p ≠ t ∧ q ≠ t.
Proof.
  intros Hz E. rewrite !same_object_caps, E. split.
  - intros (a & b & Ha & Hb & Es). destruct (decide (p = t)) as [->|Hp].
    { rewrite lookup_insert_eq in Ha. injection Ha as <-. by rewrite no_object_same in Es by (by rewrite Hz). }
    destruct (decide (q = t)) as [->|Hq].
    { rewrite lookup_insert_eq in Hb. injection Hb as <-. by rewrite no_object_same in Es by (by rewrite Hz, orb_true_r). }
    rewrite lookup_insert_ne in Ha, Hb by done. split; [by exists a, b|done].
  - intros ((a & b & Ha & Hb & Es) & Hp & Hq). exists a, b. by rewrite !lookup_insert_ne.
Qed.

Lemma slots_ok_remove h h' cs t : slots_ok h cs → is_Some (h !! t) → slot_removed h h' cs t →
  slots_ok h' (remove_slot t cs) ∧ prune (caps h) (caps h').
Proof.
  intros [M A R C] [s Hs] Hr. pose proof (removed_caps _ _ _ _ Hr) as E. destruct Hr as (M' & _).
  assert (P : prune (caps h) (caps h')) by (rewrite E; constructor; eauto using caps_lookup).
  split; [|done]. split; [done| | |by apply (prune_ok (caps h))].
  - intros p q Hne [Hpq [Hp Hq]]%(same_object_write h h' t cap_null_cap p q eq_refl E).
    destruct (A p q Hne Hpq) as (l1 & l2 & l3 & Hl & Hb). exists (filter (.≠ t) l1), (filter (.≠ t) l2), (filter (.≠ t) l3).
    assert (Hf : ∀ l, l ∈ cs → filter (.≠ t) l ∈ remove_slot t cs).
    { intros l Hin. unfold remove_slot. by apply (list_elem_of_fmap_2 (λ l : list Z, filter (.≠ t) l)). }
    split.
    + destruct Hl as [Hl|Hl]; [left|right]; apply Hf in Hl; rewrite filter_app, filter_cons_True, filter_app, filter_cons_True in Hl; done.
    + intros r [Hrt Hin]%list_elem_of_filter. apply (same_object_write h h' t cap_null_cap p r eq_refl E). auto.
  - intros l p q cp cq (l0 & -> & Hl0)%list_elem_of_fmap [Hpt Hp]%list_elem_of_filter [Hqt Hq]%list_elem_of_filter.
    rewrite E, !lookup_insert_ne by done. by apply (R l0).
Qed.

(** *** Writing a zombie *)

Lemma same_container a b x : container a = Some x → sameObjectAs a b = Done true → container b = Some x.
Proof.
  destruct a; try done; destruct b; try done; intros Hx E; cbn in E; injection E as E.
  - apply andb_prop in E as [->%Z.eqb_eq ->%Z.eqb_eq]. done.
  - apply Z.eqb_eq in E as ->. done.
Qed.

Lemma sole_final h t c b type : caps h !! t = Some c → container c = Some (b, type) → sole (caps h) t b →
  ∀ q, q ≠ t → ¬ same_object h t q.
Proof.
  intros Ht Hc Hs q Hq (a & d & Ha & Hd & E)%same_object_caps. simplify_eq.
  eapply (Hs q d type); [done..|]. by apply (same_container c).
Qed.

(** The last capability to a table is the only one to it. *)
Lemma final_sole h t c b type : caps_ok (caps h) → caps h !! t = Some c → container c = Some (b, type) →
  is_zombie c = false → (∀ q, q ≠ t → ¬ same_object h t q) → sole (caps h) t b.
Proof.
  intros H Ht Hc Hz Hf q d type' Hq Hd Ed. destruct (is_zombie d) eqn:Ez.
  { by eapply (co_unique _ H q d t c b type' type). }
  pose proof (kind_bits _ (ta_kind _ _ _ (co_table _ H _ _ _ _ Ht Hc))) as [_ He].
  destruct (co_apart _ H t c q d b type b type' 0 Ht Hd Hc Ed) as [_ ->]; [lia|lia|].
  apply (Hf q Hq), same_object_caps. exists c, d. split_and!; try done.
  destruct c; try done; destruct d; try done; cbn in Hc, Ed; simplify_eq; cbn.
  - by rewrite !Z.eqb_refl.
  - pose proof (co_radix _ H _ _ _ _ _ Ht) as Hr. change ZombieType_ZombieTCB with 32 in Hr. lia.
  - pose proof (co_radix _ H _ _ _ _ _ Hd) as Hr. change ZombieType_ZombieTCB with 32 in Hr. lia.
  - destruct (co_thread _ H _ _ Ht) as [E1 W1], (co_thread _ H _ _ Hd) as [E2 W2].
    match goal with E : TCB_PTR_CTE_PTR _ _ = TCB_PTR_CTE_PTR _ _ |- _ => rename E into Ed end.
    unfold TCB_PTR_CTE_PTR, cte_index, tcbCTable in Ed. rewrite !Z.mul_0_r, !Z.add_0_r, !wrap_same in Ed by done.
    rewrite E1, E2, Ed. by rewrite Z.eqb_refl.
Qed.

Lemma caps_set h t s z : caps (<[t := s <| cte_cap := z |>]> h) = <[t := z]> (caps h).
Proof. unfold caps. by rewrite fmap_insert. Qed.

Lemma slots_ok_zombie h cs t s b n type : slots_ok h cs → h !! t = Some s → container (cte_cap s) = Some (b, type) →
  sole (caps h) t b → 0 ≤ n ≤ entries type →
  let h' := <[t := s <| cte_cap := cap_zombie_cap (b + n) type |>]> h in
  slots_ok h' cs ∧ caps h' = <[t := cap_zombie_cap (b + n) type]> (caps h) ∧ prune (caps h) (caps h').
Proof.
  intros [M A R C] Hs Hc Hso Hn h'. pose proof (caps_set h t s (cap_zombie_cap (b + n) type)) as E. fold h' in E.
  pose proof (caps_lookup _ _ _ Hs) as Hm.
  assert (P : prune (caps h) (caps h')) by (rewrite E; by eapply prune_zombie).
  pose proof (sole_final h t _ b type Hm Hc Hso) as Hf. split; [|done]. split; [| | |by apply (prune_ok (caps h))].
  - apply mdb_ok_set_cap; [done|done|]. by destruct (cte_cap s).
  - intros p q Hne (Hpq & Hp & Hq)%(same_object_write h h' t (cap_zombie_cap (b + n) type) p q eq_refl E).
    destruct (A p q Hne Hpq) as (l1 & l2 & l3 & Hl & Hb). exists l1, l2, l3. split; [done|].
    intros r Hr. apply (same_object_write h h' t (cap_zombie_cap (b + n) type) p r eq_refl E). split_and!; [by apply Hb|done|].
    intros ->. apply (Hf p Hp), same_object_sym. by apply Hb.
  - intros l p q cp cq Hl Hp Hq. rewrite E.
    assert (Hrep : ∀ x cx, <[t := cap_zombie_cap (b + n) type]> (caps h) !! x = Some cx →
      ∃ cx', caps h !! x = Some cx' ∧ is_reply cx' = is_reply cx).
    { intros x cx. destruct (decide (x = t)) as [->|Hx].
      - rewrite lookup_insert_eq. intros [= <-]. exists (cte_cap s). split; [done|]. by destruct (cte_cap s).
      - rewrite lookup_insert_ne by done. eauto. }
    intros (cp' & Hp' & <-)%Hrep (cq' & Hq' & <-)%Hrep. by apply (R l p q).
Qed.

(** *** Swapping a zombie with the first slot of its table *)

Lemma swap_caps h cs a b sa sb : mdb_ok h cs → h !! a = Some sa → h !! b = Some sb → a ≠ b →
  let h' := swap_heap (cte_cap sa) a (cte_cap sb) b (cteMDBNode sa) (cteMDBNode sb) h in
  (∀ u, caps h' !! swapped a b u = caps h !! u) ∧ caps h' = <[a := cte_cap sb]> (<[b := cte_cap sa]> (caps h)).
Proof.
  intros M Ha Hb Hne h'. assert (E : ∀ u, caps h' !! swapped a b u = caps h !! u).
  { intros u. unfold caps. rewrite !lookup_fmap. destruct (h !! u) as [s|] eqn:Hu.
    - unfold h'. rewrite (swap_heap_lookup h cs _ a _ b sa sb u s M Ha Hb Hne Hu). cbn. repeat case_decide; simplify_eq; done.
    - unfold h'. rewrite swap_heap_none; [done|apply M|]. unfold swapped. repeat case_decide; simplify_eq; congruence. }
  split; [done|]. apply map_eq. intros p. rewrite <- (swapped_invol a b p) at 1. rewrite E. unfold swapped.
  destruct (decide (p = a)) as [->|]; [by rewrite lookup_insert_eq, (caps_lookup _ _ _ Hb)|].
  rewrite lookup_insert_ne by done. destruct (decide (p = b)) as [->|]; [by rewrite lookup_insert_eq, (caps_lookup _ _ _ Ha)|].
  by rewrite lookup_insert_ne.
Qed.

Lemma slots_ok_swap h cs a b sa sb type : slots_ok h cs → h !! a = Some sa → h !! b = Some sb → a ≠ b →
  is_zombie (cte_cap sb) = true → container (cte_cap sb) = Some (a, type) →
  let h' := swap_heap (cte_cap sa) a (cte_cap sb) b (cteMDBNode sa) (cteMDBNode sb) h in
  slots_ok h' (rename_slots (swapped a b) cs) ∧
  caps h' = <[a := cte_cap sb]> (<[b := cte_cap sa]> (caps h)) ∧ prune (caps h) (caps h').
Proof.
  intros [M A R C] Ha Hb Hne Hz Hc h'. destruct (swap_caps h cs a b sa sb M Ha Hb Hne) as [Eu E]. fold h' in Eu, E.
  assert (P : prune (caps h) (caps h')).
  { rewrite E. by apply (prune_swap _ a b _ _ type); [by apply caps_lookup| | |by apply caps_lookup|]. }
  assert (So : ∀ p q, same_object h' (swapped a b p) (swapped a b q) ↔ same_object h p q).
  { intros p q. rewrite !same_object_caps. by rewrite !Eu. }
  split; [|done]. split; [by apply swap_heap_ok| | |by apply (prune_ok (caps h))].
  - intros p q Hpq. rewrite <- (swapped_invol a b p), <- (swapped_invol a b q), So. intros Hs.
    destruct (A (swapped a b p) (swapped a b q)) as (l1 & l2 & l3 & Hl & Hbt); [by intros ?%swapped_inj|done|].
    exists (swapped a b <$> l1), (swapped a b <$> l2), (swapped a b <$> l3).
    assert (Hf : ∀ l, l ∈ cs → swapped a b <$> l ∈ rename_slots (swapped a b) cs).
    { intros l Hin. unfold rename_slots. by apply (list_elem_of_fmap_2 (λ l : list Z, swapped a b <$> l)). }
    split.
    + destruct Hl as [Hl|Hl]; [left|right]; apply Hf in Hl; by rewrite fmap_app, fmap_cons, fmap_app, fmap_cons in Hl.
    + intros r (r' & -> & Hr)%list_elem_of_fmap. rewrite So. by apply Hbt.
  - intros l p q cp cq (l0 & -> & Hl0)%list_elem_of_fmap (p' & -> & Hp)%list_elem_of_fmap (q' & -> & Hq)%list_elem_of_fmap.
    rewrite !Eu. by apply (R l0).
Qed.

(** ** The objects *)

(** Scheduler, waiting queues and bindings; the pending action is no thread, as
    always when a system call starts. *)
Record obj_inv (k : ks) : Prop := {
  oi_sched : sched_inv k;
  oi_action : ksSchedulerAction k = SchedulerAction_ResumeCurrentThread ∨
    ksSchedulerAction k = SchedulerAction_ChooseNewThread;
  oi_ipc : ∃ wq, ipc_ok k wq;
  oi_bound : bound_ok k
}.

(** Objects stay, no thread starts to wait for a reply, and the interrupt
    controller has the same answers left, or fewer. *)
Record keeps (k k' : ks) : Prop := {
  ke_tcb : ∀ u, is_Some (tcbs k !! u) → is_Some (tcbs k' !! u);
  ke_reply : ∀ u c', tcbs k' !! u = Some c' → tsType c' = ThreadState_BlockedOnReply →
    ∃ c, tcbs k !! u = Some c ∧ tsType c = ThreadState_BlockedOnReply;
  ke_ntfn : ∀ n, is_Some (ntfns k !! n) → is_Some (ntfns k' !! n);
  ke_ep : ∀ e, is_Some (eps k !! e) → is_Some (eps k' !! e);
  ke_idle : ksIdleThread k' = ksIdleThread k;
  ke_cur : ksCurThread k' = ksCurThread k;
  ke_asids : length (x86KSASIDTable (x86 k')) = length (x86KSASIDTable (x86 k));
  ke_node : intStateIRQNode k' = intStateIRQNode k;
  ke_pending : ∀ b, b ∈ irq_pending k' → b ∈ irq_pending k
}.

Lemma keeps_refl k : keeps k k.
Proof. split; eauto. Qed.
Lemma keeps_trans k1 k2 k3 : keeps k1 k2 → keeps k2 k3 → keeps k1 k3.
Proof.
  intros [] []. split; try congruence; eauto. intros u c' Hc' Hs.
  destruct (ke_reply1 u c' Hc' Hs) as (c & Hc & Hs'). eauto.
Qed.

Lemma obj_inv_same k k' : sched_same k k' → (∀ wq, ipc_ok k wq → ipc_ok k' wq) → bound_ok k' → obj_inv k → obj_inv k'.
Proof.
  intros S Hi Hb [I A [wq W] B]. split; [by apply (sched_same_inv None k)| |eauto|done].
  destruct S as [_ E]. injection E as _ _ _ _ _ Ea _ _. by rewrite Ea.
Qed.

(** Nothing but fields no part of the invariant reads. *)
Lemma obj_inv_frame k k' : tcbs k' = tcbs k → ntfns k' = ntfns k → eps k' = eps k →
  sched_globals k' = sched_globals k → obj_inv k → obj_inv k'.
Proof.
  intros Et En Ee Eg O. apply (obj_inv_same k); [split; [by rewrite Et|done]| | |done].
  - intros wq. apply (ipc_ok_same [] k); [by rewrite Et|done|done].
  - pose proof (oi_bound _ O) as B. unfold bound_ok. by rewrite Et, En.
Qed.

Lemma keeps_frame k k' : tcbs k' = tcbs k → ntfns k' = ntfns k → eps k' = eps k → ksIdleThread k' = ksIdleThread k →
  ksCurThread k' = ksCurThread k → length (x86KSASIDTable (x86 k')) = length (x86KSASIDTable (x86 k)) →
  intStateIRQNode k' = intStateIRQNode k → (∀ b, b ∈ irq_pending k' → b ∈ irq_pending k) → keeps k k'.
Proof. intros Et En Ee. split; try done; rewrite ?Et, ?En, ?Ee; eauto. Qed.

(** *** Threads that restart or become inactive *)

(** A thread of [k'] that has lost nothing but its wait. *)
Definition released (k k' : ks) (t : Z) : Prop :=
  ∃ c c' st, tcbs k !! t = Some c ∧ tcbs k' !! t = Some c' ∧ thread_core c' = thread_core (c <| tsType := st |>) ∧
    st ≠ ThreadState_BlockedOnReply.

Lemma restarted_released k k' t : restarted k k' t → released k k' t.
Proof.
  intros (_ & c & Hc & E). destruct (tcbs k' !! t) as [c'|] eqn:Hc'; [|done].
  cbn [fmap option_fmap option_map] in E. apply (inj Some) in E. by exists c, c', ThreadState_Restart.
Qed.

Lemma inactive_released k k' t c : tcbs k !! t = Some c → made_inactive k' t c → released k k' t.
Proof.
  intros Hc E. unfold made_inactive in E. destruct (tcbs k' !! t) as [c'|] eqn:Hc'; [|done].
  cbn [fmap option_fmap option_map] in E. apply (inj Some) in E. by exists c, c', ThreadState_Inactive.
Qed.

(** Every thread of [k'] is a thread of [k] with the same binding. *)
Lemma released_threads k k' X : threads_but X k k' → (∀ t, t ∈ X → released k k' t) → ∀ u,
  tcbBoundNotification <$> tcbs k' !! u = tcbBoundNotification <$> tcbs k !! u ∧
  ∀ c', tcbs k' !! u = Some c' → tsType c' = ThreadState_BlockedOnReply →
    ∃ c, tcbs k !! u = Some c ∧ tsType c = ThreadState_BlockedOnReply.
Proof.
  intros (Ht & _) Hr u. destruct (decide (u ∈ X)) as [Hin|Hout].
  - destruct (Hr u Hin) as (c & c' & st & Hc & Hc' & E & Hst). rewrite Hc, Hc'. cbn [fmap option_fmap option_map]. split.
    + f_equal. change (tcbBoundNotification (thread_core c') = tcbBoundNotification (thread_core (c <| tsType := st |>))).
      by rewrite E.
    + intros x [= <-] Hx. exfalso. apply Hst.
      change (tsType (thread_core (c <| tsType := st |>)) = ThreadState_BlockedOnReply). by rewrite <- E.
  - specialize (Ht u Hout). destruct (tcbs k' !! u) as [c'|], (tcbs k !! u) as [c|]; try done.
    cbn [fmap option_fmap option_map] in *. apply (inj Some) in Ht. split.
    + f_equal. change (tcbBoundNotification (thread_core c') = tcbBoundNotification (thread_core c)). by rewrite Ht.
    + intros x [= <-] Hx. exists c. split; [done|].
      change (tsType (thread_core c) = ThreadState_BlockedOnReply). by rewrite <- Ht.
Qed.

Lemma bound_ok_keep k k' : bound_ok k → (∀ n, ntfnBoundTCB <$> ntfns k' !! n = ntfnBoundTCB <$> ntfns k !! n) →
  (∀ u, tcbBoundNotification <$> tcbs k' !! u = tcbBoundNotification <$> tcbs k !! u) → bound_ok k'.
Proof.
  intros [B1 B2] Hn Ht. split.
  - intros n x' Hx' Hz. specialize (Hn n) as E. rewrite Hx' in E. destruct (ntfns k !! n) as [x|] eqn:Hx; [|done].
    injection E as E. rewrite E in *. destruct (B1 n x Hx Hz) as (c & Hc & Hb).
    specialize (Ht (ntfnBoundTCB x)). rewrite Hc in Ht. destruct (tcbs k' !! _) as [c'|]; [|done].
    injection Ht as Ht. exists c'. split; [done|congruence].
  - intros t c' Hc' Hz. specialize (Ht t) as E. rewrite Hc' in E. destruct (tcbs k !! t) as [c|] eqn:Hc; [|done].
    injection E as E. rewrite E in *. destruct (B2 t c Hc Hz) as (x & Hx & Hb).
    specialize (Hn (tcbBoundNotification c)). rewrite Hx in Hn. destruct (ntfns k' !! _) as [x'|]; [|done].
    injection Hn as Hn. exists x'. split; [done|congruence].
Qed.

(** The outcome of the cancellations of [Cancel] and [Signals]. *)
Lemma released_inv k k' wq X : obj_inv k → sched_inv k' → ipc_ok k' wq → threads_but X k k' →
  (∀ t, t ∈ X → released k k' t) → objs_keep k k' → obj_inv k' ∧ keeps k k' ∧ ctes k' = ctes k.
Proof.
  intros O I W B Hr (Kn & Ke & Ka). pose proof (released_threads k k' X B Hr) as Ht.
  destruct B as (_ & Ec & Ei & Ecu & Eid). injection Ei as _ Enode Epend Ex. split_and!; [| |done].
  - split; [done| |eauto|].
    + destruct Ka as [->|?]; [apply O|by right].
    + apply (bound_ok_keep k); [apply O|done|]. intros u. by apply Ht.
  - split; try done.
    + intros u [c Hc]. destruct (Ht u) as [E _]. rewrite Hc in E. destruct (tcbs k' !! u); [eauto|done].
    + intros u. by apply Ht.
    + intros n [x Hx]. specialize (Kn n). rewrite Hx in Kn. destruct (ntfns k' !! n); [eauto|done].
    + intros e. by apply Ke.
    + by rewrite Ex.
    + by rewrite Epend.
Qed.

(** ** Cancelling *)

Lemma cancelAllIPC_inv k e : obj_inv k → is_Some (eps k !! e) →
  wp (cancelAllIPC e) (λ _ k', obj_inv k' ∧ keeps k k' ∧ ctes k' = ctes k) k.
Proof.
  intros O [x Hx]. destruct (oi_ipc _ O) as [wq W].
  eapply wp_mono; [apply (cancelAllIPC_correct k wq e x); [apply O|done..]|].
  intros [] k' (I' & W' & Hr & B & _ & _ & Ko). apply (released_inv k k' (<[e := []]> wq) (wq e)); try done.
  intros t Ht. by apply restarted_released, Hr.
Qed.

Lemma cancelAllSignals_inv k n : obj_inv k → is_Some (ntfns k !! n) →
  wp (cancelAllSignals n) (λ _ k', obj_inv k' ∧ keeps k k' ∧ ctes k' = ctes k) k.
Proof.
  intros O [x Hx]. destruct (oi_ipc _ O) as [wq W].
  eapply wp_mono; [apply (cancelAllSignals_correct k wq n x); [apply O|done..]|].
  intros [] k' (I' & W' & Hr & B & _ & _ & Ko). apply (released_inv k k' (<[n := []]> wq) (wq n)); try done.
  intros t Ht. by apply restarted_released, Hr.
Qed.

(** ** Unbinding *)

Lemma doUnbind_inv k n x t c : obj_inv k → ntfns k !! n = Some x → tcbs k !! t = Some c →
  ntfnBoundTCB x = t → tcbBoundNotification c = n →
  wp (doUnbindNotification n t) (λ _ k', obj_inv k' ∧ keeps k k' ∧ ctes k' = ctes k ∧
    ∀ u, tsType <$> tcbs k' !! u = tsType <$> tcbs k !! u) k.
Proof.
  intros O Hx Hc Ex Ec. unfold doUnbindNotification. apply wp_bind, (wp_ntfn_set _ _ x); [done|].
  apply (wp_tcb_set _ _ c); [done|]. set (x' := x <| ntfnBoundTCB := 0 |>). set (c' := c <| tcbBoundNotification := 0 |>).
  set (k1 := k <| ntfns ::= <[n := x']> |>). set (k' := k1 <| tcbs ::= <[t := c']> |>).
  assert (Ht : ∀ u, tsType <$> tcbs k' !! u = tsType <$> tcbs k !! u).
  { intros u. cbn. destruct (decide (t = u)) as [<-|]; [by rewrite lookup_insert_eq, Hc|by rewrite lookup_insert_ne]. }
  split_and!; [| |done|done].
  - apply (obj_inv_same k); [| | |done].
    + split; [|done]. by apply (sched_same_set k1 t c).
    + intros wq W. apply (ipc_ok_set [] k1 t c); [done|done|]. by apply (ipc_ok_ntfn_keep [] k wq n x).
    + destruct (oi_bound _ O) as [B1 B2]. split.
      * intros m y Hy Hz. cbn in Hy. destruct (decide (n = m)) as [<-|Hm]; [rewrite lookup_insert_eq in Hy; by simplify_eq|].
        rewrite lookup_insert_ne in Hy by done. destruct (B1 m y Hy Hz) as (d & Hd & Eb). exists d. split; [|done].
        cbn. rewrite lookup_insert_ne; [done|]. intros E. rewrite <- E in Hd. congruence.
      * intros u d Hd Hz. cbn in Hd. destruct (decide (t = u)) as [<-|Hu]; [rewrite lookup_insert_eq in Hd; by simplify_eq|].
        rewrite lookup_insert_ne in Hd by done. destruct (B2 u d Hd Hz) as (y & Hy & Eb). exists y. split; [|done].
        cbn. rewrite lookup_insert_ne; [done|]. intros E. rewrite <- E in Hy. congruence.
  - split; try done; cbn.
    + intros u Hu. by apply insert_dom.
    + intros u d Hd Hs. specialize (Ht u). cbn in Ht. rewrite Hd in Ht. destruct (tcbs k !! u) as [d'|]; [|done].
      injection Ht as Ht. exists d'. split; [done|congruence].
    + intros m Hm. by apply insert_dom.
Qed.

Lemma unbindMaybe_inv k n : obj_inv k → is_Some (ntfns k !! n) →
  wp (unbindMaybeNotification n) (λ _ k', obj_inv k' ∧ keeps k k' ∧ ctes k' = ctes k) k.
Proof.
  intros O [x Hx]. unfold unbindMaybeNotification. apply wp_bind, (wp_ntfn_at _ x); [done|].
  destruct (Z.eqb_spec (ntfnBoundTCB x) 0) as [|Hz]; cbn [negb when]; [apply wp_ret; by auto using keeps_refl|].
  destruct (oi_bound _ O) as [B _]. destruct (B n x Hx Hz) as (c & Hc & Eb).
  eapply wp_mono; [by apply (doUnbind_inv k n x _ c)|]. naive_solver.
Qed.

Lemma unbind_inv k t c : obj_inv k → tcbs k !! t = Some c →
  wp (unbindNotification t) (λ _ k', obj_inv k' ∧ keeps k k' ∧ ctes k' = ctes k ∧
    ∀ u, tsType <$> tcbs k' !! u = tsType <$> tcbs k !! u) k.
Proof.
  intros O Hc. unfold unbindNotification. apply wp_bind, (wp_tcb_at _ c); [done|].
  destruct (Z.eqb_spec (tcbBoundNotification c) 0) as [|Hz]; cbn [negb when]; [apply wp_ret; by auto using keeps_refl|].
  destruct (oi_bound _ O) as [_ B]. destruct (B t c Hc Hz) as (x & Hx & Eb). by apply (doUnbind_inv k _ x t c).
Qed.

(** ** The invariant of deletion *)

(** The objects behind a capability are there, and the place it is mapped at is
    one it can be mapped at. *)
Definition cap_live (k : ks) (c : cap_t) : Prop :=
  match c with
  | cap_endpoint_cap _ _ _ _ e => is_Some (eps k !! e)
  | cap_notification_cap _ _ _ n => is_Some (ntfns k !! n)
  | cap_thread_cap t => is_Some (tcbs k !! t) ∧ t ≠ ksIdleThread k
  | cap_frame_cap size asid _ mapType _ _ _ =>
    (size = X86_SmallPage ∨ size = X86_LargePage) ∧ 0 ≤ asid < 4096 ∧
    (asid = 0 ∨ mapType = X86_MappingVSpace ∨ mapType = X86_MappingIOSpace)
  | cap_page_table_cap _ asid vaddr _ => 0 ≤ asid < 4096 ∧ (2 ^ 22 | vaddr)
  | cap_page_directory_cap _ asid _ _ => 0 ≤ asid < 4096
  | cap_asid_pool_cap base _ => 0 ≤ base < 4096 ∧ (1024 | base)
  | cap_io_space_cap _ _ => False
  | _ => True
  end.

Record caps_live (k : ks) : Prop := {
  cl_live : ∀ p c, caps (ctes k) !! p = Some c → cap_live k c;
  cl_irq : ∀ p irq, caps (ctes k) !! p = Some (cap_irq_handler_cap irq) →
    pinned is_ntfn (caps (ctes k)) (cte_index (intStateIRQNode k) irq);
  cl_reply : ∀ t c, tcbs k !! t = Some c → tsType c = ThreadState_BlockedOnReply →
    pinned is_reply (caps (ctes k)) (TCB_PTR_CTE_PTR t tcbReply);
  cl_root : is_Some (caps (ctes k) !! TCB_PTR_CTE_PTR (ksCurThread k) tcbVTable);
  cl_asids : length (x86KSASIDTable (x86 k)) = 4%nat
}.

Record del_inv (k : ks) : Prop := {
  di_slots : ∃ cs, slots_ok (ctes k) cs;
  di_obj : obj_inv k;
  di_live : caps_live k
}.

Lemma cap_live_keeps k k' c : keeps k k' → cap_live k c → cap_live k' c.
Proof.
  intros Ke. destruct c; cbn; try done; try apply Ke. intros [? ?]. split; [by apply Ke|by rewrite (ke_idle _ _ Ke)].
Qed.

Lemma prunes_pinned sort m m' q : prunes m m' → caps_ok m → pinned sort m q → pinned sort m' q.
Proof.
  induction 1 as [|m1 m2 m3 Hp _ IH]; [done|]. intros H Hq. apply IH; [by apply (prune_ok m1)|by apply (prune_pinned sort m1)].
Qed.

Lemma caps_live_step k k' : caps_live k → caps_ok (caps (ctes k)) → keeps k k' →
  prunes (caps (ctes k)) (caps (ctes k')) → caps_live k'.
Proof.
  intros [L I R T A] C Ke Hp. pose proof (prunes_origin _ _ Hp C) as Hor. split.
  - intros p c Hc. destruct (Hor p c Hc) as [Hn|(q & d & Hd & [-> |(Hz & _)])].
    + by destruct c.
    + by apply (cap_live_keeps k), (L q).
    + by destruct c.
  - intros p irq Hc. rewrite (ke_node _ _ Ke). apply (prunes_pinned _ _ _ _ Hp C).
    destruct (Hor p _ Hc) as [Hn|(q & d & Hd & [<- |(Hz & _)])]; [done|by apply (I q)|done].
  - intros t c' Hc' Hs. destruct (ke_reply _ _ Ke t c' Hc' Hs) as (c & Hc & Hs').
    by apply (prunes_pinned _ _ _ _ Hp C), (R t c).
  - rewrite (ke_cur _ _ Ke), <- elem_of_dom, (prunes_dom _ _ Hp). by apply elem_of_dom.
  - by rewrite (ke_asids _ _ Ke).
Qed.

(** The capabilities of a state. *)
Notation kcaps k := (caps (ctes k)).

Lemma di_caps k : del_inv k → caps_ok (kcaps k).
Proof. intros [[cs S] _ _]. apply S. Qed.

(** The invariant after a step that leaves the slots alone. *)
Lemma del_inv_objects k k' : del_inv k → obj_inv k' → keeps k k' → ctes k' = ctes k → del_inv k'.
Proof.
  intros D O Ke E. pose proof (di_caps _ D) as C. destruct D as [[cs S] _ L]. split; [exists cs; by rewrite E|done|].
  apply (caps_live_step k); [done|done|done|]. by rewrite E.
Qed.

(** The invariant after a step on the slots alone. *)
Lemma del_inv_slots k h cs : del_inv k → slots_ok h cs → prune (kcaps k) (caps h) → del_inv (k <| ctes := h |>).
Proof.
  intros D S P. pose proof (di_caps _ D) as C. destruct D as [_ O L]. split; [by exists cs|by apply (obj_inv_frame k)|].
  apply (caps_live_step k); [done|done| |by apply rtc_once]. by apply keeps_frame.
Qed.

(** What finalisation takes from the slots: at most one reply or notification
    capability. *)
Definition trims (m m' : gmap Z cap_t) : Prop :=
  m' = m ∨ ∃ q c, m !! q = Some c ∧ is_reply c || is_ntfn c = true ∧ m' = <[q := cap_null_cap]> m.

Lemma trims_prunes m m' : trims m m' → prunes m m'.
Proof. intros [-> |(q & c & Hq & _ & ->)]; [done|]. apply rtc_once, prune_remove. eauto. Qed.

Lemma trims_lookup m m' p c : trims m m' → m !! p = Some c → is_reply c || is_ntfn c = false → m' !! p = Some c.
Proof.
  intros [-> |(q & d & Hq & Hd & ->)] Hp Hc; [done|]. rewrite lookup_insert_ne; [done|]. intros ->. simplify_eq. congruence.
Qed.

(** The outcome of a step of finalisation. *)
Definition finalised (k k' : ks) : Prop := del_inv k' ∧ keeps k k' ∧ trims (kcaps k) (kcaps k').

Lemma finalised_objects k k' : del_inv k → obj_inv k' → keeps k k' → ctes k' = ctes k → finalised k k'.
Proof. intros D O Ke E. split_and!; [by apply (del_inv_objects k)|done|left; by rewrite E]. Qed.

(** Emptying a slot. *)
Lemma emptySlot_inv k slot s irq : del_inv k → ctes k !! slot = Some s →
  wp (emptySlot slot irq) (λ _ k', del_inv k' ∧ keeps k k' ∧ kcaps k' = <[slot := cap_null_cap]> (kcaps k)) k.
Proof.
  intros D Hs. destruct (is_null (cte_cap s)) eqn:Hn.
  { unfold emptySlot. apply wp_bind, (wp_cte_at _ s); [done|]. rewrite Hn. apply wp_ret.
    split_and!; [done|apply keeps_refl|]. symmetry. apply insert_id. rewrite (caps_lookup _ _ _ Hs). by destruct (cte_cap s). }
  pose proof D as [[cs S] _ _]. apply (empty_any k cs slot s); [apply S|done|done|]. intros h Hh.
  destruct (slots_ok_remove _ h cs slot S ltac:(eauto) Hh) as [S' P].
  pose proof (del_inv_slots k h _ D S' P) as D'. pose proof (removed_caps _ _ _ _ Hh) as E.
  assert (Ke : ∀ k1, keeps k1 (irq_off irq k1) ∧ ctes (irq_off irq k1) = ctes k1 ∧ (obj_inv k1 → obj_inv (irq_off irq k1))).
  { intros k1. unfold irq_off. destruct (irq =? irqInvalid); [by auto using keeps_refl|].
    split_and!; [by apply keeps_frame|done|by apply obj_inv_frame]. }
  destruct (Ke (k <| ctes := h |>)) as (Ke' & Ec & Ko). split_and!.
  - apply (del_inv_objects (k <| ctes := h |>)); [done|apply Ko, D'|done|done].
  - eapply keeps_trans; [|exact Ke']. by apply keeps_frame.
  - by rewrite Ec.
Qed.

(** *** Deleting one reply or notification capability *)

Lemma trims_insert m q c : m !! q = Some c → is_null c || is_reply c || is_ntfn c = true → trims m (<[q := cap_null_cap]> m).
Proof.
  intros Hq Hc. destruct (is_null c) eqn:En.
  - left. apply insert_id. by destruct c.
  - right. by exists q, c.
Qed.

Lemma deleteOne_reply_inv k slot s : del_inv k → ctes k !! slot = Some s → is_reply (cte_cap s) = true →
  wp (cteDeleteOne slot) (λ _ k', finalised k k' ∧ tcbs k' = tcbs k) k.
Proof.
  intros D Hs Hr. pose proof D as [[cs S] _ _]. destruct (cte_cap s) as [| | | |master t| | | | | | | | | | | | | |] eqn:Ec; try done.
  apply (deleteOne_reply k cs slot s master t); [apply S|done|done|]. intros h Hh.
  destruct (slots_ok_remove _ h cs slot S ltac:(eauto) Hh) as [S' P]. split; [|done]. split_and!.
  - by apply (del_inv_slots k h (remove_slot slot cs)).
  - by apply keeps_frame.
  - change (trims (kcaps k) (caps h)). rewrite (removed_caps _ _ _ _ Hh). apply (trims_insert _ _ (cte_cap s)); [by apply caps_lookup|by rewrite Ec].
Qed.

Lemma finalise_ntfn k n (final : bool) : del_inv k → is_Some (ntfns k !! n) →
  wp (when final (unbindMaybeNotification n;; cancelAllSignals n)) (λ _ k', del_inv k' ∧ keeps k k' ∧ ctes k' = ctes k) k.
Proof.
  intros D Hn. destruct final; cbn [when]; [|apply wp_ret; by auto using keeps_refl].
  apply wp_bind. eapply wp_mono; [apply unbindMaybe_inv; [apply D|done]|]. intros [] k1 (O1 & K1 & E1).
  eapply wp_mono; [apply cancelAllSignals_inv; [done|by apply K1]|]. intros [] k2 (O2 & K2 & E2).
  assert (Ke : keeps k k2) by (by eapply keeps_trans). assert (Ee : ctes k2 = ctes k) by congruence.
  split_and!; [by apply (del_inv_objects k)|done|done].
Qed.

Lemma deleteOne_ntfn_inv k slot s : del_inv k → ctes k !! slot = Some s →
  is_null (cte_cap s) || is_ntfn (cte_cap s) = true → wp (cteDeleteOne slot) (λ _ k', finalised k k') k.
Proof.
  intros D Hs Hc. pose proof D as [[cs S] O L]. destruct (is_null (cte_cap s)) eqn:En.
  { unfold cteDeleteOne. apply wp_bind, (wp_cte_at _ s); [done|]. rewrite En. apply wp_ret. split_and!; [done|apply keeps_refl|by left]. }
  apply (deleteOne_final k cs slot s); [apply S|apply S|done|done|]. intros final _.
  pose proof (cl_live _ L _ _ (caps_lookup _ _ _ Hs)) as Hl.
  destruct (cte_cap s) as [| | |b r sd n| | | | | | | | | | | | | | |] eqn:Ec; try done. cbn in Hl.
  apply wp_bind. unfold finaliseCap_exposed. apply wp_bind. cbn [finaliseCap_at_once isArchCap]. apply wp_bind.
  eapply wp_mono; [by apply (finalise_ntfn k n final)|]. intros [] k1 (D1 & K1 & E1). apply wp_ret, wp_ret.
  cbn [fc_remainder fc_irq capRemovable]. apply wp_bind, (wp_lifted _ true); [done|]. apply wp_bind, wp_assert; [done|].
  eapply wp_mono; [apply (emptySlot_inv k1 slot s); [done|by rewrite E1]|]. intros [] k2 (D2 & K2 & E2). split_and!.
  - done.
  - by eapply keeps_trans.
  - rewrite E2, E1. apply (trims_insert _ _ (cte_cap s)); [by apply caps_lookup|by rewrite Ec].
Qed.

(** ** Suspending a thread *)

Lemma cancelIPC_inv k t c : del_inv k → tcbs k !! t = Some c →
  wp (cancelIPC t) (λ _ k', finalised k k' ∧ ∃ c', tcbs k' !! t = Some c' ∧ waiting_state (tsType c') = false) k.
Proof.
  intros D Hc. pose proof D as [[cs S] O L]. destruct (waiting_state (tsType c)) eqn:Hw.
  { destruct (oi_ipc _ O) as [wq W]. eapply wp_mono; [apply (cancelIPC_waiting k wq t c); [apply O|done..]|].
    intros [] k' (I' & W' & Hm & B & _ & _ & Ko).
    destruct (released_inv k k' _ [t] O I' W' B) as (O' & Ke & Ec); [|done|].
    - intros u ->%list_elem_of_singleton. by eapply inactive_released.
    - split; [by apply finalised_objects|]. unfold made_inactive in Hm. destruct (tcbs k' !! t) as [c'|]; [|done].
      cbn [fmap option_fmap option_map] in Hm. apply (inj Some) in Hm. exists c'. split; [done|].
      change (waiting_state (tsType (thread_core c')) = false). by rewrite Hm. }
  assert (Hnop : wp (mret tt) (λ _ k', finalised k k' ∧ ∃ c', tcbs k' !! t = Some c' ∧ waiting_state (tsType c') = false) k).
  { apply wp_ret. split; [split_and!; [done|apply keeps_refl|by left]|eauto]. }
  unfold cancelIPC. apply wp_bind, (wp_tcb_at _ c); [done|]. destruct (tsType c) eqn:Et; try done.
  apply wp_bind, (wp_tcb_set _ _ c); [done|]. set (c1 := c <| tcbFault := seL4_Fault_NullFault |>).
  set (k1 := k <| tcbs ::= <[t := c1]> |>).
  assert (Hc1 : tcbs k1 !! t = Some c1) by apply lookup_insert_eq.
  assert (O1 : obj_inv k1).
  { apply (obj_inv_same k); [by apply (sched_same_set k t c)|intros wq; by apply (ipc_ok_set [] k t c)| |done].
    apply (bound_ok_keep k); [apply O|done|]. intros u. cbn.
    destruct (decide (t = u)) as [<-|]; [by rewrite lookup_insert_eq, Hc|by rewrite lookup_insert_ne]. }
  assert (K1 : keeps k k1).
  { split; try done; cbn.
    - intros u Hu. by apply insert_dom.
    - intros u d Hd Hs. destruct (decide (t = u)) as [<-|]; [by exists c|]. rewrite lookup_insert_ne in Hd by done. eauto. }
  pose proof (del_inv_objects k k1 D O1 K1 eq_refl) as D1.
  destruct (cl_reply _ L t c Hc Et) as [(r & Hr & _ & Hrep) _]. apply caps_inv in Hr as (s & Hs & <-).
  apply wp_bind, (wp_cte_at _ s); [done|].
  assert (Hdone : finalised k k1 ∧ ∃ c', tcbs k1 !! t = Some c' ∧ waiting_state (tsType c') = false).
  { split; [split_and!; [done|done|by left]|]. exists c1. split; [done|]. unfold c1. cbn. by rewrite Et. }
  destruct (Z.eqb_spec (mdbNext (cteMDBNode s)) 0) as [|Hz]; cbn [negb when]; [by apply wp_ret|].
  destruct (mdb_next _ _ (sl_mdb _ _ S) _ _ Hs Hz) as (n & Hn & _ & Hnn & Hsn & _).
  assert (Hrn : is_reply (cte_cap n) = true).
  { destruct (mdb_chain _ _ (sl_mdb _ _ S) _ _ Hs Hsn) as (l1 & l2 & Hl & _ & _ & Enx).
    rewrite Hsn in Hrep. cbn in Hrep. rewrite <- Hrep. symmetry.
    eapply (sl_reply _ _ S _ (TCB_PTR_CTE_PTR t tcbReply) (mdbNext (cteMDBNode s)) _ _ Hl); [set_solver| |by apply caps_lookup..].
    rewrite Enx. destruct l2 as [|y l2]; [by rewrite Enx in Hz|]. cbn. set_solver. }
  eapply wp_mono; [by apply (deleteOne_reply_inv k1 _ n)|]. intros [] k2 ((D2 & K2 & T2) & E2). split.
  - split_and!; [done|by eapply keeps_trans|done].
  - rewrite E2. apply Hdone.
Qed.

(** [scheduleTCB] after the state of [t] has become inactive. *)
Lemma scheduleTCB_stop k t c : tcbs k !! t = Some c → isRunnable_state (tsType c) = false →
  wp (scheduleTCB t) (λ _ k', ∃ a, k' = k <| ksSchedulerAction := a |> ∧
    (a = ksSchedulerAction k ∨ a = SchedulerAction_ChooseNewThread) ∧
    (t = ksCurThread k → a ≠ SchedulerAction_ResumeCurrentThread)) k.
Proof.
  intros Hc Hn. unfold scheduleTCB. apply wp_bind, wp_gets. apply wp_bind, wp_gets. destruct (_ && _) eqn:E.
  - apply andb_prop in E as [_ Ea%Z.eqb_eq]. apply wp_bind. eapply wp_mono; [by apply (isRunnable_spec k t c)|].
    intros r k' [-> ->]. rewrite Hn. cbn [negb when]. unfold rescheduleRequired. apply wp_bind, wp_gets. rewrite Ea.
    cbn [Z.eqb negb andb when SchedulerAction_ResumeCurrentThread]. apply wp_bind, wp_ret. apply wp_modify. eauto.
  - apply wp_ret. exists (ksSchedulerAction k). split_and!; [by destruct k|by left|].
    intros Et Ea. by rewrite Et, Ea, Z.eqb_refl in E.
Qed.

(** The scheduler after a thread has been stopped and taken off its queue. *)
Lemma stopped_sched k k3 t c a rq rq' : obj_inv k → tcbs k !! t = Some c → t ≠ ksIdleThread k →
  (a = ksSchedulerAction k ∨ a = SchedulerAction_ChooseNewThread) →
  (t = ksCurThread k → a ≠ SchedulerAction_ResumeCurrentThread) →
  sched_ok k rq → queues_runnable k rq →
  let k2 := with_state t c ThreadState_Inactive k <| ksSchedulerAction := a |> in
  sched_ok k3 rq' → (∀ p, rq' p = rq_without t rq p) → only_queues k2 k3 → sched_inv k3.
Proof.
  intros [I A _ _] Hc Hid Ha Hcur Hok Hr k2 Hok3 Erq Oq. pose proof (only_queues_threads _ _ Oq) as S.
  destruct (oq_rest _ _ Oq) as (_ & _ & E3 & E4 & E5 & _ & _ & E8 & E9). cbn in E3, E4, E5, E8, E9.
  assert (Hrun : ∀ u, runnable k3 u ↔ u ≠ t ∧ runnable k u).
  { intros u. rewrite <- (st_runnable k2 k3 u S). change (runnable k2 u) with (runnable (with_state t c ThreadState_Inactive k) u).
    unfold with_state. rewrite (set_state_runnable k t c ThreadState_Inactive u Hc). cbn. naive_solver. }
  assert (Hdom : ∀ u, is_Some (tcbs k !! u) ↔ is_Some (tcbs k3 !! u)).
  { intros u. destruct S as [S _]. specialize (S u). cbn in S. destruct (decide (t = u)) as [<-|Hne].
    - rewrite lookup_insert_eq in S. rewrite Hc. destruct (tcbs k3 !! t); [naive_solver|done].
    - rewrite lookup_insert_ne in S by done. destruct (tcbs k3 !! u), (tcbs k !! u); naive_solver. }
  split.
  - exists rq'. split; [done|]. intros p u. rewrite Erq. intros [Hu Hin]%list_elem_of_filter. apply Hrun. split; [done|by apply (Hr p)].
  - intros u d Hd. destruct (proj2 (Hdom u) ltac:(eauto)) as [d' Hd']. by apply (si_ptr _ _ I u d').
  - rewrite E3. apply Hdom, I.
  - rewrite E8, E9. apply I.
  - rewrite E5. destruct Ha as [-> | ->]; [|auto]. destruct A; auto.
  - intros Er. rewrite E3, E4. rewrite E5 in Er. destruct (decide (t = ksCurThread k)) as [Et|Hne]; [by destruct (Hcur Et)|].
    destruct Ha as [E| ->]; [|done]. rewrite E in Er. destruct (si_resume _ _ I Er) as [?|?]; [|by right].
    left. apply Hrun. auto.
  - intros u [Hu Hru]%Hrun _. rewrite E3. destruct (si_lost _ _ I u Hru ltac:(done)) as [Hq|[?|Eu]]; [|auto|].
    + destruct (queued_in _ _ _ Hok Hq) as [p Hp]. left. apply (in_queue_queued _ _ p _ Hok3). rewrite Erq. by apply list_elem_of_filter.
    + exfalso. destruct Hru as (d & Hd & _). destruct A as [Ez|Ez]; rewrite Ez in Eu.
      * destruct (so_tcb _ _ Hok _ _ Hd) as [? _]. done.
      * by apply (si_ptr _ _ I) in Hd.
  - rewrite E4. destruct (si_idle _ _ I) as (d & Hd & Hs). assert (Hd2 : tcbs k2 !! ksIdleThread k = Some d) by (cbn; by rewrite lookup_insert_ne).
    destruct (st_field tsType _ _ _ _ ltac:(done) S Hd2) as (d' & Hd' & E). exists d'. by rewrite E.
Qed.

Lemma stop_inv k t c : obj_inv k → tcbs k !! t = Some c → waiting_state (tsType c) = false → t ≠ ksIdleThread k →
  wp (setThreadState t ThreadState_Inactive;; tcbSchedDequeue t) (λ _ k', obj_inv k' ∧ keeps k k' ∧ ctes k' = ctes k) k.
Proof.
  intros O Hc Hw Hid. apply wp_bind. unfold setThreadState. apply wp_bind, (wp_tcb_set _ _ c); [done|].
  set (c1 := c <| tsType := ThreadState_Inactive |>). change (k <| tcbs ::= <[t := c1]> |>) with (with_state t c ThreadState_Inactive k).
  set (k1 := with_state t c ThreadState_Inactive k). assert (Hc1 : tcbs k1 !! t = Some c1) by apply lookup_insert_eq.
  eapply wp_mono; [by apply (scheduleTCB_stop k1 t c1)|]. intros [] k2 (a & -> & Ha & Hcur).
  destruct (si_rq _ _ (oi_sched _ O)) as (rq & Hok & Hr). set (k2 := k1 <| ksSchedulerAction := a |>).
  assert (Hok2 : sched_ok k2 rq).
  { apply (sched_ok_ext k1); try done. by apply (sched_ok_set k rq t c). }
  eapply wp_mono; [by apply (tcbSchedDequeue_spec k2 rq t c1)|]. intros [] k3 [Hok3 Oq].
  pose proof (only_queues_threads _ _ Oq) as S. destruct (oi_ipc _ O) as [wq W].
  assert (W1 : ipc_ok k1 wq).
  { apply (ipc_ok_awake [] k1 t c1 wq Hc1); [done|]. apply (ipc_ok_free [t] k t c); [done|set_solver|]. by apply (ipc_ok_except [] k t c). }
  assert (W3 : ipc_ok k3 wq) by (apply (same_threads_ipc [] k2); [done|]; by apply (ipc_ok_same [] k1)).
  destruct (oq_rest _ _ Oq) as (Eo & Ee & _ & _ & Ea & _). injection Eo as En _ _ _ _ _ _ _ _ _ _ _.
  apply (released_inv k k3 wq [t]); [done| |done| | |].
  - eapply (stopped_sched k k3 t c a rq); try done. intros p. by apply (rq_dequeue_without k2).
  - eapply (threads_but_trans [t] k k2); [|by apply same_threads_but].
    split_and!; try done. intros u Hu. cbn. rewrite lookup_insert_ne; [done|]. intros <-. set_solver.
  - intros u ->%list_elem_of_singleton. apply (inactive_released k k3 t c); [done|].
    unfold made_inactive. by apply (same_threads_core k2 k3).
  - split_and!; [by rewrite En|by rewrite Ee|]. rewrite Ea. exact Ha.
Qed.

Lemma finalised_trans_left k k1 k2 : keeps k k1 → ctes k1 = ctes k → finalised k1 k2 → finalised k k2.
Proof. intros K1 E1 (D2 & K2 & T2). split_and!; [done|by eapply keeps_trans|by rewrite <- E1]. Qed.
Lemma finalised_trans_right k k1 k2 : finalised k k1 → obj_inv k2 → keeps k1 k2 → ctes k2 = ctes k1 → finalised k k2.
Proof.
  intros (D1 & K1 & T1) O2 K2 E2. split_and!; [by apply (del_inv_objects k1)|by eapply keeps_trans|by rewrite E2].
Qed.

Lemma suspend_inv k t c : del_inv k → tcbs k !! t = Some c → t ≠ ksIdleThread k → wp (suspend t) (λ _ k', finalised k k') k.
Proof.
  intros D Hc Hid. unfold suspend. apply wp_bind. eapply wp_mono; [by apply (cancelIPC_inv k t c)|].
  intros [] k1 (F1 & c1 & Hc1 & Hw1). pose proof F1 as (D1 & K1 & _).
  eapply wp_mono; [apply (stop_inv k1 t c1); [apply D1|done|done|by rewrite (ke_idle _ _ K1)]|].
  intros [] k2 (O2 & K2 & E2). by apply (finalised_trans_right k k1).
Qed.

Lemma arch_call_inv k (b : bool) a (Q : unit → ks → Prop) : del_inv k →
  (∀ k', del_inv k' → keeps k k' → ctes k' = ctes k → Q tt k') → wp (when b (arch_call_made a)) Q k.
Proof.
  intros D HQ. destruct b; cbn [when]; [|apply wp_ret; by auto using keeps_refl].
  unfold arch_call_made. apply wp_modify. set (k' := k <| arch_calls ::= cons a |>).
  assert (Ke : keeps k k') by (by apply keeps_frame). apply HQ; [|done|done].
  apply (del_inv_objects k); [done|apply (obj_inv_frame k); try done; apply D|done|done].
Qed.

(** ** [finaliseCap] *)

(** What is left of the capability: nothing, or the zombie of its table, to which
    there is no other capability. *)
Definition remainder_ok (m : gmap Z cap_t) (slot : Z) (c r : cap_t) : Prop :=
  r = cap_null_cap ∨ ∃ b n type, container c = Some (b, type) ∧ sole m slot b ∧ 0 ≤ n ≤ entries type ∧
    r = cap_zombie_cap (b + n) type ∧ (is_zombie c = true → r = c).

Lemma sole_trims m m' slot b : trims m m' → sole m slot b → sole m' slot b.
Proof.
  intros [-> |(x & d & Hx & _ & ->)] Hs; [done|]. intros q c type Hq Hc.
  destruct (decide (x = q)) as [->|]; [rewrite lookup_insert_eq in Hc; by simplify_eq|].
  rewrite lookup_insert_ne in Hc by done. by apply (Hs q).
Qed.

Lemma remainder_trims m m' slot c r : trims m m' → remainder_ok m slot c r → remainder_ok m' slot c r.
Proof.
  intros T [-> |(b & n & type & Hc & Hs & ?)]; [by left|]. right. exists b, n, type. split_and!; try apply (sole_trims m); naive_solver.
Qed.

Lemma zombie_id m p id type : caps_ok m → m !! p = Some (cap_zombie_cap id type) →
  id = capZombiePtr id type + capZombieNumber id type ∧ 0 ≤ capZombieNumber id type ≤ entries type.
Proof.
  intros H Hp. destruct (co_zombie _ H _ _ _ Hp) as [Hw Hn].
  pose proof (kind_bits _ (ta_kind _ _ _ (co_table _ H _ _ _ _ Hp eq_refl))) as [Hz _].
  unfold capZombiePtr, capZombieNumber in *. rewrite land_lnot_mask, land_MASK in * by lia.
  pose proof (Z.mod_pos_bound id (2 ^ (capZombieBits type + 1)) ltac:(apply Z.pow_pos_nonneg; lia)). lia.
Qed.


(** The zombie of a table whose last capability goes. *)
Lemma remainder_new h slot c b type : caps_ok (caps h) → caps h !! slot = Some c → container c = Some (b, type) →
  is_zombie c = false → (∀ q, q ≠ slot → ¬ same_object h slot q) →
  remainder_ok (caps h) slot c (Zombie_new (entries type) type b).
Proof.
  intros H Hs Hc Hz Hf. right. exists b, (entries type), type.
  pose proof (co_table _ H _ _ _ _ Hs Hc) as T. pose proof (kind_bits _ (ta_kind _ _ _ T)) as [_ He].
  destruct (table_sum _ b type (entries type) T ltac:(lia)) as (Hn & Hw & _).
  split_and!; [done|by apply (final_sole h slot c b type)|lia|done| |congruence].
  apply Zombie_new_sum; try apply T; [done|lia].
Qed.

(** The objects behind the capability are released; the slot itself is not
    touched. *)
Definition finalise_post (k : ks) (slot : Z) (c : cap_t) (fc : finaliseCap_ret_t) (k' : ks) : Prop :=
  finalised k k' ∧ kcaps k' !! slot = Some c ∧ remainder_ok (kcaps k') slot c (fc_remainder fc).

Lemma finalise_nothing k slot c irq k' : kcaps k !! slot = Some c → del_inv k → del_inv k' → keeps k k' → ctes k' = ctes k → finalise_post k slot c (mk_fc cap_null_cap irq) k'.
Proof. intros Hs D D' Ke E. split_and!; [apply finalised_objects; try done; apply D'|by rewrite E|by left]. Qed.

(** *** Address spaces *)

Lemma del_vm_ok k : del_inv k → vm_ok k.
Proof.
  intros D. destruct (cl_root _ (di_live _ D)) as [c Hc]. pose proof (cl_live _ (di_live _ D) _ _ Hc) as Hl.
  apply caps_inv in Hc as (s & Hs & <-). split; [apply (cl_asids _ (di_live _ D))|]. exists s. split; [done|].
  by destruct (cte_cap s).
Qed.

Lemma tidy_inv {A} k (m : K A) : del_inv k → tidy m → wp m (λ _ k', del_inv k' ∧ keeps k k' ∧ ctes k' = ctes k) k.
Proof.
  intros D Hm. eapply wp_mono; [by apply Hm, del_vm_ok|]. intros a k' [E L].
  assert (Ke : keeps k k') by (apply keeps_frame; try done; by rewrite E).
  assert (Ec : ctes k' = ctes k) by (by rewrite E). split_and!; [|done|done].
  apply (del_inv_objects k); [done|apply (obj_inv_frame k); try (by rewrite E); apply D|done|done].
Qed.

Lemma Arch_finaliseCap_tidy k c final : cap_live k c → isArchCap c = true →
  ∃ m : K unit, Arch_finaliseCap c final = (m;; mret cap_null_cap) ∧ tidy m.
Proof.
  intros Hl Ha.
  destruct c as [| | | | | | | | | | |size asid v mt dev r p|m asid v p|m asid v p| |base pool|d pci|m l a i p|f l v]; try done;
    cbn [Arch_finaliseCap]; try (eexists; split; [reflexivity|apply tidy_when; intros Hf]);
    try (exists (mret tt); split; [done|apply tidy_ret]).
  - destruct Hl as (Hz & Hasid & Hm). apply andb_prop in Hf as [_ Hn%negb_true_iff%Z.eqb_neq].
    destruct Hm as [?|[-> | ->]]; [done|change (tidy (unmapPage size asid v p)); by apply tidy_unmapPage|].
    change (tidy (unmapIOPage (cap_frame_cap size asid v X86_MappingIOSpace dev r p))). apply tidy_unmapIOPage.
  - destruct Hl. by apply tidy_unmapPageTable.
  - by apply tidy_deleteASID.
  - destruct Hl. by apply tidy_deleteASIDPool.
  - apply tidy_deleteIOPageTable.
Qed.

Lemma finalise_arch k slot c final : del_inv k → kcaps k !! slot = Some c → isArchCap c = true →
  wp (Arch_finaliseCap c final) (λ r k', finalise_post k slot c (mk_fc r irqInvalid) k') k.
Proof.
  intros D Hs Ha. destruct (Arch_finaliseCap_tidy k c final) as (m & -> & Hm); [by apply (cl_live _ (di_live _ D) slot)|done|].
  apply wp_bind. eapply wp_mono; [by apply tidy_inv|]. intros [] k' (D' & K' & E'). apply wp_ret. by apply finalise_nothing.
Qed.

Lemma finalise_thread k slot c t : del_inv k → kcaps k !! slot = Some c → c = cap_thread_cap t → (∀ q, q ≠ slot → ¬ same_object (ctes k) slot q) →
  wp (unbindNotification t;; suspend t;; arch_call_made (call_tcbDebugRemove t);; Arch_prepareThreadDelete t;;
      mret (mk_fc (Zombie_new tcbArchCNodeEntries ZombieType_ZombieTCB (TCB_PTR_CTE_PTR t tcbCTable)) irqInvalid))
    (λ fc k', finalise_post k slot c fc k') k.
Proof.
  intros D Hs E Hf. pose proof (cl_live _ (di_live _ D) _ _ Hs) as Hl. rewrite E in Hl. destruct Hl as [[tc Ht] Hid].
  apply wp_bind. eapply wp_mono; [apply (unbind_inv k t tc); [apply D|done]|]. intros [] k1 (O1 & K1 & E1 & _).
  pose proof (del_inv_objects k k1 D O1 K1 E1) as D1. destruct (ke_tcb _ _ K1 t ltac:(eauto)) as [tc1 Ht1].
  apply wp_bind. eapply wp_mono; [apply (suspend_inv k1 t tc1); [done|done|by rewrite (ke_idle _ _ K1)]|].
  intros [] k2 F2. apply (finalised_trans_left k) in F2; [|done|done].
  apply wp_bind, (arch_call_inv k2 true); [apply F2|]. intros k3 D3 K3 E3.
  apply wp_bind, (arch_call_inv k3 true); [done|]. intros k4 D4 K4 E4. apply wp_ret.
  assert (F4 : finalised k k4).
  { apply (finalised_trans_right k k2); [done|apply D4|by eapply keeps_trans|congruence]. }
  pose proof F4 as (_ & K & T). split_and!; [done| |].
  - rewrite E in *. by apply (trims_lookup (kcaps k)).
  - apply (remainder_trims (kcaps k)); [done|]. change tcbArchCNodeEntries with (entries ZombieType_ZombieTCB).
    apply (remainder_new (ctes k)); try done; [by apply di_caps|by rewrite E|by rewrite E].
Qed.

Lemma finaliseCap_inv k slot c final : del_inv k → kcaps k !! slot = Some c → is_null c = false →
  (final = true ↔ ∀ q, q ≠ slot → ¬ same_object (ctes k) slot q) →
  wp (finaliseCap c final false) (λ fc k', finalise_post k slot c fc k') k.
Proof.
  intros D Hs Hn Hf. pose proof (cl_live _ (di_live _ D) _ _ Hs) as Hl. unfold finaliseCap. apply wp_bind.
  unfold finaliseCap_at_once. destruct (isArchCap c) eqn:Ea.
  { apply wp_bind. eapply wp_mono; [by apply finalise_arch|]. intros r k' F. by apply wp_ret, wp_ret. }
  assert (Hnull : ∀ irq, finalise_post k slot c (mk_fc cap_null_cap irq) k)
    by (intros irq; apply finalise_nothing; by auto using keeps_refl).
  destruct c as [|? ? ? ?|? ? ? ? e|? ? ? n|? ?|radix gs g ptr|t| |irq|id type| |? ? ? ? ? ? ?|? ? ? ?|? ? ? ?| |? ?|? ?|? ? ? ? ?|? ? ?] eqn:Ec;
    try done; try (by apply wp_ret, wp_ret).
  - apply wp_bind. destruct final; cbn [when]; [|by apply wp_ret, wp_ret, wp_ret].
    eapply wp_mono; [apply cancelAllIPC_inv; [apply D|done]|]. intros [] k' (O' & K' & E'). apply wp_ret, wp_ret.
    apply finalise_nothing; [done|done|by apply (del_inv_objects k)|done|done].
  - apply wp_bind. eapply wp_mono; [by apply (finalise_ntfn k n final)|]. intros [] k' (D' & K' & E').
    apply wp_ret, wp_ret. by apply finalise_nothing.
  - apply wp_ret, wp_ret. destruct final; [|done]. split_and!; [split_and!; [done|apply keeps_refl|by left]|done|].
    pose proof (co_radix _ (di_caps _ D) _ _ _ _ _ Hs) as Hr. cbn [fc_remainder].
    assert (Ee : wrap32 (Z.shiftl 1 radix) = entries radix).
    { unfold entries. change ZombieType_ZombieTCB with 32. destruct (Z.eqb_spec radix 32); [lia|].
      rewrite Z.shiftl_1_l. apply wrap_same. split; [apply Z.pow_nonneg; lia|apply Z.pow_lt_mono_r; lia]. }
    rewrite Ee. apply (remainder_new (ctes k)); try done; [by apply di_caps|]. by apply Hf.
  - apply wp_ret. destruct final; [|by apply wp_ret]. rewrite <- Ec. apply (finalise_thread k slot c t); [done|by rewrite Ec|done|]. by apply Hf.
  - apply wp_ret. destruct final; [|by apply wp_ret]. apply wp_bind. unfold deletingIRQHandler. apply wp_bind, wp_gets.
    destruct (cl_irq _ (di_live _ D) _ _ Hs) as [(d & Hd & _ & Hsort) _]. apply caps_inv in Hd as (s & Hsl & <-).
    eapply wp_mono; [by apply (deleteOne_ntfn_inv k _ s)|]. intros [] k' F. apply wp_ret.
    split_and!; [done| |by left]. apply (trims_lookup (kcaps k)); [apply F|done|done].
  - apply wp_ret, wp_ret. destruct (zombie_id _ _ _ _ (di_caps _ D) Hs) as [Eid Hnum].
    split_and!; [split_and!; [done|apply keeps_refl|by left]|done|]. right.
    exists (capZombiePtr id type), (capZombieNumber id type), type. cbn [fc_remainder]. rewrite <- Eid.
    split_and!; try done; try lia. intros q d ty Hq Hd Hx.
    by eapply (co_unique _ (di_caps _ D) slot (cap_zombie_cap id type) q d).
Qed.
