(* ===== verification/Revoke.v ===== *)
(** Deletion and revocation end, keep the invariant and leave nothing behind.

    [reduceZombie] deletes the slots of a table with [immediate] false, so that
    the recursion of the code is two loops: the outer one, over the slots of the
    zombie ([finaliseSlot_outer]), and the inner one, which clears one slot
    ([finaliseSlot_inner]) and moves the zombies it meets into their own tables.
    Each turn of the inner loop makes [measure] smaller; a turn of the outer one
    makes the zombie smaller or, when the zombie has been moved away, [measure]. *)

From stdpp Require Import functions.
From S2P Require Import Prelude Caps Kernel CSpace CNode Scheduler Wakeup Paging VSpace IOSpace Ipc Waiting Signals.
From S2P Require Import Cancel Transfer Endpoint Reply Retype Reset Creation Deletion Finalise.

(** ** The steps *)

Lemma set_zombie_inv k slot c b n type : del_inv k → kcaps k !! slot = Some c → container c = Some (b, type) →
  sole (kcaps k) slot b → 0 ≤ n ≤ entries type →
  wp (set_cap slot (cap_zombie_cap (b + n) type)) (λ _ k', del_inv k' ∧ keeps k k' ∧
    kcaps k' = <[slot := cap_zombie_cap (b + n) type]> (kcaps k) ∧ prune (kcaps k) (kcaps k')) k.
Proof.
  intros D (s & Hs & <-)%caps_inv Hc Hso Hn. pose proof D as [[cs S] _ _].
  destruct (slots_ok_zombie _ cs slot s b n type S Hs Hc Hso Hn) as (S' & E & P).
  unfold set_cap. apply (wp_cte_set _ _ s); [done|].
  pose proof (del_inv_slots k _ cs D S' P) as D'. split_and!; [exact D'|by apply keeps_frame|exact E|exact P].
Qed.

Lemma swap_inv k slot z q type : del_inv k → kcaps k !! slot = Some z → is_zombie z = true →
  container z = Some (q, type) → q ≠ slot →
  wp (swap_zombie slot q) (λ st k', st = EXCEPTION_NONE ∧ del_inv k' ∧ keeps k k' ∧
    (∃ c, kcaps k !! q = Some c ∧ kcaps k' = <[q := z]> (<[slot := c]> (kcaps k))) ∧
    prune (kcaps k) (kcaps k') ∧ (measure (kcaps k') < measure (kcaps k))%nat) k.
Proof.
  intros D Hsz Hz Ec Hne. pose proof (di_caps _ D) as C. pose proof D as [[cs S] _ _].
  pose proof (co_table _ C _ _ _ _ Hsz Ec) as T. pose proof (kind_bits _ (ta_kind _ _ _ T)) as [_ He].
  destruct (ta_slots _ _ _ T 0 ltac:(lia)) as [c Hq]. rewrite Z.mul_0_r, Z.add_0_r in Hq.
  pose proof (swap_measure _ q slot z c type C Hsz Hz Ec Hq Hne) as Hm. pose proof Hsz as Hsz'. pose proof Hq as Hq'.
  apply caps_inv in Hq' as (sq & Hsq & <-), Hsz' as (ss & Hss & <-).
  unfold swap_zombie. apply wp_bind, wp_assert; [by apply negb_true_iff, Z.eqb_neq|].
  apply wp_bind, (wp_cte_at _ sq); [done|]. apply wp_bind.
  assert (Hgo : wp (capSwapForDelete q slot;; mret EXCEPTION_NONE) (λ st k', st = EXCEPTION_NONE ∧ del_inv k' ∧ keeps k k' ∧
    (∃ c, kcaps k !! q = Some c ∧ kcaps k' = <[q := cte_cap ss]> (<[slot := c]> (kcaps k))) ∧
    prune (kcaps k) (kcaps k') ∧ (measure (kcaps k') < measure (kcaps k))%nat) k).
  { apply wp_bind. unfold capSwapForDelete. destruct (Z.eqb_spec q slot); [done|].
    apply wp_bind, (wp_cte_at _ sq); [done|]. apply wp_bind, (wp_cte_at _ ss); [done|].
    eapply wp_mono; [apply (cteSwap_run k cs _ q _ slot sq ss); [apply S|done..]|]. intros [] k' ->. apply wp_ret.
    destruct (slots_ok_swap _ cs q slot sq ss type S Hsq Hss Hne) as (S' & E & P); [done|done|].
    split_and!; [done|exact (del_inv_slots k _ _ D S' P)|by apply keeps_frame|by exists (cte_cap sq)|exact P|].
    change (measure (caps (swap_heap (cte_cap sq) q (cte_cap ss) slot (cteMDBNode sq) (cteMDBNode ss) (ctes k))) < measure (kcaps k))%nat.
    by rewrite E. }
  destruct (cte_cap sq) eqn:Eq; try (by apply wp_ret). apply wp_assert; [|done]. apply negb_true_iff, Z.eqb_neq. intros Ep.
  by destruct (co_unique _ C q _ slot _ q capZombieType type Hq Hsz Hne eq_refl) as []; [cbn; by rewrite <- Ep|].
Qed.

Lemma preempt_inv k : del_inv k →
  wp preemptionPoint (λ st k', del_inv k' ∧ keeps k k' ∧ ctes k' = ctes k ∧
    (st = EXCEPTION_NONE ∨ st = EXCEPTION_PREEMPTED ∧ true ∈ irq_pending k)) k.
Proof.
  intros D. eapply wp_mono; [apply preemptionPoint_spec|]. intros st k' (Hst & Hp & w & p & -> & Hin).
  assert (Ke : keeps k (k <| ksWorkUnitsCompleted := w |> <| irq_pending := p |>)) by (by apply keeps_frame).
  split_and!; [|done|done|destruct Hst; auto].
  apply (del_inv_objects k); [done| |done|done]. apply (obj_inv_frame k); try done. apply D.
Qed.

(** The first half of a turn of [finaliseSlot]. *)
Lemma finalise_turn {A} k slot c (rest : finaliseCap_ret_t → K A) (Q : A → ks → Prop) :
  del_inv k → kcaps k !! slot = Some c → is_null c = false →
  (∀ fc k', finalise_post k slot c fc k' → wp (rest fc) Q k') →
  wp (final ← isFinalCapability slot; s ← cte_at slot; fc_ret ← finaliseCap (cte_cap s) final false; rest fc_ret) Q k.
Proof.
  intros D Hc Hn HQ. pose proof Hc as Hc'. apply caps_inv in Hc' as (s & Hs & <-). pose proof D as [[cs S] _ _].
  apply wp_bind. eapply wp_mono; [apply (isFinalCapability_final k cs slot s); [apply S|apply S|done]|].
  intros final k' [-> Hf]. apply wp_bind, (wp_cte_at _ s); [done|]. apply wp_bind.
  eapply wp_mono; [by apply (finaliseCap_inv k slot)|]. intros fc k' F. by apply HQ.
Qed.

(** ** The inner loop *)

Definition status_ok (k : ks) (st : exception_t) : Prop :=
  st = EXCEPTION_NONE ∨ st = EXCEPTION_PREEMPTED ∧ true ∈ irq_pending k.

(** The slot holds the zombie of the table it is the first slot of. *)
Definition at_home (m : gmap Z cap_t) (o : Z) : Prop :=
  ∃ z type, m !! o = Some z ∧ is_zombie z = true ∧ container z = Some (o, type).

(** A zombie that is not the one being deleted stays where it is, or its slot
    is the first of a table that is being deleted. *)
Definition watched (m m' : gmap Z cap_t) (o : Z) : Prop :=
  ∀ z, m !! o = Some z → is_zombie z = true →
    m' !! o = Some z ∨
    at_home m' o ∧ (∀ type, container z ≠ Some (o, type)) ∧ (measure m' < measure m)%nat.

(** Either deletion has made progress, or the slot holds what it held, perhaps
    as a zombie. *)
Definition progress (m m' : gmap Z cap_t) (e : Z) : Prop :=
  (measure m' < measure m)%nat ∨ ∃ c c', m !! e = Some c ∧ m' !! e = Some c' ∧
    (c' = c ∨ is_zombie c' = true ∧ container c' = container c).

Record inner_post (k : ks) (e : Z) (r : finaliseSlot_ret_t) (k' : ks) : Prop := {
  ip_inv : del_inv k';
  ip_keeps : keeps k k';
  ip_prunes : prunes (kcaps k) (kcaps k');
  ip_status : status_ok k (fs_status r);
  ip_watch : ∀ o, o ≠ e → watched (kcaps k) (kcaps k') o;
  ip_home : fs_status r = EXCEPTION_NONE → fs_success r = false → at_home (kcaps k') e;
  ip_progress : progress (kcaps k) (kcaps k') e
}.

Lemma status_keeps k k' st : keeps k k' → status_ok k' st → status_ok k st.
Proof. intros Ke [?|[? ?]]; [by left|right]. split; [done|by apply Ke]. Qed.

Lemma progress_less m m1 m' e : (measure m1 < measure m)%nat → prunes m1 m' → caps_ok m1 → progress m m' e.
Proof. intros Hl Hp C. left. pose proof (prunes_measure m1 m' Hp C). lia. Qed.

(** A zombie is neither a reply nor a notification capability. *)
Lemma trims_zombie m m' o z : trims m m' → m !! o = Some z → is_zombie z = true → m' !! o = Some z.
Proof. intros T Ho Hz. apply (trims_lookup m); [done|done|]. by destruct z. Qed.

(** Before the swap, other slots are as they were or have lost a reply or a
    notification capability. *)
Lemma watched_before m m1 m2 e r o : trims m m1 → m2 = <[e := r]> m1 → o ≠ e → ∀ z, m !! o = Some z → is_zombie z = true → m2 !! o = Some z.
Proof. intros T -> Hne z Ho Hz. rewrite lookup_insert_ne by done. by apply (trims_zombie m). Qed.

(** The state after finalisation, with the remainder written back. *)
Lemma finalised_done k e c fc k' st ok irq : finalise_post k e c fc k' → kcaps k !! e = Some c → st = EXCEPTION_NONE →
  ok = true → inner_post k e (mk_fs st ok irq) k'.
Proof.
  intros ((D & Ke & T) & He & _) Hc -> ->. split; [done|done| | | |done|].
  - by apply trims_prunes.
  - left. done.
  - intros o Ho z Hz Hzz. left. by apply (trims_zombie (kcaps k)).
  - right. exists c, c. auto.
Qed.

(** What is not removable is a zombie with slots left. *)
Lemma not_removable m slot c r : caps_ok m → m !! slot = Some c → remainder_ok m slot c r → ∃ b,
  capRemovable r slot = Done b ∧ (b = false → ∃ p n type, container c = Some (p, type) ∧ sole m slot p ∧
    0 < n ≤ entries type ∧ r = cap_zombie_cap (p + n) type ∧ container r = Some (p, type) ∧
    capZombiePtr (p + n) type = p ∧ capZombieNumber (p + n) type = n ∧ (is_zombie c = true → r = c) ∧
    (p = slot → 1 < n)).
Proof.
  intros C Hc [-> |(p & n & type & Ec & Hs & Hn & -> & Hz)]; [by exists true|].
  destruct (table_sum m p type n (co_table _ C _ _ _ _ Hc Ec) Hn) as (_ & _ & Ep & En).
  cbn [capRemovable]. rewrite Ep, En. eexists. split; [done|]. intros Hf. apply orb_false_iff in Hf as [H0%Z.eqb_neq H1].
  exists p, n, type. cbn [container]. rewrite Ep. split_and!; try done; lia.
Qed.

(** The slot holds the zombie of its table, with [n] slots left. *)
Record zombified (k : ks) (slot : Z) (c : cap_t) (k' : ks) (p n type : Z) : Prop := {
  zo_inv : del_inv k';
  zo_keeps : keeps k k';
  zo_prunes : prunes (kcaps k) (kcaps k');
  zo_table : container c = Some (p, type);
  zo_slot : kcaps k' !! slot = Some (cap_zombie_cap (p + n) type);
  zo_ptr : capZombiePtr (p + n) type = p;
  zo_number : capZombieNumber (p + n) type = n;
  zo_some : 0 < n ≤ entries type;
  zo_home : p = slot → 1 < n;
  zo_same : is_zombie c = true → cap_zombie_cap (p + n) type = c;
  zo_others : ∀ o z, o ≠ slot → kcaps k !! o = Some z → is_zombie z = true → kcaps k' !! o = Some z
}.

(** A turn of [finaliseSlot] up to [reduceZombie]. *)
Lemma slot_turn k slot c (rest : finaliseCap_ret_t → K finaliseSlot_ret_t) (Q : finaliseSlot_ret_t → ks → Prop) :
  del_inv k → kcaps k !! slot = Some c → is_null c = false →
  (∀ fc k', finalise_post k slot c fc k' → Q (mk_fs EXCEPTION_NONE true (fc_irq fc)) k') →
  (∀ fc k' p n type, zombified k slot c k' p n type → fc_remainder fc = cap_zombie_cap (p + n) type → wp (rest fc) Q k') →
  wp (final ← isFinalCapability slot; s ← cte_at slot; fc_ret ← finaliseCap (cte_cap s) final false;
      removable ← lift (capRemovable (fc_remainder fc_ret) slot);
      if removable : bool then mret (mk_fs EXCEPTION_NONE true (fc_irq fc_ret))
      else set_cap slot (fc_remainder fc_ret);; rest fc_ret) Q k.
Proof.
  intros D Hc Hn Hdone Hrest. apply (finalise_turn k slot c); [done|done|done|].
  intros fc k1 F1. pose proof F1 as ((D1 & K1 & T1) & Hc1 & R1).
  destruct (not_removable _ _ _ _ (di_caps _ D1) Hc1 R1) as (rm & Erm & Hrm).
  apply wp_bind, (wp_lifted _ rm); [done|]. destruct rm; [apply wp_ret; by apply Hdone|].
  destruct (Hrm eq_refl) as (p & n & type & Eq & Hso & Hnn & Er & Cr & Ep & En & Hzz & Hh). rewrite Er in *.
  apply wp_bind. eapply wp_mono; [apply (set_zombie_inv k1 slot c p n type); [done|done|done|done|lia]|].
  intros [] k2 (D2 & K2 & E2 & P2). apply (Hrest fc k2 p n type); [|done]. split; try done.
  - by eapply keeps_trans.
  - etrans; [by apply trims_prunes|by apply rtc_once].
  - by rewrite E2, lookup_insert_eq.
  - intros o z Ho Hz Hzo. by eapply watched_before.
Qed.


(** Following a zombie over the swap of a turn. *)
Lemma watched_swap m m2 m3 m' e q z c type o : caps_ok m2 → (∀ z, m !! o = Some z → is_zombie z = true → m2 !! o = Some z) →
  m2 !! e = Some z → is_zombie z = true → container z = Some (q, type) → m2 !! q = Some c → q ≠ e →
  m3 = <[q := z]> (<[e := c]> m2) → o ≠ e → (measure m' < measure m)%nat → watched m3 m' o → watched m m' o.
Proof.
  intros C Hb He Hz Ez Hq Hqe -> Hoe Hm Hw y Hy Hyz. pose proof (Hb y Hy Hyz) as Hy2.
  destruct (decide (o = q)) as [->|Hoq].
  - right. assert (Hny : ∀ ty, container y ≠ Some (q, ty)).
    { intros ty Ey. by destruct (co_unique _ C q y e z q ty type Hy2 He Hoe Hyz Ey). }
    destruct (Hw z) as [Hz'|(_ & Hno & _)]; [by rewrite lookup_insert_eq|done| |by destruct (Hno type)].
    split_and!; [by exists z, type|done|done].
  - destruct (Hw y) as [Hy'|(Hh & Hno & _)]; [by rewrite !lookup_insert_ne|done|by left|by right].
Qed.

Lemma finaliseSlot_inner fuel : ∀ k e, del_inv k → is_Some (kcaps k !! e) → (measure (kcaps k) + 2 ≤ fuel)%nat →
  wp (finaliseSlot fuel e false) (λ r k', inner_post k e r k') k.
Proof.
  induction fuel as [|fuel IH]; intros k e D [c Hc] Hfuel; [lia|]. cbn [finaliseSlot].
  pose proof Hc as Hc'. apply caps_inv in Hc' as (s & Hs & Ec). apply wp_bind, (wp_cte_at _ s); [done|]. rewrite Ec.
  destruct (is_null c) eqn:Hn.
  { apply wp_ret. split; try done; [apply keeps_refl|by left|by intros o _ z ? _; left|]. right. exists c, c. auto. }
  apply (slot_turn k e c); [done|done|done|by intros; eapply finalised_done|].
  intros fc k2 q n type [D2 K02 P02 Eq He2 Ep En Hnn _ _ B2] ->. cbn [capCyclicZombie]. rewrite Ep.
  pose proof (prunes_measure _ _ P02 (di_caps _ D)) as M02. set (r := cap_zombie_cap (q + n) type) in *.
  assert (Cr : container r = Some (q, type)) by (cbn; by rewrite Ep).
  cbn [negb andb]. destruct (Z.eqb_spec q e) as [->|Hqe].
  { apply wp_ret. split; try done; [by left|by intros o Ho z Hz Hz'; left; apply B2|by exists r, type|].
    right. exists c, r. split_and!; auto. right. split; [done|congruence]. }
  apply wp_bind. destruct fuel as [|fuel']; [lia|]. cbn [reduceZombie].
  pose proof He2 as He2'. apply caps_inv in He2' as (s2 & Hs2 & Es2). apply wp_bind, (wp_cte_at _ s2); [done|].
  rewrite Es2. unfold r at 1. cbn zeta. rewrite Ep, En. apply wp_bind, wp_assert; [apply Z.ltb_lt; lia|].
  eapply wp_mono; [by apply (swap_inv k2 e r q type)|]. intros st k3 (-> & D3 & K3 & (cq & Hq & E3) & P3 & M3).
  rewrite decide_False by (intros H; by apply H). apply wp_bind.
  eapply wp_mono; [by apply preempt_inv|]. intros st k4 (D4 & K4 & E4 & Hst).
  assert (P04 : prunes (kcaps k) (kcaps k4)) by (rewrite E4; etrans; [exact P02|by apply rtc_once]).
  assert (K03 : keeps k k3) by (by eapply keeps_trans). assert (K04 : keeps k k4) by (by eapply keeps_trans).
  assert (M04 : (measure (kcaps k4) < measure (kcaps k))%nat) by (rewrite E4; lia).
  assert (Hw : ∀ m' o, o ≠ e → (measure m' < measure (kcaps k))%nat → watched (kcaps k4) m' o → watched (kcaps k) m' o).
  { intros m' o Ho Hm. rewrite E4. apply (watched_swap (kcaps k) (kcaps k2) (kcaps k3) m' e q r cq type o); try done; [by apply di_caps|by intros; apply B2]. }
  destruct Hst as [-> |[-> Hp]].
  - rewrite decide_False by (intros H; by apply H). eapply wp_mono; [apply (IH k4 e D4)|].
    + rewrite E4, E3. apply insert_dom. rewrite lookup_insert_eq. eauto.
    + lia.
    + intros rr k' [D' K' P' S' W' H' _]. pose proof (prunes_measure _ _ P' (di_caps _ D4)).
      split; [done|by eapply keeps_trans|by etrans|by apply (status_keeps k k4)| |done|].
      * intros o Ho. apply Hw; [done|lia|by apply W'].
      * left. lia.
  - rewrite decide_True by done. apply wp_ret. split; try done; [|by intros o Ho; apply Hw; [done|lia|by intros z ? _; left]|by left].
    right. split; [done|]. by apply K03.
Qed.

Lemma at_home_insert m o e c : o ≠ e → at_home m o → at_home (<[e := c]> m) o.
Proof. intros Hne (z & type & ? & ? & ?). exists z, type. by rewrite lookup_insert_ne. Qed.

Lemma cteDelete_inner fuel k e c : del_inv k → kcaps k !! e = Some c → (measure (kcaps k) + 3 ≤ fuel)%nat →
  wp (cteDelete fuel e false) (λ st k', del_inv k' ∧ keeps k k' ∧ prunes (kcaps k) (kcaps k') ∧ status_ok k st ∧
    (∀ o, o ≠ e → watched (kcaps k) (kcaps k') o) ∧
    (st = EXCEPTION_NONE →
       kcaps k' !! e = Some cap_null_cap ∧ (is_null c = false → (measure (kcaps k') < measure (kcaps k))%nat) ∨
       at_home (kcaps k') e ∧ progress (kcaps k) (kcaps k') e)) k.
Proof.
  intros D Hc Hfuel. destruct fuel as [|fuel]; [lia|]. cbn [cteDelete]. apply wp_bind.
  eapply wp_mono; [apply finaliseSlot_inner; [done|eauto|lia]|]. intros r k1 [D1 K1 P1 S1 W1 H1 G1].
  destruct S1 as [Est|[Est Hp]]; rewrite Est.
  2:{ rewrite decide_True by done. apply wp_ret. split_and!; try done. by right. }
  rewrite decide_False by (intros H; by apply H). apply wp_bind. destruct (fs_success r) eqn:Es; cbn [orb when].
  2:{ apply wp_ret, wp_ret. split_and!; try done; [by left|]. intros _. right. by auto. }
  assert (Hd : is_Some (kcaps k1 !! e)) by (apply elem_of_dom; rewrite (prunes_dom _ _ P1); apply elem_of_dom; eauto).
  destruct Hd as [c1 Hc1]. pose proof Hc1 as Hc1'. apply caps_inv in Hc1' as (s & Hs & _).
  eapply wp_mono; [by apply (emptySlot_inv k1 e s)|]. intros [] k2 (D2 & K2 & E2). apply wp_ret.
  assert (P2 : prune (kcaps k1) (kcaps k2)) by (rewrite E2; constructor; eauto).
  pose proof (prune_measure _ _ P2 (di_caps _ D1)) as M2. pose proof (prunes_measure _ _ P1 (di_caps _ D)) as M1.
  split_and!; [done|by eapply keeps_trans|etrans; [done|by apply rtc_once]|by left| |].
  - intros o Ho z Hz Hzz. destruct (W1 o Ho z Hz Hzz) as [?|(? & ? & ?)].
    + left. by rewrite E2, lookup_insert_ne.
    + right. split_and!; [rewrite E2; by apply at_home_insert|done|lia].
  - intros _. left. split; [rewrite E2; apply lookup_insert_eq|]. intros Hn.
    destruct (is_null c1) eqn:Hn1; [|pose proof (remove_measure _ _ _ Hc1 Hn1); rewrite E2; lia].
    destruct G1 as [?|(d & d' & Hd & Hd' & [-> |[Hz _]])]; [lia|congruence|].
    assert (d' = c1) as -> by congruence. by destruct c1.
Qed.

(** ** The outer loop *)

(** The slots of a table are among all slots. *)
Lemma table_size m b type : table_ok m b type → (Z.to_nat (entries type) ≤ size m)%nat.
Proof.
  intros T. set (l := (λ i, b + 16 * i) <$> seqZ 0 (entries type)).
  assert (Hl : length l = Z.to_nat (entries type)) by (unfold l; by rewrite length_fmap, length_seqZ).
  rewrite <- Hl, <- size_dom. rewrite <- (size_list_to_set (C := gset Z) l).
  - apply subseteq_size. intros x Hx%elem_of_list_to_set. apply list_elem_of_fmap in Hx as (i & -> & Hi%elem_of_seqZ).
    apply elem_of_dom, T. lia.
  - apply NoDup_fmap_2; [intros x y; lia|apply NoDup_seqZ].
Qed.

(** The last step of [reduceZombie]: the zombie has been moved away or is gone. *)
Lemma shrink_moved k slot p n type e : at_home (kcaps k) slot → p ≠ slot →
  wp (shrink_zombie slot p n type e) (λ st k', st = EXCEPTION_NONE ∧ k' = k) k.
Proof.
  intros (z & ty & Hz & Hzz & Ez) Hp. apply caps_inv in Hz as (s & Hs & Es). unfold shrink_zombie.
  apply wp_bind, (wp_cte_at _ s); [done|]. rewrite Es. destruct z; try done. cbn in Ez. injection Ez as Ep _. cbn zeta. rewrite Ep.
  destruct (Z.eqb_spec p slot); [done|]. cbn [andb]. apply wp_bind, wp_assert; [by rewrite Z.eqb_refl|]. by apply wp_ret.
Qed.

Lemma shrink_null k slot p n type e : kcaps k !! slot = Some cap_null_cap →
  wp (shrink_zombie slot p n type e) (λ st k', st = EXCEPTION_NONE ∧ k' = k) k.
Proof.
  intros (s & Hs & Es)%caps_inv. unfold shrink_zombie. apply wp_bind, (wp_cte_at _ s); [done|]. rewrite Es. by apply wp_ret.
Qed.

Lemma sole_zombie m slot z p type : caps_ok m → m !! slot = Some z → is_zombie z = true → container z = Some (p, type) → sole m slot p.
Proof. intros C Hz Hzz Ez q c ty Hq Hc Ec. by eapply (co_unique _ C slot z q c). Qed.

(** The zombie is still there: it counts down. *)
Lemma shrink_counts k slot p n type e : del_inv k → kcaps k !! slot = Some (cap_zombie_cap (p + n) type) →
  capZombiePtr (p + n) type = p → capZombieNumber (p + n) type = n → 0 < n ≤ entries type →
  kcaps k !! e = Some cap_null_cap →
  wp (shrink_zombie slot p n type e) (λ st k', st = EXCEPTION_NONE ∧ del_inv k' ∧ keeps k k' ∧
    prune (kcaps k) (kcaps k') ∧ kcaps k' !! slot = Some (cap_zombie_cap (p + (n - 1)) type)) k.
Proof.
  intros D Hs Ep En Hn He. pose proof (di_caps _ D) as C.
  assert (Ez : container (cap_zombie_cap (p + n) type) = Some (p, type)) by (cbn; by rewrite Ep).
  pose proof (co_table _ C _ _ _ _ Hs Ez) as T. pose proof (sole_zombie _ _ _ p type C Hs eq_refl Ez) as Hso.
  pose proof Hs as Hs'. apply caps_inv in Hs' as (s & Hs' & Es), He as (se & Hse & Ese). unfold shrink_zombie.
  apply wp_bind, (wp_cte_at _ s); [done|]. rewrite Es. cbn zeta. rewrite Ep, En, !Z.eqb_refl. cbn [andb].
  apply wp_bind, (wp_cte_at _ se); [done|]. apply wp_bind, wp_assert; [by rewrite Ese|].
  destruct (table_sum _ p type n T ltac:(lia)) as (B1 & W1 & _). destruct (table_sum _ p type (n - 1) T ltac:(lia)) as (B2 & W2 & _).
  assert (n < 2 ^ 32) by (pose proof (ta_base _ _ _ T); lia).
  rewrite wrap_same by lia. rewrite (set_number_sum p n (n - 1) type); try apply T; [|done|done|lia|lia].
  apply wp_bind. eapply wp_mono; [apply (set_zombie_inv k slot _ p (n - 1) type D Hs Ez Hso); lia|].
  intros [] k' (D' & K' & E' & P'). apply wp_ret. split_and!; try done. by rewrite E', lookup_insert_eq.
Qed.

(** One turn over the zombie: it has lost a slot, or deletion has made progress
    elsewhere. *)
Lemma reduceZombie_outer fuel k slot p n type : del_inv k → kcaps k !! slot = Some (cap_zombie_cap (p + n) type) →
  capZombiePtr (p + n) type = p → capZombieNumber (p + n) type = n → 0 < n ≤ entries type → (p = slot → 1 < n) →
  (measure (kcaps k) + 4 ≤ fuel)%nat →
  wp (reduceZombie fuel slot true) (λ st k', del_inv k' ∧ keeps k k' ∧ prunes (kcaps k) (kcaps k') ∧ status_ok k st ∧
    (st = EXCEPTION_NONE → (measure (kcaps k') < measure (kcaps k))%nat ∨
       kcaps k' !! slot = Some (cap_zombie_cap (p + (n - 1)) type))) k.
Proof.
  intros D Hs Ep En Hn Hhome Hfuel. destruct fuel as [|fuel]; [lia|]. cbn [reduceZombie]. pose proof (di_caps _ D) as C.
  assert (Ez : container (cap_zombie_cap (p + n) type) = Some (p, type)) by (cbn; by rewrite Ep).
  pose proof (co_table _ C _ _ _ _ Hs Ez) as T. destruct (table_slot _ p type (n - 1) T ltac:(lia)) as [Ee [ce He]].
  pose proof Hs as Hs'. apply caps_inv in Hs' as (s & Hs' & Es). apply wp_bind, (wp_cte_at _ s); [done|].
  rewrite Es. cbn zeta. rewrite Ep, En. apply wp_bind, wp_assert; [apply Z.ltb_lt; lia|]. set (e := cte_index p (n - 1)) in *.
  apply wp_bind. eapply wp_mono; [by apply (cteDelete_inner fuel k e ce D He); lia|].
  intros st k1 (D1 & K1 & P1 & S1 & W1 & H1). pose proof (di_caps _ D1) as C1.
  destruct S1 as [-> |[-> Hp]]; [|rewrite decide_True by done; apply wp_ret; split_and!; try done; by right].
  rewrite decide_False by (intros H; by apply H). specialize (H1 eq_refl).
  assert (Hout : ∀ r, (measure (kcaps k1) < measure (kcaps k))%nat → wp r (λ st k', st = EXCEPTION_NONE ∧ k' = k1) k1 →
    wp r (λ st k', del_inv k' ∧ keeps k k' ∧ prunes (kcaps k) (kcaps k') ∧ status_ok k st ∧
      (st = EXCEPTION_NONE → (measure (kcaps k') < measure (kcaps k))%nat ∨
         kcaps k' !! slot = Some (cap_zombie_cap (p + (n - 1)) type))) k1).
  { intros r Hm Hr. eapply wp_mono; [exact Hr|]. intros st k' [-> ->]. split_and!; try done; [by left|]. by left. }
  destruct (decide (slot = e)) as [->|Hse].
  - destruct H1 as [[Hnull Hm]|[Hat Hpr]]; [by apply Hout; [apply (Hm ltac:(simplify_eq; done))|apply shrink_null]|].
    assert (Hpe : p ≠ e) by (intros E; pose proof (Hhome E); lia). apply Hout; [|by apply shrink_moved].
    destruct Hpr as [?|(c & c' & Hc & Hc' & Hcc)]; [done|]. destruct Hat as (z & ty & Hz & _ & Ezz). simplify_eq.
    destruct Hcc as [-> |[_ Ecc]]; exfalso; apply Hpe; congruence.
  - destruct (W1 slot Hse _ Hs eq_refl) as [Hsame|(Hat & Hno & Hm)].
    2:{ apply Hout; [done|]. apply shrink_moved; [done|]. intros ->. by apply (Hno type). }
    destruct H1 as [[Hnull _]|[(z & ty & Hz & Hzz & Ezz) _]].
    + eapply wp_mono; [by apply (shrink_counts k1 slot p n type e)|]. intros st k2 (-> & D2 & K2 & P2 & E2).
      split_and!; [done|by eapply keeps_trans|etrans; [done|by apply rtc_once]|by left|by right].
    + exfalso. destruct (co_apart _ C1 slot _ e z p type e ty (n - 1) Hsame Hz Ez Ezz ltac:(lia) Ee) as [E ->].
      apply (co_unique _ C1 slot _ e z p type type Hsame Hz Hse eq_refl Ez). by rewrite Ezz, E.
Qed.

(** How long the loop can go on. *)
Definition left_over (m : gmap Z cap_t) (c : cap_t) : nat :=
  match c with cap_zombie_cap id type => Z.to_nat (capZombieNumber id type) | _ => S (size m) end.
Definition outer_fuel (m : gmap Z cap_t) (c : cap_t) : nat :=
  (measure m * (size m + 2) + left_over m c + 2 * size m + 6)%nat.

Lemma left_over_le m slot c : caps_ok m → m !! slot = Some c → (left_over m c ≤ S (size m))%nat.
Proof.
  intros C Hc. destruct c; cbn; try lia. destruct (zombie_id m slot _ _ C Hc) as [_ Hn].
  pose proof (table_size _ _ _ (co_table _ C _ _ _ _ Hc eq_refl)). lia.
Qed.

Lemma outer_fuel_less m slot c m' c' n : caps_ok m → m !! slot = Some c → caps_ok m' → m' !! slot = Some c' → size m' = size m →
  (measure m' ≤ measure m)%nat → (n ≤ left_over m c)%nat →
  (measure m' < measure m)%nat ∨ (left_over m' c' < n)%nat → (outer_fuel m' c' < outer_fuel m c)%nat.
Proof.
  intros C Hc C' Hc' Es Hm Hn Hless. pose proof (left_over_le m' slot c' C' Hc') as Hl. unfold outer_fuel. rewrite Es in *.
  destruct Hless as [Hless|Hless]; nia.
Qed.

Record outer_post (k : ks) (slot : Z) (r : finaliseSlot_ret_t) (k' : ks) : Prop := {
  op_inv : del_inv k';
  op_keeps : keeps k k';
  op_prunes : prunes (kcaps k) (kcaps k');
  op_status : status_ok k (fs_status r);
  op_progress : fs_status r = EXCEPTION_NONE → ∀ c c', kcaps k !! slot = Some c → kcaps k' !! slot = Some c' →
    is_null c = false → is_null c' = true → (measure (kcaps k') < measure (kcaps k))%nat
}.

Lemma prunes_size m m' : prunes m m' → size m' = size m.
Proof. intros P. by rewrite <- !size_dom, (prunes_dom m m' P). Qed.

Lemma prunes_some m m' p : prunes m m' → is_Some (m !! p) → is_Some (m' !! p).
Proof. intros P Hp. apply elem_of_dom. rewrite (prunes_dom m m' P). by apply elem_of_dom. Qed.

(** The state at the end of a turn, from which the loop goes on or which it
    leaves to an interrupt. *)
Lemma outer_post_later k k1 slot r k' : del_inv k → keeps k k1 → prunes (kcaps k) (kcaps k1) →
  (measure (kcaps k1) < measure (kcaps k))%nat ∨ (∃ z, kcaps k1 !! slot = Some z ∧ is_zombie z = true) →
  del_inv k1 → outer_post k1 slot r k' → outer_post k slot r k'.
Proof.
  intros D K1 P1 Hpr D1 [D' K' P' S' G']. pose proof (prunes_measure _ _ P1 (di_caps _ D)).
  pose proof (prunes_measure _ _ P' (di_caps _ D1)).
  split; [done|by eapply keeps_trans|by etrans|by apply (status_keeps k k1)|].
  intros Est c c' Hc Hc' Hn Hn'. destruct Hpr as [?|(z & Hz & Hzz)]; [lia|].
  pose proof (G' Est z c' Hz Hc' ltac:(by destruct z) Hn'). lia.
Qed.

Lemma finaliseSlot_outer fuel : ∀ k slot c, del_inv k → kcaps k !! slot = Some c → (outer_fuel (kcaps k) c ≤ fuel)%nat →
  wp (finaliseSlot fuel slot true) (λ r k', outer_post k slot r k') k.
Proof.
  induction fuel as [|fuel IH]; intros k slot c D Hc Hfuel; [unfold outer_fuel in Hfuel; lia|]. cbn [finaliseSlot].
  pose proof Hc as Hc'. apply caps_inv in Hc' as (s & Hs & Ec). apply wp_bind, (wp_cte_at _ s); [done|]. rewrite Ec.
  destruct (is_null c) eqn:Hn.
  { apply wp_ret. split; try done; [apply keeps_refl|by left|]. intros _ d d' Hd. simplify_eq. congruence. }
  apply (slot_turn k slot c); [done|done|done| |].
  { intros fc k1 ((D1 & K1 & T1) & Hc1 & _). split; try done; [by apply trims_prunes|by left|].
    intros _ d d' Hd Hd' ? ?. congruence. }
  intros fc k2 p n type [D2 K02 P02 Ep Hs2 Eptr En Hnn Hhome Hzz _] _. cbn [negb andb].
  pose proof (prunes_measure _ _ P02 (di_caps _ D)) as M02. pose proof (measure_size (kcaps k)) as Msz.
  apply wp_bind. eapply wp_mono; [apply (reduceZombie_outer fuel k2 slot p n type); try done; unfold outer_fuel in Hfuel; nia|].
  intros st k3 (D3 & K3 & P3 & S3 & G3).
  assert (K03 : keeps k k3) by (by eapply keeps_trans). assert (P03 : prunes (kcaps k) (kcaps k3)) by (by etrans).
  destruct S3 as [-> |[-> Hp]].
  2:{ rewrite decide_True by done. apply wp_ret. split; try done. right. split; [done|by apply K02]. }
  rewrite decide_False by (intros H; by apply H). specialize (G3 eq_refl). apply wp_bind.
  eapply wp_mono; [by apply preempt_inv|]. intros st k4 (D4 & K4 & E4 & Hst).
  assert (K04 : keeps k k4) by (by eapply keeps_trans). assert (P04 : prunes (kcaps k) (kcaps k4)) by (by rewrite E4).
  destruct Hst as [-> |[-> Hp]].
  2:{ rewrite decide_True by done. apply wp_ret. split; try done. right. split; [done|by apply K03]. }
  rewrite decide_False by (intros H; by apply H).
  destruct (prunes_some _ _ slot P04 ltac:(eauto)) as [c4 Hc4]. pose proof (prunes_measure _ _ P3 (di_caps _ D2)) as M23.
  assert (Hless : (outer_fuel (kcaps k4) c4 < outer_fuel (kcaps k) c)%nat).
  { apply (outer_fuel_less (kcaps k) slot c (kcaps k4) c4 (Z.to_nat n)); try done; [by apply di_caps|by apply di_caps| | | |].
    - by rewrite (prunes_size _ _ P04).
    - rewrite E4. lia.
    - destruct (is_zombie c) eqn:Ezc; [rewrite <- (Hzz eq_refl); cbn; rewrite En; lia|].
      pose proof (table_size _ _ _ (co_table _ (di_caps _ D) _ _ _ _ Hc Ep)). destruct c; try done; cbn; lia.
    - rewrite E4 in Hc4 |- *. destruct G3 as [?|G3]; [left; lia|right]. simplify_eq. cbn.
      destruct (table_sum _ p type (n - 1) (co_table _ (di_caps _ D) _ _ _ _ Hc Ep) ltac:(lia)) as (_ & _ & _ & ->). lia. }
  eapply wp_mono; [apply (IH k4 slot c4 D4 Hc4); lia|]. intros r k' O'.
  apply (outer_post_later k k4); try done. rewrite E4. destruct G3 as [?|G3]; [left; lia|right]. eauto.
Qed.

(** ** Deleting a capability *)

Lemma delete_fuel_enough k slot c : caps_ok (kcaps k) → kcaps k !! slot = Some c →
  (outer_fuel (kcaps k) c + 1 ≤ delete_fuel k)%nat.
Proof.
  intros C Hc. pose proof (left_over_le _ _ _ C Hc). pose proof (measure_size (kcaps k)).
  unfold outer_fuel, delete_fuel. unfold caps in *. rewrite map_size_fmap in *. nia.
Qed.

Lemma delete_slot_spec k slot c : del_inv k → kcaps k !! slot = Some c →
  wp (delete_slot slot) (λ st k', del_inv k' ∧ keeps k k' ∧ prunes (kcaps k) (kcaps k') ∧ status_ok k st ∧
    (st = EXCEPTION_NONE → kcaps k' !! slot = Some cap_null_cap ∧
       (is_null c = false → (measure (kcaps k') < measure (kcaps k))%nat))) k.
Proof.
  intros D Hc. pose proof (delete_fuel_enough k slot c (di_caps _ D) Hc) as Hf. unfold delete_slot.
  apply wp_bind, wp_gets. destruct (delete_fuel k) as [|fuel]; [lia|]. cbn [cteDelete]. apply wp_bind.
  eapply wp_mono; [apply (finaliseSlot_outer fuel k slot c D Hc); lia|]. intros r k1 [D1 K1 P1 S1 G1].
  destruct S1 as [Est|[Est Hp]]; rewrite Est.
  2:{ rewrite decide_True by done. apply wp_ret. split_and!; try done. by right. }
  rewrite decide_False by (intros H; by apply H). cbn [orb when]. apply wp_bind.
  destruct (prunes_some _ _ slot P1 ltac:(eauto)) as [c1 Hc1]. pose proof Hc1 as Hc1'. apply caps_inv in Hc1' as (s & Hs & _).
  eapply wp_mono; [by apply (emptySlot_inv k1 slot s)|]. intros [] k2 (D2 & K2 & E2). apply wp_ret.
  assert (P2 : prune (kcaps k1) (kcaps k2)) by (rewrite E2; constructor; eauto).
  pose proof (prune_measure _ _ P2 (di_caps _ D1)). pose proof (prunes_measure _ _ P1 (di_caps _ D)).
  split_and!; [done|by eapply keeps_trans|etrans; [done|by apply rtc_once]|by left|].
  intros _. split; [rewrite E2; apply lookup_insert_eq|]. intros Hn. destruct (is_null c1) eqn:Hn1.
  - pose proof (G1 Est c c1 Hc Hc1 Hn Hn1). lia.
  - pose proof (remove_measure _ _ _ Hc1 Hn1). rewrite E2. lia.
Qed.

(** ** Revoking *)

Definition size_ok (c : cap_t) : Prop :=
  match c with
  | cap_frame_cap size _ _ _ _ _ _ => size = X86_SmallPage ∨ size = X86_LargePage
  | _ => True
  end.

Lemma live_size k c : cap_live k c → size_ok c.
Proof. destruct c; try done. by intros [? _]. Qed.

Lemma pageBits_total size : size = X86_SmallPage ∨ size = X86_LargePage → ∃ b, pageBitsForSize size = Done b.
Proof. intros [-> | ->]; eexists; reflexivity. Qed.

Lemma sizeBits_total c : is_null c = false → size_ok c → ∃ b, cap_get_capSizeBits c = Done b.
Proof. destruct c; try done; intros _ H; try (eexists; reflexivity); [cbn; by case_match; eexists|by apply pageBits_total]. Qed.

Lemma sameRegionAs_total a b : is_null b = false → size_ok a → size_ok b → ∃ r, sameRegionAs a b = Done r.
Proof.
  intros Hn Ha Hb. destruct a; try (eexists; reflexivity); try (destruct b; eexists; reflexivity).
  - destruct (sizeBits_total b Hn Hb) as [bits Eb]. unfold sameRegionAs.
    assert (∃ p, cap_get_capIsPhysical b = Done p) as [p ->] by (destruct b; try done; eexists; reflexivity).
    assert (∃ p, cap_get_capPtr b = Done p) as [q Eq] by (destruct b; try done; eexists; reflexivity).
    cbn. destruct p; [|by eexists]. rewrite Eq. cbn. rewrite Eb. by eexists.
  - destruct b; try (eexists; reflexivity). cbn in *. destruct (pageBits_total _ Ha) as [? ->], (pageBits_total _ Hb) as [? ->].
    by eexists.
Qed.

Lemma isMDBParentOf_total a b : is_null (cte_cap b) = false → size_ok (cte_cap a) → size_ok (cte_cap b) →
  ∃ r, isMDBParentOf a b = Done r.
Proof.
  intros Hn Ha Hb. unfold isMDBParentOf. destruct (mdbRevocable (cteMDBNode a)); [|by eexists].
  destruct (sameRegionAs_total _ _ Hn Ha Hb) as [r Er]. rewrite Er. cbn. destruct r; [|by eexists].
  destruct (cte_cap a); try (by eexists); destruct (cte_cap b); try done;
    (match goal with |- context [?x =? 0] => destruct (x =? 0) end); eexists; reflexivity.
Qed.

(** The next slot of the derivation list, if there is one, can be compared. *)
Lemma next_parent k slot s : del_inv k → ctes k !! slot = Some s → mdbNext (cteMDBNode s) ≠ 0 →
  ∃ n b, ctes k !! mdbNext (cteMDBNode s) = Some n ∧ is_null (cte_cap n) = false ∧ isMDBParentOf s n = Done b.
Proof.
  intros [[cs S] _ L] Hs Hz. destruct (mdb_next _ _ (sl_mdb _ _ S) _ _ Hs Hz) as (n & Hn & _ & Hnn & _ & _).
  pose proof (λ p x Hx, live_size _ _ (cl_live _ L p _ (caps_lookup _ _ x Hx))) as Hsz.
  destruct (isMDBParentOf_total s n Hnn (Hsz _ _ Hs) (Hsz _ _ Hn)) as [b Hb]. by exists n, b.
Qed.

(** Nothing in the derivation list is derived from the slot. *)
Definition no_children (k : ks) (slot : Z) : Prop := wp (ensureNoChildren slot) (λ r k', r = EXCEPTION_NONE ∧ k' = k) k.

Lemma revoke_children_spec fuel : ∀ k slot, del_inv k → is_Some (kcaps k !! slot) → (measure (kcaps k) < fuel)%nat →
  wp (revoke_children fuel slot) (λ st k', del_inv k' ∧ keeps k k' ∧ prunes (kcaps k) (kcaps k') ∧ status_ok k st ∧
    (st = EXCEPTION_NONE → no_children k' slot)) k.
Proof.
  induction fuel as [|fuel IH]; intros k slot D [c Hc] Hfuel; [lia|]. cbn [revoke_children].
  pose proof Hc as Hc'. apply caps_inv in Hc' as (s & Hs & _). apply wp_bind, (wp_cte_at _ s); [done|]. cbn zeta.
  assert (Hdone : no_children k slot → wp (mret EXCEPTION_NONE) (λ st k', del_inv k' ∧ keeps k k' ∧ prunes (kcaps k) (kcaps k') ∧
    status_ok k st ∧ (st = EXCEPTION_NONE → no_children k' slot)) k).
  { intros Hno. apply wp_ret. split_and!; try done; [apply keeps_refl|by left]. }
  destruct (Z.eqb_spec (mdbNext (cteMDBNode s)) 0) as [Ez|Hz].
  { apply Hdone. unfold no_children, ensureNoChildren. apply wp_bind, (wp_cte_at _ s); [done|]. by rewrite Ez. }
  destruct (next_parent k slot s D Hs Hz) as (n & b & Hn & Hnn & Hb). apply wp_bind, (wp_cte_at _ n); [done|].
  apply wp_bind, (wp_lifted _ b); [done|]. destruct b.
  2:{ apply Hdone. unfold no_children, ensureNoChildren. apply wp_bind, (wp_cte_at _ s); [done|].
      destruct (Z.eqb_spec (mdbNext (cteMDBNode s)) 0); [done|]. cbn [negb]. apply wp_bind, (wp_cte_at _ n); [done|].
      by apply wp_bind, (wp_lifted _ false). }
  apply wp_bind. eapply wp_mono; [by apply (delete_slot_spec k _ (cte_cap n)); [|apply caps_lookup]|].
  intros st k1 (D1 & K1 & P1 & S1 & G1). destruct S1 as [-> |[-> Hp]].
  2:{ rewrite decide_True by done. apply wp_ret. split_and!; try done. by right. }
  rewrite decide_False by (intros H; by apply H). destruct (G1 eq_refl) as [_ M1]. specialize (M1 Hnn).
  apply wp_bind. eapply wp_mono; [by apply preempt_inv|]. intros st k2 (D2 & K2 & E2 & Hst).
  assert (K02 : keeps k k2) by (by eapply keeps_trans). assert (P02 : prunes (kcaps k) (kcaps k2)) by (by rewrite E2).
  destruct Hst as [-> |[-> Hp]].
  2:{ rewrite decide_True by done. apply wp_ret. split_and!; try done. right. split; [done|by apply K1]. }
  rewrite decide_False by (intros H; by apply H).
  eapply wp_mono; [apply (IH k2 slot D2); [by apply (prunes_some (kcaps k)); eauto|rewrite E2; lia]|].
  intros st k' (D' & K' & P' & S' & G'). split_and!; [done|by eapply keeps_trans|by etrans|by apply (status_keeps k k2)|done].
Qed.

(** C2: deleting a capability ends, whatever tables of slots, threads and
    interrupt handlers hang on it, nested in each other or containing the slot
    itself: no assertion of the code fails and [delete_fuel] is enough.  It comes
    back done, with the slot empty, or preempted by a pending interrupt, in a
    state from which it can be repeated.  The derivation list, the tables, the
    waiting queues and the scheduler stay consistent, and no capability is made
    that was not there before, but for the zombies of tables. *)
Theorem cteDelete_deletes k slot s : del_inv k → ctes k !! slot = Some s →
  wp (invokeCNodeDelete slot) (λ st k', del_inv k' ∧ prunes (kcaps k) (kcaps k') ∧
    (∀ p c, kcaps k' !! p = Some c → comes_from (kcaps k) c) ∧
    (st = EXCEPTION_NONE ∧ kcaps k' !! slot = Some cap_null_cap ∨
     st = EXCEPTION_PREEMPTED ∧ true ∈ irq_pending k)) k.
Proof.
  intros D Hs. eapply wp_mono; [by apply (delete_slot_spec k slot (cte_cap s)); [|apply caps_lookup]|].
  intros st k' (D' & _ & P' & S' & G'). split_and!; try done.
  - by apply (prunes_origin (kcaps k)), di_caps.
  - destruct S' as [-> |?]; [|by right]. left. split; [done|]. by apply G'.
Qed.

(** C3: revoking a capability ends.  It comes back done, and then nothing in the
    derivation list is derived from the slot, as [ensureNoChildren] will answer
    (so that untyped memory can be used anew), or preempted by a pending
    interrupt.  Every intermediate state keeps the invariant of deletion, and no
    capability is made that was not there before, but for the zombies of
    tables. *)
Theorem cteRevoke_revokes k slot s : del_inv k → ctes k !! slot = Some s →
  wp (invokeCNodeRevoke slot) (λ st k', del_inv k' ∧ prunes (kcaps k) (kcaps k') ∧
    (∀ p c, kcaps k' !! p = Some c → comes_from (kcaps k) c) ∧
    (st = EXCEPTION_NONE ∧ wp (ensureNoChildren slot) (λ r k2, r = EXCEPTION_NONE ∧ k2 = k') k' ∨
     st = EXCEPTION_PREEMPTED ∧ true ∈ irq_pending k)) k.
Proof.
  intros D Hs. unfold invokeCNodeRevoke, cteRevoke. apply wp_bind, wp_gets.
  eapply wp_mono; [apply (revoke_children_spec _ k slot D)|].
  - rewrite (caps_lookup _ _ _ Hs). eauto.
  - pose proof (measure_size (kcaps k)) as Hm. unfold caps in Hm at 2. rewrite map_size_fmap in Hm. lia.
  - intros st k' (D' & _ & P' & S' & G'). split_and!; try done.
    + by apply (prunes_origin (kcaps k)), di_caps.
    + destruct S' as [-> |?]; [|by right]. left. split; [done|]. by apply G'.
Qed.

(** ** A small system: untyped memory, a CNode made from it that holds the last
    capability to a second CNode and one of two endpoint capabilities; the second
    CNode holds the other and a frame that is mapped *)

Definition nest_list : list (Z * cte_t) := [
  (16, demo_empty);
  (2048, mk_cte (cap_untyped_cap 4 false 12 8192) (mdb_node_new 4096 true true 0));
  (4096, mk_cte (cap_cnode_cap 1 0 0 8192) (mdb_node_new 8192 false false 2048));
  (8192, mk_cte (cap_cnode_cap 1 0 0 8224) (mdb_node_new 0 false false 4096));
  (8208, mk_cte (cap_endpoint_cap 0 true true true 700) (mdb_node_new 8224 true true 0));
  (8224, mk_cte (cap_endpoint_cap 5 true true true 700) (mdb_node_new 0 true true 8208));
  (8240, mk_cte (cap_frame_cap X86_SmallPage 1 4096 X86_MappingVSpace false VMReadWrite 65536) (mdb_node_new 0 true true 0))].
Definition nest_slots : gmap Z cte_t := list_to_map nest_list.
Definition nest_chains : list (list Z) := [[2048; 4096; 8192]; [8208; 8224]; [8240]].
Definition nest_ks : ks := demo_ks <| ctes := nest_slots |>.

Lemma nest_cases (P : Z → cte_t → Prop) : Forall (λ x, P x.1 x.2) nest_list → ∀ p s, nest_slots !! p = Some s → P p s.
Proof. intros H p s Hp%elem_of_list_to_map_2. rewrite Forall_forall in H. by apply (H (p, s)). Qed.

Ltac each_slot := unfold nest_list; repeat (apply Forall_cons_2; [cbn [fst snd cte_cap cteMDBNode]|]); try apply Forall_nil_2.

Lemma nest_containers p c b type : caps nest_slots !! p = Some c → container c = Some (b, type) →
  is_zombie c = false ∧ type = 1 ∧ (p = 4096 ∧ b = 8192 ∨ p = 8192 ∧ b = 8224).
Proof.
  intros (s & Hs & <-)%caps_inv. revert p s Hs b type.
  apply (nest_cases (λ p s, ∀ b type, container (cte_cap s) = Some (b, type) →
    is_zombie (cte_cap s) = false ∧ type = 1 ∧ (p = 4096 ∧ b = 8192 ∨ p = 8192 ∧ b = 8224))).
  each_slot; intros b type E; try done; injection E as <- <-; split_and!; try done; auto.
Qed.

Lemma nest_mdb : mdb_ok nest_slots nest_chains.
Proof.
  split.
  - intros l [->|[->|[->|[]%elem_of_nil]%elem_of_cons]%elem_of_cons]%elem_of_cons; cbn;
      repeat (split; [done|]; split; [eexists; split; [vm_compute; reflexivity|done]|]); done.
  - cbn. repeat (apply NoDup_cons; split; [set_solver|]). apply NoDup_nil_2.
  - apply (nest_cases (λ p s, p ∈ concat nest_chains ↔ is_null (cte_cap s) = false)).
    each_slot; cbn; split; try done; set_solver.
  - apply (nest_cases (λ p s, is_null (cte_cap s) = true → cteMDBNode s = nullMDBNode)). by each_slot.
  - done.
Qed.

Lemma nest_objects p q : p ≠ q → same_object nest_slots p q → p = 8208 ∧ q = 8224 ∨ p = 8224 ∧ q = 8208.
Proof.
  intros Hne (sp & sq & Hp & Hq & E). revert p sp Hp q sq Hq Hne E.
  apply (nest_cases (λ p sp, ∀ q sq, nest_slots !! q = Some sq → p ≠ q → sameObjectAs (cte_cap sp) (cte_cap sq) = Done true →
    p = 8208 ∧ q = 8224 ∨ p = 8224 ∧ q = 8208)).
  each_slot; match goal with |- ∀ q sq, _ → ?p ≠ q → sameObjectAs ?a _ = _ → _ =>
    apply (nest_cases (λ q sq, p ≠ q → sameObjectAs a (cte_cap sq) = Done true → p = 8208 ∧ q = 8224 ∨ p = 8224 ∧ q = 8208)) end;
    each_slot; intros; try done; auto.
Qed.

Lemma nest_table b : b = 8192 ∨ b = 8224 → table_ok (caps nest_slots) b 1.
Proof.
  intros Hb. split.
  - right. lia.
  - lia.
  - destruct Hb as [-> | ->]; [by exists 2048|by exists 2056].
  - change (entries 1) with 2. lia.
  - intros i Hi. change (entries 1) with 2 in Hi. assert (i = 0 ∨ i = 1) as [-> | ->] by lia;
      destruct Hb as [-> | ->]; vm_compute; eauto.
Qed.

Lemma nest_caps : caps_ok (caps nest_slots).
Proof.
  split.
  - intros p c b type Hp Hc. destruct (nest_containers p c b type Hp Hc) as (_ & -> & [[_ ?]|[_ ?]]); apply nest_table; auto.
  - intros p c q c' b type b' type' i Hp Hq Hc Hc' Hi E.
    destruct (nest_containers p c b type Hp Hc) as (_ & -> & H1), (nest_containers q c' b' type' Hq Hc') as (_ & -> & H2).
    change (entries 1) with 2 in Hi. split; [lia|done].
  - intros p id type Hp. by destruct (nest_containers p _ _ _ Hp eq_refl) as [? _].
  - intros p c q c' b type type' Hp Hq Hne Hz Hc. destruct (nest_containers p c b type Hp Hc) as (? & _). congruence.
  - intros p t Hp. by destruct (nest_containers p _ _ _ Hp eq_refl) as (_ & ? & _).
  - intros p radix gs g b Hp. destruct (nest_containers p _ _ _ Hp eq_refl) as (_ & -> & _). lia.
Qed.

Lemma nest_slots_ok : slots_ok nest_slots nest_chains.
Proof.
  split; [exact nest_mdb| | |exact nest_caps].
  - intros p q Hne Hs. exists [], [], [].
    split; [|set_solver]. destruct (nest_objects p q Hne Hs) as [[-> ->]|[-> ->]]; [left|right]; cbn; set_solver.
  - assert (Hr : ∀ p c, caps nest_slots !! p = Some c → is_reply c = false).
    { intros p c (s & Hs & <-)%caps_inv. revert p s Hs. apply (nest_cases (λ _ s, is_reply (cte_cap s) = false)). by each_slot. }
    intros l p q cp cq _ _ _ Hp Hq. by rewrite (Hr p cp Hp), (Hr q cq Hq).
Qed.

Lemma nest_inv : del_inv nest_ks.
Proof.
  split.
  - exists nest_chains. exact nest_slots_ok.
  - split.
    + apply (sched_same_inv None demo_ks); [done|exact demo_inv].
    + by left.
    + exists demo_wq. apply (ipc_ok_same [] demo_ks); [done|done|done|exact demo_ipc].
    + exact demo_bound_ok.
  - split.
    + intros p c (s & Hs & <-)%caps_inv. revert p s Hs. apply (nest_cases (λ _ s, cap_live nest_ks (cte_cap s))).
      each_slot; cbn; try done; try (eexists; reflexivity). split_and!; auto; lia.
    + intros p irq (s & Hs & E)%caps_inv. exfalso. revert p s Hs E.
      apply (nest_cases (λ _ s, cte_cap s = cap_irq_handler_cap irq → False)). by each_slot.
    + intros t c Hc Hs. exfalso. revert t c Hc Hs.
      apply (demo_cases (λ _ c, tsType c = ThreadState_BlockedOnReply → False)); done.
    + vm_compute. eauto.
    + done.
Qed.

Lemma cteDelete_deletes_witness :
  wp (invokeCNodeDelete 4096) (λ st k', del_inv k' ∧ prunes (kcaps nest_ks) (kcaps k') ∧
    (∀ p c, kcaps k' !! p = Some c → comes_from (kcaps nest_ks) c) ∧
    (st = EXCEPTION_NONE ∧ kcaps k' !! 4096 = Some cap_null_cap ∨
     st = EXCEPTION_PREEMPTED ∧ true ∈ irq_pending nest_ks)) nest_ks.
Proof. exact (cteDelete_deletes nest_ks 4096 _ nest_inv eq_refl). Defined.

Lemma cteRevoke_revokes_witness :
  wp (invokeCNodeRevoke 2048) (λ st k', del_inv k' ∧ prunes (kcaps nest_ks) (kcaps k') ∧
    (∀ p c, kcaps k' !! p = Some c → comes_from (kcaps nest_ks) c) ∧
    (st = EXCEPTION_NONE ∧ wp (ensureNoChildren 2048) (λ r k2, r = EXCEPTION_NONE ∧ k2 = k') k' ∨
     st = EXCEPTION_PREEMPTED ∧ true ∈ irq_pending nest_ks)) nest_ks.
Proof. exact (cteRevoke_revokes nest_ks 2048 _ nest_inv eq_refl). Defined.

(** The deleted table leaves the zombie of the inner one in its own first slot;
    revoking the memory takes that one too. *)
Example nest_runs :
  (∃ k', invokeCNodeDelete 4096 nest_ks = (Done EXCEPTION_NONE, k') ∧ kcaps k' !! 8224 = Some (cap_zombie_cap 8226 1)) ∧
  (∃ k', invokeCNodeRevoke 2048 nest_ks = (Done EXCEPTION_NONE, k') ∧ kcaps k' !! 8224 = Some cap_null_cap).
Proof. split; eexists; (split; [vm_compute; reflexivity|vm_compute; reflexivity]). Qed.
