(* ===== verification/Decode.v ===== *)
(** Decoding the invocations of CNode capabilities ([decodeCNodeInvocation] of
    [object/cnode.c]): the arguments of a message are checked, the slots looked
    up, and the operation carried out.  [io] are the IO domains of the hardware,
    which only capability data for IO spaces looks at. *)

From stdpp Require Import functions.
From S2P Require Import Prelude Messages Caps Kernel CSpace CNode Scheduler Wakeup Paging VSpace IOSpace Ipc Waiting Signals.
From S2P Require Import Cancel Transfer Endpoint Reply Retype Reset Creation Deletion Finalise Revoke.

(** [enum invocation_label] *)
Definition CNodeRevoke : Z := 14.
Definition CNodeDelete : Z := 15.
Definition CNodeCancelBadgedSends : Z := 16.
Definition CNodeCopy : Z := 17.
Definition CNodeMint : Z := 18.
Definition CNodeMove : Z := 19.
Definition CNodeMutate : Z := 20.
Definition CNodeRotate : Z := 21.
Definition CNodeSaveCaller : Z := 22.

(** [setThreadState(NODE_STATE(ksCurThread), ThreadState_Restart)] *)
Definition restart_current : K unit := t ← cur; setThreadState t ThreadState_Restart.

(** A slot that must hold a capability does not. *)
Definition missing_source (was_source : bool) (depth : Z) : K exception_t :=
  set_error (λ e, e <| error_type := seL4_FailedLookup |> <| failedLookupWasSource := was_source |>);;
  set_lookup_fault (lookup_fault_missing_capability depth);;
  mret EXCEPTION_SYSCALL_ERROR.

(** The [switch] of copy, mint, move and mutate: the new capability and whether
    it is moved, or the status to return. *)
Definition new_capability (io : io_domains) (invLabel length srcSlot buffer : Z) : K (exception_t + cap_t * bool) :=
  if invLabel =? CNodeCopy then
    if length <? 5 then st ← simple_error seL4_TruncatedMessage; mret (inl st)
    else
      cap_rights ← getSyscallArg 4 buffer;
      s ← cte_at srcSlot;
      dc_ret ← deriveCap srcSlot (maskCapRights cap_rights (cte_cap s));
      if decide (dc_status dc_ret ≠ EXCEPTION_NONE) then mret (inl (dc_status dc_ret))
      else mret (inr (dc_cap dc_ret, false))
  else if invLabel =? CNodeMint then
    if length <? 6 then st ← simple_error seL4_TruncatedMessage; mret (inl st)
    else
      cap_rights ← getSyscallArg 4 buffer;
      capData ← getSyscallArg 5 buffer;
      s ← cte_at srcSlot;
      c ← lift (updateCapData io false capData (maskCapRights cap_rights (cte_cap s)));
      dc_ret ← deriveCap srcSlot c;
      if decide (dc_status dc_ret ≠ EXCEPTION_NONE) then mret (inl (dc_status dc_ret))
      else mret (inr (dc_cap dc_ret, false))
  else if invLabel =? CNodeMove then
    s ← cte_at srcSlot;
    mret (inr (cte_cap s, true))
  else if invLabel =? CNodeMutate then
    if length <? 5 then st ← simple_error seL4_TruncatedMessage; mret (inl st)
    else
      capData ← getSyscallArg 4 buffer;
      s ← cte_at srcSlot;
      c ← lift (updateCapData io true capData (cte_cap s));
      mret (inr (c, true))
  else halt_with AssertFailed.

(** [CNodeCopy] to [CNodeMutate], once the target slot is known. *)
Definition decode_insert (io : io_domains) (invLabel length : Z) (excaps : list Z) (buffer destSlot : Z) : K exception_t :=
  let rootSlot := default 0 (excaps !! 0%nat) in
  if (length <? 4) || (rootSlot =? 0) then simple_error seL4_TruncatedMessage
  else
    srcIndex ← getSyscallArg 2 buffer;
    srcDepth ← getSyscallArg 3 buffer;
    root ← cte_at rootSlot;
    status ← ensureEmptySlot destSlot;
    if decide (status ≠ EXCEPTION_NONE) then mret status
    else
      lu_ret ← lookupSourceSlot (cte_cap root) srcIndex srcDepth;
      if decide (slot_status lu_ret ≠ EXCEPTION_NONE) then mret (slot_status lu_ret)
      else
        let srcSlot := slot_slot lu_ret in
        s ← cte_at srcSlot;
        if is_null (cte_cap s) then missing_source true srcDepth
        else
          r ← new_capability io invLabel length srcSlot buffer;
          match r with
          | inl status => mret status
          | inr (newCap, isMove) =>
            if is_null newCap then simple_error seL4_IllegalOperation
            else
              restart_current;;
              if isMove : bool then invokeCNodeMove newCap srcSlot destSlot
              else invokeCNodeInsert newCap srcSlot destSlot
          end.

(** [CNodeRotate] *)
Definition decode_rotate (io : io_domains) (length : Z) (excaps : list Z) (buffer destSlot : Z) : K exception_t :=
  let pivotRootSlot := default 0 (excaps !! 0%nat) in
  let srcRootSlot := default 0 (excaps !! 1%nat) in
  if (length <? 8) || (pivotRootSlot =? 0) || (srcRootSlot =? 0) then simple_error seL4_TruncatedMessage
  else
    pivotNewData ← getSyscallArg 2 buffer;
    pivotIndex ← getSyscallArg 3 buffer;
    pivotDepth ← getSyscallArg 4 buffer;
    srcNewData ← getSyscallArg 5 buffer;
    srcIndex ← getSyscallArg 6 buffer;
    srcDepth ← getSyscallArg 7 buffer;
    pivotRoot ← cte_at pivotRootSlot;
    srcRoot ← cte_at srcRootSlot;
    lu_ret ← lookupSourceSlot (cte_cap srcRoot) srcIndex srcDepth;
    if decide (slot_status lu_ret ≠ EXCEPTION_NONE) then mret (slot_status lu_ret)
    else
      let srcSlot := slot_slot lu_ret in
      lu_ret ← lookupPivotSlot (cte_cap pivotRoot) pivotIndex pivotDepth;
      if decide (slot_status lu_ret ≠ EXCEPTION_NONE) then mret (slot_status lu_ret)
      else
        let pivotSlot := slot_slot lu_ret in
        if (pivotSlot =? srcSlot) || (pivotSlot =? destSlot) then simple_error seL4_IllegalOperation
        else
          status ← (if negb (srcSlot =? destSlot) then ensureEmptySlot destSlot else mret EXCEPTION_NONE);
          if decide (status ≠ EXCEPTION_NONE) then mret status
          else
            src ← cte_at srcSlot;
            if is_null (cte_cap src) then missing_source true srcDepth
            else
              pivot ← cte_at pivotSlot;
              if is_null (cte_cap pivot) then missing_source false pivotDepth
              else
                newSrcCap ← lift (updateCapData io true srcNewData (cte_cap src));
                newPivotCap ← lift (updateCapData io true pivotNewData (cte_cap pivot));
                if is_null newSrcCap then simple_error seL4_IllegalOperation
                else if is_null newPivotCap then simple_error seL4_IllegalOperation
                else
                  restart_current;;
                  invokeCNodeRotate newSrcCap newPivotCap srcSlot pivotSlot destSlot.

Definition decodeCNodeInvocation (io : io_domains) (invLabel length : Z) (cap : cap_t) (excaps : list Z) (buffer : Z) :
  K exception_t :=
  assert (is_cnode cap);;
  if (invLabel <? CNodeRevoke) || (CNodeSaveCaller <? invLabel) then simple_error seL4_IllegalOperation
  else if length <? 2 then simple_error seL4_TruncatedMessage
  else
    index ← getSyscallArg 0 buffer;
    w_bits ← getSyscallArg 1 buffer;
    lu_ret ← lookupTargetSlot cap index w_bits;
    if decide (slot_status lu_ret ≠ EXCEPTION_NONE) then mret (slot_status lu_ret)
    else
      let destSlot := slot_slot lu_ret in
      if (CNodeCopy <=? invLabel) && (invLabel <=? CNodeMutate) then decode_insert io invLabel length excaps buffer destSlot
      else if invLabel =? CNodeRevoke then restart_current;; invokeCNodeRevoke destSlot
      else if invLabel =? CNodeDelete then restart_current;; invokeCNodeDelete destSlot
      else if invLabel =? CNodeSaveCaller then
        status ← ensureEmptySlot destSlot;
        if decide (status ≠ EXCEPTION_NONE) then mret status
        else restart_current;; invokeCNodeSaveCaller destSlot
      else if invLabel =? CNodeCancelBadgedSends then
        d ← cte_at destSlot;
        if negb (hasCancelSendRights (cte_cap d)) then simple_error seL4_IllegalOperation
        else restart_current;; invokeCNodeCancelBadgedSends (cte_cap d)
      else if invLabel =? CNodeRotate then decode_rotate io length excaps buffer destSlot
      else mret EXCEPTION_NONE.

(** ** A rejected invocation leaves no trace

    [unchanged] allows the error reports to differ.  A decoder is put together
    from steps that only look ([looks]), and ends in an operation that does not
    report an error any more ([performs]). *)

Definition unchanged (k k' : ks) : Prop :=
  k' = k <| current_syscall_error := current_syscall_error k' |> <| current_lookup_fault := current_lookup_fault k' |>.

Lemma unchanged_refl k : unchanged k k.
Proof. by destruct k. Qed.
Lemma unchanged_trans k1 k2 k3 : unchanged k1 k2 → unchanged k2 k3 → unchanged k1 k3.
Proof. unfold unchanged. intros E1 E2. rewrite E2 at 1. rewrite E1 at 1. reflexivity. Qed.

Definition looks {A} (m : K A) : Prop := ∀ k, wlp m (λ _ k', unchanged k k') k.
Definition performs (m : K exception_t) : Prop := ∀ k, wlp m (λ st _, st ≠ EXCEPTION_SYSCALL_ERROR) k.
Definition atomic (m : K exception_t) : Prop := ∀ k, wlp m (λ st k', st = EXCEPTION_SYSCALL_ERROR → unchanged k k') k.

Lemma wlp_after {A B} (m : K A) (f : A → K B) (Q : B → ks → Prop) k :
  (∀ a k', m k = (Done a, k') → wlp (f a) Q k') → wlp (m ≫= f) Q k.
Proof. intros H. apply wlp_bind. unfold wlp at 1. destruct (m k) as [[a|h] k'] eqn:E; [by apply H|done]. Qed.

Lemma looks_bind {A B} (m : K A) (f : A → K B) : looks m → (∀ a, looks (f a)) → looks (m ≫= f).
Proof.
  intros Hm Hf k. apply wlp_bind. eapply wlp_mono; [apply Hm|]. intros a k1 E1.
  eapply wlp_mono; [apply Hf|]. intros b k2 E2. exact (unchanged_trans _ _ _ E1 E2).
Qed.
Lemma atomic_bind {A} (m : K A) (f : A → K exception_t) : looks m → (∀ a, atomic (f a)) → atomic (m ≫= f).
Proof.
  intros Hm Hf k. apply wlp_bind. eapply wlp_mono; [apply Hm|]. intros a k1 E1.
  eapply wlp_mono; [apply Hf|]. intros b k2 E2 Hb. exact (unchanged_trans _ _ _ E1 (E2 Hb)).
Qed.
Lemma looks_ret {A} (a : A) : looks (mret a).
Proof. intros k. apply wlp_ret, unchanged_refl. Qed.
Lemma looks_halt {A} h : looks (halt_with (A := A) h).
Proof. by intros k. Qed.
Lemma looks_assert b : looks (assert b).
Proof. destruct b; [apply looks_ret|apply looks_halt]. Qed.
Lemma looks_lift {A} (o : outcome A) : looks (lift o).
Proof. intros k. destruct o; [apply unchanged_refl|done]. Qed.
Lemma looks_gets {A} (f : ks → A) : looks (gets f).
Proof. intros k. apply unchanged_refl. Qed.
Lemma looks_cte_at p : looks (cte_at p).
Proof. intros k. unfold wlp, cte_at. destruct (ctes k !! p); [apply unchanged_refl|done]. Qed.
Lemma looks_tcb_at t : looks (tcb_at t).
Proof. intros k. unfold wlp, tcb_at. destruct (tcbs k !! t); [apply unchanged_refl|done]. Qed.
Lemma looks_set_error f : looks (set_error f).
Proof. intros k. unfold set_error, unchanged. by destruct k. Qed.
Lemma looks_set_lookup_fault f : looks (set_lookup_fault f).
Proof. intros k. unfold set_lookup_fault, unchanged. by destruct k. Qed.
Lemma atomic_looks m : looks m → atomic m.
Proof. intros H k. eapply wlp_mono; [apply H|]. done. Qed.
Lemma atomic_performs m : performs m → atomic m.
Proof. intros H k. eapply wlp_mono; [apply H|]. done. Qed.
Lemma performs_bind {A} (m : K A) (f : A → K exception_t) : (∀ a, performs (f a)) → performs (m ≫= f).
Proof. intros H k. apply wlp_after. intros a k' _. apply H. Qed.
Lemma performs_ret st : st ≠ EXCEPTION_SYSCALL_ERROR → performs (mret st).
Proof. intros H k. by apply wlp_ret. Qed.
Lemma performs_halt h : performs (halt_with h).
Proof. by intros k. Qed.

Create HintDb invocation.
#[export] Hint Resolve looks_ret looks_halt looks_assert looks_lift looks_gets looks_cte_at looks_tcb_at looks_set_error
  looks_set_lookup_fault performs_halt : invocation.
#[export] Hint Extern 1 (performs (mret _)) => apply performs_ret; discriminate : invocation.

(** Takes a decoder apart. *)
Ltac steps := repeat first
  [ solve [auto with invocation] | apply looks_bind; [|intros ?] | apply atomic_bind; [solve [auto with invocation]|intros ?]
  | case_match | case_decide | progress cbn zeta ].

Lemma looks_getSyscallArg i b : looks (getSyscallArg i b).
Proof. unfold getSyscallArg, getRegister, word_at, cur. steps. Qed.
Lemma looks_ensureEmptySlot p : looks (ensureEmptySlot p).
Proof. unfold ensureEmptySlot. steps. Qed.
Lemma looks_ensureNoChildren p : looks (ensureNoChildren p).
Proof. unfold ensureNoChildren. steps. Qed.
Lemma looks_simple_error t : looks (simple_error t).
Proof. unfold simple_error. steps. Qed.
Lemma looks_missing_source b d : looks (missing_source b d).
Proof. unfold missing_source. steps. Qed.
#[export] Hint Resolve looks_getSyscallArg looks_ensureEmptySlot looks_ensureNoChildren looks_simple_error looks_missing_source : invocation.

Lemma looks_resolve_loop fuel : ∀ c p n n0, looks (resolve_loop fuel c p n n0).
Proof. induction fuel as [|fuel IH]; intros c p n n0; cbn [resolve_loop]; steps. Qed.
Lemma looks_lookup b c p d : looks (lookupSlotForCNodeOp b c p d).
Proof. unfold lookupSlotForCNodeOp, failed_lookup, resolveAddressBits. pose proof looks_resolve_loop. steps. Qed.
Lemma looks_deriveCap s c : looks (deriveCap s c).
Proof. unfold deriveCap, Arch_deriveCap, Mode_deriveCap. steps. Qed.
#[export] Hint Resolve looks_lookup looks_deriveCap : invocation.

(** *** Operations report no error *)

Lemma performs_status (m : K exception_t) (f : exception_t → K exception_t) :
  performs m → (∀ st, st ≠ EXCEPTION_SYSCALL_ERROR → performs (f st)) → performs (m ≫= f).
Proof. intros Hm Hf k. apply wlp_bind. eapply wlp_mono; [apply Hm|]. intros st k' H. by apply Hf. Qed.

Lemma performs_preemptionPoint : performs preemptionPoint.
Proof.
  intros k. pose proof (preemptionPoint_spec k) as H. unfold wp in H. unfold wlp.
  destruct (preemptionPoint k) as [[st|] k']; [|done]. by destruct H as ([-> | ->] & _).
Qed.

(** The status of a slot's finalisation is none or preempted. *)
Lemma deletion_performs fuel :
  (∀ slot im k, wlp (finaliseSlot fuel slot im) (λ r _, fs_status r ≠ EXCEPTION_SYSCALL_ERROR) k) ∧
  (∀ slot im, performs (reduceZombie fuel slot im)) ∧ (∀ slot ex, performs (cteDelete fuel slot ex)).
Proof.
  induction fuel as [|fuel (IHf & IHr & IHd)]; [done|]. split_and!.
  - intros slot im k. cbn [finaliseSlot]. apply wlp_after. intros s k1 _. case_match; [by apply wlp_ret|].
    do 4 (apply wlp_after; intros ? ? _). case_match; [by apply wlp_ret|]. apply wlp_after. intros ? ? _.
    case_match; [by apply wlp_ret|]. apply wlp_bind. eapply wlp_mono; [apply IHr|]. intros st ? Hst.
    case_decide; [by apply wlp_ret|]. apply wlp_bind. eapply wlp_mono; [apply performs_preemptionPoint|].
    intros st' ? Hst'. case_decide; [by apply wlp_ret|]. apply IHf.
  - intros slot im. cbn [reduceZombie]. apply performs_bind. intros s. case_match; try apply performs_halt.
    apply performs_bind. intros _. destruct im.
    + apply performs_status; [apply IHd|]. intros st Hst. case_decide; [by apply performs_ret|].
      unfold shrink_zombie. apply performs_bind. intros s'. case_match; try apply performs_halt; [by apply performs_ret|].
      cbn zeta. case_match; repeat (apply performs_bind; intros ?); by apply performs_ret.
    + unfold swap_zombie. repeat (apply performs_bind; intros ?). by apply performs_ret.
  - intros slot ex k. cbn [cteDelete]. apply wlp_bind. eapply wlp_mono; [apply IHf|]. intros r k' Hr.
    case_decide; [by apply wlp_ret|]. apply wlp_after. intros. by apply wlp_ret.
Qed.

Lemma performs_delete slot : performs (invokeCNodeDelete slot).
Proof. unfold invokeCNodeDelete, delete_slot. apply performs_bind. intros fuel. apply deletion_performs. Qed.

Lemma performs_revoke slot : performs (invokeCNodeRevoke slot).
Proof.
  unfold invokeCNodeRevoke, cteRevoke. apply performs_bind. intros n. generalize (2 * n + 1)%nat as fuel. clear n.
  induction fuel as [|fuel IH]; [apply performs_halt|]. cbn [revoke_children]. apply performs_bind. intros s. cbn zeta.
  case_match; [by apply performs_ret|]. do 2 (apply performs_bind; intros ?). case_match; [|by apply performs_ret].
  apply performs_status; [apply performs_delete|]. intros st Hst. case_decide; [by apply performs_ret|].
  apply performs_status; [apply performs_preemptionPoint|]. intros st' Hst'. case_decide; [by apply performs_ret|done].
Qed.

Lemma performs_reset_chunks fuel : ∀ s b o c, performs (reset_chunks fuel s b o c).
Proof.
  induction fuel as [|fuel IH]; intros s b o c; [apply performs_halt|]. cbn [reset_chunks].
  case_match; [by apply performs_ret|]. do 3 (apply performs_bind; intros ?).
  apply performs_status; [apply performs_preemptionPoint|]. intros st Hst. case_decide; [by apply performs_ret|]. apply IH.
Qed.

Lemma performs_reset s : performs (resetUntypedCap s).
Proof.
  unfold resetUntypedCap. do 2 (apply performs_bind; intros ?). repeat case_match; [by apply performs_ret| |].
  - repeat (apply performs_bind; intros ?). by apply performs_ret.
  - apply performs_reset_chunks.
Qed.

Lemma performs_retype s r b t u d dev : performs (invokeUntyped_Retype s r b t u d dev).
Proof.
  unfold invokeUntyped_Retype. do 2 (apply performs_bind; intros ?). repeat case_match.
  all: apply performs_status; [first [apply performs_reset|by apply performs_ret]|]; intros st Hst;
    (case_decide; [by apply performs_ret|]); repeat (apply performs_bind; intros ?); by apply performs_ret.
Qed.

#[export] Hint Resolve performs_delete performs_revoke performs_retype : invocation.
#[export] Hint Extern 1 (performs (_ ≫= _)) => apply performs_bind; intros ? : invocation.

Lemma performs_slots c c' s d e :
  performs (invokeCNodeMove c s d) ∧ performs (invokeCNodeInsert c s d) ∧ performs (invokeCNodeRotate c c' s d e) ∧
  performs (invokeCNodeSaveCaller d) ∧ performs (invokeCNodeCancelBadgedSends c).
Proof.
  unfold invokeCNodeMove, invokeCNodeInsert, invokeCNodeRotate, invokeCNodeSaveCaller, invokeCNodeCancelBadgedSends.
  split_and!; try (destruct c; auto with invocation; fail); auto with invocation.
  do 2 (apply performs_bind; intros ?). case_match; auto with invocation.
Qed.

Lemma atomic_restart m : performs m → atomic (restart_current;; m).
Proof. intros H. apply atomic_performs, performs_bind. by intros _. Qed.

#[export] Hint Resolve atomic_restart : invocation.
#[export] Hint Extern 2 (atomic _) => apply atomic_looks : invocation.
#[export] Hint Extern 1 (performs (invokeCNodeMove _ _ _)) => apply (performs_slots _ cap_null_cap _ _ 0) : invocation.
#[export] Hint Extern 1 (performs (invokeCNodeInsert _ _ _)) => apply (performs_slots _ cap_null_cap _ _ 0) : invocation.
#[export] Hint Extern 1 (performs (invokeCNodeRotate _ _ _ _ _)) => apply performs_slots : invocation.
#[export] Hint Extern 1 (performs (invokeCNodeSaveCaller _)) => apply (performs_slots cap_null_cap cap_null_cap 0 _ 0) : invocation.
#[export] Hint Extern 1 (performs (invokeCNodeCancelBadgedSends _)) => apply (performs_slots _ cap_null_cap 0 0 0) : invocation.

Lemma looks_new_capability io l n s b : looks (new_capability io l n s b).
Proof. unfold new_capability. steps. Qed.
#[export] Hint Resolve looks_new_capability : invocation.

Lemma atomic_decode_insert io l n ex b d : atomic (decode_insert io l n ex b d).
Proof. unfold decode_insert, lookupSourceSlot. steps. Qed.
Lemma atomic_decode_rotate io n ex b d : atomic (decode_rotate io n ex b d).
Proof. unfold decode_rotate, lookupSourceSlot, lookupPivotSlot. steps. Qed.
#[export] Hint Resolve atomic_decode_insert atomic_decode_rotate : invocation.

Lemma looks_empty_window n : ∀ c i, looks (ensure_empty_window n c i).
Proof. induction n as [|n IH]; intros c i; cbn [ensure_empty_window]; steps. Qed.
#[export] Hint Resolve looks_empty_window : invocation.

Lemma atomic_retype_into s c nc t u d o w : atomic (retype_into s c nc t u d o w).
Proof.
  unfold retype_into, range_error, argument_error. steps.
  all: apply atomic_performs; apply performs_bind; intros ?; auto with invocation.
Qed.
#[export] Hint Resolve atomic_retype_into : invocation.

Lemma decodeCNode_atomic io l n c ex b : atomic (decodeCNodeInvocation io l n c ex b).
Proof. unfold decodeCNodeInvocation, lookupTargetSlot. steps. Qed.

Lemma decodeUntyped_atomic l n slot c ex b : atomic (decodeUntypedInvocation l n slot c ex b).
Proof. unfold decodeUntypedInvocation, range_error, argument_error, lookupTargetSlot. steps. Qed.
