(* ===== verification/Threads.v ===== *)
(** The invocations of threads and of domains ([object/tcb.c]): registers,
    priorities, address spaces, IPC buffers and bound notifications, from the
    message to the operation.

    [Arch_decodeTransfer] and [Arch_performTransfer] have no arguments to use on
    this architecture and answer 0 and [EXCEPTION_NONE]; [Arch_setTCBIPCBuffer] and
    [Arch_getSanitiseRegisterInfo] do nothing. *)

From S2P Require Import Prelude Messages Caps Kernel CSpace CNode Scheduler Wakeup Paging VSpace IOSpace Ipc Waiting Signals.
From S2P Require Import Cancel Transfer Endpoint Reply Retype Reset Creation Deletion Finalise Revoke Decode.
Import MessageInfo.

(** [enum invocation_label] *)
Definition TCBReadRegisters : Z := 2.
Definition TCBWriteRegisters : Z := 3.
Definition TCBCopyRegisters : Z := 4.
Definition TCBConfigure : Z := 5.
Definition TCBSetPriority : Z := 6.
Definition TCBSetMCPriority : Z := 7.
Definition TCBSetIPCBuffer : Z := 8.
Definition TCBSetSpace : Z := 9.
Definition TCBSuspend : Z := 10.
Definition TCBResume : Z := 11.
Definition TCBBindNotification : Z := 12.
Definition TCBUnbindNotification : Z := 13.
Definition DomainSetSet : Z := 27.

(** [excaps.excaprefs[i]]: 0 when there is none. *)
Definition excap (excaps : list Z) (i : nat) : Z := default 0 (excaps !! i).
(** [cap_thread_cap_get_capTCBPtr] asserts the kind of the capability. *)
Definition thread_of (cap : cap_t) : outcome Z :=
  match cap with cap_thread_cap t => Done t | _ => Halted AssertFailed end.
(** [flags & BIT(i)] *)
Definition flag (flags i : Z) : bool := negb (Z.land flags (BIT i) =? 0).
Definition capability_error (n : Z) : K exception_t :=
  set_error (λ e, e <| error_type := seL4_InvalidCapability |> <| invalidCapNumber := n |>);;
  mret EXCEPTION_SYSCALL_ERROR.

(** ** Registers *)

Definition n_frameRegisters : Z := 10.
Definition n_gpRegisters : Z := 3.
(** [FaultIP, ESP, FLAGS, EAX, EBX, ECX, EDX, ESI, EDI, EBP] *)
Definition frameRegisters : list Z := [11; 17; 16; 0; 1; 2; 3; 4; 5; 6].
(** [TLS_BASE, FS, GS] *)
Definition gpRegisters : list Z := [12; 9; 10].
Definition frameRegister (i : Z) : Z := default 0 (frameRegisters !! Z.to_nat i).
Definition gpRegister (i : Z) : Z := default 0 (gpRegisters !! Z.to_nat i).

(** [for (; cond(i); i++) body(i)]: where [i] stops.  The loops below run over
    the registers of a thread, of which there are 13. *)
Fixpoint for_while (fuel : nat) (i : Z) (cond : Z → bool) (body : Z → K unit) : K Z :=
  if cond i then
    match fuel with
    | O => halt_with OutOfFuel
    | S fuel' => body i;; for_while fuel' (i + 1) cond body
    end
  else mret i.

Definition copy_register (src dest r : Z) : K unit := v ← getRegister src r; setRegister dest r v.

Definition invokeTCB_CopyRegisters (dest tcb_src : Z) (suspendSource resumeTarget transferFrame transferInteger : bool) :
  K exception_t :=
  when suspendSource (suspend tcb_src);;
  when resumeTarget (restart dest);;
  when transferFrame
    (for_range 0 (Z.to_nat n_frameRegisters) (λ i, copy_register tcb_src dest (frameRegister i));;
     pc ← getRestartPC dest;
     setNextPC dest pc);;
  when transferInteger
    (for_range 0 (Z.to_nat n_gpRegisters) (λ i, copy_register tcb_src dest (gpRegister i)));;
  mret EXCEPTION_NONE.

Definition invokeTCB_ReadRegisters (tcb_src : Z) (suspendSource : bool) (n : Z) (call : bool) : K exception_t :=
  thread ← cur;
  when suspendSource (suspend tcb_src);;
  when call
    (ipcBuffer ← lookupIPCBuffer true thread;
     setRegister thread badgeRegister 0;;
     i ← for_while 13 0 (λ i, (i <? n) && (i <? n_frameRegisters) && (i <? n_msgRegisters)) (λ i,
       v ← getRegister tcb_src (frameRegister i);
       setRegister thread (msgRegister i) v);
     j ← (if negb (ipcBuffer =? 0) && (i <? n) && (i <? n_frameRegisters) then
            for_while 13 i (λ i, (i <? n) && (i <? n_frameRegisters)) (λ i,
              v ← getRegister tcb_src (frameRegister i);
              word_set (buf_index ipcBuffer (i + 1)) v)
          else mret i);
     i ← for_while 13 0 (λ i, (i <? n_gpRegisters) && (i + n_frameRegisters <? n) && (i + n_frameRegisters <? n_msgRegisters)) (λ i,
       v ← getRegister tcb_src (gpRegister i);
       setRegister thread (msgRegister (i + n_frameRegisters)) v);
     i ← (if negb (ipcBuffer =? 0) && (i <? n_gpRegisters) && (i + n_frameRegisters <? n) then
            for_while 13 i (λ i, (i <? n_gpRegisters) && (i + n_frameRegisters <? n)) (λ i,
              v ← getRegister tcb_src (gpRegister i);
              word_set (buf_index ipcBuffer (i + n_frameRegisters + 1)) v)
          else mret i);
     info ← lift (seL4_MessageInfo_new 0 0 0 (i + j));
     setRegister thread msgInfoRegister info);;
  setThreadState thread ThreadState_Running;;
  mret EXCEPTION_NONE.

Definition invokeTCB_WriteRegisters (dest : Z) (resumeTarget : bool) (n buffer : Z) : K exception_t :=
  let n := if n_frameRegisters + n_gpRegisters <? n then n_frameRegisters + n_gpRegisters else n in
  for_while 13 0 (λ i, (i <? n_frameRegisters) && (i <? n)) (λ i,
    v ← getSyscallArg (i + 2) buffer;
    setRegister dest (frameRegister i) (sanitiseRegister (frameRegister i) v));;
  for_while 13 0 (λ i, (i <? n_gpRegisters) && (i + n_frameRegisters <? n)) (λ i,
    v ← getSyscallArg (i + n_frameRegisters + 2) buffer;
    setRegister dest (gpRegister i) (sanitiseRegister (gpRegister i) v));;
  pc ← getRestartPC dest;
  setNextPC dest pc;;
  when resumeTarget (restart dest);;
  mret EXCEPTION_NONE.

Definition decodeCopyRegisters (cap : cap_t) (length : Z) (excaps : list Z) (buffer : Z) : K exception_t :=
  if (length <? 1) || (excap excaps 0 =? 0) then simple_error seL4_TruncatedMessage
  else
    flags ← getSyscallArg 0 buffer;
    s ← cte_at (excap excaps 0);
    match cte_cap s with
    | cap_thread_cap srcTCB =>
      restart_current;;
      dest ← lift (thread_of cap);
      invokeTCB_CopyRegisters dest srcTCB (flag flags 0) (flag flags 1) (flag flags 2) (flag flags 3)
    | _ => capability_error 1
    end.

Definition decodeReadRegisters (cap : cap_t) (length : Z) (call : bool) (buffer : Z) : K exception_t :=
  if length <? 2 then simple_error seL4_TruncatedMessage
  else
    flags ← getSyscallArg 0 buffer;
    n ← getSyscallArg 1 buffer;
    if (n <? 1) || (n_frameRegisters + n_gpRegisters <? n) then range_error 1 (n_frameRegisters + n_gpRegisters)
    else
      thread ← lift (thread_of cap);
      c ← cur;
      if thread =? c then simple_error seL4_IllegalOperation
      else
        restart_current;;
        invokeTCB_ReadRegisters thread (flag flags 0) n call.

Definition decodeWriteRegisters (cap : cap_t) (length buffer : Z) : K exception_t :=
  if length <? 2 then simple_error seL4_TruncatedMessage
  else
    flags ← getSyscallArg 0 buffer;
    w ← getSyscallArg 1 buffer;
    if length - 2 <? w then simple_error seL4_TruncatedMessage
    else
      thread ← lift (thread_of cap);
      c ← cur;
      if thread =? c then simple_error seL4_IllegalOperation
      else
        restart_current;;
        invokeTCB_WriteRegisters thread (flag flags 0) w buffer.

(** ** Control of a thread *)

Definition seL4_MinPrio : Z := 0.
Definition seL4_MaxPrio : Z := 255.

Definition checkPrio (prio : Z) : K exception_t :=
  t ← cur;
  c ← tcb_at t;
  let mcp := tcbMCP c in
  assert (mcp <=? seL4_MaxPrio);;
  if mcp <? prio then range_error seL4_MinPrio mcp else mret EXCEPTION_NONE.

(** [enum thread_control_flag] *)
Definition thread_control_update_priority : Z := 1.
Definition thread_control_update_ipc_buffer : Z := 2.
Definition thread_control_update_space : Z := 4.
Definition thread_control_update_mcp : Z := 8.
Definition thread_control_update_all : Z := 15.
Definition updates (updateFlags which : Z) : bool := negb (Z.land updateFlags which =? 0).

(** The capability still comes from [srcSlot], and [slot] still names the
    target: the deletion before may have removed either. *)
Definition same_source (newCap : cap_t) (srcSlot target slot : Z) : K bool :=
  src ← cte_at srcSlot;
  a ← lift (sameObjectAs newCap (cte_cap src));
  if a : bool then s ← cte_at slot; lift (sameObjectAs (cap_thread_cap target) (cte_cap s)) else mret false.

(** One of the two roots of a thread is replaced. *)
Definition update_root (target slot which : Z) (newCap : cap_t) (srcSlot : Z) : K exception_t :=
  let rootSlot := TCB_PTR_CTE_PTR target which in
  e ← delete_slot rootSlot;
  if decide (e ≠ EXCEPTION_NONE) then mret e
  else
    same ← same_source newCap srcSlot target slot;
    when same (cteInsert newCap srcSlot rootSlot);;
    mret EXCEPTION_NONE.

Definition update_buffer (target slot bufferAddr : Z) (bufferCap : cap_t) (bufferSrcSlot : Z) : K exception_t :=
  let bufferSlot := TCB_PTR_CTE_PTR target tcbBuffer in
  e ← delete_slot bufferSlot;
  if decide (e ≠ EXCEPTION_NONE) then mret e
  else
    tcb_set target (λ c, c <| tcbIPCBuffer := bufferAddr |>);;
    same ← (if negb (bufferSrcSlot =? 0) then same_source bufferCap bufferSrcSlot target slot else mret false);
    when same (cteInsert bufferCap bufferSrcSlot bufferSlot);;
    mret EXCEPTION_NONE.

Definition invokeTCB_ThreadControl (target slot faultep mcp priority : Z) (cRoot_newCap : cap_t) (cRoot_srcSlot : Z)
    (vRoot_newCap : cap_t) (vRoot_srcSlot bufferAddr : Z) (bufferCap : cap_t) (bufferSrcSlot updateFlags : Z) : K exception_t :=
  when (updates updateFlags thread_control_update_space) (tcb_set target (λ c, c <| tcbFaultHandler := faultep |>));;
  when (updates updateFlags thread_control_update_mcp) (setMCPriority target mcp);;
  when (updates updateFlags thread_control_update_priority) (setPriority target priority);;
  e ← (if updates updateFlags thread_control_update_space
       then update_root target slot tcbCTable cRoot_newCap cRoot_srcSlot else mret EXCEPTION_NONE);
  if decide (e ≠ EXCEPTION_NONE) then mret e
  else
    e ← (if updates updateFlags thread_control_update_space
         then update_root target slot tcbVTable vRoot_newCap vRoot_srcSlot else mret EXCEPTION_NONE);
    if decide (e ≠ EXCEPTION_NONE) then mret e
    else if updates updateFlags thread_control_update_ipc_buffer
    then update_buffer target slot bufferAddr bufferCap bufferSrcSlot
    else mret EXCEPTION_NONE.

(** A helper that returns a status goes straight to the end of the function. *)
Definition or_return {A} (m : K (exception_t + A)) (f : A → K exception_t) : K exception_t :=
  r ← m;
  match r with inl status => mret status | inr a => f a end.

Definition checkValidIPCBuffer (vptr : Z) (cap : cap_t) : K exception_t :=
  match cap with
  | cap_frame_cap _ _ _ _ dev _ _ =>
    if dev : bool then simple_error seL4_IllegalOperation
    else if negb (Z.land vptr (MASK 9) =? 0) then simple_error seL4_AlignmentError
    else mret EXCEPTION_NONE
  | _ => simple_error seL4_IllegalOperation
  end.

(** The slot and the capability of a new IPC buffer. *)
Definition new_buffer (bufferAddr bufferSlot : Z) : K (exception_t + Z * cap_t) :=
  s ← cte_at bufferSlot;
  if bufferAddr =? 0 then mret (inr (0, cte_cap s))
  else
    dc_ret ← deriveCap bufferSlot (cte_cap s);
    if decide (dc_status dc_ret ≠ EXCEPTION_NONE) then mret (inl (dc_status dc_ret))
    else
      e ← checkValidIPCBuffer bufferAddr (dc_cap dc_ret);
      if decide (e ≠ EXCEPTION_NONE) then mret (inl e) else mret (inr (bufferSlot, dc_cap dc_ret)).

(** A root of a thread is a capability that is being deleted. *)
Definition roots_deleting (target : Z) : K bool :=
  a ← slotCapLongRunningDelete (TCB_PTR_CTE_PTR target tcbCTable);
  if a : bool then mret true else slotCapLongRunningDelete (TCB_PTR_CTE_PTR target tcbVTable).

Definition isValidVTableRoot (cap : cap_t) : bool :=
  isValidNativeRoot cap.

(** A new root, with its data. *)
Definition new_root (io : io_domains) (slot : Z) (cap : cap_t) (data : Z) (valid : cap_t → bool) : K (exception_t + cap_t) :=
  c ← (if negb (data =? 0) then lift (updateCapData io false data cap) else mret cap);
  dc_ret ← deriveCap slot c;
  if decide (dc_status dc_ret ≠ EXCEPTION_NONE) then mret (inl (dc_status dc_ret))
  else if negb (valid (dc_cap dc_ret)) then e ← simple_error seL4_IllegalOperation; mret (inl e)
  else mret (inr (dc_cap dc_ret)).

Definition decodeTCBConfigure (io : io_domains) (cap : cap_t) (length slot : Z) (rootCaps : list Z) (buffer : Z) : K exception_t :=
  if (length <? 5) || (excap rootCaps 0 =? 0) || (excap rootCaps 1 =? 0) || (excap rootCaps 2 =? 0)
  then simple_error seL4_TruncatedMessage
  else
    faultEP ← getSyscallArg 0 buffer;
    props ← getSyscallArg 1 buffer;
    cRootData ← getSyscallArg 2 buffer;
    vRootData ← getSyscallArg 3 buffer;
    bufferAddr ← getSyscallArg 4 buffer;
    let cRootSlot := excap rootCaps 0 in
    let vRootSlot := excap rootCaps 1 in
    cRoot ← cte_at cRootSlot;
    vRoot ← cte_at vRootSlot;
    let prio := PrioProps.seL4_PrioProps_get_prio props in
    let mcp := PrioProps.seL4_PrioProps_get_mcp props in
    status ← checkPrio prio;
    if decide (status ≠ EXCEPTION_NONE) then mret status
    else
      status ← checkPrio mcp;
      if decide (status ≠ EXCEPTION_NONE) then mret status
      else
        or_return (new_buffer bufferAddr (excap rootCaps 2)) (λ '(bufferSlot, bufferCap),
          target ← lift (thread_of cap);
          deleting ← roots_deleting target;
          if deleting : bool then simple_error seL4_IllegalOperation
          else
            or_return (new_root io cRootSlot (cte_cap cRoot) cRootData is_cnode) (λ cRootCap,
            or_return (new_root io vRootSlot (cte_cap vRoot) vRootData isValidVTableRoot) (λ vRootCap,
              restart_current;;
              invokeTCB_ThreadControl target slot faultEP mcp prio cRootCap cRootSlot vRootCap vRootSlot
                bufferAddr bufferCap bufferSlot thread_control_update_all))).

Definition NULL_PRIO : Z := 0.

Definition decodeSetPriority (cap : cap_t) (length buffer : Z) : K exception_t :=
  if length <? 1 then simple_error seL4_TruncatedMessage
  else
    newPrio ← getSyscallArg 0 buffer;
    status ← checkPrio newPrio;
    if decide (status ≠ EXCEPTION_NONE) then mret status
    else
      restart_current;;
      target ← lift (thread_of cap);
      invokeTCB_ThreadControl target 0 0 NULL_PRIO newPrio cap_null_cap 0 cap_null_cap 0 0 cap_null_cap 0
        thread_control_update_priority.

Definition decodeSetMCPriority (cap : cap_t) (length buffer : Z) : K exception_t :=
  if length <? 1 then simple_error seL4_TruncatedMessage
  else
    newMcp ← getSyscallArg 0 buffer;
    status ← checkPrio newMcp;
    if decide (status ≠ EXCEPTION_NONE) then mret status
    else
      restart_current;;
      target ← lift (thread_of cap);
      invokeTCB_ThreadControl target 0 0 newMcp NULL_PRIO cap_null_cap 0 cap_null_cap 0 0 cap_null_cap 0
        thread_control_update_mcp.

Definition decodeSetIPCBuffer (cap : cap_t) (length slot : Z) (excaps : list Z) (buffer : Z) : K exception_t :=
  if (length <? 1) || (excap excaps 0 =? 0) then simple_error seL4_TruncatedMessage
  else
    cptr_bufferPtr ← getSyscallArg 0 buffer;
    or_return (new_buffer cptr_bufferPtr (excap excaps 0)) (λ '(bufferSlot, bufferCap),
      restart_current;;
      target ← lift (thread_of cap);
      invokeTCB_ThreadControl target slot 0 NULL_PRIO NULL_PRIO cap_null_cap 0 cap_null_cap 0
        cptr_bufferPtr bufferCap bufferSlot thread_control_update_ipc_buffer).

Definition decodeSetSpace (io : io_domains) (cap : cap_t) (length slot : Z) (excaps : list Z) (buffer : Z) : K exception_t :=
  if (length <? 3) || (excap excaps 0 =? 0) || (excap excaps 1 =? 0) then simple_error seL4_TruncatedMessage
  else
    faultEP ← getSyscallArg 0 buffer;
    cRootData ← getSyscallArg 1 buffer;
    vRootData ← getSyscallArg 2 buffer;
    let cRootSlot := excap excaps 0 in
    let vRootSlot := excap excaps 1 in
    cRoot ← cte_at cRootSlot;
    vRoot ← cte_at vRootSlot;
    target ← lift (thread_of cap);
    deleting ← roots_deleting target;
    if deleting : bool then simple_error seL4_IllegalOperation
    else
      or_return (new_root io cRootSlot (cte_cap cRoot) cRootData is_cnode) (λ cRootCap,
      or_return (new_root io vRootSlot (cte_cap vRoot) vRootData isValidVTableRoot) (λ vRootCap,
        restart_current;;
        invokeTCB_ThreadControl target slot faultEP NULL_PRIO NULL_PRIO cRootCap cRootSlot vRootCap vRootSlot
          0 cap_null_cap 0 thread_control_update_space)).

(** ** Notifications, domains, and the choice *)

Definition invokeTCB_NotificationControl (tcb ntfnPtr : Z) : K exception_t :=
  (if negb (ntfnPtr =? 0) then bindNotification tcb ntfnPtr else unbindNotification tcb);;
  mret EXCEPTION_NONE.

Definition decodeBindNotification (cap : cap_t) (excaps : list Z) : K exception_t :=
  if excap excaps 0 =? 0 then simple_error seL4_TruncatedMessage
  else
    tcb ← lift (thread_of cap);
    c ← tcb_at tcb;
    if negb (tcbBoundNotification c =? 0) then simple_error seL4_IllegalOperation
    else
      s ← cte_at (excap excaps 0);
      match cte_cap s with
      | cap_notification_cap _ canReceive _ ntfnPtr =>
        if negb canReceive then simple_error seL4_IllegalOperation
        else
          x ← ntfn_at ntfnPtr;
          if negb (q_head (ntfnQueue x) =? 0) || negb (ntfnBoundTCB x =? 0) then simple_error seL4_IllegalOperation
          else restart_current;; invokeTCB_NotificationControl tcb ntfnPtr
      | _ => simple_error seL4_IllegalOperation
      end.

Definition decodeUnbindNotification (cap : cap_t) : K exception_t :=
  tcb ← lift (thread_of cap);
  c ← tcb_at tcb;
  if tcbBoundNotification c =? 0 then simple_error seL4_IllegalOperation
  else restart_current;; invokeTCB_NotificationControl tcb 0.

Definition invokeTCB_Suspend (thread : Z) : K exception_t := suspend thread;; mret EXCEPTION_NONE.
Definition invokeTCB_Resume (thread : Z) : K exception_t := restart thread;; mret EXCEPTION_NONE.

Definition decodeTCBInvocation (io : io_domains) (invLabel length : Z) (cap : cap_t) (slot : Z) (excaps : list Z) (call : bool)
    (buffer : Z) : K exception_t :=
  if invLabel =? TCBReadRegisters then decodeReadRegisters cap length call buffer
  else if invLabel =? TCBWriteRegisters then decodeWriteRegisters cap length buffer
  else if invLabel =? TCBCopyRegisters then decodeCopyRegisters cap length excaps buffer
  else if invLabel =? TCBSuspend then restart_current;; t ← lift (thread_of cap); invokeTCB_Suspend t
  else if invLabel =? TCBResume then restart_current;; t ← lift (thread_of cap); invokeTCB_Resume t
  else if invLabel =? TCBConfigure then decodeTCBConfigure io cap length slot excaps buffer
  else if invLabel =? TCBSetPriority then decodeSetPriority cap length buffer
  else if invLabel =? TCBSetMCPriority then decodeSetMCPriority cap length buffer
  else if invLabel =? TCBSetIPCBuffer then decodeSetIPCBuffer cap length slot excaps buffer
  else if invLabel =? TCBSetSpace then decodeSetSpace io cap length slot excaps buffer
  else if invLabel =? TCBBindNotification then decodeBindNotification cap excaps
  else if invLabel =? TCBUnbindNotification then decodeUnbindNotification cap
  else simple_error seL4_IllegalOperation.

Definition decodeDomainInvocation (invLabel length : Z) (excaps : list Z) (buffer : Z) : K exception_t :=
  if negb (invLabel =? DomainSetSet) then simple_error seL4_IllegalOperation
  else if length =? 0 then simple_error seL4_TruncatedMessage
  else
    domain ← getSyscallArg 0 buffer;
    if CONFIG_NUM_DOMAINS <=? domain then argument_error 0
    else if excap excaps 0 =? 0 then simple_error seL4_TruncatedMessage
    else
      s ← cte_at (excap excaps 0);
      match cte_cap s with
      | cap_thread_cap t =>
        restart_current;;
        setDomain t domain;;
        mret EXCEPTION_NONE
      | _ => argument_error 1
      end.
