(* ===== verification/Mmu.v ===== *)
(** The invocations of frames, page tables, page directories, ASID pools and ASID
    control ([arch/x86/kernel/vspace.c], [arch/x86/32/kernel/vspace_32paging.c]):
    from the message to the entry that is written.

    [excaps] are the slots of the capabilities sent along, [cte] the slot of the
    invoked capability. *)

From S2P Require Import Prelude Messages Caps Kernel CSpace CNode Scheduler Wakeup Paging VSpace IOSpace Ipc Waiting Signals.
From S2P Require Import Cancel Transfer Endpoint Reply Retype Reset Creation Deletion Finalise Revoke Decode.
From S2P Require Import Threads.
Import MessageInfo.

(** [enum arch_invocation_label] *)
Definition X86PageDirectoryGetStatusBits : Z := 30.
Definition X86PageTableMap : Z := 31.
Definition X86PageTableUnmap : Z := 32.
Definition X86IOPageTableMap : Z := 33.
Definition X86IOPageTableUnmap : Z := 34.
Definition X86PageMap : Z := 35.
Definition X86PageRemap : Z := 36.
Definition X86PageUnmap : Z := 37.
Definition X86PageMapIO : Z := 38.
Definition X86PageGetAddress : Z := 39.
Definition X86ASIDControlMakePool : Z := 40.
Definition X86ASIDPoolAssign : Z := 41.

(** [current_syscall_error.type = seL4_FailedLookup;
     current_syscall_error.failedLookupWasSource = false;] *)
Definition vspace_lookup_failed : K exception_t :=
  set_error (λ e, e <| error_type := seL4_FailedLookup |> <| failedLookupWasSource := false |>);;
  mret EXCEPTION_SYSCALL_ERROR.

(** ** Frames *)

(** [cap_frame_cap_set_capFMappedASID]: twelve bits, ten and two. *)
Definition frame_asid (asid : Z) : Z :=
  Z.shiftl (Z.land (Z.shiftr asid asidLowBits) (MASK asidHighBits)) asidLowBits + Z.land asid (MASK asidLowBits).

(** The three setters of the mapping of a frame; the address has twenty bits. *)
Definition set_frame_mapping (asid vaddr mapType : Z) (cap : cap_t) : outcome cap_t :=
  match cap with
  | cap_frame_cap size _ _ _ dev rights ptr =>
    mret (cap_frame_cap size (frame_asid asid) (Z.land vaddr 0xfffff000) mapType dev rights ptr)
  | _ => Halted AssertFailed
  end.

(** [checkVPAlignment] *)
Definition checkVPAlignment (sz w : Z) : outcome bool :=
  bits ← pageBitsForSize sz;
  mret (Z.land w (MASK bits) =? 0).

Definition performX86PageInvocationMapPTE (cap : cap_t) (ctSlot ptSlot pte vspace : Z) : K exception_t :=
  set_cap ctSlot cap;;
  word_set ptSlot pte;;
  (match cap with
   | cap_frame_cap _ asid _ _ _ _ _ => arch_call_made (call_invalidatePageStructureCacheASID (addrFromPPtr vspace) asid)
   | _ => halt_with AssertFailed
   end);;
  mret EXCEPTION_NONE.

Definition performX86PageInvocationMapPDE (cap : cap_t) (ctSlot pdSlot pde vspace : Z) : K exception_t :=
  set_cap ctSlot cap;;
  word_set pdSlot pde;;
  (match cap with
   | cap_frame_cap _ asid _ _ _ _ _ => arch_call_made (call_invalidatePageStructureCacheASID (addrFromPPtr vspace) asid)
   | _ => halt_with AssertFailed
   end);;
  mret EXCEPTION_NONE.

Definition performX86PageInvocationRemapPTE (ptSlot pte asid vspace : Z) : K exception_t :=
  word_set ptSlot pte;;
  arch_call_made (call_invalidatePageStructureCacheASID (addrFromPPtr vspace) asid);;
  mret EXCEPTION_NONE.

Definition performX86PageInvocationRemapPDE (pdSlot pde asid vspace : Z) : K exception_t :=
  word_set pdSlot pde;;
  arch_call_made (call_invalidatePageStructureCacheASID (addrFromPPtr vspace) asid);;
  mret EXCEPTION_NONE.

Definition performX86PageInvocationUnmap (cap : cap_t) (ctSlot : Z) : K exception_t :=
  match cap with
  | cap_frame_cap size asid vaddr _ _ _ ptr =>
    unmapPage size asid vaddr ptr;;
    s ← cte_at ctSlot;
    c ← lift (set_frame_mapping asidInvalid 0 X86_MappingNone (cte_cap s));
    set_cap ctSlot c;;
    mret EXCEPTION_NONE
  | _ => halt_with AssertFailed
  end.

Definition performPageGetAddress (vbase_ptr : Z) : K exception_t :=
  t ← cur;
  setRegister t (msgRegister 0) (addrFromPPtr vbase_ptr);;
  info ← lift (seL4_MessageInfo_new 0 0 0 1);
  setRegister t msgInfoRegister info;;
  mret EXCEPTION_NONE.

Definition decodeX86ModeMapRemapPage : K exception_t := halt_with AssertFailed.

(** The capability of the address space must stand for the directory its ASID
    stands for: the directory, or the status to return. *)
Definition valid_vspace (vspace asid : Z) : K (exception_t + unit) :=
  find_ret ← findVSpaceForASID asid;
  match find_ret with
  | None => st ← vspace_lookup_failed; mret (inl st)
  | Some r => if negb (r =? vspace) then st ← capability_error 1; mret (inl st) else mret (inr tt)
  end.

(** The [switch] on the size of a new mapping. *)
Definition map_frame (cte frameSize : Z) (cap : cap_t) (vspace vaddr paddr vmRights vmAttr : Z) : K exception_t :=
  if frameSize =? X86_SmallPage then
    lu_ret ← lookupPTSlot vspace vaddr;
    match lu_ret with
    | None => vspace_lookup_failed
    | Some ptSlot =>
      old ← word_at ptSlot;
      if negb (pte_get_present old =? 0) then simple_error seL4_DeleteFirst
      else
        pte ← lift (makeUserPTE paddr vmAttr vmRights);
        restart_current;;
        performX86PageInvocationMapPTE cap cte ptSlot pte vspace
    end
  else if frameSize =? X86_LargePage then
    let pdSlot := lookupPDSlot vspace vaddr in
    old ← word_at pdSlot;
    sp ← lift (small_present old);
    if sp : bool then simple_error seL4_DeleteFirst
    else
      lp ← lift (large_present old);
      if lp : bool then simple_error seL4_DeleteFirst
      else
        pde ← lift (makeUserPDELargePage paddr vmAttr vmRights);
        restart_current;;
        performX86PageInvocationMapPDE cap cte pdSlot pde vspace
  else decodeX86ModeMapRemapPage.

Definition decode_page_map (length cte : Z) (cap : cap_t) (excaps : list Z) (buffer : Z) : K exception_t :=
  if (length <? 3) || (excap excaps 0 =? 0) then simple_error seL4_TruncatedMessage
  else
    match cap with
    | cap_frame_cap frameSize mappedASID _ mapType _ capVMRights basePtr =>
      vaddr ← getSyscallArg 0 buffer;
      w_rightsMask ← getSyscallArg 1 buffer;
      vmAttr ← getSyscallArg 2 buffer;
      s ← cte_at (excap excaps 0);
      let vspaceCap := cte_cap s in
      if negb (mappedASID =? asidInvalid) then capability_error 0
      else
        assert (mapType =? X86_MappingNone);;
        if negb (isValidNativeRoot vspaceCap) then capability_error 1
        else
          vspace ← lift (cap_get_capPtr vspaceCap);
          asid ← lift (cap_get_capMappedASID vspaceCap);
          or_return (valid_vspace vspace asid) (λ _,
            bits ← lift (pageBitsForSize frameSize);
            let vtop := wrap32 (vaddr + BIT bits) in
            if PPTR_USER_TOP <? vtop then argument_error 0
            else
              let vmRights := maskVMRights capVMRights w_rightsMask in
              aligned ← lift (checkVPAlignment frameSize vaddr);
              if negb aligned then simple_error seL4_AlignmentError
              else
                let paddr := addrFromPPtr basePtr in
                cap ← lift (set_frame_mapping asid vaddr X86_MappingVSpace cap);
                map_frame cte frameSize cap vspace vaddr paddr vmRights vmAttr)
    | _ => halt_with AssertFailed
    end.

(** The [switch] on the size of a changed mapping. *)
Definition remap_frame (frameSize vspace vaddr paddr vmRights vmAttr asid : Z) : K exception_t :=
  if frameSize =? X86_SmallPage then
    lu_ret ← lookupPTSlot vspace vaddr;
    match lu_ret with
    | None => vspace_lookup_failed
    | Some ptSlot =>
      pte ← lift (makeUserPTE paddr vmAttr vmRights);
      restart_current;;
      performX86PageInvocationRemapPTE ptSlot pte asid vspace
    end
  else if frameSize =? X86_LargePage then
    let pdSlot := lookupPDSlot vspace vaddr in
    old ← word_at pdSlot;
    sp ← lift (small_present old);
    if sp : bool then simple_error seL4_DeleteFirst
    else
      pde ← lift (makeUserPDELargePage paddr vmAttr vmRights);
      restart_current;;
      performX86PageInvocationRemapPDE pdSlot pde asid vspace
  else decodeX86ModeMapRemapPage.

Definition decode_page_remap (length : Z) (cap : cap_t) (excaps : list Z) (buffer : Z) : K exception_t :=
  match cap with
  | cap_frame_cap frameSize mappedASID vaddr mapType _ capVMRights basePtr =>
    if negb (mapType =? X86_MappingVSpace) then simple_error seL4_IllegalOperation
    else if (length <? 2) || (excap excaps 0 =? 0) then simple_error seL4_TruncatedMessage
    else
      w_rightsMask ← getSyscallArg 0 buffer;
      vmAttr ← getSyscallArg 1 buffer;
      s ← cte_at (excap excaps 0);
      let vspaceCap := cte_cap s in
      if negb (isValidNativeRoot vspaceCap) then capability_error 1
      else
        vspace ← lift (cap_get_capPtr vspaceCap);
        asid ← lift (cap_get_capMappedASID vspaceCap);
        if negb (mappedASID =? asid) then capability_error 0
        else
          or_return (valid_vspace vspace asid) (λ _,
            let paddr := addrFromPPtr basePtr in
            let vmRights := maskVMRights capVMRights w_rightsMask in
            remap_frame frameSize vspace vaddr paddr vmRights vmAttr asid)
  | _ => halt_with AssertFailed
  end.

(** ** Frames mapped for devices ([iospace.c]) *)

Definition performX86IOInvocationMap (cap : cap_t) (ctSlot iopte ioptSlot : Z) : K exception_t :=
  set_cap ctSlot cap;;
  vtd_pte_set ioptSlot iopte;;
  arch_call_made (call_flushCacheRange ioptSlot VTD_PTE_SIZE_BITS);;
  mret EXCEPTION_NONE.

(** The slot for a frame at the bottom of the IO page tables. *)
Definition decode_io_map_slot (slot : Z) (cap : cap_t) (frame_cap_rights base pci_request_id io_address ioptSlot buffer : Z) : K exception_t :=
  w ← word_at ioptSlot;
  if negb (vtd_pte_get_addr w =? 0) then simple_error seL4_DeleteFirst
  else
    dma_cap_rights_mask ← getSyscallArg 0 buffer;
    let write := allow_write dma_cap_rights_mask && (frame_cap_rights =? VMReadWrite) in
    let read := allow_read dma_cap_rights_mask && negb (frame_cap_rights =? VMKernelOnly) in
    if write || read then
      iopte ← lift (vtd_pte_new (addrFromPPtr base) (Z.b2z write) (Z.b2z read));
      cap ← lift (set_frame_mapping pci_request_id io_address X86_MappingIOSpace cap);
      restart_current;;
      performX86IOInvocationMap cap slot iopte ioptSlot
    else argument_error 0.

Definition decodeX86IOMapInvocation (length slot : Z) (cap : cap_t) (excaps : list Z) (buffer : Z) : K exception_t :=
  if (excap excaps 0 =? 0) || (length <? 2) then simple_error seL4_TruncatedMessage
  else
    match cap with
    | cap_frame_cap size mappedASID _ _ _ frame_cap_rights base =>
      if negb (size =? X86_SmallPage) then capability_error 0
      else if negb (mappedASID =? asidInvalid) then capability_error 0
      else
        s ← cte_at (excap excaps 0);
        a ← getSyscallArg 1 buffer;
        let io_address := Z.land a (wrap32 (Z.lnot (MASK 12))) in
        match cte_cap s with
        | cap_io_space_cap _ pci_request_id =>
          if pci_request_id =? asidInvalid then capability_error 0
          else
            vtd_context_slot ← lookup_vtd_context_slot (cte_cap s);
            cte ← word_at vtd_context_slot;
            if vtd_cte_get_present cte =? 0 then vspace_lookup_failed
            else
              lu_ret ← lookupIOPTSlot (ptrFromPAddr (vtd_cte_get_asr cte)) io_address;
              match lu_ret with
              | Some (ioptSlot, level) =>
                if negb (level =? 0) then vspace_lookup_failed
                else decode_io_map_slot slot cap frame_cap_rights base pci_request_id io_address ioptSlot buffer
              | None => vspace_lookup_failed
              end
        | _ => capability_error 0
        end
    | _ => halt_with AssertFailed
    end.

Definition performX86IOUnMapInvocation (ctSlot : Z) : K exception_t :=
  s ← cte_at ctSlot;
  unmapIOPage (cte_cap s);;
  s ← cte_at ctSlot;
  c ← lift (set_frame_mapping asidInvalid 0 X86_MappingNone (cte_cap s));
  set_cap ctSlot c;;
  mret EXCEPTION_NONE.

Definition decode_page_unmap (cap : cap_t) (cte : Z) : K exception_t :=
  match cap with
  | cap_frame_cap _ mappedASID _ mapType _ _ _ =>
    if negb (mappedASID =? asidInvalid) then
      if mapType =? X86_MappingVSpace then restart_current;; performX86PageInvocationUnmap cap cte
      else if mapType =? X86_MappingIOSpace then restart_current;; performX86IOUnMapInvocation cte
      else if mapType =? X86_MappingNone then halt_with AssertFailed
      else mret EXCEPTION_NONE
    else mret EXCEPTION_NONE
  | _ => halt_with AssertFailed
  end.

Definition decodeX86FrameInvocation (invLabel length cte : Z) (cap : cap_t) (excaps : list Z) (buffer : Z) : K exception_t :=
  if invLabel =? X86PageMap then decode_page_map length cte cap excaps buffer
  else if invLabel =? X86PageRemap then decode_page_remap length cap excaps buffer
  else if invLabel =? X86PageUnmap then decode_page_unmap cap cte
  else if invLabel =? X86PageMapIO then decodeX86IOMapInvocation length cte cap excaps buffer
  else if invLabel =? X86PageGetAddress then
    assert (1 <=? n_msgRegisters);;
    restart_current;;
    p ← lift (cap_get_capPtr cap);
    performPageGetAddress p
  else simple_error seL4_IllegalOperation.

(** ** Page tables *)

Definition performX86PageTableInvocationUnmap (cap : cap_t) (ctSlot : Z) : K exception_t :=
  match cap with
  | cap_page_table_cap mapped asid vaddr pt =>
    when mapped
      (unmapPageTable asid vaddr pt;;
       bits ← lift (cap_get_capSizeBits cap);
       clearMemory pt bits);;
    s ← cte_at ctSlot;
    match cte_cap s with
    | cap_page_table_cap _ asid vaddr pt => set_cap ctSlot (cap_page_table_cap false asid vaddr pt);; mret EXCEPTION_NONE
    | _ => halt_with AssertFailed
    end
  | _ => halt_with AssertFailed
  end.

Definition performX86PageTableInvocationMap (cap : cap_t) (ctSlot pde pdSlot root : Z) : K exception_t :=
  set_cap ctSlot cap;;
  word_set pdSlot pde;;
  (match cap with
   | cap_page_table_cap _ asid _ _ => arch_call_made (call_invalidatePageStructureCacheASID (addrFromPPtr root) asid)
   | _ => halt_with AssertFailed
   end);;
  mret EXCEPTION_NONE.

Definition decode_page_table_map (length cte : Z) (cap : cap_t) (excaps : list Z) (buffer : Z) : K exception_t :=
  if (length <? 2) || (excap excaps 0 =? 0) then simple_error seL4_TruncatedMessage
  else
    match cap with
    | cap_page_table_cap mapped _ _ pt =>
      if mapped then capability_error 0
      else
        a ← getSyscallArg 0 buffer;
        let vaddr := Z.land a (wrap32 (Z.lnot (MASK 22))) in
        attr ← getSyscallArg 1 buffer;
        s ← cte_at (excap excaps 0);
        let vspaceCap := cte_cap s in
        if negb (isValidNativeRoot vspaceCap) then capability_error 1
        else
          vspace ← lift (cap_get_capPtr vspaceCap);
          asid ← lift (cap_get_capMappedASID vspaceCap);
          if PPTR_USER_TOP <=? vaddr then argument_error 0
          else
            or_return (valid_vspace vspace asid) (λ _,
              let pdSlot := lookupPDSlot vspace vaddr in
              old ← word_at pdSlot;
              sp ← lift (small_present old);
              lp ← lift (large_present old);
              if sp || lp then simple_error seL4_DeleteFirst
              else
                pde ← lift (makeUserPDEPageTable (addrFromPPtr pt) attr);
                restart_current;;
                performX86PageTableInvocationMap (cap_page_table_cap true asid vaddr pt) cte pde pdSlot vspace)
    | _ => halt_with AssertFailed
    end.

Definition decodeX86PageTableInvocation (invLabel length cte : Z) (cap : cap_t) (excaps : list Z) (buffer : Z) : K exception_t :=
  if invLabel =? X86PageTableUnmap then
    final ← isFinalCapability cte;
    if negb final then simple_error seL4_RevokeFirst
    else
      restart_current;;
      performX86PageTableInvocationUnmap cap cte
  else if negb (invLabel =? X86PageTableMap) then simple_error seL4_IllegalOperation
  else decode_page_table_map length cte cap excaps buffer.

(** ** ASIDs *)

(** [for (i = 0; i < BIT(asidHighBits) && x86KSASIDTable[i]; i++)] *)
Fixpoint first_null (l : list Z) : Z :=
  match l with
  | [] => 0
  | p :: l => if p =? 0 then 0 else 1 + first_null l
  end.

Definition performASIDControlInvocation (frame slot parent asid_base : Z) : K exception_t :=
  s ← cte_at parent;
  (match cte_cap s with
   | cap_untyped_cap _ _ size _ => c ← lift (set_capFreeIndex (MAX_FREE_INDEX size) (cte_cap s)); set_cap parent c
   | _ => halt_with AssertFailed
   end);;
  clearMemory frame 12;;
  cteInsert (cap_asid_pool_cap asid_base frame) parent slot;;
  assert (Z.land asid_base (MASK asidLowBits) =? 0);;
  asid_table_set (Z.shiftr asid_base asidLowBits) frame;;
  mret EXCEPTION_NONE.

Definition decode_make_pool (length : Z) (excaps : list Z) (buffer : Z) : K exception_t :=
  if (length <? 2) || (excap excaps 0 =? 0) || (excap excaps 1 =? 0) then simple_error seL4_TruncatedMessage
  else
    index ← getSyscallArg 0 buffer;
    depth ← getSyscallArg 1 buffer;
    let parentSlot := excap excaps 0 in
    s ← cte_at parentSlot;
    r ← cte_at (excap excaps 1);
    table ← gets (λ k, x86KSASIDTable (x86 k));
    let i := first_null table in
    if i =? BIT asidHighBits then simple_error seL4_DeleteFirst
    else
      let asid_base := Z.shiftl i asidLowBits in
      match cte_cap s with
      | cap_untyped_cap _ dev size frame =>
        if negb (size =? 12) || dev then capability_error 1
        else
          status ← ensureNoChildren parentSlot;
          if decide (status ≠ EXCEPTION_NONE) then mret status
          else
            lu_ret ← lookupTargetSlot (cte_cap r) index depth;
            if decide (slot_status lu_ret ≠ EXCEPTION_NONE) then mret (slot_status lu_ret)
            else
              let destSlot := slot_slot lu_ret in
              status ← ensureEmptySlot destSlot;
              if decide (status ≠ EXCEPTION_NONE) then mret status
              else
                restart_current;;
                performASIDControlInvocation frame destSlot parentSlot asid_base
      | _ => capability_error 1
      end.

(** [for (i = 0; i < BIT(asidLowBits) && (asid + i == 0 || type of pool->array[i] is not none); i++)],
    from [i] on; [n] entries are left. *)
Fixpoint first_free_asid (n : nat) (base pool i : Z) : K Z :=
  match n with
  | O => mret i
  | S n =>
    if wrap32 (base + i) =? 0 then first_free_asid n base pool (i + 1)
    else
      w ← word_at (entry_ptr pool i);
      if negb (asid_map_get_type w =? asid_map_asid_map_none) then first_free_asid n base pool (i + 1)
      else mret i
  end.

Definition performASIDPoolInvocation (asid poolPtr vspaceCapSlot : Z) : K exception_t :=
  s ← cte_at vspaceCapSlot;
  match cte_cap s with
  | cap_page_directory_cap _ _ vaddr ptr =>
    set_cap vspaceCapSlot (cap_page_directory_cap true asid vaddr ptr);;
    asid_map ← lift (asid_map_asid_map_vspace_new ptr);
    word_set (entry_ptr poolPtr (Z.land asid (MASK asidLowBits))) asid_map;;
    mret EXCEPTION_NONE
  | _ => halt_with AssertFailed
  end.

Definition decode_pool_assign (base capPool : Z) (excaps : list Z) : K exception_t :=
  if excap excaps 0 =? 0 then simple_error seL4_TruncatedMessage
  else
    let vspaceCapSlot := excap excaps 0 in
    s ← cte_at vspaceCapSlot;
    match cte_cap s with
    | cap_page_directory_cap _ mappedASID _ _ =>
      if negb (mappedASID =? asidInvalid) then capability_error 1
      else
        pool ← asid_table_at (Z.shiftr base asidLowBits);
        if pool =? 0 then
          st ← vspace_lookup_failed;
          set_lookup_fault lookup_fault_invalid_root;;
          mret st
        else if negb (pool =? capPool) then capability_error 0
        else
          i ← first_free_asid (Z.to_nat (BIT asidLowBits)) base pool 0;
          if i =? BIT asidLowBits then simple_error seL4_DeleteFirst
          else
            restart_current;;
            performASIDPoolInvocation (wrap32 (base + i)) pool vspaceCapSlot
    | _ => capability_error 1
    end.

(** ** Page directories *)

Definition performIA32PageDirectoryGetStatusBits (ptSlot : option Z) (pdSlot buffer : Z) : K exception_t :=
  t ← cur;
  pde ← word_at pdSlot;
  lp ← lift (large_present pde);
  if lp : bool then
    a ← lift (pde_pde_large_get_accessed pde);
    setMR t buffer 0 a;;
    d ← lift (pde_pde_large_get_dirty pde);
    setMR t buffer 1 d;;
    mret EXCEPTION_NONE
  else
    match ptSlot with
    | Some ptSlot =>
      pte ← word_at ptSlot;
      assert (negb (pte_get_present pte =? 0));;
      setMR t buffer 0 (pte_get_accessed pte);;
      setMR t buffer 1 (pte_get_dirty pte);;
      mret EXCEPTION_NONE
    | None => halt_with AssertFailed
    end.

Definition decodeIA32PageDirectoryInvocation (invLabel length : Z) (cap : cap_t) (buffer : Z) : K exception_t :=
  if invLabel =? X86PageDirectoryGetStatusBits then
    if length <? 1 then simple_error seL4_TruncatedMessage
    else
      vaddr ← getSyscallArg 0 buffer;
      if PPTR_USER_TOP <=? vaddr then argument_error 0
      else
        vspace ← lift (cap_get_capPtr cap);
        let pdSlot := lookupPDSlot vspace vaddr in
        ptSlot ← lookupPTSlot vspace vaddr;
        pde ← word_at pdSlot;
        lp ← lift (large_present pde);
        found ← (if lp : bool then mret true
                 else match ptSlot with
                      | Some p => pte ← word_at p; mret (negb (pte_get_present pte =? 0))
                      | None => mret false
                      end);
        if negb found then argument_error 1
        else
          restart_current;;
          performIA32PageDirectoryGetStatusBits ptSlot pdSlot buffer
  else simple_error seL4_IllegalOperation.

Definition decodeX86ModeMMUInvocation (invLabel length : Z) (cap : cap_t) (buffer : Z) : K exception_t :=
  match cap with
  | cap_page_directory_cap _ _ _ _ => decodeIA32PageDirectoryInvocation invLabel length cap buffer
  | _ => halt_with AssertFailed
  end.

Definition decodeX86MMUInvocation (invLabel length cte : Z) (cap : cap_t) (excaps : list Z) (buffer : Z) : K exception_t :=
  match cap with
  | cap_frame_cap _ _ _ _ _ _ _ => decodeX86FrameInvocation invLabel length cte cap excaps buffer
  | cap_page_table_cap _ _ _ _ => decodeX86PageTableInvocation invLabel length cte cap excaps buffer
  | cap_asid_control_cap =>
    if negb (invLabel =? X86ASIDControlMakePool) then simple_error seL4_IllegalOperation
    else decode_make_pool length excaps buffer
  | cap_asid_pool_cap base pool =>
    if negb (invLabel =? X86ASIDPoolAssign) then simple_error seL4_IllegalOperation
    else decode_pool_assign base pool excaps
  | _ => decodeX86ModeMMUInvocation invLabel length cap buffer
  end.
