(* ===== verification/Devices.v ===== *)
(** The invocations of I/O ports and of IO page tables ([arch/x86/object/ioport.c],
    [arch/x86/object/iospace.c]) and [Arch_decodeInvocation], which picks the
    decoder for a capability of the architecture.

    What a port answers is part of the state ([port_reads]); reads and writes of
    ports are recorded. *)

From S2P Require Import Prelude Messages Caps Kernel CSpace CNode Scheduler Wakeup Paging VSpace IOSpace Ipc Waiting Signals.
From S2P Require Import Cancel Transfer Endpoint Reply Retype Reset Creation Deletion Finalise Revoke Decode.
From S2P Require Import Threads Mmu.
Import MessageInfo.

Definition X86IOPortIn8 : Z := 42.
Definition X86IOPortIn16 : Z := 43.
Definition X86IOPortIn32 : Z := 44.
Definition X86IOPortOut8 : Z := 45.
Definition X86IOPortOut16 : Z := 46.
Definition X86IOPortOut32 : Z := 47.

(** ** I/O ports *)

Definition ensurePortOperationAllowed (cap : cap_t) (start_port size : Z) : K exception_t :=
  match cap with
  | cap_io_port_cap first_allowed last_allowed _ =>
    let end_port := wrap32 (start_port + size - 1) in
    assert (first_allowed <=? last_allowed);;
    assert (start_port <=? end_port);;
    if (start_port <? first_allowed) || (last_allowed <? end_port) then simple_error seL4_IllegalOperation
    else mret EXCEPTION_NONE
  | _ => halt_with AssertFailed
  end.

(** [in8], [in16] and [in32], [out8], [out16] and [out32] *)
Definition port_in (bits port : Z) : K Z :=
  arch_call_made (call_in bits port);;
  v ← gets (λ k, default 0 (head (port_reads (x86 k))));
  modify (λ k, k <| x86 ::= λ x, x <| port_reads ::= tail |> |>);;
  mret (v mod 2 ^ bits).
Definition port_out (bits port data : Z) : K unit := arch_call_made (call_out bits port data).

(** The reply: the value that has been read, or none. *)
Definition port_reply (res : option Z) : K exception_t :=
  t ← cur;
  (match res with
   | Some v => setRegister t badgeRegister 0;; setRegister t (msgRegister 0) v
   | None => mret tt
   end);;
  info ← lift (seL4_MessageInfo_new 0 0 0 (match res with Some _ => 1 | None => 0 end));
  setRegister t msgInfoRegister info;;
  setThreadState t ThreadState_Restart;;
  mret EXCEPTION_NONE.

Definition port_read (cap : cap_t) (port bits : Z) : K exception_t :=
  ret ← ensurePortOperationAllowed cap port (bits / 8);
  if decide (ret ≠ EXCEPTION_NONE) then mret ret
  else
    res ← port_in bits port;
    port_reply (Some res).

Definition port_write (cap : cap_t) (port bits buffer : Z) : K exception_t :=
  ret ← ensurePortOperationAllowed cap port (bits / 8);
  if decide (ret ≠ EXCEPTION_NONE) then mret ret
  else
    a ← getSyscallArg 1 buffer;
    port_out bits port (Z.land a (Z.ones bits));;
    port_reply None.

Definition decodeX86PortInvocation (invLabel length : Z) (cap : cap_t) (buffer : Z) : K exception_t :=
  if length <? 1 then simple_error seL4_TruncatedMessage
  else if ((invLabel =? X86IOPortOut8) || (invLabel =? X86IOPortOut16) || (invLabel =? X86IOPortOut32)) && (length <? 2)
  then simple_error seL4_TruncatedMessage
  else
    a ← getSyscallArg 0 buffer;
    let port := Z.land a 0xffff in
    if invLabel =? X86IOPortIn8 then port_read cap port 8
    else if invLabel =? X86IOPortIn16 then port_read cap port 16
    else if invLabel =? X86IOPortIn32 then port_read cap port 32
    else if invLabel =? X86IOPortOut8 then port_write cap port 8 buffer
    else if invLabel =? X86IOPortOut16 then port_write cap port 16 buffer
    else if invLabel =? X86IOPortOut32 then port_write cap port 32 buffer
    else simple_error seL4_IllegalOperation.

(** ** IO page tables *)

(** [slot->cap = cap] with [capIOPTIsMapped] unset. *)
Definition performX86IOPTInvocationUnmap (cap : cap_t) (ctSlot : Z) : K exception_t :=
  deleteIOPageTable cap;;
  match cap with
  | cap_io_page_table_cap _ level addr ioasid base =>
    set_cap ctSlot (cap_io_page_table_cap false level addr ioasid base);; mret EXCEPTION_NONE
  | _ => halt_with AssertFailed
  end.

Definition performX86IOPTInvocationMapContextRoot (cap : cap_t) (ctSlot : Z) (vtd_cte : Z * Z) (vtd_context_slot : Z) :
    K exception_t :=
  vtd_cte_set vtd_context_slot vtd_cte;;
  arch_call_made (call_flushCacheRange vtd_context_slot VTD_CTE_SIZE_BITS);;
  set_cap ctSlot cap;;
  mret EXCEPTION_NONE.

Definition performX86IOPTInvocationMapPT (cap : cap_t) (ctSlot iopte ioptSlot : Z) : K exception_t :=
  vtd_pte_set ioptSlot iopte;;
  arch_call_made (call_flushCacheRange ioptSlot VTD_PTE_SIZE_BITS);;
  set_cap ctSlot cap;;
  mret EXCEPTION_NONE.

Definition decode_iopt_map (length slot : Z) (cap : cap_t) (excaps : list Z) (buffer : Z) : K exception_t :=
  if (excap excaps 0 =? 0) || (length <? 1) then simple_error seL4_TruncatedMessage
  else
    match cap with
    | cap_io_page_table_cap mapped level mappedAddress ioasid base =>
      s ← cte_at (excap excaps 0);
      a ← getSyscallArg 0 buffer;
      let io_address := Z.land a (wrap32 (Z.lnot (MASK (VTD_PT_BITS + 12)))) in
      if mapped then capability_error 0
      else
        match cte_cap s with
        | cap_io_space_cap domain_id pci_request_id =>
          if pci_request_id =? asidInvalid then capability_error 0
          else
            let paddr := addrFromPPtr base in
            vtd_context_slot ← lookup_vtd_context_slot (cte_cap s);
            cte ← word_at vtd_context_slot;
            levels ← gets (λ k, x86KSnumIOPTLevels (x86 k));
            if vtd_cte_get_present cte =? 0 then
              vtd_cte ← lift (vtd_cte_new domain_id 0 (wrap32 (levels - 2)) paddr 0 1);
              restart_current;;
              performX86IOPTInvocationMapContextRoot (cap_io_page_table_cap true 0 mappedAddress pci_request_id base)
                slot vtd_cte vtd_context_slot
            else
              lu_ret ← lookupIOPTSlot (ptrFromPAddr (vtd_cte_get_asr cte)) io_address;
              match lu_ret with
              | None => vspace_lookup_failed
              | Some (ioptSlot, remaining) =>
                w ← word_at ioptSlot;
                if negb (vtd_pte_get_addr w =? 0) then simple_error seL4_DeleteFirst
                else
                  iopte ← lift (vtd_pte_new paddr 1 1);
                  restart_current;;
                  performX86IOPTInvocationMapPT
                    (cap_io_page_table_cap true (levels - remaining) io_address pci_request_id base) slot iopte ioptSlot
              end
        | _ => capability_error 0
        end
    | _ => halt_with AssertFailed
    end.

Definition decodeX86IOPTInvocation (invLabel length slot : Z) (cap : cap_t) (excaps : list Z) (buffer : Z) : K exception_t :=
  if invLabel =? X86IOPageTableUnmap then
    restart_current;;
    performX86IOPTInvocationUnmap cap slot
  else if negb (invLabel =? X86IOPageTableMap) then simple_error seL4_IllegalOperation
  else decode_iopt_map length slot cap excaps buffer.

Definition decodeX86IOSpaceInvocation : K exception_t := simple_error seL4_IllegalOperation.

(** ** All of them *)

Definition Mode_decodeInvocation (invLabel length slot : Z) (cap : cap_t) (excaps : list Z) (buffer : Z) : K exception_t :=
  match cap with
  | cap_page_directory_cap _ _ _ _ | cap_page_table_cap _ _ _ _ | cap_frame_cap _ _ _ _ _ _ _ =>
    decodeX86MMUInvocation invLabel length slot cap excaps buffer
  | _ => capability_error 0
  end.

Definition Arch_decodeInvocation (invLabel length slot : Z) (cap : cap_t) (excaps : list Z) (buffer : Z) : K exception_t :=
  match cap with
  | cap_asid_control_cap | cap_asid_pool_cap _ _ => decodeX86MMUInvocation invLabel length slot cap excaps buffer
  | cap_io_port_cap _ _ _ => decodeX86PortInvocation invLabel length cap buffer
  | cap_io_space_cap _ _ => decodeX86IOSpaceInvocation
  | cap_io_page_table_cap _ _ _ _ _ => decodeX86IOPTInvocation invLabel length slot cap excaps buffer
  | _ => Mode_decodeInvocation invLabel length slot cap excaps buffer
  end.
