(* ===== verification/Interrupts.v ===== *)
(** Interrupt lines ([object/interrupt.c] and its architecture part): the
    capabilities to them, the notification a line signals, and the arrival of an
    interrupt.

    The legacy interrupt controller is not used in this build
    ([CONFIG_IRQ_IOAPIC]); [num_ioapics] is the number of controllers found at
    boot.  The controller's own registers are outside: writes to it are recorded
    as calls.  [resetTimer] and [handleReservedIRQ] do nothing here. *)

From S2P Require Import Prelude Messages Caps Kernel CSpace CNode Scheduler Wakeup Paging VSpace IOSpace Ipc Waiting Signals.
From S2P Require Import Cancel Transfer Endpoint Reply Retype Reset Creation Deletion Finalise Revoke Decode Threads.

(** [enum invocation_label], [enum arch_invocation_label] *)
Definition IRQIssueIRQHandler : Z := 23.
Definition IRQAckIRQ : Z := 24.
Definition IRQSetIRQHandler : Z := 25.
Definition IRQClearIRQHandler : Z := 26.
Definition X86IRQIssueIRQHandlerIOAPIC : Z := 48.
Definition X86IRQIssueIRQHandlerMSI : Z := 49.

(** [enum _irq_t] *)
Definition irq_user_min : Z := 16.
Definition irq_user_max : Z := 123.
Definition maxIRQ : Z := 125.
Definition IRQ_INT_OFFSET : Z := 32.

(** [intStateIRQTable[irq]]: the table has an entry for each line. *)
Definition irq_table (irq : Z) : K irq_state := λ k,
  match intStateIRQTable k !! irq with
  | Some st => (Done st, k)
  | None => (Halted BadPointer, k)
  end.

Definition isIRQActive (irq : Z) : K bool :=
  st ← irq_table irq;
  mret (match st with IRQInactive => false | _ => true end).

(** ** Handlers *)

Definition invokeIRQControl (irq handlerSlot controlSlot : Z) : K exception_t :=
  setIRQState IRQSignal irq;;
  cteInsert (cap_irq_handler_cap irq) controlSlot handlerSlot;;
  mret EXCEPTION_NONE.

Definition updateIRQState (irq : Z) (st : x86_irq_state) : K unit :=
  assert ((0 <=? irq) && (irq <=? maxIRQ));;
  arch_call_made (call_updateIRQState irq st).

Definition Arch_invokeIRQControl (irq handlerSlot controlSlot : Z) (irqState : x86_irq_state) : K exception_t :=
  updateIRQState irq irqState;;
  invokeIRQControl irq handlerSlot controlSlot.

(** The generated constructors assert that a field fits. *)
Definition fits (v bits : Z) : K unit := assert (Z.land v (wrap32 (Z.lnot (MASK bits))) =? 0).

Definition invokeIssueIRQHandlerIOAPIC (irq ioapic pin level polarity vector handlerSlot controlSlot : Z) : K exception_t :=
  fits ioapic 5;; fits pin 5;; fits level 1;; fits polarity 1;;
  arch_call_made (call_ioapic_map_pin_to_vector ioapic pin level polarity vector);;
  Arch_invokeIRQControl irq handlerSlot controlSlot (x86_irq_state_irq_ioapic ioapic pin level polarity 1).

Definition IOAPIC_IRQ_LINES : Z := 24.

Definition ioapic_decode_map_pin_to_vector (num_ioapics ioapic pin level polarity : Z) : K exception_t :=
  if num_ioapics <=? ioapic then range_error 0 (wrap32 (num_ioapics - 1))
  else if IOAPIC_IRQ_LINES <=? pin then range_error 0 (IOAPIC_IRQ_LINES - 1)
  else if negb (level =? 0) && negb (level =? 1) then range_error 0 1
  else if negb (polarity =? 0) && negb (polarity =? 1) then range_error 0 1
  else mret EXCEPTION_NONE.

Definition PCI_BUS_MAX : Z := 255.
Definition PCI_DEV_MAX : Z := 31.
Definition PCI_FUNC_MAX : Z := 7.

(** The two labels of [Arch_decodeIRQControlInvocation], once the line and the
    slot are known. *)
Definition issue_ioapic (num_ioapics irq destSlot srcSlot buffer : Z) : K exception_t :=
  ioapic ← getSyscallArg 2 buffer;
  pin ← getSyscallArg 3 buffer;
  level ← getSyscallArg 4 buffer;
  polarity ← getSyscallArg 5 buffer;
  active ← isIRQActive irq;
  if active : bool then simple_error seL4_RevokeFirst
  else
    status ← ioapic_decode_map_pin_to_vector num_ioapics ioapic pin level polarity;
    if decide (status ≠ EXCEPTION_NONE) then mret status
    else
      restart_current;;
      invokeIssueIRQHandlerIOAPIC irq ioapic pin level polarity (irq + IRQ_INT_OFFSET) destSlot srcSlot.

Definition issue_msi (irq destSlot srcSlot buffer : Z) : K exception_t :=
  pci_bus ← getSyscallArg 2 buffer;
  pci_dev ← getSyscallArg 3 buffer;
  pci_func ← getSyscallArg 4 buffer;
  handle ← getSyscallArg 5 buffer;
  active ← isIRQActive irq;
  if active : bool then simple_error seL4_RevokeFirst
  else if PCI_BUS_MAX <? pci_bus then range_error 0 PCI_BUS_MAX
  else if PCI_DEV_MAX <? pci_dev then range_error 0 PCI_DEV_MAX
  else if PCI_FUNC_MAX <? pci_func then range_error 0 PCI_FUNC_MAX
  else
    fits pci_bus 8;; fits pci_dev 5;; fits pci_func 3;;
    restart_current;;
    Arch_invokeIRQControl irq destSlot srcSlot (x86_irq_state_irq_msi pci_bus pci_dev pci_func handle).

Definition Arch_decodeIRQControlInvocation (num_ioapics invLabel length srcSlot : Z) (excaps : list Z) (buffer : Z) : K exception_t :=
  if (length <? 7) || (excap excaps 0 =? 0) then simple_error seL4_TruncatedMessage
  else
    index ← getSyscallArg 0 buffer;
    depth ← getSyscallArg 1 buffer;
    cnode ← cte_at (excap excaps 0);
    irq ← getSyscallArg 6 buffer;
    if irq_user_max - irq_user_min <? irq then range_error 0 (irq_user_max - irq_user_min)
    else
      let irq := irq + irq_user_min in
      lu_ret ← lookupTargetSlot (cte_cap cnode) index depth;
      if decide (slot_status lu_ret ≠ EXCEPTION_NONE) then mret (slot_status lu_ret)
      else
        let destSlot := slot_slot lu_ret in
        status ← ensureEmptySlot destSlot;
        if decide (status ≠ EXCEPTION_NONE) then mret status
        else if invLabel =? X86IRQIssueIRQHandlerIOAPIC then issue_ioapic num_ioapics irq destSlot srcSlot buffer
        else if invLabel =? X86IRQIssueIRQHandlerMSI then issue_msi irq destSlot srcSlot buffer
        else simple_error seL4_IllegalOperation.

(** Without the legacy controller no line has a handler of this kind. *)
Definition Arch_checkIRQ (irq : Z) : K exception_t := simple_error seL4_IllegalOperation.

Definition decodeIRQControlInvocation (num_ioapics invLabel length srcSlot : Z) (excaps : list Z) (buffer : Z) : K exception_t :=
  if invLabel =? IRQIssueIRQHandler then
    if (length <? 3) || (excap excaps 0 =? 0) then simple_error seL4_TruncatedMessage
    else
      irq ← getSyscallArg 0 buffer;
      index ← getSyscallArg 1 buffer;
      depth ← getSyscallArg 2 buffer;
      cnode ← cte_at (excap excaps 0);
      status ← Arch_checkIRQ irq;
      if decide (status ≠ EXCEPTION_NONE) then mret status
      else
        active ← isIRQActive irq;
        if active : bool then simple_error seL4_RevokeFirst
        else
          lu_ret ← lookupTargetSlot (cte_cap cnode) index depth;
          if decide (slot_status lu_ret ≠ EXCEPTION_NONE) then mret (slot_status lu_ret)
          else
            let destSlot := slot_slot lu_ret in
            status ← ensureEmptySlot destSlot;
            if decide (status ≠ EXCEPTION_NONE) then mret status
            else
              restart_current;;
              invokeIRQControl irq destSlot srcSlot
  else Arch_decodeIRQControlInvocation num_ioapics invLabel length srcSlot excaps buffer.

Definition invokeIRQHandler_AckIRQ (irq : Z) : K unit := maskInterrupt false irq.

Definition invokeIRQHandler_SetIRQHandler (irq : Z) (cap : cap_t) (slot : Z) : K unit :=
  base ← gets intStateIRQNode;
  let irqSlot := cte_index base irq in
  cteDeleteOne irqSlot;;
  cteInsert cap slot irqSlot.

Definition invokeIRQHandler_ClearIRQHandler (irq : Z) : K unit :=
  base ← gets intStateIRQNode;
  cteDeleteOne (cte_index base irq).

Definition decodeIRQHandlerInvocation (invLabel irq : Z) (excaps : list Z) : K exception_t :=
  if invLabel =? IRQAckIRQ then
    restart_current;;
    invokeIRQHandler_AckIRQ irq;;
    mret EXCEPTION_NONE
  else if invLabel =? IRQSetIRQHandler then
    let slot := excap excaps 0 in
    if slot =? 0 then simple_error seL4_TruncatedMessage
    else
      s ← cte_at slot;
      match cte_cap s with
      | cap_notification_cap _ _ canSend _ =>
        if negb canSend then capability_error 0
        else
          restart_current;;
          invokeIRQHandler_SetIRQHandler irq (cte_cap s) slot;;
          mret EXCEPTION_NONE
      | _ => capability_error 0
      end
  else if invLabel =? IRQClearIRQHandler then
    restart_current;;
    invokeIRQHandler_ClearIRQHandler irq;;
    mret EXCEPTION_NONE
  else simple_error seL4_IllegalOperation.

(** ** The arrival of an interrupt *)

(** [irq] is compared as [irq_t], which has a negative value. *)
Definition handleInterrupt (irq : Z) : K unit :=
  if maxIRQ <? irq then maskInterrupt true irq;; arch_call_made (call_ackInterrupt irq)
  else
    st ← irq_table irq;
    match st with
    | IRQSignal =>
      base ← gets intStateIRQNode;
      s ← cte_at (cte_index base irq);
      match cte_cap s with
      | cap_notification_cap badge _ canSend ntfn => when canSend (sendSignal ntfn badge)
      | _ => mret tt
      end;;
      maskInterrupt true irq
    | IRQTimer => timerTick
    | IRQReserved => mret tt
    | IRQInactive => maskInterrupt true irq
    end;;
    arch_call_made (call_ackInterrupt irq).
