(* ===== verification/Syscall.v ===== *)
(** System calls ([api/syscall.c], [object/objecttype.c] and the C part of the
    kernel entry in [arch/x86/c_traps.c]): from the registers of the running
    thread to the invocation and back.

    [io] and [num_ioapics] describe the hardware; [active] is the number the
    interrupt controller reports when [getActiveIRQ] asks it. *)

From S2P Require Import Prelude Messages Caps Kernel CSpace CNode Scheduler Wakeup Paging VSpace IOSpace Ipc Waiting Signals.
From S2P Require Import Cancel Transfer Endpoint Reply Retype Reset Creation Deletion Finalise Revoke Decode.
From S2P Require Import Threads Mmu Devices Interrupts.
Import MessageInfo.

(** [capRegister] and [badgeRegister] are both [EBX]. *)
Definition capRegister : Z := badgeRegister.

(** [enum syscall] *)
Definition SysCall : Z := -1.
Definition SysReplyRecv : Z := -2.
Definition SysSend : Z := -3.
Definition SysNBSend : Z := -4.
Definition SysRecv : Z := -5.
Definition SysReply : Z := -6.
Definition SysYield : Z := -7.
Definition SysNBRecv : Z := -8.
Definition SysDebugPutChar : Z := -9.
Definition SysDebugDumpScheduler : Z := -10.
Definition SysDebugHalt : Z := -11.
Definition SysDebugCapIdentify : Z := -12.
Definition SysDebugSnapshot : Z := -13.
Definition SysDebugNameThread : Z := -14.

(** [current_fault = seL4_Fault_CapFault_new(cptr, inReceivePhase); handleFault(thread)] *)
Definition cap_fault (cptr : Z) (inReceivePhase : bool) : K unit :=
  modify (λ k, k <| current_fault := seL4_Fault_CapFault cptr inReceivePhase |>).

(** ** Invocations *)

Definition performInvocation_Endpoint (ep badge : Z) (canGrant block call : bool) : K exception_t :=
  t ← cur;
  sendIPC block call badge canGrant t ep;;
  mret EXCEPTION_NONE.

Definition performInvocation_Notification (ntfn badge : Z) : K exception_t :=
  sendSignal ntfn badge;;
  mret EXCEPTION_NONE.

Definition performInvocation_Reply (thread slot : Z) : K exception_t :=
  t ← cur;
  doReplyTransfer t thread slot;;
  mret EXCEPTION_NONE.

Section hardware.
Context (io : io_domains) (num_ioapics : Z).

Definition decodeInvocation (invLabel length capIndex slot : Z) (cap : cap_t) (excaps : list Z) (block call : bool)
    (buffer : Z) : K exception_t :=
  if isArchCap cap then Arch_decodeInvocation invLabel length slot cap excaps buffer
  else
    match cap with
    | cap_null_cap | cap_zombie_cap _ _ => capability_error 0
    | cap_endpoint_cap badge canGrant canSend _ ep =>
      if negb canSend then capability_error 0
      else
        restart_current;;
        performInvocation_Endpoint ep badge canGrant block call
    | cap_notification_cap badge _ canSend ntfn =>
      if negb canSend then capability_error 0
      else
        restart_current;;
        performInvocation_Notification ntfn badge
    | cap_reply_cap master t =>
      if master then capability_error 0
      else
        restart_current;;
        performInvocation_Reply t slot
    | cap_thread_cap _ => decodeTCBInvocation io invLabel length cap slot excaps call buffer
    | cap_domain_cap => decodeDomainInvocation invLabel length excaps buffer
    | cap_cnode_cap _ _ _ _ => decodeCNodeInvocation io invLabel length cap excaps buffer
    | cap_untyped_cap _ _ _ _ => decodeUntypedInvocation invLabel length slot cap excaps buffer
    | cap_irq_control_cap => decodeIRQControlInvocation num_ioapics invLabel length slot excaps buffer
    | cap_irq_handler_cap irq => decodeIRQHandlerInvocation invLabel irq excaps
    | _ => halt_with AssertFailed
    end.

Definition handleInvocation (isCall isBlocking : bool) : K exception_t :=
  thread ← cur;
  w ← getRegister thread msgInfoRegister;
  info ← lift (messageInfoFromWord w);
  cptr ← getRegister thread capRegister;
  lu_ret ← lookupCapAndSlot thread cptr;
  if decide (cas_status lu_ret ≠ EXCEPTION_NONE) then
    cap_fault cptr false;;
    when isBlocking (handleFault thread);;
    mret EXCEPTION_NONE
  else
    buffer ← lookupIPCBuffer false thread;
    status ← lookupExtraCaps thread buffer info;
    if decide (status ≠ EXCEPTION_NONE) then
      when isBlocking (handleFault thread);;
      mret EXCEPTION_NONE
    else
      let length := seL4_MessageInfo_get_length info in
      let length := if (n_msgRegisters <? length) && (buffer =? 0) then n_msgRegisters else length in
      excaps ← gets current_extra_caps;
      status ← decodeInvocation (seL4_MessageInfo_get_label info) length cptr (cas_slot lu_ret) (cas_cap lu_ret)
                 excaps isBlocking isCall buffer;
      if decide (status = EXCEPTION_PREEMPTED) then mret status
      else if decide (status = EXCEPTION_SYSCALL_ERROR) then
        when isCall (replyFromKernel_error thread);;
        mret EXCEPTION_NONE
      else
        c ← tcb_at thread;
        when (bool_decide (tsType c = ThreadState_Restart))
          (when isCall (replyFromKernel_success_empty thread);;
           setThreadState thread ThreadState_Running);;
        mret EXCEPTION_NONE.

(** ** Replies, receives, yields *)

Definition handleReply : K unit :=
  t ← cur;
  let callerSlot := TCB_PTR_CTE_PTR t tcbCaller in
  s ← cte_at callerSlot;
  match cte_cap s with
  | cap_reply_cap master caller =>
    if master then halt_with AssertFailed
    else
      assert (negb (caller =? t));;
      doReplyTransfer t caller callerSlot
  | cap_null_cap => mret tt
  | _ => halt_with AssertFailed
  end.

(** The capability cannot be received from. *)
Definition no_receive (t epCPtr : Z) : K unit :=
  set_lookup_fault (lookup_fault_missing_capability 0);;
  cap_fault epCPtr true;;
  handleFault t.

Definition handleRecv (isBlocking : bool) : K unit :=
  t ← cur;
  epCPtr ← getRegister t capRegister;
  lu_ret ← lookupCap t epCPtr;
  if decide (cap_status lu_ret ≠ EXCEPTION_NONE) then cap_fault epCPtr true;; handleFault t
  else
    match cap_cap lu_ret with
    | cap_endpoint_cap _ _ _ canReceive _ =>
      if negb canReceive then no_receive t epCPtr
      else
        deleteCallerCap t;;
        receiveIPC t (cap_cap lu_ret) isBlocking
    | cap_notification_cap _ canReceive _ ntfnPtr =>
      x ← ntfn_at ntfnPtr;
      let boundTCB := ntfnBoundTCB x in
      if negb canReceive || (negb (boundTCB =? 0) && negb (boundTCB =? t)) then no_receive t epCPtr
      else receiveSignal t (cap_cap lu_ret) isBlocking
    | _ => no_receive t epCPtr
    end.

Definition handleYield : K unit :=
  t ← cur;
  tcbSchedDequeue t;;
  tcbSchedAppend t;;
  rescheduleRequired.

(** ** Entry *)

(** A preempted invocation: the interrupt that preempted it is handled. *)
Definition handle_active (active : Z) : K unit :=
  when (negb (active =? irqInvalid)) (handleInterrupt active).

Definition invocation_syscall (active : Z) (isCall isBlocking : bool) : K unit :=
  ret ← handleInvocation isCall isBlocking;
  when (bool_decide (ret ≠ EXCEPTION_NONE)) (handle_active active).

Definition handleSyscall (active syscall : Z) : K exception_t :=
  (if syscall =? SysSend then invocation_syscall active false true
   else if syscall =? SysNBSend then invocation_syscall active false false
   else if syscall =? SysCall then invocation_syscall active true true
   else if syscall =? SysRecv then handleRecv true
   else if syscall =? SysReply then handleReply
   else if syscall =? SysReplyRecv then handleReply;; handleRecv true
   else if syscall =? SysNBRecv then handleRecv false
   else if syscall =? SysYield then handleYield
   else halt_with AssertFailed);;
  schedule;;
  activateThread;;
  mret EXCEPTION_NONE.

Definition handleInterruptEntry (active : Z) : K exception_t :=
  handle_active active;;
  schedule;;
  activateThread;;
  mret EXCEPTION_NONE.

Definition handleUserLevelFault (w_a w_b : Z) : K exception_t :=
  t ← cur;
  modify (λ k, k <| current_fault := seL4_Fault_UserException w_a w_b |>);;
  handleFault t;;
  schedule;;
  activateThread;;
  mret EXCEPTION_NONE.

(** *** Calls that are none

    The answer is [do_get_start_stamp] after the call.  The debugging calls print,
    but for [SysDebugHalt], which asks for a time stamp, [SysDebugCapIdentify],
    which answers with the tag of a capability, and [SysDebugNameThread], which
    checks its argument (the name itself is not part of the state). *)

Definition cap_tag (cap : cap_t) : Z :=
  match cap with
  | cap_null_cap => 0
  | cap_untyped_cap _ _ _ _ => 2
  | cap_endpoint_cap _ _ _ _ _ => 4
  | cap_notification_cap _ _ _ _ => 6
  | cap_reply_cap _ _ => 8
  | cap_cnode_cap _ _ _ _ => 10
  | cap_thread_cap _ => 12
  | cap_frame_cap _ _ _ _ _ _ _ => 1
  | cap_page_table_cap _ _ _ _ => 3
  | cap_page_directory_cap _ _ _ _ => 5
  | cap_asid_control_cap => 9
  | cap_asid_pool_cap _ _ => 11
  | cap_io_space_cap _ _ => 13
  | cap_irq_control_cap => 14
  | cap_irq_handler_cap _ => 30
  | cap_zombie_cap _ _ => 46
  | cap_domain_cap => 62
  | cap_io_page_table_cap _ _ _ _ _ => 15
  | cap_io_port_cap _ _ _ => 31
  end.

(** [name_ok] says whether the name in the IPC buffer ends in time. *)
Definition handleUnknownSyscall (stamp : bool) (name_ok : Z → bool) (w : Z) : K bool :=
  t ← cur;
  if (w =? SysDebugPutChar) || (w =? SysDebugDumpScheduler) || (w =? SysDebugSnapshot) then mret stamp
  else if w =? SysDebugHalt then mret true
  else if w =? SysDebugCapIdentify then
    cptr ← getRegister t capRegister;
    lu_ret ← lookupCapAndSlot t cptr;
    setRegister t capRegister (cap_tag (cas_cap lu_ret));;
    mret stamp
  else if w =? SysDebugNameThread then
    cptr ← getRegister t capRegister;
    lu_ret ← lookupCapAndSlot t cptr;
    (if negb (cap_tag (cas_cap lu_ret) =? 12) then halt_with Fatal else mret tt);;
    buffer ← lookupIPCBuffer true t;
    let name := buf_index buffer 1 in
    (if name =? 0 then halt_with Fatal else mret tt);;
    (if negb (name_ok name) then halt_with Fatal else mret tt);;
    mret stamp
  else
    modify (λ k, k <| current_fault := seL4_Fault_UnknownSyscall (wrap32 w) |>);;
    handleFault t;;
    schedule;;
    activateThread;;
    mret stamp.

(** The part of [restore_user_context] this repository has added: the time stamps
    of the entry and the exit go to message registers 3 to 6. *)
Definition write_stamps (stamp : bool) (sysenter_end_stamp start_stamp : Z) : K unit :=
  t ← cur;
  ipcBuffer ← lookupIPCBuffer false t;
  when stamp
    (setMR t ipcBuffer 3 (Z.land (Z.shiftr sysenter_end_stamp 32) 4294967295);;
     setMR t ipcBuffer 4 (Z.land sysenter_end_stamp 4294967295);;
     setMR t ipcBuffer 5 (Z.land (Z.shiftr start_stamp 32) 4294967295);;
     setMR t ipcBuffer 6 (Z.land start_stamp 4294967295);;
     mret tt).

Definition SYSCALL_MIN : Z := -8.
Definition SYSCALL_MAX : Z := -1.

(** [slowpath], up to the return to user level. *)
Definition slowpath (stamp : bool) (name_ok : Z → bool) (active syscall : Z) : K bool :=
  if (syscall <? SYSCALL_MIN) || (SYSCALL_MAX <? syscall) then handleUnknownSyscall stamp name_ok syscall
  else handleSyscall active syscall;; mret stamp.

End hardware.
