(* ===== verification/Rejection.v ===== *)
(** A rejected invocation leaves no trace: every decoder of [decodeInvocation]
    looks at the state until nothing can be refused any more, and only then acts. *)

From S2P Require Import Prelude Messages Caps Kernel CSpace CNode Scheduler Wakeup Paging VSpace IOSpace Ipc Waiting Signals.
From S2P Require Import Cancel Transfer Endpoint Reply Retype Reset Creation Deletion Finalise Revoke Decode.
From S2P Require Import Threads Mmu Devices Interrupts Syscall.
Import MessageInfo.

(** ** Threads *)

Lemma looks_ntfn_at n : looks (ntfn_at n).
Proof. intros k. unfold wlp, ntfn_at. destruct (ntfns k !! n); [apply unchanged_refl|done]. Qed.
Lemma looks_cur : looks cur.
Proof. apply looks_gets. Qed.
Lemma looks_capability_error n : looks (capability_error n).
Proof. unfold capability_error. steps. Qed.
Lemma looks_range_error a b : looks (range_error a b).
Proof. unfold range_error. steps. Qed.
Lemma looks_argument_error a : looks (argument_error a).
Proof. unfold argument_error. steps. Qed.
#[export] Hint Resolve looks_ntfn_at looks_cur looks_capability_error looks_range_error looks_argument_error : invocation.

Lemma looks_checkPrio p : looks (checkPrio p).
Proof. unfold checkPrio. steps. Qed.
Lemma looks_checkValidIPCBuffer v c : looks (checkValidIPCBuffer v c).
Proof. unfold checkValidIPCBuffer. steps. Qed.
#[export] Hint Resolve looks_checkPrio looks_checkValidIPCBuffer : invocation.

Lemma looks_new_buffer a s : looks (new_buffer a s).
Proof. unfold new_buffer. steps. Qed.
Lemma looks_new_root io s c d v : looks (new_root io s c d v).
Proof. unfold new_root. steps. Qed.
Lemma looks_isFinalCapability s : looks (isFinalCapability s).
Proof. unfold isFinalCapability. steps. Qed.
#[export] Hint Resolve looks_new_buffer looks_new_root looks_isFinalCapability : invocation.

Lemma looks_roots_deleting t : looks (roots_deleting t).
Proof. unfold roots_deleting, slotCapLongRunningDelete. steps. Qed.
#[export] Hint Resolve looks_roots_deleting : invocation.

Lemma atomic_or_return {A} (m : K (exception_t + A)) f : looks m → (∀ a, atomic (f a)) → atomic (or_return m f).
Proof. intros Hm Hf. unfold or_return. apply atomic_bind; [done|]. intros [st|a]; [apply atomic_looks, looks_ret|apply Hf]. Qed.

(** *** Operations report no error *)

Lemma performs_update_root t s w c src : performs (update_root t s w c src).
Proof.
  unfold update_root, delete_slot. apply performs_status; [apply performs_bind; intros ?; apply deletion_performs|].
  intros st Hst. case_decide; [by apply performs_ret|]. do 2 (apply performs_bind; intros ?). by apply performs_ret.
Qed.
Lemma performs_update_buffer t s a c src : performs (update_buffer t s a c src).
Proof.
  unfold update_buffer, delete_slot. apply performs_status; [apply performs_bind; intros ?; apply deletion_performs|].
  intros st Hst. case_decide; [by apply performs_ret|]. do 3 (apply performs_bind; intros ?). by apply performs_ret.
Qed.

Lemma performs_ThreadControl t s f m p c cs v vs a b bs u : performs (invokeTCB_ThreadControl t s f m p c cs v vs a b bs u).
Proof.
  unfold invokeTCB_ThreadControl. do 3 (apply performs_bind; intros ?).
  apply performs_status; [case_match; [apply performs_update_root|by apply performs_ret]|]. intros st Hst.
  case_decide; [by apply performs_ret|].
  apply performs_status; [case_match; [apply performs_update_root|by apply performs_ret]|]. intros st' Hst'.
  case_decide; [by apply performs_ret|]. case_match; [apply performs_update_buffer|by apply performs_ret].
Qed.

Lemma performs_registers d s a b c e n m :
  performs (invokeTCB_CopyRegisters d s a b c e) ∧ performs (invokeTCB_ReadRegisters s a n b) ∧
  performs (invokeTCB_WriteRegisters d a n m) ∧ performs (invokeTCB_NotificationControl d n) ∧
  performs (invokeTCB_Suspend d) ∧ performs (invokeTCB_Resume d).
Proof.
  unfold invokeTCB_CopyRegisters, invokeTCB_ReadRegisters, invokeTCB_WriteRegisters, invokeTCB_NotificationControl,
    invokeTCB_Suspend, invokeTCB_Resume. split_and!; auto 10 with invocation.
Qed.
#[export] Hint Resolve performs_ThreadControl : invocation.
#[export] Hint Extern 1 (performs (invokeTCB_CopyRegisters _ _ _ _ _ _)) => apply (performs_registers _ _ _ _ _ _ 0 0) : invocation.
#[export] Hint Extern 1 (performs (invokeTCB_ReadRegisters _ _ _ _)) => apply (performs_registers 0 _ _ _ false false _ 0) : invocation.
#[export] Hint Extern 1 (performs (invokeTCB_WriteRegisters _ _ _ _)) => apply (performs_registers _ 0 _ false false false _ _) : invocation.
#[export] Hint Extern 1 (performs (invokeTCB_NotificationControl _ _)) => apply (performs_registers _ 0 false false false false _ 0) : invocation.
#[export] Hint Extern 1 (performs (invokeTCB_Suspend _)) => apply (performs_registers _ 0 false false false false 0 0) : invocation.
#[export] Hint Extern 1 (performs (invokeTCB_Resume _)) => apply (performs_registers _ 0 false false false false 0 0) : invocation.

(** Takes a decoder with early returns apart. *)
Ltac decode := repeat (steps; try (apply atomic_or_return; [solve [auto with invocation]|intros ?])).

Lemma decodeTCB_atomic io l n c s ex call b : atomic (decodeTCBInvocation io l n c s ex call b).
Proof.
  unfold decodeTCBInvocation, decodeReadRegisters, decodeWriteRegisters, decodeCopyRegisters, decodeTCBConfigure, decodeSetPriority,
    decodeSetMCPriority, decodeSetIPCBuffer, decodeSetSpace, decodeBindNotification, decodeUnbindNotification.
  decode.
Qed.

Lemma decodeDomain_atomic l n ex b : atomic (decodeDomainInvocation l n ex b).
Proof. unfold decodeDomainInvocation. decode. Qed.

(** ** Interrupts *)

Lemma looks_isIRQActive i : looks (isIRQActive i).
Proof.
  unfold isIRQActive. apply looks_bind; [|intros ?; apply looks_ret]. intros k. unfold wlp, irq_table.
  destruct (intStateIRQTable k !! i); [apply unchanged_refl|done].
Qed.
Lemma looks_ioapic_decode n i p l q : looks (ioapic_decode_map_pin_to_vector n i p l q).
Proof. unfold ioapic_decode_map_pin_to_vector. steps. Qed.
Lemma looks_fits v b : looks (fits v b).
Proof. apply looks_assert. Qed.
#[export] Hint Resolve looks_isIRQActive looks_ioapic_decode looks_fits : invocation.

Lemma performs_irq i h c a p l q v st : performs (invokeIRQControl i h c) ∧ performs (Arch_invokeIRQControl i h c st) ∧
  performs (invokeIssueIRQHandlerIOAPIC i a p l q v h c).
Proof.
  unfold invokeIssueIRQHandlerIOAPIC, Arch_invokeIRQControl, invokeIRQControl. split_and!; auto 15 with invocation.
Qed.
#[export] Hint Extern 1 (performs (invokeIRQControl _ _ _)) => apply (performs_irq _ _ _ 0 0 0 0 0 x86_irq_state_irq_free) : invocation.
#[export] Hint Extern 1 (performs (Arch_invokeIRQControl _ _ _ _)) => apply (performs_irq _ _ _ 0 0 0 0 0 _) : invocation.
#[export] Hint Extern 1 (performs (invokeIssueIRQHandlerIOAPIC _ _ _ _ _ _ _ _)) =>
  apply (performs_irq _ _ _ _ _ _ _ _ x86_irq_state_irq_free) : invocation.

Lemma decodeIRQControl_atomic nio l n s ex b : atomic (decodeIRQControlInvocation nio l n s ex b).
Proof.
  unfold decodeIRQControlInvocation, Arch_decodeIRQControlInvocation, issue_ioapic, issue_msi, lookupTargetSlot, Arch_checkIRQ. decode.
Qed.

Lemma decodeIRQHandler_atomic l i ex : atomic (decodeIRQHandlerInvocation l i ex).
Proof. unfold decodeIRQHandlerInvocation. decode. Qed.

(** ** Address spaces and devices *)

Lemma looks_word_at a : looks (word_at a).
Proof. apply looks_gets. Qed.
Lemma looks_asid_table_at i : looks (asid_table_at i).
Proof. intros k. unfold wlp, asid_table_at. destruct (x86KSASIDTable (x86 k) !! Z.to_nat i); [apply unchanged_refl|done]. Qed.
Lemma looks_vspace_lookup_failed : looks vspace_lookup_failed.
Proof. unfold vspace_lookup_failed. steps. Qed.
#[export] Hint Resolve looks_word_at looks_asid_table_at looks_vspace_lookup_failed : invocation.

Lemma looks_findVSpaceForASID a : looks (findVSpaceForASID a).
Proof. unfold findVSpaceForASID, findMapForASID. steps. Qed.
#[export] Hint Resolve looks_findVSpaceForASID : invocation.
Lemma looks_valid_vspace v a : looks (valid_vspace v a).
Proof. unfold valid_vspace. steps. Qed.
Lemma looks_lookupPTSlot v a : looks (lookupPTSlot v a).
Proof. unfold lookupPTSlot. steps. Qed.
Lemma looks_context c : looks (lookup_vtd_context_slot c).
Proof. unfold lookup_vtd_context_slot. steps. Qed.
Lemma looks_resolve_levels n : ∀ i t l, looks (lookupIOPTSlot_resolve_levels i t l n).
Proof. induction n as [|n IH]; intros i t l; cbn [lookupIOPTSlot_resolve_levels]; steps. Qed.
Lemma looks_lookupIOPTSlot i a : looks (lookupIOPTSlot i a).
Proof. unfold lookupIOPTSlot. pose proof looks_resolve_levels. steps. Qed.
Lemma looks_first_free_asid n : ∀ b p i, looks (first_free_asid n b p i).
Proof. induction n as [|n IH]; intros b p i; cbn [first_free_asid]; steps. Qed.
Lemma looks_ensurePort c p n : looks (ensurePortOperationAllowed c p n).
Proof. unfold ensurePortOperationAllowed. steps. Qed.
#[export] Hint Resolve looks_valid_vspace looks_lookupPTSlot looks_context looks_lookupIOPTSlot looks_first_free_asid looks_ensurePort : invocation.

(** The operations report no error. *)
Ltac acts := repeat first
  [ progress (apply performs_bind; intros ?) | case_match | apply performs_halt | apply performs_ret; discriminate ].
Ltac perform :=
  match goal with |- performs ?m =>
    first
      [ progress unfold performX86PageInvocationMapPTE, performX86PageInvocationMapPDE, performX86PageInvocationRemapPTE,
          performX86PageInvocationRemapPDE, performX86PageInvocationUnmap, performPageGetAddress, performX86IOInvocationMap,
          performX86IOUnMapInvocation
      | progress unfold performX86PageTableInvocationUnmap, performX86PageTableInvocationMap, performASIDControlInvocation,
          performASIDPoolInvocation, performIA32PageDirectoryGetStatusBits
      | progress unfold port_reply, performX86IOPTInvocationUnmap, performX86IOPTInvocationMapContextRoot,
          performX86IOPTInvocationMapPT
      | idtac ];
    solve [acts]
  end.
Ltac decode_arch := decode; apply atomic_performs; repeat (apply performs_bind; intros ?); perform.

Lemma decodeFrame_atomic l n s c ex b : atomic (decodeX86FrameInvocation l n s c ex b).
Proof.
  unfold decodeX86FrameInvocation, decode_page_map, decode_page_remap, decode_page_unmap, decodeX86IOMapInvocation, map_frame, remap_frame,
    decode_io_map_slot, decodeX86ModeMapRemapPage. decode_arch.
Qed.
Lemma decodePageTable_atomic l n s c ex b : atomic (decodeX86PageTableInvocation l n s c ex b).
Proof. unfold decodeX86PageTableInvocation, decode_page_table_map. decode_arch. Qed.
Lemma decodePageDirectory_atomic l n c b : atomic (decodeIA32PageDirectoryInvocation l n c b).
Proof. unfold decodeIA32PageDirectoryInvocation. decode_arch. Qed.
Lemma decodeMMU_atomic l n s c ex b : atomic (decodeX86MMUInvocation l n s c ex b).
Proof.
  pose proof decodeFrame_atomic. pose proof decodePageTable_atomic. pose proof decodePageDirectory_atomic.
  unfold decodeX86MMUInvocation, decodeX86ModeMMUInvocation, decode_make_pool, decode_pool_assign, lookupTargetSlot. decode_arch.
Qed.
Lemma decodePort_atomic l n c b : atomic (decodeX86PortInvocation l n c b).
Proof. unfold decodeX86PortInvocation, port_read, port_write. decode_arch. Qed.
Lemma decodeIOPT_atomic l n s c ex b : atomic (decodeX86IOPTInvocation l n s c ex b).
Proof. unfold decodeX86IOPTInvocation, decode_iopt_map. decode_arch. Qed.

Lemma decodeArch_atomic l n s c ex b : atomic (Arch_decodeInvocation l n s c ex b).
Proof.
  pose proof decodeMMU_atomic. pose proof decodePort_atomic. pose proof decodeIOPT_atomic.
  unfold Arch_decodeInvocation, Mode_decodeInvocation, decodeX86IOSpaceInvocation. decode_arch.
Qed.

(** ** All of them *)

#[export] Hint Resolve decodeTCB_atomic decodeDomain_atomic decodeIRQControl_atomic decodeIRQHandler_atomic decodeCNode_atomic
  decodeUntyped_atomic : invocation.

Lemma decodeInvocation_atomic io nio l n i s c ex bl call b :
  atomic (decodeInvocation io nio l n i s c ex bl call b).
Proof.
  unfold decodeInvocation, performInvocation_Endpoint, performInvocation_Notification, performInvocation_Reply.
  destruct (isArchCap c); [apply decodeArch_atomic|]. decode.
Qed.

(** C19: a rejected invocation leaves no trace: whatever the capability, the
    message and the state, when the invocation is answered with a system call error,
    the state differs from the one before at most in the error report and the lookup
    fault it is answered with; no slot, object, thread, queue, page table or
    interrupt line has been touched, no port read or written, and in particular no
    part of the operation has been carried out. *)
Theorem rejected_invocation_unchanged io num_ioapics invLabel length capIndex slot cap excaps block call buffer k k' :
  decodeInvocation io num_ioapics invLabel length capIndex slot cap excaps block call buffer k = (Done EXCEPTION_SYSCALL_ERROR, k') →
  unchanged k k'.
Proof.
  intros E. pose proof (decodeInvocation_atomic io num_ioapics invLabel length capIndex slot cap excaps block call buffer k) as H.
  unfold wlp in H. rewrite E in H. by apply H.
Qed.

(** Moving the inner CNode's capability of [nest_ks] onto the slot of the outer
    one: the destination is not empty. *)
Definition nest_root : cap_t := cap_cnode_cap 1 0 0 8192.
Definition nest_call : ks :=
  nest_ks <| tcbs ::= <[16 := demo_tcb ThreadState_Running 100 <| registers := {[ 5 := 0; 6 := 1 ]} |>]> |>.
Definition rejected_state : ks :=
  nest_call <| current_syscall_error ::= λ e, e <| error_type := seL4_DeleteFirst |> |>.

Lemma rejected_invocation_unchanged_witness :
  decodeInvocation (mk_io 0 0) 1 CNodeMove 4 0 0 nest_root [4096; 0; 0] true true 512 nest_call =
    (Done EXCEPTION_SYSCALL_ERROR, rejected_state) ∧ unchanged nest_call rejected_state.
Proof.
  assert (E : decodeInvocation (mk_io 0 0) 1 CNodeMove 4 0 0 nest_root [4096; 0; 0] true true 512
    nest_call = (Done EXCEPTION_SYSCALL_ERROR, rejected_state)) by (vm_compute; reflexivity).
  split; [exact E|].
  exact (rejected_invocation_unchanged (mk_io 0 0) 1 CNodeMove 4 0 0 nest_root [4096; 0; 0]
    true true 512 nest_call rejected_state E).
Defined.
