(* ===== verification/Fastpath.v ===== *)
(** The fast path ([fastpath/fastpath.c], [fastpath/fastpath.h]): a call or a
    reply-and-receive between two threads, when nothing else has to happen.

    [fastpath_call] and [fastpath_reply_recv] answer false where the code jumps to
    [slowpath], before anything has been written.  The registers of the running
    thread are those the processor will have at user level: [fastpath_restore] puts
    the badge and the message tag there.  The switch of the page directory is left
    out, as in [Scheduler]. *)

From S2P Require Import Prelude Messages Caps Kernel CSpace CNode Scheduler Wakeup Paging VSpace IOSpace Ipc Waiting Signals.
From S2P Require Import Cancel Transfer Endpoint Reply Retype Reset Creation Deletion Finalise Revoke Decode.
From S2P Require Import Threads Mmu Devices Interrupts Syscall.
Import MessageInfo.

(** ** The code *)

Definition fastpath_mi_check (msgInfo : Z) : bool := 2 <? Z.land msgInfo (MASK 9).

(** The loop of [lookup_fp]; [cap] is a CNode.  With a radix of 0 the C code would
    shift by the width of a word, which is undefined; a round consumes at least the
    radix, so that there are at most 32. *)
Fixpoint lookup_fp_loop (fuel : nat) (cap : cap_t) (cptr bits : Z) : K cap_t :=
  match fuel with
  | O => halt_with OutOfFuel
  | S fuel' =>
    match cap with
    | cap_cnode_cap radixBits guardBits capGuard ptr =>
      assert (0 <? radixBits);;
      let cptr2 := wrap32 (Z.shiftl cptr bits) in
      if negb (guardBits =? 0) && negb (Z.shiftr cptr2 (wordBits - guardBits) =? capGuard) then mret cap_null_cap
      else
        let radix := Z.shiftr (wrap32 (Z.shiftl cptr2 guardBits)) (wordBits - radixBits) in
        s ← cte_at (cte_index ptr radix);
        let bits := bits + (guardBits + radixBits) in
        if (bits <? wordBits) && is_cnode (cte_cap s) then lookup_fp_loop fuel' (cte_cap s) cptr bits
        else if wordBits <? bits then mret cap_null_cap
        else mret (cte_cap s)
    | _ => halt_with AssertFailed
    end
  end.

Definition lookup_fp (cap : cap_t) (cptr : Z) : K cap_t :=
  if negb (is_cnode cap) then mret cap_null_cap else lookup_fp_loop (Z.to_nat wordBits) cap cptr 0.

Definition EDI : Z := 5.
Definition EBP : Z := 6.

Definition fastpath_copy_mrs (length src dest : Z) : K unit :=
  when (length =? 2) (copy_register src dest EBP);;
  when ((length =? 2) || (length =? 1)) (copy_register src dest EDI).

(** [thread_state_ptr_set_tsType_np]: the whole word is written, so that the
    object the thread waited for is forgotten; [thread_state_ptr_set_tsType], which
    the slow path uses, keeps it. *)
Definition set_tsType_np (ts : thread_state) (c : tcb_t) : tcb_t := c <| blockingObject := 0 |> <| tsType := ts |>.

Definition switchToThread_fp (thread : Z) : K unit := modify (λ k, k <| ksCurThread := thread |>).

Definition fastpath_restore (badge msgInfo cur_thread : Z) : K unit :=
  setRegister cur_thread badgeRegister badge;;
  setRegister cur_thread msgInfoRegister msgInfo.

(** [mdb_node_ptr_mset_mdbNext_mdbRevocable_mdbFirstBadged(&slot->cteMDBNode, next, 1, 1)] *)
Definition fastpath_mdb_next (slot next : Z) : K unit :=
  cte_set slot (λ s, s <| cteMDBNode ::= λ m, m <| mdbNext := next |> <| mdbRevocable := true |> <| mdbFirstBadged := true |> |>).

(** The checks of [fastpath_call]: the endpoint, the badge and the receiver. *)
Definition fastpath_call_checks (cptr msgInfo : Z) : K (option (Z * Z * Z)) :=
  t ← cur;
  c ← tcb_at t;
  if fastpath_mi_check msgInfo || negb (fault_type (tcbFault c) =? 0) then mret None
  else
    root ← cte_at (TCB_PTR_CTE_PTR t tcbCTable);
    ep_cap ← lookup_fp (cte_cap root) cptr;
    match ep_cap with
    | cap_endpoint_cap badge canGrant true _ ep_ptr =>
      x ← ep_at ep_ptr;
      let dest := q_head (epQueue x) in
      if decide (epState x ≠ EPState_Recv) then mret None
      else
        newVTable ← cte_at (TCB_PTR_CTE_PTR dest tcbVTable);
        if negb (isValidVTableRoot (cte_cap newVTable)) then mret None
        else
          d ← tcb_at dest;
          if tcbPriority d <? tcbPriority c then mret None
          else if negb canGrant then mret None
          else mret (Some (ep_ptr, badge, dest))
    | _ => mret None
    end.

(** After the point of no return. *)
Definition fastpath_call_commit (ep_ptr badge dest msgInfo : Z) : K unit :=
  t ← cur;
  d ← tcb_at dest;
  ep_set ep_ptr (λ x, x <| epQueue ::= λ q, q <| q_head := tcbEPNext d |> |>);;
  (if negb (tcbEPNext d =? 0) then tcb_set (tcbEPNext d) (λ c, c <| tcbEPPrev := 0 |>)
   else ep_set ep_ptr (λ x, x <| epQueue ::= λ q, q <| q_end := 0 |> |> <| epState := EPState_Idle |>));;
  tcb_set t (set_tsType_np ThreadState_BlockedOnReply);;
  let replySlot := TCB_PTR_CTE_PTR t tcbReply in
  let callerSlot := TCB_PTR_CTE_PTR dest tcbCaller in
  set_cap callerSlot (cap_reply_cap false t);;
  set_mdbPrev callerSlot replySlot;;
  fastpath_mdb_next replySlot callerSlot;;
  fastpath_copy_mrs (seL4_MessageInfo_get_length msgInfo) t dest;;
  tcb_set dest (set_tsType_np ThreadState_Running);;
  switchToThread_fp dest;;
  info ← lift (seL4_MessageInfo_set_capsUnwrapped msgInfo 0);
  fastpath_restore badge info dest.

Definition fastpath_call (cptr msgInfo : Z) : K bool :=
  r ← fastpath_call_checks cptr msgInfo;
  match r with
  | None => mret false
  | Some (ep_ptr, badge, dest) => fastpath_call_commit ep_ptr badge dest msgInfo;; mret true
  end.

(** The checks of [fastpath_reply_recv]: the endpoint and the caller. *)
Definition fastpath_reply_recv_checks (cptr msgInfo : Z) : K (option (Z * Z)) :=
  t ← cur;
  c ← tcb_at t;
  if fastpath_mi_check msgInfo || negb (fault_type (tcbFault c) =? 0) then mret None
  else
    root ← cte_at (TCB_PTR_CTE_PTR t tcbCTable);
    ep_cap ← lookup_fp (cte_cap root) cptr;
    match ep_cap with
    | cap_endpoint_cap _ _ _ true ep_ptr =>
      pending ← (if negb (tcbBoundNotification c =? 0)
                 then n ← ntfn_at (tcbBoundNotification c); mret (bool_decide (ntfnState n = NtfnState_Active))
                 else mret false);
      if pending : bool then mret None
      else
        x ← ep_at ep_ptr;
        if decide (epState x = EPState_Send) then mret None
        else
          s ← cte_at (TCB_PTR_CTE_PTR t tcbCaller);
          match cte_cap s with
          | cap_reply_cap _ caller =>
            d ← tcb_at caller;
            if negb (fault_type (tcbFault d) =? 0) then mret None
            else
              newVTable ← cte_at (TCB_PTR_CTE_PTR caller tcbVTable);
              if negb (isValidVTableRoot (cte_cap newVTable)) then mret None
              else if tcbPriority d <? tcbPriority c then mret None
              else mret (Some (ep_ptr, caller))
          | _ => mret None
          end
    | _ => mret None
    end.

Definition fastpath_reply_recv_commit (ep_ptr caller msgInfo : Z) : K unit :=
  t ← cur;
  tcb_set t (λ c, c <| blockingObject := ep_ptr |> <| tsType := ThreadState_BlockedOnReceive |>);;
  x ← ep_at ep_ptr;
  let endpointTail := q_end (epQueue x) in
  (if endpointTail =? 0 then
     tcb_set t (λ c, c <| tcbEPPrev := 0 |>);;
     tcb_set t (λ c, c <| tcbEPNext := 0 |>);;
     ep_set ep_ptr (λ x, x <| epQueue ::= λ q, q <| q_head := t |> |>);;
     ep_set ep_ptr (λ x, x <| epQueue ::= λ q, q <| q_end := t |> |> <| epState := EPState_Recv |>)
   else
     tcb_set endpointTail (λ c, c <| tcbEPNext := t |>);;
     tcb_set t (λ c, c <| tcbEPPrev := endpointTail |>);;
     tcb_set t (λ c, c <| tcbEPNext := 0 |>);;
     ep_set ep_ptr (λ x, x <| epQueue ::= λ q, q <| q_end := t |> |> <| epState := EPState_Recv |>));;
  let callerSlot := TCB_PTR_CTE_PTR t tcbCaller in
  s ← cte_at callerSlot;
  fastpath_mdb_next (mdbPrev (cteMDBNode s)) 0;;
  set_cap callerSlot cap_null_cap;;
  set_mdb callerSlot nullMDBNode;;
  fastpath_copy_mrs (seL4_MessageInfo_get_length msgInfo) t caller;;
  tcb_set caller (set_tsType_np ThreadState_Running);;
  switchToThread_fp caller;;
  info ← lift (seL4_MessageInfo_set_capsUnwrapped msgInfo 0);
  fastpath_restore 0 info caller.

Definition fastpath_reply_recv (cptr msgInfo : Z) : K bool :=
  r ← fastpath_reply_recv_checks cptr msgInfo;
  match r with
  | None => mret false
  | Some (ep_ptr, caller) => fastpath_reply_recv_commit ep_ptr caller msgInfo;; mret true
  end.

(** ** The lookup *)

Lemma shifted_bits w b s : 0 ≤ b → 0 ≤ s → b + s ≤ 32 →
  Z.shiftr (wrap32 (Z.shiftl w b)) (32 - s) = Z.shiftr w (32 - b - s) mod 2 ^ s.
Proof.
  intros Hb Hs Hbs. unfold wrap32. change word_mod with (2 ^ 32). apply Z.bits_inj'. intros i Hi.
  rewrite Z.shiftr_spec by lia. destruct (Z.lt_ge_cases i s).
  - rewrite !Z.mod_pow2_bits_low, Z.shiftl_spec, Z.shiftr_spec by lia. f_equal. lia.
  - by rewrite !Z.mod_pow2_bits_high by lia.
Qed.

Lemma wrap_shift_shift w a b : 0 ≤ a → 0 ≤ b → wrap32 (Z.shiftl (wrap32 (Z.shiftl w a)) b) = wrap32 (Z.shiftl w (a + b)).
Proof.
  intros Ha Hb. unfold wrap32. change word_mod with (2 ^ 32). apply Z.bits_inj'. intros i Hi.
  destruct (Z.lt_ge_cases i 32); [|by rewrite !Z.mod_pow2_bits_high by lia].
  rewrite !Z.mod_pow2_bits_low, !Z.shiftl_spec by lia. destruct (Z.lt_ge_cases i b).
  - rewrite !Z.testbit_neg_r by lia. done.
  - rewrite Z.mod_pow2_bits_low, Z.shiftl_spec by lia. f_equal. lia.
Qed.

Lemma shifted_index w b s : 0 ≤ s ≤ 32 → 0 ≤ Z.shiftr (wrap32 (Z.shiftl w b)) (32 - s) < 2 ^ s.
Proof.
  intros Hs. destruct (wrap32_range (Z.shiftl w b)) as [H1 H2]. rewrite Z.shiftr_div_pow2 by lia.
  assert (0 < 2 ^ (32 - s)) by (apply Z.pow_pos_nonneg; lia). split; [apply Z.div_pos; lia|].
  apply Z.div_lt_upper_bound; [lia|]. rewrite <- Z.pow_add_r by lia. by replace (32 - s + s) with 32 by lia.
Qed.

(** The capability at the end of a walk. *)
Definition walk_cap (k : ks) (w : walk) : cap_t :=
  match w with
  | At slot _ => match ctes k !! slot with Some s => cte_cap s | None => cap_null_cap end
  | Stop _ => cap_null_cap
  end.

(** CNodes have at least two slots. *)
Definition radix_pos (c : cap_t) : Prop := match c with cap_cnode_cap radix _ _ _ => 0 < radix | _ => True end.
Definition cnodes_pos (k : ks) : Prop := map_Forall (λ _ s, radix_pos (cte_cap s)) (ctes k).

Lemma is_cnode_walk k c bits w : walks k c bits w → is_cnode c = true.
Proof. by destruct 1. Qed.

Lemma lookup_fp_round fuel k radix gs g ptr cptr bits s : 0 < radix →
  ctes k !! cte_index ptr (Z.shiftr (wrap32 (Z.shiftl cptr (bits + gs))) (32 - radix)) = Some s →
  0 ≤ bits → 0 ≤ gs →
  lookup_fp_loop (S fuel) (cap_cnode_cap radix gs g ptr) cptr bits k =
    (if negb (gs =? 0) && negb (Z.shiftr (wrap32 (Z.shiftl cptr bits)) (32 - gs) =? g) then (Done cap_null_cap, k)
     else if (bits + (gs + radix) <? 32) && is_cnode (cte_cap s) then lookup_fp_loop fuel (cte_cap s) cptr (bits + (gs + radix)) k
     else if 32 <? bits + (gs + radix) then (Done cap_null_cap, k) else (Done (cte_cap s), k)).
Proof.
  intros Hr Hs Hb Hg. cbn [lookup_fp_loop]. rewrite wrap_shift_shift by lia. unfold wordBits.
  rewrite (proj2 (Z.ltb_lt 0 radix)) by done. unfold assert, mbind, M_bind, mret, M_ret, cte_at. cbv beta iota zeta.
  destruct (negb (gs =? 0) && _); [done|]. rewrite Hs. cbv beta iota zeta. destruct (_ && _); [done|]. by destruct (32 <? _).
Qed.

(** The bits of a level: guard, index, rest. *)
Lemma level_bits n gs radix w : 0 ≤ gs → 0 ≤ radix → gs + radix ≤ Z.of_nat n →
  let r := Z.of_nat n - (gs + radix) in
  bits_of n w = bits_of (Z.to_nat gs) (Z.shiftr w (Z.of_nat n - gs)) ++
    bits_of (Z.to_nat radix) (Z.shiftr w r) ++ bits_of (Z.to_nat r) w.
Proof.
  intros Hg Hr Hn r. rewrite (bits_split_Z n gs) by lia. f_equal.
  rewrite (bits_split_Z (Z.to_nat (Z.of_nat n - gs)) radix) by lia.
  by replace (Z.of_nat (Z.to_nat (Z.of_nat n - gs)) - radix) with r by lia.
Qed.

Lemma walks_short k radix gs g ptr l w : 0 ≤ gs → walks k (cap_cnode_cap radix gs g ptr) l w →
  Z.of_nat (length l) < gs + radix → walk_cap k w = cap_null_cap.
Proof. intros Hg Hw. inversion Hw; subst; rewrite ?length_app, ?bits_of_length; try done; lia. Qed.

Lemma walks_rest k radix gs g ptr i rest c w : Z.of_nat (length i) = radix → rest ≠ [] →
  ctes k !! cte_index ptr (val_of i) = Some c → is_cnode (cte_cap c) = true →
  walks k (cap_cnode_cap radix gs g ptr) (bits_of (Z.to_nat gs) g ++ i ++ rest) w → walks k (cte_cap c) rest w.
Proof. intros Hi Hne Hc Hcn Hw. walk_inv Hw. Qed.

(** The walk is the one [resolveAddressBits] takes. *)
Lemma lookup_fp_walks fuel : ∀ k cap cptr n w, cspace_ok k → cnodes_pos k → cnode_wf k cap → radix_pos cap →
  walks k cap (bits_of n cptr) w → (1 ≤ n ≤ 32)%nat → (n ≤ fuel)%nat →
  lookup_fp_loop fuel cap cptr (32 - Z.of_nat n) k = (Done (walk_cap k w), k).
Proof.
  induction fuel as [|fuel IH]; [lia|]. intros k cap cptr n w Hok Hpos Hwf Hr Hw Hn Hf.
  destruct cap as [| | | | |radix gs g ptr| | | | | | | | | | | | |]; try (by apply is_cnode_walk in Hw).
  destruct Hwf as (Hr32 & Hgs & Hg & Hlev & Hslots). cbn [radix_pos] in Hr. set (bits := 32 - Z.of_nat n) in *.
  destruct (Hslots (Z.shiftr (wrap32 (Z.shiftl cptr (bits + gs))) (32 - radix))) as [s Hs]; [apply shifted_index; lia|].
  rewrite (lookup_fp_round fuel k radix gs g ptr cptr bits s) by (done || lia).
  destruct (Z.lt_ge_cases (Z.of_nat n) (gs + radix)) as [Hsh|Hge].
  { rewrite (walks_short k radix gs g ptr _ w) by (done || rewrite ?bits_of_length; lia).
    destruct (_ && _); [done|]. by rewrite (proj2 (Z.ltb_ge _ 32)), (proj2 (Z.ltb_lt 32 _)) by lia. }
  set (r := Z.of_nat n - (gs + radix)). pose proof (level_bits n gs radix cptr ltac:(lia) ltac:(lia) Hge) as Eb. fold r in Eb. cbn zeta in Eb.
  rewrite (shifted_bits cptr bits gs) by lia. replace (32 - bits - gs) with (Z.of_nat n - gs) by lia.
  rewrite (shifted_bits cptr (bits + gs) radix) in Hs by lia. replace (32 - (bits + gs) - radix) with r in Hs by lia.
  set (G := Z.shiftr cptr (Z.of_nat n - gs)) in *. assert (Eg : bits_of (Z.to_nat gs) G = bits_of (Z.to_nat gs) g ↔ G mod 2 ^ gs = g).
  { rewrite bits_of_inj, Z2Nat.id by lia. by rewrite (Z.mod_small g). }
  destruct (decide (G mod 2 ^ gs = g)) as [E|E].
  2:{ assert (gs ≠ 0) by (intros ->; rewrite Z.mod_1_r in E; lia).
      rewrite (proj2 (Z.eqb_neq gs 0)), (proj2 (Z.eqb_neq _ g)) by done. cbn [negb andb].
      assert (Hnp : ¬ bits_of (Z.to_nat gs) g `prefix_of` bits_of n cptr).
      { rewrite prefix_bits, Eb. rewrite <- (bits_of_length (Z.to_nat gs) G) at 1. rewrite take_app_length. tauto. }
      by rewrite (walks_det _ _ _ w _ Hw (walks_guard k radix gs g ptr _ Hnp)). }
  rewrite E, Z.eqb_refl, andb_false_r. apply Eg in E. rewrite E in Eb.
  assert (Ev : val_of (bits_of (Z.to_nat radix) (Z.shiftr cptr r)) = Z.shiftr cptr r mod 2 ^ radix) by (rewrite val_of_bits, Z2Nat.id by lia; done).
  rewrite <- Ev in Hs. assert (El : Z.of_nat (length (bits_of (Z.to_nat radix) (Z.shiftr cptr r))) = radix) by (rewrite bits_of_length; lia).
  set (i := bits_of (Z.to_nat radix) (Z.shiftr cptr r)) in *. rewrite (proj2 (Z.ltb_ge 32 _)) by lia. rewrite Eb in Hw.
  destruct (Z.ltb_spec (bits + (gs + radix)) 32) as [Hlt|Hle]; cbn [andb].
  2:{ replace (Z.to_nat r) with 0%nat in Hw by lia. cbn [bits_of] in Hw. rewrite app_nil_r in Hw.
      rewrite (walks_det _ _ _ w _ Hw (walks_end k radix gs g ptr i El)). cbn [walk_cap]. by rewrite Hs. }
  assert (Hne : bits_of (Z.to_nat r) cptr ≠ []) by (rewrite bits_of_nil; lia).
  destruct (is_cnode (cte_cap s)) eqn:Ec.
  2:{ rewrite (walks_det _ _ _ w _ Hw (walks_leaf k radix gs g ptr i _ s El Hne Hs Ec)). cbn [walk_cap]. by rewrite Hs. }
  replace (bits + (gs + radix)) with (32 - Z.of_nat (Z.to_nat r)) by lia.
  pose proof (walks_rest k radix gs g ptr i (bits_of (Z.to_nat r) cptr) s w El Hne Hs Ec Hw) as Hw'.
  apply IH; try done; try lia; [exact (Hok _ _ Hs)|exact (Hpos _ _ Hs)].
Qed.

Lemma val_of_range l : 0 ≤ val_of l < 2 ^ Z.of_nat (length l).
Proof.
  induction l as [|b l IH]; [done|]. cbn [val_of length]. rewrite Nat2Z.inj_succ, Z.pow_succ_r by lia.
  destruct b; cbn [Z.b2z]; lia.
Qed.

Lemma walk_slot k c bits slot rest : cspace_ok k → cnode_wf k c → walks k c bits (At slot rest) → is_Some (ctes k !! slot).
Proof.
  intros Hok Hwf Hw. remember (At slot rest) as w eqn:Ew. revert Hwf. induction Hw as [| |radix gs g ptr i Hi| |radix gs g ptr i r c w Hi Hr Hc Hn Hw IH]; intros Hwf; simplify_eq.
  - destruct Hwf as (_ & _ & _ & _ & Hs). apply Hs. apply val_of_range.
  - eauto.
  - apply IH; [done|]. exact (Hok _ _ Hc).
Qed.

(** [lookup_fp] finds the capability [lookupCapAndSlot] finds, and the null
    capability where that reports a fault. *)
Lemma lookup_fp_agrees k t root cptr : cspace_ok k → cnodes_pos k → ctes k !! TCB_PTR_CTE_PTR t tcbCTable = Some root →
  ∃ c, lookup_fp (cte_cap root) cptr k = (Done c, k) ∧
    ((∃ slot, lookupCapAndSlot t cptr k = (Done (mk_cas_ret EXCEPTION_NONE c slot), k)) ∨
     c = cap_null_cap ∧ ∃ f, lookupCapAndSlot t cptr k =
       (Done (mk_cas_ret EXCEPTION_LOOKUP_FAULT cap_null_cap 0), k <| current_lookup_fault := f |>)).
Proof.
  intros Hok Hpos Hroot. pose proof (Hok _ _ Hroot) as Hwf. pose proof (Hpos _ _ Hroot) as Hr. cbn beta in Hwf, Hr.
  unfold lookup_fp, lookupCapAndSlot, lookupSlot.
  unfold mbind, M_bind, mret, M_ret.
  assert (Ea : cte_at (TCB_PTR_CTE_PTR t tcbCTable) k = (Done root, k)) by (unfold cte_at; by rewrite Hroot).
  rewrite Ea. cbv beta iota zeta.
  destruct (is_cnode (cte_cap root)) eqn:Ec; cbn [negb].
  2:{ exists cap_null_cap. split; [done|]. right. split; [done|]. unfold resolveAddressBits. rewrite Ec. by eexists. }
  destruct (resolveAddressBits_walk k (cte_cap root) cptr 32) as (w & Hw & E); [done|done|done|lia|].
  pose proof (lookup_fp_walks (Z.to_nat wordBits) k (cte_cap root) cptr 32 w Hok Hpos Hwf Hr Hw ltac:(lia) ltac:(reflexivity)) as F.
  change (32 - Z.of_nat 32) with 0 in F. exists (walk_cap k w). split; [exact F|]. change wordBits with 32. rewrite E.
  destruct w as [slot rest|f]; cbn [walk_result res_status res_slot slot_status slot_slot].
  - left. exists slot. destruct (walk_slot k _ _ _ _ Hok Hwf Hw) as [s Hs]. cbn [walk_cap].
    case_decide as Hd; [by destruct Hd|]. unfold cte_at. by rewrite Hs.
  - right. split; [done|]. exists f. case_decide as Hd; [done|]. by contradict Hd.
Qed.
