(* ===== verification/FastCall.v ===== *)
(** The fast path against the slow path: when [fastpath_call] does not give up,
    it leaves the state [handleSyscall] would leave but for the field
    [blockingObject] of the two threads, which it clears and which nothing reads
    of a thread that does not wait ([forget_blocking]); when it does, it has
    changed nothing. *)

From stdpp Require Import functions.
From S2P Require Import Prelude Messages Caps Kernel CSpace CNode Scheduler Wakeup Paging VSpace IOSpace Ipc Waiting Signals.
From S2P Require Import Cancel Transfer Endpoint Reply Retype Reset Creation Deletion Finalise Revoke Decode.
From S2P Require Import Threads Mmu Devices Interrupts Syscall Fastpath.
Import MessageInfo.

(** ** Message tags *)

(** Writing the value a field has changes nothing. *)
Lemma bf_set_same off len w : 0 ≤ off → 0 ≤ len → off + len ≤ 32 →
  bf_set (field off len) off w (bf_get (field off len) off w) = w.
Proof.
  intros Ho Hl Hb. unfold bf_set, bf_get. apply Z.bits_inj'. intros i Hi.
  rewrite Z.lor_spec, !Z.land_spec, Z.lnot_spec, wrap32_testbit, field_testbit by lia.
  destruct (Z.leb_spec off i); cbn [andb].
  - rewrite Z.shiftl_spec, Z.shiftr_spec, Z.land_spec, field_testbit by lia. replace (i - off + off) with i by lia.
    destruct (Z.leb_spec off i); [|lia]. destruct (Z.ltb_spec i (off + len)); cbn [negb andb].
    + destruct (Z.ltb_spec i 32); [|lia]. by rewrite andb_false_r, !andb_true_r.
    + by rewrite andb_true_r, !andb_false_r, orb_false_r.
  - cbn [negb]. by rewrite andb_true_r, andb_false_r, orb_false_r.
Qed.

(** The tag of a short message without capabilities. *)
Definition short (w : Z) : Prop :=
  seL4_MessageInfo_get_extraCaps w = 0 ∧ 0 ≤ seL4_MessageInfo_get_length w ≤ 2.

Lemma short_check w : fastpath_mi_check w = false → short w.
Proof.
  unfold fastpath_mi_check. intros H%Z.ltb_ge. rewrite (land_MASK w 9) in H by lia. change (2 ^ 9) with 512 in H.
  unfold short, seL4_MessageInfo_get_extraCaps, seL4_MessageInfo_get_length, bf_get. rewrite Z.shiftr_0_r.
  change 0x7f with (Z.ones 7). rewrite Z.land_ones by lia.
  change 0x180 with (Z.shiftl (Z.ones 2) 7). rewrite Z.shiftr_land, Z.shiftr_shiftl_l by lia. change (7 - 7) with 0. rewrite Z.shiftl_0_r.
  rewrite Z.land_ones, Z.shiftr_div_pow2 by lia. change (2 ^ 7) with 128. change (2 ^ 2) with 4.
  pose proof (Z.mod_pos_bound w 512 ltac:(lia)). assert (w mod 512 < 128) by lia.
  assert (E1 : w mod 128 = w mod 512) by (rewrite <- (Z.mod_mod_divide w 512 128) by (by exists 4); apply Z.mod_small; lia).
  rewrite E1. split; [|lia]. rewrite <- (Z.mod_small (w / 128 mod 4) 4) by (apply Z.mod_pos_bound; lia).
  pose proof (Z.div_mod w 128 ltac:(lia)) as D. pose proof (Z.div_mod (w / 128) 4 ltac:(lia)) as D2.
  pose proof (Z.div_mod w 512 ltac:(lia)) as D3. pose proof (Z.mod_pos_bound (w / 128) 4 ltac:(lia)).
  rewrite Z.mod_small by lia. assert (w / 512 = w / 128 / 4) by (rewrite Z.div_div by lia; done). lia.
Qed.

(** The tag the receiver sees. *)
Definition short_info (w : Z) : Z := bf_set 0xe00 9 w 0.

Lemma short_tags w : short w →
  messageInfoFromWord w = Done w ∧ seL4_MessageInfo_set_extraCaps w 0 = Done w ∧
  seL4_MessageInfo_set_capsUnwrapped w 0 = Done (short_info w) ∧
  seL4_MessageInfo_set_length (short_info w) (seL4_MessageInfo_get_length w) = Done (short_info w).
Proof.
  intros [He Hl]. split_and!.
  - unfold messageInfoFromWord. rewrite (proj2 (Z.ltb_ge _ _)); [done|]. unfold seL4_MsgMaxLength. lia.
  - unfold seL4_MessageInfo_set_extraCaps. change (Done (bf_set 0x180 7 w 0) = Done w). f_equal. rewrite <- He.
    apply (bf_set_same 7 2); lia.
  - done.
  - assert (El : seL4_MessageInfo_get_length w = seL4_MessageInfo_get_length (short_info w)).
    { symmetry. apply (bf_get_set_other 0 7 9 3); lia. }
    unfold seL4_MessageInfo_set_length, seL4_DebugAssert, check.
    change (wrap32 (Z.shiftr (Z.lnot 0x7f) 0)) with (wrap32 (Z.lnot (Z.ones 7))). rewrite bf_fits_ones by lia.
    change (Done (bf_set 0x7f 0 (short_info w) (seL4_MessageInfo_get_length w)) = Done (short_info w)). f_equal. rewrite El.
    apply (bf_set_same 0 7); lia.
Qed.

(** ** The transfer of a short message *)

(** The message registers of the receiver. *)
Definition short_copy (n : Z) (sregs rregs : gmap Z Z) : gmap Z Z :=
  if n =? 2 then <[EBP := reg sregs EBP]> (<[EDI := reg sregs EDI]> rregs)
  else if n =? 1 then <[EDI := reg sregs EDI]> rregs else rregs.
(** All its registers. *)
Definition short_regs (w badge : Z) (sregs rregs : gmap Z Z) : gmap Z Z :=
  <[badgeRegister := badge]> (<[msgInfoRegister := short_info w]> (short_copy (seL4_MessageInfo_get_length w) sregs rregs)).

(** The state after a copy of registers. *)
Definition with_registers (d : Z) (cd : tcb_t) (r : gmap Z Z) (k : ks) : ks := k <| tcbs ::= <[d := cd <| registers := r |>]> |>.

Lemma with_registers_twice d cd r r' k : with_registers d (cd <| registers := r |>) r' (with_registers d cd r k) = with_registers d cd r' k.
Proof.
  transitivity (k <| tcbs := <[d := cd <| registers := r' |>]> (<[d := cd <| registers := r |>]> (tcbs k)) |>); [done|].
  by rewrite insert_insert_eq.
Qed.

Lemma with_registers_lookup d cd r k : tcbs (with_registers d cd r k) !! d = Some (cd <| registers := r |>).
Proof. apply lookup_insert_eq. Qed.
Lemma with_registers_ne d cd r k t : t ≠ d → tcbs (with_registers d cd r k) !! t = tcbs k !! t.
Proof. intros H. by apply lookup_insert_ne. Qed.

Lemma wp_getRegister t c r (Q : Z → ks → Prop) k : tcbs k !! t = Some c → Q (reg (registers c) r) k → wp (getRegister t r) Q k.
Proof. intros Hc HQ. unfold getRegister. apply wp_bind, (wp_tcb_at _ c); [done|]. by apply wp_ret. Qed.

Lemma wp_set_register d cd regs r v (Q : unit → ks → Prop) k : tcbs k !! d = Some cd →
  Q tt (with_registers d cd (<[r := v]> regs) k) → wp (setRegister d r v) Q (with_registers d cd regs k).
Proof.
  intros Hd HQ. unfold setRegister. apply (wp_tcb_set _ _ (cd <| registers := regs |>)); [apply with_registers_lookup|].
  rewrite <- (with_registers_twice d cd regs) in HQ. exact HQ.
Qed.

Lemma with_registers_id d cd k : tcbs k !! d = Some cd → with_registers d cd (registers cd) k = k.
Proof.
  intros Hd. unfold with_registers. assert (E : <[d := cd <| registers := registers cd |>]> (tcbs k) = tcbs k).
  { apply insert_id. rewrite Hd. by destruct cd. }
  transitivity (k <| tcbs := <[d := cd <| registers := registers cd |>]> (tcbs k) |>); [done|]. rewrite E. by destruct k.
Qed.

Lemma wp_copy_register t c d cd regs r (Q : unit → ks → Prop) k : tcbs k !! t = Some c → tcbs k !! d = Some cd → t ≠ d →
  Q tt (with_registers d cd (<[r := reg (registers c) r]> regs) k) → wp (copy_register t d r) Q (with_registers d cd regs k).
Proof.
  intros Hc Hd Hne HQ. unfold copy_register. apply wp_bind, (wp_getRegister _ c); [by rewrite with_registers_ne|].
  by apply wp_set_register.
Qed.

Lemma short_copyMRs k t c d cd sb rb n : tcbs k !! t = Some c → tcbs k !! d = Some cd → t ≠ d → 0 ≤ n ≤ 2 →
  wp (copyMRs t sb d rb n) (λ r k', r = n ∧ k' = with_registers d cd (short_copy n (registers c) (registers cd)) k) k.
Proof.
  intros Hc Hd Hne Hn. unfold copyMRs. apply wp_bind.
  assert (Hend : ∀ k', wp (if (rb =? 0) || (sb =? 0) then mret (Z.min n n_msgRegisters)
    else for_range (Z.min n n_msgRegisters) (Z.to_nat (n - Z.min n n_msgRegisters)) (λ i,
      v ← word_at (buf_index sb (i + 1)); word_set (buf_index rb (i + 1)) v);; mret n) (λ r k2, r = n ∧ k2 = k') k').
  { intros k'. rewrite Z.min_l by (unfold n_msgRegisters; lia). replace (Z.to_nat (n - n)) with 0%nat by lia. by destruct (_ || _). }
  eapply (wp_mono _ (λ _ k', k' = with_registers d cd (short_copy n (registers c) (registers cd)) k)).
  - match goal with |- wp ?m ?Q k => enough (H : wp m Q (with_registers d cd (registers cd) k)) by (by rewrite (with_registers_id d cd k Hd) in H) end.
    assert (Hcases : n = 0 ∨ n = 1 ∨ n = 2) by lia. destruct Hcases as [-> |[-> | ->]].
    + by apply wp_ret.
    + change (wp (copy_register t d EDI;; mret tt) (λ _ k', k' = with_registers d cd (short_copy 1 (registers c) (registers cd)) k)
        (with_registers d cd (registers cd) k)).
      apply wp_bind, (wp_copy_register t c); [done..|]. by apply wp_ret.
    + change (wp (copy_register t d EDI;; copy_register t d EBP;; mret tt)
        (λ _ k', k' = with_registers d cd (short_copy 2 (registers c) (registers cd)) k) (with_registers d cd (registers cd) k)).
      apply wp_bind, (wp_copy_register t c); [done..|]. apply wp_bind, (wp_copy_register t c); [done..|]. by apply wp_ret.
  - intros _ k' ->. apply Hend.
Qed.

Lemma short_doNormalTransfer k t c d cd sb e badge rb w : tcbs k !! t = Some c → tcbs k !! d = Some cd → t ≠ d →
  reg (registers c) msgInfoRegister = w → short w →
  wp (doNormalTransfer t sb e badge true d rb) (λ _ k', k' = with_registers d cd (short_regs w badge (registers c) (registers cd)) k
    <| current_extra_caps ::= <[0%nat := 0]> |>) k.
Proof.
  intros Hc Hd Hne Hw Hs. destruct (short_tags w Hs) as (E1 & E2 & E3 & E4). unfold doNormalTransfer.
  apply wp_bind, (wp_getRegister _ c); [done|]. rewrite Hw. apply wp_bind, (wp_lifted _ w); [done|].
  set (k0 := k <| current_extra_caps ::= <[0%nat := 0]> |>).
  apply wp_bind. eapply (wp_mono _ (λ caps k', default 0 (caps !! 0%nat) = 0 ∧ k' = k0)).
  { apply wp_bind. eapply (wp_mono _ (λ st k', st = EXCEPTION_NONE ∧ k' = k0)).
    - unfold lookupExtraCaps. destruct (sb =? 0); [by apply wp_bind, wp_modify, wp_ret|]. rewrite (proj1 Hs).
      cbn [Z.to_nat lookup_extra_caps]. apply wp_bind, wp_ret. cbn. by apply wp_bind, wp_modify, wp_ret.
    - intros st k' [-> ->]. apply wp_bind, wp_gets, wp_ret. split; [apply excaps_none|done]. }
  intros caps k' [Hcaps ->]. assert (Hc0 : tcbs k0 !! t = Some c) by done. assert (Hd0 : tcbs k0 !! d = Some cd) by done.
  apply wp_bind. eapply wp_mono; [apply (short_copyMRs k0 t c d cd sb rb _ Hc0 Hd0 Hne), Hs|].
  intros r k' [-> ->]. apply wp_bind. unfold transferCaps. apply wp_bind, (wp_lifted _ w); [done|].
  apply wp_bind, (wp_lifted _ (short_info w)); [done|]. rewrite Hcaps. cbn [Z.eqb orb]. apply wp_ret.
  apply wp_bind, (wp_lifted _ (short_info w)); [done|].
  apply wp_bind, wp_set_register; [done|]. apply wp_set_register; [done|].
  done.
Qed.

Lemma short_fast_copy k t c d cd n : tcbs k !! t = Some c → tcbs k !! d = Some cd → t ≠ d → 0 ≤ n ≤ 2 →
  wp (fastpath_copy_mrs n t d) (λ _ k', k' = with_registers d cd (short_copy n (registers c) (registers cd)) k) k.
Proof.
  intros Hc Hd Hne Hn.
  match goal with |- wp ?m ?Q k => enough (H : wp m Q (with_registers d cd (registers cd) k)) by (by rewrite (with_registers_id d cd k Hd) in H) end.
  unfold fastpath_copy_mrs. assert (Hcases : n = 0 ∨ n = 1 ∨ n = 2) by lia. destruct Hcases as [-> |[-> | ->]]; cbn [Z.eqb orb when].
  - by apply wp_bind, wp_ret, wp_ret.
  - apply wp_bind, wp_ret, (wp_copy_register t c); done.
  - apply wp_bind, (wp_copy_register t c); [done..|]. apply (wp_copy_register t c); [done..|].
    unfold short_copy. cbn [Z.eqb]. by rewrite insert_insert_ne.
Qed.

(** ** The state by its parts

    [st k T E C u a x] is [k] with its threads, endpoints, slots, current thread,
    pending action and extra capabilities given one by one. *)

Definition st (k : ks) (T : gmap Z tcb_t) (E : gmap Z endpoint_t) (C : gmap Z cte_t) (u a : Z) (x : list Z) : ks :=
  k <| tcbs := T |> <| eps := E |> <| ctes := C |> <| ksCurThread := u |> <| ksSchedulerAction := a |> <| current_extra_caps := x |>.

Section parts.
Context (k : ks) (T : gmap Z tcb_t) (E : gmap Z endpoint_t) (C : gmap Z cte_t) (u a : Z) (x : list Z).
Notation s := (st k T E C u a x).

Lemma st_tcb_at t c (Q : tcb_t → ks → Prop) : T !! t = Some c → Q c s → wp (tcb_at t) Q s.
Proof. exact (wp_tcb_at t c Q s). Qed.
Lemma st_tcb_set t f c (Q : unit → ks → Prop) : T !! t = Some c → Q tt (st k (<[t := f c]> T) E C u a x) → wp (tcb_set t f) Q s.
Proof. exact (wp_tcb_set t f c Q s). Qed.
Lemma st_ep_at e y (Q : endpoint_t → ks → Prop) : E !! e = Some y → Q y s → wp (ep_at e) Q s.
Proof. exact (wp_ep_at e y Q s). Qed.
Lemma st_ep_set e f y (Q : unit → ks → Prop) : E !! e = Some y → Q tt (st k T (<[e := f y]> E) C u a x) → wp (ep_set e f) Q s.
Proof. exact (wp_ep_set e f y Q s). Qed.
Lemma st_cte_at p c (Q : cte_t → ks → Prop) : C !! p = Some c → Q c s → wp (cte_at p) Q s.
Proof. exact (wp_cte_at p c Q s). Qed.
Lemma st_cte_set p f c (Q : unit → ks → Prop) : C !! p = Some c → Q tt (st k T E (<[p := f c]> C) u a x) → wp (cte_set p f) Q s.
Proof. exact (wp_cte_set p f c Q s). Qed.
Lemma st_cur (Q : Z → ks → Prop) : Q u s → wp cur Q s.
Proof. done. Qed.
Lemma st_register t c r (Q : Z → ks → Prop) : T !! t = Some c → Q (reg (registers c) r) s → wp (getRegister t r) Q s.
Proof. exact (wp_getRegister t c r Q s). Qed.

(** A thread that is not the current one, or a pending action: nothing is scheduled anew. *)
Lemma st_scheduleTCB t (Q : unit → ks → Prop) : t ≠ u ∨ a ≠ SchedulerAction_ResumeCurrentThread → Q tt s → wp (scheduleTCB t) Q s.
Proof.
  intros H HQ. unfold scheduleTCB. apply wp_bind, st_cur. apply wp_bind, wp_gets.
  change (ksSchedulerAction s) with a. destruct (Z.eqb_spec t u); cbn [andb]; [|done].
  destruct (Z.eqb_spec a SchedulerAction_ResumeCurrentThread); [|done]. by destruct H.
Qed.
Lemma st_scheduleTCB_runs t c (Q : unit → ks → Prop) : T !! t = Some c → isRunnable_state (tsType c) = true → Q tt s → wp (scheduleTCB t) Q s.
Proof.
  intros Hc Hr HQ. unfold scheduleTCB. apply wp_bind, st_cur. apply wp_bind, wp_gets.
  destruct (_ && _); [|done]. apply wp_bind. unfold isRunnable. apply wp_bind, (st_tcb_at t c); [done|]. apply wp_ret. by rewrite Hr.
Qed.
End parts.

(** The scheduler switches to the pending thread [d], which runs. *)
Lemma st_schedule k T E C t d ex ct cd : T !! t = Some ct → isRunnable_state (tsType ct) = false →
  T !! d = Some cd → tsType cd = ThreadState_Running → tcbQueued cd = false → d ≠ 0 → d ≠ SchedulerAction_ChooseNewThread →
  wp (schedule;; activateThread;; mret EXCEPTION_NONE)
    (λ r k', r = EXCEPTION_NONE ∧ k' = st k T E C d SchedulerAction_ResumeCurrentThread ex) (st k T E C t d ex).
Proof.
  intros HTt Hb HTd Hr Hq Hd0 Hd1. unfold schedule. apply wp_bind, wp_bind, wp_gets. change (ksSchedulerAction (st _ _ _ _ _ ?a _)) with a.
  rewrite (proj2 (Z.eqb_neq d _) Hd1), (proj2 (Z.eqb_neq d SchedulerAction_ResumeCurrentThread) Hd0). cbn [negb].
  unfold enqueue_current_if_runnable. apply wp_bind, wp_bind, st_cur. apply wp_bind. unfold isRunnable. apply wp_bind.
  eapply st_tcb_at; [exact HTt|]. apply wp_ret. rewrite Hb. apply wp_ret. apply wp_bind, wp_gets.
  change (ksSchedulerAction (st _ _ _ _ _ ?a _)) with a.
  unfold switchToThread, tcbSchedDequeue. apply wp_bind, wp_bind, wp_bind. eapply st_tcb_at; [exact HTd|].
  rewrite Hq. apply wp_ret, wp_modify, wp_modify. unfold activateThread. apply wp_bind, wp_bind, wp_gets.
  apply wp_bind. eapply wp_tcb_at; [exact HTd|]. rewrite Hr. by apply wp_ret, wp_ret.
Qed.

Lemma st_id k : k = st k (tcbs k) (eps k) (ctes k) (ksCurThread k) (ksSchedulerAction k) (current_extra_caps k).
Proof. by destruct k. Qed.

Lemma st_wp {A} (m : K A) (Q : A → ks → Prop) k :
  wp m Q (st k (tcbs k) (eps k) (ctes k) (ksCurThread k) (ksSchedulerAction k) (current_extra_caps k)) → wp m Q k.
Proof. by rewrite <- st_id. Qed.

Lemma st_wp_extra {A} (m : K A) (Q : A → ks → Prop) k f :
  wp m Q (st k (tcbs k) (eps k) (ctes k) (ksCurThread k) (ksSchedulerAction k) (f (current_extra_caps k))) →
  wp m Q (k <| current_extra_caps ::= f |>).
Proof. by destruct k. Qed.

(** The end of both fast paths: the message, the switch, the badge and the tag. *)
Lemma fast_finish k T E C u a ex t ct d cd w badge : T !! t = Some ct → T !! d = Some cd → t ≠ d → short w →
  wp (fastpath_copy_mrs (seL4_MessageInfo_get_length w) t d;;
      tcb_set d (set_tsType_np ThreadState_Running);;
      switchToThread_fp d;;
      info ← lift (seL4_MessageInfo_set_capsUnwrapped w 0);
      fastpath_restore badge info d)
    (λ _ k', k' = st k (<[d := set_tsType_np ThreadState_Running (cd <| registers := short_regs w badge (registers ct) (registers cd) |>)]> T)
      E C d a ex) (st k T E C u a ex).
Proof.
  intros Ht Hd Hne Hs. set (s0 := st k T E C u a ex). apply wp_bind.
  eapply wp_mono; [apply (short_fast_copy s0 t ct d cd _ Ht Hd Hne), Hs|]. intros _ k' ->.
  apply wp_bind. eapply wp_tcb_set; [apply with_registers_lookup|]. apply wp_bind, wp_modify.
  apply wp_bind, (wp_lifted _ (short_info w)); [apply short_tags, Hs|]. unfold fastpath_restore.
  unfold setRegister. apply wp_bind. eapply wp_tcb_set; [apply lookup_insert_eq|]. eapply wp_tcb_set; [apply lookup_insert_eq|].
  unfold short_regs. set (r := short_copy _ _ _).
  rewrite (insert_insert_ne _ badgeRegister msgInfoRegister) by done.
  rewrite <- (insert_insert_eq T d _ (cd <| registers := r |>)).
  rewrite <- (insert_insert_eq (<[d := cd <| registers := r |>]> _) d _ (set_tsType_np ThreadState_Running (cd <| registers := r |>))).
  rewrite <- (insert_insert_eq (<[d := _]> (<[d := _]> _)) d _
    (set_tsType_np ThreadState_Running (cd <| registers := <[badgeRegister := badge]> r |>))).
  done.
Qed.

(** ** What the fast paths forget

    [thread_state_ptr_set_tsType_np] writes the whole word of the state, the object
    the thread waited for included; the slow path keeps that field. *)

Definition forget (t : Z) (h : gmap Z tcb_t) : gmap Z tcb_t := alter (λ c, c <| blockingObject := 0 |>) t h.
Definition forget_blocking (l : list Z) (k : ks) : ks := k <| tcbs ::= λ h, foldr forget h l |>.
(** The threads of which it is forgotten wait on no queue. *)
Definition not_waiting (k : ks) (t : Z) : Prop := ∃ c, tcbs k !! t = Some c ∧ waiting_state (tsType c) = false.

Lemma forget_sched k t : sched_same k (k <| tcbs ::= forget t |>).
Proof.
  split; [|done]. intros u. cbn. unfold forget. destruct (decide (t = u)) as [<-|Hne]; [|by rewrite lookup_alter_ne].
  rewrite lookup_alter_eq. by destruct (tcbs k !! t).
Qed.
Lemma forget_not_waiting k t u : not_waiting k u → not_waiting (k <| tcbs ::= forget t |>) u.
Proof.
  intros (c & Hc & Hw). unfold not_waiting. cbn. unfold forget. destruct (decide (t = u)) as [<-|Hne].
  - rewrite lookup_alter_eq, Hc. by eexists.
  - rewrite lookup_alter_ne by done. by eexists.
Qed.
Lemma forget_ipc k wq t : not_waiting k t → ipc_ok k wq → ipc_ok (k <| tcbs ::= forget t |>) wq.
Proof.
  intros (c & Hc & Hw) H. set (c' := c <| blockingObject := 0 |>).
  assert (E : k <| tcbs ::= forget t |> = k <| tcbs ::= <[t := c']> |>).
  { assert (Et : forget t (tcbs k) = <[t := c']> (tcbs k)) by (unfold forget; by rewrite (alter_alt_Some _ _ _ c Hc)).
    change (k <| tcbs := forget t (tcbs k) |> = k <| tcbs := <[t := c']> (tcbs k) |>). by rewrite Et. }
  rewrite E. apply (ipc_ok_awake [] _ t c' wq); [by cbn; rewrite lookup_insert_eq|done|].
  apply (ipc_ok_free [t] k t c c' wq); [done|set_solver|]. by apply (ipc_ok_except [] k t c).
Qed.

(** Neither the scheduler nor the queues of the objects see the difference. *)
Lemma forget_blocking_ok l k wq : Forall (not_waiting k) l →
  (sched_inv k → sched_inv (forget_blocking l k)) ∧ (ipc_ok k wq → ipc_ok (forget_blocking l k) wq) ∧
  (∀ u, not_waiting k u → not_waiting (forget_blocking l k) u).
Proof.
  intros Hl. induction Hl as [|t l Ht Hl (IH1 & IH2 & IH3)]; [split_and!; by destruct k|].
  change (forget_blocking (t :: l) k) with (forget_blocking l k <| tcbs ::= forget t |>). split_and!.
  - intros I. rewrite <- forget_sched. auto.
  - intros H. apply forget_ipc; auto.
  - intros u Hu. apply forget_not_waiting. auto.
Qed.

(** Looks a thread or a slot up through the writes before. *)
Ltac look := first [ eassumption | apply lookup_insert_eq | rewrite lookup_insert_ne by congruence; look ].

(** ** A call *)

(** The next thread of a queue becomes the first. *)
Definition unlink_next (n : Z) (h : gmap Z tcb_t) : gmap Z tcb_t :=
  if n =? 0 then h else alter (λ c, c <| tcbEPPrev := 0 |>) n h.
Definition ep_without_first (n : Z) (x : endpoint_t) : endpoint_t :=
  let x := x <| epQueue ::= λ q, q <| q_head := n |> |> in
  if n =? 0 then x <| epQueue ::= λ q, q <| q_end := 0 |> |> <| epState := EPState_Idle |> else x.

Section call.
Context (k : ks) (t d e badge w : Z) (c cd : tcb_t) (x : endpoint_t) (p : Z).
Hypotheses (Hcur : ksCurThread k = t) (Hact : ksSchedulerAction k = SchedulerAction_ResumeCurrentThread).
Hypotheses (Hc : tcbs k !! t = Some c) (Hd : tcbs k !! d = Some cd) (Hne : t ≠ d).
Hypotheses (Hx : eps k !! e = Some x) (Hst : epState x = EPState_Recv) (Hh : q_head (epQueue x) = d) (Hd0 : d ≠ 0).
Hypotheses (Hprev : tcbEPPrev cd = 0)
  (Hnext : tcbEPNext cd ≠ 0 → is_Some (tcbs k !! tcbEPNext cd) ∧ tcbEPNext cd ≠ t ∧ tcbEPNext cd ≠ d).
Hypotheses (Hq : tcbQueued cd = false).
Hypotheses (Hprio : tcbPriority c ≤ tcbPriority cd) (Hdom : tcbDomain cd = ksCurDomain k).
Hypotheses (Hf : tcbFault c = seL4_Fault_NullFault) (Hw : reg (registers c) msgInfoRegister = w) (Hs : short w).
Hypotheses (Bt : buffer_ok k t c) (Bd : buffer_ok k d cd).
Let replySlot := TCB_PTR_CTE_PTR t tcbReply.
Let callerSlot := TCB_PTR_CTE_PTR d tcbCaller.
Hypotheses (Hm : ctes k !! replySlot = Some (mk_cte (cap_reply_cap true t) (mdb_node_new 0 true true p)))
  (Hcs : ctes k !! callerSlot = Some (mk_cte cap_null_cap nullMDBNode)).

Definition call_tcbs : gmap Z tcb_t :=
  <[d := cd <| registers := short_regs w badge (registers c) (registers cd) |> <| tsType := ThreadState_Running |>]>
    (<[t := c <| tsType := ThreadState_BlockedOnReply |>]> (unlink_next (tcbEPNext cd) (tcbs k))).
Definition call_slots : gmap Z cte_t :=
  <[callerSlot := mk_cte (cap_reply_cap false t) (mdb_node_new 0 false false replySlot)]>
    (<[replySlot := mk_cte (cap_reply_cap true t) (mdb_node_new callerSlot true true p)]> (ctes k)).
(** The state after the call by the slow path. *)
Definition call_state (ex : list Z) : ks :=
  st k call_tcbs (<[e := ep_without_first (tcbEPNext cd) x]> (eps k)) call_slots d SchedulerAction_ResumeCurrentThread ex.

Lemma slots_apart : replySlot ≠ callerSlot.
Proof. intros E. rewrite E, Hcs in Hm. done. Qed.

Lemma unlink_keeps u : u = t ∨ u = d → unlink_next (tcbEPNext cd) (tcbs k) !! u = tcbs k !! u.
Proof.
  intros Hu. unfold unlink_next. destruct (Z.eqb_spec (tcbEPNext cd) 0) as [|E]; [done|].
  destruct (Hnext E) as (_ & ? & ?). apply lookup_alter_ne. destruct Hu as [-> | ->]; done.
Qed.
Lemma unlink_t : unlink_next (tcbEPNext cd) (tcbs k) !! t = Some c.
Proof. rewrite unlink_keeps; auto. Qed.
Lemma unlink_d : unlink_next (tcbEPNext cd) (tcbs k) !! d = Some cd.
Proof. rewrite unlink_keeps; auto. Qed.

Lemma unlink_code E C u a ex (rest : K unit) (Q : unit → ks → Prop) : E !! e = Some x →
  wp rest Q (st k (unlink_next (tcbEPNext cd) (tcbs k)) (<[e := ep_without_first (tcbEPNext cd) x]> E) C u a ex) →
  wp (ep_set e (λ x, x <| epQueue ::= λ q, q <| q_head := tcbEPNext cd |> |>);;
      (if negb (tcbEPNext cd =? 0) then tcb_set (tcbEPNext cd) (λ c, c <| tcbEPPrev := 0 |>)
       else ep_set e (λ x, x <| epQueue ::= λ q, q <| q_end := 0 |> |> <| epState := EPState_Idle |>));; rest) Q
    (st k (tcbs k) E C u a ex).
Proof.
  intros HE HQ. apply wp_bind, (st_ep_set _ _ _ _ _ _ _ _ _ x); [done|]. apply wp_bind.
  unfold unlink_next, ep_without_first in HQ. destruct (Z.eqb_spec (tcbEPNext cd) 0) as [En|En]; cbn [negb].
  - eapply st_ep_set; [look|]. by rewrite insert_insert_eq.
  - destruct (Hnext En) as ([n Hn] & _). apply (st_tcb_set _ _ _ _ _ _ _ _ _ n); [done|].
    by rewrite (alter_alt_Some _ _ _ n Hn) in HQ.
Qed.

(** The caller and the receiver have forgotten the object they waited for. *)
Lemma call_forget ex : forget_blocking [t; d] (call_state ex) =
  st k (<[d := set_tsType_np ThreadState_Running (cd <| registers := short_regs w badge (registers c) (registers cd) |>)]>
    (<[t := set_tsType_np ThreadState_BlockedOnReply c]> (unlink_next (tcbEPNext cd) (tcbs k))))
    (<[e := ep_without_first (tcbEPNext cd) x]> (eps k)) call_slots d SchedulerAction_ResumeCurrentThread ex.
Proof.
  unfold forget_blocking, call_state. cbn [foldr].
  match goal with |- st k ?T ?E ?C ?u ?a ?x <| tcbs ::= _ |> = st k ?T' _ _ _ _ _ => assert (ET : forget t (forget d T) = T') end.
  { unfold call_tcbs, forget. rewrite alter_insert_eq, alter_insert_ne, alter_insert_eq by done. reflexivity. }
  rewrite <- ET. reflexivity.
Qed.
Lemma call_not_waiting ex : Forall (not_waiting (call_state ex)) [t; d].
Proof.
  repeat constructor; unfold not_waiting, call_state, call_tcbs; cbn.
  - rewrite lookup_insert_ne, lookup_insert_eq by done. by eexists.
  - rewrite lookup_insert_eq. by eexists.
Qed.

Lemma fastpath_call_commits :
  wp (fastpath_call_commit e badge d w) (λ _ k', k' = forget_blocking [t; d] (call_state (current_extra_caps k))) k.
Proof.
  rewrite call_forget.
  apply st_wp. rewrite Hcur, Hact. unfold fastpath_call_commit. apply wp_bind, st_cur. apply wp_bind, (st_tcb_at _ _ _ _ _ _ _ d cd); [done|].
  apply unlink_code; [done|]. set (T := unlink_next (tcbEPNext cd) (tcbs k)).
  pose proof unlink_t as Ht. pose proof unlink_d as Hd'. fold T in Ht, Hd'.
  apply wp_bind. eapply st_tcb_set; [look|]. cbv zeta. pose proof slots_apart as Hap. fold replySlot callerSlot.
  apply wp_bind. eapply st_cte_set; [look|]. apply wp_bind. eapply st_cte_set; [look|]. apply wp_bind. eapply st_cte_set; [look|].
  set (C := <[replySlot := _]> _). assert (EC : C = call_slots) by (unfold C; by rewrite insert_insert_eq, insert_insert_ne). rewrite EC.
  eapply wp_mono; [eapply (fast_finish _ _ _ _ _ _ _ t _ d cd w badge); [apply lookup_insert_eq|by rewrite lookup_insert_ne|done|done]|].
  by intros _ k' ->.
Qed.

(** *** The slow path of it *)

Lemma unlink_insert n u y h : n ≠ u → unlink_next n (<[u := y]> h) = <[u := y]> (unlink_next n h).
Proof. intros Hn. unfold unlink_next. destruct (_ =? _); [done|]. by rewrite alter_insert_ne. Qed.

Lemma next_not_t : tcbEPNext cd ≠ 0 → tcbEPNext cd ≠ t.
Proof. intros E. by destruct (Hnext E) as (_ & ? & _). Qed.

Lemma slow_dequeue T E C u a ex (rest : K unit) (Q : unit → ks → Prop) : T !! d = Some cd →
  (tcbEPNext cd ≠ 0 → is_Some (T !! tcbEPNext cd)) → E !! e = Some x →
  wp rest Q (st k (unlink_next (tcbEPNext cd) T) (<[e := ep_without_first (tcbEPNext cd) x]> E) C u a ex) →
  wp (q ← tcbEPDequeue d (epQueue x); ep_ptr_set_queue e q;;
      when (q_head q =? 0) (set_ep_state e EPState_Idle);; rest) Q (st k T E C u a ex).
Proof.
  intros HT Hn HE HQ. apply wp_bind. unfold tcbEPDequeue. apply wp_bind. eapply st_tcb_at; [exact HT|].
  apply wp_bind. rewrite Hprev. cbn [Z.eqb negb]. apply wp_ret. apply wp_bind. eapply st_tcb_at; [exact HT|].
  unfold unlink_next, ep_without_first in HQ. destruct (Z.eqb_spec (tcbEPNext cd) 0) as [En|En]; cbn [negb].
  - apply wp_ret. unfold ep_ptr_set_queue, set_ep_state. apply wp_bind. eapply st_ep_set; [exact HE|].
    cbn [q_head]. change (q_head (epQueue x <| q_head := tcbEPNext cd |> <| q_end := tcbEPPrev cd |>)) with (tcbEPNext cd).
    rewrite En, Hprev. rewrite En in HQ. cbn [Z.eqb when]. apply wp_bind. eapply st_ep_set; [apply lookup_insert_eq|]. rewrite insert_insert_eq. exact HQ.
  - destruct (Hn En) as [n HTn]. apply wp_bind. eapply st_tcb_set; [exact HTn|]. apply wp_ret.
    unfold ep_ptr_set_queue. apply wp_bind. eapply st_ep_set; [exact HE|].
    change (q_head (epQueue x <| q_head := tcbEPNext cd |>)) with (tcbEPNext cd).
    rewrite (proj2 (Z.eqb_neq _ 0) En). cbn [when]. apply wp_bind, wp_ret. rewrite Hprev.
    by rewrite (alter_alt_Some _ _ _ n HTn) in HQ.
Qed.

Lemma slow_transfer T E u a ex ct : T !! t = Some ct → T !! d = Some cd → registers ct = registers c →
  tcbFault ct = tcbFault c → tcbIPCBuffer ct = tcbIPCBuffer c →
  wp (doIPCTransfer t e badge true d) (λ _ k', k' = st k (<[d := cd <| registers := short_regs w badge (registers c) (registers cd) |>]> T)
    E (ctes k) u a (<[0%nat := 0]> ex)) (st k T E (ctes k) u a ex).
Proof.
  intros HTt HTd Er Ef Eb. set (s := st k T E (ctes k) u a ex). unfold doIPCTransfer.
  assert (B1 : buffer_ok s t ct) by (destruct Bt as [? ?]; split; [by rewrite Eb|done]).
  assert (B2 : buffer_ok s d cd) by exact Bd.
  destruct (lookupIPCBuffer_spec s true d cd HTd B2) as [E1 _]. destruct (lookupIPCBuffer_spec s false t ct HTt B1) as [E2 _].
  apply wp_bind. unfold wp at 1. rewrite E1. apply wp_bind, (wp_tcb_at _ ct); [done|]. rewrite Ef, Hf. cbn [fault_type Z.eqb].
  apply wp_bind. unfold wp at 1. rewrite E2. eapply wp_mono; [apply (short_doNormalTransfer s t ct d cd _ _ _ _ w); try done; by rewrite Er|].
  intros _ k' ->. by rewrite Er.
Qed.

Lemma slow_reply_cap T E a ex : T !! t = Some (c <| tsType := ThreadState_Restart |>) → a = d →
  wp (setupCallerCap t d) (λ _ k', k' = st k (<[t := c <| tsType := ThreadState_BlockedOnReply |>]> T) E call_slots t a ex)
    (st k T E (ctes k) t a ex).
Proof.
  intros HT ->. unfold setupCallerCap, setThreadState. apply wp_bind, wp_bind. eapply st_tcb_set; [exact HT|].
  apply st_scheduleTCB; [right; exact Hd0|]. fold replySlot callerSlot. apply wp_bind. eapply st_cte_at; [exact Hm|].
  cbn [cte_cap andb]. rewrite Z.eqb_refl. apply wp_bind, wp_ret. apply wp_bind. eapply st_cte_at; [exact Hcs|]. apply wp_bind, wp_ret.
  pose proof slots_apart as Hap.
  unfold cteInsert. apply wp_bind. eapply st_cte_at; [exact Hm|]. apply wp_bind, (wp_lifted _ false); [done|].
  apply wp_bind. unfold assert_empty. apply wp_bind. eapply st_cte_at; [exact Hcs|]. apply wp_bind, wp_ret, wp_ret.
  apply wp_bind, wp_ret. apply wp_bind. eapply st_cte_set; [exact Hcs|]. apply wp_bind. eapply st_cte_set; [look|].
  apply wp_bind. eapply st_cte_set; [look|]. apply wp_ret. unfold call_slots.
  by rewrite insert_insert_eq, insert_insert_ne.
Qed.

(** The priorities let the receiver run at once. *)
Lemma slow_switch T E C ex ct cd' : T !! t = Some ct → T !! d = Some cd' → tcbPriority ct = tcbPriority c →
  tcbPriority cd' = tcbPriority cd → tcbDomain cd' = tcbDomain cd →
  wp (attemptSwitchTo d) (λ _ k', k' = st k T E C t d ex) (st k T E C t SchedulerAction_ResumeCurrentThread ex).
Proof.
  intros HTt HTd Et Ed Edom. unfold attemptSwitchTo, possibleSwitchTo. apply wp_bind, wp_gets. apply wp_bind, st_cur.
  apply wp_bind. eapply st_tcb_at; [exact HTt|]. apply wp_bind. eapply st_tcb_at; [exact HTd|]. apply wp_bind, wp_gets.
  rewrite Edom, Hdom. change (ksCurDomain (st _ _ _ _ _ _ _)) with (ksCurDomain k). rewrite Z.eqb_refl. cbn [negb].
  rewrite Et, Ed. change (ksSchedulerAction (st _ _ _ _ _ ?a _)) with a. rewrite Z.eqb_refl, !andb_true_r.
  assert (Ep : (tcbPriority c <? tcbPriority cd) || (tcbPriority cd =? tcbPriority c) = true).
  { destruct (Z.ltb_spec (tcbPriority c) (tcbPriority cd)); [done|]. apply Z.eqb_eq. lia. }
  rewrite Ep. apply wp_bind, wp_modify. by apply wp_ret.
Qed.

Lemma slow_send ex :
  wp (sendIPC true true badge true t e)
    (λ _ k', k' = st k call_tcbs (<[e := ep_without_first (tcbEPNext cd) x]> (eps k)) call_slots t d (<[0%nat := 0]> ex))
    (st k (<[t := c <| tsType := ThreadState_Restart |>]> (tcbs k)) (eps k) (ctes k) t SchedulerAction_ResumeCurrentThread ex).
Proof.
  unfold sendIPC. apply wp_bind. eapply st_ep_at; [exact Hx|]. rewrite Hst.
  unfold ep_ptr_get_queue. apply wp_bind, wp_bind. eapply st_ep_at; [exact Hx|]. apply wp_ret. cbv beta zeta. rewrite Hh.
  rewrite (proj2 (Z.eqb_neq d 0) Hd0). apply wp_bind, wp_ret. set (ct := c <| tsType := ThreadState_Restart |>).
  apply slow_dequeue; [look| |exact Hx|].
  { intros En. destruct (Hnext En) as (Hn & Ht & _). by rewrite lookup_insert_ne. }
  set (E1 := <[e := _]> _). set (T1 := unlink_next _ _). assert (ET : T1 = <[t := ct]> (unlink_next (tcbEPNext cd) (tcbs k))).
  { unfold T1, unlink_next. destruct (Z.eqb_spec (tcbEPNext cd) 0); [done|]. apply alter_insert_ne. by apply next_not_t. }
  clearbody T1. subst T1. set (T1 := <[t := ct]> _). assert (H1t : T1 !! t = Some ct) by apply lookup_insert_eq.
  assert (H1d : T1 !! d = Some cd) by (unfold T1; rewrite lookup_insert_ne by done; apply unlink_d).
  apply wp_bind. eapply wp_mono; [by eapply (slow_transfer T1 E1 _ _ ex ct)|]. intros _ k1 ->. set (r := short_regs _ _ _ _).
  unfold setThreadState. apply wp_bind, wp_bind. eapply st_tcb_set; [apply lookup_insert_eq|]. rewrite insert_insert_eq.
  apply st_scheduleTCB; [by left|]. set (T2 := <[d := _]> T1). assert (H2t : T2 !! t = Some ct) by (unfold T2; by rewrite lookup_insert_ne).
  apply wp_bind. eapply wp_mono; [by eapply (slow_switch T2 E1 _ _ ct _ H2t (lookup_insert_eq _ _ _))|]. intros _ k2 ->.
  apply wp_bind. eapply st_tcb_at; [exact H2t|]. cbn [orb when wait_for_reply].
  eapply wp_mono; [by apply slow_reply_cap|]. intros _ k3 ->. unfold T2, T1, call_tcbs. fold r.
  by rewrite (insert_insert_ne _ t d), insert_insert_eq by done.
Qed.

Section slow.
Context (io : io_domains) (num_ioapics : Z).

(** The invocation of the endpoint, once the capability is found. *)
Lemma slow_invocation active slot canReceive cptr :
  reg (registers c) capRegister = cptr →
  lookupCapAndSlot t cptr k = (Done (mk_cas_ret EXCEPTION_NONE (cap_endpoint_cap badge true true canReceive e) slot), k) →
  wp (invocation_syscall io num_ioapics active true true)
    (λ _ k', ∃ ex, k' = st k call_tcbs (<[e := ep_without_first (tcbEPNext cd) x]> (eps k)) call_slots t d ex) k.
Proof.
  intros Hcp Hl. unfold invocation_syscall, handleInvocation. apply wp_bind, wp_bind, wp_gets. rewrite Hcur.
  apply wp_bind, (wp_getRegister _ c); [done|]. rewrite Hw. apply wp_bind, (wp_lifted _ w); [by apply short_tags|].
  apply wp_bind, (wp_getRegister _ c); [done|]. rewrite Hcp. apply wp_bind. unfold wp at 1. rewrite Hl. cbn [cas_status cas_slot cas_cap].
  case_decide as Hno; [done|]. apply wp_bind. unfold wp at 1. destruct (lookupIPCBuffer_spec k false t c Hc Bt) as [Eb _]. rewrite Eb.
  set (b := ipc_buffer k false t). apply wp_bind.
  eapply (wp_mono _ (λ st0 k', st0 = EXCEPTION_NONE ∧ k' = k <| current_extra_caps ::= <[0%nat := 0]> |>)).
  { unfold lookupExtraCaps. destruct (b =? 0); [by apply wp_bind, wp_modify, wp_ret|]. rewrite (proj1 Hs). cbn [Z.to_nat lookup_extra_caps].
    apply wp_bind, wp_ret. cbn. by apply wp_bind, wp_modify, wp_ret. }
  intros _ k1 [-> ->]. case_decide as Hno1; [done|]. apply wp_bind, wp_gets. apply wp_bind.
  eapply (wp_mono _ (λ st0 k', st0 = EXCEPTION_NONE ∧ ∃ ex, k' = st k call_tcbs (<[e := ep_without_first (tcbEPNext cd) x]> (eps k)) call_slots t d ex)).
  { unfold decodeInvocation. cbn [isArchCap negb]. apply wp_bind. unfold restart_current, setThreadState.
    apply st_wp_extra. rewrite Hcur, Hact.
    apply wp_bind, st_cur. apply wp_bind. eapply st_tcb_set; [exact Hc|]. eapply st_scheduleTCB_runs; [apply lookup_insert_eq|done|].
    unfold performInvocation_Endpoint. apply wp_bind, st_cur. apply wp_bind. eapply wp_mono; [apply slow_send|].
    intros _ k2 ->. apply wp_ret. eauto. }
  intros st0 k2 (-> & ex & ->). case_decide as Hp; [done|]. case_decide as Hp'; [done|]. apply wp_bind.
  assert (HTt : call_tcbs !! t = Some (c <| tsType := ThreadState_BlockedOnReply |>)).
  { unfold call_tcbs. rewrite lookup_insert_ne by done. apply lookup_insert_eq. }
  eapply st_tcb_at; [exact HTt|]. apply wp_bind, wp_ret, wp_ret. apply wp_ret. eauto.
Qed.

(** The system call [SysCall] leaves the same state. *)
Lemma slow_call active slot canReceive cptr : d ≠ SchedulerAction_ChooseNewThread →
  reg (registers c) capRegister = cptr →
  lookupCapAndSlot t cptr k = (Done (mk_cas_ret EXCEPTION_NONE (cap_endpoint_cap badge true true canReceive e) slot), k) →
  ∃ ex, handleSyscall io num_ioapics active SysCall k = (Done EXCEPTION_NONE, call_state ex).
Proof.
  intros Hd1 Hcp Hl.
  assert (H : wp (handleSyscall io num_ioapics active SysCall) (λ r k', r = EXCEPTION_NONE ∧ ∃ ex, k' = call_state ex) k).
  { unfold handleSyscall. cbn [Z.eqb SysCall SysSend SysNBSend]. apply wp_bind.
    eapply wp_mono; [by eapply slow_invocation|]. intros _ k1 (ex & ->). eapply wp_mono.
    { eapply (st_schedule _ _ _ _ _ _ _ (c <| tsType := ThreadState_BlockedOnReply |>)); [|done|apply lookup_insert_eq|done..].
      unfold call_tcbs. rewrite lookup_insert_ne by done. apply lookup_insert_eq. }
    intros r k2 [-> ->]. split; [done|]. by exists ex. }
  apply wp_done in H as (r & k' & E & -> & ex & ->). eauto.
Qed.
End slow.
End call.

(** ** When a thread enters the kernel *)

(** What holds when the running thread calls: the invariants of the scheduler, of
    the waiting queues and of the capability spaces; every thread but the idle one
    has its slots; the running thread waits for no reply, and a thread that waits
    to receive holds no right to reply. *)
Record call_ready (k : ks) (wq : Z → list Z) (c : tcb_t) : Prop := {
  cr_thread : tcbs k !! ksCurThread k = Some c;
  cr_runs : isRunnable_state (tsType c) = true;
  cr_action : ksSchedulerAction k = SchedulerAction_ResumeCurrentThread;
  cr_sched : sched_inv k;
  cr_ipc : ipc_ok k wq;
  cr_cspace : cspace_ok k;
  cr_radix : cnodes_pos k;
  cr_eps : ∀ slot s b g snd rcv e, ctes k !! slot = Some s → cte_cap s = cap_endpoint_cap b g snd rcv e → is_Some (eps k !! e);
  cr_slots : ∀ u cu, tcbs k !! u = Some cu → u ≠ ksIdleThread k →
    buffer_ok k u cu ∧ is_Some (ctes k !! TCB_PTR_CTE_PTR u tcbCTable) ∧ is_Some (ctes k !! TCB_PTR_CTE_PTR u tcbVTable);
  cr_master : ∃ p, ctes k !! TCB_PTR_CTE_PTR (ksCurThread k) tcbReply =
    Some (mk_cte (cap_reply_cap true (ksCurThread k)) (mdb_node_new 0 true true p));
  cr_caller : ∀ u cu, tcbs k !! u = Some cu → tsType cu = ThreadState_BlockedOnReceive →
    ctes k !! TCB_PTR_CTE_PTR u tcbCaller = Some (mk_cte cap_null_cap nullMDBNode)
}.

Section entry.
Context (k : ks) (wq : Z → list Z) (c : tcb_t) (R : call_ready k wq c).
Let t := ksCurThread k.

Lemma entry_not_idle : t ≠ ksIdleThread k.
Proof.
  intros E. destruct (si_idle _ _ (cr_sched _ _ _ R)) as (ci & Hi & Hs). rewrite <- E in Hi.
  unfold t in Hi. rewrite (cr_thread _ _ _ R) in Hi. injection Hi as <-. pose proof (cr_runs _ _ _ R) as H. by rewrite Hs in H.
Qed.

Lemma queued_runs u : queued k u → runnable k u.
Proof.
  destruct (si_rq _ _ (cr_sched _ _ _ R)) as (rq & Hok & Hr). intros (cu & Hu & Hq). eapply Hr, (so_queued _ _ Hok); done.
Qed.

(** The first thread that waits to receive on an endpoint. *)
Lemma entry_receiver e x : eps k !! e = Some x → epState x = EPState_Recv →
  let d := q_head (epQueue x) in ∃ cd, tcbs k !! d = Some cd ∧ t ≠ d ∧ d ≠ 0 ∧ d ≠ ksIdleThread k ∧
    tsType cd = ThreadState_BlockedOnReceive ∧ tcbQueued cd = false ∧ tcbDomain cd = ksCurDomain k ∧
    d ≠ SchedulerAction_ChooseNewThread ∧ tcbEPPrev cd = 0 ∧
    (tcbEPNext cd ≠ 0 → is_Some (tcbs k !! tcbEPNext cd) ∧ tcbEPNext cd ≠ t ∧ tcbEPNext cd ≠ d).
Proof.
  intros Hx Hst d. pose proof (cr_ipc _ _ _ R) as H. pose proof (cr_sched _ _ _ R) as I.
  assert (Ho : wait_obj k e = Some (epQueue x, Some ThreadState_BlockedOnReceive)) by (unfold wait_obj; rewrite Hx, Hst; done).
  destruct (io_queue _ _ _ H _ _ _ Ho) as [Hl Hne].
  assert (Hall : ∀ u, u ∈ wq e → ∃ cu, tcbs k !! u = Some cu ∧ tsType cu = ThreadState_BlockedOnReceive ∧ u ≠ t).
  { intros u Hu. destruct (io_in _ _ _ H _ _ Hu) as (q & st0 & cu & Ho' & Hcu & _ & Hs). rewrite Ho in Ho'. injection Ho' as _ <-.
    exists cu. split_and!; [done|done|]. intros ->. unfold t in Hcu. rewrite (cr_thread _ _ _ R) in Hcu. injection Hcu as <-.
    pose proof (cr_runs _ _ _ R) as Hr. by rewrite Hs in Hr. }
  destruct (wq e) as [|d' l] eqn:Eq; [by destruct Hne as [_ Hne]; specialize (Hne eq_refl)|].
  assert (d = d') as Ed by (unfold d; destruct Hl as (_ & _ & -> & _); done). clearbody d. subst d'.
  destruct (Hall d) as (cd & Hd & Hs & Hdt); [set_solver|]. exists cd.
  destruct (dlist_split ep_links (tcbs k) (epQueue x) [] d l cd Hl Hd) as (_ & Hseg & Hp & Hn).
  assert (Hin : d ∈ wq e) by (rewrite Eq; set_solver).
  destruct (si_rq _ _ I) as (rq & Hok & _). destruct (so_tcb _ _ Hok _ _ Hd) as (Hd0 & _ & Hdom).
  split_and!; try done.
  - by eapply waiting_not_idle.
  - destruct (tcbQueued cd) eqn:Hqd; [|done]. destruct (queued_runs d) as (cd' & Hd' & Hr); [by exists cd|].
    rewrite Hd in Hd'. injection Hd' as <-. by rewrite Hs in Hr.
  - rewrite Hdom. symmetry. apply (si_dom _ _ I).
  - by eapply si_ptr.
  - intros Hn0. change (nx ep_links cd) with (tcbEPNext cd) in Hn. rewrite Hn in *. destruct l as [|n l]; [done|]. cbn [first_or] in *.
    destruct (Hall n) as (cn & Hcn & _ & Hnt); [set_solver|]. split_and!; [by exists cn|done|].
    intros ->. destruct Hl as (Hnd & _). apply NoDup_cons in Hnd as [Hnd _]. set_solver.
Qed.

(** A capability that is found is in a slot: an endpoint it names exists. *)
Lemma lookup_endpoint slot g snd rcv b e cptr :
  lookupCapAndSlot t cptr k = (Done (mk_cas_ret EXCEPTION_NONE (cap_endpoint_cap b g snd rcv e) slot), k) → is_Some (eps k !! e).
Proof.
  unfold lookupCapAndSlot, mbind, M_bind, mret, M_ret. intros H. destruct (lookupSlot t cptr k) as [[lu|] k1]; [|done].
  destruct (decide _); [done|]. unfold cte_at in H. destruct (ctes k1 !! slot_slot lu) as [s|] eqn:Es; [|done].
  injection H as E _ ->. by eapply (cr_eps _ _ _ R).
Qed.

(** The checks read the state; those that pass give the endpoint, its badge and
    the receiver. *)
Lemma entry_checks cptr w : wp (fastpath_call_checks cptr w) (λ r k', k' = k ∧
  match r with
  | None => True
  | Some (e, badge, d) => short w ∧ tcbFault c = seL4_Fault_NullFault ∧
    ∃ x cd slot canReceive, eps k !! e = Some x ∧ epState x = EPState_Recv ∧ q_head (epQueue x) = d ∧
      tcbs k !! d = Some cd ∧ tcbPriority c ≤ tcbPriority cd ∧
      lookupCapAndSlot t cptr k = (Done (mk_cas_ret EXCEPTION_NONE (cap_endpoint_cap badge true true canReceive e) slot), k)
  end) k.
Proof.
  unfold fastpath_call_checks. apply wp_bind, wp_gets. fold t. apply wp_bind, (wp_tcb_at _ c); [apply R|].
  destruct (fastpath_mi_check w) eqn:Hmi; [by apply wp_ret|]. apply short_check in Hmi. cbn [orb].
  destruct (Z.eqb_spec (fault_type (tcbFault c)) 0) as [Hf|]; cbn [negb]; [|by apply wp_ret].
  assert (Hnf : tcbFault c = seL4_Fault_NullFault) by (by destruct (tcbFault c)).
  destruct (cr_slots _ _ _ R t c (cr_thread _ _ _ R) entry_not_idle) as (_ & [root Hroot] & _).
  apply wp_bind, (wp_cte_at _ root); [done|]. apply wp_bind.
  destruct (lookup_fp_agrees k t root cptr (cr_cspace _ _ _ R) (cr_radix _ _ _ R) Hroot) as (cap & Elu & Hag).
  unfold wp at 1. rewrite Elu. destruct cap as [| |badge canGrant canSend canReceive e| | | | | | | | | | | | | | | |]; try by apply wp_ret.
  destruct Hag as [[slot Hl]|[? _]]; [|done]. destruct canSend; [|by apply wp_ret].
  assert (Hx : is_Some (eps k !! e)) by exact (lookup_endpoint slot canGrant true canReceive badge e cptr Hl).
  destruct Hx as [x Hx].
  apply wp_bind, (wp_ep_at _ x); [done|]. case_decide as Hst; [by apply wp_ret|].
  destruct (entry_receiver e x Hx Hst) as (cd & Hd & Htd & _ & Hid & _). set (d := q_head (epQueue x)) in *.
  destruct (cr_slots _ _ _ R d cd Hd Hid) as (_ & _ & [v Hv]). apply wp_bind, (wp_cte_at _ v); [done|].
  destruct (isValidVTableRoot _); cbn [negb]; [|by apply wp_ret]. apply wp_bind, (wp_tcb_at _ cd); [done|].
  destruct (Z.ltb_spec (tcbPriority cd) (tcbPriority c)); [by apply wp_ret|]. destruct canGrant; cbn [negb]; [|by apply wp_ret].
  apply wp_ret. split; [done|]. split_and!; try done. eexists x, cd, slot, canReceive. by split_and!.
Qed.
End entry.

(** C4: the fast path of a call against the slow path.  For a thread that enters
    the kernel to call, [fastpath_call] either finds a reason to leave the work to
    [slowpath] and has changed nothing, or it ends in the state [ks'] in which
    [handleSyscall] with [SysCall] ends, up to two things: the scratch list of
    extra capabilities, which only the slow path writes, and the field
    [blockingObject] of the caller and of the receiver, which the fast path clears
    and the slow path leaves.  Neither thread waits on an object then, so that the
    field is dead ([forget_blocking_ok]: the invariants of the scheduler and of the
    queues do not see it).  In that state the receiver has left the queue of the
    endpoint, has the message and the badge in its registers and the right to reply
    in its slot, and runs; the caller waits for the reply. *)
Theorem fastpath_call_correct io num_ioapics active k wq c : call_ready k wq c →
  wp (fastpath_call (reg (registers c) capRegister) (reg (registers c) msgInfoRegister)) (λ taken k',
    if taken : bool then
      ∃ ks', handleSyscall io num_ioapics active SysCall k = (Done EXCEPTION_NONE, ks') ∧
        k' = forget_blocking [ksCurThread k; ksCurThread k'] ks' <| current_extra_caps := current_extra_caps k |> ∧
        Forall (not_waiting ks') [ksCurThread k; ksCurThread k']
    else k' = k) k.
Proof.
  intros R. unfold fastpath_call. apply wp_bind. eapply wp_mono; [by apply (entry_checks k wq c R)|].
  intros [[[e badge] d]|] k' [-> H]; [|by apply wp_ret]. destruct H as (Hs & Hf & x & cd & slot & rcv & Hx & Hst & Hh & Hd & Hp & Hl).
  destruct (entry_receiver k wq c R e x Hx Hst) as (cd' & Hd' & Htd & Hd0 & Hid & Hb & Hq & Hdom & Hch & Hprev & Hnext).
  rewrite Hh in *. rewrite Hd in Hd'. injection Hd' as <-. pose proof (cr_thread _ _ _ R) as Hc.
  destruct (cr_slots _ _ _ R _ _ Hc (entry_not_idle k wq c R)) as [Bt _]. destruct (cr_slots _ _ _ R _ _ Hd Hid) as [Bd _].
  destruct (cr_master _ _ _ R) as [p Hm]. pose proof (cr_caller _ _ _ R d cd Hd Hb) as Hcs. pose proof (cr_action _ _ _ R) as Ha.
  apply wp_bind. eapply wp_mono; [by eapply fastpath_call_commits|]. intros _ k' ->. apply wp_ret.
  set (w := reg (registers c) msgInfoRegister) in *.
  assert (Hslow : ∃ ex, handleSyscall io num_ioapics active SysCall k =
    (Done EXCEPTION_NONE, call_state k (ksCurThread k) d e badge w c cd x p ex)) by (eapply slow_call; done).
  destruct Hslow as [ex E]. eexists. split; [exact E|]. split; [reflexivity|]. by apply (call_not_waiting k (ksCurThread k)).
Qed.

(** ** A client and a server *)

(** The client's capability space is a CNode of two slots, the second with a
    badged capability to the endpoint; its message has two words. *)
Definition pair_client : Z := 8704.
Definition pair_server : Z := 10752.
Definition pair_cnode : cap_t := cap_cnode_cap 1 0 0 16384.
Definition pair_client_tcb : tcb_t :=
  demo_tcb ThreadState_Running 100 <| registers := list_to_map [(capRegister, 2147483648); (msgInfoRegister, 28674); (EDI, 11); (EBP, 22)] |>.
Definition pair_server_tcb : tcb_t := demo_waiter ThreadState_BlockedOnReceive 110 700 0 0 0.
Definition pair_frame : cap_t := cap_frame_cap X86_SmallPage 0 0 0 false VMReadWrite 65536.
Definition pair_slot (c : cap_t) : cte_t := mk_cte c nullMDBNode.
Definition pair_master (t : Z) : cte_t := mk_cte (cap_reply_cap true t) (mdb_node_new 0 true true 0).
Definition pair_slots : list (Z * cte_t) :=
  [(8192, pair_slot pair_cnode); (8208, pair_slot (cap_page_directory_cap true 0 0 1)); (8224, pair_master pair_client);
   (8240, pair_slot cap_null_cap); (8256, pair_slot pair_frame);
   (10240, pair_slot cap_null_cap); (10256, pair_slot (cap_page_directory_cap true 0 0 2)); (10272, pair_master pair_server);
   (10288, pair_slot cap_null_cap); (10304, pair_slot pair_frame);
   (16384, pair_slot cap_null_cap); (16400, pair_slot (cap_endpoint_cap 7 true true false 700))].
Definition pair_threads : list (Z * tcb_t) :=
  [(8, demo_tcb ThreadState_IdleThreadState 0); (pair_client, pair_client_tcb); (pair_server, pair_server_tcb)].
Definition pair_ks : ks :=
  demo_boot <| tcbs := list_to_map pair_threads |> <| ntfns := ∅ |>
    <| eps := {[ 700 := mk_ep EPState_Recv (mk_queue pair_server pair_server) ]} |>
    <| ctes := list_to_map pair_slots |> <| ksCurThread := pair_client |>.
Definition pair_wq : Z → list Z := <[700 := [pair_server]]> (λ _, []).

(** Every entry of a map that is given by a list. *)
Lemma list_cases {A} (l : list (Z * A)) (P : Z → A → Prop) :
  Forall (λ e, P e.1 e.2) l → ∀ p a, (list_to_map l : gmap Z A) !! p = Some a → P p a.
Proof. intros H p a Hp%elem_of_list_to_map_2. rewrite Forall_forall in H. exact (H _ Hp). Qed.
(** One goal for each entry of a list. *)
Ltac each := repeat (apply Forall_cons; split; [cbn [fst snd]|]); try apply Forall_nil.

Lemma pair_sched : sched_inv pair_ks.
Proof.
  split.
  - exists (λ _, []). split; [|by intros p t []%elem_of_nil]. apply sched_ok_boot. split_and!; try done.
    apply map_Forall_lookup. apply (list_cases pair_threads). each; done.
  - apply (list_cases pair_threads (λ t _, t ≠ SchedulerAction_ChooseNewThread)). each; done.
  - eexists. vm_compute. reflexivity.
  - split; [reflexivity|]. vm_compute. discriminate.
  - by left.
  - intros _. left. exists pair_client_tcb. split; vm_compute; reflexivity.
  - intros t (c & Hc & Hr) _. revert t c Hc Hr.
    apply (list_cases pair_threads (λ t c, isRunnable_state (tsType c) = true → queued pair_ks t ∨ t = ksCurThread pair_ks ∨ t = ksSchedulerAction pair_ks)).
    each; try done. by right; left.
  - eexists. split; vm_compute; reflexivity.
Qed.

Lemma pair_wq_in a t : t ∈ pair_wq a → a = 700 ∧ t = pair_server.
Proof.
  unfold pair_wq. destruct (decide (700 = a)) as [<-|H1]; [rewrite fn_lookup_insert; set_solver|].
  rewrite fn_lookup_insert_ne by done. by rewrite elem_of_nil.
Qed.

Lemma pair_ipc : ipc_ok pair_ks pair_wq.
Proof.
  split.
  - intros a _. done.
  - intros a q w. unfold wait_obj. change (eps pair_ks) with ({[ 700 := mk_ep EPState_Recv (mk_queue pair_server pair_server) ]} : gmap Z endpoint_t).
    destruct (decide (a = 700)) as [->|Hne]; [|by rewrite lookup_singleton_ne].
    rewrite lookup_singleton_eq. intros [= <- <-]. split; [|done]. split_and!; [apply NoDup_singleton| |done|done].
    split; [done|]. split; [|done]. eexists. split; [vm_compute; reflexivity|done].
  - intros a t [-> ->]%pair_wq_in. eexists _, _, _. split; [vm_compute; reflexivity|]. split; [vm_compute; reflexivity|done].
  - apply (list_cases pair_threads (λ t c, waiting_state (tsType c) = true → t ∉ [] → t ∈ pair_wq (blockingObject c))).
    each; try done. intros _ _. apply (bool_decide_unpack _). by vm_compute.
  - intros t a Ht. by apply elem_of_nil in Ht.
Qed.

Lemma pair_ready : call_ready pair_ks pair_wq pair_client_tcb.
Proof.
  split.
  - vm_compute. reflexivity.
  - reflexivity.
  - reflexivity.
  - exact pair_sched.
  - exact pair_ipc.
  - apply map_Forall_lookup, (list_cases pair_slots). each; try done. cbn. split_and!; try lia. intros i Hi.
    assert (Hcase : i = 0 ∨ i = 1) by lia. destruct Hcase as [-> | ->]; eexists; vm_compute; reflexivity.
  - apply map_Forall_lookup, (list_cases pair_slots). each; done.
  - intros p s. revert p s. assert (H := (list_cases pair_slots) (λ p s, ∀ b g snd rcv e, cte_cap s = cap_endpoint_cap b g snd rcv e → is_Some (eps pair_ks !! e))).
    intros p s b g snd rcv e Hs. revert p s Hs b g snd rcv e. apply H. each; try done.
    intros b g snd rcv e [= <- <- <- <- <-]. eexists. vm_compute. reflexivity.
  - apply (list_cases pair_threads (λ u cu, u ≠ ksIdleThread pair_ks → buffer_ok pair_ks u cu ∧
      is_Some (ctes pair_ks !! TCB_PTR_CTE_PTR u tcbCTable) ∧ is_Some (ctes pair_ks !! TCB_PTR_CTE_PTR u tcbVTable))).
    each; try done; intros _; (split; [|split; eexists; vm_compute; reflexivity]); (split; [by exists 0|]);
      (exists (pair_slot pair_frame); split; [vm_compute; reflexivity|]; split; [by left|by exists 16]).
  - exists 0. vm_compute. reflexivity.
  - apply (list_cases pair_threads (λ u cu, tsType cu = ThreadState_BlockedOnReceive →
      ctes pair_ks !! TCB_PTR_CTE_PTR u tcbCaller = Some (mk_cte cap_null_cap nullMDBNode))).
    each; try done.
Qed.

Lemma fastpath_call_correct_witness :
  wp (fastpath_call 2147483648 28674) (λ taken k',
    if taken : bool then
      ∃ ks', handleSyscall (mk_io 0 0) 1 255 SysCall pair_ks = (Done EXCEPTION_NONE, ks') ∧
        k' = forget_blocking [ksCurThread pair_ks; ksCurThread k'] ks'
          <| current_extra_caps := current_extra_caps pair_ks |> ∧
        Forall (not_waiting ks') [ksCurThread pair_ks; ksCurThread k']
    else k' = pair_ks) pair_ks.
Proof.
  exact (fastpath_call_correct (mk_io 0 0) 1 255 pair_ks pair_wq pair_client_tcb pair_ready).
Defined.

(** The call of the client takes the fast path: the server has the message, the
    badge and the right to reply; and the receiver's [blockingObject], which the slow
    path keeps, is cleared. *)
Example pair_call :
  let r := fastpath_call 2147483648 28674 pair_ks in
  fst r = Done true ∧ ksCurThread (snd r) = pair_server ∧
  (λ c, (reg (registers c) EDI, reg (registers c) EBP, reg (registers c) badgeRegister)) <$> tcbs (snd r) !! pair_server = Some (11, 22, 7) ∧
  cte_cap <$> ctes (snd r) !! 10288 = Some (cap_reply_cap false pair_client) ∧
  blockingObject <$> tcbs (snd r) !! pair_server = Some 0 ∧
  blockingObject <$> tcbs (snd (handleSyscall (mk_io 0 0) 1 255 SysCall pair_ks)) !! pair_server = Some 700.
Proof. vm_compute. split_and!; reflexivity. Qed.
