(* ===== verification/FastReply.v ===== *)
(** The fast path of a reply followed by a receive against the slow path: when
    [fastpath_reply_recv] does not leave the work to [slowpath], it ends in the
    state in which [handleSyscall] with [SysReplyRecv] ends but for the field
    [blockingObject] of the caller that wakes, which it clears. *)

From stdpp Require Import functions.
From S2P Require Import Prelude Messages Caps Kernel CSpace CNode Scheduler Wakeup Paging VSpace IOSpace Ipc Waiting Signals.
From S2P Require Import Cancel Transfer Endpoint Reply Retype Reset Creation Deletion Finalise Revoke Decode.
From S2P Require Import Threads Mmu Devices Interrupts Syscall Fastpath FastCall.
Import MessageInfo.

(** ** Lookups see CNodes alone *)

(** What a walk reads of a slot on its way. *)
Definition cnode_view (s : cte_t) : option cap_t := if is_cnode (cte_cap s) then Some (cte_cap s) else None.
Definition same_cnodes (k k' : ks) : Prop := ∀ p, cnode_view <$> ctes k' !! p = cnode_view <$> ctes k !! p.

Lemma same_cnodes_lookup k k' p s : same_cnodes k k' → ctes k !! p = Some s →
  ∃ s', ctes k' !! p = Some s' ∧ cnode_view s' = cnode_view s.
Proof.
  intros H Hs. specialize (H p). rewrite Hs in H. cbn in H. destruct (ctes k' !! p) as [s'|]; [|done].
  injection H as H. by exists s'.
Qed.

Lemma cnode_wf_same k k' c : same_cnodes k k' → cnode_wf k c → cnode_wf k' c.
Proof.
  intros H. destruct c; try done. cbn [cnode_wf]. intros (? & ? & ? & ? & Hs). split_and!; try lia.
  intros i Hi. destruct (Hs i Hi) as [s Hp]. destruct (same_cnodes_lookup _ _ _ _ H Hp) as (s' & -> & _). by eexists.
Qed.

Lemma cspace_ok_same k k' : same_cnodes k k' → cspace_ok k → cspace_ok k'.
Proof.
  intros H Hok p s' Hs'. pose proof (H p) as E. rewrite Hs' in E. cbn in E. destruct (ctes k !! p) as [s|] eqn:Hs; [|done].
  injection E as E. destruct (is_cnode (cte_cap s')) eqn:Ec; [|by destruct (cte_cap s')].
  unfold cnode_view in E. rewrite Ec in E. destruct (is_cnode (cte_cap s)); [|done]. injection E as ->.
  apply (cnode_wf_same k); [done|]. exact (Hok _ _ Hs).
Qed.

Lemma walks_same k k' c l w : same_cnodes k k' → walks k c l w → walks k' c l w.
Proof.
  intros H. induction 1 as [| | |radix gs g ptr i rest c Hi Hr Hc Hn|radix gs g ptr i rest c w Hi Hr Hc Hn Hw IH]; try by constructor.
  - destruct (same_cnodes_lookup _ _ _ _ H Hc) as (c' & Hc' & E). unfold cnode_view in E. rewrite Hn in E.
    destruct (is_cnode (cte_cap c')) eqn:En; [done|]. by apply (walks_leaf k' radix gs g ptr i rest c').
  - destruct (same_cnodes_lookup _ _ _ _ H Hc) as (c' & Hc' & E). unfold cnode_view in E. rewrite Hn in E.
    destruct (is_cnode (cte_cap c')) eqn:En; [|done]. injection E as E. rewrite <- E in IH.
    by apply (walks_next k' radix gs g ptr i rest c').
Qed.

(** A capability that is found is found again when other slots that hold no CNode
    have changed. *)
Lemma lookupCap_same k k' t cptr cap slot : cspace_ok k → same_cnodes k k' →
  lookupCapAndSlot t cptr k = (Done (mk_cas_ret EXCEPTION_NONE cap slot), k) →
  (∀ s, ctes k !! slot = Some s → cte_cap s = cap → cte_cap <$> ctes k' !! slot = Some cap) →
  lookupCap t cptr k' = (Done (mk_cap_ret EXCEPTION_NONE cap), k').
Proof.
  intros Hok H Hl Hcap. pose proof (cspace_ok_same k k' H Hok) as Hok'. revert Hl.
  unfold lookupCapAndSlot, lookupCap, lookupSlot, mbind, M_bind, mret, M_ret. unfold cte_at at 1 3.
  destruct (ctes k !! TCB_PTR_CTE_PTR t tcbCTable) as [root|] eqn:Hroot; [|done]. cbv beta iota zeta.
  destruct (same_cnodes_lookup _ _ _ _ H Hroot) as (root' & Hroot' & Er). rewrite Hroot'.
  destruct (is_cnode (cte_cap root)) eqn:Ec.
  2:{ unfold resolveAddressBits at 1. rewrite Ec. by cbn. }
  unfold cnode_view in Er. rewrite Ec in Er. destruct (is_cnode (cte_cap root')) eqn:Ec'; [|done]. injection Er as Er.
  destruct (resolveAddressBits_walk k (cte_cap root) cptr 32 Hok (Hok _ _ Hroot) Ec ltac:(lia)) as (w & Hw & E).
  destruct (resolveAddressBits_walk k' (cte_cap root') cptr 32 Hok' (Hok' _ _ Hroot') Ec' ltac:(lia)) as (w' & Hw' & E').
  change wordBits with 32. rewrite E, E'. apply (walks_same k k' _ _ _ H) in Hw. rewrite <- Er in Hw.
  rewrite (walks_det _ _ _ _ _ Hw Hw') in *. destruct w' as [p rest|f]; cbn [walk_result res_status res_slot slot_status slot_slot].
  - case_decide as Hd; [by contradict Hd|]. unfold cte_at. destruct (ctes k !! p) as [s|] eqn:Hs; [|done].
    intros [= Ecap ->]. specialize (Hcap s Hs Ecap). destruct (ctes k' !! slot) as [s'|]; [|done]. injection Hcap as ->. done.
  - case_decide as Hd; [done|]. by contradict Hd.
Qed.

(** ** A reply and a receive *)

(** The last thread of a queue is followed by [t]. *)
Definition link_tail (tail t : Z) (h : gmap Z tcb_t) : gmap Z tcb_t :=
  if tail =? 0 then h else alter (λ c, c <| tcbEPNext := t |>) tail h.
Definition ep_with_last (t : Z) (x : endpoint_t) : endpoint_t :=
  x <| epQueue ::= λ q, mk_queue (if q_end q =? 0 then t else q_head q) t |> <| epState := EPState_Recv |>.

Lemma ep_with_last_end t x : q_end (epQueue x) ≠ 0 →
  ep_with_last t x = x <| epQueue ::= λ q, q <| q_end := t |> |> <| epState := EPState_Recv |>.
Proof.
  destruct x as [xs [xh xe]]. cbn. intros E. transitivity (mk_ep EPState_Recv (mk_queue (if xe =? 0 then t else xh) t)); [done|].
  by rewrite (proj2 (Z.eqb_neq xe 0) E).
Qed.
Lemma ep_with_last_empty t x : q_end (epQueue x) = 0 →
  ep_with_last t x = x <| epQueue ::= λ q, q <| q_head := t |> |> <| epQueue ::= λ q, q <| q_end := t |> |> <| epState := EPState_Recv |>.
Proof. destruct x as [xs [xh xe]]. cbn. by intros ->. Qed.

Section reply.
Context (k : ks) (t d e w : Z) (c cd : tcb_t) (x : endpoint_t) (p : Z) (rv fb : bool).
Hypotheses (Hcur : ksCurThread k = t) (Hact : ksSchedulerAction k = SchedulerAction_ResumeCurrentThread).
Hypotheses (Hc : tcbs k !! t = Some c) (Hd : tcbs k !! d = Some cd) (Hne : t ≠ d).
Hypotheses (Hx : eps k !! e = Some x) (Hst : epState x ≠ EPState_Send).
Let tail := q_end (epQueue x).
Hypotheses (Hends : q_head (epQueue x) = 0 ↔ tail = 0)
  (Htail : tail ≠ 0 → is_Some (tcbs k !! tail) ∧ tail ≠ t ∧ tail ≠ d).
Hypotheses (Hrep : tsType cd = ThreadState_BlockedOnReply) (Hq : tcbQueued cd = false) (Hd0 : d ≠ 0) (Hd1 : d ≠ SchedulerAction_ChooseNewThread).
Hypotheses (Hprio : tcbPriority c ≤ tcbPriority cd) (Hdom : tcbDomain cd = ksCurDomain k).
Hypotheses (Hf : tcbFault c = seL4_Fault_NullFault) (Hfd : tcbFault cd = seL4_Fault_NullFault).
Hypotheses (Hw : reg (registers c) msgInfoRegister = w) (Hs : short w).
Hypotheses (Bt : buffer_ok k t c) (Bd : buffer_ok k d cd).
Hypothesis Hbound : tcbBoundNotification c ≠ 0 →
  ∃ n, ntfns k !! tcbBoundNotification c = Some n ∧ ntfnState n ≠ NtfnState_Active.
Let replySlot := TCB_PTR_CTE_PTR d tcbReply.
Let callerSlot := TCB_PTR_CTE_PTR t tcbCaller.
Hypotheses (Hcs : ctes k !! callerSlot = Some (mk_cte (cap_reply_cap false d) (mdb_node_new 0 rv fb replySlot)))
  (Hm : ctes k !! replySlot = Some (mk_cte (cap_reply_cap true d) (mdb_node_new callerSlot true true p))) (Hr0 : replySlot ≠ 0).

Definition waiting_tcb : tcb_t :=
  c <| tsType := ThreadState_BlockedOnReceive |> <| blockingObject := e |> <| tcbEPPrev := tail |> <| tcbEPNext := 0 |>.
Definition replied_tcb : tcb_t :=
  cd <| registers := short_regs w 0 (registers c) (registers cd) |> <| tsType := ThreadState_Running |>.
Definition reply_tcbs : gmap Z tcb_t := <[d := replied_tcb]> (<[t := waiting_tcb]> (link_tail tail t (tcbs k))).
Definition reply_slots_after : gmap Z cte_t :=
  <[callerSlot := mk_cte cap_null_cap nullMDBNode]>
    (<[replySlot := mk_cte (cap_reply_cap true d) (mdb_node_new 0 true true p)]> (ctes k)).
(** The state after the system call by the slow path. *)
Definition reply_state (ex : list Z) : ks :=
  st k reply_tcbs (<[e := ep_with_last t x]> (eps k)) reply_slots_after d SchedulerAction_ResumeCurrentThread ex.

Lemma reply_slots_apart : replySlot ≠ callerSlot.
Proof. intros E. rewrite E, Hcs in Hm. done. Qed.

Lemma link_tail_insert u y h : tail ≠ u → link_tail tail t (<[u := y]> h) = <[u := y]> (link_tail tail t h).
Proof. intros Hn. unfold link_tail. destruct (_ =? _); [done|]. by rewrite alter_insert_ne. Qed.
Lemma link_tail_insert_0 u y h : (tail ≠ 0 → tail ≠ u) → link_tail tail t (<[u := y]> h) = <[u := y]> (link_tail tail t h).
Proof. intros Hn. unfold link_tail. destruct (Z.eqb_spec tail 0) as [|E]; [done|]. rewrite alter_insert_ne; auto. Qed.
Lemma link_tail_keeps u h : (tail ≠ 0 → tail ≠ u) → link_tail tail t h !! u = h !! u.
Proof. intros Hn. unfold link_tail. destruct (Z.eqb_spec tail 0) as [|E]; [done|]. rewrite lookup_alter_ne; auto. Qed.
Lemma tail_t : tail ≠ 0 → tail ≠ t.
Proof. intros E. by apply Htail. Qed.
Lemma tail_d : tail ≠ 0 → tail ≠ d.
Proof. intros E. by apply Htail. Qed.

(** The thread goes to the end of the queue; the code of the fast path. *)
Lemma fast_append C u a ex (rest : K unit) (Q : unit → ks → Prop) :
  wp rest Q (st k (<[t := waiting_tcb]> (link_tail tail t (tcbs k))) (<[e := ep_with_last t x]> (eps k)) C u a ex) →
  wp (tcb_set t (λ c, c <| blockingObject := e |> <| tsType := ThreadState_BlockedOnReceive |>);;
      x ← ep_at e;
      let endpointTail := q_end (epQueue x) in
      (if endpointTail =? 0 then
         tcb_set t (λ c, c <| tcbEPPrev := 0 |>);;
         tcb_set t (λ c, c <| tcbEPNext := 0 |>);;
         ep_set e (λ x, x <| epQueue ::= λ q, q <| q_head := t |> |>);;
         ep_set e (λ x, x <| epQueue ::= λ q, q <| q_end := t |> |> <| epState := EPState_Recv |>)
       else
         tcb_set endpointTail (λ c, c <| tcbEPNext := t |>);;
         tcb_set t (λ c, c <| tcbEPPrev := endpointTail |>);;
         tcb_set t (λ c, c <| tcbEPNext := 0 |>);;
         ep_set e (λ x, x <| epQueue ::= λ q, q <| q_end := t |> |> <| epState := EPState_Recv |>));; rest) Q
    (st k (tcbs k) (eps k) C u a ex).
Proof.
  intros HQ. apply wp_bind. eapply st_tcb_set; [exact Hc|]. apply wp_bind. eapply st_ep_at; [exact Hx|]. cbv zeta. fold tail.
  apply wp_bind. unfold waiting_tcb, link_tail in HQ. fold tail in HQ. destruct (Z.eqb_spec tail 0) as [E|E].
  - apply wp_bind. eapply st_tcb_set; [look|]. apply wp_bind. eapply st_tcb_set; [look|]. rewrite !insert_insert_eq.
    apply wp_bind. eapply st_ep_set; [exact Hx|]. eapply st_ep_set; [apply lookup_insert_eq|]. rewrite insert_insert_eq.
    rewrite ep_with_last_empty in HQ by exact E. rewrite E in HQ. exact HQ.
  - destruct (Htail E) as ([n Hn] & Ht & _). apply wp_bind. eapply st_tcb_set; [rewrite lookup_insert_ne by done; exact Hn|].
    apply wp_bind. eapply st_tcb_set; [look|]. apply wp_bind. eapply st_tcb_set; [look|].
    eapply st_ep_set; [exact Hx|]. rewrite !insert_insert_eq. rewrite (insert_insert_ne _ tail t), insert_insert_eq by done.
    rewrite (alter_alt_Some _ _ _ n Hn) in HQ. rewrite ep_with_last_end in HQ by exact E. exact HQ.
Qed.

(** The caller has forgotten the object it once waited for. *)
Lemma reply_forget ex : forget_blocking [d] (reply_state ex) =
  st k (<[d := set_tsType_np ThreadState_Running (cd <| registers := short_regs w 0 (registers c) (registers cd) |>)]>
    (<[t := waiting_tcb]> (link_tail tail t (tcbs k))))
    (<[e := ep_with_last t x]> (eps k)) reply_slots_after d SchedulerAction_ResumeCurrentThread ex.
Proof.
  unfold forget_blocking, reply_state. cbn [foldr].
  match goal with |- st k ?T ?E ?C ?u ?a ?x <| tcbs ::= _ |> = st k ?T' _ _ _ _ _ => assert (ET : forget d T = T') end.
  { unfold reply_tcbs, forget. rewrite alter_insert_eq. reflexivity. }
  rewrite <- ET. reflexivity.
Qed.
Lemma reply_not_waiting ex : not_waiting (reply_state ex) d.
Proof. unfold not_waiting, reply_state, reply_tcbs; cbn. rewrite lookup_insert_eq. by eexists. Qed.

Lemma fastpath_reply_recv_commits :
  wp (fastpath_reply_recv_commit e d w) (λ _ k', k' = forget_blocking [d] (reply_state (current_extra_caps k))) k.
Proof.
  rewrite reply_forget.
  apply st_wp. rewrite Hcur, Hact. unfold fastpath_reply_recv_commit. apply wp_bind, st_cur. apply fast_append.
  pose proof reply_slots_apart as Hap. cbv zeta. fold callerSlot. apply wp_bind. eapply st_cte_at; [exact Hcs|]. cbn [cteMDBNode mdbPrev].
  unfold fastpath_mdb_next. apply wp_bind. eapply st_cte_set; [exact Hm|]. apply wp_bind. eapply st_cte_set; [look|].
  apply wp_bind. eapply st_cte_set; [look|]. rewrite insert_insert_eq.
  eapply wp_mono; [eapply (fast_finish _ _ _ _ _ _ _ t waiting_tcb d cd w 0); [apply lookup_insert_eq| |done|done]|].
  { rewrite lookup_insert_ne by done. rewrite link_tail_keeps by exact tail_d. exact Hd. }
  by intros _ k' ->.
Qed.

(** *** The slow path of it *)

(** The reply capability is deleted. *)
Lemma slow_delete_reply T E u a ex :
  wp (cteDeleteOne callerSlot) (λ _ k', k' = st k T E reply_slots_after u a ex) (st k T E (ctes k) u a ex).
Proof.
  pose proof reply_slots_apart as Hap. unfold cteDeleteOne. apply wp_bind. eapply st_cte_at; [exact Hcs|]. cbn [cte_cap is_null negb].
  apply wp_bind. unfold isFinalCapability. apply wp_bind. eapply st_cte_at; [exact Hcs|]. cbn [cteMDBNode mdbPrev mdbNext].
  rewrite (proj2 (Z.eqb_neq replySlot 0) Hr0). apply wp_bind, wp_bind. eapply st_cte_at; [exact Hm|].
  apply (wp_lifted _ (d =? d)); [done|]. rewrite Z.eqb_refl. apply wp_ret. apply wp_bind. eapply st_cte_at; [exact Hcs|].
  apply wp_bind. unfold finaliseCap_exposed. apply wp_bind, wp_ret, wp_ret. apply wp_bind, (wp_lifted _ true); [done|].
  apply wp_bind, wp_assert; [done|]. unfold emptySlot. apply wp_bind. eapply st_cte_at; [exact Hcs|].
  cbn [cte_cap is_null negb cteMDBNode mdbPrev mdbNext]. rewrite (proj2 (Z.eqb_neq replySlot 0) Hr0). cbn [negb when].
  apply wp_bind. eapply st_cte_set; [exact Hm|]. apply wp_bind, wp_ret. apply wp_bind, wp_ret.
  apply wp_bind. eapply st_cte_set; [look|]. apply wp_bind. eapply st_cte_set; [look|]. apply wp_ret.
  by rewrite insert_insert_eq.
Qed.

Lemma slow_reply : wp handleReply
  (λ _ k', k' = st k (<[d := replied_tcb]> (tcbs k)) (eps k) reply_slots_after t d (<[0%nat := 0]> (current_extra_caps k))) k.
Proof.
  apply st_wp. rewrite Hcur, Hact. unfold handleReply. apply wp_bind, st_cur. cbv zeta. fold callerSlot.
  apply wp_bind. eapply st_cte_at; [exact Hcs|]. cbn [cte_cap]. rewrite (proj2 (Z.eqb_neq d t)) by done. apply wp_bind, wp_ret.
  unfold doReplyTransfer. apply wp_bind. eapply st_tcb_at; [exact Hd|]. rewrite Hrep, Hfd. apply wp_bind, wp_ret. cbn [fault_type Z.eqb].
  apply wp_bind. eapply wp_mono; [by eapply (slow_transfer k t d 0 0 w c cd Hne Hf Hw Hs Bt Bd (tcbs k) (eps k) t _ _ c)|]. intros _ k1 ->.
  apply wp_bind. eapply wp_mono; [apply slow_delete_reply|]. intros _ k2 ->.
  unfold setThreadState. apply wp_bind, wp_bind. eapply st_tcb_set; [apply lookup_insert_eq|]. rewrite insert_insert_eq.
  apply st_scheduleTCB; [by left|]. fold replied_tcb.
  eapply (slow_switch k t d c cd Hprio Hdom _ _ _ _ c replied_tcb); try done; [by rewrite lookup_insert_ne|apply lookup_insert_eq].
Qed.

(** The thread goes to the end of the queue; the code of the slow path. *)
Lemma slow_append T C u ex : T !! t = Some c → (tail ≠ 0 → is_Some (T !! tail)) →
  wp (tcb_set t (λ c, c <| tsType := ThreadState_BlockedOnReceive |>);;
      tcb_set t (λ c, c <| blockingObject := e |>);;
      scheduleTCB t;;
      queue ← ep_ptr_get_queue e;
      queue ← tcbEPAppend t queue;
      set_ep_state e EPState_Recv;;
      ep_ptr_set_queue e queue)
    (λ _ k', k' = st k (<[t := waiting_tcb]> (link_tail tail t T)) (<[e := ep_with_last t x]> (eps k)) C u d ex)
    (st k T (eps k) C u d ex).
Proof.
  intros HT Hn. apply wp_bind. eapply st_tcb_set; [exact HT|]. apply wp_bind. eapply st_tcb_set; [look|]. rewrite insert_insert_eq.
  apply wp_bind. apply st_scheduleTCB; [by right|]. unfold ep_ptr_get_queue. apply wp_bind, wp_bind. eapply st_ep_at; [exact Hx|]. apply wp_ret.
  cbv beta zeta. unfold tcbEPAppend, set_ep_state, ep_ptr_set_queue, waiting_tcb, link_tail. fold tail. apply wp_bind, wp_bind.
  destruct (Z.eqb_spec tail 0) as [E|E].
  - rewrite (proj2 Hends E). cbn [Z.eqb]. apply wp_ret. apply wp_bind. eapply st_tcb_set; [look|]. apply wp_bind. eapply st_tcb_set; [look|].
    apply wp_ret. apply wp_bind. eapply st_ep_set; [exact Hx|]. eapply st_ep_set; [apply lookup_insert_eq|]. rewrite !insert_insert_eq.
    rewrite ep_with_last_empty by exact E. change (q_end (epQueue x <| q_head := t |>)) with tail. done.
  - destruct (Z.eqb_spec (q_head (epQueue x)) 0) as [E'|E']; [by apply Hends in E'|].
    destruct (Hn E) as [n HTn]. pose proof (tail_t E) as Ht.
    apply wp_bind. eapply st_tcb_set; [rewrite lookup_insert_ne by done; exact HTn|]. apply wp_ret.
    apply wp_bind. eapply st_tcb_set; [look|]. apply wp_bind. eapply st_tcb_set; [look|].
    apply wp_ret. apply wp_bind. eapply st_ep_set; [exact Hx|]. eapply st_ep_set; [apply lookup_insert_eq|]. rewrite !insert_insert_eq.
    rewrite ep_with_last_end by exact E. rewrite (insert_insert_ne _ tail t), insert_insert_eq by done.
    by rewrite (alter_alt_Some _ _ _ n HTn).
Qed.

Lemma reply_same_cnodes T E u a ex : same_cnodes k (st k T E reply_slots_after u a ex).
Proof.
  intros q. change (cnode_view <$> reply_slots_after !! q = cnode_view <$> ctes k !! q). unfold reply_slots_after.
  destruct (decide (callerSlot = q)) as [<-|Hq1]; [by rewrite lookup_insert_eq, Hcs|]. rewrite lookup_insert_ne by done.
  destruct (decide (replySlot = q)) as [<-|Hq2]; [by rewrite lookup_insert_eq, Hm|]. by rewrite lookup_insert_ne.
Qed.

Lemma slow_receive slot b g sd cptr E ex : cspace_ok k → reg (registers c) capRegister = cptr →
  lookupCapAndSlot t cptr k = (Done (mk_cas_ret EXCEPTION_NONE (cap_endpoint_cap b g sd true e) slot), k) → E = eps k →
  wp (handleRecv true) (λ _ k', k' = st k reply_tcbs (<[e := ep_with_last t x]> (eps k)) reply_slots_after t d ex)
    (st k (<[d := replied_tcb]> (tcbs k)) E reply_slots_after t d ex).
Proof.
  intros Hok Hcp Hl ->. set (T := <[d := replied_tcb]> (tcbs k)). assert (HTt : T !! t = Some c) by (unfold T; by rewrite lookup_insert_ne).
  unfold handleRecv. apply wp_bind, st_cur. apply wp_bind. eapply st_register; [exact HTt|]. rewrite Hcp.
  set (s := st k T (eps k) reply_slots_after t d ex). apply wp_bind. unfold wp at 1.
  rewrite (lookupCap_same k s t cptr (cap_endpoint_cap b g sd true e) slot Hok (reply_same_cnodes _ _ _ _ _) Hl).
  2:{ intros s0 Hs0 Ecap. change (cte_cap <$> reply_slots_after !! slot = Some (cap_endpoint_cap b g sd true e)). unfold reply_slots_after.
      rewrite lookup_insert_ne by (intros E; rewrite <- E, Hcs in Hs0; by injection Hs0 as <-).
      rewrite lookup_insert_ne by (intros E; rewrite <- E, Hm in Hs0; by injection Hs0 as <-). by rewrite Hs0, <- Ecap. }
  cbn [cap_status cap_cap]. case_decide as Hno; [done|]. cbn [negb]. apply wp_bind. unfold deleteCallerCap. fold callerSlot.
  unfold cteDeleteOne. apply wp_bind. eapply st_cte_at; [apply lookup_insert_eq|]. apply wp_ret.
  unfold receiveIPC. apply wp_bind. eapply st_tcb_at; [exact HTt|]. apply wp_bind.
  eapply (wp_mono _ (λ active k', active = false ∧ k' = s)).
  { destruct (Z.eqb_spec (tcbBoundNotification c) 0) as [|Eb]; [by apply wp_ret|]. destruct (Hbound Eb) as (n & Hn & Hna).
    apply wp_bind, (wp_ntfn_at _ n); [exact Hn|]. apply wp_ret. by destruct (ntfnState n). }
  intros _ k' [-> ->]. apply wp_bind. eapply st_ep_at; [exact Hx|]. unfold reply_tcbs.
  rewrite <- (insert_insert_ne _ t d), <- link_tail_insert_0 by (exact tail_d || done).
  destruct (epState x); try done; apply slow_append; try done;
    (intros Et; destruct (Htail Et) as (Hsome & _ & Htd); unfold T; by rewrite lookup_insert_ne).
Qed.

(** The system call [SysReplyRecv] leaves the same state. *)
Lemma slow_reply_recv io num_ioapics active slot b g sd cptr : cspace_ok k → reg (registers c) capRegister = cptr →
  lookupCapAndSlot t cptr k = (Done (mk_cas_ret EXCEPTION_NONE (cap_endpoint_cap b g sd true e) slot), k) →
  ∃ ex, handleSyscall io num_ioapics active SysReplyRecv k = (Done EXCEPTION_NONE, reply_state ex).
Proof.
  intros Hok Hcp Hl.
  assert (H : wp (handleSyscall io num_ioapics active SysReplyRecv) (λ r k', r = EXCEPTION_NONE ∧ ∃ ex, k' = reply_state ex) k).
  { unfold handleSyscall. cbn [Z.eqb SysCall SysSend SysNBSend SysRecv SysReply SysReplyRecv]. apply wp_bind, wp_bind.
    eapply wp_mono; [apply slow_reply|]. intros _ k1 ->. eapply wp_mono; [by eapply slow_receive|]. intros _ k2 ->.
    eapply wp_mono.
    { eapply (st_schedule _ _ _ _ _ _ _ waiting_tcb); [|done|apply lookup_insert_eq|done..].
      unfold reply_tcbs. rewrite lookup_insert_ne by done. apply lookup_insert_eq. }
    intros r k3 [-> ->]. split; [done|]. by eexists. }
  apply wp_done in H as (r & k' & E & -> & ex & ->). eauto.
Qed.
End reply.

(** ** When a thread replies and receives *)

(** As for a call; further, the slot for the caller is empty or holds the right to
    reply to a thread that waits for it, the only child of that thread's master
    capability, and a bound notification exists. *)
Record reply_ready (k : ks) (wq : Z → list Z) (c : tcb_t) : Prop := {
  rr_entry : call_ready k wq c;
  rr_caller : ctes k !! TCB_PTR_CTE_PTR (ksCurThread k) tcbCaller = Some (mk_cte cap_null_cap nullMDBNode) ∨
    ∃ d cd rv fb p, ctes k !! TCB_PTR_CTE_PTR (ksCurThread k) tcbCaller =
        Some (mk_cte (cap_reply_cap false d) (mdb_node_new 0 rv fb (TCB_PTR_CTE_PTR d tcbReply))) ∧
      tcbs k !! d = Some cd ∧ tsType cd = ThreadState_BlockedOnReply ∧ TCB_PTR_CTE_PTR d tcbReply ≠ 0 ∧
      ctes k !! TCB_PTR_CTE_PTR d tcbReply =
        Some (mk_cte (cap_reply_cap true d) (mdb_node_new (TCB_PTR_CTE_PTR (ksCurThread k) tcbCaller) true true p));
  rr_bound : tcbBoundNotification c ≠ 0 → is_Some (ntfns k !! tcbBoundNotification c)
}.

Section entry.
Context (k : ks) (wq : Z → list Z) (c : tcb_t) (R : reply_ready k wq c).
Let t := ksCurThread k.
Let R0 := rr_entry _ _ _ R.

(** A thread that waits for its reply. *)
Lemma entry_caller d cd : tcbs k !! d = Some cd → tsType cd = ThreadState_BlockedOnReply →
  t ≠ d ∧ d ≠ 0 ∧ d ≠ ksIdleThread k ∧ tcbQueued cd = false ∧ tcbDomain cd = ksCurDomain k ∧ d ≠ SchedulerAction_ChooseNewThread.
Proof.
  intros Hd Hs. pose proof (cr_sched _ _ _ R0) as I. destruct (si_rq _ _ I) as (rq & Hok & _).
  destruct (so_tcb _ _ Hok _ _ Hd) as (Hd0 & _ & Hdom). split_and!; try done.
  - intros <-. pose proof (cr_thread _ _ _ R0) as Hc. fold t in Hc. rewrite Hd in Hc. injection Hc as ->.
    pose proof (cr_runs _ _ _ R0) as Hr. by rewrite Hs in Hr.
  - intros ->. destruct (si_idle _ _ I) as (ci & Hi & Hsi). congruence.
  - destruct (tcbQueued cd) eqn:Hqd; [|done]. destruct (queued_runs k wq c R0 d) as (cd' & Hd' & Hr); [by exists cd|].
    rewrite Hd in Hd'. injection Hd' as <-. by rewrite Hs in Hr.
  - rewrite Hdom. symmetry. apply (si_dom _ _ I).
  - by eapply si_ptr.
Qed.

(** The end of the queue of an endpoint on which nobody sends. *)
Lemma entry_tail e x d cd : eps k !! e = Some x → tcbs k !! d = Some cd → tsType cd = ThreadState_BlockedOnReply →
  let tail := q_end (epQueue x) in (q_head (epQueue x) = 0 ↔ tail = 0) ∧
    (tail ≠ 0 → is_Some (tcbs k !! tail) ∧ tail ≠ t ∧ tail ≠ d).
Proof.
  intros Hx Hd Hs tail. pose proof (cr_ipc _ _ _ R0) as H.
  assert (Ho : wait_obj k e = Some (epQueue x, ep_waits (epState x))) by (unfold wait_obj; by rewrite Hx).
  destruct (io_queue _ _ _ H _ _ _ Ho) as [Hl _]. pose proof (dlist_empty _ _ _ _ Hl) as [E1 E2]. fold tail in E2.
  split; [by rewrite E1, E2|]. intros Ht0. assert (Hin : tail ∈ wq e).
  { destruct Hl as (_ & _ & _ & El). fold tail in El. rewrite El in *. destruct (wq e) as [|y l]; [done|]. apply last_or_cons_elem. }
  destruct (io_in _ _ _ H _ _ Hin) as (q & st0 & cu & Ho' & Hcu & _ & Hst). apply waits_waiting in Ho'.
  split_and!; [by exists cu| |]; intros E; rewrite E in Hcu.
  - unfold t in Hcu. rewrite (cr_thread _ _ _ R0) in Hcu. injection Hcu as <-. pose proof (cr_runs _ _ _ R0) as Hr.
    rewrite Hst in Hr. by destruct st0.
  - rewrite Hd in Hcu. injection Hcu as <-. rewrite <- Hst, Hs in Ho'. done.
Qed.

Lemma reply_checks cptr w : wp (fastpath_reply_recv_checks cptr w) (λ r k', k' = k ∧
  match r with
  | None => True
  | Some (e, d) => short w ∧ tcbFault c = seL4_Fault_NullFault ∧
    (tcbBoundNotification c ≠ 0 → ∃ n, ntfns k !! tcbBoundNotification c = Some n ∧ ntfnState n ≠ NtfnState_Active) ∧
    ∃ x cd slot b g sd rv fb p, eps k !! e = Some x ∧ epState x ≠ EPState_Send ∧
      tcbs k !! d = Some cd ∧ tcbPriority c ≤ tcbPriority cd ∧ tcbFault cd = seL4_Fault_NullFault ∧ tsType cd = ThreadState_BlockedOnReply ∧
      ctes k !! TCB_PTR_CTE_PTR t tcbCaller =
        Some (mk_cte (cap_reply_cap false d) (mdb_node_new 0 rv fb (TCB_PTR_CTE_PTR d tcbReply))) ∧
      ctes k !! TCB_PTR_CTE_PTR d tcbReply =
        Some (mk_cte (cap_reply_cap true d) (mdb_node_new (TCB_PTR_CTE_PTR t tcbCaller) true true p)) ∧
      TCB_PTR_CTE_PTR d tcbReply ≠ 0 ∧
      lookupCapAndSlot t cptr k = (Done (mk_cas_ret EXCEPTION_NONE (cap_endpoint_cap b g sd true e) slot), k)
  end) k.
Proof.
  unfold fastpath_reply_recv_checks. apply wp_bind, wp_gets. fold t. apply wp_bind, (wp_tcb_at _ c); [apply R0|].
  destruct (fastpath_mi_check w) eqn:Hmi; [by apply wp_ret|]. apply short_check in Hmi. cbn [orb].
  destruct (Z.eqb_spec (fault_type (tcbFault c)) 0) as [Hf|]; cbn [negb]; [|by apply wp_ret].
  assert (Hnf : tcbFault c = seL4_Fault_NullFault) by (by destruct (tcbFault c)).
  destruct (cr_slots _ _ _ R0 t c (cr_thread _ _ _ R0) (entry_not_idle k wq c R0)) as (_ & [root Hroot] & _).
  apply wp_bind, (wp_cte_at _ root); [done|]. apply wp_bind.
  destruct (lookup_fp_agrees k t root cptr (cr_cspace _ _ _ R0) (cr_radix _ _ _ R0) Hroot) as (cap & Elu & Hag).
  unfold wp at 1. rewrite Elu. destruct cap as [| |b g sd canReceive e| | | | | | | | | | | | | | | |]; try by apply wp_ret.
  destruct Hag as [[slot Hl]|[? _]]; [|done]. destruct canReceive; [|by apply wp_ret].
  destruct (lookup_endpoint k wq c R0 slot g sd true b e cptr Hl) as [x Hx].
  apply wp_bind. eapply (wp_mono _ (λ pending k', k' = k ∧ (pending = false →
    tcbBoundNotification c ≠ 0 → ∃ n, ntfns k !! tcbBoundNotification c = Some n ∧ ntfnState n ≠ NtfnState_Active))).
  { destruct (Z.eqb_spec (tcbBoundNotification c) 0) as [|Eb]; cbn [negb]; [by apply wp_ret|]. destruct (rr_bound _ _ _ R Eb) as [n Hn].
    apply wp_bind, (wp_ntfn_at _ n); [done|]. apply wp_ret. split; [done|]. intros Hp%bool_decide_eq_false _. eauto. }
  intros pending k' [-> Hbound]. destruct pending; [by apply wp_ret|]. specialize (Hbound eq_refl).
  apply wp_bind, (wp_ep_at _ x); [done|]. case_decide as Hst; [by apply wp_ret|].
  destruct (rr_caller _ _ _ R) as [Hn|(d & cd & rv & fb & p & Hcs & Hd & Hb & Hr0 & Hm)].
  { apply wp_bind. eapply wp_cte_at; [exact Hn|]. by apply wp_ret. }
  apply wp_bind. eapply wp_cte_at; [exact Hcs|]. cbn [cte_cap]. apply wp_bind, (wp_tcb_at _ cd); [done|].
  destruct (Z.eqb_spec (fault_type (tcbFault cd)) 0) as [Hfd|]; cbn [negb]; [|by apply wp_ret].
  assert (Hnfd : tcbFault cd = seL4_Fault_NullFault) by (by destruct (tcbFault cd)).
  destruct (entry_caller d cd Hd Hb) as (_ & _ & Hid & _). destruct (cr_slots _ _ _ R0 d cd Hd Hid) as (_ & _ & [v Hv]).
  apply wp_bind, (wp_cte_at _ v); [done|]. destruct (isValidVTableRoot _); cbn [negb]; [|by apply wp_ret].
  destruct (Z.ltb_spec (tcbPriority cd) (tcbPriority c)); [by apply wp_ret|].
  apply wp_ret. split; [done|]. split_and!; try done. eexists x, cd, slot, b, g, sd, rv, fb, p. by split_and!.
Qed.
End entry.

(** C7: the fast path of a reply followed by a receive against the slow path.  For
    a thread that enters the kernel to reply and receive, [fastpath_reply_recv]
    either leaves the work to [slowpath] and has changed nothing, or it ends in the
    state [ks'] in which [handleSyscall] with [SysReplyRecv] ends, up to two things:
    the scratch list of extra capabilities, which only the slow path writes, and the
    field [blockingObject] of the caller, which the fast path clears and the slow
    path leaves; the caller runs, so that the field is dead.  In that state the
    caller has the reply in its registers and runs, the right to reply is used up,
    and the server waits at the end of the queue of its endpoint. *)
Theorem fastpath_reply_recv_correct io num_ioapics active k wq c : reply_ready k wq c →
  wp (fastpath_reply_recv (reg (registers c) capRegister) (reg (registers c) msgInfoRegister)) (λ taken k',
    if taken : bool then
      ∃ ks', handleSyscall io num_ioapics active SysReplyRecv k = (Done EXCEPTION_NONE, ks') ∧
        k' = forget_blocking [ksCurThread k'] ks' <| current_extra_caps := current_extra_caps k |> ∧
        not_waiting ks' (ksCurThread k')
    else k' = k) k.
Proof.
  intros R. unfold fastpath_reply_recv. apply wp_bind. eapply wp_mono; [by apply (reply_checks k wq c R)|].
  intros [[e d]|] k' [-> H]; [|by apply wp_ret].
  destruct H as (Hs & Hf & Hbound & x & cd & slot & b & g & sd & rv & fb & p & Hx & Hst & Hd & Hp & Hfd & Hb & Hcs & Hm & Hr0 & Hl).
  pose proof (rr_entry _ _ _ R) as R0. destruct (entry_caller k wq c R d cd Hd Hb) as (Htd & Hd0 & Hid & Hq & Hdom & Hch).
  destruct (entry_tail k wq c R e x d cd Hx Hd Hb) as (Hends & Htail). pose proof (cr_thread _ _ _ R0) as Hc.
  destruct (cr_slots _ _ _ R0 _ _ Hc (entry_not_idle k wq c R0)) as [Bt _]. destruct (cr_slots _ _ _ R0 _ _ Hd Hid) as [Bd _].
  pose proof (cr_action _ _ _ R0) as Ha. pose proof (cr_cspace _ _ _ R0) as Hok.
  apply wp_bind. eapply wp_mono; [by eapply fastpath_reply_recv_commits|]. intros _ k' ->. apply wp_ret.
  set (w := reg (registers c) msgInfoRegister) in *.
  assert (Hslow : ∃ ex, handleSyscall io num_ioapics active SysReplyRecv k =
    (Done EXCEPTION_NONE, reply_state k (ksCurThread k) d e w c cd x p ex)) by (eapply slow_reply_recv; done).
  destruct Hslow as [ex E]. eexists. split; [exact E|]. split; [reflexivity|]. by apply (reply_not_waiting k (ksCurThread k)).
Qed.

(** ** A server that answers *)

(** The server has taken the client's call; its own capability space has the
    endpoint in its second slot. *)
Definition answer_server_tcb : tcb_t :=
  demo_tcb ThreadState_Running 100 <| registers := list_to_map [(capRegister, 2147483648); (msgInfoRegister, 28673); (EDI, 33)] |>.
Definition answer_client_tcb : tcb_t := demo_tcb ThreadState_BlockedOnReply 110.
Definition answer_slots : list (Z * cte_t) :=
  [(8192, pair_slot cap_null_cap); (8208, pair_slot (cap_page_directory_cap true 0 0 1));
   (8224, mk_cte (cap_reply_cap true pair_client) (mdb_node_new 10288 true true 0));
   (8240, pair_slot cap_null_cap); (8256, pair_slot pair_frame);
   (10240, pair_slot pair_cnode); (10256, pair_slot (cap_page_directory_cap true 0 0 2)); (10272, pair_master pair_server);
   (10288, mk_cte (cap_reply_cap false pair_client) (mdb_node_new 0 false false 8224)); (10304, pair_slot pair_frame);
   (16384, pair_slot cap_null_cap); (16400, pair_slot (cap_endpoint_cap 0 true true true 700))].
Definition answer_threads : list (Z * tcb_t) :=
  [(8, demo_tcb ThreadState_IdleThreadState 0); (pair_client, answer_client_tcb); (pair_server, answer_server_tcb)].
Definition answer_ks : ks :=
  demo_boot <| tcbs := list_to_map answer_threads |> <| ntfns := ∅ |> <| eps := {[ 700 := mk_ep EPState_Idle (mk_queue 0 0) ]} |>
    <| ctes := list_to_map answer_slots |> <| ksCurThread := pair_server |>.

Lemma answer_sched : sched_inv answer_ks.
Proof.
  split.
  - exists (λ _, []). split; [|by intros p t []%elem_of_nil]. apply sched_ok_boot. split_and!; try done.
    apply map_Forall_lookup. apply (list_cases answer_threads). each; done.
  - apply (list_cases answer_threads (λ t _, t ≠ SchedulerAction_ChooseNewThread)). each; done.
  - eexists. vm_compute. reflexivity.
  - split; [reflexivity|]. vm_compute. discriminate.
  - by left.
  - intros _. left. exists answer_server_tcb. split; vm_compute; reflexivity.
  - intros t (c & Hc & Hr) _. revert t c Hc Hr.
    apply (list_cases answer_threads (λ t c, isRunnable_state (tsType c) = true →
      queued answer_ks t ∨ t = ksCurThread answer_ks ∨ t = ksSchedulerAction answer_ks)).
    each; try done. by right; left.
  - eexists. split; vm_compute; reflexivity.
Qed.

Lemma answer_ipc : ipc_ok answer_ks (λ _, []).
Proof.
  split.
  - intros a _. done.
  - intros a q w. unfold wait_obj. change (eps answer_ks) with ({[ 700 := mk_ep EPState_Idle (mk_queue 0 0) ]} : gmap Z endpoint_t).
    destruct (decide (a = 700)) as [->|Hne]; [|by rewrite lookup_singleton_ne].
    rewrite lookup_singleton_eq. intros [= <- <-]. split; [|done]. split_and!; [apply NoDup_nil_2|done..].
  - intros a t []%elem_of_nil.
  - apply (list_cases answer_threads (λ t c, waiting_state (tsType c) = true → t ∉ [] → t ∈ [])). each; done.
  - intros t a Ht. by apply elem_of_nil in Ht.
Qed.

Lemma answer_ready : reply_ready answer_ks (λ _, []) answer_server_tcb.
Proof.
  split; [split|..].
  - vm_compute. reflexivity.
  - reflexivity.
  - reflexivity.
  - exact answer_sched.
  - exact answer_ipc.
  - apply map_Forall_lookup, (list_cases answer_slots). each; try done. cbn. split_and!; try lia. intros i Hi.
    assert (Hcase : i = 0 ∨ i = 1) by lia. destruct Hcase as [-> | ->]; eexists; vm_compute; reflexivity.
  - apply map_Forall_lookup, (list_cases answer_slots). each; done.
  - intros p s b g snd rcv e Hs. revert p s Hs b g snd rcv e.
    apply (list_cases answer_slots (λ p s, ∀ b g snd rcv e, cte_cap s = cap_endpoint_cap b g snd rcv e → is_Some (eps answer_ks !! e))).
    each; try done. intros b g snd rcv e [= <- <- <- <- <-]. eexists. vm_compute. reflexivity.
  - apply (list_cases answer_threads (λ u cu, u ≠ ksIdleThread answer_ks → buffer_ok answer_ks u cu ∧
      is_Some (ctes answer_ks !! TCB_PTR_CTE_PTR u tcbCTable) ∧ is_Some (ctes answer_ks !! TCB_PTR_CTE_PTR u tcbVTable))).
    each; try done; intros _; (split; [|split; eexists; vm_compute; reflexivity]); (split; [by exists 0|]);
      (exists (pair_slot pair_frame); split; [vm_compute; reflexivity|]; split; [by left|by exists 16]).
  - exists 0. vm_compute. reflexivity.
  - apply (list_cases answer_threads (λ u cu, tsType cu = ThreadState_BlockedOnReceive →
      ctes answer_ks !! TCB_PTR_CTE_PTR u tcbCaller = Some (mk_cte cap_null_cap nullMDBNode))). each; done.
  - right. exists pair_client, answer_client_tcb, false, false, 0. split_and!; (vm_compute; reflexivity) || (vm_compute; discriminate).
  - by vm_compute.
Qed.

Lemma fastpath_reply_recv_correct_witness :
  wp (fastpath_reply_recv 2147483648 28673) (λ taken k',
    if taken : bool then
      ∃ ks', handleSyscall (mk_io 0 0) 1 255 SysReplyRecv answer_ks = (Done EXCEPTION_NONE, ks') ∧
        k' = forget_blocking [ksCurThread k'] ks' <| current_extra_caps := current_extra_caps answer_ks |> ∧
        not_waiting ks' (ksCurThread k')
    else k' = answer_ks) answer_ks.
Proof.
  exact (fastpath_reply_recv_correct (mk_io 0 0) 1 255 answer_ks (λ _, [])
    answer_server_tcb answer_ready).
Defined.

(** The answer takes the fast path: the client runs with the word of the reply,
    the server waits on the endpoint, and the right to reply is gone. *)
Example answer_call :
  let r := fastpath_reply_recv 2147483648 28673 answer_ks in
  fst r = Done true ∧ ksCurThread (snd r) = pair_client ∧
  (λ c, (reg (registers c) EDI, reg (registers c) badgeRegister)) <$> tcbs (snd r) !! pair_client = Some (33, 0) ∧
  eps (snd r) !! 700 = Some (mk_ep EPState_Recv (mk_queue pair_server pair_server)) ∧
  cte_cap <$> ctes (snd r) !! 10288 = Some cap_null_cap.
Proof. vm_compute. split_and!; reflexivity. Qed.
