(* ===== verification/Entry.v ===== *)
(** The C part of the kernel's entries ([arch/x86/c_traps.c]): system calls with
    their fast paths, faults and interrupts, and the way back to user level.

    [stamp] is [do_get_start_stamp], the flag this repository has added; an entry
    answers with its value for the next one.  [fault_addr] is what the processor
    reports as the address of a page fault, [active] the interrupt that a preempted
    invocation finds.  The FPU is outside: giving it to a thread is recorded as a
    call.  So are the assembly that saves and restores the registers, the bases of
    the segments and the locks of a multiprocessor.  An interrupt that has come in
    during the call is taken by the assembly of [restore_user_context] as another
    [c_handle_interrupt], a step of its own.  The interrupt flag of the saved flags
    is cleared and set again by that assembly around its [popf]. *)

From S2P Require Import Prelude Messages Caps Kernel CSpace CNode Scheduler Wakeup Paging VSpace IOSpace Ipc Waiting Signals.
From S2P Require Import Cancel Transfer Endpoint Reply Retype Reset Creation Deletion Finalise Revoke Decode.
From S2P Require Import Threads Mmu Devices Interrupts Syscall Fastpath.

Definition Error : Z := 13.

(** [enum interrupt_t] *)
Definition int_unimpl_dev : Z := 7.
Definition int_page_fault : Z := 14.
Definition int_irq_min : Z := 32.
Definition int_trap_min : Z := 158.
Definition int_spurious : Z := 255.

Section entry.
Context (io : io_domains) (num_ioapics : Z).
Context (name_ok : Z → bool) (active sysenter_end_stamp start_stamp fault_addr : Z).

Definition seL4_DataFault : Z := 0.
Definition seL4_InstructionFault : Z := 1.

Definition handleVMFault (thread vm_faultType : Z) : K exception_t :=
  fault ← getRegister thread Error;
  if vm_faultType =? seL4_DataFault then
    modify (λ k, k <| current_fault := seL4_Fault_VMFault fault_addr fault false |>);;
    mret EXCEPTION_FAULT
  else if vm_faultType =? seL4_InstructionFault then
    modify (λ k, k <| current_fault := seL4_Fault_VMFault fault_addr fault true |>);;
    mret EXCEPTION_FAULT
  else halt_with AssertFailed.

Definition handleVMFaultEvent (vm_faultType : Z) : K exception_t :=
  t ← cur;
  status ← handleVMFault t vm_faultType;
  (if decide (status ≠ EXCEPTION_NONE) then t ← cur; handleFault t else mret tt);;
  schedule;;
  activateThread;;
  mret EXCEPTION_NONE.

Definition handleFPUFault : K exception_t :=
  t ← cur;
  arch_call_made (call_switchLocalFpuOwner t);;
  mret EXCEPTION_NONE.

(** [restore_user_context], up to its assembly. *)
Definition restore_user_context (stamp : bool) : K bool :=
  write_stamps stamp sysenter_end_stamp start_stamp;;
  mret false.

Definition c_handle_interrupt (stamp : bool) (irq syscall : Z) : K bool :=
  stamp ←
    (if irq =? int_unimpl_dev then handleFPUFault;; mret stamp
     else if irq =? int_page_fault then
       t ← cur;
       e ← getRegister t Error;
       handleVMFaultEvent (Z.land (Z.shiftr e 4) 1);;
       mret stamp
     else if irq <? int_irq_min then
       t ← cur;
       e ← getRegister t Error;
       handleUserLevelFault irq e;;
       mret stamp
     else if irq <? int_trap_min then
       handleInterruptEntry (irq - IRQ_INT_OFFSET);;
       mret stamp
     else if irq =? int_spurious then mret stamp
     else
       t ← cur;
       pc ← getRegister t FaultIP;
       setRegister t FaultIP (wrap32 (pc - 2));;
       (* an [int]: negative, because [irq] is at least 128 *)
       let sys_num := Z.lor (wrap32 (Z.shiftl irq 24)) (Z.land syscall 0x00ffffff) in
       handleUnknownSyscall stamp name_ok (sys_num - word_mod));
  restore_user_context stamp.

Definition c_handle_syscall (stamp : bool) (cptr msgInfo syscall : Z) : K bool :=
  t ← cur;
  pc ← getRegister t NextIP;
  setRegister t NextIP (wrap32 (pc + 2));;
  taken ← (if syscall =? SysCall then fastpath_call cptr msgInfo
           else if syscall =? SysReplyRecv then fastpath_reply_recv cptr msgInfo
           else mret false);
  if taken : bool then mret stamp
  else
    stamp ← slowpath io num_ioapics stamp name_ok active syscall;
    restore_user_context stamp.
End entry.

(** ** The stamps and the rights of the buffer *)

(** A thread whose buffer is mapped read-only receives nothing in it, but the time
    stamps are written there: the buffer is looked up as that of a sender. *)
Definition read_only_slot : cte_t := mk_cte (cap_frame_cap X86_SmallPage 0 0 0 false VMReadOnly 65536) nullMDBNode.
Definition read_only_ks : ks := demo_boot <| ctes := {[ 64 := read_only_slot ]} |>.

Example stamps_in_read_only_buffer :
  fst (lookupIPCBuffer true 16 read_only_ks) = Done 0 ∧
  let r := write_stamps true 0x1122334455667788 0x99aabbccddeeff read_only_ks in
  fst r = Done tt ∧ mem_words read_only_ks = ∅ ∧ mem_words (snd r) !! 65552 = Some 0x11223344 ∧ mem_words (snd r) !! 65556 = Some 0x55667788.
Proof. vm_compute. split_and!; reflexivity. Qed.
