(* ===== verification/Authority.v ===== *)
(** What no system call can do, whoever makes it: give a thread a priority or a
    maximum controlled priority above the caller's own maximum, or put a value into
    a thread's registers that the processor must not get from a user: flags that
    mask interrupts or raise the privilege of ports, foreign segments.

    The relation [authority] is kept by every function the kernel runs for a system
    call; the lemmas follow the call graph from the leaves, and a tactic takes the
    functions apart. *)

From S2P Require Import Prelude Messages Caps Kernel CSpace CNode Scheduler Wakeup Paging VSpace IOSpace Ipc Waiting Signals.
From S2P Require Import Cancel Transfer Endpoint Reply Retype Reset Creation Deletion Finalise Revoke Decode.
From S2P Require Import Threads Mmu Devices Interrupts Syscall Rejection.
Import MessageInfo.

(** ** The relation *)

(** Interrupts stay enabled, no single step, no privilege for ports and no nested
    task in the flags; data segments a user may have; the base of the thread-local
    storage below the kernel. *)
Definition reg_sane (r v : Z) : bool :=
  if r =? FLAGS then Z.testbit v 9 && negb (Z.testbit v 8) && (0 <=? v) && (v <? 4096)
  else if (r =? FS) || (r =? GS) then (v =? 0) || (v =? SEL_TLS) || (v =? SEL_IPCBUF)
  else if r =? TLS_BASE then v <=? PPTR_USER_TOP
  else true.
Definition regs_sane (regs : gmap Z Z) : Prop := ∀ r, reg_sane r (reg regs r) = true.
Definition sane (k : ks) : Prop := map_Forall (λ _ c, regs_sane (registers c)) (tcbs k).

(** [DS], [ES], [CS] and [SS]. *)
Definition segment (r : Z) : bool := (r =? 7) || (r =? 8) || (r =? 15) || (r =? 18).
Definition segments (c : tcb_t) : list Z := reg (registers c) <$> [7; 8; 15; 18].
Definition user_segments : list Z := [35; 35; 27; 35].

(** A thread may get the priorities [P] and [m] from a caller with the maximum [M]. *)
Definition grants (M : Z) (old new : Z) : Prop := new = old ∨ new ≤ M.
Definition thread_step (M : Z) (c c' : tcb_t) : Prop :=
  segments c' = segments c ∧ grants M (tcbPriority c) (tcbPriority c') ∧ grants M (tcbMCP c) (tcbMCP c').
Definition new_thread (M : Z) (c : tcb_t) : Prop :=
  segments c = user_segments ∧ tcbPriority c ≤ M ∧ tcbMCP c ≤ M.
Definition authority (M : Z) (k k' : ks) : Prop :=
  (∀ u c', tcbs k' !! u = Some c' → (∃ c, tcbs k !! u = Some c ∧ thread_step M c c') ∨ new_thread M c') ∧
  (sane k → sane k').

Lemma thread_step_refl M c : thread_step M c c.
Proof. split_and!; [done|by left|by left]. Qed.
Lemma grants_trans M a b c : grants M a b → grants M b c → grants M a c.
Proof. intros [-> |H1] [-> |H2]; unfold grants; auto. Qed.
Lemma thread_step_trans M c1 c2 c3 : thread_step M c1 c2 → thread_step M c2 c3 → thread_step M c1 c3.
Proof.
  intros (S1 & P1 & M1) (S2 & P2 & M2). split_and!; [congruence|by eapply grants_trans|by eapply grants_trans].
Qed.
Lemma new_thread_step M c c' : new_thread M c → thread_step M c c' → new_thread M c'.
Proof. intros (Hs & Hp & Hm) (S2 & [E|E] & [F|F]); split_and!; try congruence; lia. Qed.

Lemma authority_refl M k : authority M k k.
Proof. split; [|done]. intros u c Hc. left. exists c. split; [done|apply thread_step_refl]. Qed.
Lemma authority_trans M k1 k2 k3 : authority M k1 k2 → authority M k2 k3 → authority M k1 k3.
Proof.
  intros [A1 S1] [A2 S2]. split; [|auto]. intros u c3 H3. destruct (A2 u c3 H3) as [(c2 & H2 & T2)|]; [|by right].
  destruct (A1 u c2 H2) as [(c1 & H1 & T1)|N]; [left|right; by eapply new_thread_step].
  exists c1. split; [done|by eapply thread_step_trans].
Qed.
Lemma authority_tcbs M k k' : tcbs k' = tcbs k → authority M k k'.
Proof.
  intros E. unfold authority, sane. rewrite E. split; [|done]. intros u c Hc. left. exists c. split; [done|apply thread_step_refl].
Qed.

(** ** Safe computations *)

Definition safe (M : Z) {A} (m : K A) : Prop := ∀ k, wlp m (λ _ k', authority M k k') k.

Section safe.
Context (M : Z) (HM : 0 ≤ M).

Lemma safe_bind {A B} (m : K A) (f : A → K B) : safe M m → (∀ a, safe M (f a)) → safe M (m ≫= f).
Proof.
  intros Hm Hf k. apply wlp_bind. eapply wlp_mono; [apply Hm|]. intros a k1 E1.
  eapply wlp_mono; [apply Hf|]. intros b k2 E2. exact (authority_trans _ _ _ _ E1 E2).
Qed.
Lemma safe_looks {A} (m : K A) : looks m → safe M m.
Proof. intros H k. eapply wlp_mono; [apply H|]. intros a k' E. apply authority_tcbs. by rewrite E. Qed.
Lemma safe_tcbs {A} (m : K A) : (∀ k a k', m k = (Done a, k') → tcbs k' = tcbs k) → safe M m.
Proof. intros H k. unfold wlp. destruct (m k) as [[a|h] k'] eqn:E; [|done]. by apply authority_tcbs, (H k a). Qed.
Lemma safe_modify f : (∀ k, tcbs (f k) = tcbs k) → safe M (modify f).
Proof. intros H k. by apply authority_tcbs, H. Qed.
Lemma safe_when b m : safe M m → safe M (when b m).
Proof. intros H. destruct b; [done|apply safe_looks, looks_ret]. Qed.

(** A thread changes; its registers stay what they are or become sane. *)
Lemma safe_tcb_set t f : (∀ c, thread_step M c (f c)) → (∀ c, regs_sane (registers c) → regs_sane (registers (f c))) →
  safe M (tcb_set t f).
Proof.
  intros Hf Hs k. unfold wlp, tcb_set. destruct (tcbs k !! t) as [c|] eqn:Hc; [|done]. split.
  - intros u c' Hu. cbn in Hu. apply lookup_insert_Some in Hu as [[<- <-]|[Hn Hu]]; left; [by exists c|].
    exists c'. split; [done|apply thread_step_refl].
  - intros S. apply map_Forall_insert_2; [|done]. apply Hs. exact (S _ _ Hc).
Qed.

Lemma safe_cte_set p f : safe M (cte_set p f).
Proof. apply safe_tcbs. intros k a k'. unfold cte_set. destruct (ctes k !! p); by intros [= _ <-]. Qed.
Lemma safe_ep_set p f : safe M (ep_set p f).
Proof. apply safe_tcbs. intros k a k'. unfold ep_set. destruct (eps k !! p); by intros [= _ <-]. Qed.
Lemma safe_ntfn_set p f : safe M (ntfn_set p f).
Proof. apply safe_tcbs. intros k a k'. unfold ntfn_set. destruct (ntfns k !! p); by intros [= _ <-]. Qed.
Lemma safe_ep_at p : safe M (ep_at p).
Proof. apply safe_tcbs. intros k a k'. unfold ep_at. destruct (eps k !! p); by intros [= _ <-]. Qed.

Lemma safe_for_range lo n body : (∀ i, safe M (body i)) → safe M (for_range lo n body).
Proof.
  intros H. revert lo. induction n as [|n IH]; intros lo; [apply safe_looks, looks_ret|]. cbn [for_range]. by apply safe_bind.
Qed.
Lemma safe_for_while fuel i cond body : (∀ i, safe M (body i)) → safe M (for_while fuel i cond body).
Proof.
  intros H. revert i. induction fuel as [|fuel IH]; intros i; cbn [for_while]; case_match;
    try (apply safe_looks; auto with invocation; fail). by apply safe_bind.
Qed.

(** *** Registers *)

Lemma segments_set r v regs : segment r = false → reg (<[r := v]> regs) <$> [7; 8; 15; 18] = reg regs <$> [7; 8; 15; 18].
Proof.
  unfold segment, reg. rewrite !orb_false_iff, !Z.eqb_neq. intros (((? & ?) & ?) & ?). cbn [fmap list_fmap].
  by rewrite !lookup_insert_ne by done.
Qed.
Lemma sane_set r v regs : reg_sane r v = true → regs_sane regs → regs_sane (<[r := v]> regs).
Proof.
  intros Hv H r'. unfold reg. destruct (decide (r = r')) as [<-|]; [by rewrite lookup_insert_eq|].
  rewrite lookup_insert_ne by done. apply H.
Qed.

Lemma safe_setRegister t r v : segment r = false → reg_sane r v = true → safe M (setRegister t r v).
Proof.
  intros Hr Hv. apply safe_tcb_set.
  - intros c. split_and!; [by apply segments_set|by left|by left].
  - intros c Hc. by apply sane_set.
Qed.

Lemma sanitise_sane r v : reg_sane r (sanitiseRegister r v) = true.
Proof.
  unfold reg_sane, sanitiseRegister, Mode_sanitiseRegister. destruct (Z.eqb_spec r FLAGS) as [->|Hf].
  - change (FLAGS =? FS) with false. change (FLAGS =? GS) with false. change (FLAGS =? TLS_BASE) with false. cbn [orb].
    change (MASK 12) with (Z.ones 12). rewrite !Z.land_spec. rewrite !Z.lor_spec, !Z.land_spec.
    change (Z.testbit (Z.ones 12) 9) with true. change (Z.testbit (Z.ones 12) 8) with true.
    change (Z.testbit (BIT 9) 9) with true. change (Z.testbit (wrap32 (Z.lnot (BIT 8))) 8) with false.
    change (Z.testbit (wrap32 (Z.lnot (BIT 8))) 9) with true. rewrite orb_true_r, andb_false_r. cbn [andb negb].
    rewrite Z.land_ones by lia. match goal with |- context [?x mod _] => pose proof (Z.mod_pos_bound x (2 ^ 12) ltac:(lia)) as B end.
    change (2 ^ 12) with 4096 in *. apply andb_true_iff. rewrite Z.leb_le, Z.ltb_lt. lia.
  - destruct ((r =? FS) || (r =? GS)) eqn:Hs.
    + destruct (Z.eqb_spec r TLS_BASE) as [->|]; [done|]. destruct (Z.eqb_spec v SEL_TLS) as [->|]; [done|].
      destruct (Z.eqb_spec v SEL_IPCBUF) as [->|]; done.
    + destruct (Z.eqb_spec r TLS_BASE); [|done]. destruct (Z.ltb_spec PPTR_USER_TOP v); apply Z.leb_le; lia.
Qed.

(** A register copied from a thread is as sane as the thread. *)
Lemma safe_copy_register s d r : segment r = false → safe M (copy_register s d r).
Proof.
  intros Hr k. unfold copy_register. apply wlp_bind. unfold getRegister. apply wlp_bind. unfold wlp at 1, tcb_at.
  destruct (tcbs k !! s) as [cs|] eqn:Hs; [|done]. apply wlp_ret. set (v := default 0 (registers cs !! r)).
  unfold wlp, setRegister, tcb_set. destruct (tcbs k !! d) as [c|] eqn:Hc; [|done]. split.
  - intros u c' Hu. cbn in Hu. apply lookup_insert_Some in Hu as [[<- <-]|[Hn Hu]]; left.
    + exists c. split; [done|]. split_and!; [by apply segments_set|by left|by left].
    + exists c'. split; [done|apply thread_step_refl].
  - intros S. apply map_Forall_insert_2; [|done]. apply sane_set; [exact (S _ _ Hs r)|exact (S _ _ Hc)].
Qed.

End safe.

(** Loops are met with their rule, not run. *)
#[local] Opaque for_range.

Create HintDb authority.
#[export] Hint Resolve safe_cte_set safe_ep_set safe_ntfn_set safe_ep_at : authority.
#[export] Hint Extern 5 (safe _ _) => apply safe_looks; solve [auto with invocation] : authority.
#[export] Hint Extern 1 (safe _ (modify _)) => apply safe_modify; intros ?; reflexivity : authority.
#[export] Hint Extern 1 (safe _ (tcb_set _ _)) =>
  apply safe_tcb_set; [intros ?; split; [reflexivity|split; left; reflexivity]|intros ? Hsane; exact Hsane] : authority.
#[export] Hint Extern 1 (safe _ (setRegister _ _ _)) => apply safe_setRegister; [reflexivity|reflexivity] : authority.

(** Takes a function of the kernel apart. *)
Ltac safely := repeat first
  [ solve [auto with authority] | apply safe_bind; [|intros ?] | apply safe_when | apply safe_for_range; intros ?
  | apply safe_for_while; intros ? | case_match | case_decide | progress cbn zeta ].

(** ** Slots *)

Lemma safe_slot M p c m v : safe M (set_cap p c) ∧ safe M (set_mdb p m) ∧ safe M (set_mdbNext p v) ∧ safe M (set_mdbPrev p v).
Proof. split_and!; apply safe_cte_set. Qed.
#[export] Hint Extern 1 (safe _ (set_cap _ _)) => apply safe_cte_set : authority.
#[export] Hint Extern 1 (safe _ (set_mdb _ _)) => apply safe_cte_set : authority.
#[export] Hint Extern 1 (safe _ (set_mdbNext _ _)) => apply safe_cte_set : authority.
#[export] Hint Extern 1 (safe _ (set_mdbPrev _ _)) => apply safe_cte_set : authority.

Lemma safe_maskInterrupt M b i : safe M (maskInterrupt b i).
Proof. unfold maskInterrupt. safely. Qed.
Lemma safe_setIRQState M st i : safe M (setIRQState st i).
Proof. unfold setIRQState, maskInterrupt. safely. Qed.
Lemma safe_cteInsert M c s d : safe M (cteInsert c s d).
Proof. unfold cteInsert, assert_empty, setUntypedCapAsFull. safely. Qed.
Lemma safe_insertNewCap M c s d : safe M (insertNewCap s d c).
Proof. unfold insertNewCap. safely. Qed.
Lemma safe_setupReplyMaster M t : safe M (setupReplyMaster t).
Proof. unfold setupReplyMaster. safely. Qed.
Lemma safe_cteMove M c s d : safe M (cteMove c s d).
Proof. unfold cteMove, assert_empty. safely. Qed.
Lemma safe_cteSwap M c s c' s' : safe M (cteSwap c s c' s').
Proof. unfold cteSwap. safely. Qed.
#[export] Hint Resolve safe_maskInterrupt safe_setIRQState safe_cteInsert safe_insertNewCap safe_setupReplyMaster safe_cteMove
  safe_cteSwap : authority.
Lemma safe_capSwapForDelete M s s' : safe M (capSwapForDelete s s').
Proof. unfold capSwapForDelete. safely. Qed.
Lemma safe_emptySlot M s i : safe M (emptySlot s i).
Proof. unfold emptySlot, deletedIRQHandler. safely. Qed.
#[export] Hint Resolve safe_capSwapForDelete safe_emptySlot : authority.

(** ** The scheduler *)

(** A function of the scheduler's own words. *)
Ltac words := apply safe_tcbs; intros k a k'; repeat case_match; intros E; inversion E; subst; reflexivity.

Lemma safe_l2_at M d i : safe M (l2_at d i).
Proof. unfold l2_at. words. Qed.
Lemma safe_l2_set M d i w : safe M (l2_set d i w).
Proof. unfold l2_set. words. Qed.
Lemma safe_l1_at M d : safe M (l1_at d).
Proof. unfold l1_at. words. Qed.
Lemma safe_l1_set M d w : safe M (l1_set d w).
Proof. unfold l1_set. words. Qed.
Lemma safe_queue_at M i : safe M (queue_at i).
Proof. unfold queue_at. words. Qed.
Lemma safe_queue_set M i q : safe M (queue_set i q).
Proof. unfold queue_set. words. Qed.
Lemma safe_nextDomain M : safe M nextDomain.
Proof. unfold nextDomain. words. Qed.
#[export] Hint Resolve safe_l2_at safe_l2_set safe_l1_at safe_l1_set safe_queue_at safe_queue_set safe_nextDomain : authority.

Lemma safe_bitmaps M d p : safe M (addToBitmap d p) ∧ safe M (removeFromBitmap d p).
Proof. unfold addToBitmap, removeFromBitmap. split; safely. Qed.
#[export] Hint Extern 1 (safe _ (addToBitmap _ _)) => apply safe_bitmaps : authority.
#[export] Hint Extern 1 (safe _ (removeFromBitmap _ _)) => apply safe_bitmaps : authority.

Lemma safe_tcbSchedEnqueue M t : safe M (tcbSchedEnqueue t).
Proof. unfold tcbSchedEnqueue, ready_queues_index. safely. Qed.
Lemma safe_tcbSchedAppend M t : safe M (tcbSchedAppend t).
Proof. unfold tcbSchedAppend, ready_queues_index. safely. Qed.
Lemma safe_tcbSchedDequeue M t : safe M (tcbSchedDequeue t).
Proof. unfold tcbSchedDequeue, ready_queues_index. safely. Qed.
Lemma safe_set_action M a : safe M (set_action a).
Proof. unfold set_action. safely. Qed.
#[export] Hint Resolve safe_tcbSchedEnqueue safe_tcbSchedAppend safe_tcbSchedDequeue safe_set_action : authority.

Lemma safe_rescheduleRequired M : safe M rescheduleRequired.
Proof. unfold rescheduleRequired. safely. Qed.
#[export] Hint Resolve safe_rescheduleRequired : authority.
Lemma safe_scheduleTCB M t : safe M (scheduleTCB t).
Proof. unfold scheduleTCB, isRunnable. safely. Qed.
#[export] Hint Resolve safe_scheduleTCB : authority.
Lemma safe_setThreadState M t s : safe M (setThreadState t s).
Proof. unfold setThreadState. safely. Qed.
Lemma safe_possibleSwitchTo M t b : safe M (possibleSwitchTo t b).
Proof. unfold possibleSwitchTo. safely. Qed.
#[export] Hint Resolve safe_setThreadState safe_possibleSwitchTo : authority.
#[export] Hint Extern 1 (safe _ (attemptSwitchTo _)) => apply safe_possibleSwitchTo : authority.
#[export] Hint Extern 1 (safe _ (switchIfRequiredTo _)) => apply safe_possibleSwitchTo : authority.
Lemma safe_setDomain M t d : safe M (setDomain t d).
Proof. unfold setDomain, isRunnable. safely. Qed.
Lemma safe_switchToThread M t : safe M (switchToThread t).
Proof. unfold switchToThread. safely. Qed.
#[export] Hint Resolve safe_setDomain safe_switchToThread : authority.
Lemma safe_chooseThread M : safe M chooseThread.
Proof. unfold chooseThread, switchToIdleThread, ready_queues_index, isRunnable. safely. Qed.
#[export] Hint Resolve safe_chooseThread : authority.
Lemma safe_schedule M : safe M schedule.
Proof. unfold schedule, enqueue_current_if_runnable, isRunnable. safely. Qed.
Lemma safe_timerTick M : safe M timerTick.
Proof. unfold timerTick. safely. Qed.
#[export] Hint Resolve safe_schedule safe_timerTick : authority.

(** The two operations that set priorities. *)
Lemma safe_setMCPriority M t m : m ≤ M → safe M (setMCPriority t m).
Proof. intros Hm. unfold setMCPriority. apply safe_tcb_set; [|done]. intros c. split_and!; [done|by left|by right]. Qed.
Lemma safe_setPriority M t p : p ≤ M → safe M (setPriority t p).
Proof.
  intros Hp. unfold setPriority, isRunnable. apply safe_bind; [auto with authority|]. intros _. apply safe_bind; [|intros _; safely].
  apply safe_tcb_set; [|done]. intros c. split_and!; [done|by right|by left].
Qed.

(** ** Waiting and waking *)

Lemma safe_tcbEPAppend M t q : safe M (tcbEPAppend t q).
Proof. unfold tcbEPAppend. safely. Qed.
Lemma safe_tcbEPDequeue M t q : safe M (tcbEPDequeue t q).
Proof. unfold tcbEPDequeue. safely. Qed.
#[export] Hint Resolve safe_tcbEPAppend safe_tcbEPDequeue : authority.
#[export] Hint Extern 1 (safe _ (ntfn_ptr_set_queue _ _)) => apply safe_ntfn_set : authority.
#[export] Hint Extern 1 (safe _ (set_ntfn_state _ _)) => apply safe_ntfn_set : authority.
#[export] Hint Extern 1 (safe _ (ep_ptr_set_queue _ _)) => apply safe_ep_set : authority.
#[export] Hint Extern 1 (safe _ (set_ep_state _ _)) => apply safe_ep_set : authority.

Lemma safe_receiveSignal M t c b : safe M (receiveSignal t c b).
Proof. unfold receiveSignal, doNBRecvFailedTransfer, ntfn_ptr_get_queue. safely. Qed.
Lemma safe_restart_queue M fuel : ∀ t, safe M (restart_queue fuel t).
Proof. induction fuel as [|fuel IH]; intros t; cbn [restart_queue]; safely. Qed.
#[export] Hint Resolve safe_receiveSignal safe_restart_queue : authority.
Lemma safe_cancelAllSignals M n : safe M (cancelAllSignals n).
Proof. unfold cancelAllSignals, restart_all. safely. Qed.
Lemma safe_cancelSignal M t n : safe M (cancelSignal t n).
Proof. unfold cancelSignal, ntfn_ptr_get_queue. safely. Qed.
Lemma safe_completeSignal M n t : safe M (completeSignal n t).
Proof. unfold completeSignal. safely. Qed.
Lemma safe_unbind M n t : safe M (doUnbindNotification n t) ∧ safe M (unbindMaybeNotification n) ∧ safe M (unbindNotification t) ∧
  safe M (bindNotification t n).
Proof. unfold unbindMaybeNotification, unbindNotification, bindNotification, doUnbindNotification. split_and!; safely. Qed.
#[export] Hint Resolve safe_cancelAllSignals safe_cancelSignal safe_completeSignal : authority.
#[export] Hint Extern 1 (safe _ (unbindMaybeNotification _)) => apply (safe_unbind _ _ 0) : authority.
#[export] Hint Extern 1 (safe _ (unbindNotification _)) => apply (safe_unbind _ 0 _) : authority.
#[export] Hint Extern 1 (safe _ (bindNotification _ _)) => apply safe_unbind : authority.

Lemma safe_cancelAllIPC M e : safe M (cancelAllIPC e).
Proof. unfold cancelAllIPC, make_ep_idle, restart_all, ep_ptr_get_queue. safely. Qed.
Lemma safe_restart_badged M fuel : ∀ b t q, safe M (restart_badged fuel b t q).
Proof. induction fuel as [|fuel IH]; intros b t q; cbn [restart_badged]; safely. Qed.
#[export] Hint Resolve safe_cancelAllIPC safe_restart_badged : authority.
Lemma safe_cancelBadgedSends M e b : safe M (cancelBadgedSends e b).
Proof. unfold cancelBadgedSends, make_ep_idle, ep_ptr_get_queue. safely. Qed.
Lemma safe_arch_call M a : safe M (arch_call_made a).
Proof. unfold arch_call_made. safely. Qed.
#[export] Hint Resolve safe_cancelBadgedSends safe_arch_call : authority.

(** ** Address spaces *)

Lemma safe_word_set M a v : safe M (word_set a v).
Proof. unfold word_set. safely. Qed.
Lemma safe_asid_table_set M i p : safe M (asid_table_set i p).
Proof. apply safe_tcbs. intros k a k'. unfold asid_table_set. case_match; by intros [= _ <-]. Qed.
#[export] Hint Resolve safe_word_set safe_asid_table_set : authority.
Lemma safe_setVMRoot M t : safe M (setVMRoot t).
Proof. unfold setVMRoot. safely. Qed.
#[export] Hint Resolve safe_setVMRoot : authority.
Lemma safe_asids M a v b p : safe M (deleteASID a v) ∧ safe M (deleteASIDPool b p).
Proof. unfold deleteASID, deleteASIDPool, hwASIDInvalidate. split; safely. Qed.
Lemma safe_unmapPage M s a v p : safe M (unmapPage s a v p).
Proof. unfold unmapPage, unmap_small, unmap_large, current_vspace, modeUnmapPage. safely. Qed.
Lemma safe_unmapPageTable M a v p : safe M (unmapPageTable a v p).
Proof. unfold unmapPageTable, flushTable, current_vspace. safely. Qed.
Lemma safe_copyGlobalMappings M v : safe M (copyGlobalMappings v).
Proof. unfold copyGlobalMappings. cbn zeta. apply safe_for_range. intros i. safely. Qed.
Lemma safe_clear_iopt M r b : safe M (clear_iopt r b).
Proof. unfold clear_iopt, vtd_pte_set. safely. Qed.
#[export] Hint Resolve looks_resolve_levels : invocation.
#[export] Hint Resolve safe_unmapPage safe_unmapPageTable safe_copyGlobalMappings safe_clear_iopt : authority.
#[export] Hint Extern 1 (safe _ (deleteASID _ _)) => apply (safe_asids _ _ _ 0 0) : authority.
#[export] Hint Extern 1 (safe _ (deleteASIDPool _ _)) => apply (safe_asids _ 0 0) : authority.
Lemma safe_io M c : safe M (unmapIOPage c) ∧ safe M (deleteIOPageTable c) ∧ safe M (unmapVTDContextEntry c).
Proof. unfold unmapIOPage, deleteIOPageTable, unmapVTDContextEntry, vtd_cte_set. split_and!; safely. Qed.
#[export] Hint Extern 1 (safe _ (unmapIOPage _)) => apply safe_io : authority.
#[export] Hint Extern 1 (safe _ (deleteIOPageTable _)) => apply safe_io : authority.
#[export] Hint Extern 1 (safe _ (unmapVTDContextEntry _)) => apply safe_io : authority.

Lemma safe_finaliseCap_at_once M c f : safe M (finaliseCap_at_once c f).
Proof. unfold finaliseCap_at_once, Arch_finaliseCap, Mode_finaliseCap, unmapPageDirectory. safely. Qed.
#[export] Hint Resolve safe_finaliseCap_at_once : authority.
Lemma safe_cteDeleteOne M s : safe M (cteDeleteOne s).
Proof. unfold cteDeleteOne, finaliseCap_exposed. safely. Qed.
#[export] Hint Resolve safe_cteDeleteOne : authority.
Lemma safe_cancelIPC M t : safe M (cancelIPC t).
Proof. unfold cancelIPC, ep_ptr_get_queue. safely. Qed.
#[export] Hint Resolve safe_cancelIPC : authority.
Lemma safe_suspend M t : safe M (suspend t).
Proof. unfold suspend. safely. Qed.
Lemma safe_restart M t : safe M (restart t).
Proof. unfold restart. safely. Qed.
#[export] Hint Resolve safe_suspend safe_restart : authority.
Lemma safe_finaliseCap M c f x : safe M (finaliseCap c f x).
Proof. unfold finaliseCap, deletingIRQHandler, Arch_prepareThreadDelete. safely. Qed.
Lemma safe_getRegister M t r : safe M (getRegister t r).
Proof. unfold getRegister. safely. Qed.
#[export] Hint Resolve safe_finaliseCap safe_getRegister : authority.
Lemma safe_activateThread M : safe M activateThread.
Proof. unfold activateThread, getRestartPC, setNextPC. safely. Qed.
Lemma safe_sendSignal M n b : safe M (sendSignal n b).
Proof. unfold sendSignal, ntfn_set_active, ntfn_ptr_get_queue. safely. Qed.
Lemma safe_setupCallerCap M s r : safe M (setupCallerCap s r).
Proof. unfold setupCallerCap. safely. Qed.
#[export] Hint Resolve safe_activateThread safe_sendSignal safe_setupCallerCap : authority.

(** ** Deletion *)

Lemma safe_preemptionPoint M : safe M preemptionPoint.
Proof. unfold preemptionPoint, isIRQPending. safely. Qed.
#[export] Hint Resolve safe_preemptionPoint : authority.

Lemma safe_deletion M fuel : (∀ s im, safe M (finaliseSlot fuel s im)) ∧ (∀ s im, safe M (reduceZombie fuel s im)) ∧
  (∀ s ex, safe M (cteDelete fuel s ex)).
Proof.
  induction fuel as [|fuel (IHf & IHr & IHd)]; [split_and!; intros; cbn; safely|].
  split_and!; intros; cbn [finaliseSlot reduceZombie cteDelete]; unfold swap_zombie, shrink_zombie; safely.
Qed.
Lemma safe_delete_slot M s : safe M (delete_slot s).
Proof. unfold delete_slot. apply safe_bind; [safely|]. intros fuel. apply safe_deletion. Qed.
#[export] Hint Resolve safe_delete_slot : authority.
Lemma safe_revoke_children M fuel : ∀ s, safe M (revoke_children fuel s).
Proof. induction fuel as [|fuel IH]; intros s; cbn [revoke_children]; safely. Qed.
#[export] Hint Resolve safe_revoke_children : authority.
Lemma safe_cteRevoke M s : safe M (cteRevoke s).
Proof. unfold cteRevoke. safely. Qed.
#[export] Hint Resolve safe_cteRevoke : authority.


(** ** New objects *)

Lemma authority_new M k k' t c : tcbs k' = <[t := c]> (tcbs k) → new_thread M c → regs_sane (registers c) → authority M k k'.
Proof.
  intros E Hn Hs. split.
  - intros u c' Hu. rewrite E in Hu. apply lookup_insert_Some in Hu as [[<- <-]|[_ Hu]]; [by right|left].
    exists c'. split; [done|apply thread_step_refl].
  - intros S. unfold sane. rewrite E. by apply map_Forall_insert_2.
Qed.

(** The registers of a new thread. *)
Lemma initContext_sane regs : regs_sane (<[18 := 35]> (<[16 := Z.lor (BIT 9) (BIT 1)]> (<[15 := 27]> (<[14 := 0]>
  (<[11 := 0]> (<[13 := 0]> (<[12 := 0]> (Mode_initContext regs)))))))).
Proof.
  intros r. unfold reg_sane, reg, Mode_initContext.
  destruct (Z.eqb_spec r FLAGS) as [->|]; [|destruct (Z.eqb_spec r FS) as [->|]; [|destruct (Z.eqb_spec r GS) as [->|];
    [|destruct (Z.eqb_spec r TLS_BASE) as [->|]; [|done]]]]; rewrite !lookup_insert_ne by done; by rewrite lookup_insert_eq.
Qed.

Lemma wp_wlp {A} (m : K A) Q k : wp m Q k → wlp m Q k.
Proof. unfold wp, wlp. by destruct (m k) as [[a|h] k']. Qed.

Lemma safe_createObject M t b u d : 0 ≤ M → safe M (createObject t b u d).
Proof.
  intros HM. unfold createObject, Mode_createObject. destruct (_ <=? _); [safely|]. destruct (t =? seL4_TCBObject); [|safely].
  clear t. intros k. set (t := wrap32 (b + TCB_OFFSET)). cbv zeta. apply wp_wlp. apply wp_bind, wp_modify.
  unfold Arch_initContext. apply wp_bind, wp_bind. eapply wp_tcb_set; [apply lookup_insert_eq|]. apply wp_modify.
  apply wp_bind. eapply wp_tcb_set; [apply lookup_insert_eq|]. apply wp_bind, wp_gets. apply wp_bind. eapply wp_tcb_set; [apply lookup_insert_eq|].
  apply wp_bind, wp_modify. apply wp_ret. eapply (authority_new M _ _ t).
  - change (tcbs (k <| ?f ::= ?g |>)) with (tcbs k). cbn. rewrite !insert_insert_eq. reflexivity.
  - split_and!; [by vm_compute|done|done].
  - apply initContext_sane.
Qed.
#[export] Hint Resolve safe_createObject : authority.

Lemma safe_clearMemory M p b : safe M (clearMemory p b).
Proof.
  unfold clearMemory. apply safe_bind; [safely|]. intros _. apply safe_bind; [safely|]. intros _ k. split.
  - intros u c Hu. cbn in Hu. apply map_lookup_filter_Some in Hu as [Hu _]. left. exists c. split; [done|apply thread_step_refl].
  - intros S u c Hu. cbn in Hu. apply map_lookup_filter_Some in Hu as [Hu _]. exact (S u c Hu).
Qed.
#[export] Hint Resolve safe_clearMemory : authority.
Lemma safe_reset_chunks M fuel : ∀ s b o c, safe M (reset_chunks fuel s b o c).
Proof. induction fuel as [|fuel IH]; intros s b o c; cbn [reset_chunks]; safely. Qed.
#[export] Hint Resolve safe_reset_chunks : authority.
Lemma safe_retype M s r b t u d dev : 0 ≤ M → safe M (invokeUntyped_Retype s r b t u d dev).
Proof. intros HM. unfold invokeUntyped_Retype, resetUntypedCap, createNewObjects. safely. Qed.
#[export] Hint Resolve safe_retype : authority.

Lemma safe_decodeUntyped M l n s c ex b : 0 ≤ M → safe M (decodeUntypedInvocation l n s c ex b).
Proof.
  intros HM. unfold decodeUntypedInvocation, retype_into, lookupTargetSlot, place_objects. safely.
Qed.

(** ** Messages *)

#[export] Hint Extern 1 (safe _ (getSyscallArg _ _)) => apply safe_looks, looks_getSyscallArg : authority.
Lemma safe_msgRegister M t i v : safe M (setRegister t (msgRegister i) v).
Proof. unfold msgRegister. apply safe_setRegister; by destruct (i =? 0). Qed.
#[export] Hint Resolve safe_msgRegister : authority.
Lemma safe_word_at M a : safe M (word_at a).
Proof. unfold word_at. safely. Qed.
#[export] Hint Resolve safe_word_at : authority.
Lemma safe_setMR M r b o v : safe M (setMR r b o v).
Proof. unfold setMR. safely. Qed.
Lemma safe_lookupIPCBuffer M b t : safe M (lookupIPCBuffer b t).
Proof. unfold lookupIPCBuffer. safely. Qed.
Lemma safe_copyMRs M s sb r rb n : safe M (copyMRs s sb r rb n).
Proof. unfold copyMRs. safely. Qed.
#[export] Hint Resolve safe_setMR safe_lookupIPCBuffer safe_copyMRs : authority.

Lemma looks_resolveAddressBits c p n : looks (resolveAddressBits c p n).
Proof. unfold resolveAddressBits. pose proof looks_resolve_loop. steps. Qed.
#[export] Hint Resolve looks_resolveAddressBits : invocation.
Lemma looks_lookups t p : looks (lookupSlot t p) ∧ looks (lookupCap t p) ∧ looks (lookupCapAndSlot t p).
Proof. unfold lookupCap, lookupCapAndSlot, lookupSlot. split_and!; steps. Qed.
#[export] Hint Extern 1 (looks (lookupSlot _ _)) => apply looks_lookups : invocation.
#[export] Hint Extern 1 (looks (lookupCap _ _)) => apply looks_lookups : invocation.
#[export] Hint Extern 1 (looks (lookupCapAndSlot _ _)) => apply looks_lookups : invocation.

Lemma safe_lookup_extra_caps M n : ∀ i t b, safe M (lookup_extra_caps n i t b).
Proof. induction n as [|n IH]; intros i t b; cbn [lookup_extra_caps]; unfold getExtraCPtr, set_excap; safely. Qed.
#[export] Hint Resolve safe_lookup_extra_caps : authority.
Lemma safe_lookupExtraCaps M t b i : safe M (lookupExtraCaps t b i).
Proof. unfold lookupExtraCaps, set_excap. safely. Qed.
Lemma safe_getReceiveSlots M t b : safe M (getReceiveSlots t b).
Proof. unfold getReceiveSlots, loadCapTransfer, lookupTargetSlot. safely. Qed.
#[export] Hint Resolve safe_lookupExtraCaps safe_getReceiveSlots : authority.
Lemma safe_transfer_caps M n : ∀ i info caps e rb d, safe M (transfer_caps n i info caps e rb d).
Proof. induction n as [|n IH]; intros; cbn [transfer_caps]; unfold setExtraBadge, transfer_one; safely. Qed.
#[export] Hint Resolve safe_transfer_caps : authority.
Lemma safe_doNormalTransfer M s sb e b g r rb : safe M (doNormalTransfer s sb e b g r rb).
Proof. unfold doNormalTransfer, transferCaps. safely. Qed.
Lemma safe_setMRs_lookup_failure M r b f o : safe M (setMRs_lookup_failure r b f o).
Proof. unfold setMRs_lookup_failure. safely. Qed.
Lemma safe_copyMRsFault M s r l n b : safe M (copyMRsFault s r l n b).
Proof. unfold copyMRsFault. safely. Qed.
#[export] Hint Resolve safe_doNormalTransfer safe_setMRs_lookup_failure safe_copyMRsFault : authority.
Lemma safe_doFaultTransfer M b s r rb : safe M (doFaultTransfer b s r rb).
Proof. unfold doFaultTransfer, setMRs_fault, getRestartPC. safely. Qed.
#[export] Hint Resolve safe_doFaultTransfer : authority.
Lemma safe_doIPCTransfer M s e b g r : safe M (doIPCTransfer s e b g r).
Proof. unfold doIPCTransfer. safely. Qed.
Lemma safe_wait_for_reply M g s r : safe M (wait_for_reply g s r).
Proof. unfold wait_for_reply. safely. Qed.
#[export] Hint Resolve safe_doIPCTransfer safe_wait_for_reply : authority.
Lemma safe_sendIPC M bl c b g t e : safe M (sendIPC bl c b g t e).
Proof. unfold sendIPC, ep_ptr_get_queue. safely. Qed.
Lemma safe_receiveIPC M t c b : safe M (receiveIPC t c b).
Proof. unfold receiveIPC, ep_ptr_get_queue, doNBRecvFailedTransfer. safely. Qed.
#[export] Hint Resolve safe_sendIPC safe_receiveIPC : authority.

(** Replies to faults write registers, sanitised. *)
Definition no_segments (l : list Z) : bool := forallb (λ r, negb (segment r)) l.
Lemma list_segment l i : no_segments l = true → segment (default 0 (l !! i)) = false.
Proof.
  unfold no_segments. rewrite forallb_forall. intros H. destruct (l !! i) as [r|] eqn:E; [|done]. cbn.
  apply negb_true_iff, H. apply list_elem_of_In. by eapply list_elem_of_lookup_2.
Qed.
Lemma safe_copyMRsFaultReply M s r l n : no_segments l = true → safe M (copyMRsFaultReply s r l n).
Proof.
  intros Hl. unfold copyMRsFaultReply. apply safe_bind; [apply safe_for_range; intros i|intros _; safely].
  - apply safe_bind; [safely|]. intros v. apply safe_setRegister; [by apply list_segment|apply sanitise_sane].
  - apply safe_setRegister; [by apply list_segment|apply sanitise_sane].
Qed.
#[export] Hint Extern 1 (safe _ (copyMRsFaultReply _ _ _ _)) => apply safe_copyMRsFaultReply; reflexivity : authority.
Lemma safe_doReplyTransfer M s r sl : safe M (doReplyTransfer s r sl).
Proof. unfold doReplyTransfer, handleFaultReply. safely. Qed.
Lemma safe_replyFromKernel M t : safe M (replyFromKernel_error t) ∧ safe M (replyFromKernel_success_empty t).
Proof. unfold replyFromKernel_error, replyFromKernel_success_empty, setMRs_syscall_error. split; safely. Qed.
#[export] Hint Resolve safe_doReplyTransfer : authority.
#[export] Hint Extern 1 (safe _ (replyFromKernel_error _)) => apply safe_replyFromKernel : authority.
#[export] Hint Extern 1 (safe _ (replyFromKernel_success_empty _)) => apply safe_replyFromKernel : authority.
Lemma safe_handleFault M t : safe M (handleFault t).
Proof. unfold handleFault, sendFaultIPC, handleDoubleFault. safely. Qed.
#[export] Hint Resolve safe_handleFault : authority.
