(* ===== verification/Privilege.v ===== *)
(** The invocations and the system calls keep [authority]: the priorities a caller
    can give are bounded by its own maximum, and the registers of the threads stay
    those of a user.  A decoder that sets priorities checks them against the
    running thread before it acts, so that its lemmas speak of a state in which
    that thread's maximum is [M]. *)

From S2P Require Import Prelude Messages Caps Kernel CSpace CNode Scheduler Wakeup Paging VSpace IOSpace Ipc Waiting Signals.
From S2P Require Import Cancel Transfer Endpoint Reply Retype Reset Creation Deletion Finalise Revoke Decode.
From S2P Require Import Threads Mmu Devices Interrupts Syscall Rejection Fastpath FastCall Entry Authority.
Import MessageInfo.

(** ** Slots *)

Lemma safe_restart_current M : safe M restart_current.
Proof. unfold restart_current. safely. Qed.
#[export] Hint Resolve safe_restart_current : authority.
Lemma safe_CancelBadgedSends M c : safe M (invokeCNodeCancelBadgedSends c).
Proof. unfold invokeCNodeCancelBadgedSends. safely. Qed.
Lemma safe_CNodeRotate M c c' s d e : safe M (invokeCNodeRotate c c' s d e).
Proof. unfold invokeCNodeRotate. safely. Qed.
Lemma safe_CNodeSaveCaller M d : safe M (invokeCNodeSaveCaller d).
Proof. unfold invokeCNodeSaveCaller. safely. Qed.
#[export] Hint Resolve safe_CancelBadgedSends safe_CNodeRotate safe_CNodeSaveCaller : authority.

Lemma safe_decode_insert M io l n ex b d : safe M (decode_insert io l n ex b d).
Proof. unfold decode_insert, lookupSourceSlot, invokeCNodeMove, invokeCNodeInsert. safely. Qed.
Lemma safe_decode_rotate M io n ex b d : safe M (decode_rotate io n ex b d).
Proof. unfold decode_rotate, lookupSourceSlot, lookupPivotSlot. safely. Qed.
#[export] Hint Resolve safe_decode_insert safe_decode_rotate : authority.
Lemma safe_decodeCNode M io l n c ex b : safe M (decodeCNodeInvocation io l n c ex b).
Proof. unfold decodeCNodeInvocation, lookupTargetSlot, invokeCNodeRevoke, invokeCNodeDelete. safely. Qed.
#[export] Hint Resolve safe_decodeCNode safe_decodeUntyped : authority.

(** ** Interrupts *)

Lemma safe_invokeIRQControl M i h c : safe M (invokeIRQControl i h c).
Proof. unfold invokeIRQControl. safely. Qed.
#[export] Hint Resolve safe_invokeIRQControl : authority.
Lemma safe_Arch_invokeIRQControl M i h c st : safe M (Arch_invokeIRQControl i h c st).
Proof. unfold Arch_invokeIRQControl, updateIRQState. safely. Qed.
#[export] Hint Resolve safe_Arch_invokeIRQControl : authority.
Lemma safe_invokeIOAPIC M i a p l q v h c : safe M (invokeIssueIRQHandlerIOAPIC i a p l q v h c).
Proof. unfold invokeIssueIRQHandlerIOAPIC. safely. Qed.
#[export] Hint Resolve safe_invokeIOAPIC : authority.
Lemma safe_decodeIRQControl M nio l n s ex b : safe M (decodeIRQControlInvocation nio l n s ex b).
Proof.
  unfold decodeIRQControlInvocation, Arch_decodeIRQControlInvocation, issue_ioapic, issue_msi, lookupTargetSlot, Arch_checkIRQ. safely.
Qed.
Lemma safe_decodeIRQHandler M l i ex : safe M (decodeIRQHandlerInvocation l i ex).
Proof.
  unfold decodeIRQHandlerInvocation, invokeIRQHandler_AckIRQ, invokeIRQHandler_SetIRQHandler, invokeIRQHandler_ClearIRQHandler. safely.
Qed.
#[export] Hint Resolve safe_decodeIRQControl safe_decodeIRQHandler : authority.
Lemma safe_handleInterrupt M i : safe M (handleInterrupt i).
Proof.
  unfold handleInterrupt. assert (safe M (irq_table i)) by (apply safe_tcbs; intros k a k'; unfold irq_table; case_match; by intros [= _ <-]). safely.
Qed.
#[export] Hint Resolve safe_handleInterrupt : authority.

(** ** Threads *)

Lemma frame_segment i : segment (frameRegister i) = false.
Proof. by apply list_segment. Qed.
Lemma gp_segment i : segment (gpRegister i) = false.
Proof. by apply list_segment. Qed.

Lemma safe_CopyRegisters M d s a b c e : safe M (invokeTCB_CopyRegisters d s a b c e).
Proof.
  unfold invokeTCB_CopyRegisters, getRestartPC, setNextPC.
  pose proof (λ i, safe_copy_register M s d _ (frame_segment i)). pose proof (λ i, safe_copy_register M s d _ (gp_segment i)). safely.
Qed.
Lemma safe_ReadRegisters M s a n b : safe M (invokeTCB_ReadRegisters s a n b).
Proof. unfold invokeTCB_ReadRegisters. safely. Qed.
Lemma safe_WriteRegisters M d a n b : safe M (invokeTCB_WriteRegisters d a n b).
Proof.
  unfold invokeTCB_WriteRegisters, getRestartPC, setNextPC.
  pose proof (λ i v, safe_setRegister M d _ _ (frame_segment i) (sanitise_sane _ v)).
  pose proof (λ i v, safe_setRegister M d _ _ (gp_segment i) (sanitise_sane _ v)). safely.
Qed.
Lemma safe_updates M t s w c src a : safe M (update_root t s w c src) ∧ safe M (update_buffer t s a c src).
Proof. unfold update_root, update_buffer, same_source. split; safely. Qed.
#[export] Hint Resolve safe_CopyRegisters safe_ReadRegisters safe_WriteRegisters : authority.
#[export] Hint Extern 1 (safe _ (update_root _ _ _ _ _)) => apply (safe_updates _ _ _ _ _ _ 0) : authority.
#[export] Hint Extern 1 (safe _ (update_buffer _ _ _ _ _)) => apply (safe_updates _ _ _ 0 _ _ _) : authority.

(** The operation sets the priorities it is asked to set. *)
Lemma safe_ThreadControl M t s f m p c cs v vs a b bs u :
  (updates u thread_control_update_mcp = true → m ≤ M) → (updates u thread_control_update_priority = true → p ≤ M) →
  safe M (invokeTCB_ThreadControl t s f m p c cs v vs a b bs u).
Proof.
  intros Hm Hp. unfold invokeTCB_ThreadControl. apply safe_bind; [safely|]. intros _.
  apply safe_bind; [destruct (updates u thread_control_update_mcp); [apply safe_setMCPriority; auto|safely]|]. intros _.
  apply safe_bind; [destruct (updates u thread_control_update_priority); [apply safe_setPriority; auto|safely]|]. intros _. safely.
Qed.

(** *** From the running thread *)

(** The running thread may give priorities up to [M] at most. *)
Definition may_give (M : Z) (k : ks) : Prop := ∃ c, tcbs k !! ksCurThread k = Some c ∧ tcbMCP c ≤ M.
Definition safe_from (M : Z) {A} (m : K A) : Prop := ∀ k, may_give M k → wlp m (λ _ k', authority M k k') k.

Lemma safe_from_safe M {A} (m : K A) : safe M m → safe_from M m.
Proof. intros H k _. apply H. Qed.
Lemma mcp_unchanged M k k' : unchanged k k' → may_give M k → may_give M k'.
Proof. intros E (c & Hc & Hm). exists c. split; [|done]. rewrite E. exact Hc. Qed.
Lemma unchanged_authority M k k' : unchanged k k' → authority M k k'.
Proof. intros E. apply authority_tcbs. by rewrite E. Qed.

Lemma safe_from_bind M {A B} (m : K A) (f : A → K B) : looks m → (∀ a, safe_from M (f a)) → safe_from M (m ≫= f).
Proof.
  intros Hm Hf k Hk. apply wlp_bind. eapply wlp_mono; [apply Hm|]. intros a k1 E1.
  eapply wlp_mono; [by apply Hf, (mcp_unchanged M k k1 E1)|]. intros b k2 E2. eapply authority_trans; [apply unchanged_authority, E1|exact E2].
Qed.
Lemma safe_from_or_return M {A} (m : K (exception_t + A)) f : looks m → (∀ a, safe_from M (f a)) → safe_from M (or_return m f).
Proof.
  intros Hm Hf. unfold or_return. apply safe_from_bind; [done|]. intros [st|a]; [apply safe_from_safe, safe_looks, looks_ret|apply Hf].
Qed.

(** A priority that has passed the check is at most the maximum. *)
Lemma safe_from_checkPrio M p (rest : K exception_t) : (p ≤ M → safe_from M rest) →
  safe_from M (status ← checkPrio p; if decide (status ≠ EXCEPTION_NONE) then mret status else rest).
Proof.
  intros Hr k Hk. pose proof Hk as (c & Hc & Hm). apply wlp_after. intros st k' E.
  pose proof (looks_checkPrio p k) as L. unfold wlp in L. rewrite E in L.
  case_decide as Hd; [apply wlp_ret; by apply unchanged_authority|].
  assert (Hp : p ≤ M).
  { revert E. unfold checkPrio, cur, tcb_at, mbind, M_bind, gets. cbv beta iota. rewrite Hc. cbv beta iota. unfold assert.
    destruct (tcbMCP c <=? seL4_MaxPrio); [|done]. cbn. destruct (Z.ltb_spec (tcbMCP c) p); [|lia]. by intros [= <- _]. }
  eapply wlp_mono; [by apply (Hr Hp k'), (mcp_unchanged M k)|]. intros b k2 E2. eapply authority_trans; [apply unchanged_authority, L|exact E2].
Qed.

(** Takes a decoder apart until it acts. *)
Ltac checks := repeat first
  [ apply safe_from_checkPrio; intros ? | apply safe_from_or_return; [solve [auto with invocation]|intros ?]
  | solve [apply safe_from_safe; auto with authority] | apply safe_from_bind; [solve [auto with invocation]|intros ?]
  | case_match | case_decide | progress cbn zeta ].

#[export] Hint Extern 2 (safe _ (invokeTCB_ThreadControl _ _ _ _ _ _ _ _ _ _ _ _ _)) =>
  apply safe_ThreadControl; intros Hflag; solve [assumption | discriminate Hflag] : authority.
#[export] Hint Extern 3 (safe _ (_ ≫= _)) => apply safe_bind; [|intros ?] : authority.
#[export] Hint Extern 1 (safe _ (invokeTCB_NotificationControl _ _)) => unfold invokeTCB_NotificationControl; solve [safely] : authority.

Lemma safe_from_decodeTCB M io l n c s ex call b : safe_from M (decodeTCBInvocation io l n c s ex call b).
Proof.
  unfold decodeTCBInvocation, decodeReadRegisters, decodeWriteRegisters, decodeCopyRegisters, decodeTCBConfigure, decodeSetPriority,
    decodeSetMCPriority, decodeSetIPCBuffer, decodeSetSpace, decodeBindNotification, decodeUnbindNotification, invokeTCB_Suspend,
    invokeTCB_Resume. checks.
Qed.

(** ** System calls *)

(** The threads and the choice of the running one stay. *)
Definition reads {A} (m : K A) : Prop := ∀ k, wlp m (λ _ k', tcbs k' = tcbs k ∧ ksCurThread k' = ksCurThread k) k.

Lemma reads_looks {A} (m : K A) : looks m → reads m.
Proof. intros H k. eapply wlp_mono; [apply H|]. intros a k' E. by rewrite E. Qed.
Lemma reads_bind {A B} (m : K A) (f : A → K B) : reads m → (∀ a, reads (f a)) → reads (m ≫= f).
Proof.
  intros Hm Hf k. apply wlp_bind. eapply wlp_mono; [apply Hm|]. intros a k1 [E1 F1].
  eapply wlp_mono; [apply Hf|]. intros b k2 [E2 F2]. by rewrite E2, F2.
Qed.
Lemma reads_set_excap i s : reads (set_excap i s).
Proof. intros k. by unfold wlp, set_excap, modify. Qed.
Lemma safe_from_reads M {A B} (m : K A) (f : A → K B) : reads m → (∀ a, safe_from M (f a)) → safe_from M (m ≫= f).
Proof.
  intros Hm Hf k (c & Hc & Hmcp). apply wlp_bind. eapply wlp_mono; [apply Hm|]. intros a k1 [E1 F1].
  eapply wlp_mono; [apply Hf; exists c; by rewrite E1, F1|]. intros b k2 E2. eapply authority_trans; [by apply authority_tcbs|exact E2].
Qed.

Lemma reads_lookup_extra_caps n : ∀ i t b, reads (lookup_extra_caps n i t b).
Proof.
  induction n as [|n IH]; intros i t b; cbn [lookup_extra_caps]; [apply reads_looks, looks_ret|].
  apply reads_bind; [apply reads_looks; unfold getExtraCPtr, word_at; auto with invocation|]. intros p.
  apply reads_bind; [apply reads_looks; auto with invocation|]. intros lu. case_decide.
  - apply reads_bind; [by intros k|]. intros _. apply reads_looks, looks_ret.
  - apply reads_bind; [apply reads_set_excap|]. intros _. apply IH.
Qed.
Lemma reads_lookupExtraCaps t b i : reads (lookupExtraCaps t b i).
Proof.
  unfold lookupExtraCaps. case_match; [apply reads_bind; [apply reads_set_excap|intros _; apply reads_looks, looks_ret]|].
  cbn zeta. apply reads_bind; [apply reads_lookup_extra_caps|]. intros r. case_decide; [apply reads_looks, looks_ret|].
  apply reads_bind; [destruct (_ <? _); [apply reads_set_excap|apply reads_looks, looks_ret]|intros _; apply reads_looks, looks_ret].
Qed.
Lemma looks_lookupIPCBuffer b t : looks (lookupIPCBuffer b t).
Proof. unfold lookupIPCBuffer. steps. Qed.
Lemma looks_getRegister t r : looks (getRegister t r).
Proof. unfold getRegister. steps. Qed.
#[export] Hint Resolve looks_lookupIPCBuffer looks_getRegister : invocation.

(** ** Address spaces and devices *)

Lemma safe_or_return M {A} (m : K (exception_t + A)) f : safe M m → (∀ a, safe M (f a)) → safe M (or_return m f).
Proof. intros Hm Hf. unfold or_return. apply safe_bind; [done|]. intros [st|a]; [apply safe_looks, looks_ret|apply Hf]. Qed.

Lemma safe_page_map M n s c ex b : safe M (decode_page_map n s c ex b).
Proof.
  unfold decode_page_map, map_frame, performX86PageInvocationMapPTE, performX86PageInvocationMapPDE, decodeX86ModeMapRemapPage.
  repeat (safely; try (apply safe_or_return; [safely|intros ?])).
Qed.
Lemma safe_page_remap M n c ex b : safe M (decode_page_remap n c ex b).
Proof.
  unfold decode_page_remap, remap_frame, performX86PageInvocationRemapPTE, performX86PageInvocationRemapPDE, decodeX86ModeMapRemapPage.
  repeat (safely; try (apply safe_or_return; [safely|intros ?])).
Qed.
Lemma safe_page_unmap M c s : safe M (decode_page_unmap c s).
Proof. unfold decode_page_unmap, performX86PageInvocationUnmap, performX86IOUnMapInvocation. safely. Qed.
Lemma safe_io_map M n s c ex b : safe M (decodeX86IOMapInvocation n s c ex b).
Proof. unfold decodeX86IOMapInvocation, decode_io_map_slot, performX86IOInvocationMap, vtd_pte_set. safely. Qed.
Lemma safe_page_table M l n s c ex b : safe M (decodeX86PageTableInvocation l n s c ex b).
Proof.
  unfold decodeX86PageTableInvocation, decode_page_table_map, performX86PageTableInvocationMap, performX86PageTableInvocationUnmap.
  repeat (safely; try (apply safe_or_return; [safely|intros ?])).
Qed.
Lemma safe_make_pool M n ex b : safe M (decode_make_pool n ex b).
Proof. unfold decode_make_pool, performASIDControlInvocation, lookupTargetSlot. safely. Qed.
Lemma safe_pool_assign M b p ex : safe M (decode_pool_assign b p ex).
Proof. unfold decode_pool_assign, performASIDPoolInvocation. safely. Qed.
Lemma safe_page_directory M l n c b : safe M (decodeIA32PageDirectoryInvocation l n c b).
Proof. unfold decodeIA32PageDirectoryInvocation, performIA32PageDirectoryGetStatusBits. safely. Qed.
Lemma safe_port M l n c b : safe M (decodeX86PortInvocation l n c b).
Proof. unfold decodeX86PortInvocation, port_read, port_write, port_in, port_out, port_reply. safely. Qed.
Lemma safe_iopt M l n s c ex b : safe M (decodeX86IOPTInvocation l n s c ex b).
Proof.
  unfold decodeX86IOPTInvocation, decode_iopt_map, performX86IOPTInvocationUnmap, performX86IOPTInvocationMapContextRoot,
    performX86IOPTInvocationMapPT, vtd_pte_set, vtd_cte_set. safely.
Qed.
#[export] Hint Resolve safe_page_map safe_page_remap safe_page_unmap safe_io_map safe_page_table safe_make_pool safe_pool_assign
  safe_page_directory safe_port safe_iopt : authority.

Lemma safe_Arch_decode M l n s c ex b : safe M (Arch_decodeInvocation l n s c ex b).
Proof.
  unfold Arch_decodeInvocation, Mode_decodeInvocation, decodeX86MMUInvocation, decodeX86ModeMMUInvocation, decodeX86FrameInvocation,
    performPageGetAddress, decodeX86IOSpaceInvocation. safely.
Qed.

Section calls.
Context (io : io_domains) (num_ioapics : Z).
Context (name_ok : Z → bool) (active sysenter_end_stamp start_stamp fault_addr : Z).
Context (M : Z) (HM : 0 ≤ M).

Lemma safe_from_decodeInvocation l n i s c ex bl call b : safe_from M (decodeInvocation io num_ioapics l n i s c ex bl call b).
Proof.
  unfold decodeInvocation. destruct (isArchCap c); [apply safe_from_safe, safe_Arch_decode|].
  unfold performInvocation_Endpoint, performInvocation_Notification, performInvocation_Reply, decodeDomainInvocation.
  destruct c; try apply safe_from_decodeTCB; apply safe_from_safe; safely.
Qed.

Lemma safe_from_handleInvocation call bl : safe_from M (handleInvocation io num_ioapics call bl).
Proof.
  unfold handleInvocation. do 5 (apply safe_from_bind; [auto with invocation|]; intros ?).
  case_decide; [apply safe_from_safe; unfold cap_fault; safely|].
  apply safe_from_bind; [auto with invocation|]. intros buffer. apply safe_from_reads; [apply reads_lookupExtraCaps|]. intros st.
  case_decide; [apply safe_from_safe; safely|]. cbn zeta. apply safe_from_bind; [auto with invocation|]. intros ex k Hk.
  apply wlp_bind. eapply wlp_mono; [by apply safe_from_decodeInvocation|]. intros st' k1 A1.
  match goal with |- wlp ?m _ _ => assert (S : safe M m) by safely end.
  eapply wlp_mono; [apply S|]. intros ? k2 A2. exact (authority_trans _ _ _ _ A1 A2).
Qed.

(** A computation that does not start with the running thread, before a safe one. *)
Lemma safe_from_then {A B} (m : K A) (f : A → K B) : safe_from M m → (∀ a, safe M (f a)) → safe_from M (m ≫= f).
Proof.
  intros Hm Hf k Hk. apply wlp_bind. eapply wlp_mono; [by apply Hm|]. intros a k1 A1.
  eapply wlp_mono; [apply Hf|]. intros b k2 A2. exact (authority_trans _ _ _ _ A1 A2).
Qed.

Lemma safe_handleReply : safe M handleReply.
Proof. unfold handleReply. safely. Qed.
Lemma safe_handleRecv b : safe M (handleRecv b).
Proof. unfold handleRecv, no_receive, cap_fault, deleteCallerCap. safely. Qed.

Lemma safe_from_handleSyscall syscall : safe_from M (handleSyscall io num_ioapics active syscall).
Proof.
  pose proof safe_handleReply. pose proof safe_handleRecv. unfold handleSyscall. apply safe_from_then; [|intros _; safely].
  assert (Hi : ∀ c b, safe_from M (invocation_syscall io num_ioapics active c b)).
  { intros c b. unfold invocation_syscall, handle_active. apply safe_from_then; [apply safe_from_handleInvocation|intros ?; safely]. }
  repeat (case_match; [first [apply Hi|apply safe_from_safe; unfold handleYield; safely]|]). apply safe_from_safe. safely.
Qed.

Lemma safe_handleUnknownSyscall st w : safe M (handleUnknownSyscall st name_ok w).
Proof. unfold handleUnknownSyscall. safely. Qed.
Lemma safe_restore st : safe M (restore_user_context sysenter_end_stamp start_stamp st).
Proof. unfold restore_user_context, write_stamps. safely. Qed.

Lemma safe_lookup_fp fuel : ∀ c p b, safe M (lookup_fp_loop fuel c p b).
Proof. induction fuel as [|fuel IH]; intros c p b; cbn [lookup_fp_loop]; safely. Qed.
Lemma safe_fast_commits e b d w :
  safe M (fastpath_call_commit e b d w) ∧ safe M (fastpath_reply_recv_commit e d w).
Proof.
  unfold fastpath_call_commit, fastpath_reply_recv_commit, fastpath_mdb_next, fastpath_copy_mrs, switchToThread_fp, fastpath_restore.
  assert (H5 : ∀ s, safe M (copy_register s d EDI)) by (intros s; by apply safe_copy_register).
  assert (H6 : ∀ s, safe M (copy_register s d EBP)) by (intros s; by apply safe_copy_register). split; safely.
Qed.

(** A fast path that is not taken has changed nothing. *)
Definition attempt (m : K bool) : Prop :=
  ∀ k, wlp m (λ taken k', authority M k k' ∧ (taken = false → may_give M k → may_give M k')) k.

Lemma attempt_checks {A} (m : K (option A)) (g : option A → K bool) : looks m → g None = mret false →
  (∀ a, ∃ f : K unit, safe M f ∧ g (Some a) = (f;; mret true)) → attempt (m ≫= g).
Proof.
  intros Hm Hn Hg k. apply wlp_bind. eapply wlp_mono; [apply Hm|]. intros [a|] k1 E1.
  - destruct (Hg a) as (f & Hf & ->). apply wlp_bind. eapply wlp_mono; [apply Hf|]. intros [] k2 A2. apply wlp_ret. split; [|done].
    eapply authority_trans; [apply unchanged_authority, E1|exact A2].
  - rewrite Hn. apply wlp_ret. split; [by apply unchanged_authority|]. intros _. by apply mcp_unchanged.
Qed.

Lemma looks_ep_at e : looks (ep_at e).
Proof. intros k. unfold wlp, ep_at. destruct (eps k !! e); [apply unchanged_refl|done]. Qed.
Lemma looks_lookup_fp fuel : ∀ c p b, looks (lookup_fp_loop fuel c p b).
Proof. induction fuel as [|fuel IH]; intros c p b; cbn [lookup_fp_loop]; steps. Qed.
Lemma attempt_fastpaths p w : attempt (fastpath_call p w) ∧ attempt (fastpath_reply_recv p w).
Proof.
  pose proof looks_ep_at. pose proof looks_lookup_fp. split; unfold fastpath_call, fastpath_reply_recv; apply attempt_checks; try done.
  - unfold fastpath_call_checks, lookup_fp. steps.
  - intros [[e b] d]. exists (fastpath_call_commit e b d w). split; [apply safe_fast_commits|done].
  - unfold fastpath_reply_recv_checks, lookup_fp. steps.
  - intros [e d]. exists (fastpath_reply_recv_commit e d w). split; [apply (safe_fast_commits e 0 d w)|done].
Qed.

Lemma safe_handleInterruptEntry i : safe M (handleInterruptEntry i).
Proof. unfold handleInterruptEntry, handle_active. safely. Qed.
Lemma safe_handleUserLevelFault a b : safe M (handleUserLevelFault a b).
Proof. unfold handleUserLevelFault. safely. Qed.
Lemma safe_c_handle_interrupt st i w : safe M (c_handle_interrupt name_ok sysenter_end_stamp start_stamp fault_addr st i w).
Proof.
  pose proof safe_handleUnknownSyscall. pose proof safe_restore. pose proof safe_handleInterruptEntry. pose proof safe_handleUserLevelFault.
  unfold c_handle_interrupt, handleFPUFault, handleVMFaultEvent, handleVMFault. safely.
Qed.

(** The step over the [sysenter] instruction. *)
Lemma skip_sysenter {A} (rest : K A) Q k : may_give M k → (∀ k', authority M k k' → may_give M k' → wlp rest Q k') →
  wlp (t ← cur; pc ← getRegister t NextIP; setRegister t NextIP (wrap32 (pc + 2));; rest) Q k.
Proof.
  intros (c & Hc & Hm) Hrest. apply wlp_bind. unfold cur, gets, wlp at 1. apply wlp_bind. unfold getRegister. apply wlp_bind.
  unfold tcb_at, wlp at 1. rewrite Hc. apply wlp_ret. set (v := wrap32 _). apply wlp_bind.
  assert (S : safe M (setRegister (ksCurThread k) NextIP v)) by (by apply safe_setRegister). specialize (S k).
  unfold wlp, setRegister, tcb_set in S |- *. rewrite Hc in S |- *. apply Hrest; [exact S|].
  exists (c <| registers ::= <[NextIP := v]> |>). split; [apply lookup_insert_eq|done].
Qed.

Lemma safe_from_slowpath st syscall : safe_from M (slowpath io num_ioapics st name_ok active syscall).
Proof.
  unfold slowpath. case_match; [apply safe_from_safe, safe_handleUnknownSyscall|].
  apply safe_from_then; [apply safe_from_handleSyscall|intros ?; safely].
Qed.

Lemma safe_from_c_handle_syscall st p w syscall :
  safe_from M (c_handle_syscall io num_ioapics name_ok active sysenter_end_stamp start_stamp st p w syscall).
Proof.
  intros k Hk. unfold c_handle_syscall. apply skip_sysenter; [done|]. intros k1 A1 Hk1. apply wlp_bind.
  eapply (wlp_mono _ (λ taken k2, authority M k1 k2 ∧ (taken = false → may_give M k1 → may_give M k2))).
  { destruct (attempt_fastpaths p w) as [F1 F2]. destruct (syscall =? SysCall); [apply F1|]. destruct (syscall =? SysReplyRecv); [apply F2|].
    apply wlp_ret. split; [apply authority_refl|done]. }
  intros [] k2 [A2 Hk2]; [apply wlp_ret; exact (authority_trans _ _ _ _ A1 A2)|]. apply wlp_bind.
  eapply wlp_mono; [by apply safe_from_slowpath, Hk2|]. intros st' k3 A3. eapply wlp_mono; [apply safe_restore|]. intros st2 k4 A4.
  exact (authority_trans _ _ _ _ A1 (authority_trans _ _ _ _ A2 (authority_trans _ _ _ _ A3 A4))).
Qed.
End calls.

(** ** What no system call can do *)

(** C5: no system call raises a priority above the caller's authority.  Whatever
    the system call and its message, on the fast or the slow path, a thread that
    existed before has afterwards the priority and the maximum controlled priority
    it had, or ones that are at most the maximum of the caller; and those of a
    thread that has been created are at most that. *)
Theorem priorities_bounded io num_ioapics name_ok active end_stamp start_stamp stamp cptr msgInfo syscall k c :
  tcbs k !! ksCurThread k = Some c → 0 ≤ tcbMCP c →
  wlp (c_handle_syscall io num_ioapics name_ok active end_stamp start_stamp stamp cptr msgInfo syscall) (λ _ k',
    ∀ u c', tcbs k' !! u = Some c' →
      (∃ c0, tcbs k !! u = Some c0 ∧ (tcbPriority c' = tcbPriority c0 ∨ tcbPriority c' ≤ tcbMCP c) ∧
         (tcbMCP c' = tcbMCP c0 ∨ tcbMCP c' ≤ tcbMCP c)) ∨
      tcbPriority c' ≤ tcbMCP c ∧ tcbMCP c' ≤ tcbMCP c) k.
Proof.
  intros Hc HM. eapply wlp_mono; [apply (safe_from_c_handle_syscall io num_ioapics name_ok active end_stamp start_stamp _ HM)|].
  { exists c. by split. }
  intros _ k' [A _] u c' Hu. destruct (A u c' Hu) as [(c0 & Hc0 & _ & Hp & Hm)|(_ & Hp & Hm)]; [left; by exists c0|by right].
Qed.

(** C6: the registers of a thread stay those of a user.  When the flags of every
    thread keep interrupts enabled and ports and single steps forbidden, its data
    segments are those a user may have and its thread-local storage lies below the
    kernel, this is so after every system call, fault, exception and interrupt; no
    thread gets other code, stack or data segments, and a new one has those of user
    level. *)
Theorem registers_stay_sane io num_ioapics name_ok active end_stamp start_stamp fault_addr stamp cptr msgInfo number irq k :
  sane k →
  let keeps_registers (_ : bool) (k' : ks) := sane k' ∧ ∀ u c', tcbs k' !! u = Some c' →
    segments c' = user_segments ∨ ∃ c0, tcbs k !! u = Some c0 ∧ segments c' = segments c0 in
  wlp (c_handle_syscall io num_ioapics name_ok active end_stamp start_stamp stamp cptr msgInfo number) keeps_registers k ∧
  wlp (c_handle_interrupt name_ok end_stamp start_stamp fault_addr stamp irq number) keeps_registers k.
Proof.
  intros Hs P. assert (HP : ∀ M (b : bool) k', authority M k k' → P b k').
  { intros M b k' [A S]. split; [auto|]. intros u c' Hu. destruct (A u c' Hu) as [(c0 & Hc0 & E & _)|(E & _)]; [right; by exists c0|by left]. }
  split.
  - destruct (tcbs k !! ksCurThread k) as [c|] eqn:Hc.
    + set (M := Z.max 0 (tcbMCP c)). eapply wlp_mono; [apply (safe_from_c_handle_syscall io num_ioapics name_ok active end_stamp start_stamp M)|apply HP].
      * lia.
      * exists c. split; [done|lia].
    + unfold c_handle_syscall, cur, getRegister, wlp, mbind, M_bind, gets, tcb_at. by rewrite Hc.
  - eapply wlp_mono; [apply (safe_c_handle_interrupt name_ok end_stamp start_stamp fault_addr 0)|apply HP].
Qed.

(** *** The client of [FastCall] *)

(** Its threads with the registers a new thread has. *)
Definition new_registers : gmap Z Z :=
  <[18 := 35]> (<[16 := Z.lor (BIT 9) (BIT 1)]> (<[15 := 27]> (<[14 := 0]> (<[11 := 0]> (<[13 := 0]> (<[12 := 0]> (Mode_initContext ∅))))))).
Definition user_ks : ks := pair_ks <| tcbs ::= fmap (λ c, c <| registers ::= (.∪ new_registers) |>) |>.
Lemma user_sane : sane user_ks.
Proof.
  intros u c Hu. change (((λ c, c <| registers ::= (.∪ new_registers) |>) <$> (list_to_map pair_threads : gmap Z tcb_t)) !! u = Some c) in Hu.
  rewrite lookup_fmap in Hu. apply fmap_Some in Hu as (c0 & Hc0 & ->). revert u c0 Hc0.
  apply (list_cases pair_threads (λ _ c0, regs_sane (registers (c0 <| registers ::= (.∪ new_registers) |>)))).
  assert (H : ∀ r0, (∀ r, r ∈ [FLAGS; FS; GS; TLS_BASE] → r0 !! r = None) → regs_sane (r0 ∪ new_registers)).
  { intros r0 H0 r. pose proof (initContext_sane ∅ r) as I. destruct (decide (r ∈ [FLAGS; FS; GS; TLS_BASE])) as [Hr|Hr].
    - unfold reg in *. by rewrite lookup_union_r by auto.
    - unfold reg_sane. rewrite !not_elem_of_cons in Hr. destruct Hr as (H1 & H2 & H3 & H4 & _).
      by rewrite (proj2 (Z.eqb_neq _ _) H1), (proj2 (Z.eqb_neq _ _) H2), (proj2 (Z.eqb_neq _ _) H3), (proj2 (Z.eqb_neq _ _) H4). }
  each; try exact I; apply H; intros r Hr; repeat (apply elem_of_cons in Hr as [-> |Hr]; [vm_compute; reflexivity|]); by apply elem_of_nil in Hr.
Qed.

Lemma priorities_bounded_witness :
  wlp (c_handle_syscall (mk_io 0 0) 1 (λ _, true) 255 0 0 false 2147483648 28674 SysCall) (λ _ k',
    ∀ u c', tcbs k' !! u = Some c' →
      (∃ c0, tcbs pair_ks !! u = Some c0 ∧ (tcbPriority c' = tcbPriority c0 ∨ tcbPriority c' ≤ tcbMCP pair_client_tcb) ∧
         (tcbMCP c' = tcbMCP c0 ∨ tcbMCP c' ≤ tcbMCP pair_client_tcb)) ∨
      tcbPriority c' ≤ tcbMCP pair_client_tcb ∧ tcbMCP c' ≤ tcbMCP pair_client_tcb) pair_ks.
Proof.
  refine (priorities_bounded (mk_io 0 0) 1 (λ _, true) 255 0 0 false 2147483648 28674 SysCall pair_ks pair_client_tcb _ _).
  - vm_compute. reflexivity.
  - vm_compute. discriminate.
Defined.

Lemma registers_stay_sane_witness :
  let keeps_registers (_ : bool) (k' : ks) := sane k' ∧ ∀ u c', tcbs k' !! u = Some c' →
    segments c' = user_segments ∨ ∃ c0, tcbs user_ks !! u = Some c0 ∧ segments c' = segments c0 in
  wlp (c_handle_syscall (mk_io 0 0) 1 (λ _, true) 255 0 0 false 2147483648 28674 SysCall) keeps_registers user_ks ∧
  wlp (c_handle_interrupt (λ _, true) 0 0 0 false 14 SysCall) keeps_registers user_ks.
Proof.
  exact (registers_stay_sane (mk_io 0 0) 1 (λ _, true) 255 0 0 0 false 2147483648 28674 SysCall 14 user_ks user_sane).
Defined.

(** The entry runs through on that state, and ends in the server. *)
Example user_call :
  let r := c_handle_syscall (mk_io 0 0) 1 (λ _, true) 255 0 0 false 2147483648 28674 SysCall user_ks in
  fst r = Done false ∧ ksCurThread (snd r) = pair_server.
Proof. vm_compute. split; reflexivity. Qed.
