(* ===== verification/Mapping.v ===== *)
(** What the processor makes of the page tables ([translate]), and what the
    mapping operations do to it: a frame that is mapped appears at its address,
    with the rights the capability and the message allow, and nowhere else; when it
    is unmapped every translation is again what it was. *)

From S2P Require Import Prelude Messages Caps Kernel CSpace CNode Scheduler Wakeup Paging VSpace IOSpace Ipc Waiting Signals.
From S2P Require Import Cancel Transfer Endpoint Reply Retype Reset Creation Deletion Finalise Revoke Decode.
From S2P Require Import Threads Mmu Devices Interrupts Syscall Rejection.

(** ** Translation *)

Definition word (m : gmap Z Z) (a : Z) : Z := default 0 (m !! a).

(** The page table behind entry [i] of a directory. *)
Definition table (m : gmap Z Z) (pd i : Z) : option Z :=
  let w := word m (entry_ptr pd i) in
  if negb (size_bit w) && present_bit w then Some (ptrFromPAddr (bf_get 0xfffff000 0 w)) else None.

Record translation := mk_translation { tr_paddr : Z; tr_user : bool; tr_write : bool }.

(** The walk of the hardware: rights are those both entries give. *)
Definition translate (m : gmap Z Z) (pd v : Z) : option translation :=
  let pde := word m (entry_ptr pd (Z.shiftr v 22)) in
  if negb (present_bit pde) then None
  else if size_bit pde then
    Some (mk_translation (bf_get 0xffc00000 0 pde + v mod 2 ^ 22) (user_bit pde) (write_bit pde))
  else
    let pte := word m (entry_ptr (ptrFromPAddr (bf_get 0xfffff000 0 pde)) (Z.land (Z.shiftr v 12) (MASK 10))) in
    if negb (present_bit pte) then None
    else Some (mk_translation (bf_get 0xfffff000 0 pte + v mod 2 ^ 12) (user_bit pde && user_bit pte) (write_bit pde && write_bit pte)).

(** No page table is the directory, and none is there twice. *)
Definition apart (m : gmap Z Z) (pd : Z) : Prop :=
  (∀ i t, 0 ≤ i < 1024 → table m pd i = Some t → t ≠ pd) ∧
  (∀ i j t, 0 ≤ i < 1024 → 0 ≤ j < 1024 → table m pd i = Some t → table m pd j = Some t → i = j).

(** ** Addresses of entries *)

(** A page of memory, at its address. *)
Definition page_at (p : Z) : Prop := 0 ≤ p < 2 ^ 32 ∧ (4096 | p).

Lemma entry_sum p i : page_at p → 0 ≤ i < 1024 → entry_ptr p i = p + 4 * i.
Proof. intros [Hp [q ->]] Hi. unfold entry_ptr. apply wrap_same. nia. Qed.

Lemma entry_inj p q i j : page_at p → page_at q → 0 ≤ i < 1024 → 0 ≤ j < 1024 → entry_ptr p i = entry_ptr q j → p = q ∧ i = j.
Proof.
  intros Hp Hq Hi Hj. rewrite !entry_sum by done. destruct Hp as [_ [a ->]], Hq as [_ [b ->]]. intros E.
  assert (a = b) by lia. lia.
Qed.

Lemma directory_index v : 0 ≤ v < 2 ^ 32 → 0 ≤ Z.shiftr v 22 < 1024.
Proof.
  intros H. rewrite Z.shiftr_div_pow2 by lia. split; [apply Z.div_pos; lia|]. apply Z.div_lt_upper_bound; lia.
Qed.
Lemma table_index v : 0 ≤ Z.land (Z.shiftr v 12) (MASK 10) < 1024.
Proof. change (MASK 10) with (Z.ones 10). rewrite Z.land_ones by lia. apply Z.mod_pos_bound. lia. Qed.

(** The two indices and the offset determine an address. *)
Lemma same_page u v : Z.shiftr u 22 = Z.shiftr v 22 →
  Z.land (Z.shiftr u 12) (MASK 10) = Z.land (Z.shiftr v 12) (MASK 10) → u / 2 ^ 12 = v / 2 ^ 12.
Proof.
  change (MASK 10) with (Z.ones 10). rewrite !Z.land_ones, !Z.shiftr_div_pow2 by lia.
  change (2 ^ 22) with (2 ^ 12 * 2 ^ 10). rewrite <- !Z.div_div by lia. intros E1 E2.
  rewrite (Z.div_mod (u / 2 ^ 12) (2 ^ 10)), (Z.div_mod (v / 2 ^ 12) (2 ^ 10)) by lia. lia.
Qed.

Lemma ptr_page w : page_at (ptrFromPAddr (bf_get 0xfffff000 0 w)).
Proof.
  unfold ptrFromPAddr, wrap32. change word_mod with (2 ^ 32). split; [apply Z.mod_pos_bound; lia|].
  unfold bf_get. rewrite Z.shiftr_0_r. change 0xfffff000 with (field 12 20).
  assert (Hd : (4096 | Z.land w (field 12 20))).
  { exists (Z.shiftr (Z.land w (field 12 20)) 12). rewrite <- (Z.shiftl_mul_pow2 _ 12) by lia. bitwise i Hi.
    destruct (Z.lt_ge_cases i 12).
    - rewrite (Z.testbit_neg_r _ (i - 12)) by lia. destruct (Z.leb_spec 12 i); [lia|]. apply andb_false_r.
    - rewrite Z.shiftr_spec, Z.land_spec by lia. replace (i - 12 + 12) with i by lia.
      rewrite field_testbit by lia. done. }
  apply Z.mod_divide; [lia|]. rewrite Z.mod_mod_divide by (by exists (2 ^ 20)).
  apply Z.mod_divide; [lia|]. apply Z.divide_add_r; [done|]. by exists 917504.
Qed.
Lemma table_page m pd i t : table m pd i = Some t → page_at t.
Proof. unfold table. case_match; [|done]. intros [= <-]. apply ptr_page. Qed.

(** ** One entry changes *)

Lemma word_same m a w : word (<[a := w]> m) a = w.
Proof. unfold word. by rewrite lookup_insert_eq. Qed.
Lemma word_other m a w b : a ≠ b → word (<[a := w]> m) b = word m b.
Proof. intros H. unfold word. by rewrite lookup_insert_ne. Qed.

Section writes.
Context (m : gmap Z Z) (pd : Z).
Hypotheses (Hpd : page_at pd) (Hap : apart m pd).

(** An entry of a page table is read by the addresses of its page. *)
Lemma translate_write_pte v t w u : 0 ≤ v < 2 ^ 32 → 0 ≤ u < 2 ^ 32 → table m pd (Z.shiftr v 22) = Some t →
  let m' := <[entry_ptr t (Z.land (Z.shiftr v 12) (MASK 10)) := w]> m in
  translate m' pd u =
    if decide (u / 2 ^ 12 = v / 2 ^ 12) then
      if present_bit w then
        let pde := word m (entry_ptr pd (Z.shiftr v 22)) in
        Some (mk_translation (bf_get 0xfffff000 0 w + u mod 2 ^ 12) (user_bit pde && user_bit w) (write_bit pde && write_bit w))
      else None
    else translate m pd u.
Proof.
  intros Hv Hu Ht m'. pose proof (directory_index v Hv) as Iv. pose proof (directory_index u Hu) as Iu.
  pose proof (table_index v) as Jv. pose proof (table_index u) as Ju. pose proof (table_page _ _ _ _ Ht) as Pt.
  assert (Htp : t ≠ pd) by (by apply (proj1 Hap (Z.shiftr v 22))).
  assert (Hdir : ∀ i, 0 ≤ i < 1024 → word m' (entry_ptr pd i) = word m (entry_ptr pd i)).
  { intros i Hi. apply word_other. intros E. apply entry_inj in E as [? _]; done. }
  unfold translate. rewrite Hdir by done. set (pde := word m (entry_ptr pd (Z.shiftr u 22))).
  case_decide as Hd.
  - assert (Eu : Z.shiftr u 22 = Z.shiftr v 22 ∧ Z.shiftr u 12 = Z.shiftr v 12).
    { rewrite !Z.shiftr_div_pow2 by lia. change (2 ^ 22) with (2 ^ 12 * 2 ^ 10). rewrite <- !Z.div_div by lia. by rewrite Hd. }
    destruct Eu as [E22 E12]. subst pde. rewrite E22, E12. unfold table in Ht.
    destruct (size_bit _), (present_bit (word m _)); cbn [negb andb] in *; try done. injection Ht as <-.
    unfold m'. rewrite word_same. by destruct (present_bit w).
  - destruct (present_bit pde) eqn:Ep; cbn [negb]; [|done]. destruct (size_bit pde) eqn:Es; [done|].
    unfold m'. rewrite word_other; [done|]. intros E. apply Hd. apply entry_inj in E as [Et Ej]; try done; [|apply ptr_page].
    assert (Z.shiftr v 22 = Z.shiftr u 22); [|by apply same_page].
    apply (proj2 Hap _ _ t); try done. unfold table. fold pde. rewrite Ep, Es. cbn. by rewrite Et.
Qed.

(** An entry of the directory is read by the addresses of its four megabytes. *)
Lemma translate_write_pde v w u : 0 ≤ v < 2 ^ 32 → 0 ≤ u < 2 ^ 32 → size_bit w = true →
  let m' := <[entry_ptr pd (Z.shiftr v 22) := w]> m in
  translate m' pd u =
    if decide (u / 2 ^ 22 = v / 2 ^ 22) then
      if present_bit w then Some (mk_translation (bf_get 0xffc00000 0 w + u mod 2 ^ 22) (user_bit w) (write_bit w)) else None
    else translate m pd u.
Proof.
  intros Hv Hu Hs m'. pose proof (directory_index v Hv) as Iv. pose proof (directory_index u Hu) as Iu. pose proof (table_index u) as Ju.
  rewrite <- !Z.shiftr_div_pow2 by lia. unfold translate. case_decide as Hd.
  - rewrite Hd. unfold m'. rewrite word_same, Hs. by destruct (present_bit w).
  - unfold m'. rewrite word_other by (intros E; apply entry_inj in E as [_ ?]; congruence).
    destruct (present_bit (word m _)) eqn:Ep; cbn [negb]; [|done]. destruct (size_bit (word m _)) eqn:Es; [done|].
    rewrite word_other; [done|]. intros E. apply entry_inj in E as [E _]; try done; [|apply ptr_page].
    apply (proj1 Hap (Z.shiftr u 22) pd); [done| |done]. unfold table. rewrite Ep, Es. cbn. by rewrite <- E.
Qed.
End writes.

(** ** The steps of the decoder *)

(** The address space an ASID stands for. *)
Definition vspace_of (k : ks) (asid : Z) : option Z :=
  p ← x86KSASIDTable (x86 k) !! Z.to_nat (Z.shiftr asid asidLowBits);
  let w := word (mem_words k) (entry_ptr p (Z.land asid (MASK asidLowBits))) in
  if negb (p =? 0) && (asid_map_get_type w =? asid_map_asid_map_vspace) then Some (bf_get 0xfffff000 0 w) else None.

Lemma wp_findVSpaceForASID asid (Q : option Z → ks → Prop) k : is_Some (x86KSASIDTable (x86 k) !! Z.to_nat (Z.shiftr asid asidLowBits)) →
  match vspace_of k asid with
  | Some r => Q (Some r) k
  | None => Q None (k <| current_lookup_fault := lookup_fault_invalid_root |>)
  end → wp (findVSpaceForASID asid) Q k.
Proof.
  intros [p Hp] HQ. unfold vspace_of in HQ. rewrite Hp in HQ. cbn in HQ.
  unfold wp, findVSpaceForASID, findMapForASID, asid_table_at, mbind, M_bind. rewrite Hp.
  destruct (p =? 0) eqn:Ez; [exact HQ|]. cbn [negb andb] in HQ. unfold word_at, gets.
  change (default 0 (mem_words k !! entry_ptr p (Z.land asid (MASK asidLowBits)))) with
    (word (mem_words k) (entry_ptr p (Z.land asid (MASK asidLowBits)))).
  destruct (asid_map_get_type _ =? asid_map_asid_map_vspace) eqn:Et; cbn [negb]; [|exact HQ].
  unfold lift. rewrite vspace_root_done by done. exact HQ.
Qed.

Lemma wp_lookupPTSlot pd v (Q : option Z → ks → Prop) k :
  match table (mem_words k) pd (Z.shiftr v 22) with
  | Some t => Q (Some (entry_ptr t (Z.land (Z.shiftr v 12) (MASK 10)))) k
  | None => Q None (k <| current_lookup_fault := lookup_fault_missing_capability 22 |>)
  end → wp (lookupPTSlot pd v) Q k.
Proof.
  intros HQ. unfold table in HQ. unfold wp, lookupPTSlot, lookupPDSlot, word_at, gets, mbind, M_bind, lift.
  change (default 0 (mem_words k !! entry_ptr pd (Z.shiftr v 22))) with (word (mem_words k) (entry_ptr pd (Z.shiftr v 22))).
  rewrite small_present_bits. destruct (negb (size_bit _) && _) eqn:E; cbn [negb]; [|exact HQ].
  rewrite small_base_done by done. exact HQ.
Qed.

(** Word [i] of a message. *)
Definition argument (k : ks) (c : tcb_t) (buffer i : Z) : Z :=
  if i <? n_msgRegisters then reg (registers c) (msgRegister i) else word (mem_words k) (buf_index buffer (i + 1)).

Lemma wp_getSyscallArg c i buffer (Q : Z → ks → Prop) k : tcbs k !! ksCurThread k = Some c → buffer ≠ 0 →
  Q (argument k c buffer i) k → wp (getSyscallArg i buffer) Q k.
Proof.
  intros Hc Hb HQ. unfold getSyscallArg, argument in *. destruct (i <? n_msgRegisters).
  - apply wp_bind, wp_gets. unfold getRegister. apply wp_bind, (wp_tcb_at _ c); [done|]. by apply wp_ret.
  - apply wp_bind, wp_assert; [by apply negb_true_iff, Z.eqb_neq|]. by apply wp_gets.
Qed.

(** The running thread restarts: it is runnable, so nothing is rescheduled. *)
Lemma wp_restart_thread t c (Q : unit → ks → Prop) k : t = ksCurThread k → tcbs k !! t = Some c →
  Q tt (k <| tcbs ::= <[t := c <| tsType := ThreadState_Restart |>]> |>) → wp (setThreadState t ThreadState_Restart) Q k.
Proof.
  intros -> Hc HQ. unfold setThreadState. apply wp_bind, (wp_tcb_set _ _ c); [done|].
  unfold scheduleTCB. apply wp_bind, wp_gets, wp_bind, wp_gets. case_match; [|by apply wp_ret].
  apply wp_bind. unfold isRunnable. apply wp_bind. eapply wp_tcb_at; [apply lookup_insert_eq|]. by apply wp_ret, wp_ret.
Qed.
Lemma wp_restart_current c (Q : unit → ks → Prop) k : tcbs k !! ksCurThread k = Some c →
  Q tt (k <| tcbs ::= <[ksCurThread k := c <| tsType := ThreadState_Restart |>]> |>) → wp restart_current Q k.
Proof. intros Hc HQ. unfold restart_current. by apply wp_bind, wp_gets, (wp_restart_thread _ c). Qed.

(** ** Mapping a frame *)

Definition page_bits (size : Z) : Z := if size =? X86_SmallPage then 12 else 22.

(** The entry for a page of that size, when there is a table for it. *)
Definition map_slot (m : gmap Z Z) (pd size v : Z) : option Z :=
  if size =? X86_SmallPage then t ← table m pd (Z.shiftr v 22); Some (entry_ptr t (Z.land (Z.shiftr v 12) (MASK 10)))
  else Some (entry_ptr pd (Z.shiftr v 22)).
(** It maps nothing yet. *)
Definition room (m : gmap Z Z) (pd size v : Z) : bool :=
  match map_slot m pd size v with Some e => negb (present_bit (word m e)) | None => false end.

(** The address space a frame may be mapped in, if it may. *)
Definition mappable (k : ks) (root : cap_t) (size v : Z) : option (Z * Z) :=
  match root with
  | cap_page_directory_cap true asid _ pd =>
    if bool_decide (vspace_of k asid = Some pd) && ((v + 2 ^ page_bits size) mod 2 ^ 32 <=? PPTR_USER_TOP)
       && (v mod 2 ^ page_bits size =? 0) && room (mem_words k) pd size v
    then Some (asid, pd) else None
  | _ => None
  end.

Definition root_fine (c : cap_t) : Prop :=
  match c with cap_page_directory_cap _ asid _ pd => 0 ≤ asid < 4096 ∧ page_at pd | _ => True end.

Lemma mask_rights_ok r w : rights_ok (maskVMRights r w).
Proof. unfold maskVMRights, rights_ok. repeat case_match; auto. Qed.

Lemma frame_asid_same asid : 0 ≤ asid < 4096 → frame_asid asid = asid.
Proof.
  intros H. unfold frame_asid, asidLowBits, asidHighBits. change (MASK 2) with (Z.ones 2). change (MASK 10) with (Z.ones 10).
  rewrite !Z.land_ones, Z.shiftl_mul_pow2, Z.shiftr_div_pow2 by lia. rewrite (Z.mod_small (asid / 2 ^ 10)).
  - pose proof (Z.div_mod asid (2 ^ 10) ltac:(lia)). lia.
  - split; [apply Z.div_pos; lia|]. apply Z.div_lt_upper_bound; lia.
Qed.

Lemma address_field b v : 12 ≤ b ≤ 32 → 0 ≤ v < 2 ^ 32 → v mod 2 ^ b = 0 → Z.land v 0xfffff000 = v.
Proof.
  intros Hb Hv Hm. change 0xfffff000 with (field 12 (32 - 12)). rewrite land_high by (done || lia).
  assert (v mod 2 ^ 12 = 0); [|pose proof (Z.div_mod v (2 ^ 12) ltac:(lia)); lia].
  apply Z.mod_divide; [lia|]. apply Z.divide_trans with (2 ^ b); [|apply Z.mod_divide; [pose proof (Z.pow_pos_nonneg 2 b); lia|done]].
  exists (2 ^ (b - 12)). rewrite <- Z.pow_add_r by lia. f_equal. lia.
Qed.

Lemma paddr_aligned b base : 0 ≤ b ≤ 22 → (2 ^ b | base) → is_word (addrFromPPtr base) ∧ (2 ^ b | addrFromPPtr base).
Proof.
  intros Hb Hd. unfold addrFromPPtr. split; [apply wrap32_range|]. unfold wrap32. change word_mod with (2 ^ 32).
  assert (Hp : 0 < 2 ^ b) by (apply Z.pow_pos_nonneg; lia).
  apply Z.mod_divide; [lia|]. rewrite Z.mod_mod_divide by (exists (2 ^ (32 - b)); rewrite <- Z.pow_add_r by lia; f_equal; lia).
  apply Z.mod_divide; [lia|]. apply Z.divide_sub_r; [done|]. apply Z.divide_trans with (2 ^ 22).
  - exists (2 ^ (22 - b)). rewrite <- Z.pow_add_r by lia. f_equal. lia.
  - by exists 896.
Qed.

Lemma mask_aligned b v : 0 ≤ b < 32 → (Z.land v (MASK b) =? 0) = (v mod 2 ^ b =? 0).
Proof. intros H. assert (E : MASK b = Z.ones b); [|by rewrite E, Z.land_ones by lia].
  unfold MASK. rewrite BIT_pow2, Z.ones_equiv by lia. apply wrap32_small. unfold is_word. change word_mod with (2 ^ 32).
  pose proof (Z.pow_pos_nonneg 2 b). pose proof (Z.pow_lt_mono_r 2 b 32). lia.
Qed.

(** The bits of the directory apply to the pages of its tables. *)
Definition through (bit : Z → bool) (m : gmap Z Z) (pd size v : Z) : bool :=
  negb (size =? X86_SmallPage) || bit (word m (entry_ptr pd (Z.shiftr v 22))).
Definition base_mask (size : Z) : Z := if size =? X86_SmallPage then 0xfffff000 else 0xffc00000.

(** The entry that is found for a page decides about this page and no other. *)
Lemma translate_write m pd size v e w u : page_at pd → apart m pd → 0 ≤ v < 2 ^ 32 → 0 ≤ u < 2 ^ 32 →
  map_slot m pd size v = Some e → (size ≠ X86_SmallPage → size_bit w = true) →
  translate (<[e := w]> m) pd u =
    if decide (u / 2 ^ page_bits size = v / 2 ^ page_bits size) then
      if present_bit w then
        Some (mk_translation (bf_get (base_mask size) 0 w + u mod 2 ^ page_bits size)
          (through user_bit m pd size v && user_bit w) (through write_bit m pd size v && write_bit w))
      else None
    else translate m pd u.
Proof.
  intros Hpd Hap Hv Hu He Hs. unfold map_slot, page_bits, base_mask, through in *. destruct (Z.eqb_spec size X86_SmallPage) as [->|Hz]; cbn [negb orb andb].
  - destruct (table m pd _) as [t|] eqn:Et; [|done]. injection He as <-. by apply translate_write_pte.
  - injection He as <-. apply translate_write_pde; auto.
Qed.

(** No page table appears, so they stay apart. *)
Lemma apart_write m pd size v e w : page_at pd → apart m pd → 0 ≤ v < 2 ^ 32 →
  map_slot m pd size v = Some e → (size ≠ X86_SmallPage → size_bit w = true) →
  apart (<[e := w]> m) pd ∧ ∀ i, 0 ≤ i < 1024 → word (<[e := w]> m) (entry_ptr pd i) = word m (entry_ptr pd i) ∨ table (<[e := w]> m) pd i = None.
Proof.
  intros Hpd Hap Hv He Hs. pose proof (directory_index v Hv) as Iv.
  assert (Hdir : ∀ i, 0 ≤ i < 1024 → word (<[e := w]> m) (entry_ptr pd i) = word m (entry_ptr pd i) ∨ table (<[e := w]> m) pd i = None).
  { intros i Hi. unfold map_slot in He. destruct (Z.eqb_spec size X86_SmallPage) as [->|Hz].
    - destruct (table m pd _) as [t|] eqn:Et; [|done]. injection He as <-. left. apply word_other. intros E.
      apply entry_inj in E as [Etp _]; try done; [|by eapply table_page|apply table_index]. by apply (proj1 Hap (Z.shiftr v 22) t).
    - injection He as <-. destruct (Z.eq_dec i (Z.shiftr v 22)) as [->|Hne].
      + right. unfold table. by rewrite word_same, Hs.
      + left. apply word_other. intros E. by apply entry_inj in E as [_ ?]. }
  split; [|done].
  assert (Hsub : ∀ i t, 0 ≤ i < 1024 → table (<[e := w]> m) pd i = Some t → table m pd i = Some t).
  { intros i t Hi Ht. destruct (Hdir i Hi) as [E|E]; [|congruence]. unfold table in *. by rewrite E in Ht. }
  split; [intros i t Hi Ht; apply (proj1 Hap i t); auto|]. intros i j t Hi Hj Hti Htj. apply (proj2 Hap i j t); auto.
Qed.

(** The entry is found where it was. *)
Lemma map_slot_write m pd size v e w : page_at pd → apart m pd → 0 ≤ v < 2 ^ 32 →
  map_slot m pd size v = Some e → map_slot (<[e := w]> m) pd size v = Some e.
Proof.
  intros Hpd Hap Hv. unfold map_slot. case_match; [|done]. destruct (table m pd _) as [t|] eqn:Et; [|done]. cbn. intros [= He].
  assert (Hw : word (<[e := w]> m) (entry_ptr pd (Z.shiftr v 22)) = word m (entry_ptr pd (Z.shiftr v 22))).
  { apply word_other. rewrite <- He. intros E. pose proof (directory_index v Hv) as Iv.
    apply entry_inj in E as [Etp _]; try done; [|by eapply table_page|apply table_index]. by apply (proj1 Hap (Z.shiftr v 22) t). }
  unfold table in *. rewrite Hw. destruct (_ && _); [|done]. injection Et as ->. by rewrite <- He.
Qed.

(** A page without an entry is not there. *)
Lemma room_absent m pd size v u : page_at pd → apart m pd → room m pd size v = true → 0 ≤ u < 2 ^ 32 →
  u / 2 ^ page_bits size = v / 2 ^ page_bits size → translate m pd u = None.
Proof.
  intros Hpd Hap Hr Hu Hp. unfold room, map_slot, page_bits in *. destruct (Z.eqb_spec size X86_SmallPage) as [->|Hz].
  - assert (Z.shiftr u 22 = Z.shiftr v 22 ∧ Z.shiftr u 12 = Z.shiftr v 12) as [E22 E12].
    { rewrite !Z.shiftr_div_pow2 by lia. change (2 ^ 22) with (2 ^ 12 * 2 ^ 10). rewrite <- !Z.div_div by lia. by rewrite Hp. }
    unfold translate, table in *. rewrite E22, E12. destruct (present_bit (word m (entry_ptr pd _))), (size_bit _); cbn in *; try done.
    by rewrite Hr.
  - rewrite <- !Z.shiftr_div_pow2 in Hp by lia. unfold translate. rewrite Hp. by rewrite Hr.
Qed.

(** An error is answered, nothing else; [rejected] says nothing was touched. *)
Lemma wp_rejects (m : K exception_t) k : (∃ k', m k = (Done EXCEPTION_SYSCALL_ERROR, k')) → wp m (λ st _, st = EXCEPTION_SYSCALL_ERROR) k.
Proof. intros [k' E]. unfold wp. by rewrite E. Qed.

(** The entry [w] maps [paddr] with rights [r]. *)
Definition entry_maps (size paddr r w : Z) : Prop :=
  maps_page (base_mask size) paddr r w ∧
  (size ≠ X86_SmallPage → size_bit w = true ∧ bf_get 0xffe00000 0 w = paddr).
Lemma entry_size size paddr r w : entry_maps size paddr r w → size ≠ X86_SmallPage → size_bit w = true.
Proof. intros [_ H] Hs. by apply H. Qed.

(** The state after a frame has been mapped with the entry [w] in [e]. *)
Definition mapped_state (k : ks) (c : tcb_t) (slot : Z) (s : cte_t) (cap : cap_t) (e w pd asid : Z) : ks :=
  k <| tcbs ::= <[ksCurThread k := c <| tsType := ThreadState_Restart |>]> |>
    <| ctes ::= <[slot := s <| cte_cap := cap |>]> |>
    <| mem_words ::= <[e := w]> |>
    <| arch_calls ::= cons (call_invalidatePageStructureCacheASID (addrFromPPtr pd) asid) |>.

(** What mapping does: an entry for the frame, or an error. *)
Definition maps_or_rejects (k : ks) (c : tcb_t) (slot : Z) (s : cte_t) (cap : cap_t) (size pd v paddr r asid : Z) (ok : bool)
    (st : exception_t) (k' : ks) : Prop :=
  if ok then ∃ e w, map_slot (mem_words k) pd size v = Some e ∧ entry_maps size paddr r w ∧
    st = EXCEPTION_NONE ∧ k' = mapped_state k c slot s cap e w pd asid
  else st = EXCEPTION_SYSCALL_ERROR.

Lemma large_entry_maps paddr attr r : is_word paddr → (2 ^ 22 | paddr) → rights_ok r →
  ∃ w, makeUserPDELargePage paddr attr r = Done w ∧ entry_maps X86_LargePage paddr r w.
Proof.
  intros Hw Hd Hr. destruct (makeUserPDELargePage_maps paddr attr r) as (w & Ew & Hs & Hm); [done| |done|].
  { apply Z.divide_trans with (2 ^ 22); [by exists 2|done]. }
  destruct Hm as (Hww & Ha & Hrest). exists w. split; [done|]. split; [|done]. split_and!; try done; [|apply Hrest..].
  change (base_mask X86_LargePage) with (Z.land 0xffe00000 0xffc00000).
  unfold bf_get in *. rewrite Z.shiftr_0_r in *. rewrite Z.land_assoc, Ha. change 0xffc00000 with (field 22 (32 - 22)).
  rewrite land_high by (done || lia). destruct Hd as [q ->]. rewrite Z.div_mul by lia. lia.
Qed.

Lemma wp_atomic (m : K exception_t) (Q : exception_t → ks → Prop) k : atomic m → wp m Q k →
  wp m (λ st k', Q st k' ∧ (st = EXCEPTION_SYSCALL_ERROR → unchanged k k')) k.
Proof. intros Ha. specialize (Ha k). unfold wp, wlp in *. by destruct (m k) as [[a|] k']. Qed.

(** The last steps: the capability, the entry and the flush. *)
Lemma wp_map_act c slot s size asid vaddr mt dev r0 ptr e w pd (Q : exception_t → ks → Prop) k :
  let cap := cap_frame_cap size asid vaddr mt dev r0 ptr in
  tcbs k !! ksCurThread k = Some c → ctes k !! slot = Some s →
  Q EXCEPTION_NONE (mapped_state k c slot s cap e w pd asid) →
  wp (restart_current;; performX86PageInvocationMapPTE cap slot e w pd) Q k ∧
  wp (restart_current;; performX86PageInvocationMapPDE cap slot e w pd) Q k.
Proof.
  intros cap Hc Hs HQ. unfold performX86PageInvocationMapPTE, performX86PageInvocationMapPDE.
  split; apply wp_bind, (wp_restart_current c); try done; apply wp_bind, (wp_cte_set _ _ s); try done;
    apply wp_bind, wp_modify, wp_bind, wp_modify, wp_ret; exact HQ.
Qed.

Lemma wp_map_frame c slot s size asid vaddr mt dev r0 ptr pd v paddr r attr k :
  let cap := cap_frame_cap size asid vaddr mt dev r0 ptr in
  tcbs k !! ksCurThread k = Some c → ctes k !! slot = Some s → size = X86_SmallPage ∨ size = X86_LargePage →
  is_word paddr → (2 ^ page_bits size | paddr) → rights_ok r →
  wp (map_frame slot size cap pd v paddr r attr)
    (maps_or_rejects k c slot s cap size pd v paddr r asid (room (mem_words k) pd size v)) k.
Proof.
  intros cap Hc Hs Hz Hw Hd Hr. unfold map_frame, maps_or_rejects, room, map_slot. destruct Hz as [-> | ->]; cbn [Z.eqb X86_SmallPage X86_LargePage Pos.eqb].
  - apply wp_bind, wp_lookupPTSlot. destruct (table _ _ _) as [t|]; cbn [mbind option_bind]; [|by apply wp_rejects; eexists].
    set (e := entry_ptr t _). apply wp_bind, wp_gets. change (default 0 (mem_words k !! e)) with (word (mem_words k) e).
    unfold pte_get_present. rewrite (get_bit 0) by lia. unfold present_bit. destruct (Z.testbit (word _ e) 0); cbn [negb]; [by apply wp_rejects; eexists|].
    destruct (makeUserPTE_maps paddr attr r) as (w & Ew & Hm); [done|done|done|].
    apply wp_bind, (wp_lifted _ w); [done|]. apply (wp_map_act c _ s); [done|done|]. exists e, w. split_and!; try done; by split.
  - apply wp_bind, wp_gets. set (e := lookupPDSlot pd v). change (default 0 (mem_words k !! e)) with (word (mem_words k) e).
    apply wp_bind. eapply wp_lifted; [apply small_present_bits|]. unfold e, lookupPDSlot.
    destruct (present_bit (word (mem_words k) (entry_ptr pd (Z.shiftr v 22)))) eqn:Ep; rewrite ?andb_true_r, ?andb_false_r; cbn [negb].
    + destruct (size_bit _) eqn:Es; cbn [negb]; [|by apply wp_rejects; eexists]. apply wp_bind. eapply wp_lifted; [apply large_present_bits|].
      rewrite Es, Ep. by apply wp_rejects; eexists.
    + apply wp_bind. eapply wp_lifted; [apply large_present_bits|]. rewrite Ep, andb_false_r.
      destruct (large_entry_maps paddr attr r) as (w & Ew & Hm); [done|done|done|].
      apply wp_bind, (wp_lifted _ w); [done|]. apply (wp_map_act c _ s); [done|done|]. by exists (entry_ptr pd (Z.shiftr v 22)), w.
Qed.

Lemma native_root cap : isValidNativeRoot cap = true → ∃ asid va pd, cap = cap_page_directory_cap true asid va pd.
Proof. destruct cap as [| | | | | | | | | | | | |[] asid va pd| | | | |]; try done. intros _. by exists asid, va, pd. Qed.
Lemma not_mappable k cap size v : isValidNativeRoot cap = false → mappable k cap size v = None.
Proof. destruct cap as [| | | | | | | | | | | | |[] asid va pd| | | | |]; done. Qed.

(** *** Unmapping *)

(** The ASID pool is neither the directory nor one of its tables. *)
Definition pool_apart (k : ks) (asid pd : Z) : Prop := ∀ p, x86KSASIDTable (x86 k) !! Z.to_nat (Z.shiftr asid asidLowBits) = Some p →
  page_at p ∧ p ≠ pd ∧ ∀ i t, 0 ≤ i < 1024 → table (mem_words k) pd i = Some t → t ≠ p.

(** The entry of a page that is not there. *)
Definition invalid_entry (size : Z) : Z := if size =? X86_SmallPage then 0 else 128.

Lemma asid_index asid : 0 ≤ Z.land asid (MASK asidLowBits) < 1024.
Proof. unfold asidLowBits. change (MASK 10) with (Z.ones 10). rewrite Z.land_ones by lia. apply Z.mod_pos_bound. lia. Qed.

(** An entry lies in the directory or in one of its tables. *)
Lemma map_slot_in m pd size v e : page_at pd → 0 ≤ v < 2 ^ 32 → map_slot m pd size v = Some e →
  ∃ p i, page_at p ∧ 0 ≤ i < 1024 ∧ e = entry_ptr p i ∧ (p = pd ∨ table m pd (Z.shiftr v 22) = Some p).
Proof.
  intros Hpd Hv. unfold map_slot. case_match.
  - destruct (table m pd _) as [t|] eqn:Et; [|done]. intros [= <-]. exists t. eexists. split_and!; [by eapply table_page|..|done|by right]; apply table_index.
  - intros [= <-]. exists pd. eexists. split_and!; [done|..|done|by left]; by apply directory_index.
Qed.

(** Writing it leaves the ASID pools alone. *)
Lemma vspace_of_write k k' asid pd size v e w : page_at pd → 0 ≤ v < 2 ^ 32 → pool_apart k asid pd →
  map_slot (mem_words k) pd size v = Some e → x86 k' = x86 k → mem_words k' = <[e := w]> (mem_words k) →
  vspace_of k' asid = vspace_of k asid.
Proof.
  intros Hpd Hv Hpool He Hx Hm. unfold vspace_of. rewrite Hx, Hm.
  destruct (x86KSASIDTable (x86 k) !! _) as [p|] eqn:Ep; [|done]. destruct (Hpool p Ep) as (Pp & Hne & Ht). cbn.
  destruct (map_slot_in _ _ _ _ _ Hpd Hv He) as (q & i & Pq & Hi & -> & Hq). rewrite word_other; [done|].
  intros E. apply entry_inj in E as [-> _]; try done; [|apply asid_index]. destruct Hq as [->|Hq]; [done|].
  by apply (Ht (Z.shiftr v 22) p); [apply directory_index|..].
Qed.

Lemma wp_current_vspace x r (Q : bool → ks → Prop) k : ctes k !! TCB_PTR_CTE_PTR (ksCurThread k) tcbVTable = Some r →
  (∀ b, Q b k) → wp (current_vspace x) Q k.
Proof.
  intros Hr HQ. unfold current_vspace. apply wp_bind, wp_gets, wp_bind, (wp_cte_at _ r); [done|].
  destruct (isValidNativeRoot (cte_cap r)) eqn:E; [|by apply wp_ret]. apply native_root in E as (a & va & p & ->).
  apply wp_bind. eapply wp_lifted; [reflexivity|]. by apply wp_ret.
Qed.

(** The entry of the frame goes, and nothing else of the memory. *)
Lemma wp_unmapPage size asid v base pd e r w vr k : is_Some (x86KSASIDTable (x86 k) !! Z.to_nat (Z.shiftr asid asidLowBits)) →
  size = X86_SmallPage ∨ size = X86_LargePage → vspace_of k asid = Some pd → map_slot (mem_words k) pd size v = Some e →
  word (mem_words k) e = w → entry_maps size (addrFromPPtr base) r w → ctes k !! TCB_PTR_CTE_PTR (ksCurThread k) tcbVTable = Some vr →
  wp (unmapPage size asid v base)
    (λ _ k', ∃ calls, k' = k <| mem_words ::= <[e := invalid_entry size]> |> <| arch_calls := calls |>) k.
Proof.
  intros Ha Hz Hvs He Hw Hm Hvr. unfold unmapPage. apply wp_bind, wp_findVSpaceForASID; [done|]. rewrite Hvs.
  set (k1 := k <| mem_words ::= <[e := invalid_entry size]> |>). apply wp_bind.
  apply (wp_mono _ (λ b k', b = true ∧ k' = k1)).
  - destruct Hm as [(_ & Hbase & Hp & _) Hl]. destruct Hz as [-> | ->]; cbn [Z.eqb X86_SmallPage X86_LargePage Pos.eqb].
    + unfold unmap_small. apply wp_bind, wp_lookupPTSlot. unfold map_slot in He. cbn [Z.eqb X86_SmallPage] in He.
      destruct (table _ _ _) as [t|]; [|done]. injection He as He. rewrite He. apply wp_bind, wp_gets.
      change (default 0 (mem_words k !! e)) with (word (mem_words k) e). rewrite Hw. unfold pte_get_present, pte_get_page_base_address.
      rewrite (get_bit 0) by lia. unfold present_bit in Hp. change (base_mask X86_SmallPage) with 0xfffff000 in Hbase. rewrite Hp, Hbase, Z.eqb_refl. cbn [andb negb].
      apply wp_bind. eapply wp_lifted; [apply invalid_entries|]. apply wp_bind, wp_modify. by apply wp_ret.
    + destruct Hl as [Hs Hbl]; [done|]. unfold unmap_large, lookupPDSlot. injection He as He. rewrite He. apply wp_bind, wp_gets.
      change (default 0 (mem_words k !! e)) with (word (mem_words k) e). rewrite Hw.
      apply wp_bind. eapply wp_lifted; [apply large_present_bits|]. rewrite Hs, Hp. cbn [andb].
      apply wp_bind. eapply wp_lifted; [unfold pde_pde_large_get_page_base_address, tagged; rewrite page_size_bit, Hs; reflexivity|].
      rewrite Hbl, Z.eqb_refl. cbn [negb]. apply wp_bind. eapply wp_lifted; [apply invalid_entries|]. apply wp_bind, wp_modify. by apply wp_ret.
  - intros b k' [-> ->]. cbn [when]. apply wp_bind, (wp_current_vspace _ vr); [done|]. intros [].
    + apply wp_modify. by eexists.
    + apply wp_ret. exists (arch_calls k). by destruct k.
Qed.

(** The test of the end of a frame lets the last page of the address space pass. *)
Lemma mappable_bounds k root size v asid pd : size = X86_SmallPage ∨ size = X86_LargePage → 0 ≤ v < 2 ^ 32 →
  mappable k root size v = Some (asid, pd) → v + 2 ^ page_bits size ≤ PPTR_USER_TOP ∨ v = 2 ^ 32 - 2 ^ page_bits size.
Proof.
  intros Hz Hv. unfold mappable. destruct root; try done. destruct capPDIsMapped; [|done].
  destruct (bool_decide _); [|done]. destruct (Z.leb_spec ((v + 2 ^ page_bits size) mod 2 ^ 32) PPTR_USER_TOP) as [Ht|]; [|done].
  destruct (Z.eqb_spec (v mod 2 ^ page_bits size) 0) as [Ha|]; [|done]. intros _.
  assert (Hs : 2 ^ page_bits size = 2 ^ 12 ∨ 2 ^ page_bits size = 2 ^ 22) by (destruct Hz as [-> | ->]; auto).
  pose proof (Z.div_mod v (2 ^ page_bits size) ltac:(lia)) as Hd. unfold PPTR_USER_TOP in *.
  destruct (Z.lt_ge_cases (v + 2 ^ page_bits size) (2 ^ 32)) as [Hl|Hg]; [rewrite Z.mod_small in Ht by lia; by left|right].
  destruct Hs as [Hs|Hs]; rewrite Hs in *; lia.
Qed.

(** *** From the message *)

Section page_map.
Context (k : ks) (c : tcb_t) (slot : Z) (s r : cte_t) (size addr : Z) (dev : bool) (rights base length buffer : Z) (excaps : list Z).
Hypotheses (Hc : tcbs k !! ksCurThread k = Some c) (Hs : ctes k !! slot = Some s) (Hr : ctes k !! excap excaps 0 = Some r)
  (Hz : size = X86_SmallPage ∨ size = X86_LargePage) (Hb : buffer ≠ 0) (Hbase : (2 ^ page_bits size | base))
  (Hv : 0 ≤ argument k c buffer 0 < 2 ^ 32) (Hroot : root_fine (cte_cap r)) (Hasids : List.length (x86KSASIDTable (x86 k)) = 4%nat).

Let v := argument k c buffer 0.
Let mask := argument k c buffer 1.

(** The capability of the frame and what becomes of it. *)
Definition unmapped_frame (addr : Z) : cap_t := cap_frame_cap size asidInvalid addr X86_MappingNone dev rights base.
Definition mapped_frame (asid vaddr : Z) : cap_t := cap_frame_cap size asid vaddr X86_MappingVSpace dev rights base.

(** Where the message asks to map the frame, if that is possible. *)
Definition map_target : option (Z * Z) :=
  if (length <? 3) || (excap excaps 0 =? 0) then None else mappable k (cte_cap r) size v.

Lemma page_bits_done : pageBitsForSize size = Done (page_bits size).
Proof. by destruct Hz as [-> | ->]. Qed.
Lemma page_bits_range : 12 ≤ page_bits size ≤ 22.
Proof. by destruct Hz as [-> | ->]. Qed.

Lemma decode_page_map_spec : wp (decode_page_map length slot (unmapped_frame addr) excaps buffer)
  (λ st k', match map_target with
    | Some (asid, pd) => maps_or_rejects k c slot s (mapped_frame asid v) size pd v (addrFromPPtr base)
        (maskVMRights rights mask) asid true st k'
    | None => st = EXCEPTION_SYSCALL_ERROR
    end) k.
Proof.
  unfold decode_page_map, map_target. destruct (_ || _) eqn:El; [by apply wp_rejects; eexists|].
  unfold unmapped_frame. do 3 (apply wp_bind, (wp_getSyscallArg c); [done..|]). fold v mask.
  apply wp_bind, (wp_cte_at _ r); [done|]. cbn [negb Z.eqb asidInvalid]. apply wp_bind, wp_assert; [done|].
  destruct (isValidNativeRoot (cte_cap r)) eqn:Ev; cbn [negb]; [|rewrite not_mappable by done; by apply wp_rejects; eexists].
  apply native_root in Ev as (asid & va & pd & Er). rewrite Er in *. unfold mappable. destruct Hroot as [Ha Hpd].
  do 2 (apply wp_bind; eapply wp_lifted; [reflexivity|]). unfold or_return, valid_vspace. apply wp_bind, wp_bind, wp_findVSpaceForASID.
  { apply lookup_lt_is_Some_2. rewrite Hasids. by apply asid_high. }
  destruct (vspace_of k asid) as [p|] eqn:Ep; [|by apply wp_rejects; eexists].
  destruct (Z.eqb_spec p pd) as [->|Hne]; cbn [negb]; [|rewrite bool_decide_false by congruence; by apply wp_rejects; eexists].
  rewrite bool_decide_true by done. cbn [andb]. apply wp_ret. apply wp_bind. eapply wp_lifted; [apply page_bits_done|].
  pose proof page_bits_range as Hpb. rewrite BIT_pow2 by lia. change (wrap32 (v + 2 ^ page_bits size)) with ((v + 2 ^ page_bits size) mod 2 ^ 32).
  rewrite Z.leb_antisym. destruct (PPTR_USER_TOP <? _); cbn [andb negb]; [by apply wp_rejects; eexists|].
  apply wp_bind. eapply wp_lifted; [unfold checkVPAlignment; rewrite page_bits_done; reflexivity|]. rewrite mask_aligned by lia.
  destruct (Z.eqb_spec (v mod 2 ^ page_bits size) 0) as [Hal|]; cbn [andb negb]; [|by apply wp_rejects; eexists].
  apply wp_bind. eapply wp_lifted; [reflexivity|]. rewrite frame_asid_same, (address_field (page_bits size)) by (done || lia).
  destruct (paddr_aligned (page_bits size) base) as [Hw Hd]; [lia|done|].
  eapply wp_mono; [apply (wp_map_frame c _ s); try done; apply mask_rights_ok|]. intros st k' H. by destruct (room _ _ _ _).
Qed.

Lemma map_target_page asid pd : map_target = Some (asid, pd) → page_at pd ∧ 0 ≤ asid < 4096 ∧
  vspace_of k asid = Some pd ∧ room (mem_words k) pd size v = true.
Proof.
  unfold map_target, mappable. destruct (_ || _); [done|]. unfold root_fine in Hroot.
  destruct (cte_cap r); try done. destruct capPDIsMapped; [|done].
  destruct (bool_decide _) eqn:E; [|done]. apply bool_decide_eq_true in E. destruct (_ <=? _); [|done]. destruct (_ =? 0); [|done]. cbn [andb].
  destruct (room _ _ _ _) eqn:Er; [|done]. intros [= <- <-]. by destruct Hroot.
Qed.

(** C8: an X86PageMap message with a frame that is not mapped yet.  It is obeyed
    exactly when the message is long enough and carries the capability of a page
    directory whose ASID stands for it, the address is aligned to the frame and below
    the kernel, and the entry there exists and maps nothing; anything else is
    answered with an error and changes nothing.  When it is obeyed, one word of the
    page tables and the capability of the frame (which now names the ASID and the
    address) are all of the memory and the slots that changes, and the hardware walk
    finds: at every address of the page the frame, for user code only if capability
    and message let it read, for writing only if they let it write (and the
    directory does), and at every other address what it found before. *)
Theorem page_map_correct :
  wp (decodeX86FrameInvocation X86PageMap length slot (unmapped_frame addr) excaps buffer)
    (λ st k', match map_target with
      | Some (asid, pd) =>
        st = EXCEPTION_NONE ∧ (∃ e w, k' = mapped_state k c slot s (mapped_frame asid v) e w pd asid) ∧
        (apart (mem_words k) pd → apart (mem_words k') pd ∧ ∀ u, 0 ≤ u < 2 ^ 32 →
          translate (mem_words k') pd u =
            if decide (u / 2 ^ page_bits size = v / 2 ^ page_bits size) then
              Some (mk_translation (addrFromPPtr base + u mod 2 ^ page_bits size)
                (through user_bit (mem_words k) pd size v && negb (maskVMRights rights mask =? VMKernelOnly))
                (through write_bit (mem_words k) pd size v && negb (maskVMRights rights mask =? VMReadOnly)))
            else translate (mem_words k) pd u)
      | None => st = EXCEPTION_SYSCALL_ERROR ∧ unchanged k k'
      end) k.
Proof.
  eapply wp_mono; [apply wp_atomic; [apply decodeFrame_atomic|exact decode_page_map_spec]|].
  intros st k' [H Hat]. destruct map_target as [[asid pd]|] eqn:Em; [|by auto].
  destruct H as (e & w & He & Hm & -> & ->). split_and!; [done|by exists e, w|]. intros Hap.
  cbn [mem_words mapped_state]. destruct (map_target_page _ _ Em) as [Hpd _]. change (mem_words (mapped_state _ _ _ _ _ e w _ _)) with (<[e := w]> (mem_words k)).
  split; [by eapply apart_write; [..|exact He|by eapply entry_size]|].
  intros u Hu. rewrite (translate_write _ _ size v e) by (done || by eapply entry_size).
  case_decide; [|done]. destruct Hm as [(_ & -> & -> & -> & ->) _]. done.
Qed.

Lemma asid_pool_there asid : 0 ≤ asid < 4096 → is_Some (x86KSASIDTable (x86 k) !! Z.to_nat (Z.shiftr asid asidLowBits)).
Proof. intros H. apply lookup_lt_is_Some_2. rewrite Hasids. by apply asid_high. Qed.

(** C9: unmapping undoes mapping.  A frame is mapped with an X86PageMap message and
    then unmapped with X86PageUnmap: the capability of the frame is unmapped again,
    the hardware walk finds at every address what it found at first, and the one
    word of memory that differs is the entry, which maps nothing. *)
Theorem page_unmap_restores asid pd length' excaps' buffer' vr :
  map_target = Some (asid, pd) → apart (mem_words k) pd → pool_apart k asid pd → asid ≠ asidInvalid →
  ctes k !! TCB_PTR_CTE_PTR (ksCurThread k) tcbVTable = Some vr →
  wp (_ ← decodeX86FrameInvocation X86PageMap length slot (unmapped_frame addr) excaps buffer;
      decodeX86FrameInvocation X86PageUnmap length' slot (mapped_frame asid v) excaps' buffer')
    (λ st k', st = EXCEPTION_NONE ∧ ctes k' = <[slot := s <| cte_cap := unmapped_frame 0 |>]> (ctes k) ∧
      (∃ e, map_slot (mem_words k) pd size v = Some e ∧ mem_words k' = <[e := invalid_entry size]> (mem_words k)) ∧
      ∀ u, 0 ≤ u < 2 ^ 32 → translate (mem_words k') pd u = translate (mem_words k) pd u) k.
Proof.
  intros Em Hap Hpool Hne Hvr. destruct (map_target_page _ _ Em) as (Hpd & Ha & Hvs & Hroom).
  apply wp_bind. eapply wp_mono; [exact decode_page_map_spec|]. rewrite Em. intros st k1 (e & w & He & Hm & -> & ->).
  change (decodeX86FrameInvocation X86PageUnmap length' slot (mapped_frame asid v) excaps' buffer') with (decode_page_unmap (mapped_frame asid v) slot).
  unfold decode_page_unmap, mapped_frame at 1. destruct (Z.eqb_spec asid asidInvalid); [done|]. cbn [negb Z.eqb X86_MappingVSpace Pos.eqb].
  set (k1 := mapped_state k c slot s (mapped_frame asid v) e w pd asid).
  set (c1 := c <| tsType := ThreadState_Restart |>).
  assert (Hc1 : tcbs k1 !! ksCurThread k1 = Some c1) by apply lookup_insert_eq.
  apply wp_bind, (wp_restart_current c1); [done|]. set (k2 := k1 <| tcbs ::= _ |>).
  assert (Hm2 : mem_words k2 = <[e := w]> (mem_words k)) by done.
  assert (Hslot : map_slot (mem_words k2) pd size v = Some e).
  { rewrite Hm2. by apply map_slot_write. }
  assert (Hvr2 : is_Some (ctes k2 !! TCB_PTR_CTE_PTR (ksCurThread k2) tcbVTable)) by (apply lookup_insert_is_Some'; by right).
  destruct Hvr2 as [vr2 Hvr2]. unfold performX86PageInvocationUnmap, mapped_frame at 1. apply wp_bind.
  eapply wp_mono; [apply (wp_unmapPage size asid v base pd e (maskVMRights rights mask) w vr2 k2); try done|].
  - by apply asid_pool_there.
  - rewrite <- Hvs. by apply (vspace_of_write k k2 asid pd size v e w).
  - rewrite Hm2. apply word_same.
  - intros [] k3 [calls ->]. set (s1 := s <| cte_cap := mapped_frame asid v |>).
    apply wp_bind, (wp_cte_at _ s1); [apply lookup_insert_eq|]. apply wp_bind. eapply wp_lifted; [reflexivity|].
    apply wp_bind, (wp_cte_set _ _ s1); [apply lookup_insert_eq|]. apply wp_ret. split_and!; [done|apply insert_insert_eq| |].
    + exists e. split; [done|]. apply insert_insert_eq.
    + intros u Hu. change (translate (<[e := invalid_entry size]> (<[e := w]> (mem_words k))) pd u = translate (mem_words k) pd u).
      rewrite insert_insert_eq, (translate_write _ _ size v e); try done; [|by unfold invalid_entry; destruct (Z.eqb_spec size X86_SmallPage)].
      case_decide; [|done]. rewrite (room_absent _ _ size v u) by done. by destruct Hz as [-> | ->].
Qed.

(** C27: X86PageMap succeeds at addresses whose page ends below the kernel, and at
    one other: the last page of the address space, whose end is zero once it has
    wrapped around, which the test of the end lets pass. *)
Theorem page_map_bounds k' :
  decodeX86FrameInvocation X86PageMap length slot (unmapped_frame addr) excaps buffer k = (Done EXCEPTION_NONE, k') →
  v + 2 ^ page_bits size ≤ PPTR_USER_TOP ∨ v = 2 ^ 32 - 2 ^ page_bits size.
Proof.
  intros E. pose proof decode_page_map_spec as H. unfold wp in H.
  change (decode_page_map length slot (unmapped_frame addr) excaps buffer k = (Done EXCEPTION_NONE, k')) in E. rewrite E in H.
  destruct map_target as [[asid pd]|] eqn:Em; [|done]. unfold map_target in Em. destruct (_ || _); [done|]. by eapply mappable_bounds.
Qed.
End page_map.

(** *** A page directory with one page table *)

Definition demo_pd : Z := 0xe0100000.
Definition demo_pt : Z := 0xe0101000.
Definition demo_pool : Z := 0xe0102000.
Definition demo_root : cap_t := cap_page_directory_cap true 1 0 demo_pd.
(** ASID 1 stands for the directory; the first four megabytes have a table. *)
Definition demo_words : gmap Z Z := {[ 0xe0102004 := 0xe0100001; demo_pd := 0x101007 ]}.
Definition demo_space : ks :=
  demo_ks <| tcbs ::= <[16 := demo_tcb ThreadState_Running 100 <| registers := {[ 5 := 0x3000; 6 := 3 ]} |>]> |>
    <| ctes := {[ 16 := mk_cte demo_root nullMDBNode; 4096 := mk_cte cap_null_cap nullMDBNode ]} |>
    <| mem_words := demo_words |> <| x86 ::= λ x, x <| x86KSASIDTable := [demo_pool; 0; 0; 0] |> |>.

Lemma demo_table i t : 0 ≤ i < 1024 → table demo_words demo_pd i = Some t → i = 0 ∧ t = demo_pt.
Proof.
  intros Hi Ht. assert (i = 0) as ->; [|by injection Ht as <-].
  unfold table, word in Ht. rewrite entry_sum in Ht by (done || by split; [|exists 917760]).
  destruct (demo_words !! _) as [w|] eqn:Ew; [|done]. unfold demo_words, demo_pd in *.
  repeat (apply lookup_insert_Some in Ew as [[? _]|[_ Ew]]; [lia|]). apply lookup_singleton_Some in Ew as [? _]. lia.
Qed.
Lemma demo_apart : apart demo_words demo_pd.
Proof.
  split; [by intros i t Hi [_ ->]%demo_table|]. intros i j t Hi Hj [-> _]%demo_table [-> _]%demo_table; done.
Qed.
Lemma demo_pool_apart : pool_apart demo_space 1 demo_pd.
Proof.
  intros p Hp. injection Hp as <-. split_and!; [by split; [|exists 917762]|done|]. by intros i t Hi [_ ->]%demo_table.
Qed.

(** A read-write frame at physical address 0x200000 appears at 0x3000. *)
Lemma page_map_correct_witness : ∃ k',
  decodeX86FrameInvocation X86PageMap 3 4096 (unmapped_frame X86_SmallPage false VMReadWrite 0xe0200000 0) [16; 0; 0] 512 demo_space =
    (Done EXCEPTION_NONE, k') ∧
  translate (mem_words k') demo_pd 0x3abc = Some (mk_translation 0x200abc true true) ∧ translate (mem_words demo_space) demo_pd 0x3abc = None.
Proof.
  pose proof (page_map_correct demo_space (demo_tcb ThreadState_Running 100 <| registers := {[ 5 := 0x3000; 6 := 3 ]} |>) 4096
    (mk_cte cap_null_cap nullMDBNode) (mk_cte demo_root nullMDBNode) X86_SmallPage 0 false VMReadWrite 0xe0200000 3 512 [16; 0; 0]
    eq_refl eq_refl eq_refl (or_introl eq_refl) ltac:(lia) ltac:(by exists 918016) ltac:(done) ltac:(by split; [|split; [|exists 917760]]) eq_refl) as H.
  unfold wp in H. destruct (decodeX86FrameInvocation _ _ _ _ _ _ _) as [[st|h] k']; [|done].
  destruct H as (-> & _ & Ht). exists k'. split_and!; [done| |done].
  destruct (Ht demo_apart) as [_ Hu]. by rewrite (Hu 0x3abc ltac:(lia)).
Defined.

(** The same frame is unmapped again. *)
Lemma page_unmap_restores_witness : ∃ k',
  (_ ← decodeX86FrameInvocation X86PageMap 3 4096 (unmapped_frame X86_SmallPage false VMReadWrite 0xe0200000 0) [16; 0; 0] 512;
   decodeX86FrameInvocation X86PageUnmap 0 4096 (mapped_frame X86_SmallPage false VMReadWrite 0xe0200000 1 0x3000) [0; 0; 0] 512) demo_space =
    (Done EXCEPTION_NONE, k') ∧
  (∀ u, 0 ≤ u < 2 ^ 32 → translate (mem_words k') demo_pd u = translate demo_words demo_pd u).
Proof.
  pose proof (page_unmap_restores demo_space (demo_tcb ThreadState_Running 100 <| registers := {[ 5 := 0x3000; 6 := 3 ]} |>) 4096
    (mk_cte cap_null_cap nullMDBNode) (mk_cte demo_root nullMDBNode) X86_SmallPage 0 false VMReadWrite 0xe0200000 3 512 [16; 0; 0]
    eq_refl eq_refl eq_refl (or_introl eq_refl) ltac:(lia) ltac:(by exists 918016) ltac:(done) ltac:(by split; [|split; [|exists 917760]]) eq_refl
    1 demo_pd 0 [0; 0; 0] 512 (mk_cte demo_root nullMDBNode) eq_refl demo_apart demo_pool_apart ltac:(done) eq_refl) as H.
  unfold wp in H.
  match type of H with match ?x with _ => _ end => destruct x as [[st|h] k'] eqn:E end; [|done].
  destruct H as (-> & _ & _ & Ht). exists k'. split; [exact E|exact Ht].
Defined.


(** A frame at 0xfffff000, in the page table of the kernel behind the last entry of
    the directory (for the kernel alone: the entry has no user bit). *)
Definition demo_high : ks :=
  demo_space <| tcbs ::= <[16 := demo_tcb ThreadState_Running 100 <| registers := {[ 5 := 0xfffff000; 6 := 3 ]} |>]> |>
    <| mem_words ::= <[0xe0100ffc := 0x103003]> |>.

Lemma page_map_bounds_witness : ∃ k',
  decodeX86FrameInvocation X86PageMap 3 4096 (unmapped_frame X86_SmallPage false VMReadWrite 0xe0200000 0) [16; 0; 0] 512 demo_high =
    (Done EXCEPTION_NONE, k') ∧ mem_words k' !! 0xe0103ffc = Some 0x200007 ∧
  (0xfffff000 + 2 ^ 12 ≤ PPTR_USER_TOP ∨ 0xfffff000 = 2 ^ 32 - 2 ^ 12).
Proof.
  eexists. split; [vm_compute; reflexivity|split; [vm_compute; reflexivity|]].
  eapply (page_map_bounds demo_high (demo_tcb ThreadState_Running 100 <| registers := {[ 5 := 0xfffff000; 6 := 3 ]} |>) 4096
    (mk_cte cap_null_cap nullMDBNode) (mk_cte demo_root nullMDBNode) X86_SmallPage 0 false VMReadWrite 0xe0200000 3 512 [16; 0; 0]
    eq_refl eq_refl eq_refl (or_introl eq_refl) ltac:(lia) ltac:(by exists 918016) ltac:(done) ltac:(by split; [|split; [|exists 917760]]) eq_refl).
  vm_compute. reflexivity.
Defined.

(** ** ASIDs *)

(** Entry [x] of a pool can be given to a directory. *)
Definition free_asid (m : gmap Z Z) (base pool x : Z) : bool :=
  negb (base + x =? 0) && (asid_map_get_type (word m (entry_ptr pool x)) =? asid_map_asid_map_none).

Lemma wp_first_free_asid n base pool k : ∀ i, 0 ≤ base → 0 ≤ i → base + i + Z.of_nat n ≤ 4096 →
  wp (first_free_asid n base pool i) (λ j k', k' = k ∧ i ≤ j ≤ i + Z.of_nat n ∧
    (∀ x, i ≤ x < j → free_asid (mem_words k) base pool x = false) ∧
    (j < i + Z.of_nat n → free_asid (mem_words k) base pool j = true)) k.
Proof.
  induction n as [|n IH]; intros i Hb Hi Hn; cbn [first_free_asid]; [apply wp_ret; split_and!; try done; lia|].
  assert (Hlater : free_asid (mem_words k) base pool i = false → wp (first_free_asid n base pool (i + 1)) (λ j k', k' = k ∧ i ≤ j ≤ i + Z.of_nat (S n) ∧
    (∀ x, i ≤ x < j → free_asid (mem_words k) base pool x = false) ∧ (j < i + Z.of_nat (S n) → free_asid (mem_words k) base pool j = true)) k).
  { intros Hf. eapply wp_mono; [apply IH; lia|]. intros j k' (-> & Hj & Ht & Hfree). split_and!; [done|lia|lia| |].
    - intros x Hx. destruct (Z.eq_dec x i) as [->|]; [done|]. apply Ht. lia.
    - intros Hl. apply Hfree. lia. }
  rewrite wrap32_small by (unfold is_word; change word_mod with (2 ^ 32); lia).
  unfold free_asid in Hlater at 1. destruct (base + i =? 0) eqn:E0; [by apply Hlater|]. apply wp_bind, wp_gets.
  change (default 0 (mem_words k !! entry_ptr pool i)) with (word (mem_words k) (entry_ptr pool i)).
  destruct (asid_map_get_type _ =? _) eqn:Et; cbn [negb]; [|by apply Hlater]. apply wp_ret. split_and!; try done; try lia.
  intros _. unfold free_asid. by rewrite E0, Et.
Qed.

(** The pools are distinct pages. *)
Definition pools_apart (k : ks) : Prop := List.length (x86KSASIDTable (x86 k)) = 4%nat ∧
  (∀ i p, x86KSASIDTable (x86 k) !! i = Some p → p ≠ 0 → page_at p) ∧
  (∀ i j p, x86KSASIDTable (x86 k) !! i = Some p → x86KSASIDTable (x86 k) !! j = Some p → p ≠ 0 → i = j).

Lemma asid_parts asid : 0 ≤ asid < 4096 → asid = 1024 * Z.shiftr asid asidLowBits + Z.land asid (MASK asidLowBits).
Proof.
  intros H. unfold asidLowBits. change (MASK 10) with (Z.ones 10). rewrite Z.land_ones, Z.shiftr_div_pow2 by lia.
  apply Z.div_mod. lia.
Qed.

(** The ASID at entry [x] of the pool for [base]. *)
Lemma pool_asid base x : (1024 | base) → 0 ≤ x < 1024 →
  Z.shiftr (base + x) asidLowBits = Z.shiftr base asidLowBits ∧ Z.land (base + x) (MASK asidLowBits) = x.
Proof.
  intros [q ->] Hx. unfold asidLowBits. change (MASK 10) with (Z.ones 10). rewrite Z.land_ones, !Z.shiftr_div_pow2 by lia.
  change (2 ^ 10) with 1024. rewrite Z.div_add_l, Z.div_mul, (Z.div_small x) by lia. split; [lia|].
  rewrite Z.add_comm, Z.mod_add, Z.mod_small by lia. done.
Qed.

Section assign.
Context (k : ks) (c : tcb_t) (s : cte_t) (base pool length slot buffer : Z) (excaps : list Z).
Hypotheses (Hc : tcbs k !! ksCurThread k = Some c) (Hs : ctes k !! excap excaps 0 = Some s)
  (Hbase : 0 ≤ base < 4096) (Hal : (1024 | base)) (Hpools : pools_apart k) (Hroot : root_fine (cte_cap s)).

(** A directory without an ASID, and the pool the capability stands for. *)
Definition assignable : option (Z * Z) :=
  match cte_cap s with
  | cap_page_directory_cap _ asid vaddr pd =>
    if negb (excap excaps 0 =? 0) && (asid =? asidInvalid) && negb (pool =? 0)
       && bool_decide (x86KSASIDTable (x86 k) !! Z.to_nat (Z.shiftr base asidLowBits) = Some pool)
    then Some (vaddr, pd) else None
  | _ => None
  end.

Lemma vspace_of_assigned k' x pd w : x86KSASIDTable (x86 k) !! Z.to_nat (Z.shiftr base asidLowBits) = Some pool → pool ≠ 0 → page_at pd →
  0 ≤ x < 1024 → asid_map_asid_map_vspace_new pd = Done w → x86 k' = x86 k → mem_words k' = <[entry_ptr pool x := w]> (mem_words k) →
  ∀ a, 0 ≤ a < 4096 → vspace_of k' a = if decide (a = base + x) then Some pd else vspace_of k a.
Proof.
  intros Hp Hn0 Hpd Hx Hw Hx86 Hm a Ha. destruct Hpools as (_ & Hpages & Hinj). unfold vspace_of. rewrite Hx86, Hm.
  destruct (pool_asid base x Hal Hx) as [E1 E2]. case_decide as Hd.
  - rewrite Hd, E1, E2, Hp. cbn. rewrite word_same. destruct (Z.eqb_spec pool 0); [done|]. cbn.
    destruct (vspace_map pd) as (w' & Ew & Ht & Hr); [apply Hpd|apply Hpd|]. assert (w' = w) as -> by congruence.
    unfold asid_map_asid_map_vspace_get_vspace_root in Hr. rewrite Ht in *. injection Hr as Hr. by rewrite Z.eqb_refl, Hr.
  - destruct (x86KSASIDTable (x86 k) !! Z.to_nat (Z.shiftr a asidLowBits)) as [p|] eqn:Ep; [|done]. cbn.
    destruct (Z.eqb_spec p 0) as [|Hp0]; [done|]. cbn. rewrite word_other; [done|]. intros E. apply Hd.
    apply entry_inj in E as [<- Ei]; [|by eapply Hpages|by eapply Hpages|done|apply asid_index].
    pose proof (Hinj _ _ _ Hp Ep Hn0) as Hi. apply Z2Nat.inj in Hi; [|apply Z.shiftr_nonneg; lia..].
    destruct (pool_asid base 0 Hal) as [_ E0]; [lia|]. rewrite Z.add_0_r in E0.
    pose proof (asid_parts a Ha). pose proof (asid_parts base Hbase). lia.
Qed.

(** The state once the directory has its ASID. *)
Definition assigned_state (asid vaddr pd e w : Z) : ks :=
  k <| tcbs ::= <[ksCurThread k := c <| tsType := ThreadState_Restart |>]> |>
    <| ctes ::= <[excap excaps 0 := s <| cte_cap := cap_page_directory_cap true asid vaddr pd |>]> |>
    <| mem_words ::= <[e := w]> |>.

Definition no_free_asid : Prop := ∀ x, 0 ≤ x < 1024 → free_asid (mem_words k) base pool x = false.

(** The first free ASID of the pool now stands for the directory. *)
Definition assigns (st : exception_t) (k' : ks) : Prop :=
  ∃ x vaddr pd, let asid := base + x in
    assignable = Some (vaddr, pd) ∧ st = EXCEPTION_NONE ∧ 0 ≤ x < 1024 ∧ asid ≠ asidInvalid ∧ vspace_of k asid = None ∧
    (∀ y, 0 ≤ y < x → free_asid (mem_words k) base pool y = false) ∧
    (∃ w, k' = assigned_state asid vaddr pd (entry_ptr pool x) w) ∧
    ∀ a, 0 ≤ a < 4096 → vspace_of k' a = if decide (a = asid) then Some pd else vspace_of k a.

Lemma pool_refused (m : K exception_t) : (∃ k', m k = (Done EXCEPTION_SYSCALL_ERROR, k')) → assignable = None ∨ no_free_asid →
  wp m (λ st k', (st = EXCEPTION_SYSCALL_ERROR ∧ (assignable = None ∨ no_free_asid)) ∨ assigns st k') k.
Proof. intros [k' E] Ha. unfold wp. rewrite E. left. auto. Qed.

Lemma free_unmapped x : x86KSASIDTable (x86 k) !! Z.to_nat (Z.shiftr base asidLowBits) = Some pool → 0 ≤ x < 1024 →
  free_asid (mem_words k) base pool x = true → base + x ≠ 0 ∧ vspace_of k (base + x) = None.
Proof.
  intros Hp Hx [H0%negb_true_iff%Z.eqb_neq Ht%Z.eqb_eq]%andb_prop. split; [done|]. unfold vspace_of.
  destruct (pool_asid base x Hal Hx) as [-> ->]. rewrite Hp. cbn. rewrite Ht. by rewrite andb_false_r.
Qed.

Lemma decode_pool_assign_spec :
  wp (decode_pool_assign base pool excaps)
    (λ st k', (st = EXCEPTION_SYSCALL_ERROR ∧ (assignable = None ∨ no_free_asid)) ∨ assigns st k') k.
Proof.
  unfold decode_pool_assign. destruct (excap excaps 0 =? 0) eqn:Ee.
  { apply pool_refused; [by eexists|]. left. unfold assignable. rewrite Ee. by destruct (cte_cap s). }
  apply wp_bind, (wp_cte_at _ s); [done|].
  destruct (cte_cap s) eqn:Ecap; try (apply pool_refused; [by eexists|left; unfold assignable; by rewrite Ecap]).
  destruct (capPDMappedASID =? asidInvalid) eqn:Ea; cbn [negb]; [|apply pool_refused; [by eexists|left; unfold assignable; by rewrite Ecap, Ee, Ea]].
  destruct Hpools as (Hlen & Hpages & _).
  destruct (lookup_lt_is_Some_2 (x86KSASIDTable (x86 k)) (Z.to_nat (Z.shiftr base asidLowBits))) as [p Hp]; [rewrite Hlen; by apply asid_high|].
  apply wp_bind. unfold asid_table_at, wp at 1. rewrite Hp.
  destruct (Z.eqb_spec p 0) as [->|Hp0].
  { apply pool_refused; [by eexists|]. left. unfold assignable. rewrite Ecap, Ee, Ea, Hp. cbn.
    destruct (Z.eqb_spec pool 0); [done|]. by rewrite bool_decide_false by congruence. }
  destruct (Z.eqb_spec p pool) as [->|Hne]; cbn [negb].
  2:{ apply pool_refused; [by eexists|]. left. unfold assignable. rewrite Ecap, Ee, Ea, Hp. rewrite bool_decide_false by congruence. by rewrite andb_false_r. }
  assert (Has : assignable = Some (capPDMappedAddress, capPDBasePtr)).
  { unfold assignable. rewrite Ecap, Ee, Ea, bool_decide_true by done. by rewrite (proj2 (Z.eqb_neq _ _) Hp0). }
  apply wp_bind. eapply wp_mono; [apply wp_first_free_asid; [lia|lia|]|].
  { destruct Hal as [q ->]. change (Z.of_nat (Z.to_nat (BIT asidLowBits))) with 1024. lia. }
  change (Z.of_nat (Z.to_nat (BIT asidLowBits))) with 1024. change (BIT asidLowBits) with 1024. intros x k' (-> & Hx & Htaken & Hfree).
  destruct (Z.eqb_spec x 1024) as [->|Hx']; [by apply pool_refused; [eexists|right]|].
  destruct (free_unmapped x Hp) as [Hn0 Hnone]; [lia|apply Hfree; lia|].
  assert (Hb : base + x < 4096) by (destruct Hal; lia).
  rewrite wrap32_small by (unfold is_word; change word_mod with (2 ^ 32); lia).
  destruct Hroot as [_ Hpd]. destruct (vspace_map capPDBasePtr) as (w & Ew & _); [apply Hpd|apply Hpd|].
  apply wp_bind, (wp_restart_current c); [done|]. unfold performASIDPoolInvocation.
  apply wp_bind, (wp_cte_at _ s); [done|]. rewrite Ecap. apply wp_bind, (wp_cte_set _ _ s); [done|].
  apply wp_bind. eapply wp_lifted; [exact Ew|]. apply wp_bind, wp_modify, wp_ret. right. exists x, capPDMappedAddress, capPDBasePtr.
  destruct (pool_asid base x Hal) as [_ E2]; [lia|]. rewrite E2. split_and!; try done; try lia.
  - by exists w.
  - apply (vspace_of_assigned _ x capPDBasePtr w); done || lia.
Qed.

(** C21: X86ASIDPoolAssign.  A page directory without an ASID gets the first one of
    the pool that is free, which is never the invalid ASID; afterwards this ASID
    stands for the directory, every other one for what it stood for, and one word of
    memory, the capability of the directory and the state of the caller are all that
    has changed.  A message without such a directory, a pool that is not the one its
    ASIDs belong to and a pool that is full are answered with an error, and nothing
    changes. *)
Theorem asid_assign_correct :
  wp (decodeX86MMUInvocation X86ASIDPoolAssign length slot (cap_asid_pool_cap base pool) excaps buffer)
    (λ st k',
      (st = EXCEPTION_SYSCALL_ERROR ∧ unchanged k k' ∧ (assignable = None ∨ no_free_asid)) ∨
      assigns st k') k.
Proof.
  eapply wp_mono; [apply wp_atomic; [apply decodeMMU_atomic|exact decode_pool_assign_spec]|]. intros st k' [[[-> H]|H] Hat]; [|by right].
  left. auto.
Qed.
End assign.

(** A second directory gets ASID 2 of the pool of [demo_space], where ASID 1 is taken
    and ASID 0 is never given. *)
Definition demo_new_pd : cte_t := mk_cte (cap_page_directory_cap false 0 0 0xe0104000) nullMDBNode.
Definition demo_assign : ks := demo_space <| ctes ::= <[4096 := demo_new_pd]> |>.

Lemma demo_pools_apart : pools_apart demo_assign.
Proof.
  split_and!; [done| |].
  - intros i p Hp Hn. do 4 (destruct i as [|i]; [injection Hp as <-; try done; by split; [|exists 917762]|]). done.
  - assert (H0 : ∀ i p, x86KSASIDTable (x86 demo_assign) !! i = Some p → p ≠ 0 → i = 0%nat).
    { intros i p Hp Hn. do 4 (destruct i as [|i]; [by injection Hp as <-|]). done. }
    intros i j p Hi Hj Hn. by rewrite (H0 i p), (H0 j p).
Qed.

Lemma asid_assign_correct_witness : ∃ k',
  decodeX86MMUInvocation X86ASIDPoolAssign 0 64 (cap_asid_pool_cap 0 demo_pool) [4096; 0; 0] 512 demo_assign = (Done EXCEPTION_NONE, k') ∧
  vspace_of k' 2 = Some 0xe0104000 ∧ vspace_of k' 1 = Some demo_pd.
Proof.
  pose proof (asid_assign_correct demo_assign (demo_tcb ThreadState_Running 100 <| registers := {[ 5 := 0x3000; 6 := 3 ]} |>) demo_new_pd
    0 demo_pool 0 64 512 [4096; 0; 0] eq_refl eq_refl ltac:(lia) ltac:(by exists 0) demo_pools_apart
    ltac:(by split; [|split; [|exists 917764]])) as H.
  assert (E2 : free_asid (mem_words demo_assign) 0 demo_pool 2 = true) by (vm_compute; reflexivity).
  unfold wp in H. destruct (decodeX86MMUInvocation _ _ _ _ _ _ _) as [[st|h] k'] eqn:E; [|done].
  destruct H as [(_ & _ & [Hn|Hn])|(x & va & pd & Has & -> & Hx & Hn0 & Hnone & Htaken & _ & Hall)]; [done| |].
  - by specialize (Hn 2 ltac:(lia)); rewrite E2 in Hn.
  - injection Has as <- <-. assert (x = 2) as ->.
    { destruct (Z.lt_ge_cases 2 x) as [Hl|Hg]; [by rewrite (Htaken 2 ltac:(lia)) in E2|].
      destruct (Z.eq_dec x 1) as [->|]; [by vm_compute in Hnone|]. unfold asidInvalid in Hn0. lia. }
    exists k'. split_and!; [done|by rewrite (Hall 2 ltac:(lia))|by rewrite (Hall 1 ltac:(lia))].
Defined.
