(* ===== verification/Ports.v ===== *)
(** I/O ports: what an invocation of a port capability reads and writes, and that
    it stays within the ports of the capability. *)

From S2P Require Import Prelude Messages Caps Kernel CSpace CNode Scheduler Wakeup Paging VSpace IOSpace Ipc Waiting Signals.
From S2P Require Import Cancel Transfer Endpoint Reply Retype Reset Creation Deletion Finalise Revoke Decode.
From S2P Require Import Threads Mmu Devices Interrupts Syscall Rejection Mapping.
Import MessageInfo.

(** What a label asks for: the width in bits, and whether to write. *)
Definition port_request (label : Z) : option (Z * bool) :=
  if label =? X86IOPortIn8 then Some (8, false) else if label =? X86IOPortIn16 then Some (16, false)
  else if label =? X86IOPortIn32 then Some (32, false) else if label =? X86IOPortOut8 then Some (8, true)
  else if label =? X86IOPortOut16 then Some (16, true) else if label =? X86IOPortOut32 then Some (32, true) else None.

Lemma wp_setRegister t c r v (Q : unit → ks → Prop) k : tcbs k !! t = Some c →
  Q tt (k <| tcbs ::= <[t := c <| registers ::= <[r := v]> |>]> |>) → wp (setRegister t r v) Q k.
Proof. intros Hc HQ. unfold setRegister. by apply (wp_tcb_set _ _ c). Qed.

(** A thread written twice. *)
Lemma tcb_twice t (c d : tcb_t) k : k <| tcbs ::= <[t := c]> |> <| tcbs ::= <[t := d]> |> = k <| tcbs ::= <[t := d]> |>.
Proof. destruct k. unfold update. cbn. f_equal. apply insert_insert_eq. Qed.

Lemma wp_setRegister_again t c r v (Q : unit → ks → Prop) k :
  Q tt (k <| tcbs ::= <[t := c <| registers ::= <[r := v]> |>]> |>) → wp (setRegister t r v) Q (k <| tcbs ::= <[t := c]> |>).
Proof. intros HQ. apply (wp_setRegister _ c); [apply lookup_insert_eq|]. by rewrite tcb_twice. Qed.

Lemma wp_restart_again c (Q : unit → ks → Prop) k :
  Q tt (k <| tcbs ::= <[ksCurThread k := c <| tsType := ThreadState_Restart |>]> |>) →
  wp (setThreadState (ksCurThread k) ThreadState_Restart) Q (k <| tcbs ::= <[ksCurThread k := c]> |>).
Proof.
  intros HQ. apply (wp_restart_thread _ c); [done|apply lookup_insert_eq|]. by rewrite tcb_twice.
Qed.

(** The reply reaches the registers of the caller. *)
Lemma wp_port_reply res c (Q : exception_t → ks → Prop) k : tcbs k !! ksCurThread k = Some c →
  let rs := match res with
    | Some v => <[msgInfoRegister := 1]> (<[msgRegister 0 := v]> (<[badgeRegister := 0]> (registers c)))
    | None => <[msgInfoRegister := 0]> (registers c)
    end in
  Q EXCEPTION_NONE (k <| tcbs ::= <[ksCurThread k := c <| tsType := ThreadState_Restart |> <| registers := rs |>]> |>) → wp (port_reply res) Q k.
Proof.
  intros Hc rs HQ. unfold port_reply. apply wp_bind, wp_gets. destruct res as [v|].
  - apply wp_bind, wp_bind, (wp_setRegister _ c), wp_setRegister_again; [done|].
    apply wp_bind. eapply wp_lifted; [reflexivity|]. apply wp_bind, wp_setRegister_again, wp_bind, wp_restart_again, wp_ret. exact HQ.
  - apply wp_bind, wp_ret, wp_bind. eapply wp_lifted; [reflexivity|]. apply wp_bind, (wp_setRegister _ c); [done|].
    apply wp_bind, wp_restart_again, wp_ret. exact HQ.
Qed.

Lemma wp_ensurePort first last vpid port n (Q : exception_t → ks → Prop) k : first ≤ last → 0 ≤ port < 2 ^ 16 → 1 ≤ n ≤ 4 →
  (if (port <? first) || (last <? port + n - 1) then ∀ k', Q EXCEPTION_SYSCALL_ERROR k' else Q EXCEPTION_NONE k) →
  wp (ensurePortOperationAllowed (cap_io_port_cap first last vpid) port n) Q k.
Proof.
  intros Hf Hp Hn HQ. unfold ensurePortOperationAllowed. rewrite wrap32_small by (unfold is_word; change word_mod with (2 ^ 32); lia).
  apply wp_bind, wp_assert; [by apply Z.leb_le|]. apply wp_bind, wp_assert; [apply Z.leb_le; lia|].
  destruct (_ || _); [apply HQ|by apply wp_ret].
Qed.

(** The decoder by request instead of by label. *)
Lemma port_decoder label length cap buffer : decodeX86PortInvocation label length cap buffer =
  match port_request label with
  | Some (bits, out) =>
    if length <? (if out : bool then 2 else 1) then simple_error seL4_TruncatedMessage
    else
      a ← getSyscallArg 0 buffer;
      if out then port_write cap (Z.land a 0xffff) bits buffer else port_read cap (Z.land a 0xffff) bits
  | None => if length <? 1 then simple_error seL4_TruncatedMessage else _ ← getSyscallArg 0 buffer; simple_error seL4_IllegalOperation
  end.
Proof.
  unfold decodeX86PortInvocation, port_request, X86IOPortIn8, X86IOPortIn16, X86IOPortIn32, X86IOPortOut8, X86IOPortOut16, X86IOPortOut32.
  repeat match goal with
  | |- context [label =? ?l] => destruct (Z.eqb_spec label l) as [->|?]; cbn -[getSyscallArg simple_error port_read port_write]
  end; try done; destruct (Z.ltb_spec length 1), (Z.ltb_spec length 2); done || lia.
Qed.

Section ports.
Context (k : ks) (c : tcb_t) (first last vpid label length buffer : Z).
Hypotheses (Hc : tcbs k !! ksCurThread k = Some c) (Hb : buffer ≠ 0) (Hcap : 0 ≤ first ≤ last).

Let port := Z.land (argument k c buffer 0) 0xffff.
Let data := argument k c buffer 1.
Let answer := default 0 (head (port_reads (x86 k))).

(** The operation, when the message is complete and the capability has the ports. *)
Definition port_operation : option (Z * bool) :=
  '(bits, out) ← port_request label;
  if (length <? if out : bool then 2 else 1) || (port <? first) || (last <? port + bits / 8 - 1) then None else Some (bits, out).

Definition port_call (bits : Z) (out : bool) : arch_call := if out then call_out bits port (data mod 2 ^ bits) else call_in bits port.

(** The caller with its reply. *)
Definition port_replied (bits : Z) (out : bool) : tcb_t :=
  c <| tsType := ThreadState_Restart |>
    <| registers ::= λ rs, if out then <[msgInfoRegister := 0]> rs
         else <[msgInfoRegister := 1]> (<[msgRegister 0 := answer mod 2 ^ bits]> (<[badgeRegister := 0]> rs)) |>.

Definition port_done (bits : Z) (out : bool) : ks :=
  k <| tcbs ::= <[ksCurThread k := port_replied bits out]> |> <| arch_calls ::= cons (port_call bits out) |>
    <| x86 ::= λ x, if out then x else x <| port_reads ::= tail |> |>.

Lemma port_range : 0 ≤ port < 2 ^ 16.
Proof. clear. unfold port. change 0xffff with (Z.ones 16). rewrite Z.land_ones by lia. apply Z.mod_pos_bound. lia. Qed.

(** One operation: carried out, or refused. *)
Definition port_outcome (allowed : bool) (bits : Z) (out : bool) (st : exception_t) (k' : ks) : Prop :=
  if allowed then st = EXCEPTION_NONE ∧ k' = port_done bits out else st = EXCEPTION_SYSCALL_ERROR.

Lemma wp_port_read bits : bits = 8 ∨ bits = 16 ∨ bits = 32 →
  wp (port_read (cap_io_port_cap first last vpid) port bits)
    (port_outcome (negb ((port <? first) || (last <? port + bits / 8 - 1))) bits false) k.
Proof.
  intros Hbits. pose proof port_range. unfold port_read. apply wp_bind, wp_ensurePort; [lia|done|by destruct Hbits as [->|[-> | ->]]|].
  destruct (_ || _); [done|]. cbn [decide]. rewrite decide_False by auto. unfold port_in.
  apply wp_bind, wp_bind, wp_modify, wp_bind, wp_gets, wp_bind, wp_modify, wp_ret. eapply wp_port_reply; [exact Hc|].
  split; [done|]. done.
Qed.

Lemma wp_port_write bits : bits = 8 ∨ bits = 16 ∨ bits = 32 →
  wp (port_write (cap_io_port_cap first last vpid) port bits buffer)
    (port_outcome (negb ((port <? first) || (last <? port + bits / 8 - 1))) bits true) k.
Proof.
  intros Hbits. pose proof port_range. unfold port_write. apply wp_bind, wp_ensurePort; [lia|done|by destruct Hbits as [->|[-> | ->]]|].
  destruct (_ || _); [done|]. rewrite decide_False by auto.
  apply wp_bind, (wp_getSyscallArg c); [done..|]. apply wp_bind, wp_modify. fold data. eapply wp_port_reply; [exact Hc|].
  split; [done|]. unfold port_done, port_replied, port_call. rewrite Z.land_ones by (by destruct Hbits as [->|[-> | ->]]). done.
Qed.

Lemma port_decode_spec : wp (decodeX86PortInvocation label length (cap_io_port_cap first last vpid) buffer)
  (λ st k', match port_operation with
    | Some (bits, out) => st = EXCEPTION_NONE ∧ k' = port_done bits out
    | None => st = EXCEPTION_SYSCALL_ERROR
    end) k.
Proof.
  rewrite port_decoder. unfold port_operation. destruct (port_request label) as [[bits out]|] eqn:Er; cbn [mbind option_bind].
  - assert (Hbits : bits = 8 ∨ bits = 16 ∨ bits = 32) by (unfold port_request in Er; repeat case_match; simplify_eq; auto).
    destruct (length <? _); cbn [orb]; [by apply wp_rejects; eexists|]. apply wp_bind, (wp_getSyscallArg c); [done..|]. fold port.
    destruct out; (eapply wp_mono; [by apply wp_port_write || by apply wp_port_read|]); intros st k'; unfold port_outcome; by destruct (_ || _).
  - destruct (length <? 1); [by apply wp_rejects; eexists|]. apply wp_bind, (wp_getSyscallArg c); [done..|]. by apply wp_rejects; eexists.
Qed.

(** C22: an invocation of an I/O port capability.  A complete message that asks for
    8, 16 or 32 bits at ports that all belong to the capability is obeyed: the one
    access to the hardware is that read or write, at that port and of that width,
    and the caller gets what has been read (or an empty reply) and runs again.
    Anything else, an unknown label, a message that is too short, a port outside
    the range or a wide access that would leave it, is answered with an error, with
    no access and no change. *)
Theorem port_invocation_correct :
  wp (decodeX86PortInvocation label length (cap_io_port_cap first last vpid) buffer)
    (λ st k', match port_operation with
      | Some (bits, out) => st = EXCEPTION_NONE ∧ k' = port_done bits out ∧ first ≤ port ∧ port + bits / 8 - 1 ≤ last
      | None => st = EXCEPTION_SYSCALL_ERROR ∧ unchanged k k'
      end) k.
Proof.
  eapply wp_mono; [apply wp_atomic; [apply decodePort_atomic|exact port_decode_spec]|]. intros st k' [H Hat].
  destruct port_operation as [[bits out]|] eqn:E; [|by auto]. destruct H as [-> ->]. split_and!; try done.
  all: unfold port_operation in E; destruct (port_request label) as [[b o]|]; [|done]; cbn in E.
  all: destruct (Z.ltb_spec port first), (Z.ltb_spec last (port + b / 8 - 1)); rewrite ?orb_true_r in E; try done.
  all: destruct (_ || false); [done|]; by injection E as <- <-.
Qed.
End ports.

(** Two bytes at port 0x60, of a capability for 0x60 to 0x64; at 0x64 two bytes would
    leave it. *)
Definition demo_ports (port : Z) : ks :=
  demo_space <| tcbs ::= <[16 := demo_tcb ThreadState_Running 100 <| registers := {[ 5 := port ]} |>]> |>
    <| x86 ::= λ x, x <| port_reads := [0x12345678] |> |>.

Lemma port_invocation_correct_witness :
  (∃ k', decodeX86PortInvocation X86IOPortIn16 1 (cap_io_port_cap 0x60 0x64 0) 512 (demo_ports 0x60) = (Done EXCEPTION_NONE, k') ∧
    arch_calls k' = call_in 16 0x60 :: arch_calls (demo_ports 0x60)) ∧
  (∃ k', decodeX86PortInvocation X86IOPortIn16 1 (cap_io_port_cap 0x60 0x64 0) 512 (demo_ports 0x64) = (Done EXCEPTION_SYSCALL_ERROR, k') ∧
    unchanged (demo_ports 0x64) k').
Proof.
  split.
  - pose proof (port_invocation_correct (demo_ports 0x60) (demo_tcb ThreadState_Running 100 <| registers := {[ 5 := 0x60 ]} |>) 0x60 0x64 0
      X86IOPortIn16 1 512 eq_refl ltac:(done) ltac:(done)) as H.
    unfold wp in H. destruct (decodeX86PortInvocation _ _ _ _ _) as [[st|h] k'] eqn:E; [|done]. destruct H as (-> & -> & _). by eexists.
  - pose proof (port_invocation_correct (demo_ports 0x64) (demo_tcb ThreadState_Running 100 <| registers := {[ 5 := 0x64 ]} |>) 0x60 0x64 0
      X86IOPortIn16 1 512 eq_refl ltac:(done) ltac:(done)) as H.
    unfold wp in H. destruct (decodeX86PortInvocation _ _ _ _ _) as [[st|h] k'] eqn:E; [|done]. destruct H as (-> & Hu). by exists k'.
Defined.
