(* ===== verification/Regions.v ===== *)
(** The memory regions of the boot code: the free memory of the kernel window, from
    which objects are allocated ([kernel/boot.c]), and the physical memory that is
    not left to devices ([arch/x86/kernel/boot.c]). *)

From S2P Require Import Prelude Messages Caps Kernel CSpace CNode Scheduler Wakeup Paging VSpace IOSpace Ipc Waiting Signals.
From S2P Require Import Cancel Transfer Endpoint Reply Retype.
From Stdlib Require Import Sorted.

(** ** State *)

(** [region_t], [p_region_t] and [v_region_t] *)
Record region_t := mk_region { r_start : Z; r_end : Z }.
#[export] Instance region_eq_dec : EqDecision region_t.
Proof. solve_decision. Defined.
#[export] Instance eta_region : Eta region_t := λ r, mk_region (r_start r) (r_end r).
Definition REG_EMPTY : region_t := mk_region 0 0.

(** [seL4_UntypedDesc] *)
Record untyped_desc := mk_untyped_desc { ud_paddr : Z; ud_sizeBits : Z; ud_isDevice : bool }.

(** [seL4_BootInfo]; a region of slots is a pair of slots. *)
Record bootinfo := mk_bootinfo {
  extraLen : Z;
  bi_nodeID : Z;
  bi_numNodes : Z;
  bi_numIOPTLevels : Z;
  bi_ipcBuffer : Z;
  bi_empty : region_t;
  bi_userImageFrames : region_t;
  bi_userImagePaging : region_t;
  bi_extraBIPages : region_t;
  bi_initThreadCNodeSizeBits : Z;
  bi_initThreadDomain : Z;
  bi_archInfo : Z;
  bi_untyped : region_t;
  bi_untypedList : list untyped_desc
}.
#[export] Instance eta_bootinfo : Eta bootinfo := λ b,
  mk_bootinfo (extraLen b) (bi_nodeID b) (bi_numNodes b) (bi_numIOPTLevels b) (bi_ipcBuffer b) (bi_empty b) (bi_userImageFrames b)
    (bi_userImagePaging b) (bi_extraBIPages b) (bi_initThreadCNodeSizeBits b) (bi_initThreadDomain b) (bi_archInfo b) (bi_untyped b)
    (bi_untypedList b).

(** [ndks_boot] and [allocated_p_regions] beside the state of the kernel.  Of
    [allocated_p_regions.regs] the first [cur_pos] entries are kept: [cur_pos] is the
    length of the list. *)
Record boot_state := mk_boot {
  kernel : ks;
  freemem : list region_t;
  bi_frame : option bootinfo;
  slot_pos_cur : Z;
  slot_pos_max : Z;
  allocated_p_regions : list region_t
}.
#[export] Instance eta_boot : Eta boot_state := λ b,
  mk_boot (kernel b) (freemem b) (bi_frame b) (slot_pos_cur b) (slot_pos_max b) (allocated_p_regions b).

Definition B (A : Type) : Type := M boot_state A.

Definition in_kernel {A} (m : K A) : B A := zoom kernel (λ k b, b <| kernel := k |>) m.

Definition MAX_NUM_FREEMEM_REG : nat := 16.
Definition ROUND_UP (n b : Z) : Z := wrap32 (Z.shiftl (wrap32 (Z.shiftr (wrap32 (n - 1)) b + 1)) b).

Definition is_reg_empty (r : region_t) : bool := r_start r =? r_end r.
Definition reg_size (r : region_t) : Z := wrap32 (r_end r - r_start r).
Definition paddr_to_pptr_reg (r : region_t) : region_t := mk_region (ptrFromPAddr (r_start r)) (ptrFromPAddr (r_end r)).

(** ** Free memory *)

(** The first empty entry. *)
Fixpoint first_empty (l : list region_t) : option nat :=
  match l with
  | [] => None
  | r :: l => if is_reg_empty r then Some O else option_map S (first_empty l)
  end.

Definition insert_region (reg : region_t) : B bool :=
  assert (r_start reg <=? r_end reg);;
  if is_reg_empty reg then mret true
  else
    l ← gets freemem;
    match first_empty l with
    | Some i => modify (λ b, b <| freemem ::= <[i := reg]> |>);; mret true
    | None => mret false
    end.

(** Where a block would lie in a region, and the remainders, the smaller one first. *)
Definition place_block (size_bits : Z) (f : region_t) : option (region_t * region_t * region_t) :=
  let up := ROUND_UP (r_start f) size_bits in
  let down := ROUND_DOWN (r_end f) size_bits in
  let new_reg :=
    if wrap32 (up - r_start f) <? wrap32 (r_end f - down) then mk_region up (wrap32 (up + BIT size_bits))
    else mk_region (wrap32 (down - BIT size_bits)) down in
  if (r_start new_reg <? r_end new_reg) && (r_start f <=? r_start new_reg) && (r_end new_reg <=? r_end f) then
    let before := mk_region (r_start f) (r_start new_reg) in
    let after := mk_region (r_end new_reg) (r_end f) in
    if wrap32 (r_start new_reg - r_start f) <? wrap32 (r_end f - r_end new_reg) then Some (new_reg, before, after)
    else Some (new_reg, after, before)
  else None.

(** The choice so far: [reg], [rem_small], [rem_large] and [reg_index]. *)
Record choice := mk_choice { c_reg : region_t; c_small : region_t; c_large : region_t; c_index : nat }.

(** [new] is better than the choice so far. *)
Definition better (small large : region_t) (best : choice) : bool :=
  is_reg_empty (c_reg best) || (reg_size small <? reg_size (c_small best))
  || ((reg_size small =? reg_size (c_small best)) && (reg_size large <? reg_size (c_large best))).

Fixpoint best_fit (size_bits : Z) (l : list region_t) (i : nat) (best : choice) : choice :=
  match l with
  | [] => best
  | f :: l =>
    best_fit size_bits l (S i)
      (match place_block size_bits f with
       | Some (reg, small, large) => if better small large best then mk_choice reg small large i else best
       | None => best
       end)
  end.

Definition alloc_region (size_bits : Z) : B Z :=
  l ← gets freemem;
  let best := best_fit size_bits l O (mk_choice REG_EMPTY REG_EMPTY REG_EMPTY O) in
  if is_reg_empty (c_reg best) then mret 0
  else
    modify (λ b, b <| freemem ::= <[c_index best := REG_EMPTY]> |>);;
    insert_region (c_large best);;
    insert_region (c_small best);;
    mret (r_start (c_reg best)).

(** ** Physical memory *)

(** [MAX_NUM_FREEMEM_REG + CONFIG_MAX_NUM_IOAPIC + MAX_NUM_DRHU + 2] *)
Definition NUM_RESERVED_REGIONS : Z := 16 + 1 + 14 + 2.

(** Merges neighbours that touch; [fuel] is the number of regions. *)
Fixpoint merge_from (fuel : nat) (i : nat) (l : list region_t) : list region_t :=
  match fuel with
  | O => l
  | S fuel =>
    match l !! (i - 1)%nat, l !! i with
    | Some a, Some b =>
      if r_end a =? r_start b then merge_from fuel i (delete i (<[(i - 1)%nat := mk_region (r_start a) (r_end b)]> l))
      else merge_from fuel (S i) l
    | _, _ => l
    end
  end.
Definition merge_regions : B unit := modify (λ b, b <| allocated_p_regions ::= λ l, merge_from (length l) 1 l |>).

Definition overlaps (reg r : region_t) : bool := (r_start r <? r_end reg) && (r_start reg <? r_end r).
Definition p_region_overlaps (reg : region_t) : B bool := gets (λ b, existsb (overlaps reg) (allocated_p_regions b)).

(** Inserts [reg] before position [i]. *)
Definition insert_at (i : nat) (reg : region_t) (l : list region_t) : list region_t := take i l ++ reg :: drop i l.

(** The loop of [add_allocated_p_region], from position [i]; [n] regions are left. *)
Fixpoint add_from (n i : nat) (reg : region_t) : B bool :=
  l ← gets allocated_p_regions;
  match n, l !! i with
  | S n, Some r =>
    if r_end r =? r_start reg then
      modify (λ b, b <| allocated_p_regions ::= <[i := mk_region (r_start r) (r_end reg)]> |>);; merge_regions;; mret true
    else if r_start r =? r_end reg then
      modify (λ b, b <| allocated_p_regions ::= <[i := mk_region (r_start reg) (r_end r)]> |>);; merge_regions;; mret true
    else if r_end reg <? r_start r then
      if Z.of_nat (length l) + 1 =? NUM_RESERVED_REGIONS then mret false
      else modify (λ b, b <| allocated_p_regions ::= insert_at i reg |>);; mret true
    else add_from n (S i) reg
  | _, _ =>
    if Z.of_nat i + 1 =? NUM_RESERVED_REGIONS then mret false
    else modify (λ b, b <| allocated_p_regions ::= λ l, l ++ [reg] |>);; mret true
  end.

Definition add_allocated_p_region (reg : region_t) : B bool :=
  assert (r_start reg <=? r_end reg);;
  o ← p_region_overlaps reg;
  assert (negb o);;
  l ← gets allocated_p_regions;
  add_from (length l) O reg.

(** ** Rounding *)

Lemma ROUND_DOWN_done e b : 0 ≤ b < 32 → 0 ≤ e < 2 ^ 32 → ROUND_DOWN e b = 2 ^ b * (e / 2 ^ b).
Proof.
  intros Hb He. unfold ROUND_DOWN. rewrite Z.shiftr_div_pow2, Z.shiftl_mul_pow2, Z.mul_comm by lia.
  assert (Hp : 0 < 2 ^ b) by (apply Z.pow_pos_nonneg; lia). apply wrap32_small. unfold is_word. change word_mod with (2 ^ 32).
  pose proof (Z.mul_div_le e (2 ^ b) Hp). pose proof (Z.div_pos e (2 ^ b)). nia.
Qed.

(** The multiple of [2^b] at or above [s], which may be [2^32] and then wraps. *)
Lemma ROUND_UP_done s b : 0 ≤ b < 32 → 0 ≤ s < 2 ^ 32 →
  ∃ q, s ≤ 2 ^ b * q < s + 2 ^ b ∧ 2 ^ b * q ≤ 2 ^ 32 ∧ ROUND_UP s b = (2 ^ b * q) mod 2 ^ 32.
Proof.
  intros Hb Hs. assert (Hp : 0 < 2 ^ b) by (apply Z.pow_pos_nonneg; lia).
  assert (E : 2 ^ b * 2 ^ (32 - b) = 2 ^ 32) by (rewrite <- Z.pow_add_r by lia; f_equal; lia).
  assert (Hw : ∀ x, wrap32 (Z.shiftl (wrap32 x) b) = (2 ^ b * x) mod 2 ^ 32).
  { intros x. unfold wrap32. change word_mod with (2 ^ 32). rewrite Z.shiftl_mul_pow2, Z.mul_mod_idemp_l by lia. f_equal. lia. }
  unfold ROUND_UP. rewrite Hw, Z.shiftr_div_pow2 by lia. destruct (Z.eq_dec s 0) as [->|Hs0].
  - exists 0. split_and!; try lia. change (wrap32 (0 - 1)) with (2 ^ 32 - 1).
    replace ((2 ^ 32 - 1) / 2 ^ b) with (2 ^ (32 - b) - 1); [by rewrite Z.sub_add, E, Z.mul_0_r|].
    apply Z.div_unique with (2 ^ b - 1); lia.
  - exists ((s - 1) / 2 ^ b + 1). rewrite wrap32_small by (unfold is_word; change word_mod with (2 ^ 32); lia).
    pose proof (Z.div_mod (s - 1) (2 ^ b) ltac:(lia)). pose proof (Z.mod_pos_bound (s - 1) (2 ^ b) Hp).
    assert ((s - 1) / 2 ^ b < 2 ^ (32 - b)) by (apply Z.div_lt_upper_bound; lia). split_and!; [lia|lia|nia|done].
Qed.

(** ** Allocation *)

(** A region of words; the last byte of the address space is in none. *)
Definition region_ok (r : region_t) : Prop := 0 ≤ r_start r ≤ r_end r ∧ r_end r < 2 ^ 32.
Definition in_region_t (r : region_t) (a : Z) : Prop := r_start r ≤ a < r_end r.

(** The block [q] fits into the region. *)
Definition fits_in (b : Z) (f : region_t) (q : Z) : Prop := (2 ^ b | q) ∧ r_start f ≤ q ∧ q + 2 ^ b ≤ r_end f.

(** A block and what it leaves of the region, at most as much on one side. *)
Definition splits (b : Z) (f new small large : region_t) : Prop :=
  fits_in b f (r_start new) ∧ r_end new = r_start new + 2 ^ b ∧
  let before := mk_region (r_start f) (r_start new) in
  let after := mk_region (r_end new) (r_end f) in
  (small = before ∧ large = after ∨ small = after ∧ large = before) ∧ reg_size small ≤ reg_size large.

(** The last step of [place_block]. *)
Definition split_region (b : Z) (f new : region_t) : option (region_t * region_t * region_t) :=
  if (r_start new <? r_end new) && (r_start f <=? r_start new) && (r_end new <=? r_end f) then
    let before := mk_region (r_start f) (r_start new) in
    let after := mk_region (r_end new) (r_end f) in
    if wrap32 (r_start new - r_start f) <? wrap32 (r_end f - r_end new) then Some (new, before, after) else Some (new, after, before)
  else None.

Lemma reg_size_done r : region_ok r → reg_size r = r_end r - r_start r.
Proof. intros H. apply wrap32_small. unfold region_ok, is_word in *. change word_mod with (2 ^ 32). lia. Qed.

Lemma split_region_fits b f ns : 0 ≤ b < 32 → region_ok f → fits_in b f ns →
  ∃ small large, split_region b f (mk_region ns (ns + 2 ^ b)) = Some (mk_region ns (ns + 2 ^ b), small, large) ∧
    splits b f (mk_region ns (ns + 2 ^ b)) small large.
Proof.
  intros Hb [Hf Hw] (Hd & H1 & H2). assert (Hp : 0 < 2 ^ b) by (apply Z.pow_pos_nonneg; lia). unfold split_region. cbn [r_start r_end].
  destruct (Z.ltb_spec ns (ns + 2 ^ b)); [|lia]. destruct (Z.leb_spec (r_start f) ns); [|lia]. destruct (Z.leb_spec (ns + 2 ^ b) (r_end f)); [|lia].
  cbn [andb]. rewrite !wrap32_small by (unfold is_word; change word_mod with (2 ^ 32); lia).
  unfold splits, fits_in. cbn [r_start r_end]. destruct (Z.ltb_spec (ns - r_start f) (r_end f - (ns + 2 ^ b))); eexists _, _; (split; [done|]).
  all: split_and!; try done; [by auto|]; rewrite !reg_size_done by (unfold region_ok; cbn; lia); cbn; lia.
Qed.

Lemma split_region_none b f ns ne : ¬ (ns < ne ∧ r_start f ≤ ns ∧ ne ≤ r_end f) → split_region b f (mk_region ns ne) = None.
Proof.
  intros H. unfold split_region. cbn [r_start r_end].
  destruct (Z.ltb_spec ns ne), (Z.leb_spec (r_start f) ns), (Z.leb_spec ne (r_end f)); try done. lia.
Qed.

(** What a block at [q] leaves on the side where it leaves less. *)
Definition waste (b : Z) (f : region_t) (q : Z) : Z := Z.min (q - r_start f) (r_end f - (q + 2 ^ b)).

Lemma small_waste b f ns ne small large x : region_ok f → splits b f (mk_region ns ne) small large → fits_in b f x →
  reg_size small = waste b f ns.
Proof.
  intros [Hf Hw] ((_ & H1 & H2) & H3 & Hs & Hl) _. unfold waste. cbn [r_start r_end] in *.
  destruct Hs as [[-> ->]|[-> ->]]; rewrite !reg_size_done in * by (unfold region_ok; cbn; lia); cbn [r_start r_end] in *; lia.
Qed.

Lemma place_block_spec b f : 0 ≤ b < 32 → region_ok f →
  match place_block b f with
  | Some (new, small, large) => splits b f new small large ∧ ∀ q, fits_in b f q → reg_size small ≤ waste b f q
  | None => ∀ q, ¬ fits_in b f q
  end.
Proof.
  intros Hb Hok. pose proof Hok as [Hf Hw]. assert (Hp : 0 < 2 ^ b) by (apply Z.pow_pos_nonneg; lia).
  assert (Hp' : 2 ^ b ≤ 2 ^ 31) by (apply Z.pow_le_mono_r; lia).
  assert (Hdiv : ∀ x y, 2 ^ b * x < 2 ^ b * y + 2 ^ b → 2 ^ b * x ≤ 2 ^ b * y) by (intros; assert (x < y + 1) by nia; nia).
  destruct (ROUND_UP_done (r_start f) b Hb) as (q & Hq & Hq32 & Eu); [lia|]. pose proof (ROUND_DOWN_done (r_end f) b Hb ltac:(lia)) as Ed.
  pose proof (Z.mul_div_le (r_end f) (2 ^ b) Hp) as Hd1. pose proof (Z.mul_succ_div_gt (r_end f) (2 ^ b) Hp) as Hd2.
  change (place_block b f) with (split_region b f
    (if wrap32 (ROUND_UP (r_start f) b - r_start f) <? wrap32 (r_end f - ROUND_DOWN (r_end f) b)
     then mk_region (ROUND_UP (r_start f) b) (wrap32 (ROUND_UP (r_start f) b + BIT b))
     else mk_region (wrap32 (ROUND_DOWN (r_end f) b - BIT b)) (ROUND_DOWN (r_end f) b))).
  rewrite Eu, Ed, BIT_pow2 by lia. set (d := r_end f / 2 ^ b) in *. unfold wrap32. change word_mod with (2 ^ 32).
  assert (Hd0 : 0 ≤ 2 ^ b * d) by (unfold d; pose proof (Z.div_pos (r_end f) (2 ^ b)); nia).
  assert (Hlow : ∀ x, fits_in b f x → 2 ^ b * q ≤ x ∧ x + 2 ^ b ≤ 2 ^ b * d).
  { intros x ([y ->] & H1 & H2). rewrite (Z.mul_comm y) in *. split; [apply Hdiv; lia|].
    replace (2 ^ b * y + 2 ^ b) with (2 ^ b * (y + 1)) in * by lia. apply Hdiv. lia. }
  pose proof (Z.mod_pos_bound (r_end f) (2 ^ b) Hp) as Hm. assert (Hgap : r_end f - 2 ^ b * d < 2 ^ b) by (unfold d; lia).
  rewrite (Z.mod_small (r_end f - 2 ^ b * d)) by lia. destruct (Z.ltb_spec ((((2 ^ b * q) mod 2 ^ 32) - r_start f) mod 2 ^ 32) (r_end f - 2 ^ b * d)) as [Hc|Hc].
  - destruct (Z.eq_dec (2 ^ b * q) (2 ^ 32)) as [E|].
    { rewrite E, Z_mod_same_full, split_region_none by lia. intros x Hx. pose proof (Hlow x Hx). destruct Hx. lia. }
    rewrite (Z.mod_small (2 ^ b * q)) by lia. destruct (Z.eq_dec (2 ^ b * q + 2 ^ b) (2 ^ 32)) as [E|].
    { rewrite E, Z_mod_same_full, split_region_none by lia. intros x Hx. pose proof (Hlow x Hx). destruct Hx. lia. }
    assert (2 ^ b * q + 2 ^ b < 2 ^ 32).
    { assert (Em : 2 ^ b * 2 ^ (32 - b) = 2 ^ 32) by (rewrite <- Z.pow_add_r by lia; f_equal; lia).
      assert (2 ^ b * q + 2 ^ b ≤ 2 ^ b * 2 ^ (32 - b)); [|lia]. assert (q + 1 ≤ 2 ^ (32 - b)) by nia.
      replace (2 ^ b * q + 2 ^ b) with (2 ^ b * (q + 1)) by lia. apply Z.mul_le_mono_nonneg_l; lia. }
    rewrite Z.mod_small by lia. destruct (Z.le_gt_cases (2 ^ b * q + 2 ^ b) (r_end f)) as [Hle|Hgt].
    + destruct (split_region_fits b f (2 ^ b * q)) as (small & large & -> & Hs); [done|done|split; [by exists q; lia|lia]|].
      split; [done|]. intros x Hx. pose proof (Hlow x Hx). rewrite (Z.mod_small (2 ^ b * q)), Z.mod_small in Hc by lia.
      apply (small_waste b f (2 ^ b * q) _ _ _ x) in Hs; [|done..]. unfold waste in *. lia.
    + rewrite split_region_none by lia. intros x Hx. pose proof (Hlow x Hx). destruct Hx. lia.
  - destruct (Z.eq_dec (2 ^ b * d) 0) as [E|].
    { rewrite E. replace ((0 - 2 ^ b) mod 2 ^ 32) with (2 ^ 32 - 2 ^ b) by (apply Z.mod_unique with (-1); lia).
      rewrite split_region_none by lia. intros x Hx. pose proof (Hlow x Hx). destruct Hx. lia. }
    assert (2 ^ b ≤ 2 ^ b * d) by (assert (0 < d) by (apply (Z.mul_pos_cancel_l (2 ^ b)); lia); nia). rewrite Z.mod_small by lia.
    destruct (Z.le_gt_cases (r_start f) (2 ^ b * d - 2 ^ b)) as [Hle|Hgt].
    + destruct (split_region_fits b f (2 ^ b * d - 2 ^ b)) as (small & large & E & Hs); [done|done|split; [exists (d - 1); lia|lia]|].
      rewrite Z.sub_add in E, Hs. rewrite E. split; [done|]. intros x Hx. pose proof (Hlow x Hx).
      assert (2 ^ b * q < 2 ^ 32) by lia. rewrite (Z.mod_small (2 ^ b * q)), Z.mod_small in Hc by lia.
      apply (small_waste b f (2 ^ b * d - 2 ^ b) (2 ^ b * d) _ _ x) in Hs; [|done..]. unfold waste in *. lia.
    + rewrite split_region_none by lia. intros x Hx. pose proof (Hlow x Hx). destruct Hx. lia.
Qed.

(** The choice after some regions have been looked at. *)
Definition choice_ok (b : Z) (l : list region_t) (best : choice) : Prop :=
  if is_reg_empty (c_reg best) then ∀ f q, f ∈ l → ¬ fits_in b f q
  else ∃ f, l !! c_index best = Some f ∧ splits b f (c_reg best) (c_small best) (c_large best) ∧
    ∀ f' q, f' ∈ l → fits_in b f' q → reg_size (c_small best) ≤ waste b f' q.

Lemma splits_nonempty b f new small large : 0 ≤ b → splits b f new small large → is_reg_empty new = false.
Proof. intros Hb (_ & E & _). apply Z.eqb_neq. pose proof (Z.pow_pos_nonneg 2 b). lia. Qed.

Lemma best_fit_ok b l : 0 ≤ b < 32 → Forall region_ok l → ∀ pre best, choice_ok b pre best →
  choice_ok b (pre ++ l) (best_fit b l (length pre) best).
Proof.
  intros Hb. induction 1 as [|f l Hf Hl IH]; intros pre best Hbest; cbn [best_fit]; [by rewrite app_nil_r|].
  rewrite cons_middle, app_assoc. replace (S (length pre)) with (length (pre ++ [f])) by (rewrite length_app; cbn; lia). apply IH.
  pose proof (place_block_spec b f Hb Hf) as Hp. destruct (place_block b f) as [[[new small] large]|].
  - destruct Hp as [Hs Hw]. destruct (better small large best) eqn:Eb.
    + unfold choice_ok. cbn [c_reg c_small c_large c_index]. rewrite (splits_nonempty b f new small large) by (done || lia).
      exists f. split_and!; [by rewrite lookup_app_r, Nat.sub_diag by lia|done|].
      intros f' q [Hin| ->%list_elem_of_singleton]%elem_of_app Hq; [|by apply Hw]. unfold choice_ok, better in *.
      destruct (is_reg_empty (c_reg best)); [by destruct (Hbest f' q)|]. destruct Hbest as (_ & _ & _ & Hmin). specialize (Hmin f' q Hin Hq).
      apply orb_prop in Eb as [Eb|Eb]; [apply Z.ltb_lt in Eb; lia|]. apply andb_prop in Eb as [Eb%Z.eqb_eq _]. lia.
    + unfold choice_ok, better in *. destruct (is_reg_empty (c_reg best)) eqn:Ee; [done|]. destruct Hbest as (g & Hg & Hgs & Hmin).
      exists g. split_and!; [by apply lookup_app_l_Some|done|]. intros f' q [Hin| ->%list_elem_of_singleton]%elem_of_app Hq; [by apply Hmin|].
      apply orb_false_elim in Eb as [Eb%Z.ltb_ge _]. specialize (Hw q Hq). lia.
  - unfold choice_ok in *. destruct (is_reg_empty (c_reg best)).
    + intros f' q [Hin| ->%list_elem_of_singleton]%elem_of_app Hq; [by apply (Hbest f' q)|by apply (Hp q)].
    + destruct Hbest as (g & Hg & Hgs & Hmin). exists g. split_and!; [by apply lookup_app_l_Some|done|].
      intros f' q [Hin| ->%list_elem_of_singleton]%elem_of_app Hq; [by apply Hmin|by destruct (Hp q)].
Qed.

(** Free memory: an address in one of the regions, which do not overlap. *)
Definition free (l : list region_t) (a : Z) : Prop := ∃ r, r ∈ l ∧ in_region_t r a.
Definition disjoint (l : list region_t) : Prop :=
  ∀ i j r r' a, l !! i = Some r → l !! j = Some r' → in_region_t r a → in_region_t r' a → i = j.
Definition freemem_ok (l : list region_t) : Prop := Forall region_ok l ∧ disjoint l.

Lemma empty_not_in r a : is_reg_empty r = true → ¬ in_region_t r a.
Proof. unfold in_region_t. intros ->%Z.eqb_eq. lia. Qed.

(** An entry is replaced by a part of it, or a new region takes the place of one. *)
Lemma freemem_set l i r old : freemem_ok l → l !! i = Some old → region_ok r →
  (∀ a, in_region_t r a → ∀ j r', j ≠ i → l !! j = Some r' → ¬ in_region_t r' a) →
  freemem_ok (<[i := r]> l) ∧ ∀ a, free (<[i := r]> l) a ↔ in_region_t r a ∨ ∃ j r', j ≠ i ∧ l !! j = Some r' ∧ in_region_t r' a.
Proof.
  intros [Hok Hdis] Hi Hr Hnew. assert (Hlen : (i < length l)%nat) by by eapply lookup_lt_Some. split; [split|].
  - by apply Forall_insert.
  - intros j j' x x' a Hj Hj' Hx Hx'.
    destruct (decide (j = i)) as [->|Hne], (decide (j' = i)) as [->|Hne']; rewrite ?list_lookup_insert_eq in * by done; simplify_eq; try done.
    + rewrite list_lookup_insert_ne in Hj' by done. by destruct (Hnew a Hx j' x').
    + rewrite list_lookup_insert_ne in Hj by done. by destruct (Hnew a Hx' j x).
    + rewrite list_lookup_insert_ne in Hj, Hj' by done. by apply (Hdis j j' x x' a).
  - intros a. split.
    + intros (x & [j Hj]%list_elem_of_lookup & Hx). destruct (decide (j = i)) as [->|Hne].
      * rewrite list_lookup_insert_eq in Hj by done. left. by simplify_eq.
      * rewrite list_lookup_insert_ne in Hj by done. right. by exists j, x.
    + intros [Hx|(j & x & Hne & Hj & Hx)].
      * exists r. split; [|done]. apply list_elem_of_lookup. exists i. by apply list_lookup_insert_eq.
      * exists x. split; [|done]. apply list_elem_of_lookup. exists j. by rewrite list_lookup_insert_ne.
Qed.

Lemma first_empty_spec l : match first_empty l with
  | Some i => ∃ r, l !! i = Some r ∧ is_reg_empty r = true
  | None => ∀ r, r ∈ l → is_reg_empty r = false
  end.
Proof.
  induction l as [|r l IH]; cbn [first_empty]; [by intros r Hr%elem_of_nil|]. destruct (is_reg_empty r) eqn:E; [by exists r|].
  destruct (first_empty l) as [i|]; cbn; [done|]. intros x [-> |Hx]%elem_of_cons; auto.
Qed.

(** A region that is not free yet becomes free if there is an entry for it. *)
Lemma wp_insert_region reg s : freemem_ok (freemem s) → region_ok reg → (∀ a, in_region_t reg a → ¬ free (freemem s) a) →
  wp (insert_region reg) (λ ok s', s' = s <| freemem := freemem s' |> ∧ freemem_ok (freemem s') ∧ length (freemem s') = length (freemem s) ∧
    (∀ a, free (freemem s') a ↔ free (freemem s) a ∨ ok = true ∧ in_region_t reg a) ∧
    (ok = false → is_reg_empty reg = false ∧ ∀ r, r ∈ freemem s → is_reg_empty r = false) ∧
    ∃ i, ∀ j, j ≠ i → freemem s' !! j = freemem s !! j) s.
Proof.
  intros Hok Hr Hnew. unfold insert_region. apply wp_bind, wp_assert; [apply Z.leb_le, Hr|].
  destruct (is_reg_empty reg) eqn:Ee.
  { apply wp_ret. split_and!; try done; [by destruct s| |by exists O]. intros a. split; [by left|]. intros [H|[_ H]]; [done|]. by apply empty_not_in in H. }
  apply wp_bind, wp_gets. pose proof (first_empty_spec (freemem s)) as Hfe. destruct (first_empty (freemem s)) as [i|].
  - destruct Hfe as (old & Hi & Hold). apply wp_bind, wp_modify, wp_ret.
    destruct (freemem_set (freemem s) i reg old Hok Hi Hr) as [Hok' Hfree].
    { intros a Ha j r' Hne Hj Hr'. apply (Hnew a Ha). exists r'. split; [|done]. apply list_elem_of_lookup. by exists j. }
    change (freemem (s <| freemem ::= <[i := reg]> |>)) with (<[i := reg]> (freemem s)).
    split_and!; try done; [apply length_insert| |].
    + intros a. rewrite Hfree. split.
      * intros [H|(j & x & _ & Hj & Hx)]; [by right|]. left. exists x. split; [|done]. apply list_elem_of_lookup. by exists j.
      * intros [(x & [j Hj]%list_elem_of_lookup & Hx)|[_ H]]; [|by left]. right. exists j, x. split_and!; try done.
        intros ->. simplify_eq. by apply empty_not_in in Hx.
    + exists i. intros j Hj. by apply list_lookup_insert_ne.
  - apply wp_ret. split_and!; try done; [by destruct s| |by exists O]. intros a. split; [by left|]. by intros [H|[? _]].
Qed.

(** The two remainders are parts of the region, beside the block and each other. *)
Lemma splits_parts b f new small large : 0 ≤ b → region_ok f → splits b f new small large →
  region_ok small ∧ region_ok large ∧ ∀ a, in_region_t f a ↔ r_start new ≤ a < r_start new + 2 ^ b ∨ in_region_t small a ∨ in_region_t large a.
Proof.
  intros Hb [Hf Hw] ((_ & H1 & H2) & H3 & Hs & _). pose proof (Z.pow_pos_nonneg 2 b). unfold region_ok, in_region_t in *.
  destruct Hs as [[-> ->]|[-> ->]]; cbn [r_start r_end]; split_and!; intros; lia.
Qed.
Lemma splits_apart b f new small large a : 0 ≤ b → splits b f new small large →
  (in_region_t small a → ¬ in_region_t large a) ∧ (in_region_t small a ∨ in_region_t large a → ¬ (r_start new ≤ a < r_start new + 2 ^ b)).
Proof.
  intros Hb ((_ & H1 & H2) & H3 & Hs & _). pose proof (Z.pow_pos_nonneg 2 b). unfold in_region_t.
  destruct Hs as [[-> ->]|[-> ->]]; cbn [r_start r_end]; split; lia.
Qed.

(** The remainders go back: the entry that has been emptied takes the large one. *)
Lemma wp_give_back {A} (ret : A) i small large s : freemem_ok (freemem s) → freemem s !! i = Some REG_EMPTY →
  region_ok small → region_ok large → (∀ a, in_region_t small a → ¬ in_region_t large a) →
  (∀ a, in_region_t small a ∨ in_region_t large a → ¬ free (freemem s) a) →
  wp (insert_region large;; insert_region small;; mret ret) (λ r s', r = ret ∧ s' = s <| freemem := freemem s' |> ∧ freemem_ok (freemem s') ∧
    (∀ a, free (freemem s') a → free (freemem s) a ∨ in_region_t small a ∨ in_region_t large a) ∧
    ((∃ j r, j ≠ i ∧ freemem s !! j = Some r ∧ is_reg_empty r = true) →
     ∀ a, free (freemem s) a ∨ in_region_t small a ∨ in_region_t large a → free (freemem s') a)) s.
Proof.
  intros Hok Hi Hsm Hla Hap Hnf. apply wp_bind. eapply wp_mono; [apply (wp_insert_region large s Hok Hla); auto|].
  intros ok1 s1 (E1 & Hok1 & _ & Hf1 & Hfull1 & i1 & Hsame1).
  assert (ok1 = true) as ->.
  { destruct ok1; [done|]. destruct Hfull1 as [_ Hall]; [done|]. by specialize (Hall REG_EMPTY (list_elem_of_lookup_2 _ _ _ Hi)). }
  apply wp_bind. eapply wp_mono; [apply (wp_insert_region small s1 Hok1 Hsm)|].
  { intros a Ha Hfr. apply Hf1 in Hfr as [Hfr|[_ Hfr]]; [by apply (Hnf a); [left|]|by apply (Hap a)]. }
  intros ok2 s2 (E2 & Hok2 & _ & Hf2 & Hfull2 & _). apply wp_ret. split_and!; [done|by rewrite E2, E1; destruct s2, s|done| |].
  - intros a Ha. apply Hf2 in Ha as [Ha|[_ Ha]]; [|auto]. apply Hf1 in Ha as [Ha|[_ Ha]]; auto.
  - intros (j & r & Hne & Hj & Hr) a Ha. apply Hf2. destruct Ha as [Ha|[Ha|Ha]]; [left; apply Hf1; by left| |left; apply Hf1; by right].
    right. split; [|done]. destruct ok2; [done|]. destruct Hfull2 as [_ Hall]; [done|].
    assert (∃ x, x ∈ freemem s1 ∧ is_reg_empty x = true) as (x & Hx & Hex); [|by rewrite (Hall x Hx) in Hex].
    destruct (decide (i1 = i)) as [->|Hi1].
    + exists r. split; [|done]. apply list_elem_of_lookup. exists j. by rewrite Hsame1.
    + exists REG_EMPTY. split; [|done]. apply list_elem_of_lookup. exists i. by rewrite Hsame1 by done.
Qed.

Lemma wp_alloc_region b s : 0 ≤ b < 32 → freemem_ok (freemem s) →
  wp (alloc_region b) (λ p s', s' = s <| freemem := freemem s' |> ∧ freemem_ok (freemem s') ∧
    (p = 0 ∧ freemem s' = freemem s ∧ (∀ f q, f ∈ freemem s → ¬ fits_in b f q) ∨
     ∃ f, f ∈ freemem s ∧ fits_in b f p ∧ (∀ f' q, f' ∈ freemem s → fits_in b f' q → waste b f p ≤ waste b f' q) ∧
       (∀ a, free (freemem s') a → free (freemem s) a ∧ ¬ (p ≤ a < p + 2 ^ b)) ∧
       ((∃ r, r ∈ freemem s ∧ is_reg_empty r = true) →
        ∀ a, free (freemem s) a → p ≤ a < p + 2 ^ b ∨ free (freemem s') a))) s.
Proof.
  intros Hb Hok. unfold alloc_region. apply wp_bind, wp_gets.
  pose proof (best_fit_ok b (freemem s) Hb (proj1 Hok) [] (mk_choice REG_EMPTY REG_EMPTY REG_EMPTY O)) as Hbest. cbn [app length] in Hbest.
  unfold choice_ok in Hbest at 2. set (best := best_fit _ _ _ _) in *.
  destruct (is_reg_empty (c_reg best)).
  { apply wp_ret. split_and!; [by destruct s|done|]. left. split_and!; [done|done|]. apply Hbest. intros f q Hf. by apply elem_of_nil in Hf. }
  destruct Hbest as (f & Hi & Hs & Hmin); [intros f q Hf; by apply elem_of_nil in Hf|].
  assert (Hf : region_ok f) by (by eapply Forall_lookup_1; [apply Hok|]).
  destruct (splits_parts b f _ _ _ ltac:(lia) Hf Hs) as (Hsm & Hla & Hparts). set (i := c_index best) in *.
  apply wp_bind, wp_modify. set (s1 := s <| freemem ::= <[i := REG_EMPTY]> |>).
  destruct (freemem_set (freemem s) i REG_EMPTY f Hok Hi) as [Hok1 Hfree1]; [done|intros a Ha; by apply empty_not_in in Ha|].
  assert (Hf1 : ∀ a, free (freemem s1) a → free (freemem s) a ∧ ¬ in_region_t f a).
  { intros a Ha. apply Hfree1 in Ha as [Ha|(j & x & Hne & Hj & Hx)]; [by apply empty_not_in in Ha|].
    split; [exists x; split; [by eapply list_elem_of_lookup_2|done]|]. intros Ha. apply Hne. by apply (proj2 Hok j i x f a). }
  assert (Hi1 : freemem s1 !! i = Some REG_EMPTY) by (apply list_lookup_insert_eq; by eapply lookup_lt_Some).
  eapply wp_mono; [apply (wp_give_back (r_start (c_reg best)) i (c_small best) (c_large best) s1); try done|].
  { intros a. apply (splits_apart b f _ _ _ a ltac:(lia) Hs). }
  { intros a Ha Hfr. apply Hf1 in Hfr as [_ Hn]. apply Hn, Hparts. auto. }
  intros p s' (-> & E & Hok' & Hsub & Hall). split_and!; [by rewrite E; destruct s', s|done|]. right. exists f.
  assert (Hfin : f ∈ freemem s) by by eapply list_elem_of_lookup_2. split_and!; [done|apply Hs| | |].
  - intros f' q Hf' Hq. replace (waste b f _) with (reg_size (c_small best)); [by apply Hmin|].
    destruct (c_reg best) as [ns ne] eqn:Er. eapply small_waste; [done|exact Hs|apply Hs].
  - intros a Ha. apply Hsub in Ha as [Ha|Ha].
    + apply Hf1 in Ha as [Ha Hn]. split; [done|]. intros Hin. apply Hn, Hparts. auto.
    + split; [exists f; split; [done|apply Hparts; auto]|]. apply (proj2 (splits_apart b f _ _ _ a ltac:(lia) Hs)). auto.
  - intros (r & [j Hj]%list_elem_of_lookup & Hr) a (x & [jx Hjx]%list_elem_of_lookup & Hx).
    assert (Hne : j ≠ i). { intros ->. simplify_eq. destruct Hs as ((_ & ? & ?) & _). apply Z.eqb_eq in Hr. pose proof (Z.pow_pos_nonneg 2 b). lia. }
    assert (Hspare : ∃ j r, j ≠ i ∧ freemem s1 !! j = Some r ∧ is_reg_empty r = true).
    { exists j, r. split_and!; try done. change (freemem s1) with (<[i := REG_EMPTY]> (freemem s)). by rewrite list_lookup_insert_ne. }
    destruct (decide (jx = i)) as [->|Hjne].
    + assert (x = f) as -> by congruence. apply Hparts in Hx as [Hx|Hx]; [by left|]. right. apply Hall; auto.
    + right. apply Hall; [done|]. left. apply Hfree1. right. by exists jx, x.
Qed.

(** C28: [alloc_region].  When no region can hold an aligned block of [2^size_bits]
    bytes, the result is 0 and the free memory is as before.  Otherwise it is such a
    block, at the place where the smaller remainder is smallest among all blocks in
    all regions; the regions stay sound and disjoint, none of the block is free
    afterwards, and when one of the entries was empty everything else is free still. *)
Theorem alloc_region_correct b s : 0 ≤ b < 32 → freemem_ok (freemem s) →
  wp (alloc_region b) (λ p s', s' = s <| freemem := freemem s' |> ∧ freemem_ok (freemem s') ∧
    (p = 0 ∧ freemem s' = freemem s ∧ (∀ f q, f ∈ freemem s → ¬ fits_in b f q) ∨
     ∃ f, f ∈ freemem s ∧ fits_in b f p ∧ (∀ f' q, f' ∈ freemem s → fits_in b f' q → waste b f p ≤ waste b f' q) ∧
       (∀ a, free (freemem s') a → free (freemem s) a ∧ ¬ (p ≤ a < p + 2 ^ b)) ∧
       ((∃ r, r ∈ freemem s ∧ is_reg_empty r = true) →
        ∀ a, free (freemem s) a → p ≤ a < p + 2 ^ b ∨ free (freemem s') a))) s.
Proof. apply wp_alloc_region. Qed.

(** The kernel before it boots: no objects, empty queues, one domain. *)
Definition cold_kernel : ks :=
  mk_ks ∅ ∅ ∅ (replicate 256 (mk_queue 0 0)) 0 (replicate 9 0) 0 0 0 [(0, 1)] 0 0 0 0
    ∅ ∅ [] lookup_fault_invalid_root seL4_Fault_NullFault (mk_error 0 0 0 0 0 false 0) 0 []
    ∅ [0; 0; 0] [] (mk_x86 [0; 0; 0; 0] 0 0 0 []).

(** Three pages between two halves, and one page. *)
Definition demo_freemem : list region_t := [mk_region 0x1800 0x4800; mk_region 0x9000 0xa000; REG_EMPTY].
Definition early_boot : boot_state := mk_boot cold_kernel demo_freemem None 0 0 [mk_region 0 0x1000; mk_region 0x2000 0x3000].

Lemma demo_freemem_ok : freemem_ok demo_freemem.
Proof.
  split; [repeat constructor; unfold region_ok; cbn; lia|]. intros [|[|[|]]] [|[|[|]]] r r' a ??; simplify_eq/=; unfold in_region_t; cbn; lia.
Qed.

(** The page is taken from the region it fills. *)
Lemma alloc_region_correct_witness : fst (alloc_region 12 early_boot) = Done 0x9000 ∧
  wp (alloc_region 12) (λ p s', freemem_ok (freemem s')) early_boot.
Proof.
  split; [reflexivity|]. eapply wp_mono; [apply (alloc_region_correct 12 early_boot); [lia|apply demo_freemem_ok]|].
  by intros p s' (_ & ? & _).
Defined.

(** ** Reserved physical memory *)

(** Regions in order, with a gap between neighbours ([lt]) or maybe none ([le]). *)
Definition proper (r : region_t) : Prop := r_start r < r_end r.
Definition precedes (a b : region_t) : Prop := r_end a < r_start b.
Definition not_above (a b : region_t) : Prop := r_end a ≤ r_start b.
Definition gapped (l : list region_t) : Prop := Forall proper l ∧ StronglySorted precedes l.
Definition ordered (l : list region_t) : Prop := Forall proper l ∧ StronglySorted not_above l.

(** [merge_from] as a recursion along the list. *)
Fixpoint merge_list (a : region_t) (l : list region_t) : list region_t :=
  match l with
  | [] => [a]
  | b :: l => if r_end a =? r_start b then merge_list (mk_region (r_start a) (r_end b)) l else a :: merge_list b l
  end.

Lemma merge_step (pre : list region_t) (a b x : region_t) (l : list region_t) : delete (S (length pre)) (<[length pre := x]> (pre ++ a :: b :: l)) = pre ++ x :: l.
Proof. induction pre as [|y pre IH]; [done|]. cbn. f_equal. exact IH. Qed.

Lemma merge_from_list l : ∀ fuel pre a, (length l < fuel)%nat → merge_from fuel (S (length pre)) (pre ++ a :: l) = pre ++ merge_list a l.
Proof.
  induction l as [|b l IH]; intros fuel pre a Hf; (destruct fuel as [|fuel]; [cbn in Hf; lia|]); cbn [merge_from merge_list];
    rewrite Nat.sub_succ, Nat.sub_0_r, list_lookup_middle by done.
  - by rewrite (lookup_ge_None_2 (pre ++ [a])) by (rewrite length_app; cbn; lia).
  - replace ((pre ++ a :: b :: l) !! S (length pre)) with (Some b) by (by rewrite lookup_app_r, Nat.sub_succ_l, Nat.sub_diag by lia).
    cbn in Hf. destruct (r_end a =? r_start b).
    + rewrite merge_step. apply IH. lia.
    + replace (pre ++ a :: b :: l) with ((pre ++ [a]) ++ b :: l) by (by rewrite <- app_assoc).
      replace (S (length pre)) with (length (pre ++ [a])) by (rewrite length_app; cbn; lia). rewrite IH by lia. by rewrite <- app_assoc.
Qed.

Lemma merge_regions_list l : merge_from (length l) 1 l = match l with [] => [] | a :: l => merge_list a l end.
Proof. destruct l as [|a l]; [done|]. apply (merge_from_list l (length (a :: l)) [] a). cbn. lia. Qed.

(** Addresses of a list of regions. *)

Lemma free_cons r l a : free (r :: l) a ↔ in_region_t r a ∨ free l a.
Proof.
  unfold free. split.
  - intros (x & [-> |Hx]%elem_of_cons & H); [by left|]. right. by exists x.
  - intros [H|(x & Hx & H)]; [exists r|exists x]; (split; [apply elem_of_cons; auto|done]).
Qed.
Lemma free_app l l' a : free (l ++ l') a ↔ free l a ∨ free l' a.
Proof.
  unfold free. split.
  - intros (x & [Hx|Hx]%elem_of_app & H); [left|right]; by exists x.
  - intros [(x & Hx & H)|(x & Hx & H)]; exists x; (split; [apply elem_of_app; auto|done]).
Qed.

(** Merging closes the gaps of width zero and keeps the addresses. *)
Lemma merge_list_gapped l : ∀ a, ordered (a :: l) → gapped (merge_list a l) ∧ (∀ x, free (merge_list a l) x ↔ free (a :: l) x) ∧
  (length (merge_list a l) ≤ S (length l))%nat ∧ Forall (λ r, r_start a ≤ r_start r) (merge_list a l).
Proof.
  induction l as [|b l IH]; intros a [Hp Hs]; cbn [merge_list].
  - split_and!; [split; [done|by repeat constructor]|done|cbn; lia|by constructor].
  - apply Forall_cons in Hp as [Ha Hp]. pose proof Hp as [Hb Hpl]%Forall_cons. apply StronglySorted_inv in Hs as [Hs Hal].
    pose proof Hal as [Hab Hal']%Forall_cons. pose proof Hs as [Hsl Hbl]%StronglySorted_inv.
    unfold proper, not_above in *. destruct (Z.eqb_spec (r_end a) (r_start b)) as [E|E].
    + destruct (IH (mk_region (r_start a) (r_end b))) as (Hg & Hc & Hlen & Hstart).
      { split; [apply Forall_cons; split; [unfold proper; cbn; lia|done]|by constructor]. }
      split_and!; [done| |cbn; lia|done]. intros x. rewrite Hc, !free_cons. unfold in_region_t. cbn [r_start r_end].
      assert (r_start a ≤ x < r_end b ↔ r_start a ≤ x < r_end a ∨ r_start b ≤ x < r_end b) by lia. tauto.
    + destruct (IH b) as ([Hg1 Hg2] & Hc & Hlen & Hstart); [by split|]. split_and!.
      * split; [by constructor|]. constructor; [done|]. eapply Forall_impl; [exact Hstart|]. unfold precedes. cbn. intros r Hr. lia.
      * intros x. by rewrite !(free_cons a), Hc.
      * cbn. lia.
      * constructor; [lia|]. eapply Forall_impl; [exact Hstart|]. cbn. intros r Hr. lia.
Qed.

Lemma sorted_app {A} (R : A → A → Prop) l l' : StronglySorted R l → StronglySorted R l' → (∀ x y, x ∈ l → y ∈ l' → R x y) → StronglySorted R (l ++ l').
Proof.
  induction 1 as [|x l Hl IH Hx]; intros Hl' H; [done|]. cbn. constructor.
  - apply IH; [done|]. intros y z Hy. apply H. by right.
  - apply Forall_app_2; [done|]. apply Forall_forall. intros y Hy. apply H; [by left|done].
Qed.
Lemma sorted_app_inv {A} (R : A → A → Prop) l l' : StronglySorted R (l ++ l') →
  StronglySorted R l ∧ StronglySorted R l' ∧ ∀ x y, x ∈ l → y ∈ l' → R x y.
Proof.
  induction l as [|a l IH]; cbn; [intros H; split_and!; [constructor|done|by intros x y ?%elem_of_nil]|].
  intros [H Ha]%StronglySorted_inv. destruct (IH H) as (H1 & H2 & H3). apply Forall_app in Ha as [Ha1 Ha2]. split_and!; [by constructor|done|].
  intros x y [-> |Hx]%elem_of_cons Hy; [by rewrite Forall_forall in Ha2; apply Ha2|by apply H3].
Qed.
Lemma precedes_not_above l : StronglySorted precedes l → StronglySorted not_above l.
Proof.
  induction 1 as [|x l Hl IH Hx]; constructor; [done|]. eapply Forall_impl; [exact Hx|]. unfold precedes, not_above. intros. lia.
Qed.

Definition clear_of (reg : region_t) (l : list region_t) : Prop := ∀ r, r ∈ l → overlaps reg r = false.

Lemma clear_sides reg r : proper reg → proper r → overlaps reg r = false → r_end reg ≤ r_start r ∨ r_end r ≤ r_start reg.
Proof. unfold overlaps, proper. intros ? ? [H%Z.ltb_ge|H%Z.ltb_ge]%andb_false_iff; lia. Qed.

(** What is recorded once [reg] has been added. *)
Definition added (l : list region_t) (reg : region_t) (l' : list region_t) : Prop :=
  gapped l' ∧ (length l' ≤ S (length l))%nat ∧ ∀ a, free l' a ↔ free l a ∨ in_region_t reg a.

(** One of the regions grows to take [reg] in. *)
Lemma grow_added pre r r' post reg : gapped (pre ++ r :: post) → proper r' →
  (∀ x, x ∈ pre → r_end x ≤ r_start r') → (∀ x, x ∈ post → r_end r' ≤ r_start x) →
  (∀ a, in_region_t r' a ↔ in_region_t r a ∨ in_region_t reg a) →
  added (pre ++ r :: post) reg (merge_from (length (pre ++ r' :: post)) 1 (pre ++ r' :: post)).
Proof.
  intros [Hp Hs] Hr' Hpre Hpost Hin. apply sorted_app_inv in Hs as (Hs1 & [Hs2 _]%StronglySorted_inv & Hs3).
  apply Forall_app in Hp as [Hp1 [_ Hp2]%Forall_cons].
  assert (Ho : ordered (pre ++ r' :: post)).
  { split; [by apply Forall_app; split; [|constructor]|]. apply sorted_app; [by apply precedes_not_above| |].
    - constructor; [by apply precedes_not_above|]. by apply Forall_forall.
    - intros x y Hx [-> |Hy]%elem_of_cons; [by apply Hpre|]. specialize (Hs3 x y Hx ltac:(by right)). unfold precedes, not_above in *. lia. }
  assert (Hcov : ∀ a, free (pre ++ r' :: post) a ↔ free (pre ++ r :: post) a ∨ in_region_t reg a).
  { intros a. rewrite !free_app, !free_cons, Hin. tauto. }
  rewrite merge_regions_list. destruct (pre ++ r' :: post) as [|h t] eqn:E; [by destruct pre|].
  destruct (merge_list_gapped t h Ho) as (Hg & Hc & Hlen & _). split_and!; [done| |intros a; by rewrite Hc, Hcov].
  assert (El : length (pre ++ r' :: post) = S (length t)) by (by rewrite E). rewrite !length_app in *. cbn [length] in *. lia.
Qed.

(** The list is replaced, with or without merging. *)
Lemma wp_record f (Q : bool → boot_state → Prop) s :
  (∀ s', s' = s <| allocated_p_regions := allocated_p_regions s' |> → allocated_p_regions s' = f (allocated_p_regions s) → Q true s') →
  wp (modify (λ b, b <| allocated_p_regions ::= f |>);; mret true) Q s.
Proof. intros HQ. apply wp_bind, wp_modify, wp_ret. by apply HQ. Qed.
Lemma wp_merge f (Q : bool → boot_state → Prop) s :
  (∀ s', s' = s <| allocated_p_regions := allocated_p_regions s' |> →
    allocated_p_regions s' = merge_from (length (f (allocated_p_regions s))) 1 (f (allocated_p_regions s)) → Q true s') →
  wp (modify (λ b, b <| allocated_p_regions ::= f |>);; merge_regions;; mret true) Q s.
Proof. intros HQ. apply wp_bind, wp_modify, wp_bind, wp_modify, wp_ret. by apply HQ. Qed.

Lemma wp_add_from reg post : ∀ pre s, allocated_p_regions s = pre ++ post → gapped (pre ++ post) → proper reg → clear_of reg (pre ++ post) →
  (∀ x, x ∈ pre → r_end x < r_start reg) →
  wp (add_from (length post) (length pre) reg) (λ ok s', s' = s <| allocated_p_regions := allocated_p_regions s' |> ∧
    (if ok then added (pre ++ post) reg (allocated_p_regions s')
     else Z.of_nat (length (pre ++ post)) + 1 = NUM_RESERVED_REGIONS ∧ allocated_p_regions s' = pre ++ post)) s.
Proof.
  induction post as [|r post IH]; intros pre s El Hg Hreg Hclear Hpre; cbn [add_from length]; apply wp_bind, wp_gets; rewrite ?El.
  - rewrite app_nil_r in *. destruct (Z.eqb_spec (Z.of_nat (length pre) + 1) NUM_RESERVED_REGIONS) as [E|E].
    { apply wp_ret. split_and!; [by destruct s|done|done]. }
    apply wp_record. intros s' Es' Ea. split; [done|]. rewrite Ea, El.
    split_and!; [|rewrite length_app; cbn; lia|].
    + destruct Hg as [Hg1 Hg2]. split; [by apply Forall_app; split; [|constructor]|]. apply sorted_app; [done|by repeat constructor|].
      intros x y Hx ->%list_elem_of_singleton. by apply Hpre.
    + intros a. rewrite free_app, free_cons. unfold free at 2. split; [|tauto]. intros [H|[H|(x & Hx%elem_of_nil & _)]]; tauto.
  - rewrite list_lookup_middle by done. pose proof Hg as [Hp Hs]. apply sorted_app_inv in Hs as (Hs1 & Hs2 & Hs3).
    apply StronglySorted_inv in Hs2 as [Hs2 Hr2]. apply Forall_app in Hp as [Hp1 [Hr Hp2]%Forall_cons].
    rewrite Forall_forall in Hr2, Hp2. unfold precedes, proper in *.
    assert (Hside : ∀ x, x ∈ post → r_end reg ≤ r_start x ∨ r_end x ≤ r_start reg).
    { intros x Hx. apply clear_sides; [done|by apply Hp2|]. apply Hclear, elem_of_app. right. by right. }
    assert (Hsider : r_end reg ≤ r_start r ∨ r_end r ≤ r_start reg) by (apply clear_sides; [done..|apply Hclear, elem_of_app; right; by left]).
    assert (Hins : ∀ r', <[length pre := r']> (pre ++ r :: post) = pre ++ r' :: post).
    { intros r'. by rewrite insert_app_r_alt, Nat.sub_diag by lia. }
    destruct (Z.eqb_spec (r_end r) (r_start reg)) as [E1|E1]; [|destruct (Z.eqb_spec (r_start r) (r_end reg)) as [E2|E2]].
    + apply wp_merge. intros s' Es' Ea. split; [done|]. rewrite Ea, El, Hins. apply grow_added; try done.
      * unfold proper. cbn. lia.
      * intros x Hx. cbn. specialize (Hs3 x r Hx ltac:(by left)). lia.
      * intros x Hx. cbn. specialize (Hr2 x Hx). destruct (Hside x Hx); [done|]. specialize (Hp2 x Hx). cbn in *. lia.
      * intros a. unfold in_region_t. cbn. lia.
    + apply wp_merge. intros s' Es' Ea. split; [done|]. rewrite Ea, El, Hins. apply grow_added; try done.
      * unfold proper. cbn. lia.
      * intros x Hx. cbn. specialize (Hpre x Hx). lia.
      * intros x Hx. cbn. specialize (Hr2 x Hx). cbn in Hr2. lia.
      * intros a. unfold in_region_t. cbn. lia.
    + destruct (Z.ltb_spec (r_end reg) (r_start r)) as [E3|E3].
      * destruct (Z.eqb_spec (Z.of_nat (length (pre ++ r :: post)) + 1) NUM_RESERVED_REGIONS) as [E|E].
        { apply wp_ret. split_and!; [by destruct s|done|done]. }
        apply wp_record. intros s' Es' Ea. split; [done|]. rewrite Ea, El. unfold insert_at. rewrite take_app_length, drop_app_length.
        split_and!; [|rewrite !length_app; cbn; lia|intros a; rewrite !free_app, !free_cons; tauto].
        split; [apply Forall_app; split; [done|]; constructor; [done|]; constructor; [done|]; by apply Forall_forall|].
        apply sorted_app; [done| |].
        -- constructor; [constructor; [done|by apply Forall_forall]|]. apply Forall_forall. unfold precedes.
           intros x [-> |Hx]%elem_of_cons; [done|]. specialize (Hr2 x Hx). cbn in Hr2. lia.
        -- intros x y Hx [-> |Hy]%elem_of_cons; [by apply Hpre|by apply Hs3].
      * rewrite cons_middle, app_assoc in *. replace (S (length pre)) with (length (pre ++ [r])) by (rewrite length_app; cbn; lia).
        apply IH; try done. intros x [Hx|Hx]%elem_of_app; [by apply Hpre|]. apply list_elem_of_singleton in Hx as ->. lia.
Qed.

(** The same with a bound on the length of the list. *)
Lemma wp_add_allocated_p_region reg s : gapped (allocated_p_regions s) → proper reg → clear_of reg (allocated_p_regions s) →
  wp (add_allocated_p_region reg) (λ ok s', s' = s <| allocated_p_regions := allocated_p_regions s' |> ∧
    if ok : bool then added (allocated_p_regions s) reg (allocated_p_regions s')
    else Z.of_nat (length (allocated_p_regions s)) + 1 = NUM_RESERVED_REGIONS ∧ s' = s) s.
Proof.
  intros Hg Hreg Hclear. unfold add_allocated_p_region. apply wp_bind, wp_assert; [apply Z.leb_le; unfold proper in Hreg; lia|].
  apply wp_bind, wp_gets, wp_bind, wp_assert.
  { apply negb_true_iff, not_true_iff_false. rewrite existsb_exists. intros (r & Hr%list_elem_of_In & Ho). by rewrite (Hclear r Hr) in Ho. }
  apply wp_bind, wp_gets. eapply wp_mono; [apply (wp_add_from reg (allocated_p_regions s) [] s); try done; by intros x ?%elem_of_nil|].
  intros [] s' [E H]; (split; [done|]); [apply H|]. split; [apply H|]. rewrite E, (proj2 H). by destruct s.
Qed.

(** [add_allocated_p_region].  A region that overlaps none of the recorded ones is
    recorded: the list stays in order with a gap between any two regions, and holds
    exactly the addresses it free and those of the new region.  It is refused only
    when the list is full, and then nothing changes. *)
Theorem add_allocated_p_region_correct reg s : gapped (allocated_p_regions s) → proper reg → clear_of reg (allocated_p_regions s) →
  wp (add_allocated_p_region reg) (λ ok s', s' = s <| allocated_p_regions := allocated_p_regions s' |> ∧
    if ok : bool then gapped (allocated_p_regions s') ∧
      ∀ a, free (allocated_p_regions s') a ↔ free (allocated_p_regions s) a ∨ in_region_t reg a
    else Z.of_nat (length (allocated_p_regions s)) + 1 = NUM_RESERVED_REGIONS ∧ s' = s) s.
Proof.
  intros Hg Hreg Hclear. eapply wp_mono; [by apply wp_add_allocated_p_region|]. intros [] s' [E H]; (split; [done|]); [split; apply H|done].
Qed.

Lemma demo_gapped : gapped (allocated_p_regions early_boot) ∧ clear_of (mk_region 0x1000 0x2000) (allocated_p_regions early_boot).
Proof.
  split; [split; [by repeat constructor|repeat constructor; unfold precedes; cbn; lia]|].
  intros r [-> |[-> |[]%elem_of_nil]%elem_of_cons]%elem_of_cons; reflexivity.
Qed.

(** The region fills the gap and the three become one. *)
Lemma add_allocated_p_region_correct_witness :
  allocated_p_regions (snd (add_allocated_p_region (mk_region 0x1000 0x2000) early_boot)) = [mk_region 0 0x3000] ∧
  wp (add_allocated_p_region (mk_region 0x1000 0x2000)) (λ ok s', ok = true → gapped (allocated_p_regions s')) early_boot.
Proof.
  split; [reflexivity|]. eapply wp_mono; [apply (add_allocated_p_region_correct (mk_region 0x1000 0x2000) early_boot);
    [apply demo_gapped|done|apply demo_gapped]|].
  by intros ok s' [_ H] ->; apply H.
Defined.
