(* ===== verification/Boot.v ===== *)
(** Booting the kernel ([kernel/boot.c], [arch/x86/kernel/boot.c] and the boot parts
    of [vspace.c]): the root CNode and the capabilities in it, the address space of
    the first thread, the two first threads and the untyped memory.

    Memory that has been zeroed holds no object; what the code takes it for (slots,
    a thread) is put there when it does.  The tables of the IOMMU are set up by
    [vtd_init], which works on its registers: it is an argument of
    [init_sys_state], as are the frequency [tsc_init] measures and the address of
    the code of the idle thread.  Names of threads and messages are left out. *)

From S2P Require Import Prelude Messages Caps Kernel CSpace CNode Scheduler Wakeup Paging VSpace IOSpace Ipc Waiting Signals.
From S2P Require Import Cancel Transfer Endpoint Reply Retype Threads Interrupts Regions.

(** ** Slots *)

(** [enum seL4_RootCNodeCapSlots] *)
Definition seL4_CapInitThreadTCB : Z := 1.
Definition seL4_CapInitThreadCNode : Z := 2.
Definition seL4_CapInitThreadVSpace : Z := 3.
Definition seL4_CapIRQControl : Z := 4.
Definition seL4_CapASIDControl : Z := 5.
Definition seL4_CapInitThreadASIDPool : Z := 6.
Definition seL4_CapIOPort : Z := 7.
Definition seL4_CapIOSpace : Z := 8.
Definition seL4_CapBootInfoFrame : Z := 9.
Definition seL4_CapInitThreadIPCBuffer : Z := 10.
Definition seL4_CapDomain : Z := 11.
Definition seL4_NumInitialCaps : Z := 12.

Definition CONFIG_ROOT_CNODE_SIZE_BITS : Z := 16.
Definition IRQ_CNODE_BITS : Z := 13.
Definition IT_ASID : Z := 1.
Definition CONFIG_MAX_NUM_BOOTINFO_UNTYPED_CAPS : Z := 167.

(** [SLOT_PTR(pptr_of_cap(root), pos)] *)
Definition root_slot (root : cap_t) (pos : Z) : B Z :=
  p ← lift (cap_get_capPtr root);
  mret (cte_index p pos).

Definition write_slot (slot_ptr : Z) (cap : cap_t) : B unit :=
  in_kernel (cte_set slot_ptr (λ _, mk_cte cap (mdb_node_new 0 true true 0))).

Definition memzero (p bits : Z) : B unit := in_kernel (clearMemory p bits).

(** The slots in zeroed memory. *)
Definition slots_at (n : Z) (p : Z) : B unit := in_kernel (modify (λ k, k <| ctes ::= zero_slots (Z.to_nat n) p |>)).

Definition bi_set (f : bootinfo → bootinfo) : B unit := λ b,
  match bi_frame b with
  | Some i => (Done tt, b <| bi_frame := Some (f i) |>)
  | None => (Halted BadPointer, b)
  end.

Definition create_root_cnode : B cap_t :=
  modify (λ b, b <| slot_pos_max := BIT CONFIG_ROOT_CNODE_SIZE_BITS |>);;
  pptr ← alloc_region (CONFIG_ROOT_CNODE_SIZE_BITS + 4);
  if pptr =? 0 then mret cap_null_cap
  else
    memzero pptr (CONFIG_ROOT_CNODE_SIZE_BITS + 4);;
    slots_at (BIT CONFIG_ROOT_CNODE_SIZE_BITS) pptr;;
    let cap := cap_cnode_cap CONFIG_ROOT_CNODE_SIZE_BITS (32 - CONFIG_ROOT_CNODE_SIZE_BITS) 0 pptr in
    write_slot (cte_index pptr seL4_CapInitThreadCNode) cap;;
    mret cap.

Definition create_irq_cnode : B bool :=
  pptr ← alloc_region IRQ_CNODE_BITS;
  if pptr =? 0 then mret false
  else
    memzero pptr IRQ_CNODE_BITS;;
    slots_at (BIT (IRQ_CNODE_BITS - 4)) pptr;;
    in_kernel (modify (λ k, k <| intStateIRQNode := pptr |>));;
    mret true.

Definition create_domain_cap (root_cnode_cap : cap_t) : B unit :=
  sched ← in_kernel (gets ksDomSchedule);
  assert (0 <? Z.of_nat (length sched));;
  assert (forallb (λ e : Z * Z, (fst e <? CONFIG_NUM_DOMAINS) && (0 <? snd e)) sched);;
  slot ← root_slot root_cnode_cap seL4_CapDomain;
  write_slot slot cap_domain_cap.

Definition provide_cap (root_cnode_cap cap : cap_t) : B bool :=
  cur ← gets slot_pos_cur;
  max ← gets slot_pos_max;
  if max <=? cur then mret false
  else
    slot ← root_slot root_cnode_cap cur;
    write_slot slot cap;;
    modify (λ b, b <| slot_pos_cur ::= λ c, wrap32 (c + 1) |>);;
    mret true.

(** ** The address space of the first thread *)

Definition map_it_pt_cap (vspace_cap pt_cap : cap_t) : B unit :=
  pd ← lift (cap_get_capPtr vspace_cap);
  match pt_cap with
  | cap_page_table_cap mapped _ vptr pt =>
    assert mapped;;
    pde ← lift (pde_pde_small_new (addrFromPPtr pt) 0 0 0 0 1 1 1);
    in_kernel (word_set (entry_ptr pd (Z.shiftr vptr 22)) pde)
  | _ => halt_with AssertFailed
  end.

Definition map_it_frame_cap (pd_cap frame_cap : cap_t) : B unit :=
  pd ← lift (cap_get_capPtr pd_cap);
  match frame_cap with
  | cap_frame_cap _ asid vptr _ _ _ frame =>
    assert (negb (asid =? 0));;
    pde ← in_kernel (word_at (entry_ptr pd (Z.shiftr vptr 22)));
    base ← lift (pde_pde_small_get_pt_base_address pde);
    pte ← lift (pte_new (addrFromPPtr frame) 0 0 0 0 0 0 0 1 1 1);
    in_kernel (word_set (entry_ptr (ptrFromPAddr base) (Z.shiftr (Z.land vptr (MASK 22)) 12)) pte)
  | _ => halt_with AssertFailed
  end.

Definition create_it_page_table_cap (vspace_cap : cap_t) (pptr vptr asid : Z) : B cap_t :=
  let cap := cap_page_table_cap true asid vptr pptr in
  when (negb (asid =? asidInvalid)) (map_it_pt_cap vspace_cap cap);;
  mret cap.

(** [fail("Should not be called")] *)
Definition map_it_pd_cap (vspace_cap pd_cap : cap_t) : B unit := halt_with AssertFailed.

Definition create_it_page_directory_cap (vspace_cap : cap_t) (pptr vptr asid : Z) : B cap_t :=
  let cap := cap_page_directory_cap true IT_ASID vptr pptr in
  when (negb (asid =? asidInvalid) && negb (is_null vspace_cap)) (map_it_pd_cap vspace_cap cap);;
  mret cap.

(** The page tables for the addresses from [vptr] up to [vend]. *)
Fixpoint create_it_pts (fuel : nat) (root_cnode_cap vspace_cap : cap_t) (vptr vend : Z) : B bool :=
  if negb (vptr <? vend) then mret true
  else
    match fuel with
    | O => halt_with OutOfFuel
    | S fuel =>
      pptr ← alloc_region 12;
      if pptr =? 0 then mret false
      else
        memzero pptr 12;;
        cap ← create_it_page_table_cap vspace_cap pptr vptr IT_ASID;
        ok ← provide_cap root_cnode_cap cap;
        if negb ok then mret false
        else create_it_pts fuel root_cnode_cap vspace_cap (wrap32 (vptr + BIT 22)) vend
    end.

Definition create_it_address_space (root_cnode_cap : cap_t) (it_v_reg : region_t) : B cap_t :=
  slot_pos_before ← gets slot_pos_cur;
  pd_pptr ← alloc_region 12;
  if pd_pptr =? 0 then mret cap_null_cap
  else
    memzero pd_pptr 12;;
    in_kernel (copyGlobalMappings pd_pptr);;
    pd_cap ← create_it_page_directory_cap cap_null_cap pd_pptr 0 IT_ASID;
    slot ← root_slot root_cnode_cap seL4_CapInitThreadVSpace;
    write_slot slot pd_cap;;
    ok ← create_it_pts 1024 root_cnode_cap pd_cap (ROUND_DOWN (r_start it_v_reg) 22) (r_end it_v_reg);
    if negb ok then mret cap_null_cap
    else
      slot_pos_after ← gets slot_pos_cur;
      bi_set (λ i, i <| bi_userImagePaging := mk_region slot_pos_before slot_pos_after |>);;
      mret pd_cap.

Definition create_it_frame_cap (pptr vptr asid : Z) (use_large : bool) (map_type : Z) : cap_t :=
  cap_frame_cap (if use_large then X86_LargePage else X86_SmallPage) asid vptr map_type false VMReadWrite pptr.
Definition create_unmapped_it_frame_cap (pptr : Z) (use_large : bool) : cap_t :=
  create_it_frame_cap pptr 0 asidInvalid use_large X86_MappingNone.
Definition create_mapped_it_frame_cap (vspace_cap : cap_t) (pptr vptr asid : Z) (use_large : bool) : B cap_t :=
  let cap := create_it_frame_cap pptr vptr asid use_large X86_MappingVSpace in
  map_it_frame_cap vspace_cap cap;;
  mret cap.

Definition create_ipcbuf_frame (root_cnode_cap pd_cap : cap_t) (vptr : Z) : B cap_t :=
  pptr ← alloc_region 12;
  if pptr =? 0 then mret cap_null_cap
  else
    memzero pptr 12;;
    cap ← create_mapped_it_frame_cap pd_cap pptr vptr IT_ASID false;
    slot ← root_slot root_cnode_cap seL4_CapInitThreadIPCBuffer;
    write_slot slot cap;;
    mret cap.

Definition create_bi_frame_cap (root_cnode_cap pd_cap : cap_t) (pptr vptr : Z) : B unit :=
  cap ← create_mapped_it_frame_cap pd_cap pptr vptr IT_ASID false;
  slot ← root_slot root_cnode_cap seL4_CapBootInfoFrame;
  write_slot slot cap.

(** [for (f = reg.start; f < reg.end; f += BIT(PAGE_BITS))]: the frames are provided,
    or the slots run out. *)
Fixpoint create_frames (fuel : nat) (root_cnode_cap pd_cap : cap_t) (f fend : Z) (do_map : bool) (pv_offset : Z) : B bool :=
  if negb (f <? fend) then mret true
  else
    match fuel with
    | O => halt_with OutOfFuel
    | S fuel =>
      frame_cap ← (if do_map then create_mapped_it_frame_cap pd_cap f (addrFromPPtr (wrap32 (f - pv_offset))) IT_ASID false
                   else mret (create_unmapped_it_frame_cap f false));
      ok ← provide_cap root_cnode_cap frame_cap;
      if negb ok then mret false
      else create_frames fuel root_cnode_cap pd_cap (wrap32 (f + BIT 12)) fend do_map pv_offset
    end.

(** The slots of the frames, or [None] for [success = false]. *)
Definition create_frames_of_region (root_cnode_cap pd_cap : cap_t) (reg : region_t) (do_map : bool) (pv_offset : Z) : B (option region_t) :=
  slot_pos_before ← gets slot_pos_cur;
  ok ← create_frames (Z.to_nat (2 ^ 20)) root_cnode_cap pd_cap (r_start reg) (r_end reg) do_map pv_offset;
  if negb ok then mret None
  else
    slot_pos_after ← gets slot_pos_cur;
    mret (Some (mk_region slot_pos_before slot_pos_after)).

Definition create_it_asid_pool (root_cnode_cap : cap_t) : B cap_t :=
  ap_pptr ← alloc_region 12;
  if ap_pptr =? 0 then mret cap_null_cap
  else
    memzero ap_pptr 12;;
    let ap_cap := cap_asid_pool_cap (Z.shiftr IT_ASID asidLowBits) ap_pptr in
    slot ← root_slot root_cnode_cap seL4_CapInitThreadASIDPool;
    write_slot slot ap_cap;;
    slot ← root_slot root_cnode_cap seL4_CapASIDControl;
    write_slot slot cap_asid_control_cap;;
    mret ap_cap.

Definition write_it_asid_pool (it_ap_cap it_vspace_cap : cap_t) : B unit :=
  ap ← lift (cap_get_capPtr it_ap_cap);
  root ← lift (cap_get_capPtr it_vspace_cap);
  asid_map ← lift (asid_map_asid_map_vspace_new root);
  in_kernel (word_set (entry_ptr ap IT_ASID) asid_map);;
  in_kernel (asid_table_set (Z.shiftr IT_ASID asidLowBits) ap).

(** ** The frame of the boot information *)

Definition zero_bootinfo : bootinfo :=
  mk_bootinfo 0 0 0 0 0 REG_EMPTY REG_EMPTY REG_EMPTY REG_EMPTY 0 0 0 REG_EMPTY
    (replicate (Z.to_nat CONFIG_MAX_NUM_BOOTINFO_UNTYPED_CAPS) (mk_untyped_desc 0 0 false)).

(** [ksDomSchedule[ksDomScheduleIdx]] *)
Definition current_domain : K (Z * Z) :=
  sched ← gets ksDomSchedule;
  idx ← gets ksDomScheduleIdx;
  match sched !! Z.to_nat idx with Some e => mret e | None => halt_with BadPointer end.

Definition allocate_bi_frame (node_id num_nodes ipcbuf_vptr : Z) : B Z :=
  pptr ← alloc_region 12;
  if pptr =? 0 then mret 0
  else
    memzero pptr 12;;
    modify (λ b, b <| bi_frame := Some zero_bootinfo |> <| slot_pos_cur := seL4_NumInitialCaps |>);;
    bi_set (λ i, i <| bi_nodeID := node_id |> <| bi_numNodes := num_nodes |> <| bi_numIOPTLevels := 0 |>
                   <| bi_ipcBuffer := ipcbuf_vptr |> <| bi_initThreadCNodeSizeBits := CONFIG_ROOT_CNODE_SIZE_BITS |>);;
    dom ← in_kernel current_domain;
    bi_set (λ i, i <| bi_initThreadDomain := fst dom |> <| extraLen := 0 |> <| bi_extraBIPages := mk_region 0 0 |>);;
    mret pptr.

Definition allocate_extra_bi_region (extra_size : Z) : B region_t :=
  if extra_size =? 0 then mret (mk_region 0x1000 0x1000)
  else
    let size_bits := 32 - 1 - clzl (ROUND_UP extra_size 12) in
    pptr ← alloc_region size_bits;
    if pptr =? 0 then mret REG_EMPTY
    else
      memzero pptr size_bits;;
      bi_set (λ i, i <| extraLen := BIT size_bits |>);;
      mret (mk_region pptr (wrap32 (pptr + BIT size_bits))).

(** ** Interrupts *)

Definition irq_isa_min : Z := 0.
Definition irq_isa_max : Z := 15.
Definition irq_iommu : Z := 124.
Definition irq_timer : Z := 125.

(** The configuration has the I/O APIC and not the PIC. *)
Definition initial_irq_state (i : Z) : irq_state :=
  if i =? irq_timer then IRQTimer
  else if i =? irq_iommu then IRQReserved
  else if (irq_isa_min <=? i) && (i <=? irq_isa_max) then IRQReserved
  else if (irq_user_min <=? i) && (i <=? irq_user_max) then IRQInactive
  else IRQReserved.

(** The table [x86KSIRQState] belongs to the interrupt controller: its entries are
    recorded as they are set. *)
Definition Arch_irqStateInit : K unit :=
  for_range 0 (Z.to_nat (maxIRQ + 1)) (λ i,
    arch_call_made (call_updateIRQState i
      (if (i =? irq_timer) || (i =? irq_iommu) then x86_irq_state_irq_reserved else x86_irq_state_irq_free))).

Definition init_irqs (root_cnode_cap : cap_t) : B unit :=
  in_kernel (for_range 0 (Z.to_nat (maxIRQ + 1)) (λ i, setIRQState (initial_irq_state i) i));;
  in_kernel Arch_irqStateInit;;
  slot ← root_slot root_cnode_cap seL4_CapIRQControl;
  write_slot slot cap_irq_control_cap.

(** ** The first threads *)

Definition FLAGS_USER_DEFAULT : Z := Z.lor (BIT 9) (BIT 1).
Definition SEL_CS_0 : Z := 8.
Definition SEL_DS_0 : Z := 16.

Definition Arch_configureIdleThread (idleThreadStart tcb : Z) : K unit :=
  setRegister tcb 16 FLAGS_USER_DEFAULT;;
  setRegister tcb NextIP idleThreadStart;;
  setRegister tcb 15 SEL_CS_0;;
  setRegister tcb 7 SEL_DS_0;;
  setRegister tcb 8 SEL_DS_0;;
  setRegister tcb 9 SEL_DS_0;;
  setRegister tcb 10 SEL_DS_0;;
  setRegister tcb 18 SEL_DS_0.

Definition configureIdleThread (idleThreadStart tcb : Z) : K unit :=
  Arch_configureIdleThread idleThreadStart tcb;;
  setThreadState tcb ThreadState_IdleThreadState.

(** The block of a thread in zeroed memory: its slots and the thread. *)
Definition thread_at (pptr : Z) : B unit :=
  in_kernel (modify (λ k, k <| tcbs ::= <[wrap32 (pptr + TCB_OFFSET) := zero_tcb]> |> <| ctes ::= zero_slots tcb_slots pptr |>)).

Definition create_idle_thread (idleThreadStart : Z) : B bool :=
  pptr ← alloc_region 10;
  if pptr =? 0 then mret false
  else
    memzero pptr 10;;
    thread_at pptr;;
    let tcb := wrap32 (pptr + TCB_OFFSET) in
    in_kernel (modify (λ k, k <| ksIdleThread := tcb |>));;
    in_kernel (configureIdleThread idleThreadStart tcb);;
    mret true.

Definition capRegister : Z := 1.

(** [None] for [NULL] *)
Definition create_initial_thread (root_cnode_cap it_pd_cap : cap_t) (ui_v_entry bi_frame_vptr ipcbuf_vptr : Z) (ipcbuf_cap : cap_t) : B (option Z) :=
  pptr ← alloc_region 10;
  if pptr =? 0 then mret None
  else
    memzero pptr 10;;
    thread_at pptr;;
    let tcb := wrap32 (pptr + TCB_OFFSET) in
    in_kernel (tcb_set tcb (λ c, c <| tcbTimeSlice := CONFIG_TIME_SLICE |>));;
    in_kernel (Arch_initContext tcb);;
    bufslot ← root_slot root_cnode_cap seL4_CapInitThreadIPCBuffer;
    dc_ret ← in_kernel (deriveCap bufslot ipcbuf_cap);
    match dc_status dc_ret with
    | EXCEPTION_NONE =>
      cslot ← root_slot root_cnode_cap seL4_CapInitThreadCNode;
      in_kernel (cteInsert root_cnode_cap cslot (cte_index pptr tcbCTable));;
      vslot ← root_slot root_cnode_cap seL4_CapInitThreadVSpace;
      in_kernel (cteInsert it_pd_cap vslot (cte_index pptr tcbVTable));;
      in_kernel (cteInsert (dc_cap dc_ret) bufslot (cte_index pptr tcbBuffer));;
      in_kernel (tcb_set tcb (λ c, c <| tcbIPCBuffer := ipcbuf_vptr |>));;
      in_kernel (setRegister tcb capRegister bi_frame_vptr);;
      in_kernel (setNextPC tcb ui_v_entry);;
      in_kernel (tcb_set tcb (λ c, c <| tcbPriority := seL4_MaxPrio |> <| tcbMCP := seL4_MaxPrio |>));;
      in_kernel (setupReplyMaster tcb);;
      in_kernel (setThreadState tcb ThreadState_Running);;
      dom ← in_kernel current_domain;
      in_kernel (modify (λ k, k <| ksCurDomain := fst dom |> <| ksDomainTime := snd dom |>));;
      assert ((fst dom <? CONFIG_NUM_DOMAINS) && (0 <? snd dom));;
      slot ← root_slot root_cnode_cap seL4_CapInitThreadTCB;
      write_slot slot (cap_thread_cap tcb);;
      mret (Some tcb)
    | _ => mret None
    end.

(** The owner of the FPU and the list of threads for debugging start empty; the two
    threads are appended to the latter. *)
Definition init_core_state (scheduler_action : Z) : K unit :=
  when (negb (scheduler_action =? SchedulerAction_ResumeCurrentThread) && negb (scheduler_action =? SchedulerAction_ChooseNewThread))
    (arch_call_made (call_tcbDebugAppend scheduler_action));;
  idle ← gets ksIdleThread;
  arch_call_made (call_tcbDebugAppend idle);;
  modify (λ k, k <| ksSchedulerAction := scheduler_action |>);;
  modify (λ k, k <| ksCurThread := ksIdleThread k |>).

(** ** Untyped memory *)

Definition ctzl (w : Z) : Z := Z.log2 (Z.land w (- w)).

(** Beyond the list of the boot information memory is left out. *)
Definition provide_untyped_cap (root_cnode_cap : cap_t) (device_memory : bool) (pptr size_bits first_untyped_slot : Z) : B bool :=
  cur ← gets slot_pos_cur;
  let i := wrap32 (cur - first_untyped_slot) in
  if i <? CONFIG_MAX_NUM_BOOTINFO_UNTYPED_CAPS then
    bi_set (λ f, f <| bi_untypedList ::= <[Z.to_nat i := mk_untyped_desc (addrFromPPtr pptr) size_bits device_memory]> |>);;
    provide_cap root_cnode_cap (cap_untyped_cap (MAX_FREE_INDEX size_bits) device_memory size_bits pptr)
  else mret true.

(** The size of the piece at the start of a region that is not empty. *)
Definition untyped_size_bits (reg : region_t) : Z :=
  let size_bits := 32 - 1 - clzl (wrap32 (r_end reg - r_start reg)) in
  let align_bits := if negb (r_start reg =? 0) then ctzl (r_start reg) else size_bits in
  let size_bits := if align_bits <? size_bits then align_bits else size_bits in
  if seL4_MaxUntypedBits <? size_bits then seL4_MaxUntypedBits else size_bits.

Fixpoint untypeds_loop (fuel : nat) (root_cnode_cap : cap_t) (device_memory : bool) (reg : region_t) (first_untyped_slot : Z) : B bool :=
  if is_reg_empty reg then mret true
  else
    match fuel with
    | O => halt_with OutOfFuel
    | S fuel =>
      let size_bits := untyped_size_bits reg in
      ok ← (if seL4_MinUntypedBits <=? size_bits then provide_untyped_cap root_cnode_cap device_memory (r_start reg) size_bits first_untyped_slot
            else mret true);
      if negb ok then mret false
      else untypeds_loop fuel root_cnode_cap device_memory (reg <| r_start ::= λ s, wrap32 (s + BIT size_bits) |>) first_untyped_slot
    end.

(** At most 29 steps until the start is aligned to the largest size, at most eight of
    that size, and at most 29 of falling sizes. *)
Definition untypeds_fuel : nat := 70.

Definition create_untypeds_for_region (root_cnode_cap : cap_t) (device_memory : bool) (reg : region_t) (first_untyped_slot : Z) : B bool :=
  untypeds_loop untypeds_fuel root_cnode_cap device_memory reg first_untyped_slot.

(** The regions of [freemem] from [i] on; [n] are left. *)
Fixpoint freemem_untypeds (n i : nat) (root_cnode_cap : cap_t) (first_untyped_slot : Z) : B bool :=
  match n with
  | O => mret true
  | S n =>
    l ← gets freemem;
    match l !! i with
    | None => halt_with BadPointer
    | Some reg =>
      modify (λ b, b <| freemem ::= <[i := REG_EMPTY]> |>);;
      ok ← create_untypeds_for_region root_cnode_cap false reg first_untyped_slot;
      if negb ok then mret false else freemem_untypeds n (S i) root_cnode_cap first_untyped_slot
    end
  end.

Definition create_kernel_untypeds (root_cnode_cap : cap_t) (boot_mem_reuse_reg : region_t) (first_untyped_slot : Z) : B bool :=
  ok ← create_untypeds_for_region root_cnode_cap false boot_mem_reuse_reg first_untyped_slot;
  if negb ok then mret false else freemem_untypeds MAX_NUM_FREEMEM_REG O root_cnode_cap first_untyped_slot.

Definition PADDR_USER_DEVICE_TOP : Z := 0xffff0000.

(** The gaps between the regions [l], the first of them from [start]: [None] for
    [return false], or the end of the last region. *)
Fixpoint device_untypeds (l : list region_t) (root_cnode_cap : cap_t) (slot_pos_before start : Z) : B (option Z) :=
  match l with
  | [] => mret (Some start)
  | r :: l =>
    ok ← (if negb (start =? r_start r)
          then create_untypeds_for_region root_cnode_cap true (paddr_to_pptr_reg (mk_region start (r_start r))) slot_pos_before
          else mret true);
    if negb ok then mret None else device_untypeds l root_cnode_cap slot_pos_before (r_end r)
  end.

(** The result of [create_kernel_untypeds] is not looked at. *)
Definition create_untypeds (root_cnode_cap : cap_t) (boot_mem_reuse_reg : region_t) : B bool :=
  slot_pos_before ← gets slot_pos_cur;
  create_kernel_untypeds root_cnode_cap boot_mem_reuse_reg slot_pos_before;;
  l ← gets allocated_p_regions;
  o ← device_untypeds l root_cnode_cap slot_pos_before 0;
  match o with
  | None => mret false
  | Some start =>
    ok ← (if negb (start =? PADDR_USER_DEVICE_TOP)
          then create_untypeds_for_region root_cnode_cap true (paddr_to_pptr_reg (mk_region start PADDR_USER_DEVICE_TOP)) slot_pos_before
          else mret true);
    if negb ok then mret false
    else
      slot_pos_after ← gets slot_pos_cur;
      bi_set (λ i, i <| bi_untyped := mk_region slot_pos_before slot_pos_after |>);;
      mret true
  end.

Definition bi_finalise : B unit :=
  slot_pos_start ← gets slot_pos_cur;
  slot_pos_end ← gets slot_pos_max;
  bi_set (λ i, i <| bi_empty := mk_region slot_pos_start slot_pos_end |>).

(** ** The state of a node *)

(** One region of [mem_p_regs], as far as it lies above [floor]. *)
Definition above_floor (floor : Z) (r : region_t) : region_t :=
  mk_region (if r_start r <? floor then floor else r_start r) (if r_end r <? floor then floor else r_end r).

Fixpoint insert_regions (floor : Z) (l : list region_t) : B unit :=
  match l with
  | [] => mret tt
  | r :: l => insert_region (paddr_to_pptr_reg (above_floor floor r));; insert_regions floor l
  end.

Definition init_freemem (ui_p_reg : region_t) (mem_p_regs : list region_t) : B unit :=
  let floor := r_end ui_p_reg in
  modify (λ b, b <| freemem := replicate MAX_NUM_FREEMEM_REG REG_EMPTY |>);;
  insert_regions floor mem_p_regs.

Definition init_allocated_p_regions : B unit := modify (λ b, b <| allocated_p_regions := [] |>).

Definition master_iospace_cap (x86KSnumDrhu : Z) : cap_t := if x86KSnumDrhu =? 0 then cap_null_cap else cap_io_space_cap 0 0.

(** [memcpy] of a block of words. *)
Fixpoint copy_block (dest : Z) (l : list Z) : K unit :=
  match l with
  | [] => mret tt
  | w :: l => word_set dest w;; copy_block (wrap32 (dest + 4)) l
  end.

(** [ui_info_t] *)
Record ui_info_t := mk_ui_info { ui_p_reg : region_t; ui_pv_offset : Z; ui_v_entry : Z }.

Definition SEL4_BOOTINFO_HEADER_PADDING : Z := 0.
Definition SEL4_BOOTINFO_HEADER_X86_VBE : Z := 1.
Definition SEL4_BOOTINFO_HEADER_X86_MBMMAP : Z := 2.
Definition sizeof_BootInfoHeader : Z := 8.
Definition sizeof_BootInfo_VBE : Z := 792.
Definition sizeof_BootInfo_mmap : Z := 1212.
Definition NUM_IO_PORTS : Z := 0x10000.

(** [vbe->vbeMode] *)
Definition vbeMode (vbe : list Z) : Z := default 0 (vbe !! 194%nat).
Definition has_vbe (vbe : list Z) : bool := negb (vbeMode vbe =? 0xffffffff).

(** A block of the boot information with its header. *)
Definition with_header (id len : Z) (block : list Z) : list Z := <[0%nat := id]> (<[1%nat := len]> block).

(** The blocks of the extended boot information; the offset after the last one. *)
Definition write_extra_bi (extra_bi_region : region_t) (vbe mb_mmap : list Z) : B unit :=
  extra_bi_offset ←
    (if has_vbe vbe then
       in_kernel (copy_block (r_start extra_bi_region) (with_header SEL4_BOOTINFO_HEADER_X86_VBE sizeof_BootInfo_VBE vbe));;
       mret sizeof_BootInfo_VBE
     else mret 0);
  in_kernel (copy_block (wrap32 (r_start extra_bi_region + extra_bi_offset)) (with_header SEL4_BOOTINFO_HEADER_X86_MBMMAP sizeof_BootInfo_mmap mb_mmap));;
  let extra_bi_offset := extra_bi_offset + sizeof_BootInfo_mmap in
  in_kernel (copy_block (wrap32 (r_start extra_bi_region + extra_bi_offset))
    [SEL4_BOOTINFO_HEADER_PADDING; wrap32 (wrap32 (r_end extra_bi_region - r_start extra_bi_region) - extra_bi_offset)]).

Section node.
(** Code of the machine: [vtd_init], whether it succeeds; the frequency [tsc_init]
    measures; the code of the idle thread; the number of processors. *)
Variable vtd_init : B bool.
Variable tsc_init idleThreadStart ksNumCPUs : Z.

(** [init_sys_state] after the boot information has been allocated, up to the
    capabilities of the first thread's memory. *)
Definition init_it_memory (root_cnode_cap : cap_t) (ui_info : ui_info_t) (it_v_reg extra_bi_region : region_t)
    (bi_frame_pptr ipcbuf_vptr bi_frame_vptr extra_bi_frame_vptr : Z) : B (option (cap_t * cap_t)) :=
  it_vspace_cap ← create_it_address_space root_cnode_cap it_v_reg;
  if is_null it_vspace_cap then mret None
  else
    create_bi_frame_cap root_cnode_cap it_vspace_cap bi_frame_pptr bi_frame_vptr;;
    extra_bi_ret ← create_frames_of_region root_cnode_cap it_vspace_cap extra_bi_region true
                     (addrFromPPtr (wrap32 (r_start extra_bi_region - extra_bi_frame_vptr)));
    match extra_bi_ret with
    | None => mret None
    | Some pages =>
      bi_set (λ i, i <| bi_extraBIPages := pages |>);;
      ipcbuf_cap ← create_ipcbuf_frame root_cnode_cap it_vspace_cap ipcbuf_vptr;
      if is_null ipcbuf_cap then mret None
      else
        create_frames_ret ← create_frames_of_region root_cnode_cap it_vspace_cap (paddr_to_pptr_reg (ui_p_reg ui_info)) true (ui_pv_offset ui_info);
        match create_frames_ret with
        | None => mret None
        | Some frames =>
          bi_set (λ i, i <| bi_userImageFrames := frames |>);;
          it_ap_cap ← create_it_asid_pool root_cnode_cap;
          if is_null it_ap_cap then mret None
          else
            write_it_asid_pool it_ap_cap it_vspace_cap;;
            mret (Some (it_vspace_cap, ipcbuf_cap))
        end
    end.

(** The part of [init_sys_state] that makes the two threads. *)
Definition init_threads (root_cnode_cap it_vspace_cap ipcbuf_cap : cap_t) (v_entry bi_frame_vptr ipcbuf_vptr : Z) : B bool :=
  bi_set (λ i, i <| bi_archInfo := tsc_init |>);;
  ok ← create_idle_thread idleThreadStart;
  if negb ok then mret false
  else
    initial ← create_initial_thread root_cnode_cap it_vspace_cap v_entry bi_frame_vptr ipcbuf_vptr ipcbuf_cap;
    match initial with
    | None => mret false
    | Some initial => in_kernel (init_core_state initial);; mret true
    end.

(** The end of [init_sys_state]: the IOMMU and the untyped memory. *)
Definition init_untypeds (root_cnode_cap : cap_t) (boot_mem_reuse_reg : region_t) (num_drhu : Z) : B bool :=
  ok ← vtd_init;
  if negb ok then mret false
  else
    levels ← in_kernel (gets (λ k, x86KSnumIOPTLevels (x86 k)));
    bi_set (λ i, i <| bi_numIOPTLevels := levels |>);;
    slot ← root_slot root_cnode_cap seL4_CapIOSpace;
    write_slot slot (master_iospace_cap num_drhu);;
    ok ← create_untypeds root_cnode_cap boot_mem_reuse_reg;
    if negb ok then mret false
    else bi_finalise;; mret true.

(** The result of [create_root_cnode] is not looked at. *)
Definition init_sys_state (mem_p_regs : list region_t) (ui_info : ui_info_t) (boot_mem_reuse_p_reg : region_t) (num_drhu : Z)
    (vbe mb_mmap : list Z) : B bool :=
  let boot_mem_reuse_reg := paddr_to_pptr_reg boot_mem_reuse_p_reg in
  let ui_v_start := wrap32 (r_start (ui_p_reg ui_info) - ui_pv_offset ui_info) in
  let ipcbuf_vptr := wrap32 (r_end (ui_p_reg ui_info) - ui_pv_offset ui_info) in
  let bi_frame_vptr := wrap32 (ipcbuf_vptr + BIT 12) in
  let extra_bi_frame_vptr := wrap32 (bi_frame_vptr + BIT 12) in
  let extra_bi_size := sizeof_BootInfoHeader + (if has_vbe vbe then sizeof_BootInfo_VBE else 0) + sizeof_BootInfo_mmap in
  let it_v_reg := mk_region ui_v_start (ROUND_UP (wrap32 (extra_bi_frame_vptr + extra_bi_size)) 12) in
  init_freemem (ui_p_reg ui_info) mem_p_regs;;
  root_cnode_cap ← create_root_cnode;
  slot ← root_slot root_cnode_cap seL4_CapIOPort;
  write_slot slot (cap_io_port_cap 0 (NUM_IO_PORTS - 1) VPID_INVALID);;
  create_domain_cap root_cnode_cap;;
  ok ← create_irq_cnode;
  if negb ok then mret false
  else
    init_irqs root_cnode_cap;;
    bi_frame_pptr ← allocate_bi_frame 0 ksNumCPUs ipcbuf_vptr;
    if bi_frame_pptr =? 0 then mret false
    else
      extra_bi_region ← allocate_extra_bi_region extra_bi_size;
      if r_start extra_bi_region =? 0 then mret false
      else
        write_extra_bi extra_bi_region vbe mb_mmap;;
        o ← init_it_memory root_cnode_cap ui_info it_v_reg extra_bi_region bi_frame_pptr ipcbuf_vptr bi_frame_vptr extra_bi_frame_vptr;
        match o with
        | None => mret false
        | Some (it_vspace_cap, ipcbuf_cap) =>
          ok ← init_threads root_cnode_cap it_vspace_cap ipcbuf_cap (ui_v_entry ui_info) bi_frame_vptr ipcbuf_vptr;
          if negb ok then mret false else init_untypeds root_cnode_cap boot_mem_reuse_reg num_drhu
        end.
End node.
