(* ===== verification/Provision.v ===== *)
(** The memory the boot code hands to the first thread: how a region is cut into
    untyped objects and where their capabilities go, and the region of the extended
    boot information. *)

From S2P Require Import Prelude Messages Caps Kernel CSpace CNode Scheduler Wakeup Paging VSpace IOSpace Ipc Waiting Signals.
From S2P Require Import Cancel Transfer Endpoint Reply Retype Reset Threads Interrupts Regions Boot.

Lemma wp_bi_set f i (Q : unit → boot_state → Prop) s : bi_frame s = Some i → Q tt (s <| bi_frame := Some (f i) |>) → wp (bi_set f) Q s.
Proof. intros E HQ. unfold wp, bi_set. by rewrite E. Qed.

(** ** Alignment *)

Lemma odd_part p : ∃ k q, 0 ≤ k ∧ Z.pos p = 2 ^ k * (2 * q + 1).
Proof.
  induction p as [p IH|p (k & q & Hk & E)|].
  - exists 0, (Z.pos p). lia.
  - exists (k + 1), q. split; [lia|]. rewrite Z.pow_add_r by lia. lia.
  - exists 0, 0. lia.
Qed.

Lemma lowest_bit k q : 0 ≤ k → Z.land (2 ^ k * (2 * q + 1)) (- (2 ^ k * (2 * q + 1))) = 2 ^ k.
Proof.
  intros Hk. replace (- (2 ^ k * (2 * q + 1))) with (Z.lnot (2 * q) * 2 ^ k) by (unfold Z.lnot; lia).
  rewrite (Z.mul_comm (2 ^ k)), <- !Z.shiftl_mul_pow2, <- Z.shiftl_land by lia.
  replace (Z.land _ _) with 1; [by rewrite Z.shiftl_mul_pow2, Z.mul_1_l by lia|]. rewrite <- Z.ldiff_land.
  apply Z.bits_inj'. intros n Hn. rewrite Z.ldiff_spec. destruct (Z.eq_dec n 0) as [->|Hn0].
  - by rewrite Z.testbit_odd_0, Z.testbit_even_0.
  - replace n with (Z.succ (n - 1)) by lia. rewrite Z.testbit_odd_succ, Z.testbit_even_succ by lia.
    rewrite andb_negb_r. apply Z.bits_above_log2; cbn; lia.
Qed.

(** [ctzl] is the exponent of the largest power of 2 that divides the word. *)
Lemma ctzl_divide s b : 0 < s → 0 ≤ b → 0 ≤ ctzl s ∧ ((2 ^ b | s) ↔ b ≤ ctzl s).
Proof.
  intros Hs Hb. destruct s as [|p|]; try lia. destruct (odd_part p) as (k & q & Hk & E).
  unfold ctzl. rewrite E, lowest_bit, Z.log2_pow2 by lia. split; [done|]. split.
  - intros H. destruct (Z.le_gt_cases b k) as [|Hlt]; [done|]. exfalso.
    replace b with (k + (1 + (b - k - 1))) in H by lia. rewrite !Z.pow_add_r in H by lia.
    apply Z.mul_divide_cancel_l in H; [|pose proof (Z.pow_pos_nonneg 2 k); lia]. destruct H as [z H].
    assert (E2 : (2 * q + 1) mod 2 = 0); [|rewrite Z.add_comm, Z.mul_comm, Z.mod_add in E2; by cbn in E2].
    rewrite H. apply Z.mod_divide; [lia|]. exists (z * 2 ^ (b - k - 1)). lia.
  - intros H. exists (2 ^ (k - b) * (2 * q + 1)). replace k with ((k - b) + b) at 1 by lia. rewrite Z.pow_add_r by lia. lia.
Qed.

(** The alignment of an address, up to the largest size of untyped memory. *)
Definition alignment (s : Z) : Z := if s =? 0 then 29 else Z.min 29 (ctzl s).

Lemma alignment_divide s b : 0 ≤ s → 0 ≤ b ≤ 29 → 0 ≤ alignment s ≤ 29 ∧ ((2 ^ b | s) ↔ b ≤ alignment s).
Proof.
  intros Hs Hb. unfold alignment. destruct (Z.eqb_spec s 0) as [->|Hn].
  - split; [lia|]. split; [lia|intros _; apply Z.divide_0_r].
  - destruct (ctzl_divide s b ltac:(lia) ltac:(lia)) as [H0 H]. split; [lia|]. rewrite H. lia.
Qed.

(** ** Cutting a region *)

(** Pieces that follow each other from [s] on and make up [len] bytes: each is
    aligned to its size.  Addresses wrap around. *)
Fixpoint tiles (s len : Z) (l : list (Z * Z)) : Prop :=
  match l with
  | [] => len = 0
  | (p, b) :: l => p = s ∧ 0 ≤ b ≤ seL4_MaxUntypedBits ∧ (2 ^ b | s) ∧ 2 ^ b ≤ len ∧ tiles (wrap32 (s + 2 ^ b)) (len - 2 ^ b) l
  end.

(** The pieces the loop cuts. *)
Fixpoint cut (fuel : nat) (reg : region_t) : option (list (Z * Z)) :=
  if is_reg_empty reg then Some []
  else
    match fuel with
    | O => None
    | S fuel => let b := untyped_size_bits reg in
                ((r_start reg, b) ::.) <$> cut fuel (reg <| r_start ::= λ s, wrap32 (s + BIT b) |>)
    end.

Lemma untyped_size_bits_min s e : is_word s → 0 < wrap32 (e - s) →
  untyped_size_bits (mk_region s e) = Z.min (Z.log2 (wrap32 (e - s))) (alignment s).
Proof.
  intros Hs Hl. unfold untyped_size_bits, clzl, alignment, seL4_MaxUntypedBits. cbn [r_start r_end]. set (len := wrap32 _) in *.
  replace (32 - 1 - (31 - Z.log2 len)) with (Z.log2 len) by lia. destruct (Z.eqb_spec s 0) as [->|]; cbn [negb].
  - rewrite Z.ltb_irrefl. destruct (Z.ltb_spec 29 (Z.log2 len)); lia.
  - destruct (Z.ltb_spec (ctzl s) (Z.log2 len)); [destruct (Z.ltb_spec 29 (ctzl s))|destruct (Z.ltb_spec 29 (Z.log2 len))]; lia.
Qed.

(** How many pieces are left at most: while the alignment grows, while pieces have
    the largest size, while sizes fall. *)
Definition cuts_left (s len : Z) : Z :=
  if len =? 0 then 0
  else if len <? 2 ^ alignment s then Z.log2 len + 1
  else if alignment s =? 29 then len / 2 ^ 29 + 30
  else (29 - alignment s) + 38.

Lemma word_divide b x : 0 ≤ b ≤ 32 → (2 ^ b | x) → (2 ^ b | wrap32 x).
Proof.
  intros Hb [y ->]. unfold wrap32. change word_mod with (2 ^ 32). replace 32 with (b + (32 - b)) by lia.
  rewrite Z.pow_add_r, Z.mul_comm, Z.mul_mod_distr_l by (try apply Z.pow_nonzero; lia). by exists (y mod 2 ^ (32 - b)); lia.
Qed.

(** One step of the loop. *)
Lemma cut_step s len b : is_word s → 0 < len < 2 ^ 32 → b = Z.min (Z.log2 len) (alignment s) →
  0 ≤ b ≤ 29 ∧ (2 ^ b | s) ∧ 2 ^ b ≤ len ∧ 0 ≤ cuts_left (wrap32 (s + 2 ^ b)) (len - 2 ^ b) < cuts_left s len.
Proof.
  intros Hs Hl ->. set (b := Z.min _ _). set (s' := wrap32 (s + 2 ^ b)). assert (Hs0 : 0 ≤ s) by apply Hs.
  assert (Hal : ∀ x y, 0 ≤ x → 0 ≤ y ≤ 29 → 0 ≤ alignment x ≤ 29 ∧ ((2 ^ y | x) ↔ y ≤ alignment x)) by (intros; by apply alignment_divide).
  pose proof (Z.log2_nonneg len). destruct (Z.log2_spec len ltac:(lia)) as [Hl1 Hl2]. rewrite Z.pow_succ_r in Hl2 by lia.
  destruct (Hal s 0 Hs0) as [Ha _]; [lia|]. assert (Hb : 0 ≤ b ≤ 29) by lia.
  assert (Hd : (2 ^ b | s)) by (apply (Hal s b Hs0 Hb); lia).
  assert (Hbl : 2 ^ b ≤ len) by (transitivity (2 ^ Z.log2 len); [apply Z.pow_le_mono_r; lia|done]).
  assert (Hs' : 0 ≤ s') by apply wrap32_range. destruct (Hal s' 0 Hs') as [Ha' _]; [lia|]. pose proof (Z.pow_pos_nonneg 2 b) as Hp.
  assert (Hsame : b ≤ alignment s') by (apply (Hal s' b Hs' Hb), word_divide; [lia|by apply Z.divide_add_r]).
  split_and!; try lia; try done.
  { unfold cuts_left. destruct (_ =? 0); [lia|]. destruct (_ <? _); [pose proof (Z.log2_nonneg (len - 2 ^ b)); lia|].
    destruct (_ =? _); [|lia]. pose proof (Z.div_pos (len - 2 ^ b) (2 ^ 29)). lia. }
  assert (Hdiv : (len - 2 ^ b) / 2 ^ 29 ≤ 7). { apply Z.lt_succ_r, Z.div_lt_upper_bound; lia. }
  assert (Hlog : len - 2 ^ b < 2 ^ alignment s' → len - 2 ^ b ≠ 0 → Z.log2 (len - 2 ^ b) < alignment s') by (intros; apply Z.log2_lt_pow2; lia).
  unfold cuts_left. destruct (Z.eqb_spec len 0); [lia|]. destruct (Z.ltb_spec len (2 ^ alignment s)) as [Hc|Hc].
  - (* falling sizes *)
    assert (Eb : b = Z.log2 len). { apply Z.min_l, Z.lt_le_incl, Z.log2_lt_pow2; lia. }
    destruct (Z.eqb_spec (len - 2 ^ b) 0); [lia|]. assert (len - 2 ^ b < 2 ^ b) by (rewrite Eb; lia).
    assert (2 ^ b ≤ 2 ^ alignment s') by (apply Z.pow_le_mono_r; lia). destruct (Z.ltb_spec (len - 2 ^ b) (2 ^ alignment s')); [|lia].
    assert (Z.log2 (len - 2 ^ b) < b) by (apply Z.log2_lt_pow2; lia). lia.
  - assert (Eb : b = alignment s) by (apply Z.min_r, Z.log2_le_pow2; lia).
    destruct (Z.eqb_spec (alignment s) 29) as [E|E].
    + (* the largest size *)
      assert (E' : alignment s' = 29) by lia. rewrite E'. rewrite E in *. rewrite Eb in *.
      replace (len - 2 ^ 29) with (len + (-1) * 2 ^ 29) in * by lia. rewrite Z.div_add in * by lia.
      assert (0 ≤ len / 2 ^ 29) by (apply Z.div_pos; lia). destruct (_ =? 0) eqn:E0; [lia|]. apply Z.eqb_neq in E0.
      destruct (Z.ltb_spec (len + -1 * 2 ^ 29) (2 ^ 29)); [|change (29 =? 29) with true; cbn match; lia]. rewrite E' in Hlog. specialize (Hlog ltac:(lia) ltac:(lia)). lia.
    + (* the alignment grows *)
      assert (Hup : alignment s < alignment s').
      { assert (Hn : ¬ (2 ^ (b + 1) | s)) by (rewrite (proj2 (Hal s (b + 1) Hs0 ltac:(lia))); lia).
        enough (b + 1 ≤ alignment s') by lia. apply (Hal s' (b + 1) Hs'); [lia|]. apply word_divide; [lia|]. destruct Hd as [z Hz].
        rewrite Z.pow_add_r in * by lia. destruct (Z.Even_or_Odd z) as [[w ->]|[w ->]]; [exfalso; apply Hn; exists w; lia|exists (w + 1); lia]. }
      destruct (Z.eqb_spec (len - 2 ^ b) 0); [lia|]. destruct (Z.ltb_spec (len - 2 ^ b) (2 ^ alignment s')); [specialize (Hlog ltac:(lia) ltac:(lia)); lia|].
      destruct (Z.eqb_spec (alignment s') 29); lia.
Qed.

Lemma cut_enough fuel : ∀ s e, is_word s → is_word e → cuts_left s (wrap32 (e - s)) ≤ Z.of_nat fuel →
  ∃ l, cut fuel (mk_region s e) = Some l ∧ tiles s (wrap32 (e - s)) l ∧ Z.of_nat (length l) ≤ cuts_left s (wrap32 (e - s)).
Proof.
  assert (Hempty : ∀ s e, is_word s → is_word e → is_reg_empty (mk_region s e) = true ↔ wrap32 (e - s) = 0).
  { intros s e [??] [??]. unfold is_reg_empty, wrap32. cbn [r_start r_end]. rewrite Z.eqb_eq. change word_mod with (2 ^ 32) in *. split; [intros ->; by rewrite Z.sub_diag|].
    intros H3. apply Z.mod_divide in H3 as [z Hz]; [|lia]. assert (z = 0) by nia. lia. }
  induction fuel as [|fuel IH]; intros s e Hs He Hf; cbn [cut]; specialize (Hempty s e Hs He); destruct (is_reg_empty _).
  1, 3: exists []; rewrite (proj1 Hempty eq_refl); by split_and!.
  - exfalso. assert (wrap32 (e - s) ≠ 0) by (intros E; by apply Hempty in E). destruct (wrap32_range (e - s)) as [Hr1 Hr2].
    change word_mod with (2 ^ 32) in Hr2. destruct (cut_step s (wrap32 (e - s)) _ Hs ltac:(lia) eq_refl) as (_ & _ & _ & ?). lia.
  - assert (Hne : wrap32 (e - s) ≠ 0) by (intros E; by apply Hempty in E). destruct (wrap32_range (e - s)) as [Hr1 Hr2]. change word_mod with (2 ^ 32) in Hr2.
    rewrite untyped_size_bits_min by (done || lia). set (b := Z.min _ _).
    destruct (cut_step s (wrap32 (e - s)) b Hs ltac:(lia) eq_refl) as (Hb & Hd & Hle & Hst).
    assert (Hlen : wrap32 (e - wrap32 (s + 2 ^ b)) = wrap32 (e - s) - 2 ^ b).
    { pose proof (Z.pow_pos_nonneg 2 b). unfold wrap32 in *. change word_mod with (2 ^ 32) in *. rewrite Zminus_mod_idemp_r.
      replace (e - (s + 2 ^ b)) with (e - s - 2 ^ b) by lia. rewrite <- Zminus_mod_idemp_l. apply Z.mod_small. lia. }
    destruct (IH (wrap32 (s + 2 ^ b)) e) as (l & El & Ht & Hlen'); [apply wrap32_range|done|rewrite Hlen; lia|]. rewrite Hlen in *.
    exists ((s, b) :: l). rewrite BIT_pow2 by lia. change (mk_region s e <| r_start ::= _ |>) with (mk_region (wrap32 (s + 2 ^ b)) e).
    rewrite El. split_and!; [done| |cbn [length]; lia]. cbn [tiles]. by split_and!; try (unfold seL4_MaxUntypedBits; lia).
Qed.

(** The fuel of the loop is enough for every region. *)
Lemma cuts_left_bound s len : 0 ≤ s → 0 ≤ len < 2 ^ 32 → cuts_left s len ≤ 67.
Proof.
  intros Hs Hl. unfold cuts_left. destruct (alignment_divide s 0) as [Ha _]; [done|lia|]. destruct (Z.eqb_spec len 0); [lia|].
  assert (Z.log2 len < 32) by (apply Z.log2_lt_pow2; lia). destruct (_ <? _); [lia|].
  assert (len / 2 ^ 29 < 8) by (apply Z.div_lt_upper_bound; lia). destruct (_ =? _); lia.
Qed.

(** ** Handing the pieces out *)

(** The capabilities of the root CNode; the next slot is one of its slots, at or
    after the first slot of untyped memory. *)
Record root_cnode_ok (cptr first : Z) (s : boot_state) : Prop := {
  rc_word : is_word cptr;
  rc_slots : ∀ i, 0 ≤ i < slot_pos_max s → is_Some (ctes (kernel s) !! cte_index cptr i);
  rc_pos : 0 ≤ first ≤ slot_pos_cur s ∧ slot_pos_cur s ≤ slot_pos_max s ≤ 2 ^ 16;
  rc_bi : ∃ i, bi_frame s = Some i ∧ length (bi_untypedList i) = Z.to_nat CONFIG_MAX_NUM_BOOTINFO_UNTYPED_CAPS
}.

(** The entry of the list for a piece, and its capability. *)
Definition piece_desc (dev : bool) (x : Z * Z) : untyped_desc := mk_untyped_desc (addrFromPPtr (fst x)) (snd x) dev.
Definition piece_cte (dev : bool) (x : Z * Z) : cte_t :=
  mk_cte (cap_untyped_cap (MAX_FREE_INDEX (snd x)) dev (snd x) (fst x)) (mdb_node_new 0 true true 0).

Definition untyped_entry (s : boot_state) (i : Z) : option untyped_desc := bi_frame s ≫= λ f, bi_untypedList f !! Z.to_nat i.

(** The pieces have the next slots, and the entries of the list that belong to these
    slots describe them; the other slots and the entries before are as they were, and
    so is the rest of the state. *)
Record handed (cptr : Z) (dev : bool) (first : Z) (put : list (Z * Z)) (s s' : boot_state) : Prop := {
  hd_pos : slot_pos_cur s' = slot_pos_cur s + Z.of_nat (length put);
  hd_caps : ∀ (j : nat) x, put !! j = Some x → ctes (kernel s') !! cte_index cptr (slot_pos_cur s + Z.of_nat j) = Some (piece_cte dev x);
  hd_list : ∀ (j : nat) x, put !! j = Some x → untyped_entry s' (slot_pos_cur s - first + Z.of_nat j) = Some (piece_desc dev x);
  hd_other : ∀ a, (∀ j : nat, (j < length put)%nat → a ≠ cte_index cptr (slot_pos_cur s + Z.of_nat j)) → ctes (kernel s') !! a = ctes (kernel s) !! a;
  hd_before : ∀ i, 0 ≤ i < slot_pos_cur s - first → untyped_entry s' i = untyped_entry s i;
  hd_rest : s' <| kernel ::= (λ k, k <| ctes := ∅ |>) |> <| bi_frame ::= fmap (λ i, i <| bi_untypedList := [] |>) |> <| slot_pos_cur := 0 |> =
            s <| kernel ::= (λ k, k <| ctes := ∅ |>) |> <| bi_frame ::= fmap (λ i, i <| bi_untypedList := [] |>) |> <| slot_pos_cur := 0 |>
}.

Lemma handed_nil cptr dev first s : handed cptr dev first [] s s.
Proof. split; try done. cbn. lia. Qed.

Lemma cte_index_apart p i j : 0 ≤ i < 2 ^ 16 → 0 ≤ j < 2 ^ 16 → cte_index p i = cte_index p j → i = j.
Proof.
  intros Hi Hj E. unfold cte_index, wrap32 in E. change word_mod with (2 ^ 32) in E.
  assert (H : ((p + 16 * i) - (p + 16 * j)) mod 2 ^ 32 = 0) by (by rewrite Zminus_mod, E, Z.sub_diag).
  apply Z.mod_divide in H as [z Hz]; [|lia]. assert (z = 0) by nia. lia.
Qed.

(** What one call of [provide_untyped_cap] does while the list has room. *)
Definition listed (first : Z) (dev : bool) (x : Z * Z) (s : boot_state) : boot_state :=
  s <| bi_frame ::= fmap (λ f, f <| bi_untypedList ::= <[Z.to_nat (slot_pos_cur s - first) := piece_desc dev x]> |>) |>.
Definition given (cptr : Z) (dev : bool) (x : Z * Z) (s : boot_state) : boot_state :=
  s <| kernel ::= (λ k, k <| ctes ::= <[cte_index cptr (slot_pos_cur s) := piece_cte dev x]> |>) |> <| slot_pos_cur ::= Z.succ |>.

Lemma root_cnode_given cptr dev first x s : root_cnode_ok cptr first s → slot_pos_cur s < slot_pos_max s →
  root_cnode_ok cptr first (given cptr dev x (listed first dev x s)).
Proof.
  intros [Hw Hs Hp (i & Ei & El)] Hlt. destruct s as [k fm bi cur mx ap]. cbn in *. subst bi. split; try done.
  - intros j Hj. change (is_Some (<[cte_index cptr cur := piece_cte dev x]> (ctes k) !! cte_index cptr j)).
    destruct (decide (cte_index cptr cur = cte_index cptr j)) as [E|Hne]; [|rewrite lookup_insert_ne by done; by apply Hs].
    rewrite E, lookup_insert_eq. by eexists.
  - change (0 ≤ first ≤ Z.succ cur ∧ Z.succ cur ≤ mx ≤ 2 ^ 16). lia.
  - eexists. split; [done|]. etransitivity; [|exact El]. apply length_insert.
Qed.

Lemma handed_given cptr dev first x put s s' : root_cnode_ok cptr first s → slot_pos_cur s < slot_pos_max s →
  slot_pos_cur s - first < CONFIG_MAX_NUM_BOOTINFO_UNTYPED_CAPS → slot_pos_cur s + Z.of_nat (length put) < slot_pos_max s →
  handed cptr dev first put (given cptr dev x (listed first dev x s)) s' → handed cptr dev first (x :: put) s s'.
Proof.
  intros [Hw Hs Hp (i & Ei & El)] Hlt Hi Hlen H.
  destruct s as [k fm bi cur mx ap], H as [H1 H2 H3 H4 H5 H6]. cbn in *. subst bi.
  change (slot_pos_cur (given _ _ _ _)) with (Z.succ cur) in *. split; cbn [kernel slot_pos_cur length].
  - lia.
  - intros [|j] y Hy; [injection Hy as <-|]; cycle 1.
    { rewrite <- (H2 j y Hy). do 2 f_equal. lia. }
    rewrite Z.add_0_r, H4; [apply (lookup_insert_eq (ctes k))|]. intros j Hj E%cte_index_apart; lia.
  - intros [|j] y Hy; [injection Hy as <-|]; cycle 1.
    { rewrite <- (H3 j y Hy). f_equal. lia. }
    rewrite Z.add_0_r, H5 by lia. change (<[Z.to_nat (cur - first) := piece_desc dev x]> (bi_untypedList i) !! Z.to_nat (cur - first) = Some (piece_desc dev x)).
    apply list_lookup_insert_eq. rewrite El. lia.
  - intros a Ha. rewrite H4; [apply (lookup_insert_ne (ctes k)); intros E; apply (Ha O); [lia|by rewrite Z.add_0_r]|].
    intros j Hj E. apply (Ha (S j)); [lia|]. rewrite E. f_equal. lia.
  - intros j Hj. rewrite H5 by lia. change (<[Z.to_nat (cur - first) := piece_desc dev x]> (bi_untypedList i) !! Z.to_nat j = bi_untypedList i !! Z.to_nat j).
    apply list_lookup_insert_ne. lia.
  - rewrite H6. done.
Qed.

Lemma handed_listed cptr dev first put x s s' : 0 ≤ first ≤ slot_pos_cur s → handed cptr dev first put s s' →
  handed cptr dev first put s (listed first dev x s').
Proof.
  intros Hf [H1 H2 H3 H4 H5 H6]. destruct s' as [k fm bi cur mx ap]. cbn in *.
  assert (Hsame : ∀ j, 0 ≤ j < cur - first → untyped_entry (listed first dev x (mk_boot k fm bi cur mx ap)) j = untyped_entry (mk_boot k fm bi cur mx ap) j).
  { intros j Hj. destruct bi as [i|]; [|done]. change (<[Z.to_nat (cur - first) := piece_desc dev x]> (bi_untypedList i) !! Z.to_nat j = bi_untypedList i !! Z.to_nat j).
    apply list_lookup_insert_ne. lia. }
  split; try done.
  - intros j y Hy. rewrite Hsame; [by apply H3|]. apply lookup_lt_Some in Hy. lia.
  - intros j Hj. rewrite Hsame by lia. by apply H5.
  - rewrite <- H6. by destruct bi.
Qed.

Section hand_out.
Variables (root_cnode_cap : cap_t) (cptr : Z) (dev : bool) (first : Z).
Hypothesis root_ptr : cap_get_capPtr root_cnode_cap = Done cptr.

Lemma wp_provide_cap cap s (Q : bool → boot_state → Prop) : root_cnode_ok cptr first s →
  (slot_pos_max s ≤ slot_pos_cur s → Q false s) →
  (slot_pos_cur s < slot_pos_max s → Q true (s <| kernel ::= (λ k, k <| ctes ::= <[cte_index cptr (slot_pos_cur s) := mk_cte cap (mdb_node_new 0 true true 0)]> |>) |>
     <| slot_pos_cur ::= Z.succ |>)) →
  wp (provide_cap root_cnode_cap cap) Q s.
Proof.
  intros [Hw Hs Hp _] H0 H1. unfold provide_cap. apply wp_bind, wp_gets, wp_bind, wp_gets.
  destruct (Z.leb_spec (slot_pos_max s) (slot_pos_cur s)); [apply wp_ret; auto|].
  apply wp_bind. unfold root_slot. apply wp_bind. unfold lift. rewrite root_ptr. apply wp_ret.
  destruct (Hs (slot_pos_cur s)) as [e He]; [lia|]. apply wp_bind. unfold write_slot, in_kernel. apply wp_zoom. eapply wp_cte_set; [done|].
  apply wp_bind, wp_modify, wp_ret. set (s1 := _ <| kernel := _ |>).
  replace (s1 <| slot_pos_cur ::= λ c, wrap32 (c + 1) |>) with (s1 <| slot_pos_cur ::= Z.succ |>); [apply H1; lia|].
  unfold update. cbn. f_equal. symmetry. apply wrap32_small. unfold is_word. change word_mod with (2 ^ 32). lia.
Qed.

Lemma wp_provide_untyped_cap x s (Q : bool → boot_state → Prop) : root_cnode_ok cptr first s →
  (CONFIG_MAX_NUM_BOOTINFO_UNTYPED_CAPS ≤ slot_pos_cur s - first → Q true s) →
  (slot_pos_cur s - first < CONFIG_MAX_NUM_BOOTINFO_UNTYPED_CAPS → slot_pos_cur s = slot_pos_max s → Q false (listed first dev x s)) →
  (slot_pos_cur s - first < CONFIG_MAX_NUM_BOOTINFO_UNTYPED_CAPS → slot_pos_cur s < slot_pos_max s → Q true (given cptr dev x (listed first dev x s))) →
  wp (provide_untyped_cap root_cnode_cap dev (fst x) (snd x) first) Q s.
Proof.
  intros Hok Hskip Hfull Hput. pose proof Hok as [_ _ Hp (i & Ei & El)]. unfold provide_untyped_cap. apply wp_bind, wp_gets.
  rewrite wrap32_small by (unfold is_word; change word_mod with (2 ^ 32); lia).
  destruct (Z.ltb_spec (slot_pos_cur s - first) CONFIG_MAX_NUM_BOOTINFO_UNTYPED_CAPS); [|apply wp_ret; auto].
  apply wp_bind. eapply wp_bi_set; [done|].
  change (wp (provide_cap root_cnode_cap (cte_cap (piece_cte dev x))) Q (s <| bi_frame := Some (i <| bi_untypedList ::= <[Z.to_nat (slot_pos_cur s - first) := piece_desc dev x]> |>) |>)).
  replace (s <| bi_frame := _ |>) with (listed first dev x s) by (unfold listed, update; cbn; by rewrite Ei).
  apply wp_provide_cap; [|intros; apply Hfull; [done|]|intros; by apply Hput].
  - destruct Hok as [Hw Hs _ _]. split; try done. exists (i <| bi_untypedList ::= <[Z.to_nat (slot_pos_cur s - first) := piece_desc dev x]> |>).
    split; [unfold listed, update; cbn; by rewrite Ei|]. etransitivity; [|exact El]. apply length_insert.
  - change (slot_pos_max s ≤ slot_pos_cur s) in H0. lia.
Qed.

(** The pieces large enough to be objects, and how many the list has room for. *)
Definition large_pieces (l : list (Z * Z)) : list (Z * Z) := filter (λ x, seL4_MinUntypedBits ≤ snd x) l.
Definition list_room (s : boot_state) : nat := Z.to_nat (CONFIG_MAX_NUM_BOOTINFO_UNTYPED_CAPS - (slot_pos_cur s - first)).

Lemma wp_untypeds_loop fuel : ∀ reg l s, cut fuel reg = Some l → root_cnode_ok cptr first s →
  wp (untypeds_loop fuel root_cnode_cap dev reg first) (λ ok s', ∃ put, handed cptr dev first put s s' ∧
    slot_pos_cur s + Z.of_nat (length put) ≤ slot_pos_max s ∧
    if ok : bool then put = take (list_room s) (large_pieces l)
    else slot_pos_cur s' = slot_pos_max s ∧ put `prefix_of` take (list_room s) (large_pieces l)) s.
Proof.
  induction fuel as [|fuel IH]; intros reg l s Hcut Hok; cbn [cut untypeds_loop] in *; pose proof (rc_pos _ _ _ Hok) as Hp; destruct (is_reg_empty reg).
  1, 3: injection Hcut as <-; apply wp_ret; exists []; split_and!; [apply handed_nil|cbn; lia|change (large_pieces []) with (@nil (Z * Z)); by rewrite take_nil].
  - done.
  - set (b := untyped_size_bits reg) in *. apply fmap_Some in Hcut as (l' & Hcut & ->). apply wp_bind.
    assert (Hskip : wp (untypeds_loop fuel root_cnode_cap dev (reg <| r_start ::= λ s, wrap32 (s + BIT b) |>) first) (λ ok s', ∃ put, handed cptr dev first put s s' ∧
      slot_pos_cur s + Z.of_nat (length put) ≤ slot_pos_max s ∧
      if ok : bool then put = take (list_room s) (large_pieces l') else slot_pos_cur s' = slot_pos_max s ∧ put `prefix_of` take (list_room s) (large_pieces l')) s).
    { by apply IH. }
    unfold large_pieces at 1 2. rewrite filter_cons. cbn [snd]. destruct (Z.leb_spec seL4_MinUntypedBits b) as [Hb|Hb]; cycle 1.
    { apply wp_ret. cbn [negb]. rewrite decide_False by lia. exact Hskip. }
    rewrite decide_True by done. apply (wp_provide_untyped_cap (r_start reg, b)); [done|intros Hfull|intros Hroom Hend|intros Hroom Hlt]; cbn [negb].
    + replace (list_room s) with O in * by (unfold list_room; lia). exact Hskip.
    + apply wp_ret. exists []. split_and!; [apply handed_listed; [lia|apply handed_nil]|cbn; lia|done|apply prefix_nil].
    + assert (Hr : list_room s = S (list_room (given cptr dev (r_start reg, b) (listed first dev (r_start reg, b) s)))).
      { unfold list_room. change (slot_pos_cur (given _ _ _ _)) with (Z.succ (slot_pos_cur s)). lia. }
      rewrite Hr. cbn [take]. eapply wp_mono; [apply (IH _ l'); [done|by apply root_cnode_given]|].
      intros ok s' (put & Hput & Hlen & Hres). change (slot_pos_cur (given _ _ _ _)) with (Z.succ (slot_pos_cur s)) in Hlen.
      change (slot_pos_max (given _ _ _ _)) with (slot_pos_max s) in Hlen, Hres.
      exists ((r_start reg, b) :: put). split_and!; [apply handed_given; try done; lia|cbn [length]; lia|].
      destruct ok; [by rewrite Hres|]. destruct Hres as [He Hpre]. split; [done|by apply prefix_cons].
Qed.
End hand_out.

(** C12: [create_untypeds_for_region].  A region of any words is cut into pieces that
    follow each other, fill it exactly and are aligned to their sizes; the loop ends
    after at most 67 of them.  The pieces of at least 16 bytes are handed out in their
    order, to consecutive slots of the root CNode and with their entries in the list
    of the boot information, until that list is full.  The result is false only when
    the root CNode is full, and then a prefix of them has been handed out. *)
Theorem create_untypeds_for_region_correct root_cnode_cap cptr dev reg first s :
  cap_get_capPtr root_cnode_cap = Done cptr → root_cnode_ok cptr first s → is_word (r_start reg) → is_word (r_end reg) →
  ∃ l, tiles (r_start reg) (reg_size reg) l ∧ (length l ≤ 67)%nat ∧
    wp (create_untypeds_for_region root_cnode_cap dev reg first) (λ ok s', ∃ put, handed cptr dev first put s s' ∧
      if ok : bool then put = take (list_room first s) (large_pieces l)
      else slot_pos_cur s' = slot_pos_max s ∧ put `prefix_of` take (list_room first s) (large_pieces l)) s.
Proof.
  intros Hc Hok Hs He. destruct (wrap32_range (r_end reg - r_start reg)) as [Hl1 Hl2]. change word_mod with (2 ^ 32) in Hl2.
  pose proof (cuts_left_bound (r_start reg) (wrap32 (r_end reg - r_start reg)) ltac:(apply Hs) ltac:(lia)).
  destruct (cut_enough untypeds_fuel (r_start reg) (r_end reg) Hs He) as (l & Hcut & Ht & Hlen); [unfold untypeds_fuel; lia|].
  exists l. split_and!; [done|lia|]. eapply wp_mono; [apply (wp_untypeds_loop root_cnode_cap cptr dev first Hc untypeds_fuel reg l s); [by destruct reg|done]|].
  intros ok s' (put & Hput & _ & Hres). by exists put.
Qed.

(** Four slots of a root CNode, the first of them taken. *)
Definition small_cnode : boot_state :=
  mk_boot (cold_kernel <| ctes := zero_slots 4 0x2000 ∅ |>) [] (Some zero_bootinfo) 1 4 [].

Lemma small_cnode_ok : root_cnode_ok 0x2000 1 small_cnode.
Proof.
  split; [done| |cbn; lia|by eexists]. intros i Hi. change (0 ≤ i < 4) in Hi.
  assert (i = 0 ∨ i = 1 ∨ i = 2 ∨ i = 3) as [->|[->|[->| ->]]] by lia; by eexists.
Qed.

(** Eight bytes are too few; then 4096, 8192 and 16 bytes are handed out. *)
Lemma create_untypeds_for_region_correct_witness :
  fst (create_untypeds_for_region (cap_cnode_cap 2 30 0 0x2000) false (mk_region 0xe0000ff8 0xe0004010) 1 small_cnode) = Done true ∧
  ∃ l, tiles 0xe0000ff8 0x3018 l ∧ (length l ≤ 67)%nat.
Proof.
  split; [vm_compute; reflexivity|].
  destruct (create_untypeds_for_region_correct (cap_cnode_cap 2 30 0 0x2000) 0x2000 false (mk_region 0xe0000ff8 0xe0004010) 1 small_cnode
    eq_refl small_cnode_ok ltac:(done) ltac:(done)) as (l & Ht & Hl & _). by exists l.
Defined.

(** ** The extended boot information *)

(** The size in whole pages. *)
Definition pages_up (n : Z) : Z := 4096 * ((n + 4095) / 4096).

Lemma pages_up_bounds n : 0 < n → n ≤ pages_up n < n + 4096 ∧ 4096 ≤ pages_up n.
Proof.
  intros Hn. unfold pages_up. pose proof (Z.div_mod (n + 4095) 4096 ltac:(lia)). pose proof (Z.mod_pos_bound (n + 4095) 4096 ltac:(lia)). lia.
Qed.

Lemma ROUND_UP_pages n : 0 < n ≤ 2 ^ 32 - 4096 → ROUND_UP n 12 = pages_up n.
Proof.
  intros Hn. destruct (ROUND_UP_done n 12) as (q & Hq & Hq32 & ->); [lia..|]. change (2 ^ 12) with 4096 in *. unfold pages_up.
  pose proof (Z.div_mod (n + 4095) 4096 ltac:(lia)). pose proof (Z.mod_pos_bound (n + 4095) 4096 ltac:(lia)).
  replace ((n + 4095) / 4096) with q by lia. apply Z.mod_small. lia.
Qed.

(** C29: [allocate_extra_bi_region].  When no free region holds an aligned block of
    the largest power of two in the whole pages of [n] bytes, the result is the empty
    region and nothing has changed.  Otherwise the result is such a block: it was
    free and is free no longer, its memory has been cleared, and [extraLen] is its
    size.  The block can be smaller than what was asked for: it holds the [n] bytes
    exactly when their number of pages is a power of two. *)
Theorem allocate_extra_bi_region_bounds n s i :
  0 < n ≤ 2 ^ 32 - 4096 → freemem_ok (freemem s) → ¬ free (freemem s) 0 → bi_frame s = Some i →
  let b := Z.log2 (pages_up n) in
  wp (allocate_extra_bi_region n) (λ r s',
    (r = REG_EMPTY ∧ s' = s ∧ ∀ f q, f ∈ freemem s → ¬ fits_in b f q) ∨
    (∃ f, f ∈ freemem s ∧ fits_in b f (r_start r)) ∧ r_end r = r_start r + 2 ^ b ∧
    (∀ a, in_region_t r a → ¬ free (freemem s') a ∧ empty_at (kernel s') a) ∧
    bi_frame s' = Some (i <| extraLen := 2 ^ b |>) ∧
    2 ^ b ≤ pages_up n < 2 * 2 ^ b ∧ (n ≤ r_end r - r_start r ↔ pages_up n = 2 ^ b)) s.
Proof.
  intros Hn Hfree H0 Hi b. destruct (pages_up_bounds n) as [Hu1 Hu2]; [lia|]. destruct (Z.log2_spec (pages_up n)) as [Hl1 Hl2]; [lia|].
  rewrite Z.pow_succ_r in Hl2 by apply Z.log2_nonneg.
  assert (Hb : 12 ≤ b) by (apply Z.log2_le_pow2; lia).
  assert (Hb32 : b < 32). { apply Z.log2_lt_pow2; [lia|]. rewrite <- ROUND_UP_pages by lia. apply wrap32_range. }
  assert (Hlen4 : ∃ m, 2 ^ b = 4096 * m).
  { exists (2 ^ (b - 12)). change 4096 with (2 ^ 12). rewrite <- Z.pow_add_r by lia. f_equal. lia. }
  assert (Hexact : n ≤ 2 ^ b ↔ pages_up n = 2 ^ b).
  { split; [|fold b in Hl1; lia]. intros Hle. destruct Hlen4 as [m Hm]. fold b in Hl1, Hl2. unfold pages_up in *.
    pose proof (Z.div_mod (n + 4095) 4096 ltac:(lia)). pose proof (Z.mod_pos_bound (n + 4095) 4096 ltac:(lia)). lia. }
  unfold allocate_extra_bi_region. destruct (Z.eqb_spec n 0); [lia|]. rewrite ROUND_UP_pages by lia. unfold clzl.
  replace (32 - 1 - (31 - Z.log2 (pages_up n))) with b by lia.
  apply wp_bind. eapply wp_mono; [apply wp_alloc_region; [lia|done]|]. intros p s1 (Es & Hok1 & Hcase).
  destruct Hcase as [(-> & Ef & Hno)|(f & Hf & Hfit & _ & Hused & _)].
  { apply wp_ret. left. split_and!; [done| |done]. rewrite Es, Ef. by destruct s. }
  assert (Hfok : region_ok f) by (destruct Hfree as [Hall _]; rewrite Forall_forall in Hall; by apply Hall).
  pose proof Hfit as (Hd & Hp1 & Hp2). destruct Hfok as [? ?].
  assert (Hpos : 0 < 2 ^ b) by (apply Z.pow_pos_nonneg; lia).
  destruct (Z.eqb_spec p 0) as [->|Hp]. { destruct H0. exists f. split; [done|]. unfold in_region_t. lia. }
  assert (H4 : (4 | 2 ^ b)) by (destruct Hlen4 as [m ->]; exists (1024 * m); lia).
  assert (HB : BIT b = 2 ^ b) by (apply BIT_pow2; lia).
  apply wp_bind. unfold memzero, in_kernel. apply wp_zoom. apply clearMemory_spec.
  { apply Z.mod_divide; [lia|]. by transitivity (2 ^ b). } { rewrite HB. by apply Z.mod_divide. }
  intros k' Hclear _ _ _. apply wp_bind. eapply wp_bi_set; [by rewrite Es|]. apply wp_ret. right. rewrite HB.
  cbn [r_start r_end]. rewrite wrap32_small by (unfold is_word; change word_mod with (2 ^ 32); lia).
  split_and!; [by exists f|done| |done|done|done|].
  - intros a Ha. change (p ≤ a < p + 2 ^ b) in Ha. split; [intros [_ Hnot]%Hused; by apply Hnot|].
    by apply Hclear, in_region_spec.
  - by replace (p + 2 ^ b - p) with (2 ^ b) by lia.
Qed.

(** For three pages two are allocated; no block of 16 pages is free. *)
Definition bi_boot : boot_state := early_boot <| bi_frame := Some zero_bootinfo |>.
Lemma bi_boot_free : ¬ free (freemem bi_boot) 0.
Proof. intros (r & Hr & Ha). unfold in_region_t in Ha. repeat (apply elem_of_cons in Hr as [->|Hr]; [cbn in Ha; lia|]). by apply elem_of_nil in Hr. Qed.

Lemma allocate_extra_bi_region_bounds_witness :
  fst (allocate_extra_bi_region 8193 bi_boot) = Done (mk_region 0x2000 0x4000) ∧
  fst (allocate_extra_bi_region 65536 bi_boot) = Done REG_EMPTY ∧
  wp (allocate_extra_bi_region 8193) (λ r s', (∃ f, f ∈ freemem bi_boot ∧ fits_in 13 f (r_start r)) ∨
    ∀ f q, f ∈ freemem bi_boot → ¬ fits_in 13 f q) bi_boot.
Proof.
  split; [reflexivity|]. split; [reflexivity|]. eapply wp_mono.
  - apply (allocate_extra_bi_region_bounds 8193 bi_boot zero_bootinfo); [lia|apply demo_freemem_ok|apply bi_boot_free|reflexivity].
  - intros r s' [(_ & _ & H)|[H _]]; [by right|by left].
Defined.
