(* ===== verification/Startup.v ===== *)
(** The first threads: what the boot code leaves for the scheduler and for the first
    thread. *)

From S2P Require Import Prelude Messages Caps Kernel CSpace CNode Scheduler Wakeup Paging VSpace IOSpace Ipc Waiting Signals.
From S2P Require Import Cancel Transfer Endpoint Reply Retype Reset Creation Threads Interrupts Regions Boot Provision.

(** ** Steps *)

Lemma wp_in_kernel {A} (m : K A) (Q : A → boot_state → Prop) s :
  wp m (λ a k', Q a (s <| kernel := k' |>)) (kernel s) → wp (in_kernel m) Q s.
Proof. unfold in_kernel. apply (wp_zoom kernel (λ k b, b <| kernel := k |>)). Qed.

(** A field of the thread that was written last. *)
Lemma wp_tcb_ins t f c m (Q : unit → ks → Prop) k : tcbs k = <[t := c]> m →
  Q tt (k <| tcbs := <[t := f c]> m |>) → wp (tcb_set t f) Q k.
Proof.
  intros E HQ. apply (wp_tcb_set _ _ c); [by rewrite E, lookup_insert_eq|]. unfold update. cbn. by rewrite E, insert_insert_eq.
Qed.

Lemma wp_register_set t r v c m (Q : unit → ks → Prop) k : tcbs k = <[t := c]> m →
  Q tt (k <| tcbs := <[t := c <| registers ::= <[r := v]> |>]> m |>) → wp (setRegister t r v) Q k.
Proof. intros E HQ. by apply (wp_tcb_ins t _ c m). Qed.

(** The state of a thread that is not the current one. *)
Lemma wp_set_state t st c m (Q : unit → ks → Prop) k : tcbs k = <[t := c]> m → t ≠ ksCurThread k →
  Q tt (k <| tcbs := <[t := c <| tsType := st |>]> m |>) → wp (setThreadState t st) Q k.
Proof.
  intros E Hne HQ. apply wp_bind, (wp_tcb_ins t _ c m); [done|]. apply wp_bind, wp_gets, wp_bind, wp_gets.
  destruct (Z.eqb_spec t (ksCurThread (k <| tcbs := <[t := c <| tsType := st |>]> m |>))) as [H|]; [done|]. by apply wp_ret.
Qed.

Ltac set_regs := repeat (apply wp_bind; eapply wp_register_set; [reflexivity|]).

(** The idle thread. *)
Definition idle_tcb (idleThreadStart : Z) : tcb_t :=
  zero_tcb <| tsType := ThreadState_IdleThreadState |>
    <| registers := <[18 := SEL_DS_0]> (<[10 := SEL_DS_0]> (<[9 := SEL_DS_0]> (<[8 := SEL_DS_0]> (<[7 := SEL_DS_0]>
         (<[15 := SEL_CS_0]> (<[NextIP := idleThreadStart]> (<[16 := FLAGS_USER_DEFAULT]> ∅))))))) |>.

Lemma wp_configureIdleThread start t m (Q : unit → ks → Prop) k : tcbs k = <[t := zero_tcb]> m → t ≠ ksCurThread k →
  Q tt (k <| tcbs := <[t := idle_tcb start]> m |>) → wp (configureIdleThread start t) Q k.
Proof.
  intros E Hne HQ. unfold configureIdleThread, Arch_configureIdleThread. apply wp_bind. apply wp_bind. eapply wp_register_set; [exact E|]. set_regs.
  eapply wp_register_set; [reflexivity|]. eapply wp_set_state; [reflexivity|done|]. exact HQ.
Qed.

(** A capability that is not untyped, copied from a slot without children. *)
Lemma wp_cteInsert_fresh newCap src dest sc r fb rev (Q : unit → ks → Prop) k :
  ctes k !! src = Some (mk_cte sc (mdb_node_new 0 r fb 0)) → ctes k !! dest = Some null_slot → src ≠ dest →
  newCapIsRevocable newCap sc = Done rev → is_untyped newCap = false →
  Q tt (k <| ctes := <[src := mk_cte sc (mdb_node_new dest r fb 0)]> (<[dest := mk_cte newCap (mdb_node_new 0 rev rev src)]> (ctes k)) |>) →
  wp (cteInsert newCap src dest) Q k.
Proof.
  intros Hs Hd Hne Hrev Hu HQ. unfold cteInsert. apply wp_bind, (wp_cte_at _ _ _ _ Hs). apply wp_bind. unfold lift, wp at 1. cbn [cte_cap]. rewrite Hrev.
  apply wp_bind. unfold assert_empty. apply wp_bind, (wp_cte_at _ _ _ _ Hd), wp_bind, wp_assert; [done|]. apply wp_assert; [done|].
  apply wp_bind. assert (Hfull : setUntypedCapAsFull sc newCap src = mret tt) by (by destruct sc, newCap). rewrite Hfull. apply wp_ret.
  set (d1 := mk_cte newCap nullMDBNode). set (d2 := mk_cte newCap (mdb_node_new 0 rev rev src)). set (src' := mk_cte sc (mdb_node_new dest r fb 0)).
  apply wp_bind, (wp_cte_set _ _ _ _ _ Hd). apply wp_bind, (wp_cte_set _ _ d1); [apply (lookup_insert_eq (ctes k))|].
  apply wp_bind, (wp_cte_set _ _ (mk_cte sc (mdb_node_new 0 r fb 0))).
  { change (<[dest := d2]> (<[dest := d1]> (ctes k)) !! src = Some (mk_cte sc (mdb_node_new 0 r fb 0))). by rewrite !lookup_insert_ne. }
  apply wp_ret. change (Q tt (k <| ctes := <[src := src']> (<[dest := d2]> (<[dest := d1]> (ctes k))) |>)). by rewrite insert_insert_eq.
Qed.

(** ** The block of a thread *)

Definition cleared (p bits : Z) (k : ks) : ks :=
  k <| tcbs ::= clear_region p bits |> <| ntfns ::= clear_region p bits |>
    <| eps ::= clear_region p bits |> <| ctes ::= clear_region p bits |> <| mem_words ::= clear_region p bits |>.
Definition with_block (p : Z) (k : ks) : ks :=
  cleared p 10 k <| tcbs ::= <[p + TCB_OFFSET := zero_tcb]> |> <| ctes ::= zero_slots tcb_slots p |>.

Record block_ok (p : Z) : Prop := { bl_pos : 0 < p; bl_end : p + 1024 < 2 ^ 32; bl_align : (1024 | p) }.
Definition in_block (p a : Z) : Prop := p ≤ a < p + 1024.

(** A block has been taken from the free memory. *)
Definition block_taken (p : Z) (fm fm' : list region_t) : Prop :=
  freemem_ok fm' ∧ (∀ a, in_block p a → free fm a) ∧ ∀ a, free fm' a → free fm a ∧ ¬ in_block p a.

Lemma wp_alloc_thread {A} (none : A) rest (Q : A → boot_state → Prop) s : freemem_ok (freemem s) → ¬ free (freemem s) 0 →
  ((∀ f q, f ∈ freemem s → ¬ fits_in 10 f q) → Q none s) →
  (∀ p fm', block_ok p → block_taken p (freemem s) fm' → wp (rest p) Q (s <| freemem := fm' |> <| kernel ::= with_block p |>)) →
  wp (p ← alloc_region 10; if p =? 0 then mret none else memzero p 10;; thread_at p;; rest p) Q s.
Proof.
  intros Hok H0 Hnone Hrest. apply wp_bind. eapply wp_mono; [apply wp_alloc_region; [lia|done]|].
  intros p s1 (Es & Hok1 & Hcase). destruct (Z.eqb_spec p 0) as [->|Hp].
  - apply wp_ret. destruct Hcase as [(_ & Ef & Hno)|(f & Hf & (_ & Hp1 & Hp2) & _)].
    + rewrite Es, Ef. replace (s <| freemem := freemem s |>) with s by by destruct s. auto.
    + destruct H0. exists f. split; [done|]. unfold in_region_t. lia.
  - destruct Hcase as [(? & _)|(f & Hf & (Hd & Hp1 & Hp2) & _ & Hused & _)]; [done|]. change (2 ^ 10) with 1024 in *.
    assert (region_ok f) as [? ?] by (destruct Hok as [Hall _]; rewrite Forall_forall in Hall; by apply Hall).
    assert (Hb : block_ok p) by (split; [lia|lia|done]). assert (Hm : p mod 4 = 0) by (destruct Hd as [z ->]; apply Z.mod_divide; [lia|]; exists (256 * z); lia).
    apply wp_bind. unfold memzero. apply wp_in_kernel. unfold clearMemory. apply wp_bind, wp_assert; [by rewrite Hm|].
    apply wp_bind, wp_assert; [done|]. apply wp_modify, wp_bind. unfold thread_at. apply wp_in_kernel, wp_modify.
    specialize (Hrest p (freemem s1) Hb). rewrite wrap32_small by (unfold is_word, TCB_OFFSET; change word_mod with (2 ^ 32); lia).
    rewrite Es. apply Hrest. split_and!; [done|intros a Ha; exists f; split; [done|unfold in_block, in_region_t in *; lia]|done].
Qed.

Lemma block_slot p i : block_ok p → 0 ≤ i < 6 → cte_index p i = p + 16 * i.
Proof. intros [] Hi. apply wrap32_small. unfold is_word. change word_mod with (2 ^ 32). lia. Qed.

Lemma zero_slots_in n : ∀ p m j, 0 ≤ j < Z.of_nat n → zero_slots n p m !! (p + 16 * j) = Some null_slot.
Proof.
  induction n as [|n IH]; intros p m j Hj; [lia|]. cbn [zero_slots]. destruct (Z.eq_dec j 0) as [->|Hne].
  - by rewrite Z.mul_0_r, Z.add_0_r, lookup_insert_eq.
  - rewrite lookup_insert_ne by lia. rewrite <- (IH (p + 16) m (j - 1)) by lia. f_equal. lia.
Qed.

Lemma block_slots p i k : block_ok p → 0 ≤ i < 6 → ctes (with_block p k) !! cte_index p i = Some null_slot.
Proof. intros Hb Hi. rewrite block_slot by done. by apply (zero_slots_in 6). Qed.

Lemma block_outside p a h : ¬ in_block p a → zero_slots tcb_slots p (clear_region p 10 h) !! a = h !! a.
Proof.
  intros Ha. unfold in_block in Ha. rewrite zero_slots_out by (unfold tcb_slots; lia). rewrite clear_region_lookup. by rewrite (proj2 (out_region_spec p 10 a)).
Qed.

(** ** The idle thread *)

Lemma wp_create_idle_thread start (Q : bool → boot_state → Prop) s : freemem_ok (freemem s) → ¬ free (freemem s) 0 → ksCurThread (kernel s) = 0 →
  ((∀ f q, f ∈ freemem s → ¬ fits_in 10 f q) → Q false s) →
  (∀ p s', block_ok p → block_taken p (freemem s) (freemem s') → tcbs (kernel s') = <[p + TCB_OFFSET := idle_tcb start]> (clear_region p 10 (tcbs (kernel s))) →
     ksIdleThread (kernel s') = p + TCB_OFFSET → (∀ a, ¬ in_block p a → ctes (kernel s') !! a = ctes (kernel s) !! a) →
     ksReadyQueues (kernel s') = ksReadyQueues (kernel s) → ksReadyQueuesL1Bitmap (kernel s') = ksReadyQueuesL1Bitmap (kernel s) →
     ksReadyQueuesL2Bitmap (kernel s') = ksReadyQueuesL2Bitmap (kernel s) → ksCurThread (kernel s') = 0 →
     ksDomSchedule (kernel s') = ksDomSchedule (kernel s) → ksDomScheduleIdx (kernel s') = ksDomScheduleIdx (kernel s) → bi_frame s' = bi_frame s → Q true s') →
  wp (create_idle_thread start) Q s.
Proof.
  intros Hok H0 Hcur Hnone Hsome. unfold create_idle_thread. apply wp_alloc_thread; [done..|]. intros p fm' Hb Ht.
  rewrite wrap32_small by (destruct Hb; unfold is_word, TCB_OFFSET; change word_mod with (2 ^ 32); lia).
  apply wp_bind, wp_in_kernel, wp_modify, wp_bind, wp_in_kernel. eapply wp_configureIdleThread; [reflexivity| |].
  - change (p + TCB_OFFSET ≠ ksCurThread (kernel s)). rewrite Hcur. destruct Hb. unfold TCB_OFFSET. lia.
  - apply wp_ret, (Hsome p); try done. intros a Ha. change (zero_slots tcb_slots p (clear_region p 10 (ctes (kernel s))) !! a = ctes (kernel s) !! a). by apply block_outside.
Qed.

(** ** The first thread *)

Definition fresh_slot (c : cap_t) : cte_t := mk_cte c (mdb_node_new 0 true true 0).

Lemma wp_setupReplyMaster_fresh t (Q : unit → ks → Prop) k : ctes k !! TCB_PTR_CTE_PTR t tcbReply = Some null_slot →
  Q tt (k <| ctes := <[TCB_PTR_CTE_PTR t tcbReply := fresh_slot (cap_reply_cap true t)]> (ctes k) |>) → wp (setupReplyMaster t) Q k.
Proof.
  intros Hs HQ. unfold setupReplyMaster. apply wp_bind, (wp_cte_at _ _ _ _ Hs). cbn [is_null cte_cap when]. set (slot := TCB_PTR_CTE_PTR t tcbReply) in *.
  apply wp_bind, (wp_cte_set _ _ _ _ _ Hs). do 2 (apply wp_bind; eapply wp_cte_set; [apply lookup_insert_eq|]). eapply wp_cte_set; [apply lookup_insert_eq|].
  assert (E : ∀ a b c d (h : gmap Z cte_t), <[slot := a]> (<[slot := b]> (<[slot := c]> (<[slot := d]> h))) = <[slot := a]> h) by (intros; by rewrite !insert_insert_eq).
  change (Q tt (k <| ctes := <[slot := fresh_slot (cap_reply_cap true t)]> (<[slot := mk_cte (cap_reply_cap true t) (mdb_node_new 0 true false 0)]>
    (<[slot := mk_cte (cap_reply_cap true t) nullMDBNode]> (<[slot := mk_cte (cap_reply_cap true t) nullMDBNode]> (ctes k)))) |>)). by rewrite E.
Qed.

(** *** A thread in the making

    The thread [t] is [c], the slots are [h]; the other threads, the queues, the
    domains and the memory of the boot code are those of [s0]. *)

Definition boot_rest (s : boot_state) :=
  (ksReadyQueues (kernel s), ksReadyQueuesL1Bitmap (kernel s), ksReadyQueuesL2Bitmap (kernel s), ksCurThread (kernel s), ksIdleThread (kernel s),
   ksDomSchedule (kernel s), ksDomScheduleIdx (kernel s), freemem s, bi_frame s).

Section making.
Variables (t : Z) (others : gmap Z tcb_t) (s0 : boot_state).

Record making (c : tcb_t) (h : gmap Z cte_t) (s : boot_state) : Prop := {
  mk_tcbs : tcbs (kernel s) = <[t := c]> others;
  mk_ctes : ctes (kernel s) = h;
  mk_rest : boot_rest s = boot_rest s0
}.

Lemma making_tcb f c h s (Q : unit → boot_state → Prop) : making c h s → (∀ s', making (f c) h s' → Q tt s') → wp (in_kernel (tcb_set t f)) Q s.
Proof. intros [Ht Hh Hr] HQ. apply wp_in_kernel. eapply wp_tcb_ins; [exact Ht|]. apply HQ. by split. Qed.

Lemma making_register r v c h s (Q : unit → boot_state → Prop) : making c h s →
  (∀ s', making (c <| registers ::= <[r := v]> |>) h s' → Q tt s') → wp (in_kernel (setRegister t r v)) Q s.
Proof. apply making_tcb. Qed.

Lemma making_context c h s (Q : unit → boot_state → Prop) : making c h s →
  (∀ s', making (c <| registers := <[18 := 35]> (<[16 := FLAGS_USER_DEFAULT]> (<[15 := 27]> (<[14 := 0]>
    (<[11 := 0]> (<[13 := 0]> (<[12 := 0]> (Mode_initContext (registers c)))))))) |>) h s' → Q tt s') → wp (in_kernel (Arch_initContext t)) Q s.
Proof. intros [Ht Hh Hr] HQ. apply wp_in_kernel, wp_bind. eapply wp_tcb_ins; [exact Ht|]. apply wp_modify, HQ. by split. Qed.

Lemma making_state st c h s (Q : unit → boot_state → Prop) : t ≠ ksCurThread (kernel s0) → making c h s →
  (∀ s', making (c <| tsType := st |>) h s' → Q tt s') → wp (in_kernel (setThreadState t st)) Q s.
Proof.
  intros Hne [Ht Hh Hr] HQ. apply wp_in_kernel. eapply wp_set_state; [exact Ht| |apply HQ; by split]. unfold boot_rest in Hr. congruence.
Qed.

Lemma making_insert newCap src dest sc r fb c h s (Q : unit → boot_state → Prop) : making c h s →
  h !! src = Some (mk_cte sc (mdb_node_new 0 r fb 0)) → h !! dest = Some null_slot → src ≠ dest →
  newCapIsRevocable newCap sc = Done false → is_untyped newCap = false →
  (∀ s', making c (<[src := mk_cte sc (mdb_node_new dest r fb 0)]> (<[dest := mk_cte newCap (mdb_node_new 0 false false src)]> h)) s' → Q tt s') →
  wp (in_kernel (cteInsert newCap src dest)) Q s.
Proof.
  intros [Ht Hh Hr] Hs Hd Hne Hrev Hu HQ. apply wp_in_kernel. rewrite <- Hh in Hs, Hd. eapply wp_cteInsert_fresh; [exact Hs|exact Hd|done..|].
  apply HQ. split; [done| |done]. by rewrite <- Hh.
Qed.

Lemma making_reply c h s (Q : unit → boot_state → Prop) : making c h s → h !! TCB_PTR_CTE_PTR t tcbReply = Some null_slot →
  (∀ s', making c (<[TCB_PTR_CTE_PTR t tcbReply := fresh_slot (cap_reply_cap true t)]> h) s' → Q tt s') → wp (in_kernel (setupReplyMaster t)) Q s.
Proof.
  intros [Ht Hh Hr] Hs HQ. apply wp_in_kernel. rewrite <- Hh in Hs. apply wp_setupReplyMaster_fresh; [exact Hs|]. apply HQ. split; [done| |done]. by rewrite <- Hh.
Qed.

Lemma making_domain e c h s (Q : Z * Z → boot_state → Prop) : making c h s → ksDomSchedule (kernel s0) !! Z.to_nat (ksDomScheduleIdx (kernel s0)) = Some e →
  Q e s → wp (in_kernel current_domain) Q s.
Proof.
  intros [Ht Hh Hr] He HQ. unfold boot_rest in Hr. simplify_eq Hr. intros. apply wp_in_kernel. unfold current_domain. apply wp_bind, wp_gets, wp_bind, wp_gets.
  replace (ksDomSchedule (kernel s)) with (ksDomSchedule (kernel s0)). replace (ksDomScheduleIdx (kernel s)) with (ksDomScheduleIdx (kernel s0)).
  rewrite He. apply wp_ret. by destruct s.
Qed.
End making.

(** Looks a slot up past slots at other addresses. *)
Ltac slot_apart :=
  let E := fresh in intros E;
  match goal with H : ∀ i j, _ → _ → cte_index ?p i = cte_index ?q j → _ |- _ => apply H in E; (done || discriminate E) end.
Ltac slot_lookup := repeat (rewrite lookup_insert_eq || rewrite lookup_insert_ne by slot_apart).

Section first_thread.
Variables (radix guardSize guard cptr : Z) (pd_mapped : bool) (pd_asid pd_vptr pd : Z) (buf_size buf_asid buf_vptr buf_type : Z) (buf_dev : bool) (buf_rights buf : Z).
Variables (v_entry bi_frame_vptr ipcbuf_vptr domain_time : Z).
Notation root_cnode_cap := (cap_cnode_cap radix guardSize guard cptr).
Notation vspace_cap := (cap_page_directory_cap pd_mapped pd_asid pd_vptr pd).
Notation ipcbuf_cap := (cap_frame_cap buf_size buf_asid buf_vptr buf_type buf_dev buf_rights buf).
Notation buffer_cap := (cap_frame_cap buf_size 0 buf_vptr X86_MappingNone buf_dev buf_rights buf).

(** The capabilities the first thread gets are in the root CNode, which is not in the
    free memory; the first domain is scheduled. *)
Record caps_ready (s : boot_state) : Prop := {
  cr_cnode : ctes (kernel s) !! cte_index cptr seL4_CapInitThreadCNode = Some (fresh_slot root_cnode_cap);
  cr_vspace : ctes (kernel s) !! cte_index cptr seL4_CapInitThreadVSpace = Some (fresh_slot vspace_cap);
  cr_buffer : ctes (kernel s) !! cte_index cptr seL4_CapInitThreadIPCBuffer = Some (fresh_slot ipcbuf_cap);
  cr_tcb : is_Some (ctes (kernel s) !! cte_index cptr seL4_CapInitThreadTCB);
  cr_kept : ∀ i, 0 ≤ i < seL4_NumInitialCaps → ¬ free (freemem s) (cte_index cptr i);
  cr_domain : ksDomSchedule (kernel s) !! Z.to_nat (ksDomScheduleIdx (kernel s)) = Some (0, domain_time) ∧ 0 < domain_time
}.

Definition initial_tcb : tcb_t :=
  zero_tcb <| tsType := ThreadState_Running |> <| tcbTimeSlice := CONFIG_TIME_SLICE |> <| tcbIPCBuffer := ipcbuf_vptr |>
    <| tcbPriority := seL4_MaxPrio |> <| tcbMCP := seL4_MaxPrio |>
    <| registers := <[NextIP := v_entry]> (<[capRegister := bi_frame_vptr]>
         (<[18 := 35]> (<[16 := FLAGS_USER_DEFAULT]> (<[15 := 27]> (<[14 := 0]> (<[11 := 0]> (<[13 := 0]> (<[12 := 0]> (Mode_initContext ∅))))))))) |>.

(** The slots of the thread's block and of the root CNode that are used. *)
Record slots_of (p : Z) (h : gmap Z cte_t) : Prop := {
  sl_cnode : h !! cte_index p tcbCTable = Some (mk_cte root_cnode_cap (mdb_node_new 0 false false (cte_index cptr seL4_CapInitThreadCNode)));
  sl_vspace : h !! cte_index p tcbVTable = Some (mk_cte vspace_cap (mdb_node_new 0 false false (cte_index cptr seL4_CapInitThreadVSpace)));
  sl_buffer : h !! cte_index p tcbBuffer = Some (mk_cte buffer_cap (mdb_node_new 0 false false (cte_index cptr seL4_CapInitThreadIPCBuffer)));
  sl_reply : h !! cte_index p tcbReply = Some (fresh_slot (cap_reply_cap true (p + TCB_OFFSET)));
  sl_tcb : h !! cte_index cptr seL4_CapInitThreadTCB = Some (fresh_slot (cap_thread_cap (p + TCB_OFFSET)))
}.

Definition same_queues (k k' : ks) : Prop :=
  ksReadyQueues k' = ksReadyQueues k ∧ ksReadyQueuesL1Bitmap k' = ksReadyQueuesL1Bitmap k ∧ ksReadyQueuesL2Bitmap k' = ksReadyQueuesL2Bitmap k ∧
  ksCurThread k' = ksCurThread k ∧ ksIdleThread k' = ksIdleThread k.

Lemma wp_root_slot pos (Q : Z → boot_state → Prop) s : Q (cte_index cptr pos) s → wp (root_slot root_cnode_cap pos) Q s.
Proof. done. Qed.

Lemma wp_derive_frame slot (Q : deriveCap_ret_t → boot_state → Prop) s :
  Q (mk_derive EXCEPTION_NONE buffer_cap) s → wp (in_kernel (deriveCap slot ipcbuf_cap)) Q s.
Proof. by destruct s. Qed.

Lemma wp_create_initial_thread (Q : option Z → boot_state → Prop) s : freemem_ok (freemem s) → ¬ free (freemem s) 0 → caps_ready s →
  (∀ p, block_ok p → (∀ a, in_block p a → free (freemem s) a) → p + TCB_OFFSET ≠ ksCurThread (kernel s)) →
  ((∀ f q, f ∈ freemem s → ¬ fits_in 10 f q) → Q None s) →
  (∀ p s', block_ok p → block_taken p (freemem s) (freemem s') → tcbs (kernel s') = <[p + TCB_OFFSET := initial_tcb]> (clear_region p 10 (tcbs (kernel s))) →
     slots_of p (ctes (kernel s')) → same_queues (kernel s) (kernel s') → ksCurDomain (kernel s') = 0 → ksDomainTime (kernel s') = domain_time →
     bi_frame s' = bi_frame s → Q (Some (p + TCB_OFFSET)) s') →
  wp (create_initial_thread root_cnode_cap vspace_cap v_entry bi_frame_vptr ipcbuf_vptr ipcbuf_cap) Q s.
Proof.
  intros Hok H0 [Hc Hv Hbuf [tc Htc] Hkept [Hdom Hlen]] Hcur Hnone Hsome. unfold create_initial_thread. apply wp_alloc_thread; [done..|]. intros p fm' Hb Ht.
  assert (Hw : wrap32 (p + TCB_OFFSET) = p + TCB_OFFSET) by (apply wrap32_small; destruct Hb; unfold is_word, TCB_OFFSET; change word_mod with (2 ^ 32); lia).
  assert (Hslot : TCB_PTR_CTE_PTR (p + TCB_OFFSET) tcbReply = cte_index p tcbReply).
  { unfold TCB_PTR_CTE_PTR. rewrite <- Hw, tcb_block_base; [done|destruct Hb; lia..|apply Hb]. }
  rewrite Hw. clear Hnone. set (t := p + TCB_OFFSET) in *.
  assert (Hout : ∀ i, 0 ≤ i < seL4_NumInitialCaps → ¬ in_block p (cte_index cptr i)). { intros i Hi Ha. apply (Hkept i Hi). by apply (proj1 (proj2 Ht)). }
  assert (Hne : ∀ i j, 0 ≤ i < seL4_NumInitialCaps → 0 ≤ j < 6 → cte_index cptr i = cte_index p j → False).
  { intros i j Hi Hj E. apply (Hout i Hi). rewrite E, block_slot by done. unfold in_block. lia. }
  set (k := kernel s) in *. set (h := ctes (with_block p k)).
  assert (Hsl : ∀ j, 0 ≤ j < 6 → h !! cte_index p j = Some null_slot) by (intros; by apply block_slots).
  assert (Hin : ∀ i, 0 ≤ i < seL4_NumInitialCaps → h !! cte_index cptr i = ctes k !! cte_index cptr i) by (intros; apply (block_outside p _ (ctes k)); auto).
  rewrite <- Hin in Hc, Hv, Hbuf, Htc by done.
  set (s1 := s <| freemem := fm' |> <| kernel ::= with_block p |>). set (others := clear_region p 10 (tcbs k)).
  assert (M : making t others s1 zero_tcb h s1) by by split.
  assert (Hcur1 : t ≠ ksCurThread (kernel s1)) by (apply (Hcur p Hb), Ht).
  assert (Hdom1 : ksDomSchedule (kernel s1) !! Z.to_nat (ksDomScheduleIdx (kernel s1)) = Some (0, domain_time)) by exact Hdom.
  assert (Hend : ∀ s', boot_rest s' = boot_rest s1 → same_queues k (kernel s') ∧ freemem s' = fm' ∧ bi_frame s' = bi_frame s).
  { intros s' E. unfold boot_rest in E. by simplify_eq E. }
  clearbody s1 h. apply wp_bind. eapply making_tcb; [exact M|]. clear M. intros s2 M.
  apply wp_bind. eapply making_context; [exact M|]. clear s2 M. intros s2 M.
  apply wp_bind, wp_root_slot, wp_bind, wp_derive_frame. cbn [dc_status dc_cap]. apply wp_bind, wp_root_slot.
  assert (Hne' : ∀ j i, 0 ≤ j < 6 → 0 ≤ i < seL4_NumInitialCaps → cte_index p j = cte_index cptr i → False) by (intros j i ? ? E; by apply (Hne i j)).
  assert (HA : ∀ i j, 0 ≤ i < 12 → 0 ≤ j < 12 → cte_index cptr i = cte_index cptr j → i = j) by (intros ? ? ? ? ?%cte_index_apart; lia).
  assert (HD : ∀ i j, 0 ≤ i < 6 → 0 ≤ j < 6 → cte_index p i = cte_index p j → i = j) by (intros ? ? ? ? ?%cte_index_apart; lia).
  apply wp_bind. eapply making_insert; [exact M|exact Hc|by apply Hsl|by intros ?%Hne|done|done|]. clear s2 M. intros s2 M. apply wp_bind, wp_root_slot.
  apply wp_bind. eapply making_insert; [exact M|by slot_lookup; exact Hv|by slot_lookup; apply Hsl|by intros ?%Hne|done|done|].
  clear s2 M. intros s2 M. apply wp_bind. eapply making_insert; [exact M|by slot_lookup; exact Hbuf|by slot_lookup; apply Hsl|by intros ?%Hne|done|done|].
  clear s2 M. intros s2 M. apply wp_bind. eapply making_tcb; [exact M|]. clear s2 M. intros s2 M.
  do 2 (apply wp_bind; eapply making_register; [exact M|]; clear s2 M; intros s2 M).
  apply wp_bind. eapply making_tcb; [exact M|]. clear s2 M. intros s2 M.
  apply wp_bind. eapply making_reply; [exact M|rewrite Hslot; by slot_lookup; apply Hsl|]. clear s2 M. intros s2 M. rewrite Hslot in M.
  apply wp_bind. eapply making_state; [exact Hcur1|exact M|]. clear s2 M. intros s2 M.
  apply wp_bind. eapply making_domain; [exact M|exact Hdom1|]. destruct M as [Mt Mh Mr]. destruct (Hend s2 Mr) as (Hq & Hf & Hbi).
  apply wp_bind, wp_in_kernel, wp_modify, wp_bind, wp_assert; [by apply andb_true_iff; split; [|apply Z.ltb_lt]|].
  apply wp_bind, wp_root_slot, wp_bind. unfold write_slot. apply wp_in_kernel. eapply wp_cte_set; [cbn; rewrite Mh; by slot_lookup; exact Htc|].
  apply wp_ret. apply (Hsome p); try done.
  - by cbn; rewrite Hf.
  - cbn. rewrite Mh. split; by slot_lookup.
Qed.

(** ** Both threads *)

(** Two threads and empty queues: the idle thread is current, the other one is to run. *)
Lemma two_threads_inv k p q start : block_ok p → block_ok q → p ≠ q →
  tcbs k = <[q + TCB_OFFSET := initial_tcb]> (<[p + TCB_OFFSET := idle_tcb start]> ∅) →
  ksReadyQueues k = replicate 256 (mk_queue 0 0) → ksReadyQueuesL1Bitmap k = 0 → ksReadyQueuesL2Bitmap k = replicate 9 0 →
  ksIdleThread k = p + TCB_OFFSET → ksCurThread k = p + TCB_OFFSET → ksSchedulerAction k = q + TCB_OFFSET →
  ksCurDomain k = 0 → ksDomainTime k ≠ 0 → sched_inv k.
Proof.
  intros Hp Hq Hne Et Eq E1 E2 Ei Ec Ea Ed Hdt.
  assert (Hcases : ∀ t c, tcbs k !! t = Some c → t = q + TCB_OFFSET ∧ c = initial_tcb ∨ t = p + TCB_OFFSET ∧ c = idle_tcb start).
  { intros t c Hc. rewrite Et in Hc. apply lookup_insert_Some in Hc as [[<- <-]|[_ Hc]]; [auto|]. apply lookup_insert_Some in Hc as [[<- <-]|[_ Hc]]; [auto|done]. }
  assert (Hidle : tcbs k !! ksIdleThread k = Some (idle_tcb start)).
  { rewrite Et, Ei, lookup_insert_ne, lookup_insert_eq; [done|unfold TCB_OFFSET; lia]. }
  assert (Hrun : runnable k (ksSchedulerAction k)) by (exists initial_tcb; by rewrite Et, Ea, lookup_insert_eq).
  destruct Hp as [Hp1 Hp2 _], Hq as [Hq1 Hq2 _]. split.
  - exists (λ _, []). split; [|by intros ? ? ?%elem_of_nil]. apply sched_ok_boot. split_and!; try done. apply map_Forall_lookup.
    intros t c [[-> ->]|[-> ->]]%Hcases; (split; [unfold TCB_OFFSET; lia|done]).
  - intros t c [[-> _]|[-> _]]%Hcases; unfold TCB_OFFSET, SchedulerAction_ChooseNewThread; lia.
  - rewrite Ec, <- Ei, Hidle. by eexists.
  - done.
  - by right; right.
  - intros E. rewrite Ea in E. unfold SchedulerAction_ResumeCurrentThread, TCB_OFFSET in E. lia.
  - intros t (c & Hc & Hr) _. rewrite Ea. apply Hcases in Hc as [[-> ->]|[-> ->]]; [auto|done].
  - by exists (idle_tcb start).
Qed.

(** The kernel before the threads are made. *)
Definition no_threads (k : ks) : Prop := tcbs k = ∅ ∧ queues_boot k ∧ ksCurThread k = 0.

Lemma wp_init_core_state t (Q : unit → ks → Prop) k :
  (∀ k', tcbs k' = tcbs k → ctes k' = ctes k → same_queues (k <| ksCurThread := ksIdleThread k |>) k' → ksSchedulerAction k' = t →
     ksCurDomain k' = ksCurDomain k → ksDomainTime k' = ksDomainTime k → Q tt k') →
  wp (init_core_state t) Q k.
Proof.
  intros HQ. unfold init_core_state. apply wp_bind. unfold when, arch_call_made. destruct (_ && _); [apply wp_modify|apply wp_ret].
  all: by apply wp_bind, wp_gets, wp_bind, wp_modify, wp_bind, wp_modify, wp_modify, HQ.
Qed.

(** C10: the part of [init_sys_state] that makes the threads ([create_idle_thread],
    [create_initial_thread] and [init_core_state]), on free memory outside the root
    CNode and with no thread yet.  It fails only for want of a block of 1024 bytes.
    Otherwise there are two threads: the idle thread is the current one, and the first
    thread, with the highest priority, the entry point of its image and the address
    of the boot information in its registers, is the one to run next, so that the
    invariant of the scheduler holds.  The first thread's block holds copies of the
    capabilities of the root CNode, the address space and the buffer (unmapped) and a
    reply capability, and its own capability is in the root CNode. *)
Theorem init_threads_correct tsc start i s : freemem_ok (freemem s) → ¬ free (freemem s) 0 → caps_ready s → no_threads (kernel s) → bi_frame s = Some i →
  wp (init_threads tsc start root_cnode_cap vspace_cap ipcbuf_cap v_entry bi_frame_vptr ipcbuf_vptr) (λ ok s',
    if ok : bool then
      sched_inv (kernel s') ∧ ksCurThread (kernel s') = ksIdleThread (kernel s') ∧
      ∃ p q, tcbs (kernel s') = <[q + TCB_OFFSET := initial_tcb]> (<[p + TCB_OFFSET := idle_tcb start]> ∅) ∧ p ≠ q ∧
        ksIdleThread (kernel s') = p + TCB_OFFSET ∧ ksSchedulerAction (kernel s') = q + TCB_OFFSET ∧ slots_of q (ctes (kernel s')) ∧
        (∀ a, free (freemem s') a → free (freemem s) a ∧ ¬ in_block p a ∧ ¬ in_block q a) ∧ bi_frame s' = Some (i <| bi_archInfo := tsc |>)
    else ∀ f q, f ∈ freemem s' → ¬ fits_in 10 f q) s.
Proof.
  intros Hok H0 Hcaps (Et & (Eq & E1 & E2 & _) & Ecur) Hi. unfold init_threads. apply wp_bind. eapply wp_bi_set; [done|]. apply wp_bind.
  apply wp_create_idle_thread; [done..|intros Hno; by apply wp_ret|].
  intros p s1 Hp (Hok1 & Hp1 & Hp2) Et1 Eidle Hkeep Q1 Q2 Q3 Ecur1 D1 D2 Ebi1. cbn [negb].
  assert (Hcaps1 : caps_ready s1).
  { destruct Hcaps as [Hc Hv Hb Htc Hk Hd].
    assert (Hin : ∀ j, 0 ≤ j < seL4_NumInitialCaps → ctes (kernel s1) !! cte_index cptr j = ctes (kernel s) !! cte_index cptr j).
    { intros j Hj. apply Hkeep. intros Ha. by apply (Hk j Hj), Hp1. }
    split; rewrite ?Hin by done; try done; [|by rewrite D1, D2]. intros j Hj Ha. by apply (Hk j Hj), Hp2. }
  apply wp_bind, wp_create_initial_thread; [done| |done| |intros Hno; by apply wp_ret|].
  { intros Ha. by apply H0, Hp2. }
  { intros q Hq _. rewrite Ecur1. destruct Hq. unfold TCB_OFFSET. lia. }
  intros q s2 Hq (Hok2 & Hq1 & Hq2) Et2 Hsl (F1 & F2 & F3 & F4 & F5) Ed Edt Ebi.
  assert (Hpq : ∀ a, in_block p a → in_block q a → False) by (intros a Ha Hb; by apply Hq1, Hp2 in Hb as [_ Hb]).
  assert (Hne : p ≠ q) by (intros ->; apply (Hpq q); unfold in_block; lia).
  apply wp_bind, wp_in_kernel, wp_init_core_state. intros k' G1 G2 (G3 & G4 & G5 & G6 & G7) G8 G9 G10. apply wp_ret.
  assert (Et' : tcbs k' = <[q + TCB_OFFSET := initial_tcb]> (<[p + TCB_OFFSET := idle_tcb start]> ∅)).
  { rewrite G1, Et2, Et1. change (tcbs (kernel _)) with (tcbs (kernel s)). rewrite Et. f_equal.
    apply map_eq. intros a. rewrite clear_region_lookup. destruct (in_region q 10 a) eqn:Ea.
    - rewrite lookup_insert_ne; [done|]. intros <-. apply in_region_spec in Ea. apply (Hpq (p + TCB_OFFSET)); unfold in_block, TCB_OFFSET in *; lia.
    - destruct (decide (a = p + TCB_OFFSET)) as [->|Hn]; [by rewrite !lookup_insert_eq|]. rewrite !lookup_insert_ne by done.
      rewrite clear_region_lookup. by destruct (in_region p 10 a). }
  change (ksIdleThread k' = ksIdleThread (kernel s2)) in G7. change (ksCurThread k' = ksIdleThread (kernel s2)) in G6.
  change (ksReadyQueues k' = ksReadyQueues (kernel s2)) in G3. change (ksReadyQueuesL1Bitmap k' = ksReadyQueuesL1Bitmap (kernel s2)) in G4.
  change (ksReadyQueuesL2Bitmap k' = ksReadyQueuesL2Bitmap (kernel s2)) in G5.
  change (kernel (s <| bi_frame := _ |>)) with (kernel s) in *.
  split_and!.
  - change (sched_inv k'). apply (two_threads_inv k' p q start); [done..|by rewrite G3, F1, Q1|by rewrite G4, F2, Q2|by rewrite G5, F3, Q3|by rewrite G7, F5|by rewrite G6, F5|done|by rewrite G9, Ed|].
    rewrite G10, Edt. destruct Hcaps1 as [_ _ _ _ _ [_ Hd]]. lia.
  - change (ksCurThread k' = ksIdleThread k'). by rewrite G6, G7.
  - exists p, q. split_and!; [done|done|etransitivity; [exact G7|by rewrite F5]|done|by rewrite <- G2 in Hsl| |etransitivity; [exact Ebi|by rewrite Ebi1]].
    intros a Ha. apply Hq2 in Ha as [Ha Hna]. apply Hp2 in Ha as [Ha Hnb]. by split_and!.
Qed.
End first_thread.

(** A page of free memory, and the root CNode at 0x2000 with the capabilities. *)
Definition demo_root_cap : cap_t := cap_cnode_cap 16 16 0 0x2000.
Definition demo_vspace_cap : cap_t := cap_page_directory_cap true 1 0 0x6000.
Definition demo_ipcbuf_cap : cap_t := cap_frame_cap X86_SmallPage 1 0x9000 X86_MappingVSpace false VMReadWrite 0x7000.
Definition before_threads : boot_state :=
  mk_boot (cold_kernel <| ctes := <[0x2010 := null_slot]> (<[0x2020 := fresh_slot demo_root_cap]> (<[0x2030 := fresh_slot demo_vspace_cap]>
      (<[0x20a0 := fresh_slot demo_ipcbuf_cap]> ∅))) |>)
    [mk_region 0x4000 0x5000; REG_EMPTY] (Some zero_bootinfo) 12 (2 ^ 16) [].

Lemma before_threads_ok : freemem_ok (freemem before_threads) ∧ ¬ free (freemem before_threads) 0 ∧
  caps_ready 16 16 0 0x2000 true 1 0 0x6000 X86_SmallPage 1 0x9000 X86_MappingVSpace false VMReadWrite 0x7000 1 before_threads ∧
  no_threads (kernel before_threads).
Proof.
  assert (Hfree : ∀ a, free (freemem before_threads) a → 0x4000 ≤ a < 0x5000).
  { intros a (r & [-> |[-> |[]%elem_of_nil]%elem_of_cons]%elem_of_cons & Ha); unfold in_region_t in Ha; cbn in Ha; lia. }
  split_and!.
  - split; [repeat constructor; unfold region_ok; cbn; lia|]. intros [|[|]] [|[|]] r r' a ??; simplify_eq/=; unfold in_region_t; cbn; lia.
  - intros H%Hfree. lia.
  - split; try reflexivity; [by eexists| |done]. intros i Hi H%Hfree. unfold cte_index, wrap32 in H. change word_mod with (2 ^ 32) in H.
    unfold seL4_NumInitialCaps in Hi. rewrite Z.mod_small in H; lia.
  - by split_and!.
Qed.

Lemma init_threads_correct_witness :
  fst (init_threads 2000 0xe0001000 demo_root_cap demo_vspace_cap demo_ipcbuf_cap 0x8048010 0xa000 0x9000 before_threads) = Done true ∧
  wp (init_threads 2000 0xe0001000 demo_root_cap demo_vspace_cap demo_ipcbuf_cap 0x8048010 0xa000 0x9000)
    (λ ok s', ok = true → sched_inv (kernel s')) before_threads.
Proof.
  destruct before_threads_ok as (H1 & H2 & H3 & H4). split; [vm_compute; reflexivity|].
  eapply wp_mono; [apply (init_threads_correct 16 16 0 0x2000 true 1 0 0x6000 X86_SmallPage 1 0x9000 X86_MappingVSpace false VMReadWrite 0x7000
    0x8048010 0xa000 0x9000 1 2000 0xe0001000 zero_bootinfo before_threads); done|]. by intros ok s' H ->; apply H.
Defined.
