(* ===== verification/MemoryMap.v ===== *)
(** The memory map of the machine ([arch/x86/kernel/boot_sys.c]): which physical
    memory the kernel takes from the map the boot loader gives, and what becomes free
    memory of the kernel window. *)

From S2P Require Import Prelude Messages Caps Kernel CSpace CNode Scheduler Wakeup Paging VSpace IOSpace Ipc Waiting Signals.
From S2P Require Import Cancel Transfer Endpoint Reply Retype Threads Interrupts Regions Boot.

(** ** State *)

(** The variables of [boot_sys.c] beside those of the node, and the memory, by byte;
    the code runs with physical addresses. *)
Record boot_sys := mk_sys {
  node : boot_state;
  mem_p_regs : list region_t;
  ui_info : ui_info_t;
  phys : gmap Z Z
}.
#[export] Instance eta_sys : Eta boot_sys := λ s, mk_sys (node s) (mem_p_regs s) (ui_info s) (phys s).

Definition Sys (A : Type) : Type := M boot_sys A.
Definition in_node {A} (m : B A) : Sys A := zoom node (λ n s, s <| node := n |>) m.

(** A little-endian number of [n] bytes. *)
Definition byte_in (m : gmap Z Z) (a : Z) : Z := default 0 (m !! a).
Fixpoint le_read (n : nat) (m : gmap Z Z) (a : Z) : Z :=
  match n with O => 0 | S n => byte_in m a + 256 * le_read n m (a + 1) end.

(** ** The map *)

(** [multiboot_mmap_t] *)
Record multiboot_mmap_t := mk_mmap { base_addr : Z; mm_length : Z; mm_type : Z }.
Definition sizeof_mmap : Z := 24.
Definition multiboot_mmap_at (m : gmap Z Z) (a : Z) : multiboot_mmap_t :=
  mk_mmap (le_read 8 m (a + 4)) (le_read 8 m (a + 12)) (le_read 4 m (a + 20)).

Definition MULTIBOOT_MMAP_USEABLE_TYPE : Z := 1.
Definition HIGHMEM_PADDR : Z := 0x100000.
Definition PADDR_TOP : Z := 0x1fc00000.

(** The part of a region inside the kernel window. *)
Definition clip (r : region_t) : region_t :=
  mk_region (if PADDR_TOP <? r_start r then PADDR_TOP else r_start r) (if PADDR_TOP <? r_end r then PADDR_TOP else r_end r).

Definition add_mem_p_regs (reg : region_t) : Sys bool :=
  let reg := clip reg in
  if r_start reg =? r_end reg then mret true
  else
    l ← gets mem_p_regs;
    if (length l =? MAX_NUM_FREEMEM_REG)%nat then mret false
    else
      modify (λ s, s <| mem_p_regs ::= λ l, l ++ [reg] |>);;
      in_node (add_allocated_p_region reg).

(** The regions of an entry are 64 bits wide, a [p_region_t] is not. *)
Definition entry_region (e : multiboot_mmap_t) : region_t := mk_region (wrap32 (base_addr e)) (wrap32 (base_addr e + mm_length e)).
Definition usable (e : multiboot_mmap_t) : bool :=
  (base_addr e =? wrap32 (base_addr e)) && (mm_type e =? MULTIBOOT_MMAP_USEABLE_TYPE) && (HIGHMEM_PADDR <=? base_addr e).

Fixpoint parse_entries (fuel : nat) (mmap mmap_end : Z) : Sys bool :=
  if negb (mmap <? mmap_end) then mret true
  else
    match fuel with
    | O => halt_with OutOfFuel
    | S fuel =>
      e ← gets (λ s, multiboot_mmap_at (phys s) mmap);
      ok ← (if usable e then add_mem_p_regs (entry_region e) else mret true);
      if negb ok then mret false else parse_entries fuel (wrap32 (mmap + sizeof_mmap)) mmap_end
    end.

Definition parse_mem_map (mmap_length mmap_addr : Z) : Sys bool :=
  parse_entries (Z.to_nat (mmap_length / sizeof_mmap + 1)) mmap_addr (wrap32 (mmap_addr + mmap_length)).

(** ** What the map says *)

Fixpoint mmap_entries (n : nat) (m : gmap Z Z) (a : Z) : list multiboot_mmap_t :=
  match n with O => [] | S n => multiboot_mmap_at m a :: mmap_entries n m (a + sizeof_mmap) end.

(** The mmap_entries of a map of [len] bytes; the last one may reach beyond them. *)
Definition map_entries (m : gmap Z Z) (a len : Z) : list multiboot_mmap_t := mmap_entries (Z.to_nat ((len + 23) / 24)) m a.

Definition has_room (r : region_t) : bool := negb (r_start r =? r_end r).
Definition regions_of (l : list multiboot_mmap_t) : list region_t :=
  List.filter has_room (map (λ e, clip (entry_region e)) (List.filter usable l)).

(** No usable entry reaches the end of the address space, none is without memory and
    no two of them overlap. *)
Definition map_sound (l : list multiboot_mmap_t) : Prop :=
  (∀ e, e ∈ l → usable e = true → 0 < mm_length e ∧ base_addr e + mm_length e < 2 ^ 32) ∧ disjoint (regions_of l).

(** ** Adding regions *)

Lemma wp_in_node {A} (m : B A) (Q : A → boot_sys → Prop) s :
  wp m (λ a n, Q a (s <| node := n |>)) (node s) → wp (in_node m) Q s.
Proof. unfold in_node. apply (wp_zoom node (λ n s, s <| node := n |>)). Qed.

(** The regions added are recorded as allocated, in whatever order. *)
Record recorded (l : list region_t) (s : boot_sys) : Prop := {
  rd_regs : mem_p_regs s = l;
  rd_gapped : gapped (allocated_p_regions (node s));
  rd_len : (length (allocated_p_regions (node s)) ≤ length l ≤ MAX_NUM_FREEMEM_REG)%nat;
  rd_free : ∀ a, free (allocated_p_regions (node s)) a ↔ free l a
}.

(** What is neither the list of regions nor [allocated_p_regions]. *)
Definition same_but_regions (s s' : boot_sys) : Prop :=
  s' = s <| mem_p_regs := mem_p_regs s' |> <| node ::= λ n, n <| allocated_p_regions := allocated_p_regions (node s') |> |>.

Lemma regions_refl s : same_but_regions s s.
Proof. by destruct s as [[]]. Qed.
Lemma regions_trans s1 s2 s3 : same_but_regions s1 s2 → same_but_regions s2 s3 → same_but_regions s1 s3.
Proof. unfold same_but_regions. intros E2 E3. rewrite E2 in E3. by destruct s1 as [[]]. Qed.

Lemma overlap_common reg r : proper reg → proper r → overlaps reg r = true → ∃ a, in_region_t reg a ∧ in_region_t r a.
Proof.
  unfold proper, overlaps, in_region_t. intros Hp Hr [H1%Z.ltb_lt H2%Z.ltb_lt]%andb_true_iff. exists (Z.max (r_start reg) (r_start r)). lia.
Qed.

Lemma disjoint_last l r a : disjoint (l ++ [r]) → free l a → ¬ in_region_t r a.
Proof.
  intros Hd (x & [i Hi]%list_elem_of_lookup & Hx) Hr. assert (i < length l)%nat by by eapply lookup_lt_Some.
  assert (i = length l); [|lia]. apply (Hd i (length l) x r a); [by rewrite lookup_app_l|by apply list_lookup_middle|done|done].
Qed.

Lemma wp_add_mem_p_regs reg l s : recorded l s → has_room (clip reg) = true → proper (clip reg) → disjoint (l ++ [clip reg]) →
  wp (add_mem_p_regs reg) (λ ok s', same_but_regions s s' ∧
    if ok : bool then recorded (l ++ [clip reg]) s' else length l = MAX_NUM_FREEMEM_REG ∧ s' = s) s.
Proof.
  intros [El Hg Hlen Hfree] Hroom Hp Hd. unfold add_mem_p_regs. unfold has_room in Hroom. apply negb_true_iff in Hroom. rewrite Hroom.
  apply wp_bind, wp_gets. rewrite El. destruct (Nat.eqb_spec (length l) MAX_NUM_FREEMEM_REG) as [E|E].
  { apply wp_ret. by split; [apply regions_refl|]. }
  apply wp_bind, wp_modify, wp_in_node. set (s1 := s <| mem_p_regs ::= _ |>).
  eapply wp_mono; [apply (wp_add_allocated_p_region (clip reg) (node s)); [done|done|]|].
  { intros r Hr. apply not_true_iff_false. intros Ho. destruct Hg as [Hall _]. rewrite Forall_forall in Hall.
    apply overlap_common in Ho as (a & Ha & Har); [|done|by apply Hall]. apply (disjoint_last l (clip reg) a Hd); [|done]. apply Hfree. by exists r. }
  intros ok n [En H]. assert (E' : same_but_regions s (s1 <| node := n |>)).
  { unfold same_but_regions. change (node (s1 <| node := n |>)) with n. rewrite En. by destruct s as [[]]. }
  split; [done|]. destruct ok; [|unfold NUM_RESERVED_REGIONS, MAX_NUM_FREEMEM_REG in *; lia]. destruct H as (Hg' & Hl' & Hf').
  split; [by rewrite <- El|done| |].
  - change (node (s1 <| node := n |>)) with n. rewrite length_app. cbn. lia.
  - intros a. change (node (s1 <| node := n |>)) with n. rewrite Hf', Hfree, free_app, free_cons. unfold free at 3. split; [|intros [?|[?|(x & []%elem_of_nil & _)]]]; tauto.
Qed.

(** ** Parsing *)

Lemma sound_region e : usable e = true → 0 < mm_length e → base_addr e + mm_length e < 2 ^ 32 →
  region_ok (clip (entry_region e)) ∧ r_end (clip (entry_region e)) ≤ PADDR_TOP ∧ (has_room (clip (entry_region e)) = true → proper (clip (entry_region e))).
Proof.
  intros [[H1%Z.eqb_eq _]%andb_true_iff H2%Z.leb_le]%andb_true_iff Hl He. unfold clip, entry_region, region_ok, proper, has_room, HIGHMEM_PADDR, PADDR_TOP in *.
  cbn [r_start r_end]. rewrite <- H1, (wrap32_small (base_addr e + mm_length e)) by (unfold is_word; change word_mod with (2 ^ 32); lia).
  rewrite negb_true_iff, Z.eqb_neq. destruct (Z.ltb_spec 0x1fc00000 (base_addr e)), (Z.ltb_spec 0x1fc00000 (base_addr e + mm_length e)); lia.
Qed.

Lemma disjoint_prefix l l' : disjoint (l ++ l') → disjoint l.
Proof. intros H i j r r' a Hi Hj. apply H; by apply lookup_app_l_Some. Qed.

Lemma wp_parse_entries n : ∀ fuel a e l s, (n ≤ fuel)%nat → 0 ≤ a → a + 24 * Z.of_nat n < 2 ^ 32 → (e ≤ a ↔ n = O) → e ≤ a + 24 * Z.of_nat n → (a + 24 * (Z.of_nat n - 1) < e) →
  recorded l s → let es := mmap_entries n (phys s) a in
  (∀ x, x ∈ es → usable x = true → 0 < mm_length x ∧ base_addr x + mm_length x < 2 ^ 32) → disjoint (l ++ regions_of es) →
  wp (parse_entries fuel a e) (λ ok s', same_but_regions s s' ∧
    if ok : bool then recorded (l ++ regions_of es) s' else (MAX_NUM_FREEMEM_REG < length (l ++ regions_of es))%nat) s.
Proof.
  induction n as [|n IH]; intros fuel a e l s Hf Ha Hend Hz Hup Hlow Hrec es Hs Hd.
  - destruct fuel; cbn [parse_entries]; (destruct (Z.ltb_spec a e); [lia|]); apply wp_ret; (split; [apply regions_refl|]); by rewrite app_nil_r.
  - destruct fuel as [|fuel]; [lia|]. cbn [parse_entries]. destruct (Z.ltb_spec a e) as [Hlt|]; [|lia]. cbn [negb].
    apply wp_bind, wp_gets, wp_bind. set (x := multiboot_mmap_at (phys s) a) in *. set (rest := mmap_entries n (phys s) (a + sizeof_mmap)) in *.
    change es with (x :: rest) in *. clear es.
    assert (Hnext : ∀ l' s', phys s' = phys s → same_but_regions s s' → recorded l' s' → disjoint (l' ++ regions_of rest) →
      wp (parse_entries fuel (wrap32 (a + sizeof_mmap)) e) (λ ok s', same_but_regions s s' ∧
        if ok : bool then recorded (l' ++ regions_of rest) s' else (MAX_NUM_FREEMEM_REG < length (l' ++ regions_of rest))%nat) s').
    { intros l' s' Ep Hsame Hrec' Hd'. unfold rest in *. rewrite <- Ep in *. unfold sizeof_mmap in *. rewrite wrap32_small by (unfold is_word; change word_mod with (2 ^ 32); lia).
      eapply wp_mono; [apply (IH fuel (a + 24) e l' s'); try done; try lia|].
      - intros y Hy. apply Hs. by right.
      - intros ok s2 [Hsame2 H]. split; [by eapply regions_trans|done]. }
    destruct (usable x) eqn:Eu; cycle 1.
    { apply wp_ret. cbn [negb]. unfold regions_of in Hd |- *. cbn [List.filter] in Hd |- *. rewrite Eu in Hd |- *. apply Hnext; [done|apply regions_refl|done|done]. }
    destruct (sound_region x Eu) as (Hrok & _ & Hprop); [by apply Hs; [left|]..|].
    assert (Eregs : regions_of (x :: rest) = if has_room (clip (entry_region x)) then clip (entry_region x) :: regions_of rest else regions_of rest).
    { unfold regions_of. cbn [List.filter]. by rewrite Eu. }
    rewrite Eregs in *. destruct (has_room (clip (entry_region x))) eqn:Er; cycle 1.
    { unfold add_mem_p_regs. unfold has_room in Er. apply negb_false_iff in Er. rewrite Er. apply wp_ret. cbn [negb]. apply Hnext; [done|apply regions_refl|done|done]. }
    rewrite cons_middle, app_assoc in Hd |- *.
    eapply wp_mono; [apply (wp_add_mem_p_regs _ l s Hrec Er); [by apply Hprop|by eapply disjoint_prefix]|].
    intros [] s' [Hsame H]; cbn [negb].
    + apply Hnext; [|done|done|done]. by rewrite Hsame.
    + destruct H as [Hl ->]. apply wp_ret. split; [apply regions_refl|]. rewrite !length_app. cbn. lia.
Qed.

Lemma wp_parse_mem_map len a s : 0 ≤ a → 0 ≤ len → a + len + 24 < 2 ^ 32 → mem_p_regs s = [] → allocated_p_regions (node s) = [] →
  map_sound (map_entries (phys s) a len) →
  wp (parse_mem_map len a) (λ ok s', same_but_regions s s' ∧
    if ok : bool then recorded (regions_of (map_entries (phys s) a len)) s' else (MAX_NUM_FREEMEM_REG < length (regions_of (map_entries (phys s) a len)))%nat) s.
Proof.
  intros Ha Hl Hend Em Eal [Hs Hd]. unfold parse_mem_map, map_entries in *. unfold sizeof_mmap at 1. rewrite wrap32_small by (unfold is_word; change word_mod with (2 ^ 32); lia).
  pose proof (Z.div_mod (len + 23) 24 ltac:(lia)). pose proof (Z.mod_pos_bound (len + 23) 24 ltac:(lia)).
  pose proof (Z.div_mod len 24 ltac:(lia)). pose proof (Z.mod_pos_bound len 24 ltac:(lia)).
  apply (wp_parse_entries (Z.to_nat ((len + 23) / 24)) _ _ _ [] s); try lia; try done.
  split; [done|by rewrite Eal; split; constructor|rewrite Eal; cbn; lia|by rewrite Eal].
Qed.

(** ** Free memory *)

Lemma disjoint_cons r l : disjoint (r :: l) ↔ disjoint l ∧ ∀ a, in_region_t r a → ¬ free l a.
Proof.
  split.
  - intros H. split.
    + intros i j x y a Hi Hj Hx Hy. assert (S i = S j) by (by apply (H (S i) (S j) x y a)). lia.
    + intros a Ha (x & [i Hi]%list_elem_of_lookup & Hx). by assert (O = S i) by (by apply (H O (S i) r x a)).
  - intros [H Hr] [|i] [|j] x y a Hi Hj Hx Hy; cbn in Hi, Hj; simplify_eq; try done.
    + destruct (Hr a Hx). exists y. split; [|done]. by apply list_elem_of_lookup; exists j.
    + destruct (Hr a Hy). exists x. split; [|done]. by apply list_elem_of_lookup; exists i.
    + f_equal. by apply (H i j x y a).
Qed.

Lemma first_empty_app l k : Forall (λ r, is_reg_empty r = false) l → first_empty (l ++ replicate (S k) REG_EMPTY) = Some (length l).
Proof. induction 1 as [|r l Hr _ IH]; [done|]. cbn [app first_empty]. by rewrite Hr, IH. Qed.

(** The kernel's view of the part of a region above [floor]. *)
Definition window (floor : Z) (r : region_t) : region_t := paddr_to_pptr_reg (above_floor floor r).
Definition windows (floor : Z) (l : list region_t) : list region_t := List.filter has_room (map (window floor) l).

Definition in_window (r : region_t) : Prop := region_ok r ∧ r_end r ≤ PADDR_TOP.

Lemma window_ok floor r : 0 ≤ floor ≤ PADDR_TOP → in_window r → region_ok (window floor r) ∧
  ∀ a, in_region_t (window floor r) a ↔ floor ≤ a - PPTR_BASE ∧ in_region_t r (a - PPTR_BASE).
Proof.
  intros Hf [[Hr _] Ht]. unfold window, paddr_to_pptr_reg, above_floor, region_ok, in_region_t, ptrFromPAddr, PPTR_BASE, PADDR_TOP in *. cbn [r_start r_end].
  destruct (Z.ltb_spec (r_start r) floor), (Z.ltb_spec (r_end r) floor); rewrite !wrap32_small by (unfold is_word; change word_mod with (2 ^ 32); lia); split; try lia; intros a; lia.
Qed.

Lemma windows_spec floor l : 0 ≤ floor ≤ PADDR_TOP → Forall in_window l → disjoint l →
  Forall region_ok (windows floor l) ∧ disjoint (windows floor l) ∧ ∀ a, free (windows floor l) a ↔ floor ≤ a - PPTR_BASE ∧ free l (a - PPTR_BASE).
Proof.
  intros Hf. induction 1 as [|r l Hr Hl IH]; intros Hd.
  { split_and!; [constructor|by intros i j x y a ?|]. intros a. split; [by intros (x & []%elem_of_nil & _)|by intros (_ & x & []%elem_of_nil & _)]. }
  apply disjoint_cons in Hd as [Hd Hra]. destruct (IH Hd) as (H1 & H2 & H3). destruct (window_ok floor r Hf Hr) as [Hok Hin].
  unfold windows in *. cbn [map List.filter]. destruct (has_room (window floor r)) eqn:Er.
  - split_and!; [by constructor| |intros a; rewrite !free_cons, Hin, H3; tauto]. apply disjoint_cons. split; [done|].
    intros a [_ Ha]%Hin [_ Hfr]%H3. by apply (Hra (a - PPTR_BASE)).
  - split_and!; [done|done|]. intros a. rewrite H3, free_cons. split; [tauto|]. intros [Hfl [Ha|Ha]]; [|done].
    assert (Hw : in_region_t (window floor r) a) by by apply Hin. by apply negb_false_iff, (empty_not_in _ a) in Er.
Qed.

Lemma wp_insert_regions floor l : ∀ l1 k s, 0 ≤ floor ≤ PADDR_TOP → Forall in_window l → Forall (λ r, is_reg_empty r = false) l1 →
  freemem s = l1 ++ replicate k REG_EMPTY → (length l ≤ k)%nat →
  wp (insert_regions floor l) (λ _ s', ∃ k', s' = s <| freemem := l1 ++ windows floor l ++ replicate k' REG_EMPTY |>) s.
Proof.
  induction l as [|r l IH]; intros l1 k s Hf Hl Hl1 Es Hk; cbn [insert_regions].
  { apply wp_ret. exists k. cbn. rewrite <- Es. by destruct s. }
  apply Forall_cons in Hl as [Hr Hl]. destruct (window_ok floor r Hf Hr) as [[Hle _] _]. apply wp_bind. unfold insert_region. apply wp_bind, wp_assert; [apply Z.leb_le; cbn in *; lia|].
  fold (window floor r). destruct k as [|k]; [cbn in Hk; lia|]. cbn [length] in Hk.
  destruct (is_reg_empty (window floor r)) eqn:Ee.
  - apply wp_ret. assert (Er : has_room (window floor r) = false) by by apply negb_false_iff.
    unfold windows. cbn [map List.filter]. rewrite Er. apply (IH l1 (S k)); try done. lia.
  - assert (Er : has_room (window floor r) = true) by by apply negb_true_iff.
    apply wp_bind, wp_gets. rewrite Es, first_empty_app by done. apply wp_bind, wp_modify, wp_ret.
    set (s1 := s <| freemem ::= _ |>). assert (E1 : freemem s1 = (l1 ++ [window floor r]) ++ replicate k REG_EMPTY).
    { change (freemem s1) with (<[length l1 := window floor r]> (freemem s)). rewrite Es, insert_app_r_alt, Nat.sub_diag by lia. cbn. by rewrite <- app_assoc. }
    eapply wp_mono; [apply (IH (l1 ++ [window floor r]) k s1 Hf Hl); [by apply Forall_app; split; [|constructor]|done|lia]|].
    intros _ s' [k' ->]. exists k'. unfold windows. cbn [map List.filter]. rewrite Er. rewrite <- !app_assoc. done.
Qed.

(** The free memory after [init_freemem]. *)
Lemma wp_init_freemem ui_p_reg l s : 0 ≤ r_end ui_p_reg ≤ PADDR_TOP → Forall in_window l → disjoint l → (length l ≤ MAX_NUM_FREEMEM_REG)%nat →
  wp (init_freemem ui_p_reg l) (λ _ s', s' = s <| freemem := freemem s' |> ∧ freemem_ok (freemem s') ∧
    ∀ a, free (freemem s') a ↔ r_end ui_p_reg ≤ a - PPTR_BASE ∧ free l (a - PPTR_BASE)) s.
Proof.
  intros Hf Hl Hd Hlen. unfold init_freemem. apply wp_bind, wp_modify.
  eapply wp_mono; [apply (wp_insert_regions (r_end ui_p_reg) l [] MAX_NUM_FREEMEM_REG); try done|]. intros _ s' [k ->].
  destruct (windows_spec (r_end ui_p_reg) l Hf Hl Hd) as (H1 & H2 & H3). split; [by destruct s|].
  change (freemem _) with (windows (r_end ui_p_reg) l ++ replicate k REG_EMPTY).
  assert (Hno : ∀ r a, r ∈ replicate k REG_EMPTY → ¬ in_region_t r a) by (intros r a [-> _]%elem_of_replicate; unfold in_region_t; cbn; lia).
  split; [split|].
  - apply Forall_app. split; [done|]. apply Forall_replicate. unfold region_ok. cbn. lia.
  - intros i j x y a Hi Hj Hx Hy. assert (Hin : ∀ i r, (windows (r_end ui_p_reg) l ++ replicate k REG_EMPTY) !! i = Some r → in_region_t r a → windows (r_end ui_p_reg) l !! i = Some r).
    { intros i' r Hi' Hr. apply lookup_app_Some in Hi' as [?|[_ Hi']]; [done|]. exfalso. apply (Hno r a); [|done]. by eapply list_elem_of_lookup_2. }
    apply (H2 i j x y a); eauto.
  - intros a. rewrite <- H3, free_app. split; [intros [?|(r & Hr & Ha)]; [done|by apply Hno in Ha]|by left].
Qed.

Lemma regions_in_window l : map_sound l → Forall in_window (regions_of l).
Proof.
  intros [Hs _]. apply Forall_forall. intros r Hr. unfold regions_of in Hr. rewrite list_elem_of_In, filter_In in Hr. destruct Hr as [Hr _].
  apply in_map_iff in Hr as (e & <- & He). apply filter_In in He as [He Hu]. apply list_elem_of_In in He.
  destruct (sound_region e Hu) as (H1 & H2 & _); [by apply Hs..|]. by split.
Qed.

(** Reading the map, as [try_boot_sys] does, and making it free memory, as
    [init_sys_state] does with the regions read. *)
Definition boot_memory (mmap_length mmap_addr : Z) (ui_p_reg : region_t) : Sys bool :=
  modify (λ s, s <| mem_p_regs := [] |>);;
  in_node init_allocated_p_regions;;
  ok ← parse_mem_map mmap_length mmap_addr;
  if negb ok then mret false
  else
    l ← gets mem_p_regs;
    in_node (init_freemem ui_p_reg l);;
    mret true.

(** C13: [parse_mem_map] and [init_freemem].  When the usable regions of the map end
    below 4 GiB and do not overlap, no assertion fails.  The map is refused only for
    more than 16 regions with memory in the kernel window.  Otherwise exactly these
    regions are kept from the devices, and the free memory is sound: an address is
    free when its physical address is in one of them and behind the user image. *)
Theorem boot_memory_correct len addr ui_p_reg s : let regs := regions_of (map_entries (phys s) addr len) in
  0 ≤ addr → 0 ≤ len → addr + len + 24 < 2 ^ 32 → map_sound (map_entries (phys s) addr len) → 0 ≤ r_end ui_p_reg ≤ PADDR_TOP →
  wp (boot_memory len addr ui_p_reg) (λ ok s',
    if ok : bool then
      mem_p_regs s' = regs ∧ gapped (allocated_p_regions (node s')) ∧ (∀ a, free (allocated_p_regions (node s')) a ↔ free regs a) ∧
      freemem_ok (freemem (node s')) ∧ ∀ a, free (freemem (node s')) a ↔ r_end ui_p_reg ≤ a - PPTR_BASE ∧ free regs (a - PPTR_BASE)
    else (MAX_NUM_FREEMEM_REG < length regs)%nat) s.
Proof.
  intros regs Ha Hl Hend Hs Hui. unfold boot_memory. apply wp_bind, wp_modify, wp_bind, wp_in_node, wp_modify. set (s1 := s <| mem_p_regs := [] |> <| node := _ |>).
  apply wp_bind. eapply wp_mono; [apply (wp_parse_mem_map len addr s1); done|]. change (phys s1) with (phys s). fold regs.
  intros [] s2 [_ Hrec]; cbn [negb]; [|by apply wp_ret]. destruct Hrec as [El Hg Hlen Hf]. apply wp_bind, wp_gets, wp_bind, wp_in_node. rewrite El.
  eapply wp_mono; [apply (wp_init_freemem ui_p_reg regs (node s2) Hui); [by apply regions_in_window|apply Hs|lia]|].
  intros _ n (En & Hok & Hfr). apply wp_ret. change (mem_p_regs (s2 <| node := n |>)) with (mem_p_regs s2). change (node (s2 <| node := n |>)) with n.
  split_and!; [done|by rewrite En|by rewrite En|done|done].
Qed.

(** The first megabyte, sixteen of memory, and a device. *)
Definition demo_map : gmap Z Z :=
  list_to_map ([(0x1014, 1); (0x102c, 1); (0x1044, 2)] ++ [(0x100e, 10)] ++ [(0x101e, 0x10); (0x1027, 1)] ++ [(0x1037, 0xfe); (0x103e, 0x10)]).
Definition demo_sys : boot_sys := mk_sys early_boot [] (mk_ui_info REG_EMPTY 0 0) demo_map.

Lemma demo_map_entries : map_entries demo_map 0x1000 72 = [mk_mmap 0 0xa0000 1; mk_mmap 0x100000 0x1000000 1; mk_mmap 0xfe000000 0x100000 2].
Proof. vm_compute. reflexivity. Qed.

Lemma demo_map_sound : map_sound (map_entries (phys demo_sys) 0x1000 72).
Proof.
  change (phys demo_sys) with demo_map. rewrite demo_map_entries. split.
  - intros e [-> |[-> |[-> |[]%elem_of_nil]%elem_of_cons]%elem_of_cons]%elem_of_cons; cbn; lia.
  - intros [|i] [|j] r r' a Hi Hj; cbn in Hi, Hj; by rewrite ?lookup_nil in *.
Qed.

Lemma boot_memory_correct_witness :
  regions_of (map_entries (phys demo_sys) 0x1000 72) = [mk_region 0x100000 0x1100000] ∧
  wp (boot_memory 72 0x1000 (mk_region 0x300000 0x320000)) (λ ok s', ok = true → freemem_ok (freemem (node s'))) demo_sys.
Proof.
  split; [vm_compute; reflexivity|].
  eapply wp_mono; [apply (boot_memory_correct 72 0x1000 (mk_region 0x300000 0x320000) demo_sys); [done..|apply demo_map_sound|done]|].
  intros ok s' H ->. apply H.
Defined.
