(* ===== verification/Image.v ===== *)
(** The image of the first thread: an ELF file among the boot modules is loaded behind
    the modules and moved to its place behind the kernel ([elf.c], [boot_sys.c]). *)

From S2P Require Import Prelude Messages Caps Kernel CSpace CNode Scheduler Wakeup Paging VSpace IOSpace Ipc Waiting Signals.
From S2P Require Import Cancel Transfer Endpoint Reply Retype Threads Interrupts Regions Boot MemoryMap.

(** ** Memory *)

(** [memcpy], byte by byte from the first; [memset] with 0. *)
Fixpoint copy_bytes (n : nat) (dst src : Z) (m : gmap Z Z) : gmap Z Z :=
  match n with O => m | S n => copy_bytes n (wrap32 (dst + 1)) (wrap32 (src + 1)) (<[dst := byte_in m src]> m) end.
Fixpoint zero_bytes (n : nat) (dst : Z) (m : gmap Z Z) : gmap Z Z :=
  match n with O => m | S n => zero_bytes n (wrap32 (dst + 1)) (<[dst := 0]> m) end.

Definition memcpy_phys (dst src n : Z) : Sys unit := modify (λ s, s <| phys ::= copy_bytes (Z.to_nat n) dst src |>).
Definition memset0 (dst n : Z) : Sys unit := modify (λ s, s <| phys ::= zero_bytes (Z.to_nat n) dst |>).
Definition memzero_phys (dst n : Z) : Sys unit :=
  assert (dst mod 4 =? 0);;
  assert (n mod 4 =? 0);;
  memset0 dst n.

(** ** ELF files *)

(** [Elf32_Header_t] and [Elf32_Phdr_t], as far as they are used. *)
Definition e_ident (m : gmap Z Z) (f i : Z) : Z := byte_in m (f + i).
Definition e_entry (m : gmap Z Z) (f : Z) : Z := le_read 4 m (f + 24).
Definition e_phoff (m : gmap Z Z) (f : Z) : Z := le_read 4 m (f + 28).
Definition e_phnum (m : gmap Z Z) (f : Z) : Z := le_read 2 m (f + 44).

Record Elf32_Phdr_t := mk_phdr { p_offset : Z; p_vaddr : Z; p_filesz : Z; p_memsz : Z }.
Definition phdr_read (m : gmap Z Z) (a : Z) : Elf32_Phdr_t := mk_phdr (le_read 4 m (a + 4)) (le_read 4 m (a + 8)) (le_read 4 m (a + 16)) (le_read 4 m (a + 20)).
(** [phdr[i]] *)
Definition phdr_at (m : gmap Z Z) (f i : Z) : Elf32_Phdr_t := phdr_read m (wrap32 (wrap32 (f + e_phoff m f) + 32 * i)).

Definition elf_checkFile (m : gmap Z Z) (f : Z) : bool :=
  (e_ident m f 0 =? 127) && (e_ident m f 1 =? 69) && (e_ident m f 2 =? 76) && (e_ident m f 3 =? 70) && (e_ident m f 4 =? 1).

Definition grow_bounds (p : Elf32_Phdr_t) (r : region_t) : region_t :=
  if 0 <? p_memsz p then
    let sect_start := p_vaddr p in
    let sect_end := wrap32 (sect_start + p_memsz p) in
    mk_region (if sect_start <? r_start r then sect_start else r_start r) (if r_end r <? sect_end then sect_end else r_end r)
  else r.

(** The loop over the program headers from [i]; [n] are left. *)
Fixpoint bounds_from (n : nat) (m : gmap Z Z) (f i : Z) (r : region_t) : region_t :=
  match n with O => r | S n => bounds_from n m f (i + 1) (grow_bounds (phdr_at m f i) r) end.
Definition elf_getMemoryBounds (m : gmap Z Z) (f : Z) : region_t := bounds_from (Z.to_nat (e_phnum m f)) m f 0 (mk_region 0xffffffff 0).

Definition load_segment (f offset i : Z) : Sys unit :=
  p ← gets (λ s, phdr_at (phys s) f i);
  let src := wrap32 (f + p_offset p) in
  let dst := wrap32 (p_vaddr p + offset) in
  let len := p_filesz p in
  memcpy_phys dst src len;;
  p ← gets (λ s, phdr_at (phys s) f i);
  memset0 (wrap32 (dst + len)) (wrap32 (p_memsz p - len)).

(** [e_phnum] is read again before every round. *)
Fixpoint elf_load_from (fuel : nat) (f offset i : Z) : Sys unit :=
  n ← gets (λ s, e_phnum (phys s) f);
  if negb (i <? n) then mret tt
  else
    match fuel with
    | O => halt_with OutOfFuel
    | S fuel => load_segment f offset i;; elf_load_from fuel f offset (i + 1)
    end.
Definition elf_load (f offset : Z) : Sys unit := elf_load_from (Z.to_nat (2 ^ 16)) f offset 0.

(** ** Where to load *)

Definition module_paddr_region_valid (l : list region_t) (pa_start pa_end : Z) : bool :=
  existsb (λ r, (r_start r <=? pa_start) && (pa_end <? r_end r)) l.

Fixpoint find_load_paddr (l : list region_t) (min_paddr image_size : Z) : Z :=
  match l with
  | [] => 0
  | r :: l =>
    let start := if r_start r <? min_paddr then min_paddr else r_start r in
    if image_size <=? wrap32 (r_end r - start) then start else find_load_paddr l min_paddr image_size
  end.

(** 0 for an image that is refused. *)
Definition load_boot_module (f load_paddr : Z) : Sys Z :=
  m ← gets phys;
  if negb (elf_checkFile m f) then mret 0
  else
    let v := elf_getMemoryBounds m f in
    let entry := e_entry m f in
    if r_end v =? 0 then mret 0
    else
      let v := v <| r_end ::= λ e, ROUND_UP e 12 |> in
      if negb (r_start v mod 4096 =? 0) then mret 0
      else if PPTR_USER_TOP <? wrap32 (r_end v + 2 * BIT 12) then mret 0
      else if (entry <? r_start v) || (r_end v <=? entry) then mret 0
      else
        l ← gets mem_p_regs;
        let size := wrap32 (r_end v - r_start v) in
        let load_paddr := find_load_paddr l load_paddr size in
        assert (negb (load_paddr =? 0));;
        let p_end := wrap32 (load_paddr + size) in
        let pv_offset := wrap32 (load_paddr - r_start v) in
        modify (λ s, s <| ui_info := mk_ui_info (mk_region load_paddr p_end) pv_offset entry |>);;
        if negb (module_paddr_region_valid l load_paddr p_end) then mret 0
        else
          memzero_phys load_paddr (wrap32 (p_end - load_paddr));;
          elf_load f pv_offset;;
          mret p_end.

(** The part of [try_boot_sys] that loads the image behind the modules and moves it
    behind the kernel. *)
Definition load_image (modules mods_end_paddr ki_end : Z) : Sys bool :=
  load_paddr ← load_boot_module modules mods_end_paddr;
  if load_paddr =? 0 then mret false
  else
    let ui_start := ki_end in
    let ui_end := wrap32 (wrap32 (ui_start + load_paddr) - mods_end_paddr) in
    memcpy_phys ui_start mods_end_paddr (wrap32 (ui_end - ui_start));;
    let down := wrap32 (mods_end_paddr - ui_start) in
    modify (λ s, s <| ui_info ::= λ u, mk_ui_info (mk_region (wrap32 (r_start (ui_p_reg u) - down)) (wrap32 (r_end (ui_p_reg u) - down)))
                                         (wrap32 (ui_pv_offset u - down)) (ui_v_entry u) |>);;
    mret true.

(** ** Copies *)

Definition in_bytes (d n a : Z) : bool := (d <=? a) && (a <? d + n).

Lemma byte_insert m d v a : byte_in (<[d := v]> m) a = if a =? d then v else byte_in m a.
Proof.
  unfold byte_in. destruct (Z.eqb_spec a d) as [->|H]; [by rewrite lookup_insert_eq|]. by rewrite lookup_insert_ne.
Qed.

Lemma copy_bytes_spec n : ∀ d s m a, 0 ≤ d → d + Z.of_nat n ≤ 2 ^ 32 → 0 ≤ s → s + Z.of_nat n ≤ 2 ^ 32 → d ≤ s ∨ s + Z.of_nat n ≤ d →
  byte_in (copy_bytes n d s m) a = if in_bytes d (Z.of_nat n) a then byte_in m (s + (a - d)) else byte_in m a.
Proof.
  unfold in_bytes. induction n as [|n IH]; intros d s m a Hd Hdn Hs Hsn Hds; cbn [copy_bytes].
  { destruct (Z.leb_spec d a), (Z.ltb_spec a (d + Z.of_nat 0)); try done. lia. }
  destruct n as [|n].
  { cbn [copy_bytes]. rewrite byte_insert. destruct (Z.eqb_spec a d), (Z.leb_spec d a), (Z.ltb_spec a (d + Z.of_nat 1)); try lia; cbn [andb]; try done. f_equal. lia. }
  rewrite !wrap32_small by (unfold is_word; change word_mod with (2 ^ 32); lia). rewrite IH by lia.
  destruct (Z.leb_spec (d + 1) a), (Z.ltb_spec a (d + 1 + Z.of_nat (S n))), (Z.leb_spec d a), (Z.ltb_spec a (d + Z.of_nat (S (S n)))); try lia; cbn [andb]; rewrite byte_insert.
  all: destruct (Z.eqb_spec a d), (Z.eqb_spec (s + 1 + (a - (d + 1))) d); try lia; f_equal; lia.
Qed.

Lemma zero_bytes_spec n : ∀ d m a, 0 ≤ d → d + Z.of_nat n ≤ 2 ^ 32 →
  byte_in (zero_bytes n d m) a = if in_bytes d (Z.of_nat n) a then 0 else byte_in m a.
Proof.
  unfold in_bytes. induction n as [|n IH]; intros d m a Hd Hdn; cbn [zero_bytes].
  { destruct (Z.leb_spec d a), (Z.ltb_spec a (d + Z.of_nat 0)); try done. lia. }
  destruct n as [|n].
  { cbn [zero_bytes]. rewrite byte_insert. destruct (Z.eqb_spec a d), (Z.leb_spec d a), (Z.ltb_spec a (d + Z.of_nat 1)); try lia; done. }
  rewrite !wrap32_small by (unfold is_word; change word_mod with (2 ^ 32); lia). rewrite IH by lia. rewrite byte_insert.
  destruct (Z.leb_spec (d + 1) a), (Z.ltb_spec a (d + 1 + Z.of_nat (S n))), (Z.leb_spec d a), (Z.ltb_spec a (d + Z.of_nat (S (S n)))), (Z.eqb_spec a d); try lia; done.
Qed.

Lemma le_read_same n m m' a : (∀ k, a ≤ k < a + Z.of_nat n → byte_in m' k = byte_in m k) → le_read n m' a = le_read n m a.
Proof.
  revert a. induction n as [|n IH]; intros a H; [done|]. cbn [le_read]. rewrite H by lia. f_equal. f_equal. apply IH. intros k Hk. apply H. lia.
Qed.

Lemma le_read_range n m a : (∀ k, 0 ≤ byte_in m k < 256) → 0 ≤ le_read n m a < 256 ^ Z.of_nat n.
Proof.
  intros Hb. revert a. induction n as [|n IH]; intros a; cbn [le_read]; [lia|]. specialize (IH (a + 1)). specialize (Hb a).
  rewrite Nat2Z.inj_succ, Z.pow_succ_r by lia. lia.
Qed.

(** ** Sound files *)

(** A file of [len] bytes at [f] with its headers and segments inside, in memory of
    bytes; no segment has more bytes in the file than in memory or wraps around. *)
Record elf_ok (m : gmap Z Z) (f len : Z) : Prop := {
  el_bytes : ∀ k, 0 ≤ byte_in m k < 256;
  el_place : 0 ≤ f ∧ f + len < 2 ^ 32 ∧ 52 ≤ len;
  el_table : e_phoff m f + 32 * e_phnum m f ≤ len;
  el_segs : ∀ i, 0 ≤ i < e_phnum m f → let p := phdr_at m f i in
    p_filesz p ≤ p_memsz p ∧ p_offset p + p_filesz p ≤ len ∧ p_vaddr p + p_memsz p < 2 ^ 32
}.

Definition same_file (f len : Z) (m m' : gmap Z Z) : Prop := ∀ k, f ≤ k < f + len → byte_in m' k = byte_in m k.

Section sound_file.
Context (m : gmap Z Z) (f len : Z) (Hok : elf_ok m f len).

Lemma phnum_range : 0 ≤ e_phnum m f < 2 ^ 16.
Proof. apply (le_read_range 2), Hok. Qed.

Lemma phdr_range a : is_word (p_offset (phdr_read m a)) ∧ is_word (p_vaddr (phdr_read m a)) ∧ is_word (p_filesz (phdr_read m a)) ∧ is_word (p_memsz (phdr_read m a)).
Proof. split_and!; apply (le_read_range 4), Hok. Qed.

Lemma phdr_place i : 0 ≤ i < e_phnum m f → phdr_at m f i = phdr_read m (f + e_phoff m f + 32 * i) ∧ f ≤ f + e_phoff m f + 32 * i ∧ f + e_phoff m f + 32 * i + 32 ≤ f + len.
Proof.
  intros Hi. destruct Hok as [Hb Hp Ht _]. pose proof (le_read_range 4 m (f + 28) Hb) as Hr. fold (e_phoff m f) in Hr.
  unfold phdr_at. rewrite (wrap32_small (f + e_phoff m f)), wrap32_small by (unfold is_word; change word_mod with (2 ^ 32); lia). split; [done|lia].
Qed.

Lemma same_phnum m' : same_file f len m m' → e_phnum m' f = e_phnum m f.
Proof. intros H. destruct Hok as [_ Hp _ _]. apply le_read_same. intros k Hk. apply H. lia. Qed.

Lemma same_phdr m' i : same_file f len m m' → 0 ≤ i < e_phnum m f → phdr_at m' f i = phdr_at m f i.
Proof.
  intros H Hi. destruct (phdr_place i Hi) as (E & H1 & H2). destruct Hok as [_ Hp _ _].
  assert (Eo : e_phoff m' f = e_phoff m f) by (apply le_read_same; intros k Hk; apply H; lia).
  unfold phdr_at in *. rewrite Eo. unfold phdr_at in E. pose proof (le_read_range 4 m (f + 28) (el_bytes _ _ _ Hok)) as Hr. fold (e_phoff m f) in Hr.
  assert (Ea : wrap32 (wrap32 (f + e_phoff m f) + 32 * i) = f + e_phoff m f + 32 * i) by (rewrite (wrap32_small (f + e_phoff m f)), wrap32_small by (unfold is_word; change word_mod with (2 ^ 32); lia); lia).
  rewrite Ea. unfold phdr_read. f_equal; apply le_read_same; intros k Hk; apply H; lia.
Qed.
End sound_file.

Lemma in_bytes_spec d n a : in_bytes d n a = true ↔ d ≤ a < d + n.
Proof. unfold in_bytes. rewrite andb_true_iff, Z.leb_le, Z.ltb_lt. done. Qed.

Ltac bytes_facts := repeat match goal with
  | H : in_bytes _ _ _ = true |- _ => apply in_bytes_spec in H
  | H : in_bytes _ _ _ = false |- _ => apply not_true_iff_false in H; rewrite in_bytes_spec in H
  end.

(** ** Loading *)

Section loading.
Context (m0 : gmap Z Z) (file len offset lp size : Z) (Hok : elf_ok m0 file len).

Notation seg := (phdr_at m0 file).
Definition seg_dst (i : Z) : Z := wrap32 (p_vaddr (phdr_at m0 file i) + offset).
Definition in_seg (i a : Z) : bool := in_bytes (seg_dst i) (p_memsz (phdr_at m0 file i)) a.
(** What the byte at [a] of segment [i] is to be. *)
Definition seg_byte (i a : Z) : Z :=
  if in_bytes (seg_dst i) (p_filesz (phdr_at m0 file i)) a then byte_in m0 (file + p_offset (phdr_at m0 file i) + (a - seg_dst i)) else 0.

(** The segments lie in the place for the image, beside each other and beside the file. *)
Record placed : Prop := {
  pl_range : 0 ≤ lp ∧ 0 ≤ size ∧ lp + size ≤ 2 ^ 32;
  pl_segs : ∀ i, 0 ≤ i < e_phnum m0 file → 0 < p_memsz (seg i) → lp ≤ seg_dst i ∧ seg_dst i + p_memsz (seg i) ≤ lp + size;
  pl_apart : file + len ≤ lp ∨ lp + size ≤ file;
  pl_disjoint : ∀ i j a, 0 ≤ i < e_phnum m0 file → 0 ≤ j < e_phnum m0 file → in_seg i a = true → in_seg j a = true → i = j
}.
Hypothesis Hpl : placed.

Lemma wp_load_segment i (Q : unit → boot_sys → Prop) s : same_file file len m0 (phys s) → 0 ≤ i < e_phnum m0 file →
  (∀ s', s' = s <| phys := phys s' |> → same_file file len m0 (phys s') →
     (∀ a, byte_in (phys s') a = if in_seg i a then seg_byte i a else byte_in (phys s) a) → Q tt s') →
  wp (load_segment file offset i) Q s.
Proof.
  intros Hsame Hi HQ. destruct Hok as [_ (Hf & Hfl & _) _ Hsegs], Hpl as [(Hl0 & Hs0 & Hl32) Hin Hap _]. specialize (Hsegs i Hi) as (Hfm & Hoff & Hv). specialize (Hin i Hi).
  destruct (phdr_place m0 file len Hok i Hi) as (Ep & _). destruct (phdr_range m0 file len Hok (file + e_phoff m0 file + 32 * i)) as (Ho & _ & Hfs & Hms).
  rewrite <- Ep in Ho, Hfs, Hms. unfold is_word in Ho, Hfs, Hms. change word_mod with (2 ^ 32) in *.
  assert (Hd : 0 ≤ seg_dst i < 2 ^ 32) by apply wrap32_range.
  unfold load_segment. apply wp_bind, wp_gets. rewrite (same_phdr m0 file len Hok (phys s) i Hsame Hi). set (p := phdr_at m0 file i) in *. fold (seg_dst i).
  rewrite (wrap32_small (file + p_offset p)) by (unfold is_word; change word_mod with (2 ^ 32); lia).
  apply wp_bind, wp_modify. set (s1 := s <| phys ::= _ |>).
  assert (H1 : ∀ a, byte_in (phys s1) a = if in_bytes (seg_dst i) (p_filesz p) a then byte_in (phys s) (file + p_offset p + (a - seg_dst i)) else byte_in (phys s) a).
  { intros a. change (phys s1) with (copy_bytes (Z.to_nat (p_filesz p)) (seg_dst i) (file + p_offset p) (phys s)). rewrite copy_bytes_spec by lia. by rewrite Z2Nat.id by lia. }
  assert (Hout : ∀ k, file ≤ k < file + len → in_bytes (seg_dst i) (p_memsz p) k = false).
  { intros k Hk. apply not_true_iff_false. rewrite in_bytes_spec. lia. }
  assert (Hsub : ∀ a, in_bytes (seg_dst i) (p_filesz p) a = true → in_bytes (seg_dst i) (p_memsz p) a = true) by (intros a; rewrite !in_bytes_spec; lia).
  assert (Hsame1 : same_file file len m0 (phys s1)).
  { intros k Hk. rewrite H1. destruct (in_bytes (seg_dst i) (p_filesz p) k) eqn:E; [apply Hsub in E; by rewrite Hout in E|by apply Hsame]. }
  apply wp_bind, wp_gets. rewrite (same_phdr m0 file len Hok (phys s1) i Hsame1 Hi). fold p. unfold memset0. apply wp_modify.
  assert (H2 : ∀ a, byte_in (zero_bytes (Z.to_nat (wrap32 (p_memsz p - p_filesz p))) (wrap32 (seg_dst i + p_filesz p)) (phys s1)) a =
    if in_bytes (seg_dst i) (p_memsz p) a then seg_byte i a else byte_in (phys s) a).
  { intros a. rewrite (wrap32_small (p_memsz p - p_filesz p)) by (unfold is_word; change word_mod with (2 ^ 32); lia).
    destruct (Z.eq_dec (p_memsz p) (p_filesz p)) as [E|E].
    - rewrite E, Z.sub_diag. cbn [Z.to_nat zero_bytes]. rewrite H1. unfold seg_byte. fold p. destruct (in_bytes _ _ a) eqn:Ea; [|done]. apply Hsame. apply in_bytes_spec in Ea. lia.
    - rewrite (wrap32_small (seg_dst i + p_filesz p)) by (unfold is_word; change word_mod with (2 ^ 32); lia). rewrite zero_bytes_spec, Z2Nat.id, H1 by lia. unfold seg_byte. fold p.
      destruct (in_bytes (seg_dst i + p_filesz p) (p_memsz p - p_filesz p) a) eqn:Ea, (in_bytes (seg_dst i) (p_filesz p) a) eqn:Eb, (in_bytes (seg_dst i) (p_memsz p) a) eqn:Ec; try done.
      all: bytes_facts; try lia. apply Hsame. lia. }
  apply HQ; [done| |exact H2]. intros k Hk. etransitivity; [apply H2|]. rewrite Hout by done. by apply Hsame.
Qed.

(** The byte at [a] after the first [n] segments. *)
Fixpoint loaded (n : nat) (a : Z) : Z :=
  match n with O => byte_in m0 a | S n => if in_seg (Z.of_nat n) a then seg_byte (Z.of_nat n) a else loaded n a end.

Lemma wp_elf_load_from n : ∀ fuel i s, Z.of_nat i + Z.of_nat n = e_phnum m0 file → (n ≤ fuel)%nat → same_file file len m0 (phys s) →
  (∀ a, byte_in (phys s) a = loaded i a) →
  wp (elf_load_from fuel file offset (Z.of_nat i)) (λ _ s', s' = s <| phys := phys s' |> ∧ ∀ a, byte_in (phys s') a = loaded (i + n) a) s.
Proof.
  induction n as [|n IH]; intros fuel i s Hn Hfuel Hsame Hb.
  - destruct fuel; cbn [elf_load_from]; apply wp_bind, wp_gets; rewrite (same_phnum m0 file len Hok _ Hsame); (destruct (Z.ltb_spec (Z.of_nat i) (e_phnum m0 file)); [lia|]);
      apply wp_ret; (split; [by destruct s|by rewrite Nat.add_0_r]).
  - destruct fuel as [|fuel]; [lia|]. cbn [elf_load_from]. apply wp_bind, wp_gets. rewrite (same_phnum m0 file len Hok _ Hsame).
    destruct (Z.ltb_spec (Z.of_nat i) (e_phnum m0 file)); [|lia]. cbn [negb]. apply wp_bind, wp_load_segment; [done|lia|].
    intros s1 E1 Hsame1 Hb1. replace (Z.of_nat i + 1) with (Z.of_nat (S i)) by lia.
    eapply wp_mono; [apply (IH fuel (S i) s1); [lia|lia|done|]|].
    + intros a. rewrite Hb1, Hb. done.
    + intros _ s' [E' Hb']. split; [rewrite E', E1; by destruct s|]. intros a. rewrite Hb'. f_equal. lia.
Qed.

Lemma loaded_in n i a : (n ≤ Z.to_nat (e_phnum m0 file))%nat → 0 ≤ i < Z.of_nat n → in_seg i a = true → loaded n a = seg_byte i a.
Proof.
  induction n as [|n IH]; intros Hn Hi Ha; [lia|]. cbn [loaded]. destruct (in_seg (Z.of_nat n) a) eqn:E.
  - assert (i = Z.of_nat n) as ->; [|done]. apply (pl_disjoint Hpl i (Z.of_nat n) a); try done; lia.
  - apply IH; [lia| |done]. destruct (Z.eq_dec i (Z.of_nat n)) as [->|]; [congruence|lia].
Qed.

Lemma loaded_out n a : (∀ i, 0 ≤ i < Z.of_nat n → in_seg i a = false) → loaded n a = byte_in m0 a.
Proof. induction n as [|n IH]; intros H; [done|]. cbn [loaded]. rewrite H by lia. apply IH. intros i Hi. apply H. lia. Qed.

Lemma wp_elf_load s : phys s = m0 →
  wp (elf_load file offset) (λ _ s', s' = s <| phys := phys s' |> ∧
    (∀ i a, 0 ≤ i < e_phnum m0 file → in_seg i a = true → byte_in (phys s') a = seg_byte i a) ∧
    ∀ a, (∀ i, 0 ≤ i < e_phnum m0 file → in_seg i a = false) → byte_in (phys s') a = byte_in m0 a) s.
Proof.
  intros Es. pose proof (phnum_range m0 file len Hok) as Hr. unfold elf_load. change 0 with (Z.of_nat 0).
  eapply wp_mono; [apply (wp_elf_load_from (Z.to_nat (e_phnum m0 file))); [lia|lia|by rewrite Es|by rewrite Es]|].
  intros _ s' [E Hb]. split; [done|]. split.
  - intros i a Hi Ha. rewrite Hb. apply loaded_in; [lia|lia|done].
  - intros a Ha. rewrite Hb. apply loaded_out. intros i Hi. apply Ha. lia.
Qed.
End loading.

(** ** Bounds of the image *)

Lemma grow_bounds_spec p r : is_word (p_vaddr p) → 0 ≤ p_memsz p → p_vaddr p + p_memsz p < 2 ^ 32 → 0 ≤ r_start r → 0 ≤ r_end r < 2 ^ 32 →
  let r' := grow_bounds p r in 0 ≤ r_start r' ≤ r_start r ∧ r_end r ≤ r_end r' < 2 ^ 32 ∧
    (0 < p_memsz p → r_start r' ≤ p_vaddr p ∧ p_vaddr p + p_memsz p ≤ r_end r') ∧ (r_end r = 0 ∨ r_start r < r_end r → r_end r' = 0 ∨ r_start r' < r_end r').
Proof.
  intros [Hv _] Hm Hw Hs He. unfold grow_bounds. destruct (Z.ltb_spec 0 (p_memsz p)); [|cbn; lia]. cbn [r_start r_end].
  rewrite wrap32_small by (unfold is_word; change word_mod with (2 ^ 32); lia).
  destruct (Z.ltb_spec (p_vaddr p) (r_start r)), (Z.ltb_spec (r_end r) (p_vaddr p + p_memsz p)); lia.
Qed.

Lemma bounds_from_spec m0 file len n : elf_ok m0 file len → ∀ i r, 0 ≤ i → i + Z.of_nat n ≤ e_phnum m0 file → 0 ≤ r_start r → 0 ≤ r_end r < 2 ^ 32 →
  let r' := bounds_from n m0 file i r in 0 ≤ r_start r' ≤ r_start r ∧ r_end r ≤ r_end r' < 2 ^ 32 ∧
    (∀ j, i ≤ j < i + Z.of_nat n → 0 < p_memsz (phdr_at m0 file j) →
       r_start r' ≤ p_vaddr (phdr_at m0 file j) ∧ p_vaddr (phdr_at m0 file j) + p_memsz (phdr_at m0 file j) ≤ r_end r') ∧
    (r_end r = 0 ∨ r_start r < r_end r → r_end r' = 0 ∨ r_start r' < r_end r').
Proof.
  intros Hok. induction n as [|n IH]; intros i r Hi Hn Hs He; cbn [bounds_from]; [cbn; split_and!; lia|].
  destruct (phdr_place m0 file len Hok i) as (Ep & _); [lia|]. destruct (phdr_range m0 file len Hok (file + e_phoff m0 file + 32 * i)) as (_ & Hv & _ & Hms0).
  pose proof (proj1 Hms0) as Hms. rewrite <- Ep in Hv, Hms. destruct (el_segs _ _ _ Hok i) as (_ & _ & Hw); [lia|].
  destruct (grow_bounds_spec (phdr_at m0 file i) r Hv Hms Hw Hs He) as (G1 & G2 & G3 & G4). set (r1 := grow_bounds _ _) in *.
  destruct (IH (i + 1) r1) as (H1 & H2 & H3 & H4); [lia..|]. split_and!; [lia..| |tauto].
  intros j Hj Hm. destruct (Z.eq_dec j i) as [->|Hne]; [specialize (G3 Hm); lia|apply H3; [lia|done]].
Qed.

Lemma bounds_spec m0 file len : elf_ok m0 file len → let v := elf_getMemoryBounds m0 file in
  0 ≤ r_start v ∧ 0 ≤ r_end v < 2 ^ 32 ∧ (r_end v = 0 ∨ r_start v < r_end v) ∧
  ∀ i, 0 ≤ i < e_phnum m0 file → 0 < p_memsz (phdr_at m0 file i) →
    r_start v ≤ p_vaddr (phdr_at m0 file i) ∧ p_vaddr (phdr_at m0 file i) + p_memsz (phdr_at m0 file i) ≤ r_end v.
Proof.
  intros Hok. pose proof (phnum_range m0 file len Hok) as Hr.
  destruct (bounds_from_spec m0 file len (Z.to_nat (e_phnum m0 file)) Hok 0 (mk_region 0xffffffff 0)) as (H1 & H2 & H3 & H4); [lia|cbn [r_start r_end]; lia..|].
  cbv zeta. unfold elf_getMemoryBounds. cbn [r_start r_end] in *. split_and!; try lia. intros i Hi. apply H3. lia.
Qed.

(** ** The image in its place *)

Definition image_end (m0 : gmap Z Z) (file : Z) : Z := ROUND_UP (r_end (elf_getMemoryBounds m0 file)) 12.
Definition image_size (m0 : gmap Z Z) (file : Z) : Z := wrap32 (image_end m0 file - r_start (elf_getMemoryBounds m0 file)).

(** The tests of [load_boot_module] before it looks for a place. *)
Definition acceptable (m0 : gmap Z Z) (file : Z) : bool :=
  let v := elf_getMemoryBounds m0 file in
  elf_checkFile m0 file && negb (r_end v =? 0) && (r_start v mod 4096 =? 0) && negb (PPTR_USER_TOP <? wrap32 (image_end m0 file + 2 * BIT 12))
  && negb ((e_entry m0 file <? r_start v) || (image_end m0 file <=? e_entry m0 file)).

Lemma image_bounds m0 file len : elf_ok m0 file len → acceptable m0 file = true → let v := elf_getMemoryBounds m0 file in
  image_size m0 file = image_end m0 file - r_start v ∧ 0 ≤ r_start v < image_end m0 file ∧ r_end v ≤ image_end m0 file < 2 ^ 32 ∧
  image_size m0 file mod 4096 = 0 ∧ r_start v ≤ e_entry m0 file < image_end m0 file.
Proof.
  intros Hok Hacc v. destruct (bounds_spec m0 file len Hok) as (H1 & H2 & H3 & _). fold v in H1, H2, H3. unfold acceptable in Hacc. fold v in Hacc.
  apply andb_true_iff in Hacc as [Hacc He]. apply andb_true_iff in Hacc as [Hacc _]. apply andb_true_iff in Hacc as [Hacc Ha%Z.eqb_eq]. apply andb_true_iff in Hacc as [_ Hz].
  apply negb_true_iff, Z.eqb_neq in Hz. apply negb_true_iff, orb_false_iff in He as [He1%Z.ltb_ge He2%Z.leb_gt].
  destruct (ROUND_UP_done (r_end v) 12) as (q & Hq & Hq32 & E); [lia..|]. change (ROUND_UP (r_end v) 12) with (image_end m0 file) in E. change (2 ^ 12) with 4096 in *.
  assert (Hne : 4096 * q < 2 ^ 32).
  { destruct (Z.eq_dec (4096 * q) (2 ^ 32)) as [Eq|]; [|lia]. rewrite Eq, Z.mod_same in E by lia. lia. }
  rewrite Z.mod_small in E by lia. assert (Hs : image_size m0 file = image_end m0 file - r_start v) by (apply wrap32_small; unfold is_word; change word_mod with (2 ^ 32); lia).
  split_and!; try lia. rewrite Hs, E, Zminus_mod, Ha, Z.mul_comm, Z.mod_mul by lia. done.
Qed.

(** The segments do not share addresses. *)
Definition segs_apart (m0 : gmap Z Z) (file : Z) : Prop := ∀ i j a, 0 ≤ i < e_phnum m0 file → 0 ≤ j < e_phnum m0 file →
  in_bytes (p_vaddr (phdr_at m0 file i)) (p_memsz (phdr_at m0 file i)) a = true →
  in_bytes (p_vaddr (phdr_at m0 file j)) (p_memsz (phdr_at m0 file j)) a = true → i = j.

(** The memory from [base] on holds the image: at the place of each address of a
    segment the byte of the file, or 0 behind what the file has; 0 elsewhere. *)
Record holds_image (m0 : gmap Z Z) (file base : Z) (m' : gmap Z Z) : Prop := {
  hi_segs : ∀ i a, 0 ≤ i < e_phnum m0 file → in_bytes (p_vaddr (phdr_at m0 file i)) (p_memsz (phdr_at m0 file i)) a = true →
    byte_in m' (base + (a - r_start (elf_getMemoryBounds m0 file))) =
      if in_bytes (p_vaddr (phdr_at m0 file i)) (p_filesz (phdr_at m0 file i)) a
      then byte_in m0 (file + p_offset (phdr_at m0 file i) + (a - p_vaddr (phdr_at m0 file i))) else 0;
  hi_rest : ∀ a, r_start (elf_getMemoryBounds m0 file) ≤ a < image_end m0 file →
    (∀ i, 0 ≤ i < e_phnum m0 file → in_bytes (p_vaddr (phdr_at m0 file i)) (p_memsz (phdr_at m0 file i)) a = false) →
    byte_in m' (base + (a - r_start (elf_getMemoryBounds m0 file))) = 0
}.

Section behind_modules.
Context (m0 : gmap Z Z) (file len lp : Z) (Hok : elf_ok m0 file len) (Hapart : segs_apart m0 file) (Hacc : acceptable m0 file = true).
Hypothesis Hlp : file + len ≤ lp ∧ lp mod 4096 = 0 ∧ lp + image_size m0 file < 2 ^ 32.

Notation vstart := (r_start (elf_getMemoryBounds m0 file)).
Notation offset := (wrap32 (lp - vstart)).

Lemma file_place : 0 ≤ file ∧ 0 < len.
Proof. destruct (el_place _ _ _ Hok). lia. Qed.

(** Zeroing the place leaves the file as it is. *)
Lemma zeroed_file m1 : (∀ a, byte_in m1 a = if in_bytes lp (image_size m0 file) a then 0 else byte_in m0 a) →
  same_file file len m0 m1 ∧ elf_ok m1 file len.
Proof.
  intros Hm. assert (Hsame : same_file file len m0 m1).
  { intros k Hk. rewrite Hm. destruct (in_bytes lp _ k) eqn:E; [|done]. apply in_bytes_spec in E. lia. }
  split; [done|]. pose proof (same_phnum m0 file len Hok m1 Hsame) as En. pose proof Hok as [Hb Hp Ht Hs].
  assert (Eo : e_phoff m1 file = e_phoff m0 file) by (apply le_read_same; intros k Hk; apply Hsame; lia).
  split; [|done|by rewrite En, Eo|].
  - intros k. rewrite Hm. destruct (in_bytes _ _ k); [lia|done].
  - rewrite En. intros i Hi. rewrite (same_phdr m0 file len Hok m1 i Hsame Hi). by apply Hs.
Qed.

Lemma seg_place i : 0 ≤ i < e_phnum m0 file → 0 < p_memsz (phdr_at m0 file i) →
  seg_dst m0 file offset i = lp + (p_vaddr (phdr_at m0 file i) - vstart) ∧
  vstart ≤ p_vaddr (phdr_at m0 file i) ∧ p_vaddr (phdr_at m0 file i) + p_memsz (phdr_at m0 file i) ≤ image_end m0 file.
Proof.
  intros Hi Hm. destruct (bounds_spec m0 file len Hok) as (_ & _ & _ & Hb). destruct (image_bounds m0 file len Hok Hacc) as (Hsz & _ & Hend & _).
  specialize (Hb i Hi Hm). pose proof file_place. split; [|lia]. unfold seg_dst, wrap32. change word_mod with (2 ^ 32). rewrite Z.add_mod_idemp_r by lia. rewrite Z.mod_small; lia.
Qed.

Lemma placed_behind m1 : same_file file len m0 m1 → elf_ok m1 file len → placed m1 file len offset lp (image_size m0 file).
Proof.
  intros Hsame Hok1. destruct (image_bounds m0 file len Hok Hacc) as (Hsz & Hst & Hend & _). pose proof file_place. pose proof (same_phnum m0 file len Hok m1 Hsame) as En.
  assert (Hseg : ∀ i, 0 ≤ i < e_phnum m0 file → seg_dst m1 file offset i = seg_dst m0 file offset i ∧ phdr_at m1 file i = phdr_at m0 file i).
  { intros i Hi. unfold seg_dst. by rewrite (same_phdr m0 file len Hok m1 i Hsame Hi). }
  split; [lia| |lia|]; rewrite En.
  - intros i Hi. destruct (Hseg i Hi) as [-> ->]. intros Hm. destruct (seg_place i Hi Hm) as (-> & ? & ?). lia.
  - intros i j a Hi Hj. unfold in_seg. destruct (Hseg i Hi) as [-> ->], (Hseg j Hj) as [-> ->]. intros Ha Hb.
    assert (0 < p_memsz (phdr_at m0 file i)) by (apply in_bytes_spec in Ha; lia). assert (0 < p_memsz (phdr_at m0 file j)) by (apply in_bytes_spec in Hb; lia).
    destruct (seg_place i Hi) as (Ei & _); [done|]. destruct (seg_place j Hj) as (Ej & _); [done|]. rewrite Ei, Ej in *.
    apply (Hapart i j (a - lp + vstart)); [done|done|..]; apply in_bytes_spec; bytes_facts; lia.
Qed.

(** The image in its first place. *)
Lemma wp_load_behind m1 s : phys s = m1 → (∀ a, byte_in m1 a = if in_bytes lp (image_size m0 file) a then 0 else byte_in m0 a) →
  wp (elf_load file offset) (λ _ s', s' = s <| phys := phys s' |> ∧ holds_image m0 file lp (phys s')) s.
Proof.
  intros Es Hm1. destruct (zeroed_file m1 Hm1) as [Hsame Hok1]. pose proof (placed_behind m1 Hsame Hok1) as Hpl. pose proof (same_phnum m0 file len Hok m1 Hsame) as En.
  destruct (image_bounds m0 file len Hok Hacc) as (Hsz & Hst & Hend & _).
  assert (Hseg : ∀ i, 0 ≤ i < e_phnum m0 file → phdr_at m1 file i = phdr_at m0 file i) by (intros i Hi; by apply (same_phdr m0 file len Hok m1)).
  eapply wp_mono; [apply (wp_elf_load m1 file len offset lp (image_size m0 file) Hok1 Hpl s Es)|]. intros _ s' (E & Hin & Hout). split; [done|]. rewrite En in Hin, Hout. split.
  - intros i a Hi Ha. assert (Hm : 0 < p_memsz (phdr_at m0 file i)) by (apply in_bytes_spec in Ha; lia). destruct (seg_place i Hi Hm) as (Ed & Hv & _).
    assert (Ed1 : seg_dst m1 file offset i = lp + (p_vaddr (phdr_at m0 file i) - vstart)) by (unfold seg_dst in *; by rewrite Hseg).
    rewrite (Hin i _ Hi); [|unfold in_seg; rewrite Ed1, Hseg by done; apply in_bytes_spec in Ha; apply in_bytes_spec; lia].
    unfold seg_byte. rewrite Ed1, Hseg by done.
    replace (in_bytes (lp + (p_vaddr (phdr_at m0 file i) - vstart)) (p_filesz (phdr_at m0 file i)) (lp + (a - vstart))) with (in_bytes (p_vaddr (phdr_at m0 file i)) (p_filesz (phdr_at m0 file i)) a).
    2: { apply eq_true_iff_eq. rewrite !in_bytes_spec. lia. }
    destruct (in_bytes _ (p_filesz _) a) eqn:Ef; [|done]. replace (file + p_offset (phdr_at m0 file i) + (lp + (a - vstart) - (lp + (p_vaddr (phdr_at m0 file i) - vstart))))
      with (file + p_offset (phdr_at m0 file i) + (a - p_vaddr (phdr_at m0 file i))) by lia.
    apply Hsame. apply in_bytes_spec in Ef. destruct (el_segs _ _ _ Hok i Hi) as (_ & Ho & _). destruct (phdr_place m0 file len Hok i Hi) as (Ep & _).
    destruct (phdr_range m0 file len Hok (file + e_phoff m0 file + 32 * i)) as (Hr & _). rewrite <- Ep in Hr. destruct Hr. lia.
  - intros a Ha Hno. rewrite Hout; [rewrite Hm1; replace (in_bytes lp _ _) with true; [done|symmetry; apply in_bytes_spec; lia]|].
    intros i Hi. unfold in_seg. rewrite Hseg by done. apply not_true_iff_false. intros Hc%in_bytes_spec. assert (Hm : 0 < p_memsz (phdr_at m0 file i)) by lia.
    destruct (seg_place i Hi Hm) as (Ed & _). unfold seg_dst in *. rewrite Hseg in Hc by done. rewrite Ed in Hc. specialize (Hno i Hi). bytes_facts. lia.
Qed.
End behind_modules.

Lemma wp_load_boot_module m0 file len lp min s : elf_ok m0 file len → segs_apart m0 file → phys s = m0 →
  (acceptable m0 file = true → find_load_paddr (mem_p_regs s) min (image_size m0 file) = lp) →
  file + len ≤ lp ∧ lp mod 4096 = 0 ∧ lp + image_size m0 file < 2 ^ 32 →
  wp (load_boot_module file min) (λ p s',
    if acceptable m0 file && module_paddr_region_valid (mem_p_regs s) lp (lp + image_size m0 file) then
      p = lp + image_size m0 file ∧ holds_image m0 file lp (phys s') ∧
      ui_info s' = mk_ui_info (mk_region lp p) (wrap32 (lp - r_start (elf_getMemoryBounds m0 file))) (e_entry m0 file)
    else p = 0 ∧ phys s' = phys s) s.
Proof.
  intros Hok Hap Es Hfind Hlp. unfold load_boot_module. apply wp_bind, wp_gets. rewrite Es. pose proof (file_place m0 file len Hok).
  destruct (acceptable m0 file) eqn:Hacc; cbn [andb].
  - destruct (image_bounds m0 file len Hok Hacc) as (Hsz & Hst & Hend & Hm4 & _). specialize (Hfind eq_refl). pose proof Hacc as Hc. unfold acceptable in Hc.
    apply andb_true_iff in Hc as [Hc He]. apply andb_true_iff in Hc as [Hc Ht]. apply andb_true_iff in Hc as [Hc Ha]. apply andb_true_iff in Hc as [Hf Hz].
    rewrite Hf. cbn [negb]. apply negb_true_iff in Hz. rewrite Hz.
    change (r_end (elf_getMemoryBounds m0 file <| r_end ::= λ e, ROUND_UP e 12 |>)) with (image_end m0 file).
    change (r_start (elf_getMemoryBounds m0 file <| r_end ::= λ e, ROUND_UP e 12 |>)) with (r_start (elf_getMemoryBounds m0 file)).
    rewrite Ha. cbn [negb]. apply negb_true_iff in Ht, He. rewrite Ht, He. apply wp_bind, wp_gets. fold (image_size m0 file). rewrite Hfind.
    apply wp_bind, wp_assert; [apply negb_true_iff, Z.eqb_neq; lia|]. rewrite (wrap32_small (lp + image_size m0 file)) by (unfold is_word; change word_mod with (2 ^ 32); lia).
    apply wp_bind, wp_modify. destruct (module_paddr_region_valid _ _ _); cbn [negb]; [|by apply wp_ret].
    replace (lp + image_size m0 file - lp) with (image_size m0 file) by lia. rewrite (wrap32_small (image_size m0 file)) by (unfold is_word; change word_mod with (2 ^ 32); lia).
    apply wp_bind. unfold memzero_phys. apply wp_bind, wp_assert; [apply Z.eqb_eq; destruct Hlp as (_ & Hal & _); apply Z.mod_divide in Hal as [z ->]; [|lia]; apply Z.mod_divide; [lia|]; exists (1024 * z); lia|].
    apply wp_bind, wp_assert; [apply Z.eqb_eq; apply Z.mod_divide in Hm4 as [z ->]; [|lia]; apply Z.mod_divide; [lia|]; exists (1024 * z); lia|].
    unfold memset0. apply wp_modify, wp_bind. set (s1 := _ <| phys ::= _ |>).
    eapply wp_mono; [apply (wp_load_behind m0 file len lp Hok Hap Hacc Hlp (phys s1) s1 eq_refl)|].
    + intros a. change (phys s1) with (zero_bytes (Z.to_nat (image_size m0 file)) lp (phys s)). rewrite zero_bytes_spec, Z2Nat.id, Es by lia. done.
    + intros _ s' [E Hi]. apply wp_ret. split_and!; [done|done|]. by rewrite E.
  - unfold acceptable in Hacc. set (v := elf_getMemoryBounds m0 file) in *.
    destruct (elf_checkFile m0 file); cbn [negb]; [|by apply wp_ret]. destruct (r_end v =? 0); cbn [negb andb] in *; [by apply wp_ret|].
    change (r_end (v <| r_end ::= λ e, ROUND_UP e 12 |>)) with (image_end m0 file). change (r_start (v <| r_end ::= λ e, ROUND_UP e 12 |>)) with (r_start v).
    destruct (r_start v mod 4096 =? 0); cbn [negb andb] in *; [|by apply wp_ret]. destruct (PPTR_USER_TOP <? _); cbn [negb andb] in *; [by apply wp_ret|].
    destruct (_ || _); cbn [negb] in *; [by apply wp_ret|done].
Qed.

(** C11: loading the image ([load_boot_module] and the move in [try_boot_sys]), for a
    sound file in front of [mods_end], where the image finds its place.  An image that
    passes the tests and fits into a region of memory ends up behind the kernel: every
    address of a segment, moved by [pv_offset], holds the byte of the file, or 0 behind
    the bytes the file has; the rest of the image is 0; the region, the offset and the
    entry point are those [init_sys_state] is to map.  Any other image is refused
    before memory is written. *)
Theorem load_image_correct m0 file len mods_end ki_end s : let v := elf_getMemoryBounds m0 file in let size := image_size m0 file in
  elf_ok m0 file len → segs_apart m0 file → phys s = m0 → file + len ≤ mods_end → mods_end mod 4096 = 0 → mods_end + size < 2 ^ 32 →
  0 ≤ ki_end ≤ mods_end → (acceptable m0 file = true → find_load_paddr (mem_p_regs s) mods_end size = mods_end) →
  wp (load_image file mods_end ki_end) (λ ok s',
    ok = acceptable m0 file && module_paddr_region_valid (mem_p_regs s) mods_end (mods_end + size) ∧
    if ok : bool then
      holds_image m0 file ki_end (phys s') ∧
      ui_info s' = mk_ui_info (mk_region ki_end (ki_end + size)) (wrap32 (ki_end - r_start v)) (e_entry m0 file) ∧
      (∀ a, r_start v ≤ a < image_end m0 file → wrap32 (a + ui_pv_offset (ui_info s')) = ki_end + (a - r_start v)) ∧
      r_start v ≤ e_entry m0 file < image_end m0 file
    else phys s' = phys s) s.
Proof.
  intros v size Hok Hap Es Hfile Hal Hend Hki Hfind. pose proof (file_place m0 file len Hok). unfold load_image.
  apply wp_bind. eapply wp_mono; [apply (wp_load_boot_module m0 file len mods_end mods_end s); done|]. intros p s1. fold size v.
  destruct (acceptable m0 file) eqn:Hacc; cbn [andb]; [|by intros [-> E]; apply wp_ret].
  destruct (image_bounds m0 file len Hok Hacc) as (Hsz & Hst & Hie & _ & Hent). fold size v in Hsz, Hst, Hie, Hent.
  destruct (module_paddr_region_valid _ _ _); [|by intros [-> E]; apply wp_ret]. intros (-> & Hi & Hu).
  destruct (Z.eqb_spec (mods_end + size) 0); [lia|].
  assert (Eend : wrap32 (wrap32 (ki_end + (mods_end + size)) - mods_end) = ki_end + size).
  { unfold wrap32. rewrite Zminus_mod_idemp_l. change word_mod with (2 ^ 32). rewrite Z.mod_small; lia. }
  rewrite Eend. replace (ki_end + size - ki_end) with size by lia. rewrite (wrap32_small size) by (unfold is_word; change word_mod with (2 ^ 32); lia).
  rewrite (wrap32_small (mods_end - ki_end)) by (unfold is_word; change word_mod with (2 ^ 32); lia).
  apply wp_bind, wp_modify, wp_bind, wp_modify, wp_ret. set (s2 := _ <| ui_info ::= _ |>).
  assert (Eu : ui_info s2 = mk_ui_info (mk_region ki_end (ki_end + size)) (wrap32 (ki_end - r_start v)) (e_entry m0 file)).
  { change (ui_info s2) with ((λ u, mk_ui_info (mk_region (wrap32 (r_start (ui_p_reg u) - (mods_end - ki_end))) (wrap32 (r_end (ui_p_reg u) - (mods_end - ki_end))))
      (wrap32 (ui_pv_offset u - (mods_end - ki_end))) (ui_v_entry u)) (ui_info s1)). rewrite Hu. cbn [ui_p_reg ui_pv_offset ui_v_entry r_start r_end].
    rewrite !(wrap32_small (_ - (mods_end - ki_end))) by (unfold is_word; change word_mod with (2 ^ 32); lia).
    f_equal; [f_equal; lia|]. unfold wrap32. rewrite Zminus_mod_idemp_l. f_equal. lia. }
  assert (Hmove : ∀ a, r_start v ≤ a < image_end m0 file → byte_in (phys s2) (ki_end + (a - r_start v)) = byte_in (phys s1) (mods_end + (a - r_start v))).
  { intros a Ha. change (phys s2) with (copy_bytes (Z.to_nat size) ki_end mods_end (phys s1)). rewrite copy_bytes_spec by lia. rewrite Z2Nat.id by lia.
    replace (in_bytes ki_end size _) with true; [f_equal; lia|]. symmetry. apply in_bytes_spec. lia. }
  split_and!; [done| |done| |lia|lia].
  - destruct Hi as [H1 H2]. split; [intros i a Hi Ha|intros a Ha Hno]; rewrite Hmove; try done; [by apply H1| |by apply H2].
    destruct (bounds_spec m0 file len Hok) as (_ & _ & _ & Hb). apply in_bytes_spec in Ha. specialize (Hb i Hi ltac:(lia)). fold v in Hb. lia.
  - intros a Ha. rewrite Eu. cbn [ui_pv_offset]. unfold wrap32. rewrite Z.add_mod_idemp_r by done. change word_mod with (2 ^ 32). rewrite Z.mod_small; lia.
Qed.

(** A file of one segment at 0x2000: two bytes of the file at 0x8000, six in memory. *)
Definition demo_file : gmap Z Z :=
  list_to_map ([(0x2000, 127); (0x2001, 69); (0x2002, 76); (0x2003, 70); (0x2004, 1); (0x2019, 0x80); (0x201c, 52); (0x202c, 1)] ++
    [(0x2038, 84); (0x203d, 0x80); (0x2044, 2); (0x2048, 6); (0x2054, 17); (0x2055, 18)]).
Definition file_sys : boot_sys := mk_sys early_boot [mk_region 0x1000 0x10000] (mk_ui_info REG_EMPTY 0 0) demo_file.

Lemma demo_file_seg i : 0 ≤ i < e_phnum demo_file 0x2000 → i = 0 ∧ phdr_at demo_file 0x2000 i = mk_phdr 84 0x8000 2 6.
Proof. change (e_phnum demo_file 0x2000) with 1. intros Hi. assert (i = 0) as -> by lia. by split. Qed.

Lemma demo_file_ok : elf_ok demo_file 0x2000 86 ∧ segs_apart demo_file 0x2000.
Proof.
  split.
  - split; [|lia|vm_compute; discriminate|].
    + intros k. unfold byte_in, demo_file. destruct (list_to_map _ !! k) as [v|] eqn:E; [|cbn; lia]. apply elem_of_list_to_map_2 in E. cbn [default from_option id].
      repeat (apply elem_of_cons in E as [[= -> ->]|E]; [lia|]). by apply elem_of_nil in E.
    + intros i Hi. destruct (demo_file_seg i Hi) as [_ ->]. cbn. lia.
  - intros i j a [-> _]%demo_file_seg [-> _]%demo_file_seg. done.
Qed.

Lemma load_image_correct_witness :
  fst (load_image 0x2000 0x3000 0x1800 file_sys) = Done true ∧
  wp (load_image 0x2000 0x3000 0x1800) (λ ok s', ok = true → holds_image demo_file 0x2000 0x1800 (phys s')) file_sys.
Proof.
  split; [vm_compute; reflexivity|].
  eapply wp_mono; [apply (load_image_correct demo_file 0x2000 86 0x3000 0x1800 file_sys); [apply demo_file_ok|apply demo_file_ok|reflexivity|lia|reflexivity| |lia|]|].
  - vm_compute. reflexivity.
  - intros _. vm_compute. reflexivity.
  - intros ok s' [_ H] ->. apply H.
Defined.
